(* ===== verification/_CoqProject ===== *)
-Q . S2P
Prelude.v
CString.v
Params.v
Users.v
Namecache.v
Bio.v
Log.v
Store.v
Fs.v
Path.v
Balloc.v
Inode.v
Content.v
Writei.v
Dir.v
Trunc.v
Sample.v
Kalloc.v
Vm.v
Walk.v
Uvm.v
Grow.v
Pipe.v
File.v
Proc.v
Ptable.v
Fork.v
Syscall.v
Sysfile.v
Exec.v
Sysproc.v
Priv.v
Access.v
Image.v
Spinlock.v
Grep.v
Sh.v
Console.v
Kbd.v
Printf.v
Umalloc.v
Mkfs.v
Tools.v
Calls.v
Ports.v
Mp.v
Apic.v
Ide.v
Boot.v
Sched.v
Uart.v
Rtc.v
Seg.v
Programs.v
Start.v
Asm.v
Usercall.v
