(* ===== verification/Prelude.v ===== *)
(** * A verification of xv6 with users, permissions and a name cache

    The program is a teaching kernel for the 32-bit x86 (src/), xv6 extended
    with a user database and sudo (users.c), owner and mode bits on inodes
    (perm.h, fs.c, sysfile.c) and a cache of directory names (namecache.c),
    and its user programs.  The development translates the C code into
    executable definitions and proves theorems about them.

    ** The parts and how they fit together

    From the disk up: ide.c, or memide.c in the build without a disk, moves
    sectors; bio.c caches blocks; log.c makes
    groups of block writes atomic; fs.c builds inodes, files, directories and
    path names on blocks, with namecache.c in front of directory scans; file.c
    and pipe.c give open files and pipes; sysfile.c and exec.c are the system
    calls on them.  Beside it: kalloc.c hands out physical pages; vm.c builds
    page tables from them; proc.c runs processes in these; syscall.c,
    sysproc.c and trap.c are the way in from user space; users.c decides who
    is who; spinlock.c and sleeplock.c protect all of it; console.c, kbd.c and
    uart.c are the terminal.  Below: bootmain.c loads the kernel, mp.c finds the
    processors, lapic.c and ioapic.c route interrupts, vm.c and trap.c fill the
    processor's tables, and main.c starts the other processors.  On top:
    printf.c, umalloc.c and ulib.c, the user library, sh.c, the shell, and the
    other programs.  mkfs.c builds the disk image on the host.

    ** How the code is modelled

    - A C integer is a [Z], with the wrap-around of its width written at the
      operations that can overflow ([u32], [i32], ...; this file).  A struct is a
      Record, a pointer into a table an index, a pointer to bytes the bytes
      from there on; memory pages and disk blocks are lists of bytes.
    - Kernel code is a computation in the monad [M S A] of this file: it
      returns a value and a new state, or panics with the message of the C
      code, or blocks on a sleep that nobody will end.  Each layer has its own
      state; [sio], [fio], [mio], [xio], [nio] and [kio] run a lower layer
      inside a higher one.
    - [wp] is the total correctness of such a computation (it returns, or
      panics only with a message one allows), [wlp] the partial one, used for
      what holds whichever way the code goes; [always] relates the states
      before and after.
    - A function that holds a spin lock from beginning to end is one atomic
      step; where a function gives up its lock in the middle (pipes, sleeping,
      the log's commit, the steps of [acquire]) its pieces are separate
      definitions and a step relation interleaves them.
    - The file system is written and proved against the class [BlockStore]
      (Store.v), which states what the log and the buffer cache promise;
      [log_store] is the instance that log.c and bio.c discharge.
    - The layers above the disk use it through [iderw] of memide.c, which serves
      a request where it is made; Ide.v shows that the driver of ide.c, with its
      queue, its sleeping callers and its interrupts, does the same.
    - A device is a state and what the accesses to its ports and registers do to
      it ([PortIO], [Mmio]), as parameters; what a driver relies on is a class
      with the documented behaviour of the device ([AtaDisk], [Ioapic], [Lapic],
      [Cmos], [Serial]), and each class has an instance, a small device that is
      run.

    ** The files

    - Prelude.v: machine integers, little-endian codecs, the monad, its rules
      and tactics.  Params.v: the constants of param.h, fs.h, stat.h, fcntl.h,
      buf.h, perm.h and traps.h, and the segments of mmu.h.
    - CString.v: string.c and the string routines of ulib.c; [memmove] copies
      right for every overlap ([memmove_spec]).
    - Users.v: users.c.  The root account survives every sequence of operations
      ([root_survives]); which accounts can log in ([add_then_login]); the
      sudo right of a deleted account passes to the next one
      ([deleted_sudo_flag_inherited]).
    - Namecache.v: namecache.c.  Lookup after insertion, and the invalidations
      of [sys_unlink] ([unlink_invalidation_coherent]).
    - Bio.v, Log.v: memide.c, sleeplock.c, bio.c, log.c.  A crash at any sector
      boundary of a commit, followed by recovery, leaves all of the
      transaction or none of it ([crash_safe]).
    - Store.v, Fs.v, Path.v, Balloc.v, Inode.v, Content.v, Writei.v, Dir.v,
      Trunc.v: fs.c.  Block allocation against the bitmap ([balloc_bfree]),
      inodes on disk and in the cache ([iupdate_ilock], [iget_unique]), what is
      written is read back and nothing else changes ([writei_readi]),
      truncation ([itrunc_frees]), directories with and without the name cache
      ([dirlookup_correct], [dirlink_adds]), path names ([skipelem_components],
      [namex_terminates]).  Sample.v: an image on which they are exercised.
    - Kalloc.v, Vm.v, Walk.v, Uvm.v, Grow.v: kalloc.c and vm.c.  No page is
      given out twice ([kalloc_exclusive]); [mappages] changes exactly its range
      ([mappages_maps]); [copyout], [allocuvm] and [copyuvm] against the bytes
      a process sees ([copyout_writes], [allocuvm_grows], [copyuvm_copies]).
    - Pipe.v: pipe.c.  A pipe refines a bounded queue under every interleaving
      of readers and writers ([pipe_fifo]), and who sleeps has a reason to
      ([pipe_wakeups]).  File.v: file.c and [pipealloc]: a write is cut into
      transactions that fit the log ([filewrite_writes]); the life of a pipe
      ([pipe_lifecycle]).
    - Proc.v, Ptable.v, Fork.v: proc.c.  The processes form a tree under init in
      every reachable state ([process_tree]); what [fork] makes ([fork_child]).
    - Syscall.v, Sysfile.v, Exec.v, Sysproc.v: syscall.c, sysfile.c, exec.c,
      sysproc.c and trap.c.  Arguments lie in the memory of the process
      ([args_in_bounds]).  Priv.v: who becomes root ([root_gained]), and killed
      processes do not go back to user space ([killed_never_returns]).
      Access.v: the permission checks of [open] ([open_permission]), the ways
      around them ([open_checks_bypassed]), and the unlinking of a cached name,
      which destroys another entry ([unlink_cached_name]).  Image.v: [exec] is
      all or nothing ([exec_all_or_nothing]).
    - Spinlock.v: spinlock.c: mutual exclusion among any number of processors
      ([spinlock_mutex]).
    - Sh.v: sh.c: the parser ends on every line ([parsecmd_total]), reads back
      what a printer writes ([parse_print]), and [runcmd] gives the programs the
      descriptors the command means ([runcmd_meaning]).
    - Grep.v: grep.c: the matcher decides the language of its patterns
      ([match_language]), and the program prints the matching lines
      ([grep_prints_matching]).
    - Console.v: console.c: the input ring refines a line editor
      ([console_line_editor]), and the screen stays within its memory
      ([cgaputc_screen]).  Printf.v: [cprintf] of console.c and printf.c: numbers
      are printed right and fit their buffer ([printint_prints]), are read back
      by [atoi] ([atoi_printf]), and the two printers agree
      ([printf_cprintf]).
    - Umalloc.v: umalloc.c: blocks never overlap and keep their contents
      ([umalloc_safe]), and freed memory is used again ([malloc_reuses]).
    - Kbd.v: kbd.c and kbd.h: every scan code in every state of the shift keys
      ([kbdgetc_decodes], by running all of them), and the keyboard interrupt
      against the line editor ([kbdintr_edits]).
    - Mkfs.v: mkfs.c: the image it builds is a file system with exactly the
      given files ([mkfs_image]), from which the kernel starts and reads them
      ([mkfs_kernel_reads]).
    - Tools.v: user programs.  sudo runs a command as root exactly for a sudoer
      who types the right password ([sudo_root]); what su, visudo, echo and cat
      do ([su_authenticates], [visudo_root], [echo_prints], [cat_copies]); chmod
      and the modes ls_perm.c shows ([chmod_ls]); wc ([wc_counts]).  The system
      calls they make on ids are stated there on the ids and the user database
      alone.  Calls.v: those of sysproc.c do just that, once the arguments are
      fetched ([sys_ids]; [whoami], which writes to user memory, is not in it).
    - Programs.v: the listing of ls ([ls_lists]), the command loop of the shell
      ([sh_runs]), the loop of init ([init_loop_out]), rm ([rm_deletes]), mkdir,
      ln, kill and id.
    - Ports.v: the port instructions of x86.h, and the disk.  Ide.v: ide.c: the
      driver refines the memory disk ([ide_refines_memide]) and every request
      ends ([ide_live]); a failed read is taken for a good one
      ([failed_read_is_valid]).  Boot.v: bootmain.c: the kernel's segments arrive
      in memory ([bootmain_loads]).
    - Sched.v: the loop of [scheduler]: a process that is ready is run
      ([sched_live]).
    - Mp.v: mp.c: what [mpinit] reads from the firmware's tables
      ([mpinit_finds]), and the entry it hangs on ([unknown_entry_hangs]).
      Apic.v: ioapic.c, picirq.c and lapic.c: which interrupt lines are on and
      where they go ([ioapic_routes]), what the local APIC is set to and sends
      ([lapic_starts]), and [mycpu] ([mycpu_spec]).  Rtc.v: the clock of lapic.c:
      a date is never mixed from two moments ([cmostime_consistent]).  Uart.v:
      uart.c: received bytes reach the line editor ([uart_edits]).
    - Seg.v: the descriptors of mmu.h and the tables of [seginit], [tvinit] and
      [switchuvm]: user code enters the kernel by the system call gate only
      ([gates_protect]).  Start.v: [startothers] of main.c: every processor gets
      a stack of its own and comes up ([start_others]); the boot page directory
      ([entrypgdir_maps]).
    - Asm.v: swtch.S, trapasm.S, the entry points of vectors.pl, the stubs of
      usys.S and initcode.S, as instructions on a processor.  A context that is
      switched away from goes on as if [swtch] had returned ([swtch_returns]); a
      trap saves and restores every register ([trap_returns]); a system call stub
      ([stub_returns]); how a forked child and the first process reach user code
      ([child_starts], [init_starts]).  Usercall.v: a system call from one end to
      the other: the C call returns what the handler in the kernel returns
      ([user_call]).

    ** Bounds and fuel

    Loops over tables run over the tables' sizes (NPROC, NBUF, NINODE, ...).
    Loops over bytes or blocks have as many turns as there are bytes or
    blocks, which is enough because every turn that goes on takes at least
    one.  [namex_loop] has one turn per byte of the path ([namex_terminates]
    shows that it returns).  The shell's parser has four levels of recursion
    per character and its loops one turn per character; [parsecmd_total] shows
    that neither runs out.  [grep] has one turn per byte and one more.
    The loops of [malloc] and [free] have as many turns as there are headers in
    the heap, [malloc]'s twice as many since it starts again after [morecore];
    [umalloc_safe] shows that both return.  [iappend] of mkfs.c has one turn per
    byte and one more; [mkfs_image] shows that it is enough.
    A loop that waits for a device has as many turns as the device's class
    allows it to be busy, and one more ([wait_status], [deliver_wait]);
    [cmostime] has [window / 7 + 5], since every turn makes 7 reads at least.
    [last_link] has one turn per buffer and one more, [readseg_loop] one per
    sector and three more for the first and last, [load_loop] one per header and
    one more, [mpinit_loop] one per byte of the table and one more; the theorems
    named above show that they return.

    ** Not modelled

    - The code before C runs: bootasm.S, entry.S, and entryother.S but for the
      words it reads.  It changes the mode of the processor, which the model of
      Asm.v does not have: no real mode, no paging.  Where the linker puts the
      code is a parameter (the addresses [vectors], [forkret], [trapret]).
    - The order of the initialisations in [main], [mpenter] and [mpmain], which
      call one function of each part, [kvmalloc], and [panic] and [consoleinit]
      of console.c.  The device functions that [readi] and [writei] call through
      [devsw] are parameters of the definitions that use them.
    - [procdump] and [getcallerpcs], which print and record for debugging.
    - The C code on the stacks that Asm.v switches: there a process is its
      registers and its stack, in Proc.v its entry in the table.  A process that
      sleeps in the middle of a system call is [Blocked], except for pipes, sleep and wait, whose pieces
      are separate definitions.
    - The program zombie, which forks and sleeps, the opening of the console in
      init and the shell, the test programs (usertests.c, forktest.c, stressfs.c,
      blocktest.c, namecache_test.c), and the messages of mkfs.c. *)
From stdpp Require Import base numbers list strings.
From Stdlib Require Import ZArith Lia.

Local Open Scope Z_scope.

(** ** Machine integers

    A C integer is a [Z] kept in the range of its type; [uN] and [iN] are
    the conversions the compiler inserts at an assignment or an operation
    whose mathematical result may leave that range. *)

Definition u8 (z : Z) : Z := z mod 2 ^ 8.
Definition u16 (z : Z) : Z := z mod 2 ^ 16.
Definition u32 (z : Z) : Z := z mod 2 ^ 32.
Definition i16 (z : Z) : Z := (z + 2 ^ 15) mod 2 ^ 16 - 2 ^ 15.
Definition i32 (z : Z) : Z := (z + 2 ^ 31) mod 2 ^ 32 - 2 ^ 31.

Lemma u32_add_l a b : u32 (u32 a + b) = u32 (a + b).
Proof. unfold u32. apply Zplus_mod_idemp_l. Qed.
Lemma u32_add_r a b : u32 (a + u32 b) = u32 (a + b).
Proof. unfold u32. apply Zplus_mod_idemp_r. Qed.
Lemma u32_idem a : u32 (u32 a) = u32 a.
Proof. unfold u32. apply Zmod_mod. Qed.
Lemma u32_succ a b : u32 a = u32 b -> u32 (a + 1) = u32 (u32 (b + 1)).
Proof. intros H. by rewrite u32_idem, <- (u32_add_l a), <- (u32_add_l b), H. Qed.
Lemma u32_small a : 0 <= a < 2 ^ 32 -> u32 a = a.
Proof. apply Z.mod_small. Qed.
Lemma u32_range a : 0 <= u32 a < 2 ^ 32.
Proof. by apply Z.mod_pos_bound. Qed.
Lemma i32_small a : - 2 ^ 31 <= a < 2 ^ 31 -> i32 a = a.
Proof. intros H. unfold i32. rewrite Z.mod_small; lia. Qed.
Lemma i32_range a : - 2 ^ 31 <= i32 a < 2 ^ 31.
Proof. unfold i32. pose proof (Z.mod_pos_bound (a + 2 ^ 31) (2 ^ 32)). lia. Qed.
Lemma u32_i32 a : u32 (i32 a) = u32 a.
Proof.
  unfold u32, i32. rewrite <- Zminus_mod_idemp_l, Z.mod_mod, Zminus_mod_idemp_l by done.
  f_equal. lia.
Qed.

(** A C truth value of an [int]. *)
Definition truth (z : Z) : bool := negb (z =? 0).
Definition b2z (b : bool) : Z := if b then 1 else 0.

(** ** The kernel monad

    Kernel code threads its state and can stop in three ways: it returns,
    it calls [panic], or it would sleep on a channel (the step is then
    [Blocked], for the scheduler to resume). *)

Inductive outcome (S A : Type) : Type :=
| Ok (a : A) (s : S)
| Panic (msg : string)
| Blocked (chan : string).
Arguments Ok {S A} a s.
Arguments Panic {S A} msg.
Arguments Blocked {S A} chan.

Definition M (S A : Type) : Type := S -> outcome S A.

Definition ret {S A} (a : A) : M S A := fun s => Ok a s.
Definition bind {S A B} (m : M S A) (k : A -> M S B) : M S B :=
  fun s => match m s with
           | Ok a s' => k a s'
           | Panic msg => Panic msg
           | Blocked c => Blocked c
           end.
Definition panic {S A} (msg : string) : M S A := fun _ => Panic msg.
Definition blocked {S A} (chan : string) : M S A := fun _ => Blocked chan.
Definition gets {S A} (f : S -> A) : M S A := fun s => Ok (f s) s.
Definition modify {S} (f : S -> S) : M S unit := fun s => Ok tt (f s).

(** Run a computation on a part of the state. *)
Definition zoom {S T A} (get : S -> T) (put : T -> S -> S) (m : M T A) : M S A :=
  fun s => match m (get s) with
           | Ok a t => Ok a (put t s)
           | Panic msg => Panic msg
           | Blocked c => Blocked c
           end.

(** [for_loop n i body] runs [body i], [body (i+1)], ..., at most [n]
    times, and stops early with [Some r] when a body returns [Some r]: the
    C idiom of a counting loop with a [return] or [break] inside. *)
Fixpoint for_loop {S R} (n : nat) (i : Z) (body : Z -> M S (option R)) : M S (option R) :=
  match n with
  | O => ret None
  | Datatypes.S n' =>
      bind (body i) (fun r => match r with
                              | Some v => ret (Some v)
                              | None => for_loop n' (i + 1) body
                              end)
  end.

(** A loop over a list of steps with no early exit. *)
Fixpoint each {S A} (xs : list A) (body : A -> M S unit) : M S unit :=
  match xs with
  | [] => ret tt
  | x :: xs' => bind (body x) (fun _ => each xs' body)
  end.

Declare Scope kernel_scope.
Delimit Scope kernel_scope with K.
Notation "x ← m ; k" := (bind m (fun x => k))
  (at level 20, m at level 100, k at level 200, only parsing) : kernel_scope.
Notation "' x ← m ; k" := (bind m (fun x => k))
  (at level 20, x pattern, m at level 100, k at level 200, only parsing) : kernel_scope.
Notation "m ;; k" := (bind m (fun _ => k))
  (at level 100, k at level 200, right associativity, only parsing) : kernel_scope.

(** [wp m Q E s]: run from [s], [m] either returns a value and a state in
    [Q], or panics with a message in [E]; it never blocks. *)
Definition wp {S A} (m : M S A) (Q : A -> S -> Prop) (E : string -> Prop) (s : S) : Prop :=
  match m s with
  | Ok a s' => Q a s'
  | Panic msg => E msg
  | Blocked _ => False
  end.

Section WpRules.
Context {S : Type}.

Lemma wp_ret {A} (a : A) Q E (s : S) : Q a s -> wp (ret a) Q E s.
Proof. exact id. Qed.

Lemma wp_panic {A} msg (Q : A -> S -> Prop) E (s : S) : E msg -> wp (panic msg) Q E s.
Proof. exact id. Qed.

Lemma wp_gets {A} (f : S -> A) Q E s : Q (f s) s -> wp (gets f) Q E s.
Proof. exact id. Qed.

Lemma wp_modify f Q E (s : S) : Q tt (f s) -> wp (modify f) Q E s.
Proof. exact id. Qed.

Lemma bind_ext {A B} (m : M S A) (k k' : A -> M S B) s :
  (forall a s', k a s' = k' a s') -> bind m k s = bind m k' s.
Proof. intros H. unfold bind. destruct (m s); [apply H|done|done]. Qed.

Lemma wp_bind {A B} (m : M S A) (k : A -> M S B) Q E s :
  wp m (fun a s' => wp (k a) Q E s') E s -> wp (bind m k) Q E s.
Proof. unfold wp, bind. destruct (m s); auto. Qed.

Lemma wp_bind_inv {A B} (m : M S A) (k : A -> M S B) Q E s :
  wp (bind m k) Q E s -> wp m (fun a s' => wp (k a) Q E s') E s.
Proof. unfold wp, bind. destruct (m s); auto. Qed.

Lemma wp_mono {A} (m : M S A) (Q Q' : A -> S -> Prop) (E E' : string -> Prop) s :
  wp m Q E s -> (forall a s', Q a s' -> Q' a s') -> (forall e, E e -> E' e) ->
  wp m Q' E' s.
Proof. unfold wp. destruct (m s); auto. Qed.

Lemma wp_conseq {A} (m : M S A) (Q Q' : A -> S -> Prop) (E : string -> Prop) s :
  wp m Q E s -> (forall a s', Q a s' -> Q' a s') -> wp m Q' E s.
Proof. intros H HQ. eapply wp_mono; eauto. Qed.

Lemma wp_zoom {T A} (get : S -> T) put (m : M T A) Q E s :
  wp m (fun a t => Q a (put t s)) E (get s) -> wp (zoom get put m) Q E s.
Proof. unfold wp, zoom. destruct (m (get s)); auto. Qed.

(** A computation that cannot fail at all returns. *)
Lemma wp_total {A} (m : M S A) Q s :
  wp m Q (fun _ => False) s -> exists a s', m s = Ok a s' /\ Q a s'.
Proof. unfold wp. destruct (m s); naive_solver. Qed.

Lemma wp_Ok {A} (m : M S A) Q E s a s' : wp m Q E s -> m s = Ok a s' -> Q a s'.
Proof. unfold wp. intros H Heq. by rewrite Heq in H. Qed.

(** Invariant rule for counting loops: [I k] holds before the body runs
    with counter [i + k]; an early exit must establish the goal itself. *)
Lemma wp_for_loop {R} (body : Z -> M S (option R)) (I : nat -> S -> Prop) Q E n i s :
  I 0%nat s ->
  (forall k s', (k < n)%nat -> I k s' ->
     wp (body (i + Z.of_nat k))
        (fun r s'' => match r with
                      | Some v => Q (Some v) s''
                      | None => I (1 + k)%nat s''
                      end) E s') ->
  (forall s', I n s' -> Q None s') ->
  wp (for_loop n i body) Q E s.
Proof.
  revert i s I. induction n as [|n IH]; intros i s I H0 Hb Hn; simpl.
  { apply wp_ret, Hn, H0. }
  apply wp_bind. pose proof (Hb 0%nat s ltac:(lia) H0) as Hb0. rewrite Z.add_0_r in Hb0.
  eapply wp_conseq; [exact Hb0|]. intros [v|] s' H; [by apply wp_ret|].
  apply (IH (i + 1) s' (fun k => I (1 + k)%nat)); [exact H| |exact Hn].
  intros k s'' Hk HI. replace (i + 1 + Z.of_nat k) with (i + Z.of_nat (1 + k)) by lia.
  apply Hb; [lia|exact HI].
Qed.

Lemma wp_each {A} (body : A -> M S unit) (I : list A -> S -> Prop) E xs s :
  I xs s ->
  (forall x xs' s', I (x :: xs') s' -> wp (body x) (fun _ s'' => I xs' s'') E s') ->
  wp (each xs body) (fun _ s' => I [] s') E s.
Proof.
  revert s. induction xs as [|x xs IH]; intros s H0 Hb; simpl; [by apply wp_ret|].
  apply wp_bind. eapply wp_conseq; [by apply (Hb x xs)|].
  cbv beta. intros ? s' HI. by apply IH.
Qed.

Lemma wp_each_seq (body : nat -> M S unit) (I : nat -> S -> Prop) E n s :
  I 0%nat s ->
  (forall t s', (t < n)%nat -> I t s' -> wp (body t) (fun _ s'' => I (1 + t)%nat s'') E s') ->
  wp (each (seq 0 n) body) (fun _ s' => I n s') E s.
Proof.
  intros H0 Hb. eapply wp_conseq.
  - apply (wp_each body (fun xs s' => exists k, (k <= n)%nat /\ xs = seq k (n - k) /\ I k s')).
    + exists 0%nat. rewrite Nat.sub_0_r. split; [lia|done].
    + intros x xs s' (k & Hk & Hxs & HI). destruct (n - k)%nat as [|m] eqn:Hm; [done|].
      injection Hxs as -> ->. eapply wp_conseq; [by apply Hb; [lia|]|].
      cbv beta. intros _ s'' HI'. exists (1 + k)%nat. split; [lia|]. split; [|done]. f_equal. lia.
  - cbv beta. intros _ s' (k & Hk & Hxs & HI). destruct (n - k)%nat eqn:Hm; [|done].
    by assert (k = n) as -> by lia.
Qed.

(** A known evaluation as a triple. *)
Lemma wp_eq {A} (m : M S A) Q E s a s' : m s = Ok a s' -> Q a s' -> wp m Q E s.
Proof. unfold wp. by intros ->. Qed.
End WpRules.

(** [wp_step] peels the head of a monadic program. *)
(** [wlp m Q s]: if [m], run from [s], returns, then in [Q]. Used for what
    holds of every state a step can reach, whatever panics or blocks. *)
Definition wlp {S A} (m : M S A) (Q : A -> S -> Prop) (s : S) : Prop :=
  match m s with Ok a s' => Q a s' | _ => True end.

Section WlpRules.
Context {S : Type}.

Lemma wlp_ret {A} (a : A) (Q : A -> S -> Prop) s : Q a s -> wlp (ret a) Q s.
Proof. done. Qed.
Lemma wlp_panic {A} msg (Q : A -> S -> Prop) s : wlp (panic msg) Q s.
Proof. done. Qed.
Lemma wlp_blocked {A} c (Q : A -> S -> Prop) s : wlp (blocked c) Q s.
Proof. done. Qed.
Lemma wlp_gets {A} (f : S -> A) (Q : A -> S -> Prop) s : Q (f s) s -> wlp (gets f) Q s.
Proof. done. Qed.
Lemma wlp_modify (f : S -> S) (Q : unit -> S -> Prop) s : Q tt (f s) -> wlp (modify f) Q s.
Proof. done. Qed.
Lemma wlp_bind {A B} (m : M S A) (k : A -> M S B) Q s : wlp m (fun a s' => wlp (k a) Q s') s -> wlp (bind m k) Q s.
Proof. unfold wlp, bind. destruct (m s); auto. Qed.
Lemma wlp_conseq {A} (m : M S A) (Q Q' : A -> S -> Prop) s :
  wlp m Q s -> (forall a s', Q a s' -> Q' a s') -> wlp m Q' s.
Proof. unfold wlp. destruct (m s); auto. Qed.
Lemma wlp_last {A B} (m : M S A) (k : A -> M S B) Q s : (forall a s', wlp (k a) Q s') -> wlp (bind m k) Q s.
Proof. unfold wlp, bind. intros H. destruct (m s) as [a s'| |]; [apply (H a s')|done|done]. Qed.
Lemma wlp_True {A} (m : M S A) (Q : A -> S -> Prop) s : (forall a s', Q a s') -> wlp m Q s.
Proof. unfold wlp. intros H. destruct (m s); [apply H|done|done]. Qed.
Lemma wlp_each {A} (body : A -> M S unit) (I : S -> Prop) xs s :
  I s -> (forall x s', x ∈ xs -> I s' -> wlp (body x) (fun _ => I) s') -> wlp (each xs body) (fun _ => I) s.
Proof.
  revert s. induction xs as [|x xs IH]; intros s HI Hb; cbn [each]; [by apply wlp_ret|]. apply wlp_bind.
  eapply wlp_conseq; [apply Hb; [by left|done]|]. cbv beta. intros _ s' HI'. apply IH; [done|]. intros y s2 Hy. apply Hb. by right.
Qed.
Lemma wlp_each_seq (body : nat -> M S unit) (I : nat -> S -> Prop) a n s :
  I a s -> (forall k s', (a <= k < a + n)%nat -> I k s' -> wlp (body k) (fun _ => I (Datatypes.S k)) s') ->
  wlp (each (seq a n) body) (fun _ => I (a + n)%nat) s.
Proof.
  revert a s. induction n as [|n IH]; intros a s HI Hb; cbn [each seq]; [apply wlp_ret; by rewrite Nat.add_0_r|]. apply wlp_bind.
  eapply wlp_conseq; [apply Hb; [lia|done]|]. cbv beta. intros _ s' HI'. rewrite <- Nat.add_succ_comm. apply IH; [done|].
  intros k s2 Hk. apply Hb. lia.
Qed.
Lemma wlp_Ok {A} (m : M S A) Q s a s' : wlp m Q s -> m s = Ok a s' -> Q a s'.
Proof. unfold wlp. intros H E. by rewrite E in H. Qed.
End WlpRules.

(** Operations that, if they return, relate the states before and after by a preorder. *)
Section Always.
Context {S : Type} (R : relation S) `{!PreOrder R}.

Definition always {A} (m : M S A) : Prop := forall s, wlp m (fun _ => R s) s.

Lemma always_ret {A} (a : A) : always (ret a).
Proof. intros s. by apply wlp_ret. Qed.
Lemma always_panic {A} msg : always (panic msg : M S A).
Proof. by intros s. Qed.
Lemma always_blocked {A} c : always (blocked c : M S A).
Proof. by intros s. Qed.
Lemma always_gets {A} (f : S -> A) : always (gets f).
Proof. intros s. by apply wlp_gets. Qed.
Lemma always_modify f : (forall s, R s (f s)) -> always (modify f).
Proof. intros Hf s. by apply wlp_modify. Qed.
Lemma always_bind {A B} (m : M S A) (k : A -> M S B) : always m -> (forall a, always (k a)) -> always (bind m k).
Proof.
  intros Hm Hk s. apply wlp_bind. eapply wlp_conseq; [apply Hm|]. cbv beta. intros a s1 H1.
  eapply wlp_conseq; [apply Hk|]. cbv beta. intros b s2 H2. by etransitivity.
Qed.
Lemma always_each {A} (xs : list A) (f : A -> M S unit) : (forall x, always (f x)) -> always (each xs f).
Proof. intros Hf. induction xs as [|x xs IH]; cbn [each]; [apply always_ret|]. by apply always_bind. Qed.
Lemma always_for {A} n : forall i (f : Z -> M S (option A)), (forall k, always (f k)) -> always (for_loop n i f).
Proof.
  induction n as [|n IH]; intros i f Hf; cbn [for_loop]; [apply always_ret|].
  apply always_bind; [done|]. intros [v|]; [apply always_ret|by apply IH].
Qed.
End Always.

Ltac wlp_step :=
  lazymatch goal with
  | |- wlp (bind _ _) _ _ => apply wlp_bind
  | |- wlp (ret _) _ _ => apply wlp_ret
  | |- wlp (panic _) _ _ => apply wlp_panic
  | |- wlp (blocked _) _ _ => apply wlp_blocked
  | |- wlp (gets _) _ _ => apply wlp_gets
  | |- wlp (modify _) _ _ => apply wlp_modify
  end.

Ltac wp_step :=
  lazymatch goal with
  | |- wp (bind _ _) _ _ _ => apply wp_bind
  | |- wp (ret _) _ _ _ => apply wp_ret
  | |- wp (gets _) _ _ _ => apply wp_gets
  | |- wp (modify _) _ _ _ => apply wp_modify
  | |- wp (panic _) _ _ _ => apply wp_panic
  | |- wp (zoom _ _ _) _ _ _ => apply wp_zoom
  end; cbv beta.
Ltac wp_auto := repeat wp_step.

(** Case analysis on the [if]s and [match]es of the code. *)
Ltac cases :=
  match goal with
  | |- context [ match ?x with _ => _ end ] => destruct x eqn:?
  end.
Ltac cases_in H :=
  match type of H with
  | context [ match ?x with _ => _ end ] => destruct x eqn:?
  end.

(** Boolean tests of the code to propositions. *)
Ltac b2p :=
  repeat match goal with
  | H : (_ =? _) = true |- _ => apply Z.eqb_eq in H
  | H : (_ =? _) = false |- _ => apply Z.eqb_neq in H
  | H : (_ <? _) = true |- _ => apply Z.ltb_lt in H
  | H : (_ <? _) = false |- _ => apply Z.ltb_ge in H
  | H : (_ <=? _) = true |- _ => apply Z.leb_le in H
  | H : (_ <=? _) = false |- _ => apply Z.leb_gt in H
  | H : (_ && _)%bool = true |- _ => apply andb_prop in H; destruct H
  | H : (_ || _)%bool = false |- _ => apply orb_false_iff in H; destruct H
  | H : negb _ = true |- _ => apply negb_true_iff in H
  | H : negb _ = false |- _ => apply negb_false_iff in H
  end.

(** [lia] with division and modulo by constants. *)
Ltac zlia := Z.to_euclidean_division_equations; lia.

(** ** Hint databases *)

Create HintDb xv6.
Create Rewrite HintDb xv6_len.

(** ** Scanning a table: the first index whose entry passes a test *)

Fixpoint find_idx {A} (f : A -> bool) (l : list A) : option nat :=
  match l with
  | [] => None
  | x :: l' => if f x then Some 0%nat else Datatypes.S <$> find_idx f l'
  end.

Section FindIdx.
Context {A : Type} (f : A -> bool).

Lemma find_idx_Some l i :
  find_idx f l = Some i <->
  (exists x, l !! i = Some x /\ f x = true) /\
  (forall j y, (j < i)%nat -> l !! j = Some y -> f y = false).
Proof.
  revert i. induction l as [|x l IH]; intros i; simpl.
  { split; [done|]. intros [(y & Hy & _) _]. done. }
  destruct (f x) eqn:Hx.
  - split.
    + intros [= <-]. split; [by exists x|]. lia.
    + intros [_ Hlt]. destruct i as [|i]; [done|].
      specialize (Hlt 0%nat x ltac:(lia) eq_refl). congruence.
  - rewrite fmap_Some. split.
    + intros (k & Hk & ->). apply IH in Hk as [(y & Hy & Hfy) Hlt].
      split; [by exists y|]. intros [|j] z Hj Hz; simpl in *; [congruence|].
      apply (Hlt j); [lia|done].
    + intros [(y & Hy & Hfy) Hlt]. destruct i as [|i]; simpl in *; [congruence|].
      exists i. split; [|done]. apply IH. split; [by exists y|].
      intros j z Hj Hz. apply (Hlt (Datatypes.S j)); [lia|done].
Qed.

Lemma find_idx_None l :
  find_idx f l = None <-> (forall i x, l !! i = Some x -> f x = false).
Proof.
  induction l as [|x l IH]; simpl; [naive_solver|].
  destruct (f x) eqn:Hx.
  - split; [done|]. intros H. specialize (H 0%nat x eq_refl). congruence.
  - rewrite fmap_None, IH. split.
    + intros H [|i] y Hy; simpl in *; [congruence|eauto].
    + intros H i y Hy. by apply (H (Datatypes.S i)).
Qed.

Lemma find_idx_lt l i : find_idx f l = Some i -> (i < length l)%nat.
Proof. intros ((x & Hx & _) & _)%find_idx_Some. by eapply lookup_lt_Some. Qed.

Lemma find_idx_is_Some l i x : l !! i = Some x -> f x = true -> is_Some (find_idx f l).
Proof.
  intros Hx Hf. destruct (find_idx f l) eqn:Hn; [done|].
  rewrite find_idx_None in Hn. specialize (Hn i x Hx). congruence.
Qed.

Lemma find_idx_unique l i x :
  l !! i = Some x -> f x = true ->
  (forall j y, j <> i -> l !! j = Some y -> f y = false) -> find_idx f l = Some i.
Proof.
  intros Hx Hf Hu. apply find_idx_Some. split; [by exists x|].
  intros j y Hj Hy. apply (Hu j); [lia|done].
Qed.

Lemma find_idx_head l x : l !! 0%nat = Some x -> f x = true -> find_idx f l = Some 0%nat.
Proof. intros Hx Hf. apply find_idx_Some. split; [by exists x|lia]. Qed.
End FindIdx.

(** The scan depends only on the outcome of the test at each index. *)
Lemma find_idx_ext {A} (f : A -> bool) (l l' : list A) :
  (forall i, f <$> (l !! i) = f <$> (l' !! i)) -> find_idx f l = find_idx f l'.
Proof.
  revert l'. induction l as [|x l IH]; intros [|y l'] H; try done.
  - by specialize (H 0%nat).
  - by specialize (H 0%nat).
  - pose proof (H 0%nat) as H0. simpl in H0. simplify_eq. simpl.
    rewrite (IH l' (fun i => H (Datatypes.S i))). rewrite H0. done.
Qed.

(** Indices past the end count as failing. *)
Lemma find_idx_pad {A} (f : A -> bool) (l l' : list A) :
  (forall i, default false (f <$> l !! i) = default false (f <$> l' !! i)) -> find_idx f l = find_idx f l'.
Proof.
  assert (Hone : forall (l : list A) i,
    find_idx f l = Some i <-> default false (f <$> l !! i) = true /\
      forall j, (j < i)%nat -> default false (f <$> l !! j) = false).
  { intros m i. rewrite find_idx_Some. split.
    - intros [(x & Hx & Hf) H]. rewrite Hx. split; [done|]. intros j Hj. destruct (m !! j) eqn:E; [|done]. by eapply H.
    - intros [H1 H2]. split.
      + destruct (m !! i) as [x|]; [by exists x|done].
      + intros j y Hj Hy. specialize (H2 j Hj). by rewrite Hy in H2. }
  intros H. apply option_eq. intros i. rewrite !Hone, H.
  split; intros [? Hlt]; (split; [done|]); intros j Hj; [rewrite <- H|rewrite H]; by apply Hlt.
Qed.

Lemma find_idx_ext_fun {A} (f g : A -> bool) (l : list A) :
  (forall x, f x = g x) -> find_idx f l = find_idx g l.
Proof. intros H. induction l as [|x l IH]; simpl; [done|]. by rewrite H, IH. Qed.

(** Entry [i] of an array, with a default for an index out of range. *)
Definition nthd {A} (d : A) (l : list A) (i : nat) : A := default d (l !! i).

Lemma nthd_lookup {A} (d : A) l i x : l !! i = Some x -> nthd d l i = x.
Proof. unfold nthd. by intros ->. Qed.

Lemma lookup_nthd {A} (d : A) l i : (i < length l)%nat -> l !! i = Some (nthd d l i).
Proof. intros [x Hx]%lookup_lt_is_Some. unfold nthd. by rewrite Hx. Qed.

Lemma nthd_insert_eq {A} (d : A) l i x : (i < length l)%nat -> nthd d (<[i:=x]> l) i = x.
Proof. intros H. unfold nthd. by rewrite list_lookup_insert_eq. Qed.

Lemma nthd_insert_ne {A} (d : A) l i j x : i <> j -> nthd d (<[i:=x]> l) j = nthd d l j.
Proof. intros H. unfold nthd. by rewrite list_lookup_insert_ne. Qed.

(** ** Byte ranges of a block *)

Definition slice {A} (off n : nat) (l : list A) : list A := take n (drop off l).
Definition splice {A} (off : nat) (bs l : list A) : list A :=
  take off l ++ bs ++ drop (off + length bs) l.

Section Splice.
Context {A : Type}.
Implicit Types l bs : list A.

Lemma length_slice off n l : (off + n <= length l)%nat -> length (slice off n l) = n.
Proof. intros. unfold slice. rewrite length_take, length_drop. lia. Qed.

Lemma length_splice off bs l : (off + length bs <= length l)%nat -> length (splice off bs l) = length l.
Proof. intros. unfold splice. rewrite !length_app, length_take, length_drop. lia. Qed.

Lemma lookup_slice off n l i : (i < n)%nat -> slice off n l !! i = l !! (off + i)%nat.
Proof. intros. unfold slice. by rewrite lookup_take_lt, lookup_drop. Qed.

Lemma lookup_splice_in off bs l i :
  (off + length bs <= length l)%nat -> (off <= i < off + length bs)%nat ->
  splice off bs l !! i = bs !! (i - off)%nat.
Proof.
  intros Hl Hi. unfold splice. rewrite lookup_app_r; rewrite length_take; [|lia].
  rewrite lookup_app_l by lia. f_equal. lia.
Qed.

Lemma lookup_splice_out off bs l i :
  (off + length bs <= length l)%nat -> (i < off \/ off + length bs <= i)%nat ->
  splice off bs l !! i = l !! i.
Proof.
  intros Hl Hi. unfold splice. destruct (decide (i < off)%nat).
  - rewrite lookup_app_l by (rewrite length_take; lia). by apply lookup_take_lt.
  - rewrite lookup_app_r; rewrite length_take; [|lia].
    rewrite lookup_app_r by lia. rewrite lookup_drop. f_equal. lia.
Qed.

Lemma nthd_splice_in d off bs l i :
  (off + length bs <= length l)%nat -> (off <= i < off + length bs)%nat ->
  nthd d (splice off bs l) i = nthd d bs (i - off).
Proof. intros H1 H2. unfold nthd. by rewrite lookup_splice_in. Qed.

Lemma nthd_splice_out d off bs l i :
  (off + length bs <= length l)%nat -> (i < off \/ off + length bs <= i)%nat ->
  nthd d (splice off bs l) i = nthd d l i.
Proof. intros H1 H2. unfold nthd. by rewrite lookup_splice_out. Qed.

Lemma nthd_slice d off n l i : (i < n)%nat -> nthd d (slice off n l) i = nthd d l (off + i).
Proof. intros H. unfold nthd. by rewrite lookup_slice. Qed.

Lemma slice_splice_same off bs l :
  (off + length bs <= length l)%nat -> slice off (length bs) (splice off bs l) = bs.
Proof.
  intros Hl. apply list_eq. intros i. destruct (decide (i < length bs)%nat) as [Hi|Hi].
  - rewrite lookup_slice, lookup_splice_in by lia. f_equal. lia.
  - rewrite (lookup_ge_None_2 bs) by lia. apply lookup_ge_None_2.
    rewrite length_slice; [lia|]. rewrite length_splice; lia.
Qed.

Lemma slice_splice_disj off bs off' n l :
  (off + length bs <= length l)%nat -> (off' + n <= off \/ off + length bs <= off')%nat ->
  slice off' n (splice off bs l) = slice off' n l.
Proof.
  intros Hl Hd. apply list_eq. intros i. destruct (decide (i < n)%nat).
  - rewrite !lookup_slice, lookup_splice_out by lia. done.
  - rewrite !lookup_ge_None_2; [done| |]; unfold slice; rewrite length_take; lia.
Qed.

Lemma splice_slice_id off n l : (off + n <= length l)%nat -> splice off (slice off n l) l = l.
Proof.
  intros Hl. unfold splice. rewrite length_slice by done. unfold slice.
  rewrite <- drop_drop. by rewrite take_drop, take_drop.
Qed.

Lemma splice_0_all bs l : length bs = length l -> splice 0 bs l = bs.
Proof. intros Hl. unfold splice. simpl. rewrite drop_ge by lia. by rewrite app_nil_r. Qed.
End Splice.

(** ** Little-endian fields *)

Fixpoint le_enc (n : nat) (z : Z) : list Z :=
  match n with
  | O => []
  | Datatypes.S n' => z mod 256 :: le_enc n' (z / 256)
  end.
Fixpoint le_dec (bs : list Z) : Z :=
  match bs with
  | [] => 0
  | b :: bs' => b + 256 * le_dec bs'
  end.

(** Read and write the [n]-byte field at offset [off] of a block. *)
Definition rd (n off : nat) (blk : list Z) : Z := le_dec (slice off n blk).
Definition wr (n off : nat) (z : Z) (blk : list Z) : list Z := splice off (le_enc n z) blk.

Definition is_byte (z : Z) : Prop := 0 <= z < 256.

Lemma length_le_enc n z : length (le_enc n z) = n.
Proof. revert z. induction n as [|n IH]; intros z; simpl; [done|]. by rewrite IH. Qed.

Lemma le_enc_bytes n z : Forall is_byte (le_enc n z).
Proof.
  revert z. induction n as [|n IH]; intros z; constructor; [|apply IH].
  unfold is_byte. pose proof (Z.mod_pos_bound z 256). lia.
Qed.

Lemma le_dec_enc n z : le_dec (le_enc n z) = z mod 256 ^ Z.of_nat n.
Proof.
  revert z. induction n as [|n IH]; intros z; cbn [le_enc le_dec].
  { by rewrite Z.mod_1_r. }
  rewrite IH, Nat2Z.inj_succ, Z.pow_succ_r by lia.
  rewrite Z.rem_mul_r by lia. lia.
Qed.

Lemma le_dec_bound bs : Forall is_byte bs -> 0 <= le_dec bs < 256 ^ Z.of_nat (length bs).
Proof.
  induction 1 as [|b bs Hb _ IH]; cbn [le_dec length]; [lia|].
  rewrite Nat2Z.inj_succ, Z.pow_succ_r by lia. unfold is_byte in Hb. nia.
Qed.

Lemma le_enc_dec bs : Forall is_byte bs -> le_enc (length bs) (le_dec bs) = bs.
Proof.
  induction 1 as [|b bs Hb _ IH]; cbn [le_dec le_enc length]; [done|]. unfold is_byte in Hb.
  replace ((b + 256 * le_dec bs) mod 256) with b.
  - replace ((b + 256 * le_dec bs) / 256) with (le_dec bs); [by rewrite IH|].
    rewrite (Z.mul_comm 256), Z.div_add, Z.div_small by lia. lia.
  - rewrite (Z.mul_comm 256), Z_mod_plus_full, Z.mod_small by lia. done.
Qed.

Lemma length_wr n off z blk : (off + n <= length blk)%nat -> length (wr n off z blk) = length blk.
Proof. intros. apply length_splice. by rewrite length_le_enc. Qed.

Lemma rd_wr_same n off z blk :
  (off + n <= length blk)%nat -> rd n off (wr n off z blk) = z mod 256 ^ Z.of_nat n.
Proof.
  intros. unfold rd, wr. rewrite <- (length_le_enc n z) at 1.
  rewrite slice_splice_same by (by rewrite length_le_enc). apply le_dec_enc.
Qed.

Lemma rd_wr_disj n off z n' off' blk :
  (off + n <= length blk)%nat -> (off' + n' <= off \/ off + n <= off')%nat ->
  rd n' off' (wr n off z blk) = rd n' off' blk.
Proof.
  intros. unfold rd, wr. rewrite slice_splice_disj; [done| |]; rewrite length_le_enc; lia.
Qed.

#[export] Hint Rewrite @length_insert @length_app @length_take @length_drop
  @length_replicate length_le_enc : xv6_len.
Ltac len := autorewrite with xv6_len in *; try lia.
