(* ===== verification/CString.v ===== *)
(** Byte strings and memory blocks: string.c, and the string routines of the
    user library ulib.c.

    A [char *] argument is modelled by the bytes from that address on, a
    [list Z] of values in [0..255] (the code compares through [uchar]); a
    read past the modelled bytes yields 0.  [strncmp_in_bounds] shows that
    no result depends on such a read as long as the string is terminated or
    the array is as long as the bound.  The memory routines [memmove] and
    [memset] work on one flat memory with addresses, because their
    behaviour on overlapping ranges is the point of them. *)
From stdpp Require Import base numbers list strings.
From Stdlib Require Import ZArith Lia Ascii.
From S2P Require Import Prelude.

Local Open Scope list_scope.
Local Open Scope Z_scope.

(** ** Strings *)

Definition hd0 (p : list Z) : Z := match p with [] => 0 | c :: _ => c end.

(** The bytes of a string literal, with its terminating NUL. *)
Definition lit (s : string) : list Z :=
  ((fun a => Z.of_N (N_of_ascii a)) <$> String.list_ascii_of_string s) ++ [0].

(** The string an array of [n] bytes denotes: up to the first NUL. *)
Fixpoint cstr (n : nat) (p : list Z) : list Z :=
  match n, p with
  | S n', c :: p' => if c =? 0 then [] else c :: cstr n' p'
  | _, _ => []
  end.

Fixpoint strncmp (n : nat) (p q : list Z) : Z :=
  match n with
  | O => 0
  | S n' => if truth (hd0 p) && (hd0 p =? hd0 q)
            then strncmp n' (tail p) (tail q)
            else hd0 p - hd0 q
  end.

Fixpoint zero_fill (n : nat) (s : list Z) : list Z :=
  match n with
  | O => s
  | S n' => 0 :: zero_fill n' (tail s)
  end.
Fixpoint strncpy (n : nat) (s t : list Z) : list Z :=
  match n with
  | O => s
  | S n' => let c := hd0 t in
            c :: (if truth c then strncpy n' (tail s) (tail t)
                  else zero_fill n' (tail s))
  end.

(** The loop of [safestrcpy] with [k] copies left before the final NUL; the
    copy that meets a NUL is followed by one more NUL store. *)
Fixpoint safestrcpy_loop (k : nat) (s t : list Z) : list Z :=
  match k with
  | O => 0 :: tail s
  | S k' => let c := hd0 t in
            c :: (if truth c then safestrcpy_loop k' (tail s) (tail t)
                  else 0 :: tail (tail s))
  end.
Definition safestrcpy (n : Z) (s t : list Z) : list Z :=
  if n <=? 0 then s else safestrcpy_loop (Z.to_nat (n - 1)) s t.

Fixpoint strlen (s : list Z) : Z :=
  match s with
  | [] => 0
  | c :: s' => if c =? 0 then 0 else 1 + strlen s'
  end.

Fixpoint memcmp (n : nat) (v1 v2 : list Z) : Z :=
  match n with
  | O => 0
  | S n' => if negb (hd0 v1 =? hd0 v2) then hd0 v1 - hd0 v2
            else memcmp n' (tail v1) (tail v2)
  end.

(** ulib.c *)
Fixpoint strcmp (p q : list Z) : Z :=
  match p with
  | c :: p' => if truth c && (c =? hd0 q) then strcmp p' (tail q) else c - hd0 q
  | [] => 0 - hd0 q
  end.

(** [strchr] returns the suffix of the string that starts at the match. *)
Fixpoint strchr (s : list Z) (c : Z) : option (list Z) :=
  match s with
  | [] => None
  | x :: s' => if x =? 0 then None else if x =? c then Some s else strchr s' c
  end.

Fixpoint atoi_loop (n : Z) (s : list Z) : Z :=
  match s with
  | [] => n
  | c :: s' => if (48 <=? c) && (c <=? 57) then atoi_loop (i32 (n * 10 + c - 48)) s' else n
  end.
Definition atoi (s : list Z) : Z := atoi_loop 0 s.

(** ** Flat memory *)

(** The two loops of [memmove], the store at [d+i] following the load at
    [s+i]; [back] runs from the last byte to the first. *)
Fixpoint move_fwd (n : nat) (d s : nat) (m : list Z) : list Z :=
  match n with
  | O => m
  | S n' => move_fwd n' (S d) (S s) (<[d := nthd 0 m s]> m)
  end.
Fixpoint move_back (n : nat) (d s : nat) (m : list Z) : list Z :=
  match n with
  | O => m
  | S n' => move_back n' d s (<[(d + n')%nat := nthd 0 m (s + n')]> m)
  end.
Definition memmove (d s n : nat) (m : list Z) : list Z :=
  if bool_decide ((s < d)%nat /\ (d < s + n)%nat) then move_back n d s m
  else move_fwd n d s m.
Definition memcpy (d s n : nat) (m : list Z) : list Z := memmove d s n m.

(** [stosb] and [stosl] store [cnt] bytes, resp. [cnt] little-endian words. *)
Fixpoint stosb (d : nat) (c : Z) (cnt : nat) (m : list Z) : list Z :=
  match cnt with
  | O => m
  | S k => stosb (S d) c k (<[d := u8 c]> m)
  end.
Fixpoint stosl (d : nat) (w : Z) (cnt : nat) (m : list Z) : list Z :=
  match cnt with
  | O => m
  | S k => stosl (d + 4) w k (wr 4 d w m)
  end.
Definition memset (d : nat) (c : Z) (n : nat) (m : list Z) : list Z :=
  if (Z.of_nat d mod 4 =? 0) && (Z.of_nat n mod 4 =? 0)
  then let b := Z.land c 255 in
       stosl d (Z.lor (Z.lor (Z.lor (Z.shiftl b 24) (Z.shiftl b 16)) (Z.shiftl b 8)) b)
             (n / 4) m
  else stosb d c n m.

Arguments safestrcpy : simpl never.
Arguments memset : simpl never.
Arguments memmove : simpl never.

(** ** Lemmas on strings *)

(** A pointer is safe to read as a string of at most [n] bytes. *)
Definition str_ok (n : nat) (p : list Z) : Prop := 0 ∈ p \/ (n <= length p)%nat.

Lemma cstr_app n p x : str_ok n p -> cstr n (p ++ x) = cstr n p.
Proof.
  revert p. induction n as [|n IH]; intros [|c p] Hok; try done; simpl.
  - destruct Hok as [H|H]; [by apply not_elem_of_nil in H|simpl in H; lia].
  - destruct (c =? 0) eqn:Hc; [done|]. b2p. f_equal. apply IH.
    destruct Hok as [H|H]; [left|right; simpl in H; lia].
    apply elem_of_cons in H as [H|H]; [congruence|done].
Qed.

Lemma cstr_nil n : cstr n [] = [].
Proof. by destruct n. Qed.

Lemma cstr_length n p : (length (cstr n p) <= n)%nat.
Proof.
  revert p. induction n as [|n IH]; intros [|c p]; simpl; try lia.
  destruct (c =? 0); simpl; [lia|]. specialize (IH p). lia.
Qed.

Lemma cstr_nonzero n p : 0 ∉ cstr n p.
Proof.
  revert p. induction n as [|n IH]; intros [|c p]; simpl; try apply not_elem_of_nil.
  destruct (c =? 0) eqn:Hc; [apply not_elem_of_nil|]. b2p.
  intros [H|H]%elem_of_cons; [congruence|]. by apply (IH p).
Qed.

(** A NUL-free string of at most [n] bytes denotes itself. *)
Lemma cstr_id n p : 0 ∉ p -> (length p <= n)%nat -> cstr n p = p.
Proof.
  revert p. induction n as [|n IH]; intros [|c p] H0 Hl; simpl in *; try done; [lia|].
  apply not_elem_of_cons in H0 as [Hc Hp]. destruct (c =? 0) eqn:E; b2p; [congruence|].
  f_equal. apply IH; [done|lia].
Qed.

Lemma cstr_cstr n p : cstr n (cstr n p) = cstr n p.
Proof. apply cstr_id; [apply cstr_nonzero|apply cstr_length]. Qed.

Lemma strncmp_zero_iff n p q : strncmp n p q = 0 <-> cstr n p = cstr n q.
Proof.
  revert p q. induction n as [|n IH]; intros p q; [done|].
  destruct p as [|a p], q as [|b q]; cbn [strncmp hd0 cstr tail];
    unfold truth; simpl.
  - done.
  - destruct (b =? 0) eqn:Hb; b2p; split; intros; (lia || done).
  - destruct (a =? 0) eqn:Ha; b2p; simpl; [split; intros; (lia||done)|].
    destruct (a =? 0) eqn:Ha'; b2p; [lia|]. simpl. split; intros; (lia || done).
  - destruct (a =? 0) eqn:Ha; b2p; simpl.
    { destruct (b =? 0) eqn:Hb; b2p; split; intros; (lia || done). }
    destruct (a =? b) eqn:Hab; b2p; subst.
    + rewrite (proj2 (Z.eqb_neq b 0) Ha). rewrite IH. split; [by intros ->|by intros [= ->]].
    + destruct (b =? 0); split; intros H; (lia || congruence).
Qed.

Lemma cstr_zero_fill n k s : cstr k (zero_fill n s) = if decide (n = 0%nat) then cstr k s else [].
Proof. by destruct n, k. Qed.

Lemma cstr_strncpy n s t : cstr n (strncpy n s t) = cstr n t.
Proof.
  revert s t. induction n as [|n IH]; intros s t; [done|].
  destruct t as [|c t]; cbn [strncpy hd0 tail]; unfold truth; simpl; [done|].
  destruct (c =? 0) eqn:Hc; simpl; rewrite ?Hc; [done|]. by rewrite IH.
Qed.

Lemma length_zero_fill n s : (n <= length s)%nat -> length (zero_fill n s) = length s.
Proof.
  revert s. induction n as [|n IH]; intros s H; [done|]. destruct s; simpl in *; [lia|].
  rewrite IH; lia.
Qed.

Lemma length_strncpy n s t : (n <= length s)%nat -> length (strncpy n s t) = length s.
Proof.
  revert s t. induction n as [|n IH]; intros s t H; [done|]. destruct s as [|x s]; simpl in *; [lia|].
  destruct (truth (hd0 t)); rewrite ?IH, ?length_zero_fill; simpl; lia.
Qed.

(** What [strncmp] compares.  Its result is 0 exactly when the two
    arrays denote the same string within the bound. *)
Theorem strncmp_spec n p q : strncmp n p q = 0 <-> cstr n p = cstr n q.
Proof. apply strncmp_zero_iff. Qed.

(** [strncmp] stays inside its arguments: bytes after a terminated string,
    or after an array of the bound's length, do not change the result. *)
Lemma strncmp_in_bounds n p q x y :
  str_ok n p -> str_ok n q -> strncmp n (p ++ x) (q ++ y) = strncmp n p q.
Proof.
  revert p q. induction n as [|n IH]; intros p q Hp Hq; [done|].
  assert (Htl : forall r, str_ok (S n) r -> r <> [] /\ (hd0 r = 0 \/ str_ok n (tail r))).
  { intros [|c r] H; [by destruct H as [H%elem_of_nil|H]; [|simpl in H; lia]|].
    split; [done|]. destruct (decide (c = 0)) as [->|Hc]; [by left|right].
    destruct H as [H|H]; [left|right; simpl in *; lia].
    apply elem_of_cons in H as [H|H]; [congruence|done]. }
  destruct (Htl p Hp) as [Hpn Hpt], (Htl q Hq) as [Hqn Hqt].
  destruct p as [|a p]; [done|]. destruct q as [|b q]; [done|].
  simpl in *. unfold truth.
  destruct (a =? 0) eqn:Ha; [done|]. destruct (a =? b) eqn:Hab; [|done]. b2p. subst. simpl.
  apply IH; [by destruct Hpt|by destruct Hqt].
Qed.

(** [safestrcpy] writes the longest prefix of the source that fits in [n-1]
    bytes, terminates it, and stays inside the [n] bytes of its buffer. *)
Lemma safestrcpy_loop_spec k s t :
  (k < length s)%nat ->
  cstr (S k) (safestrcpy_loop k s t) = cstr k t /\
  length (safestrcpy_loop k s t) = length s /\
  drop (S k) (safestrcpy_loop k s t) = drop (S k) s.
Proof.
  revert s t. induction k as [|k IH]; intros s t Hl; destruct s as [|x s]; simpl in Hl; try lia.
  { done. }
  destruct t as [|c t]; cbn [safestrcpy_loop hd0 tail]; unfold truth; simpl.
  - destruct s as [|y s]; simpl in *; [lia|done].
  - destruct (c =? 0) eqn:Hc; simpl; rewrite ?Hc.
    + destruct s as [|y s]; simpl in *; [lia|done].
    + destruct (IH s t ltac:(lia)) as (H1 & H2 & H3). simpl in H1. by rewrite H1, H2, H3.
Qed.

Lemma safestrcpy_spec n s t :
  0 < n <= Z.of_nat (length s) ->
  cstr (Z.to_nat n) (safestrcpy n s t) = cstr (Z.to_nat (n - 1)) t /\
  length (safestrcpy n s t) = length s /\
  drop (Z.to_nat n) (safestrcpy n s t) = drop (Z.to_nat n) s.
Proof.
  intros [Hn Hl]. unfold safestrcpy. destruct (n <=? 0) eqn:E; b2p; [lia|].
  replace (Z.to_nat n) with (S (Z.to_nat (n - 1))) by lia.
  apply safestrcpy_loop_spec. lia.
Qed.

(** ** Lemmas on flat memory *)

Lemma length_move_fwd n d s m : length (move_fwd n d s m) = length m.
Proof. revert d s m. induction n; intros; simpl; [done|]. rewrite IHn. by len. Qed.

Lemma move_fwd_lookup n d s m i :
  (d <= s \/ s + n <= d)%nat -> (d + n <= length m)%nat -> (s + n <= length m)%nat ->
  move_fwd n d s m !! i =
    if bool_decide (d <= i < d + n)%nat then m !! (s + (i - d))%nat else m !! i.
Proof.
  revert d s m. induction n as [|n IH]; intros d s m Hov Hd Hs.
  { rewrite bool_decide_eq_false_2; [done|lia]. }
  cbn [move_fwd]. rewrite IH by (autorewrite with xv6_len; lia).
  destruct (decide (i = d)) as [->|Hid].
  - rewrite bool_decide_eq_false_2 by lia. rewrite bool_decide_eq_true_2 by lia.
    rewrite list_lookup_insert_eq by lia. rewrite Nat.sub_diag, Nat.add_0_r.
    by rewrite (lookup_nthd 0 m s) by lia.
  - destruct (decide (d <= i < d + S n)%nat).
    + rewrite !bool_decide_eq_true_2 by lia. rewrite list_lookup_insert_ne by lia.
      f_equal. lia.
    + rewrite !bool_decide_eq_false_2 by lia. by rewrite list_lookup_insert_ne by lia.
Qed.

Lemma move_back_lookup n d s m i :
  (s <= d)%nat -> (d + n <= length m)%nat ->
  move_back n d s m !! i =
    if bool_decide (d <= i < d + n)%nat then m !! (s + (i - d))%nat else m !! i.
Proof.
  revert m. induction n as [|n IH]; intros m Hov Hd.
  { rewrite bool_decide_eq_false_2; [done|lia]. }
  cbn [move_back]. rewrite IH by (autorewrite with xv6_len; lia).
  destruct (decide (i = d + n)%nat) as [->|Hid].
  - rewrite bool_decide_eq_false_2 by lia. rewrite bool_decide_eq_true_2 by lia.
    rewrite list_lookup_insert_eq by lia.
    rewrite (lookup_nthd 0 m (s + (d + n - d))) by lia. do 2 f_equal. lia.
  - destruct (decide (d <= i < d + S n)%nat).
    + rewrite !bool_decide_eq_true_2 by lia. by rewrite list_lookup_insert_ne by lia.
    + rewrite !bool_decide_eq_false_2 by lia. by rewrite list_lookup_insert_ne by lia.
Qed.

(** [memmove] copies [n] bytes as if through a temporary, for every
    overlap of source and destination, and changes nothing else. *)
Theorem memmove_spec d s n m :
  (d + n <= length m)%nat -> (s + n <= length m)%nat ->
  memmove d s n m = splice d (slice s n m) m.
Proof.
  intros Hd Hs. apply list_eq. intros i.
  assert (Hlen : length (slice s n m) = n) by (apply length_slice; lia).
  assert (Hl : memmove d s n m !! i =
               if bool_decide (d <= i < d + n)%nat then m !! (s + (i - d))%nat else m !! i).
  { unfold memmove. case_bool_decide.
    - by apply move_back_lookup; lia.
    - destruct (decide (n = 0)%nat) as [->|]; [|by apply move_fwd_lookup; lia].
      simpl. by rewrite bool_decide_eq_false_2 by lia. }
  rewrite Hl. case_bool_decide.
  - rewrite lookup_splice_in by (rewrite Hlen; lia). rewrite lookup_slice by lia. done.
  - rewrite lookup_splice_out by (rewrite Hlen; lia). done.
Qed.

Lemma memmove_spec_witness :
  (1 + 3 <= 5)%nat /\ memmove 1 0 3 [10; 20; 30; 40; 50] = [10; 10; 20; 30; 50].
Proof. split; [lia|]. rewrite (memmove_spec 1 0 3 [10; 20; 30; 40; 50]); simpl; [reflexivity|lia|lia]. Defined.

Lemma stosb_lookup cnt d c m i :
  (d + cnt <= length m)%nat ->
  stosb d c cnt m !! i = if bool_decide (d <= i < d + cnt)%nat then Some (u8 c) else m !! i.
Proof.
  revert d m. induction cnt as [|k IH]; intros d m Hl.
  { rewrite bool_decide_eq_false_2; [done|lia]. }
  cbn [stosb]. rewrite IH by (autorewrite with xv6_len; lia).
  destruct (decide (i = d)) as [->|].
  - rewrite bool_decide_eq_false_2, bool_decide_eq_true_2 by lia. apply list_lookup_insert_eq. lia.
  - destruct (decide (d <= i < d + S k)%nat).
    + by rewrite !bool_decide_eq_true_2 by lia.
    + rewrite !bool_decide_eq_false_2 by lia. by rewrite list_lookup_insert_ne by lia.
Qed.

(** The word [memset] stores holds the fill byte four times. *)
Lemma memset_word c :
  let b := Z.land c 255 in
  le_enc 4 (Z.lor (Z.lor (Z.lor (Z.shiftl b 24) (Z.shiftl b 16)) (Z.shiftl b 8)) b)
  = replicate 4 (u8 c).
Proof.
  intros b. subst b. change 255 with (Z.ones 8). rewrite Z.land_ones by lia.
  unfold u8. set (b := c mod 2 ^ 8). assert (Hb : 0 <= b < 256).
  { subst b. apply Z.mod_pos_bound. lia. }
  assert (Hlor : forall x k, 0 <= x < 2 ^ k -> 0 <= k -> Z.lor (Z.shiftl b k) x = b * 2 ^ k + x).
  { intros x k Hx Hk. rewrite Z.shiftl_mul_pow2 by lia. symmetry. apply Z.add_nocarry_lor.
    apply Z.bits_inj'. intros j Hj. rewrite Z.land_spec, Z.bits_0.
    destruct (Z.lt_ge_cases j k).
    - rewrite Z.mul_pow2_bits_low by lia. done.
    - rewrite (proj2 (Z.testbit_false x j Hj)); [by rewrite andb_false_r|].
      rewrite Z.div_small; [done|]. split; [lia|].
      apply Z.lt_le_trans with (2 ^ k); [lia|]. apply Z.pow_le_mono_r; lia. }
  rewrite <- !Z.lor_assoc. rewrite (Hlor b 8) by lia.
  rewrite (Hlor (b * 2 ^ 8 + b) 16) by lia.
  rewrite (Hlor (b * 2 ^ 16 + (b * 2 ^ 8 + b)) 24) by lia.
  cbn [le_enc replicate].
  change (2 ^ 24) with 16777216. change (2 ^ 16) with 65536. change (2 ^ 8) with 256.
  clear Hlor. repeat apply (f_equal2 cons); try done; zlia.
Qed.

Lemma stosl_stosb cnt d w c m :
  le_enc 4 w = replicate 4 (u8 c) -> (d + 4 * cnt <= length m)%nat ->
  stosl d w cnt m = stosb d c (4 * cnt) m.
Proof.
  intros Hw. revert d m. induction cnt as [|k IH]; intros d m Hl; [done|].
  replace (4 * S k)%nat with (S (S (S (S (4 * k))))) by lia. cbn [stosl stosb].
  rewrite IH by (rewrite length_wr; lia).
  replace (S (S (S (S d)))) with (d + 4)%nat by lia. f_equal.
  unfold wr. rewrite Hw. apply list_eq. intros i.
  destruct (decide (d <= i < d + 4)%nat) as [Hi|Hi].
  - rewrite lookup_splice_in by (simpl; lia).
    rewrite lookup_replicate_2 by lia.
    assert (i = d \/ i = S d \/ i = S (S d) \/ i = S (S (S d))) as Hc by lia.
    destruct Hc as [->|[->|[->| ->]]];
      repeat (first [rewrite list_lookup_insert_eq by (autorewrite with xv6_len; lia); done
                    |rewrite list_lookup_insert_ne by lia]).
  - rewrite lookup_splice_out by (simpl; lia).
    by rewrite !list_lookup_insert_ne by lia.
Qed.

(** [memset] fills exactly [n] bytes with the low byte of [c], whichever of
    the word path and the byte path it takes. *)
Lemma memset_spec d c n m :
  (d + n <= length m)%nat -> memset d c n m = splice d (replicate n (u8 c)) m.
Proof.
  intros Hl.
  assert (H : memset d c n m = stosb d c n m).
  { unfold memset. destruct (_ && _) eqn:Hb; [|done]. b2p.
    assert (Hn : (4 * (n / 4) = n)%nat).
    { pose proof (Nat.div_mod_eq n 4). pose proof (Nat2Z.inj_mod n 4). lia. }
    rewrite <- Hn at 2. apply stosl_stosb; [apply memset_word|lia]. }
  rewrite H. apply list_eq. intros i. rewrite stosb_lookup by done. case_bool_decide.
  - rewrite lookup_splice_in by (rewrite length_replicate; lia).
    by rewrite lookup_replicate_2 by lia.
  - by rewrite lookup_splice_out by (rewrite length_replicate; lia).
Qed.

Lemma strlen_cstr s : 0 ∈ s -> strlen s = Z.of_nat (length (cstr (length s) s)).
Proof.
  induction s as [|c s IH]; intros H; [by apply elem_of_nil in H|]. simpl.
  destruct (c =? 0) eqn:Hc; [done|]. b2p.
  apply elem_of_cons in H as [H|H]; [congruence|]. rewrite IH by done. simpl. lia.
Qed.

Lemma strlen_nonneg s : 0 <= strlen s.
Proof. induction s as [|c s IH]; simpl; [lia|]. destruct (c =? 0); lia. Qed.

(** Clients reason through the lemmas above. *)
#[global] Opaque strncmp strncpy safestrcpy cstr lit memmove memset.
