(* ===== verification/Params.v ===== *)
(** The constants of param.h, fs.h, stat.h, fcntl.h, buf.h, perm.h, traps.h
    and the segments of mmu.h, the
    on-disk layout arithmetic of fs.h, and the permission predicates of
    perm.h. *)
From stdpp Require Import base numbers list.
From Stdlib Require Import ZArith Lia.
From S2P Require Import Prelude.

Local Open Scope Z_scope.

(** ** param.h *)
Definition NPROC : Z := 64.
Definition KSTACKSIZE : Z := 4096.
Definition NCPU : Z := 8.
Definition NOFILE : Z := 16.
Definition NFILE : Z := 100.
Definition NINODE : Z := 50.
Definition NDEV : Z := 10.
Definition ROOTDEV : Z := 1.
Definition MAXARG : Z := 32.
Definition MAXOPBLOCKS : Z := 10.
Definition LOGSIZE : Z := MAXOPBLOCKS * 3.
Definition NBUF : Z := MAXOPBLOCKS * 3.
Definition FSSIZE : Z := 1000.

(** ** stat.h *)
Definition T_DIR : Z := 1.
Definition T_FILE : Z := 2.
Definition T_DEV : Z := 3.

(** ** fcntl.h *)
Definition O_RDONLY : Z := 0.
Definition O_WRONLY : Z := 1.
Definition O_RDWR : Z := 2.
Definition O_CREATE : Z := 512.

(** ** buf.h *)
Definition B_VALID : Z := 2.
Definition B_DIRTY : Z := 4.

(** ** traps.h *)
Definition T_SYSCALL : Z := 64.
Definition T_IRQ0 : Z := 32.
Definition IRQ_TIMER : Z := 0.
Definition IRQ_KBD : Z := 1.
Definition IRQ_COM1 : Z := 4.
Definition IRQ_IDE : Z := 14.
Definition IRQ_ERROR : Z := 19.
Definition IRQ_SPURIOUS : Z := 31.

(** ** mmu.h: flags and segments *)
Definition FL_IF : Z := 512.
Definition SEG_KCODE : Z := 1.
Definition SEG_KDATA : Z := 2.
Definition SEG_UCODE : Z := 3.
Definition SEG_UDATA : Z := 4.
Definition SEG_TSS : Z := 5.
Definition NSEGS : Z := 6.
Definition DPL_USER : Z := 3.

(** ** fs.h: layout of the disk *)
Definition ROOTINO : Z := 1.
Definition BSIZE : Z := 4096.
Definition NDIRECT : Z := 12.
Definition NINDIRECT : Z := BSIZE / 4.
Definition MAXFILE : Z := NDIRECT + NINDIRECT.
Definition DIRSIZ : Z := 14.
Definition DINODESIZE : Z := 128.
Definition DIRENTSIZE : Z := 16.
Definition IPB : Z := BSIZE / DINODESIZE.
Definition BPB : Z := BSIZE * 8.

(** The superblock, in the order of [struct superblock]. *)
Record superblock := Superblock {
  sb_size : Z; sb_nblocks : Z; sb_ninodes : Z; sb_nlog : Z;
  sb_logstart : Z; sb_inodestart : Z; sb_bmapstart : Z
}.

Definition IBLOCK (i : Z) (sb : superblock) : Z := i / IPB + sb_inodestart sb.
Definition BBLOCK (b : Z) (sb : superblock) : Z := b / BPB + sb_bmapstart sb.

(** A disk block: [BSIZE] bytes. *)
Definition block := list Z.
Definition bsize : nat := Z.to_nat BSIZE.
Definition zero_block : block := replicate bsize 0.

(** ** perm.h *)
Definition S_IRUSR : Z := 256.
Definition S_IWUSR : Z := 128.
Definition S_IXUSR : Z := 64.
Definition S_IRGRP : Z := 32.
Definition S_IWGRP : Z := 16.
Definition S_IXGRP : Z := 8.
Definition S_IROTH : Z := 4.
Definition S_IWOTH : Z := 2.
Definition S_IXOTH : Z := 1.
Definition S_IRWXU : Z := 448.
Definition S_IRWXG : Z := 56.
Definition S_IRWXO : Z := 7.
Definition DEFAULT_FILE_MODE : Z := 420.
Definition DEFAULT_DIR_MODE : Z := 493.

Definition has_bit (mode bit : Z) : bool := truth (Z.land mode bit).

Definition CAN_READ (mode uid gid f_uid f_gid : Z) : bool :=
  (uid =? 0) || ((uid =? f_uid) && has_bit mode S_IRUSR)
  || ((gid =? f_gid) && has_bit mode S_IRGRP) || has_bit mode S_IROTH.
Definition CAN_WRITE (mode uid gid f_uid f_gid : Z) : bool :=
  (uid =? 0) || ((uid =? f_uid) && has_bit mode S_IWUSR)
  || ((gid =? f_gid) && has_bit mode S_IWGRP) || has_bit mode S_IWOTH.
Definition CAN_EXECUTE (mode uid gid f_uid f_gid : Z) : bool :=
  (uid =? 0) || ((uid =? f_uid) && has_bit mode S_IXUSR)
  || ((gid =? f_gid) && has_bit mode S_IXGRP) || has_bit mode S_IXOTH.

(** ** Sizes *)

(** The fields of [struct dinode] (with the compiler's two bytes of padding
    before [addrs]) fill a power-of-two slot, so inodes tile a block; so do
    directory entries. *)
Lemma layout_sizes :
  DINODESIZE = 4 * 2 + 4 + 3 * 2 + 2 + (NDIRECT + 1) * 4 + 56 /\
  DIRENTSIZE = 2 + DIRSIZ /\ BSIZE mod DINODESIZE = 0 /\ BSIZE mod DIRENTSIZE = 0 /\
  IPB = 32 /\ BPB = 32768 /\ MAXFILE = 1036.
Proof. done. Qed.

Lemma bsize_Z : Z.of_nat bsize = BSIZE.
Proof. done. Qed.
Lemma length_zero_block : length zero_block = bsize.
Proof. apply length_replicate. Qed.

Lemma length_wr_block n off z (d : block) :
  (off + n <= bsize)%nat -> length d = bsize -> length (wr n off z d) = bsize.
Proof. intros H Hd. rewrite length_wr; lia. Qed.
Lemma bsize_nat : bsize = Z.to_nat 4096.
Proof. done. Qed.

(** Every field of a zeroed block is zero. *)
Lemma rd_zero n off : rd n off zero_block = 0.
Proof.
  unfold rd, slice, zero_block. rewrite drop_replicate, take_replicate.
  generalize (n `min` (bsize - off))%nat as k.
  induction k as [|k IH]; [done|]. cbn [replicate le_dec]. rewrite IH. done.
Qed.

#[global] Opaque bsize zero_block.
#[export] Hint Rewrite length_zero_block : xv6_len.
