(* ===== verification/Users.v ===== *)
(** The user database and the sudoers list: users.c.

    [usertable.users] is a list of [NUSER] records and [sudoers] a parallel
    list of flags.  Each operation of users.c holds [usertable.lock] from its
    first to its last access, so it is one atomic step, a function of the
    tables; the scans are [find_idx] over the table, in slot order. *)
From stdpp Require Import base numbers list strings relations.
From Stdlib Require Import ZArith Lia.
From S2P Require Import Prelude CString.

Local Open Scope list_scope.
Local Open Scope Z_scope.

Record user := User {
  uid : Z; gid : Z; username : list Z; password : list Z; active : Z
}.

Definition NUSER : nat := 10.

Record utable := Utable { users : list user; sudoers : list Z }.

(** The zero-initialised tables of the kernel image. *)
Definition user0 : user := User 0 0 (replicate 16 0) (replicate 32 0) 0.
Definition utable0 : utable := Utable (replicate NUSER user0) (replicate NUSER 0).

Definition with_users (t : utable) (us : list user) : utable := Utable us (sudoers t).
Definition with_sudoers (t : utable) (ss : list Z) : utable := Utable (users t) ss.

(** Write the fields of slot [i], as users_init and users_add do. *)
Definition fill_user (name pw : list Z) (u g : Z) (old : user) : user :=
  User u g (safestrcpy 16 (username old) name) (safestrcpy 32 (password old) pw) 1.
Definition deactivate (u : user) : user := User (uid u) (gid u) (username u) (password u) 0.

Definition sudoers_init (t : utable) : utable :=
  with_sudoers t (<[1%nat := 1]> (<[0%nat := 1]> ((fun _ => 0) <$> sudoers t))).

Definition users_init (t : utable) : utable :=
  let us1 := alter (fill_user (lit "root") (lit "toor") 0 0) 0%nat (users t) in
  let us2 := alter (fill_user (lit "user") (lit "user") 1000 1000) 1%nat us1 in
  let us3 := take 2 us2 ++ (deactivate <$> drop 2 us2) in
  sudoers_init (with_users t us3).

Definition named (name : list Z) (u : user) : bool :=
  truth (active u) && (strncmp 16 (username u) name =? 0).
Definition has_uid (id : Z) (u : user) : bool := truth (active u) && (uid u =? id).
Definition inactive (u : user) : bool := negb (truth (active u)).

Definition users_checkpassword (t : utable) (name pw : list Z) : Z :=
  match find_idx (named name) (users t) with
  | Some i => let u := nthd user0 (users t) i in
              if strncmp 32 (password u) pw =? 0 then uid u else -1
  | None => -1
  end.

Definition users_getname (t : utable) (id : Z) (buf : list Z) (size : Z) : list Z :=
  match find_idx (has_uid id) (users t) with
  | Some i => safestrcpy size buf (username (nthd user0 (users t) i))
  | None => safestrcpy size buf (lit "unknown")
  end.

Definition users_add (t : utable) (name pw : list Z) (u g : Z) : Z * utable :=
  match find_idx inactive (users t) with
  | Some i => (0, with_users t (alter (fill_user name pw u g) i (users t)))
  | None => (-1, t)
  end.

Definition users_delete (t : utable) (name : list Z) : Z * utable :=
  match find_idx (named name) (users t) with
  | Some i => if uid (nthd user0 (users t) i) =? 0 then (-1, t)
              else (0, with_users t (alter deactivate i (users t)))
  | None => (-1, t)
  end.

(** The rows [users_list] passes to [cprintf]. *)
Definition users_list (t : utable) : list (Z * Z * list Z) :=
  (fun u => (uid u, gid u, username u)) <$> filter (fun u => truth (active u) = true) (users t).

Definition users_can_sudo (t : utable) (id : Z) : Z :=
  match find_idx (has_uid id) (users t) with
  | Some i => nthd 0 (sudoers t) i
  | None => 0
  end.

Definition users_add_sudoer (t : utable) (id : Z) : Z * utable :=
  match find_idx (has_uid id) (users t) with
  | Some i => (0, with_sudoers t (<[i := 1]> (sudoers t)))
  | None => (-1, t)
  end.

Definition users_remove_sudoer (t : utable) (id : Z) : Z * utable :=
  if id =? 0 then (-1, t) else
  match find_idx (has_uid id) (users t) with
  | Some i => (0, with_sudoers t (<[i := 0]> (sudoers t)))
  | None => (-1, t)
  end.

(** ** Well-formed tables *)

Definition user_wf (u : user) : Prop :=
  length (username u) = 16%nat /\ length (password u) = 32%nat.
Definition utable_wf (t : utable) : Prop :=
  length (users t) = NUSER /\ length (sudoers t) = NUSER /\ Forall user_wf (users t).

Lemma fill_user_wf name pw u g old : user_wf old -> user_wf (fill_user name pw u g old).
Proof.
  intros [H1 H2]. unfold user_wf. cbn [fill_user username password]. split.
  - destruct (safestrcpy_spec 16 (username old) name) as (_ & -> & _); [lia|done].
  - destruct (safestrcpy_spec 32 (password old) pw) as (_ & -> & _); [lia|done].
Qed.

Lemma users_lookup t i : utable_wf t -> (i < NUSER)%nat -> users t !! i = Some (nthd user0 (users t) i).
Proof. intros (Hl & _) Hi. apply lookup_nthd. by rewrite Hl. Qed.

Lemma alter_wf f i us :
  (forall u, user_wf u -> user_wf (f u)) -> Forall user_wf us -> Forall user_wf (alter f i us).
Proof. intros Hf H. apply Forall_alter; [done|]. intros x _ Hx. auto. Qed.

Lemma utable0_wf : utable_wf utable0.
Proof. repeat split. unfold utable0; simpl. by repeat constructor. Qed.

(** ** Reachable tables *)

(** One operation of users.c that changes the tables. *)
Inductive ustep : utable -> utable -> Prop :=
| ustep_add t name pw u g : ustep t (users_add t name pw u g).2
| ustep_delete t name : ustep t (users_delete t name).2
| ustep_add_sudoer t id : ustep t (users_add_sudoer t id).2
| ustep_remove_sudoer t id : ustep t (users_remove_sudoer t id).2.

(** Slot 0 holds an active root, with its boot name and password, and may
    use sudo. *)
Definition root_slot (t : utable) : Prop :=
  exists r, users t !! 0%nat = Some r /\ uid r = 0 /\ active r = 1 /\
    cstr 16 (username r) = cstr 16 (lit "root") /\
    cstr 32 (password r) = cstr 32 (lit "toor") /\
    sudoers t !! 0%nat = Some 1.

Definition uinv (t : utable) : Prop := utable_wf t /\ root_slot t.

Lemma users_init_inv : uinv (users_init utable0).
Proof.
  split.
  - repeat split; vm_compute; repeat constructor.
  - eexists. split; [reflexivity|]. repeat split.
Qed.

Lemma root_slot_alter t i f :
  root_slot t -> i <> 0%nat -> root_slot (with_users t (alter f i (users t))).
Proof.
  intros (r & Hr & Hrest) Hi. exists r. split; [|exact Hrest]. simpl.
  by rewrite list_lookup_alter_ne.
Qed.

Lemma alter_uinv t i f :
  uinv t -> i <> 0%nat -> (forall u, user_wf u -> user_wf (f u)) ->
  uinv (with_users t (alter f i (users t))).
Proof.
  intros [(H1 & H2 & H3) Hr] Hi Hf. split; [|by apply root_slot_alter].
  repeat split; simpl; [by rewrite length_alter|done|by apply alter_wf].
Qed.

Lemma set_sudoer_uinv t i v :
  uinv t -> i <> 0%nat \/ v = 1 -> uinv (with_sudoers t (<[i := v]> (sudoers t))).
Proof.
  intros [(H1 & H2 & H3) (r & Hr & Hu & Ha & Hn & Hp & Hs)] Hi. split.
  - repeat split; simpl; [done|by rewrite length_insert|done].
  - exists r. repeat split; simpl; try done. destruct (decide (i = 0%nat)) as [->|Hne].
    + destruct Hi as [?| ->]; [done|]. apply list_lookup_insert_eq. rewrite H2. unfold NUSER. lia.
    + by rewrite list_lookup_insert_ne.
Qed.

(** The scans of the code that reach slot 0 stop there exactly for root. *)
Lemma find_has_uid_nonroot t id i :
  root_slot t -> find_idx (has_uid id) (users t) = Some i -> id <> 0 -> i <> 0%nat.
Proof.
  intros (r & Hr & Hu & _) [(u & Hlk & Hh) _]%find_idx_Some Hid ->.
  unfold has_uid in Hh. rewrite Hr in Hlk. simplify_eq. b2p. congruence.
Qed.

Lemma ustep_uinv t t' : uinv t -> ustep t t' -> uinv t'.
Proof.
  intros Hinv Hstep. pose proof Hinv as [Hwf (r & Hr & Hu & Ha & _)]. destruct Hstep; simpl.
  - unfold users_add. destruct (find_idx _ _) as [i|] eqn:Hf; [|done]. simpl.
    apply alter_uinv; [done| |auto using fill_user_wf].
    intros ->. apply find_idx_Some in Hf as [(x & Hx & Hin) _]. rewrite Hr in Hx. simplify_eq.
    unfold inactive in Hin. by rewrite Ha in Hin.
  - unfold users_delete. destruct (find_idx _ _) as [i|] eqn:Hf; [|done].
    destruct (uid _ =? 0) eqn:Hid; [done|]. simpl. apply alter_uinv; [done| |done].
    intros ->. b2p. by rewrite (nthd_lookup user0 _ _ _ Hr) in Hid.
  - unfold users_add_sudoer. destruct (find_idx _ _) as [i|] eqn:Hf; [|done].
    apply set_sudoer_uinv; auto.
  - unfold users_remove_sudoer. destruct (id =? 0) eqn:Hid; [done|].
    destruct (find_idx _ _) as [i|] eqn:Hf; [|done]. b2p.
    apply set_sudoer_uinv; [done|left]. by eapply find_has_uid_nonroot; [apply Hinv| |].
Qed.

(** ** Properties *)

Lemma named_cstr name u :
  named name u = true <-> active u <> 0 /\ cstr 16 (username u) = cstr 16 name.
Proof.
  unfold named, truth. rewrite andb_true_iff, negb_true_iff, Z.eqb_neq, Z.eqb_eq.
  by rewrite strncmp_zero_iff.
Qed.

Lemma named_false name u :
  named name u = false <-> (active u = 0 \/ cstr 16 (username u) <> cstr 16 name).
Proof.
  unfold named, truth. rewrite andb_false_iff, negb_false_iff, Z.eqb_neq, Z.eqb_eq.
  by rewrite strncmp_zero_iff.
Qed.

(** C34: whatever sequence of user-database operations runs after boot, the
    root account of slot 0 survives: root can still log in with its boot
    password, may use sudo, and can be neither deleted nor removed from the
    sudoers. *)
Theorem root_survives t :
  rtc ustep (users_init utable0) t ->
  users_checkpassword t (lit "root") (lit "toor") = 0 /\ users_can_sudo t 0 = 1 /\
  users_delete t (lit "root") = (-1, t) /\ users_remove_sudoer t 0 = (-1, t).
Proof.
  intros Hr. assert (Hinv : uinv t).
  { assert (H0 : uinv (users_init utable0)) by apply users_init_inv. revert H0.
    induction Hr; [done|]. intros H0. apply IHHr. by eapply ustep_uinv. }
  destruct Hinv as [_ (r & Hlk & Hu & Ha & Hn & Hp & Hs)].
  assert (Hf : find_idx (named (lit "root")) (users t) = Some 0%nat).
  { apply (find_idx_head _ _ r Hlk), named_cstr. split; [lia|done]. }
  unfold users_checkpassword, users_can_sudo, users_delete, users_remove_sudoer.
  rewrite Hf, (nthd_lookup user0 _ _ _ Hlk), Hu. repeat split.
  - by rewrite (proj2 (strncmp_zero_iff _ _ _) Hp).
  - rewrite (find_idx_head _ _ r Hlk); [by apply nthd_lookup|].
    unfold has_uid. by rewrite Ha, Hu.
Qed.

Lemma root_survives_witness :
  users_can_sudo (users_add (users_init utable0) (lit "bob") (lit "pw") 1001 1001).2 0 = 1.
Proof.
  refine (proj1 (proj2 (root_survives _ _))).
  eapply rtc_l; [apply (ustep_add _ (lit "bob") (lit "pw") 1001 1001)|apply rtc_refl].
Defined.

(** A name or password that survives the truncation of [safestrcpy]. *)
Definition fits (n : nat) (s : list Z) : bool := bool_decide (cstr (S n) s = cstr n s).

Lemma users_add_Some t name pw u g t' :
  utable_wf t -> users_add t name pw u g = (0, t') ->
  exists i old, users t !! i = Some old /\ inactive old = true /\ user_wf old /\
    (forall j x, (j < i)%nat -> users t !! j = Some x -> active x <> 0) /\
    t' = with_users t (alter (fill_user name pw u g) i (users t)).
Proof.
  unfold users_add. intros Hwf. destruct (find_idx _ _) as [i|] eqn:Hf; [|done]. intros [= <-].
  apply find_idx_Some in Hf as [(old & Hold & Hin) Hlt]. exists i, old. repeat split; try done.
  - by apply (Forall_lookup_1 _ _ _ _ (proj2 (proj2 Hwf)) Hold).
  - by apply (Forall_lookup_1 _ _ _ _ (proj2 (proj2 Hwf)) Hold).
  - intros j x Hj Hx. specialize (Hlt j x Hj Hx). unfold inactive, truth in Hlt.
    rewrite negb_involutive in Hlt. by apply Z.eqb_neq.
Qed.

(** Adding an account and logging in.  A new account whose name no active
    account bears gets its uid on login with its own name and password when
    both fit their fields, and can never log in under its own name when the
    name has more than 15 bytes or the password more than 31. *)
Theorem add_then_login t t' name pw u g :
  utable_wf t -> users_add t name pw u g = (0, t') ->
  (forall i x, users t !! i = Some x -> active x <> 0 -> cstr 16 (username x) <> cstr 16 name) ->
  users_checkpassword t' name pw = if fits 15 name && fits 31 pw then u else -1.
Proof.
  intros Hwf Hadd Hfresh.
  destruct (users_add_Some _ _ _ _ _ _ Hwf Hadd) as (i & old & Hold & Hin & [Hl1 Hl2] & _ & ->).
  destruct (safestrcpy_spec 16 (username old) name ltac:(lia)) as (Hn & _).
  destruct (safestrcpy_spec 32 (password old) pw ltac:(lia)) as (Hp & _).
  change (Z.to_nat 16) with 16%nat in Hn. change (Z.to_nat (16 - 1)) with 15%nat in Hn.
  change (Z.to_nat 32) with 32%nat in Hp. change (Z.to_nat (32 - 1)) with 31%nat in Hp.
  set (new := fill_user name pw u g old).
  assert (Hnew : alter (fill_user name pw u g) i (users t) !! i = Some new).
  { by rewrite list_lookup_alter_eq, Hold. }
  assert (Hothers : forall j y, j <> i ->
    alter (fill_user name pw u g) i (users t) !! j = Some y -> named name y = false).
  { intros j y Hj. rewrite list_lookup_alter_ne by done. intros Hy. apply named_false.
    destruct (decide (active y = 0)) as [|Ha]; [by left|right]. by eapply Hfresh. }
  unfold users_checkpassword, with_users, fits. simpl users.
  case_bool_decide as Hfit; simpl.
  - rewrite (find_idx_unique _ _ i new Hnew); [|apply named_cstr; by rewrite Hfit, <- Hn|exact Hothers].
    rewrite (nthd_lookup _ _ _ _ Hnew). simpl. case_bool_decide as Hfp.
    + assert (Hz : strncmp 32 (safestrcpy 32 (password old) pw) pw = 0).
      { apply strncmp_zero_iff. congruence. }
      by rewrite Hz.
    + destruct (strncmp _ _ _ =? 0) eqn:E; [|done]. b2p. apply strncmp_zero_iff in E. congruence.
  - rewrite (proj2 (find_idx_None _ _)); [done|]. intros j y Hy.
    destruct (decide (j = i)) as [->|Hj]; [|by eapply Hothers].
    assert (y = new) as -> by congruence. apply named_false. right. simpl. congruence.
Qed.

Lemma add_then_login_witness :
  users_checkpassword (users_add (users_init utable0) (lit "bob") (lit "pw") 1001 1001).2
    (lit "bob") (lit "pw") = 1001.
Proof.
  etransitivity; [eapply (add_then_login (users_init utable0) _ (lit "bob") (lit "pw") 1001 1001)|].
  - apply users_init_inv.
  - vm_compute. reflexivity.
  - intros i x Hx Ha. do 10 (destruct i as [|i]; [vm_compute in Hx; simplify_eq; vm_compute; congruence|]).
    vm_compute in Hx. done.
  - vm_compute. reflexivity.
Defined.

(** After deleting the only account of a name, no password logs that name
    in, and every other name logs in exactly as before. *)
Theorem delete_then_login t t' name :
  users_delete t name = (0, t') ->
  (forall i j x y, users t !! i = Some x -> users t !! j = Some y ->
     named name x = true -> named name y = true -> i = j) ->
  (forall pw, users_checkpassword t' name pw = -1) /\
  (forall other pw, cstr 16 other <> cstr 16 name ->
     users_checkpassword t' other pw = users_checkpassword t other pw).
Proof.
  unfold users_delete. destruct (find_idx _ _) as [i|] eqn:Hf; [|done].
  destruct (uid _ =? 0); [done|]. intros [= <-] Huniq.
  apply find_idx_Some in Hf as [(x & Hx & Hnx) _].
  assert (Halt : alter deactivate i (users t) !! i = Some (deactivate x)).
  { by rewrite list_lookup_alter_eq, Hx. }
  split.
  - intros pw. unfold users_checkpassword. rewrite (proj2 (find_idx_None _ _)); [done|].
    simpl. intros j y Hy. destruct (decide (j = i)) as [->|Hj].
    + rewrite Halt in Hy. simplify_eq. apply named_false. by left.
    + rewrite list_lookup_alter_ne in Hy by done. destruct (named name y) eqn:E; [|done].
      destruct Hj. by eapply Huniq.
  - intros other pw Hne.
    assert (Hnamed : forall j, named other <$> (alter deactivate i (users t) !! j)
                               = named other <$> (users t !! j)).
    { intros j. destruct (decide (j = i)) as [->|Hj].
      - rewrite Halt, Hx. simpl. f_equal. rewrite (proj2 (named_false _ _)) by (by left).
        symmetry. apply named_false. apply named_cstr in Hnx as [_ Hc]. right. congruence.
      - by rewrite list_lookup_alter_ne. }
    unfold users_checkpassword. simpl.
    replace (find_idx (named other) (alter deactivate i (users t)))
      with (find_idx (named other) (users t)) by (symmetry; by apply find_idx_ext).
    destruct (find_idx (named other) (users t)) as [k|] eqn:Hk; [|done].
    assert (k <> i).
    { intros ->. apply find_idx_Some in Hk as [(z & Hz & Hnz) _]. rewrite Hx in Hz. simplify_eq.
      apply named_cstr in Hnx, Hnz. destruct Hnx, Hnz. congruence. }
    unfold nthd. by rewrite list_lookup_alter_ne.
Qed.

Lemma delete_then_login_witness :
  users_checkpassword (users_delete (users_init utable0) (lit "user")).2 (lit "user") (lit "user") = -1.
Proof.
  eapply (fun t' H1 H2 => proj1 (delete_then_login (users_init utable0) t' (lit "user") H1 H2) (lit "user"));
    [by vm_compute|].
  intros i j x y Hx Hy Hnx Hny.
  assert (Hone : forall k z, users (users_init utable0) !! k = Some z ->
                             named (lit "user") z = true -> k = 1%nat).
  { intros k z Hz Hn. do 10 (destruct k as [|k];
      [vm_compute in Hz; simplify_eq; first [done | vm_compute in Hn; discriminate]|]).
    vm_compute in Hz. discriminate. }
  by rewrite (Hone i x Hx Hnx), (Hone j y Hy Hny).
Defined.

(** The sudoers flag belongs to the slot, not to the account.  Deleting
    an account and adding another one that lands in the freed slot gives the
    new account the sudo right of the deleted one, without any call of
    [users_add_sudoer]. *)
Theorem deleted_sudo_flag_inherited t t1 t2 name i n2 p2 u2 g2 :
  utable_wf t -> find_idx (named name) (users t) = Some i ->
  users_delete t name = (0, t1) ->
  (forall j x, (j < i)%nat -> users t !! j = Some x -> active x <> 0) ->
  users_add t1 n2 p2 u2 g2 = (0, t2) ->
  (forall j x, users t1 !! j = Some x -> active x <> 0 -> uid x <> u2) ->
  users_can_sudo t2 u2 = nthd 0 (sudoers t) i.
Proof.
  intros Hwf Hf Hdel Hbefore Hadd Hfresh. unfold users_delete in Hdel. rewrite Hf in Hdel.
  destruct (uid _ =? 0); [done|]. simplify_eq.
  pose proof (find_idx_lt _ _ _ Hf) as Hlt.
  assert (Hslot : find_idx inactive (alter deactivate i (users t)) = Some i).
  { apply find_idx_Some. split.
    - exists (deactivate (nthd user0 (users t) i)).
      by rewrite list_lookup_alter_eq, (lookup_nthd user0) by done.
    - intros j y Hj. rewrite list_lookup_alter_ne by lia. intros Hy.
      unfold inactive, truth. rewrite negb_involutive. apply Z.eqb_neq. by eapply Hbefore. }
  unfold users_add in Hadd. cbn [with_users users] in Hadd. rewrite Hslot in Hadd. simplify_eq.
  unfold users_can_sudo. cbn [with_users users sudoers].
  assert (Hi : alter (fill_user n2 p2 u2 g2) i (alter deactivate i (users t)) !! i
               = Some (fill_user n2 p2 u2 g2 (deactivate (nthd user0 (users t) i)))).
  { by rewrite !list_lookup_alter_eq, (lookup_nthd user0) by done. }
  rewrite (find_idx_unique _ _ i _ Hi); [done| |].
  - unfold has_uid. simpl. by rewrite Z.eqb_refl.
  - intros j y Hj. rewrite !list_lookup_alter_ne by done. intros Hy. unfold has_uid, truth.
    destruct (active y =? 0) eqn:Ha; [done|]. b2p. simpl. apply Z.eqb_neq.
    apply (Hfresh j); [|done]. cbn [with_users users]. by rewrite list_lookup_alter_ne.
Qed.

Lemma deleted_sudo_flag_inherited_witness :
  users_can_sudo
    (users_add (users_delete (users_init utable0) (lit "user")).2 (lit "eve") (lit "x") 1001 1001).2
    1001 = 1.
Proof.
  etransitivity;
    [eapply (deleted_sudo_flag_inherited (users_init utable0) _ _ (lit "user") 1 (lit "eve") (lit "x") 1001 1001)|].
  - apply users_init_inv.
  - vm_compute. reflexivity.
  - vm_compute. reflexivity.
  - intros j x Hj Hx. assert (j = 0%nat) as -> by lia. vm_compute in Hx. by simplify_eq.
  - vm_compute. reflexivity.
  - intros j x Hx Ha. do 10 (destruct j as [|j]; [vm_compute in Hx; simplify_eq; vm_compute; congruence|]).
    vm_compute in Hx. done.
  - vm_compute. reflexivity.
Defined.
