(* ===== verification/Namecache.v ===== *)
(** The directory-entry cache: namecache.c, namecache.h.

    The cache maps (device, directory inode, name) to an inode number in a
    table of [NAMECACHE_SIZE] entries replaced round-robin.  Each operation
    runs under [namecache.lock] and is one atomic function of the table.

    The abstract contract is a partial map: [nc_get] reads it off the table,
    and each operation is related to an update of that map; [coherent] is
    what the directory layer promises the cache and gets back from it. *)
From stdpp Require Import base numbers list strings relations.
From Stdlib Require Import ZArith Lia.
From S2P Require Import Prelude CString Params.

Local Open Scope list_scope.
Local Open Scope Z_scope.

Definition NAMECACHE_DIRSIZ : Z := 14.
Definition NAMECACHE_SIZE : nat := 32.

Record nc_entry := NcEntry {
  e_valid : Z; e_dev : Z; e_parent : Z; e_name : list Z; e_inum : Z; e_hits : Z
}.
Record namecache := Namecache {
  entries : list nc_entry; next_slot : Z;
  total_lookups : Z; cache_hits : Z; cache_misses : Z
}.

Definition nc_entry0 : nc_entry := NcEntry 0 0 0 (replicate 14 0) 0 0.
(** The zero-initialised table of the kernel image. *)
Definition namecache0 : namecache := Namecache (replicate NAMECACHE_SIZE nc_entry0) 0 0 0 0.

Definition set_valid (v : Z) (e : nc_entry) : nc_entry :=
  NcEntry v (e_dev e) (e_parent e) (e_name e) (e_inum e) (e_hits e).
Definition set_inum (v : Z) (e : nc_entry) : nc_entry :=
  NcEntry (e_valid e) (e_dev e) (e_parent e) (e_name e) v (e_hits e).
Definition set_hits (v : Z) (e : nc_entry) : nc_entry :=
  NcEntry (e_valid e) (e_dev e) (e_parent e) (e_name e) (e_inum e) v.
Definition with_entries (nc : namecache) (es : list nc_entry) : namecache :=
  Namecache es (next_slot nc) (total_lookups nc) (cache_hits nc) (cache_misses nc).

Definition namecache_init (nc : namecache) : namecache :=
  Namecache ((fun e => set_hits 0 (set_valid 0 e)) <$> entries nc) 0 0 0 0.

(** The test of both scans. *)
Definition nc_match (dev parent : Z) (name : list Z) (e : nc_entry) : bool :=
  truth (e_valid e) && (e_dev e =? dev) && (e_parent e =? parent)
  && (strncmp (Z.to_nat DIRSIZ) (e_name e) name =? 0).

Definition namecache_lookup (dev parent : Z) (name : list Z) (nc : namecache) : Z * namecache :=
  let total := u32 (total_lookups nc + 1) in
  match find_idx (nc_match dev parent name) (entries nc) with
  | Some i =>
      let e := nthd nc_entry0 (entries nc) i in
      (e_inum e,
       Namecache (<[i := set_hits (u32 (e_hits e + 1)) e]> (entries nc)) (next_slot nc)
                 total (u32 (cache_hits nc + 1)) (cache_misses nc))
  | None =>
      (0, Namecache (entries nc) (next_slot nc) total (cache_hits nc) (u32 (cache_misses nc + 1)))
  end.

Definition namecache_add (dev parent : Z) (name : list Z) (inum : Z) (nc : namecache) : namecache :=
  match find_idx (nc_match dev parent name) (entries nc) with
  | Some i => with_entries nc (alter (set_inum inum) i (entries nc))
  | None =>
      let i := Z.to_nat (next_slot nc) in
      let e := nthd nc_entry0 (entries nc) i in
      Namecache
        (<[i := NcEntry 1 dev parent (strncpy (Z.to_nat DIRSIZ) (e_name e) name) inum 0]> (entries nc))
        ((next_slot nc + 1) mod Z.of_nat NAMECACHE_SIZE)
        (total_lookups nc) (cache_hits nc) (cache_misses nc)
  end.

Definition nc_drop (dev inum : Z) (e : nc_entry) : nc_entry :=
  if truth (e_valid e) && (e_dev e =? dev)
  then if (e_inum e =? inum) || (e_parent e =? inum) then set_valid 0 e else e
  else e.
Definition namecache_invalidate (dev inum : Z) (nc : namecache) : namecache :=
  with_entries nc (nc_drop dev inum <$> entries nc).

Definition namecache_clear (nc : namecache) : namecache :=
  Namecache (set_valid 0 <$> entries nc) 0
            (total_lookups nc) (cache_hits nc) (cache_misses nc).

(** The figures [namecache_stats] prints: the three counters, the hit rate
    when there were lookups (in 32-bit arithmetic), and the valid entries. *)
Definition namecache_stats (nc : namecache)
  : Z * Z * Z * option Z * list (Z * Z * list Z * Z * Z) :=
  (total_lookups nc, cache_hits nc, cache_misses nc,
   if 0 <? total_lookups nc then Some (u32 (cache_hits nc * 100) / total_lookups nc) else None,
   omap (fun p : nat * nc_entry =>
           let (i, e) := p in
           if truth (e_valid e)
           then Some (Z.of_nat i, e_parent e, e_name e, e_inum e, e_hits e) else None)
        (zip (seq 0 (length (entries nc))) (entries nc))).

(** ** The invariant *)

Definition nc_key (e : nc_entry) : Z * Z * list Z := (e_dev e, e_parent e, cstr 14 (e_name e)).

Definition nc_inv (nc : namecache) : Prop :=
  length (entries nc) = NAMECACHE_SIZE /\
  0 <= next_slot nc < Z.of_nat NAMECACHE_SIZE /\
  Forall (fun e => length (e_name e) = 14%nat) (entries nc) /\
  (forall i j e e', entries nc !! i = Some e -> entries nc !! j = Some e' ->
     truth (e_valid e) = true -> truth (e_valid e') = true -> nc_key e = nc_key e' -> i = j) /\
  u32 (cache_hits nc + cache_misses nc) = u32 (total_lookups nc).

(** The map the table stands for. *)
Definition nc_get (nc : namecache) (dev parent : Z) (s : list Z) : option Z :=
  (fun i => e_inum (nthd nc_entry0 (entries nc) i)) <$>
  find_idx (fun e => truth (e_valid e) && bool_decide (nc_key e = (dev, parent, s))) (entries nc).

Lemma nc_match_key dev parent name e :
  nc_match dev parent name e
  = truth (e_valid e) && bool_decide (nc_key e = (dev, parent, cstr 14 name)).
Proof.
  unfold nc_match, nc_key. destruct (truth (e_valid e)); [|done]. simpl.
  apply eq_true_iff_eq. rewrite bool_decide_eq_true, !andb_true_iff, !Z.eqb_eq.
  change (Z.to_nat DIRSIZ) with 14%nat. rewrite strncmp_zero_iff.
  split; [by intros [[-> ->] ->]|by intros [= -> -> ->]].
Qed.

Lemma nc_match_true dev parent name e :
  nc_match dev parent name e = true <->
  truth (e_valid e) = true /\ nc_key e = (dev, parent, cstr 14 name).
Proof. by rewrite nc_match_key, andb_true_iff, bool_decide_eq_true. Qed.

Lemma nc_get_match nc dev parent name :
  nc_get nc dev parent (cstr 14 name) =
  (fun i => e_inum (nthd nc_entry0 (entries nc) i)) <$>
  find_idx (nc_match dev parent name) (entries nc).
Proof.
  unfold nc_get. f_equal. apply find_idx_ext_fun. intros e. symmetry. apply nc_match_key.
Qed.

(** Under the invariant a key is found wherever its entry sits. *)
Lemma nc_get_Some nc dev parent s v :
  nc_inv nc ->
  nc_get nc dev parent s = Some v <->
  exists i e, entries nc !! i = Some e /\ truth (e_valid e) = true /\
              nc_key e = (dev, parent, s) /\ e_inum e = v.
Proof.
  intros (_ & _ & _ & Huniq & _). unfold nc_get. rewrite fmap_Some. split.
  - intros (i & Hf & ->). apply find_idx_Some in Hf as [(e & He & Hm) _].
    exists i, e. rewrite (nthd_lookup _ _ _ _ He). b2p.
    by rewrite bool_decide_eq_true in *.
  - intros (i & e & He & Hv & Hk & <-). exists i. rewrite (nthd_lookup _ _ _ _ He).
    split; [|done]. apply (find_idx_unique _ _ i e He).
    + by rewrite Hv, bool_decide_eq_true_2.
    + intros j e' Hj He'. destruct (truth (e_valid e')) eqn:Hv'; [|done]. simpl.
      apply bool_decide_eq_false. intros Hk'. destruct Hj. eapply (Huniq j i e' e); congruence.
Qed.

Lemma nc_get_None nc dev parent s :
  nc_get nc dev parent s = None <->
  forall i e, entries nc !! i = Some e -> truth (e_valid e) = true -> nc_key e <> (dev, parent, s).
Proof.
  unfold nc_get. rewrite fmap_None, find_idx_None. split; intros H i e He.
  - intros Hv Hk. specialize (H i e He). rewrite Hv, bool_decide_eq_true_2 in H by done. done.
  - destruct (truth (e_valid e)) eqn:Hv; [|done]. simpl. apply bool_decide_eq_false. by eapply H.
Qed.

(** Entries may change value or become invalid, but keep their key. *)
Definition tame (f : nc_entry -> nc_entry) : Prop :=
  forall e, nc_key (f e) = nc_key e /\ length (e_name (f e)) = length (e_name e) /\
            (truth (e_valid (f e)) = true -> truth (e_valid e) = true).

Lemma tame_set_inum v : tame (set_inum v).
Proof. by intros e. Qed.
Lemma tame_set_hits v : tame (set_hits v).
Proof. by intros e. Qed.
Lemma tame_invalid : tame (set_valid 0).
Proof. by intros e. Qed.
Lemma tame_nc_drop d i : tame (nc_drop d i).
Proof.
  intros e. unfold nc_drop. destruct (_ && _); [|done]. destruct (_ || _); [|done]. apply tame_invalid.
Qed.
#[local] Hint Resolve tame_set_inum tame_set_hits tame_invalid tame_nc_drop : xv6.

(** Any table whose entries are tame images of those of a good table keeps
    the invariant. *)
Lemma nc_inv_tame nc es slot t h m :
  nc_inv nc -> 0 <= slot < Z.of_nat NAMECACHE_SIZE -> u32 (h + m) = u32 t ->
  length es = length (entries nc) ->
  (forall i e', es !! i = Some e' -> exists e f, entries nc !! i = Some e /\ tame f /\ e' = f e) ->
  nc_inv (Namecache es slot t h m).
Proof.
  intros (Hl & _ & Hn & Hu & _) Hslot Hc Hlen Himg. repeat split; simpl; try done; try lia.
  - apply Forall_lookup. intros i e' He'. destruct (Himg i e' He') as (e & f & He & Hf & ->).
    destruct (Hf e) as (_ & -> & _). by apply (Forall_lookup_1 _ _ _ _ Hn He).
  - intros i j a b Ha Hb Hva Hvb Hk.
    destruct (Himg i a Ha) as (e & f & He & Hf & ->), (Himg j b Hb) as (e' & f' & He' & Hf' & ->).
    destruct (Hf e) as (Hke & _ & Hv), (Hf' e') as (Hke' & _ & Hv').
    eapply (Hu i j e e'); eauto. congruence.
Qed.

Lemma alter_img f (i : nat) (es : list nc_entry) (j : nat) e' :
  tame f -> alter f i es !! j = Some e' -> exists e g, es !! j = Some e /\ tame g /\ e' = g e.
Proof.
  intros Hf. destruct (decide (i = j)) as [->|Hij].
  - rewrite list_lookup_alter_eq. intros (e & He & ->)%fmap_Some. by exists e, f.
  - rewrite list_lookup_alter_ne by done. intros He. by exists e', (fun e => e).
Qed.

Lemma fmap_img f (es : list nc_entry) (j : nat) e' :
  tame f -> (f <$> es) !! j = Some e' -> exists e g, es !! j = Some e /\ tame g /\ e' = g e.
Proof. intros Hf. rewrite list_lookup_fmap. intros (e & He & ->)%fmap_Some. by exists e, f. Qed.

(** ** The operations against the map *)

(** What one operation may do to the map: [nc_get] after from before. *)
Lemma namecache_lookup_spec dev parent name nc r nc' :
  nc_inv nc -> namecache_lookup dev parent name nc = (r, nc') ->
  r = default 0 (nc_get nc dev parent (cstr 14 name)) /\ nc_inv nc' /\
  (forall d p s, nc_get nc' d p s = nc_get nc d p s).
Proof.
  intros Hinv. pose proof Hinv as (Hl & Hs & Hn & Hu & Hc). unfold namecache_lookup.
  rewrite nc_get_match. destruct (find_idx _ _) as [i|] eqn:Hf; intros [= <- <-]; simpl.
  - split; [done|]. pose proof (find_idx_lt _ _ _ Hf) as Hlt.
    set (e := nthd nc_entry0 (entries nc) i).
    assert (He : entries nc !! i = Some e) by by apply lookup_nthd.
    rewrite list_insert_alter. set (f := fun _ : nc_entry => _).
    assert (Halt : alter f i (entries nc) = alter (set_hits (u32 (e_hits e + 1))) i (entries nc)).
    { apply list_eq. intros j. destruct (decide (i = j)) as [->|].
      - by rewrite !list_lookup_alter_eq, He.
      - by rewrite !list_lookup_alter_ne. }
    rewrite Halt. split.
    + apply (nc_inv_tame nc); try done; [|by rewrite length_alter|].
      * rewrite u32_add_l. replace (cache_hits nc + 1 + cache_misses nc)
          with (cache_hits nc + cache_misses nc + 1) by lia. by apply u32_succ.
      * intros j e' He'. eapply alter_img; [|exact He']. auto with xv6.
    + intros d p s. clear Hf. unfold nc_get. simpl.
      rewrite (find_idx_ext _ (alter _ _ _) (entries nc)).
      * destruct (find_idx _ (entries nc)) as [k|]; [|done]. cbn [fmap option_fmap option_map].
        unfold nthd. rewrite list_lookup_alter. case_decide; [|done]. subst.
        by destruct (entries nc !! k).
      * intros j. rewrite list_lookup_alter. case_decide; [|done]. subst. by destruct (entries nc !! j).
  - repeat split; try done; try (by destruct Hs). simpl.
    rewrite u32_add_r, Z.add_assoc. by apply u32_succ.
Qed.

Lemma namecache_add_spec dev parent name inum nc :
  nc_inv nc ->
  let nc' := namecache_add dev parent name inum nc in
  nc_inv nc' /\
  nc_get nc' dev parent (cstr 14 name) = Some inum /\
  (forall d p s, (d, p, s) <> (dev, parent, cstr 14 name) ->
     nc_get nc' d p s = nc_get nc d p s \/ nc_get nc' d p s = None) /\
  (is_Some (nc_get nc dev parent (cstr 14 name)) ->
   forall d p s, (d, p, s) <> (dev, parent, cstr 14 name) -> nc_get nc' d p s = nc_get nc d p s).
Proof.
  intros Hinv. pose proof Hinv as (Hl & Hs & Hn & Hu & Hc). unfold namecache_add.
  destruct (find_idx _ _) as [i|] eqn:Hf; cbv zeta.
  - apply find_idx_Some in Hf as [(e & He & Hm) _]. apply nc_match_true in Hm as [Hv Hk].
    assert (Hinv' : nc_inv (with_entries nc (alter (set_inum inum) i (entries nc)))).
    { apply (nc_inv_tame nc); try done; [by rewrite length_alter|].
      intros j e' He'. eapply alter_img; [|exact He']. auto with xv6. }
    assert (Hother : forall d p s, (d, p, s) <> (dev, parent, cstr 14 name) ->
      nc_get (with_entries nc (alter (set_inum inum) i (entries nc))) d p s = nc_get nc d p s).
    { intros d p s Hne. apply option_eq. intros v. rewrite !nc_get_Some by done. simpl.
      split; intros (j & x & Hx & Hvx & Hkx & Hix); exists j.
      - destruct (decide (i = j)) as [->|Hij].
        + rewrite list_lookup_alter_eq, He in Hx. injection Hx as <-. destruct Hne.
          rewrite <- Hkx. exact Hk.
        + rewrite list_lookup_alter_ne in Hx by done. by exists x.
      - exists x. rewrite list_lookup_alter_ne; [done|]. intros ->. rewrite He in Hx. simplify_eq.
        destruct Hne. congruence. }
    split; [exact Hinv'|]. split; [|split].
    + apply nc_get_Some; [done|]. exists i, (set_inum inum e). simpl.
      by rewrite list_lookup_alter_eq, He.
    + intros d p s Hne. left. by apply Hother.
    + intros _. exact Hother.
  - set (i := Z.to_nat (next_slot nc)).
    set (e := NcEntry 1 dev parent _ inum 0).
    assert (Hi : (i < length (entries nc))%nat) by (rewrite Hl; lia).
    assert (Hnone : forall j x, entries nc !! j = Some x -> truth (e_valid x) = true ->
                                nc_key x <> (dev, parent, cstr 14 name)).
    { intros j x Hx Hvx Hkx. rewrite find_idx_None in Hf. specialize (Hf j x Hx).
      by rewrite (proj2 (nc_match_true _ _ _ _)) in Hf. }
    assert (Hke : nc_key e = (dev, parent, cstr 14 name)).
    { unfold nc_key. simpl. f_equal. apply cstr_strncpy. }
    assert (Hinv' : nc_inv (Namecache (<[i:=e]> (entries nc))
      ((next_slot nc + 1) mod Z.of_nat NAMECACHE_SIZE)
      (total_lookups nc) (cache_hits nc) (cache_misses nc))).
    { split; [by simpl; len|]. split; [simpl; apply Z.mod_pos_bound; unfold NAMECACHE_SIZE; lia|].
      split; [|split; [|done]]; simpl.
      - apply Forall_insert; [done|]. simpl. rewrite length_strncpy.
        + by apply (Forall_lookup_1 _ _ _ _ Hn (lookup_nthd nc_entry0 _ _ Hi)).
        + by rewrite (Forall_lookup_1 _ _ _ _ Hn (lookup_nthd nc_entry0 _ _ Hi)).
      - intros a b x y. rewrite !list_lookup_insert_Some.
        intros [(<- & <- & _)|(Hia & Hx)] [(<- & <- & _)|(Hib & Hy)] Hvx Hvy Hk; try done.
        + exfalso. eapply Hnone; [exact Hy|done|congruence].
        + exfalso. eapply Hnone; [exact Hx|done|congruence].
        + by eapply Hu. }
    split; [exact Hinv'|]. split; [|split].
    + apply nc_get_Some; [done|]. exists i, e. simpl. by rewrite list_lookup_insert_eq.
    + intros d p s Hne. destruct (nc_get (Namecache _ _ _ _ _) d p s) as [v|] eqn:Hg; [left|by right].
      apply nc_get_Some in Hg as (j & x & Hx & Hvx & Hkx & Hix); [|done].
      symmetry. apply nc_get_Some; [done|]. exists j, x. simpl in Hx.
      apply list_lookup_insert_Some in Hx as [(<- & <- & _)|(_ & Hx)]; [congruence|done].
    + intros [v Hv]. by rewrite (proj2 (nc_get_None nc _ _ _) Hnone) in Hv.
Qed.

(** What the cache holds for a name after [namecache_add].  The new
    binding is found; any other name keeps its binding or has been evicted:
    the cache never holds a wrong binding. *)
Theorem namecache_add_then_lookup dev parent name inum d p n nc :
  nc_inv nc ->
  let r := (namecache_lookup d p n (namecache_add dev parent name inum nc)).1 in
  ((d, p, cstr 14 n) = (dev, parent, cstr 14 name) -> r = inum) /\
  ((d, p, cstr 14 n) <> (dev, parent, cstr 14 name) ->
   r = (namecache_lookup d p n nc).1 \/ r = 0).
Proof.
  intros Hinv r. subst r.
  destruct (namecache_add_spec dev parent name inum nc Hinv) as (Hinv' & Hnew & Hold & _).
  destruct (namecache_lookup d p n (namecache_add _ _ _ _ _)) as [r1 nc1] eqn:H1.
  destruct (namecache_lookup d p n nc) as [r2 nc2] eqn:H2.
  apply namecache_lookup_spec in H1 as (-> & _); [|done].
  apply namecache_lookup_spec in H2 as (-> & _); [|done]. simpl. split.
  - intros [= -> -> ->]. by rewrite Hnew.
  - intros Hne. destruct (Hold _ _ _ Hne) as [->| ->]; auto.
Qed.

Lemma namecache_init_inv nc :
  length (entries nc) = NAMECACHE_SIZE -> Forall (fun e => length (e_name e) = 14%nat) (entries nc) ->
  nc_inv (namecache_init nc).
Proof.
  intros Hl Hn. repeat split; simpl; try done.
  - by rewrite length_fmap.
  - apply Forall_fmap. eapply Forall_impl; [exact Hn|done].
  - intros i j e e' He _ Hv. apply list_lookup_fmap_Some in He as (x & -> & _). done.
Qed.

Lemma namecache0_inv : nc_inv (namecache_init namecache0).
Proof. by apply namecache_init_inv; [|apply Forall_replicate]. Qed.

Lemma namecache_add_then_lookup_witness :
  (namecache_lookup 1 1 (lit "README")
     (namecache_add 1 1 (lit "README") 2 (namecache_init namecache0))).1 = 2.
Proof.
  exact (proj1 (namecache_add_then_lookup 1 1 (lit "README") 2 1 1 (lit "README") _ namecache0_inv)
           eq_refl).
Defined.

(** [namecache_invalidate] drops exactly the bindings on the device whose
    value or whose directory is the given inode. *)
Lemma namecache_invalidate_spec dev inum nc :
  nc_inv nc ->
  nc_inv (namecache_invalidate dev inum nc) /\
  forall d p s, nc_get (namecache_invalidate dev inum nc) d p s =
    match nc_get nc d p s with
    | Some v => if (d =? dev) && ((v =? inum) || (p =? inum)) then None else Some v
    | None => None
    end.
Proof.
  intros Hinv. pose proof Hinv as (Hl & Hs & Hn & Hu & Hc).
  assert (Hinv' : nc_inv (namecache_invalidate dev inum nc)).
  { apply (nc_inv_tame nc); try done; [by rewrite length_fmap|].
    intros j e' He'. eapply fmap_img; [|exact He']. auto with xv6. }
  split; [exact Hinv'|]. intros d p s.
  assert (Hiff : forall v, nc_get (namecache_invalidate dev inum nc) d p s = Some v <->
    nc_get nc d p s = Some v /\ (d =? dev) && ((v =? inum) || (p =? inum)) = false).
  { intros v. rewrite !nc_get_Some by done. simpl. split.
    - intros (i & e' & He' & Hv & Hk & Hi). rewrite list_lookup_fmap in He'.
      apply fmap_Some in He' as (e & He & ->). destruct (tame_nc_drop dev inum e) as (Hke & _ & Hve).
      assert (Hd : nc_drop dev inum e = e).
      { unfold nc_drop in *. destruct (truth _ && _); [|done]. by destruct (_ || _). }
      rewrite Hd in *. split; [by exists i, e|].
      unfold nc_drop in Hd. unfold nc_key in Hk. simplify_eq. rewrite Hv in Hd. simpl in Hd.
      destruct (e_dev e =? dev); [|done]. simpl.
      destruct ((e_inum e =? inum) || (e_parent e =? inum)); [|done].
      exfalso. rewrite <- Hd in Hv. done.
    - intros [(i & e & He & Hv & Hk & Hi) Hd]. exists i, e. rewrite list_lookup_fmap, He. simpl.
      repeat split; try done. f_equal. unfold nc_drop. rewrite Hv. unfold nc_key in Hk. simplify_eq.
      simpl. destruct (e_dev e =? dev); [|done]. simpl in Hd. by rewrite Hd. }
  destruct (nc_get (namecache_invalidate dev inum nc) d p s) as [v|] eqn:Hg.
  - destruct (proj1 (Hiff v) eq_refl) as [-> ->]. done.
  - destruct (nc_get nc d p s) as [v|] eqn:Hg'; [|done].
    destruct ((d =? dev) && _) eqn:E; [done|]. by apply Hiff.
Qed.

Lemma namecache_clear_spec nc :
  nc_inv nc -> nc_inv (namecache_clear nc) /\ forall d p s, nc_get (namecache_clear nc) d p s = None.
Proof.
  intros Hinv. pose proof Hinv as (Hl & Hs & Hn & Hu & Hc). split.
  - apply (nc_inv_tame nc); try done; [by rewrite length_fmap|].
    intros j e' He'. eapply fmap_img; [|exact He']. auto with xv6.
  - intros d p s. apply nc_get_None. simpl. intros i e He Hv.
    apply list_lookup_fmap_Some in He as (x & -> & _). done.
Qed.

(** ** Coherence with the directories on disk *)

(** [D] gives the inode number a directory holds for a name.  A binding to
    inode 0 counts as no binding, as [namecache_lookup] returns 0 for it. *)
Definition coherent (D : Z -> Z -> list Z -> option Z) (nc : namecache) : Prop :=
  forall d p s v, nc_get nc d p s = Some v -> v <> 0 -> D d p s = Some v.

(** A hit in a coherent cache is the answer of the directory scan. *)
Lemma coherent_lookup D dev parent name nc r nc' :
  nc_inv nc -> coherent D nc -> namecache_lookup dev parent name nc = (r, nc') -> r <> 0 ->
  D dev parent (cstr 14 name) = Some r.
Proof.
  intros Hinv Hco H Hr. apply namecache_lookup_spec in H as (-> & _); [|done].
  destruct (nc_get nc dev parent (cstr 14 name)) eqn:Hg; [|done]. by apply Hco.
Qed.

Lemma coherent_add D dev parent name inum nc :
  nc_inv nc -> coherent D nc -> D dev parent (cstr 14 name) = Some inum ->
  coherent D (namecache_add dev parent name inum nc).
Proof.
  intros Hinv Hco HD d p s v Hg Hv.
  destruct (namecache_add_spec dev parent name inum nc Hinv) as (_ & Hnew & Hold & _).
  destruct (decide ((d, p, s) = (dev, parent, cstr 14 name))) as [[= -> -> ->]|Hne]; [congruence|].
  destruct (Hold _ _ _ Hne) as [H|H]; rewrite H in Hg; [by apply Hco|done].
Qed.

(** Removing a name.  The two invalidations of [sys_unlink] (the inode,
    then the directory) keep a coherent cache coherent with the directory
    tree in which any entries of that directory were removed or changed. *)
Theorem unlink_invalidation_coherent D D' dev ip dp nc :
  nc_inv nc -> coherent D nc ->
  (forall d p s, (d, p) <> (dev, dp) -> D' d p s = D d p s) ->
  coherent D' (namecache_invalidate dev dp (namecache_invalidate dev ip nc)).
Proof.
  intros Hinv Hco HD d p s v Hg Hv.
  destruct (namecache_invalidate_spec dev ip nc Hinv) as [Hinv1 H1].
  destruct (namecache_invalidate_spec dev dp _ Hinv1) as [_ H2].
  rewrite H2, H1 in Hg. destruct (nc_get nc d p s) as [w|] eqn:Hw; [|done].
  destruct ((d =? dev) && ((w =? ip) || _)); [done|].
  destruct ((d =? dev) && ((w =? dp) || (p =? dp))) eqn:E; [done|]. injection Hg as ->.
  rewrite HD; [by apply Hco|]. intros [= -> ->].
  by rewrite !Z.eqb_refl, orb_true_r in E.
Qed.

Lemma unlink_invalidation_coherent_witness :
  coherent (fun _ _ _ => None)
    (namecache_invalidate 1 1 (namecache_invalidate 1 2
       (namecache_add 1 1 (lit "f") 2 (namecache_init namecache0)))).
Proof.
  apply (unlink_invalidation_coherent
           (fun d p s => if bool_decide ((d, p, s) = (1, 1, cstr 14 (lit "f"))) then Some 2 else None)).
  - apply namecache_add_spec, namecache0_inv.
  - apply coherent_add; [apply namecache0_inv| |by rewrite bool_decide_eq_true_2].
    intros d p s v Hg. rewrite (proj2 (nc_get_None _ _ _ _)) in Hg; [done|].
    intros i e He Hv. apply list_lookup_fmap_Some in He as (x & -> & _). done.
  - intros d p s Hne. rewrite bool_decide_eq_false_2; [done|]. intros [= -> -> _]. done.
Defined.

(** ** Round-robin replacement *)

Definition add_all (l : list (Z * Z * list Z * Z)) (nc : namecache) : namecache :=
  foldl (fun nc x => match x with (d, p, n, i) => namecache_add d p n i nc end) nc l.

(** The key sits in slot [i], and the replacement pointer has advanced by
    [m] from the slot after it. *)
Definition resides (dev parent : Z) (s : list Z) (i m : Z) (nc : namecache) : Prop :=
  nc_inv nc /\ 0 <= i < 32 /\ next_slot nc = (i + 1 + m) mod 32 /\
  exists e, entries nc !! Z.to_nat i = Some e /\ truth (e_valid e) = true /\
            nc_key e = (dev, parent, s).

Lemma resides_add dev parent s i m d p n v nc :
  resides dev parent s i m nc -> 0 <= m < 31 ->
  exists m', m <= m' <= m + 1 /\ resides dev parent s i m' (namecache_add d p n v nc).
Proof.
  intros (Hinv & Hi & Hs & e & He & Hv & Hk) Hm.
  pose proof (proj1 (namecache_add_spec d p n v nc Hinv)) as Hinv'.
  unfold namecache_add in *. destruct (find_idx _ _) as [j|] eqn:Hf.
  - exists m. split; [lia|]. split; [done|]. split; [done|]. split; [done|]. simpl.
    destruct (decide (j = Z.to_nat i)) as [->|Hj].
    + exists (set_inum v e). by rewrite list_lookup_alter_eq, He.
    + exists e. by rewrite list_lookup_alter_ne.
  - exists (m + 1). split; [lia|]. split; [done|]. split; [done|]. simpl. split.
    + rewrite Hs. change (Z.of_nat NAMECACHE_SIZE) with 32. zlia.
    + exists e. rewrite list_lookup_insert_ne; [done|]. rewrite Hs. zlia.
Qed.

(** A name that was just cached is still cached after any 31 further
    insertions: replacement is first-in first-out. *)
Theorem namecache_retention dev parent name inum l nc :
  nc_inv nc -> nc_get nc dev parent (cstr 14 name) = None -> (length l <= 31)%nat ->
  is_Some (nc_get (add_all l (namecache_add dev parent name inum nc)) dev parent (cstr 14 name)).
Proof.
  intros Hinv Hnone Hl.
  assert (H0 : resides dev parent (cstr 14 name) (next_slot nc) 0
                 (namecache_add dev parent name inum nc)).
  { pose proof (namecache_add_spec dev parent name inum nc Hinv) as (Hinv' & _).
    pose proof Hinv as (Hlen & Hs & _). change (Z.of_nat NAMECACHE_SIZE) with 32 in Hs.
    rewrite nc_get_match in Hnone. apply fmap_None in Hnone.
    unfold namecache_add in *. rewrite Hnone in *. split; [done|]. split; [done|]. simpl.
    split; [by rewrite Z.add_0_r|]. eexists. rewrite list_lookup_insert_eq; [|rewrite Hlen; unfold NAMECACHE_SIZE; lia].
    split; [done|]. split; [done|]. unfold nc_key. simpl. f_equal. apply cstr_strncpy. }
  assert (Hgen : forall l m nc1, (Z.of_nat (length l) + m <= 31) -> 0 <= m ->
    resides dev parent (cstr 14 name) (next_slot nc) m nc1 ->
    exists m', resides dev parent (cstr 14 name) (next_slot nc) m' (add_all l nc1)).
  { clear. intros l. induction l as [|[[[d p] n] v] l IH]; intros m nc1 Hl Hm Hr; [by exists m|].
    simpl in Hl. destruct (resides_add _ _ _ _ _ d p n v _ Hr) as (m' & Hm' & Hr'); [lia|].
    apply (IH m' (namecache_add d p n v nc1)); [lia|lia|done]. }
  destruct (Hgen l 0 _ ltac:(lia) ltac:(lia) H0) as (m' & Hinv' & _ & _ & e & He & Hv & Hk).
  exists (e_inum e). apply nc_get_Some; [done|]. by exists (Z.to_nat (next_slot nc)), e.
Qed.

Lemma namecache_retention_witness :
  is_Some (nc_get (add_all [(1, 1, lit "b", 3); (1, 1, lit "c", 4)]
                     (namecache_add 1 1 (lit "a") 2 (namecache_init namecache0)))
                  1 1 (cstr 14 (lit "a"))).
Proof.
  apply (namecache_retention 1 1 (lit "a") 2); [apply namecache0_inv| |simpl; lia].
  apply nc_get_None. intros i e He Hv. apply list_lookup_fmap_Some in He as (x & -> & _). done.
Defined.
