(* ===== verification/Bio.v ===== *)
(** Sleep locks, the memory disk driver and the buffer cache: sleeplock.c,
    memide.c, bio.c.

    A [struct buf *] is an index into [bufs]; the doubly linked list through
    [prev]/[next] is the list [lru] of indices from [head.next] (most
    recently used) to [head.prev].  The model runs one kernel thread, the
    process [curpid]; taking a sleep lock that is held is [Blocked].
    [writes] is ghost state: the disk writes issued so far, oldest first.

    [bio_rel s D H] is the abstract view of a cache state: every cached block
    is coherent with the disk, the blocks of [D] are dirty (pinned), those of
    [H] are locked by this process.  Each operation has a total specification
    against it: under the stated room condition it returns. *)
From stdpp Require Import base numbers list strings.
From Stdlib Require Import ZArith Lia.
From S2P Require Import Prelude Params.

Local Open Scope list_scope.
Local Open Scope Z_scope.

(** ** Sleep locks *)

Record sleeplock := Sleeplock { sl_locked : Z; sl_pid : Z }.

Definition initsleeplock : sleeplock := Sleeplock 0 0.
(** [None]: the caller sleeps on the lock. *)
Definition acquiresleep (pid : Z) (lk : sleeplock) : option sleeplock :=
  if truth (sl_locked lk) then None else Some (Sleeplock 1 pid).
Definition releasesleep (lk : sleeplock) : sleeplock := Sleeplock 0 0.
Definition holdingsleep (pid : Z) (lk : sleeplock) : bool :=
  truth (sl_locked lk) && (sl_pid lk =? pid).

(** ** State *)

Record buf := Buf {
  b_flags : Z; b_dev : Z; b_blockno : Z; b_lock : sleeplock; b_refcnt : Z; b_data : block
}.
Record bio := Bio {
  bufs : list buf; lru : list nat; disk : list block; writes : list (Z * block); curpid : Z
}.

Definition nbuf : nat := Z.to_nat NBUF.
Definition buf0 : buf := Buf 0 0 0 initsleeplock 0 zero_block.

Definition set_flags (v : Z) (b : buf) : buf :=
  Buf v (b_dev b) (b_blockno b) (b_lock b) (b_refcnt b) (b_data b).
Definition set_lock (v : sleeplock) (b : buf) : buf :=
  Buf (b_flags b) (b_dev b) (b_blockno b) v (b_refcnt b) (b_data b).
Definition set_refcnt (v : Z) (b : buf) : buf :=
  Buf (b_flags b) (b_dev b) (b_blockno b) (b_lock b) v (b_data b).
Definition set_data (v : block) (b : buf) : buf :=
  Buf (b_flags b) (b_dev b) (b_blockno b) (b_lock b) (b_refcnt b) v.

Definition getbuf (i : nat) (s : bio) : buf := nthd buf0 (bufs s) i.
Definition upd (i : nat) (f : buf -> buf) (s : bio) : bio :=
  Bio (alter f i (bufs s)) (lru s) (disk s) (writes s) (curpid s).
Definition set_lru (l : list nat) (s : bio) : bio :=
  Bio (bufs s) l (disk s) (writes s) (curpid s).
Definition put_block (b : Z) (d : block) (s : bio) : bio :=
  Bio (bufs s) (lru s) (<[Z.to_nat b := d]> (disk s)) (writes s ++ [(b, d)]) (curpid s).

(** ** Operations *)

Section Code.
Local Open Scope kernel_scope.

(** [binit] pushes each buffer in turn on the front of the list. *)
Definition binit (s : bio) : bio :=
  Bio (set_lock initsleeplock <$> bufs s)
      (foldl (fun l i => i :: l) [] (seq 0 (length (bufs s))))
      (disk s) (writes s) (curpid s).

(** memide.c: synchronise a buffer with the memory disk. *)
Definition iderw (i : nat) : M bio unit :=
  b ← gets (getbuf i);
  me ← gets curpid;
  n ← gets (fun s => Z.of_nat (length (disk s)));
  if negb (holdingsleep me (b_lock b)) then panic "iderw: buf not locked"
  else if Z.land (b_flags b) (Z.lor B_VALID B_DIRTY) =? B_VALID then panic "iderw: nothing to do"
  else if negb (b_dev b =? 1) then panic "iderw: request not for disk 1"
  else if n <=? b_blockno b then panic "iderw: block out of range"
  else
    (if truth (Z.land (b_flags b) B_DIRTY)
     then modify (upd i (fun x => set_flags (Z.land (b_flags x) (Z.lnot B_DIRTY)) x));;
          modify (put_block (b_blockno b) (b_data b))
     else d ← gets (fun s => nthd zero_block (disk s) (Z.to_nat (b_blockno b)));
          modify (upd i (set_data d)));;
    modify (upd i (fun x => set_flags (Z.lor (b_flags x) B_VALID) x)).

Definition lock_buf (i : nat) : M bio unit :=
  b ← gets (getbuf i);
  me ← gets curpid;
  match acquiresleep me (b_lock b) with
  | Some lk => modify (upd i (set_lock lk))
  | None => blocked "buffer"
  end.

Definition bget (dev blockno : Z) : M bio nat :=
  hit ← gets (fun s => List.find (fun i => let b := getbuf i s in
                         (b_dev b =? dev) && (b_blockno b =? blockno)) (lru s));
  match hit with
  | Some i =>
      modify (upd i (fun b => set_refcnt (u32 (b_refcnt b + 1)) b));;
      lock_buf i;; ret i
  | None =>
      free ← gets (fun s => List.find (fun i => let b := getbuf i s in
                              (b_refcnt b =? 0) && (Z.land (b_flags b) B_DIRTY =? 0)) (rev (lru s)));
      match free with
      | Some i =>
          modify (upd i (fun b => Buf 0 dev blockno (b_lock b) 1 (b_data b)));;
          lock_buf i;; ret i
      | None => panic "bget: no buffers"
      end
  end.

Definition bread (dev blockno : Z) : M bio nat :=
  i ← bget dev blockno;
  b ← gets (getbuf i);
  (if Z.land (b_flags b) B_VALID =? 0 then iderw i else ret tt);;
  ret i.

Definition bwrite (i : nat) : M bio unit :=
  b ← gets (getbuf i);
  me ← gets curpid;
  if negb (holdingsleep me (b_lock b)) then panic "bwrite"
  else modify (upd i (fun x => set_flags (Z.lor (b_flags x) B_DIRTY) x));; iderw i.

(** Unlink the buffer and push it on the front of the list. *)
Definition move_front (i : nat) (l : list nat) : list nat := i :: filter (fun j => j <> i) l.

Definition brelse (i : nat) : M bio unit :=
  b ← gets (getbuf i);
  me ← gets curpid;
  if negb (holdingsleep me (b_lock b)) then panic "brelse"
  else
    modify (upd i (fun x => set_lock (releasesleep (b_lock x)) x));;
    modify (upd i (fun x => set_refcnt (u32 (b_refcnt x - 1)) x));;
    r ← gets (fun s => b_refcnt (getbuf i s));
    if r =? 0 then modify (fun s => set_lru (move_front i (lru s)) s) else ret tt.
End Code.

(** Direct access to [b->data], as the clients of the cache do. *)
Definition bdata (i : nat) (s : bio) : block := b_data (getbuf i s).
Definition bset (i : nat) (d : block) : M bio unit := modify (upd i (set_data d)).

(** ** The invariant and the abstract view *)

Definition unlocked (x : buf) : Prop := b_lock x = Sleeplock 0 0 /\ b_refcnt x = 0.
Definition locked_by (pid : Z) (x : buf) : Prop := b_lock x = Sleeplock 1 pid /\ b_refcnt x = 1.

(** Every buffer is either still unused since boot, or holds a block of the
    disk, valid and possibly dirty; it is free or locked by this process. *)
Definition buf_ok (s : bio) (x : buf) : Prop :=
  length (b_data x) = bsize /\
  ((b_dev x = 0 /\ b_flags x = 0 /\ unlocked x) \/
   (b_dev x = 1 /\ (b_flags x = 2 \/ b_flags x = 6) /\
    0 <= b_blockno x < Z.of_nat (length (disk s)) /\
    (unlocked x \/ locked_by (curpid s) x))).

Definition on_disk (s : bio) (x : buf) : Prop :=
  disk s !! Z.to_nat (b_blockno x) = Some (b_data x).

Record bio_inv (s : bio) : Prop := BioInv {
  inv_len : length (bufs s) = nbuf;
  inv_lru : lru s ≡ₚ seq 0 nbuf;
  inv_disk : Forall (fun d => length d = bsize) (disk s);
  inv_buf : forall i x, bufs s !! i = Some x -> buf_ok s x;
  inv_uniq : forall i j x y, bufs s !! i = Some x -> bufs s !! j = Some y ->
    b_dev x = 1 -> b_dev y = 1 -> b_blockno x = b_blockno y -> i = j;
  inv_coh : forall i x, bufs s !! i = Some x -> b_dev x = 1 -> unlocked x ->
    b_flags x = 2 -> on_disk s x
}.

(** The contents of block [b] as the kernel sees it: the cached copy if
    there is one, else the disk. *)
Definition is_block (b : Z) (x : buf) : bool := (b_dev x =? 1) && (b_blockno x =? b).
Definition view (s : bio) (b : Z) : block :=
  match find_idx (is_block b) (bufs s) with
  | Some i => bdata i s
  | None => nthd zero_block (disk s) (Z.to_nat b)
  end.

Definition dirty (s : bio) (b : Z) : Prop :=
  exists i x, bufs s !! i = Some x /\ b_dev x = 1 /\ b_blockno x = b /\ b_flags x = 6.

(** Buffer [i] is locked by this process and holds block [b] with data [d]. *)
Definition handle (s : bio) (i : nat) (b : Z) (d : block) : Prop :=
  exists x, bufs s !! i = Some x /\ b_dev x = 1 /\ b_blockno x = b /\
            locked_by (curpid s) x /\ b_data x = d.
Definition held (s : bio) (b : Z) : Prop := exists i d, handle s i b d.
(** The data of buffer [i] is on disk or pinned. *)
Definition clean (s : bio) (i : nat) : Prop :=
  forall x, bufs s !! i = Some x -> b_flags x = 2 -> on_disk s x.

Record bio_rel (s : bio) (D H : list Z) : Prop := BioRel {
  rel_inv : bio_inv s;
  rel_dirty : forall b, dirty s b <-> b ∈ D;
  rel_held : forall b, held s b <-> b ∈ H
}.

#[export] Instance bio_rel_proper : Proper (eq ==> (≡ₚ) ==> (≡ₚ) ==> iff) bio_rel.
Proof.
  intros s s' <- D D' HD H H' HH. split; intros [Hi Hd Hh]; split; try done; intros b.
  - by rewrite Hd, HD.
  - by rewrite Hh, HH.
  - by rewrite Hd, HD.
  - by rewrite Hh, HH.
Qed.

Lemma bio_rel_ext s D D' H H' :
  bio_rel s D H -> (forall b, b ∈ D <-> b ∈ D') -> (forall b, b ∈ H <-> b ∈ H') -> bio_rel s D' H'.
Proof. intros [Hi Hd Hh] HD HH. split; [done| |]; intros b; [by rewrite Hd|by rewrite Hh]. Qed.

(** Replacing one buffer. *)
Definition setb (i : nat) (y : buf) (s : bio) : bio :=
  Bio (<[i := y]> (bufs s)) (lru s) (disk s) (writes s) (curpid s).

Lemma upd_setb s i x f : bufs s !! i = Some x -> upd i f s = setb i (f x) s.
Proof.
  intros Hx. unfold upd, setb. f_equal. apply list_eq. intros j.
  destruct (decide (i = j)) as [->|].
  - rewrite list_lookup_alter_eq, Hx. simpl. rewrite list_lookup_insert_eq; [done|].
    by eapply lookup_lt_Some.
  - by rewrite list_lookup_alter_ne, list_lookup_insert_ne.
Qed.

Lemma setb_lookup s i y : (i < length (bufs s))%nat -> bufs (setb i y s) !! i = Some y.
Proof. intros H. simpl. by apply list_lookup_insert_eq. Qed.

Lemma setb_setb s i y z : setb i y (setb i z s) = setb i y s.
Proof. unfold setb. simpl. by rewrite list_insert_insert_eq. Qed.

Lemma getbuf_lookup s i x : bufs s !! i = Some x -> getbuf i s = x.
Proof. apply nthd_lookup. Qed.

Lemma getbuf_setb s i y : (i < length (bufs s))%nat -> getbuf i (setb i y s) = y.
Proof. intros H. by apply getbuf_lookup, setb_lookup. Qed.

Lemma bio_inv_lt s i : bio_inv s -> i ∈ lru s -> (i < length (bufs s))%nat.
Proof.
  intros Hinv Hi. rewrite (inv_lru _ Hinv) in Hi. apply elem_of_seq in Hi.
  rewrite (inv_len _ Hinv). lia.
Qed.

Lemma in_lru s i x : bio_inv s -> bufs s !! i = Some x -> i ∈ lru s.
Proof.
  intros Hinv Hx. rewrite (inv_lru _ Hinv). apply elem_of_seq.
  pose proof (lookup_lt_Some _ _ _ Hx). rewrite (inv_len _ Hinv) in *. lia.
Qed.

Lemma view_cached s i x :
  bio_inv s -> bufs s !! i = Some x -> b_dev x = 1 -> view s (b_blockno x) = b_data x.
Proof.
  intros Hinv Hx Hd. unfold view. rewrite (find_idx_unique _ _ i x Hx).
  - unfold bdata. by rewrite (getbuf_lookup _ _ _ Hx).
  - unfold is_block. by rewrite Hd, !Z.eqb_refl.
  - intros j y Hj Hy. unfold is_block. destruct (b_dev y =? 1) eqn:Ey; [|done]. b2p. simpl.
    apply Z.eqb_neq. intros Hb. destruct Hj. by eapply (inv_uniq _ Hinv).
Qed.

Lemma view_uncached s b :
  (forall i x, bufs s !! i = Some x -> b_dev x = 1 -> b_blockno x <> b) ->
  view s b = nthd zero_block (disk s) (Z.to_nat b).
Proof.
  intros Hn. unfold view. rewrite (proj2 (find_idx_None _ _)); [done|].
  intros i x Hx. unfold is_block. destruct (b_dev x =? 1) eqn:E; [|done]. b2p. simpl.
  apply Z.eqb_neq. by eapply Hn.
Qed.

Lemma handle_view s i b d : bio_inv s -> handle s i b d -> view s b = d.
Proof. intros Hinv (x & Hx & Hd & <- & _ & <-). by eapply view_cached. Qed.

Lemma handle_bdata s i b d : handle s i b d -> bdata i s = d.
Proof. intros (x & Hx & _ & _ & _ & <-). unfold bdata. by rewrite (getbuf_lookup _ _ _ Hx). Qed.

Lemma handle_len s i b d : bio_inv s -> handle s i b d -> length d = bsize.
Proof. intros Hinv (x & Hx & _ & _ & _ & <-). by apply (inv_buf _ Hinv _ _ Hx). Qed.

Lemma handle_range s i b d :
  bio_inv s -> handle s i b d -> 0 <= b < Z.of_nat (length (disk s)).
Proof.
  intros Hinv (x & Hx & Hd & <- & _ & _). destruct (inv_buf _ Hinv _ _ Hx) as [_ [H|(_ & _ & H & _)]]; [lia|done].
Qed.

Lemma view_len s b : bio_inv s -> 0 <= b < Z.of_nat (length (disk s)) -> length (view s b) = bsize.
Proof.
  intros Hinv Hb. unfold view. destruct (find_idx _ _) as [i|] eqn:Hf.
  - apply find_idx_Some in Hf as [(x & Hx & _) _]. unfold bdata.
    rewrite (getbuf_lookup _ _ _ Hx). by apply (inv_buf _ Hinv _ _ Hx).
  - exact (Forall_lookup_1 _ _ _ _ (inv_disk _ Hinv)
             (lookup_nthd zero_block (disk s) (Z.to_nat b) ltac:(lia))).
Qed.

(** What the operations leave alone. *)
Record same (s s' : bio) : Prop := Same {
  same_disk : disk s' = disk s;
  same_writes : writes s' = writes s;
  same_pid : curpid s' = curpid s;
  same_view : forall b, view s' b = view s b
}.
Definition keep (s s' : bio) (j : nat) : Prop :=
  forall b d, handle s j b d -> handle s' j b d /\ (clean s j -> clean s' j).
Definition keeps (s s' : bio) : Prop := forall j, keep s s' j.

Lemma keep_trans s1 s2 s3 j : keep s1 s2 j -> keep s2 s3 j -> keep s1 s3 j.
Proof. intros H1 H2 b d [Hh Hc]%H1. destruct (H2 b d Hh) as [? ?]. auto. Qed.

Lemma handle_fun s i b d b' d' : handle s i b d -> handle s i b' d' -> b = b' /\ d = d'.
Proof. intros (x & Hx & _ & Hb & _ & Hd) (y & Hy & _ & Hb' & _ & Hd'). split; congruence. Qed.

Lemma same_refl s : same s s.
Proof. done. Qed.
Lemma same_trans s1 s2 s3 : same s1 s2 -> same s2 s3 -> same s1 s3.
Proof. intros [] []. split; congruence. Qed.

(** ** Replacing one buffer *)

Lemma bio_inv_setb s i y :
  bio_inv s -> (i < length (bufs s))%nat -> buf_ok s y ->
  (forall j z, j <> i -> bufs s !! j = Some z -> b_dev z = 1 -> b_dev y = 1 -> b_blockno z <> b_blockno y) ->
  (b_dev y = 1 -> unlocked y -> b_flags y = 2 -> on_disk s y) ->
  bio_inv (setb i y s).
Proof.
  intros Hinv Hi Hok Hu Hc. destruct Hinv as [H1 H2 H3 H4 H5 H6].
  split; simpl; try done; [by len| | |].
  - intros j z [(<- & <- & _)|(_ & Hz)]%list_lookup_insert_Some; [exact Hok|exact (H4 _ _ Hz)].
  - intros j k a b [(<- & <- & _)|(Hj & Ha)]%list_lookup_insert_Some
      [(<- & <- & _)|(Hk & Hb)]%list_lookup_insert_Some Hda Hdb Hab; try done.
    + exfalso. by apply (Hu k b).
    + exfalso. by apply (Hu j a).
    + by eapply H5.
  - intros j z [(<- & <- & _)|(_ & Hz)]%list_lookup_insert_Some; [exact Hc|exact (H6 _ _ Hz)].
Qed.

Lemma view_setb s i y b :
  bio_inv s -> bio_inv (setb i y s) -> (i < length (bufs s))%nat ->
  view (setb i y s) b =
    if is_block b y then b_data y
    else match bufs s !! i with
         | Some x => if is_block b x then nthd zero_block (disk s) (Z.to_nat b) else view s b
         | None => view s b
         end.
Proof.
  intros Hinv Hinv' Hi. pose proof (setb_lookup s i y Hi) as Hy.
  destruct (is_block b y) eqn:Eb.
  - unfold is_block in Eb. b2p. subst b. by eapply view_cached.
  - destruct (bufs s !! i) as [x|] eqn:Hx; [|apply lookup_ge_None in Hx; lia].
    assert (Hne : b_dev y = 1 -> b_blockno y <> b).
    { intros Hd Hb. unfold is_block in Eb. by rewrite Hd, Hb, !Z.eqb_refl in Eb. }
    destruct (is_block b x) eqn:Ex.
    + unfold is_block in Ex. b2p. rewrite view_uncached; [done|]. simpl.
      intros j z [(<- & <- & _)|(Hj & Hz)]%list_lookup_insert_Some Hd; [by apply Hne|].
      intros Hb. destruct Hj. eapply (inv_uniq _ Hinv); [exact Hx|exact Hz|done|done|congruence].
    + unfold view. simpl. rewrite (find_idx_ext _ (<[i:=y]> (bufs s)) (bufs s)).
      * destruct (find_idx _ _) as [k|] eqn:Hk; [|done]. unfold bdata, getbuf, setb. simpl.
        rewrite nthd_insert_ne; [done|]. intros <-. apply find_idx_Some in Hk as [(z & Hz & Hb) _].
        rewrite Hx in Hz. congruence.
      * intros j. destruct (decide (i = j)) as [<-|]; [|by rewrite list_lookup_insert_ne].
        rewrite list_lookup_insert_eq, Hx by done. simpl. by rewrite Eb, Ex.
Qed.

(** Replacing a buffer by one for the same block. *)
Lemma view_setb_same s i x y b :
  bio_inv s -> bio_inv (setb i y s) -> bufs s !! i = Some x ->
  b_dev y = b_dev x -> b_blockno y = b_blockno x -> b_data y = b_data x ->
  view (setb i y s) b = view s b.
Proof.
  intros Hinv Hinv' Hx Hd Hb Hdata. rewrite view_setb; [|done|done|by eapply lookup_lt_Some].
  rewrite Hx. unfold is_block. rewrite Hd, Hb.
  destruct (_ && _) eqn:E; [|done]. b2p. subst. rewrite Hdata. symmetry. by eapply view_cached.
Qed.

Lemma handle_setb_ne s i y j b d : j <> i -> handle s j b d -> handle (setb i y s) j b d.
Proof. intros Hj (x & Hx & Hr). exists x. split; [|exact Hr]. simpl. by rewrite list_lookup_insert_ne. Qed.

Lemma keep_setb_ne s i y j : j <> i -> keep s (setb i y s) j.
Proof.
  intros Hj b d Hh. split; [by apply handle_setb_ne|]. intros Hc x Hx. simpl in Hx.
  rewrite list_lookup_insert_ne in Hx by done. by apply Hc.
Qed.

Lemma handle_setb_inv s i y j b d :
  handle (setb i y s) j b d -> (j = i /\ b_dev y = 1 /\ b_blockno y = b /\ locked_by (curpid s) y) \/
                               (j <> i /\ handle s j b d).
Proof.
  intros (x & [(<- & <- & _)|(Hj & Hx)]%list_lookup_insert_Some & Hd & Hb & Hl & Hdt); [by left|right].
  split; [done|]. by exists x.
Qed.

Lemma held_lookup s b : held s b <->
  exists i x, bufs s !! i = Some x /\ b_dev x = 1 /\ b_blockno x = b /\ locked_by (curpid s) x.
Proof.
  split.
  - intros (i & d & x & H1 & H2 & H3 & H4 & _). by exists i, x.
  - intros (i & x & H1 & H2 & H3 & H4). by exists i, (b_data x), x.
Qed.

(** ** Free buffers *)

Definition is_free (s : bio) (i : nat) : bool :=
  let b := getbuf i s in (b_refcnt b =? 0) && (Z.land (b_flags b) B_DIRTY =? 0).

Lemma not_free_pinned s i x :
  bio_inv s -> bufs s !! i = Some x -> is_free s i = false ->
  b_dev x = 1 /\ (dirty s (b_blockno x) \/ held s (b_blockno x)).
Proof.
  intros Hinv Hx Hf. unfold is_free in Hf. rewrite (getbuf_lookup _ _ _ Hx) in Hf.
  destruct (inv_buf _ Hinv _ _ Hx) as [_ [(Hd & Hfl & [_ Hr])|(Hd & Hfl & Hb & Hl)]].
  { rewrite Hfl, Hr in Hf. done. }
  split; [done|]. destruct Hfl as [Hfl|Hfl].
  - right. apply held_lookup. exists i, x. repeat split; try done.
    + destruct Hl as [[_ Hr]|[H _]]; [|done]. by rewrite Hr, Hfl in Hf.
    + destruct Hl as [[_ Hr]|[_ H]]; [|done]. by rewrite Hr, Hfl in Hf.
  - left. by exists i, x.
Qed.

(** Fewer pinned blocks than buffers leave a buffer to recycle. *)
Lemma free_exists s D H :
  bio_rel s D H -> (length D + length H < nbuf)%nat ->
  exists i, List.find (is_free s) (rev (lru s)) = Some i.
Proof.
  intros [Hinv HD HH] Hlen. destruct (List.find _ _) as [i|] eqn:Hf; [by exists i|exfalso].
  assert (Hall : forall i x, bufs s !! i = Some x -> b_dev x = 1 /\ b_blockno x ∈ D ++ H).
  { intros i x Hx. assert (Hnf : is_free s i = false).
    { apply (List.find_none _ _ Hf), in_rev. rewrite rev_involutive.
      apply list_elem_of_In. by eapply in_lru. }
    destruct (not_free_pinned s i x Hinv Hx Hnf) as [Hd [Hp|Hp]]; split; try done;
      apply elem_of_app; [left; by apply HD|right; by apply HH]. }
  assert (Hsub : b_blockno <$> bufs s ⊆+ D ++ H).
  { apply NoDup_submseteq.
    - apply NoDup_alt. intros i j b Hi Hj.
      apply list_lookup_fmap_Some in Hi as (x & -> & Hx), Hj as (y & Hxy & Hy).
      eapply (inv_uniq _ Hinv); eauto; by eapply Hall.
    - intros b (x & -> & (i & Hx)%list_elem_of_lookup)%list_elem_of_fmap. by eapply Hall. }
  apply submseteq_length in Hsub. rewrite length_fmap, length_app, (inv_len _ Hinv) in Hsub. lia.
Qed.

Lemma find_block_None s b :
  bio_inv s ->
  List.find (fun i => let x := getbuf i s in (b_dev x =? 1) && (b_blockno x =? b)) (lru s) = None ->
  forall i x, bufs s !! i = Some x -> b_dev x = 1 -> b_blockno x <> b.
Proof.
  intros Hinv Hf i x Hx Hd Hb. assert (Hin : In i (lru s)).
  { apply list_elem_of_In. by eapply in_lru. }
  pose proof (List.find_none _ _ Hf i Hin) as Hn. cbv beta zeta in Hn.
  by rewrite (getbuf_lookup _ _ _ Hx), Hd, Hb, !Z.eqb_refl in Hn.
Qed.

Lemma find_Some_lookup s (f : nat -> bool) l i :
  bio_inv s -> (forall j, j ∈ l -> j ∈ lru s) -> List.find f l = Some i ->
  exists x, bufs s !! i = Some x /\ f i = true.
Proof.
  intros Hinv Hl Hf. apply List.find_some in Hf as [Hin Hfi]. apply list_elem_of_In in Hin.
  exists (getbuf i s). split; [|done]. apply lookup_nthd. eapply bio_inv_lt; eauto.
Qed.

(** ** Specifications *)

(** A cached block is one that a [bread] needs no free buffer for. *)
Definition cached (s : bio) (b : Z) : Prop :=
  exists i x, bufs s !! i = Some x /\ b_dev x = 1 /\ b_blockno x = b.

Lemma dirty_cached s b : dirty s b -> cached s b.
Proof. intros (i & x & H1 & H2 & H3 & _). by exists i, x. Qed.

Lemma lock_buf_eval s i x :
  bufs s !! i = Some x -> b_lock x = Sleeplock 0 0 ->
  lock_buf i s = Ok tt (setb i (set_lock (Sleeplock 1 (curpid s)) x) s).
Proof.
  intros Hx Hl. unfold lock_buf, bind, gets. rewrite (getbuf_lookup _ _ _ Hx), Hl. simpl.
  unfold modify. by rewrite (upd_setb _ _ _ _ Hx).
Qed.

(** The state after [bread]: one buffer now locked, for the block. *)
Lemma bread_eval s D H b :
  bio_rel s D H -> b ∉ H -> 0 <= b < Z.of_nat (length (disk s)) ->
  cached s b \/ (length D + length H < nbuf)%nat ->
  exists i x y, bread 1 b s = Ok i (setb i y s) /\ bufs s !! i = Some x /\
    b_dev y = 1 /\ b_blockno y = b /\ locked_by (curpid s) y /\ b_data y = view s b /\
    unlocked x /\ (is_block b x = true /\ b_flags y = b_flags x \/
      (forall j z, bufs s !! j = Some z -> b_dev z = 1 -> b_blockno z <> b) /\
      b_flags y = 2 /\ b_flags x <> 6).
Proof.
  intros Hrel HbH Hb Hroom. pose proof Hrel as [Hinv HD HH].
  unfold bread, bget, bind, gets. destruct (List.find _ (lru s)) as [i|] eqn:Hf.
  - apply (find_Some_lookup s) in Hf as (x & Hx & Hm); [|done|done].
    cbv beta zeta in Hm. rewrite (getbuf_lookup _ _ _ Hx) in Hm.
    apply andb_prop in Hm as [Hdev Hbn]. b2p.
    destruct (inv_buf _ Hinv _ _ Hx) as [Hlen [[? _]|(_ & Hfl & _ & Hl)]]; [lia|].
    destruct Hl as [Hul|Hlk].
    2:{ destruct HbH. apply HH, held_lookup. by exists i, x. }
    destruct Hul as [Hul Hr]. unfold modify.
    rewrite (upd_setb _ _ _ _ Hx), Hr.
    erewrite lock_buf_eval; [|by apply setb_lookup; eapply lookup_lt_Some|done].
    rewrite setb_setb. unfold ret. cbv beta iota. rewrite getbuf_setb by (by eapply lookup_lt_Some).
    exists i, x, (set_lock (Sleeplock 1 (curpid s)) (set_refcnt (u32 (0 + 1)) x)).
    subst b. repeat split; try done.
    + cbn [set_lock set_refcnt b_flags].
      destruct (Z.land (b_flags x) B_VALID =? 0) eqn:E; [|done].
      by destruct Hfl as [Hfl|Hfl]; rewrite Hfl in E.
    + symmetry. exact (view_cached s i x Hinv Hx Hdev).
    + left. unfold is_block. split; [|done]. by rewrite Hdev, !Z.eqb_refl.
  - pose proof (find_block_None _ _ Hinv Hf) as Hnone.
    assert (Hroom' : (length D + length H < nbuf)%nat).
    { destruct Hroom as [(i & x & Hx & Hd & Hbx)|?]; [|done]. by destruct (Hnone i x Hx Hd). }
    destruct (free_exists _ _ _ Hrel Hroom') as [i Hi]. fold (is_free s).
    replace (List.find _ (rev (lru s))) with (Some i) by (symmetry; exact Hi).
    apply (find_Some_lookup s) in Hi as (x & Hx & Hfree);
      [|done|intros j; rewrite !list_elem_of_In; apply in_rev].
    unfold is_free in Hfree. rewrite (getbuf_lookup _ _ _ Hx) in Hfree.
    apply andb_prop in Hfree as [Hr Hnd]. b2p.
    assert (Hux : unlocked x /\ b_flags x <> 6 /\ length (b_data x) = bsize).
    { destruct (inv_buf _ Hinv _ _ Hx) as [Hlen [(_ & Hfl & Hu)|(_ & Hfl & _ & Hl)]].
      - split; [done|split; [lia|done]].
      - split; [|split; [|done]].
        + destruct Hl as [?|[_ ?]]; [done|lia].
        + intros Hfl6. by rewrite Hfl6 in Hnd. }
    destruct Hux as (Hux & Hfl & Hlen). unfold modify. rewrite (upd_setb _ _ _ _ Hx).
    pose proof (lookup_lt_Some _ _ _ Hx) as Hlt.
    erewrite lock_buf_eval; [|by apply setb_lookup|by apply Hux].
    rewrite setb_setb. unfold ret. cbv beta iota. rewrite getbuf_setb by done. simpl curpid.
    set (z := set_lock _ _). change (Z.land (b_flags z) B_VALID =? 0) with true. cbv beta iota.
    unfold iderw, bind, gets. rewrite getbuf_setb by done. simpl.
    unfold holdingsleep. simpl. rewrite Z.eqb_refl. simpl.
    destruct (Z.of_nat (length (disk s)) <=? b) eqn:Hdb; b2p; [lia|].
    unfold modify. rewrite (upd_setb _ _ _ _ (setb_lookup s i z Hlt)), setb_setb.
    rewrite (upd_setb _ _ _ _ (setb_lookup s i _ Hlt)), setb_setb.
    eexists i, x, _. repeat split; try done.
    + simpl. symmetry. by apply view_uncached.
    + by apply Hux.
    + by right.
Qed.

(** Dirty and held blocks, with one buffer singled out. *)
Definition but (s : bio) (i : nat) (P : buf -> Prop) : Prop :=
  exists j z, j <> i /\ bufs s !! j = Some z /\ P z.
Definition dirty_at (b : Z) (z : buf) : Prop := b_dev z = 1 /\ b_blockno z = b /\ b_flags z = 6.
Definition held_at (pid b : Z) (z : buf) : Prop := b_dev z = 1 /\ b_blockno z = b /\ locked_by pid z.

#[export] Instance dirty_at_dec b z : Decision (dirty_at b z).
Proof. unfold dirty_at. apply _. Defined.

Lemma exists_split s i x (P : buf -> Prop) :
  bufs s !! i = Some x ->
  (exists j z, bufs s !! j = Some z /\ P z) <-> P x \/ but s i P.
Proof.
  intros Hx. split.
  - intros (j & z & Hz & HP). destruct (decide (j = i)) as [->|Hj]; [left; congruence|right].
    by exists j, z.
  - intros [HP|(j & z & Hj & Hz & HP)]; [by exists i, x|by exists j, z].
Qed.

Lemma exists_setb s i y (P : buf -> Prop) :
  (i < length (bufs s))%nat ->
  (exists j z, bufs (setb i y s) !! j = Some z /\ P z) <-> P y \/ but s i P.
Proof.
  intros Hi. rewrite (exists_split _ i y) by by apply setb_lookup. unfold but. simpl.
  split; (intros [H|(j & z & Hj & Hz & HP)]; [by left|right; exists j, z]).
  - by rewrite list_lookup_insert_ne in Hz.
  - by rewrite list_lookup_insert_ne.
Qed.

Lemma dirty_alt s b : dirty s b <-> exists j z, bufs s !! j = Some z /\ dirty_at b z.
Proof. done. Qed.
Lemma held_alt s b : held s b <-> exists j z, bufs s !! j = Some z /\ held_at (curpid s) b z.
Proof. apply held_lookup. Qed.

(** How a replacement of buffer [i] changes the abstract state. *)
Lemma bio_rel_setb s D H D' H' i x y :
  bio_rel s D H -> bufs s !! i = Some x -> bio_inv (setb i y s) ->
  (forall b, (dirty_at b y \/ (b ∈ D /\ ~ dirty_at b x)) <-> b ∈ D') ->
  (forall b, (held_at (curpid s) b y \/ (b ∈ H /\ ~ held_at (curpid s) b x)) <-> b ∈ H') ->
  bio_rel (setb i y s) D' H'.
Proof.
  intros [Hinv HD HH] Hx Hinv' HD' HH'. pose proof (lookup_lt_Some _ _ _ Hx) as Hi.
  assert (Hsep : forall (P : buf -> Prop),
    (forall z, P z -> b_dev z = 1) -> (forall z z', P z -> P z' -> b_blockno z = b_blockno z') ->
    P x -> ~ but s i P).
  { intros P Hp Hpp HPx (j & z & Hj & Hz & HP). destruct Hj.
    eapply (inv_uniq _ Hinv); eauto. }
  split; [done| |]; intros b.
  - rewrite dirty_alt, exists_setb, <- HD', <- HD, dirty_alt, (exists_split _ i x) by done.
    assert (Hs : dirty_at b x -> ~ but s i (dirty_at b)).
    { apply Hsep; unfold dirty_at; intros; [by destruct H0|]. destruct H0 as (_ & -> & _).
      by destruct H1 as (_ & -> & _). }
    split; [intros [?|?]; [by left|right]|intros [?|[[?|?] ?]]; [by left|done|by right]].
    split; [by right|]. intros Hd. by apply Hs.
  - rewrite held_alt, exists_setb, <- HH', <- HH, held_alt, (exists_split _ i x) by done.
    assert (Hs : held_at (curpid s) b x -> ~ but s i (held_at (curpid s) b)).
    { apply Hsep; unfold held_at; intros; [by destruct H0|]. destruct H0 as (_ & -> & _).
      by destruct H1 as (_ & -> & _). }
    simpl. split; [intros [?|?]; [by left|right]|intros [?|[[?|?] ?]]; [by left|done|by right]].
    split; [by right|]. intros Hd. by apply Hs.
Qed.

Lemma unlocked_not_held pid b x : unlocked x -> ~ held_at pid b x.
Proof. intros [_ Hr] (_ & _ & _ & Hr'). lia. Qed.

Definition bread_post (s : bio) (D H : list Z) (b : Z) (i : nat) (s' : bio) : Prop :=
  bio_rel s' D (b :: H) /\ same s s' /\ keeps s s' /\ handle s' i b (view s b) /\ clean s' i.

(** [bread] returns the block, locked, and changes nothing else that can be
    observed: not the disk, not the contents of any block, not the handles
    already held. *)
Lemma bread_spec s D H b :
  bio_rel s D H -> b ∉ H -> 0 <= b < Z.of_nat (length (disk s)) ->
  cached s b \/ (length D + length H < nbuf)%nat ->
  exists i s', bread 1 b s = Ok i s' /\ bread_post s D H b i s'.
Proof.
  intros Hrel HbH Hb Hroom. pose proof (rel_inv _ _ _ Hrel) as Hinv.
  destruct (bread_eval s D H b Hrel HbH Hb Hroom)
    as (i & x & y & -> & Hx & Hdy & Hby & Hly & Hdata & Hux & Hcase).
  exists i, (setb i y s). split; [done|]. pose proof (lookup_lt_Some _ _ _ Hx) as Hi.
  assert (Hflx : b_dev x = 1 -> b_flags x = 2 \/ b_flags x = 6).
  { intros Hd. destruct (inv_buf _ Hinv _ _ Hx) as [_ [[? _]|(_ & Hf & _)]]; [lia|done]. }
  assert (Hfly : b_flags y = 2 \/ b_flags y = 6).
  { destruct Hcase as [[Hbx ->]|(_ & -> & _)]; [|by left]. unfold is_block in Hbx. b2p. auto. }
  assert (Hinv' : bio_inv (setb i y s)).
  { apply bio_inv_setb; try done.
    - split; [rewrite Hdata; by apply view_len|]. right. rewrite Hby. auto.
    - intros j z Hj Hz Hdz _. rewrite Hby. destruct Hcase as [[Hbx _]|[Hn _]]; [|by eapply Hn].
      unfold is_block in Hbx. b2p. intros Hbz. destruct Hj.
      eapply (inv_uniq _ Hinv); [exact Hz|exact Hx|done|done|congruence].
    - intros _ [_ Hr]. destruct Hly. lia. }
  assert (Hcoh : b_dev x = 1 -> b_flags x = 2 -> view s (b_blockno x) = nthd zero_block (disk s) (Z.to_nat (b_blockno x))).
  { intros Hd Hf. rewrite (view_cached s i x) by done. symmetry.
    apply nthd_lookup. by apply (inv_coh _ Hinv i x). }
  split; [|split; [|split; [|split]]].
  - eapply (bio_rel_setb s D H _ _ i x y); try done; intros b'.
    + rewrite <- (rel_dirty _ _ _ Hrel), dirty_alt, (exists_split _ i x) by done.
      assert (Hxy : dirty_at b' y <-> dirty_at b' x).
      { unfold dirty_at. rewrite Hdy, Hby. destruct Hcase as [[Hbx ->]|(Hn & Hf2 & Hnf)].
        - unfold is_block in Hbx. b2p. split; intros (? & ? & ?); repeat split; congruence.
        - split; intros (? & ? & ?); [lia|done]. }
      rewrite Hxy. destruct (decide (dirty_at b' x)); tauto.
    + rewrite elem_of_cons. unfold held_at. rewrite Hdy, Hby. split.
      * intros [(_ & <- & _)|[? _]]; auto.
      * intros [->|Hin]; [by left|]. right. split; [done|]. by apply unlocked_not_held.
  - split; try done. intros b'. rewrite view_setb, Hx by done.
    destruct (is_block b' y) eqn:Ey.
    { unfold is_block in Ey. b2p. congruence. }
    destruct (is_block b' x) eqn:Ex; [|done]. unfold is_block in Ex. b2p. subst b'.
    symmetry. apply Hcoh; [done|]. destruct Hcase as [[Hbx _]|(_ & _ & Hnf)].
    + unfold is_block in *. rewrite Hdy, Hby in Ey. simpl in Ey. b2p. congruence.
    + destruct (Hflx ltac:(done)); [done|]. by destruct Hnf.
  - intros j b' d Hh. apply keep_setb_ne; [|done]. intros ->.
    destruct Hh as (z & Hz & _ & _ & [_ Hr] & _). destruct Hux as [_ Hr']. congruence.
  - exists y. rewrite setb_lookup by done. by repeat split; try apply Hly.
  - intros z Hz. rewrite setb_lookup in Hz by done. injection Hz as <-. intros Hf.
    unfold on_disk. rewrite Hby, Hdata. simpl. destruct Hcase as [[Hbx Hff]|[Hn _]].
    + unfold is_block in Hbx. apply andb_prop in Hbx as [Hdx Hbx]. b2p. rewrite <- Hbx.
      rewrite (view_cached s i x) by done. apply (inv_coh _ Hinv i x); congruence.
    + rewrite view_uncached by done. apply lookup_nthd. lia.
Qed.

(** Releasing: the buffer becomes the most recently used one. *)
Lemma move_front_perm i l : NoDup l -> i ∈ l -> move_front i l ≡ₚ l.
Proof.
  intros Hnd Hi. unfold move_front. apply NoDup_Permutation; [|done|].
  - apply NoDup_cons. split; [|by apply NoDup_filter]. rewrite list_elem_of_filter. tauto.
  - intros j. rewrite elem_of_cons, list_elem_of_filter.
    destruct (decide (j = i)) as [->|]; tauto.
Qed.

Lemma bio_rel_lru s D H l : bio_rel s D H -> l ≡ₚ lru s -> bio_rel (set_lru l s) D H.
Proof.
  intros [[H1 H2 H3 H4 H5 H6] HD HH] Hl. split; [|done|done]. split; simpl; try done.
  by rewrite Hl.
Qed.

Lemma brelse_eval s i b d :
  handle s i b d ->
  exists x, bufs s !! i = Some x /\
    let y := set_refcnt 0 (set_lock (Sleeplock 0 0) x) in
    brelse i s = Ok tt (set_lru (move_front i (lru s)) (setb i y s)).
Proof.
  intros (x & Hx & Hd & Hb & [Hl Hr] & Hdt). exists x. split; [done|].
  pose proof (lookup_lt_Some _ _ _ Hx) as Hi. unfold brelse, bind, gets, modify.
  rewrite (getbuf_lookup _ _ _ Hx), Hl. unfold holdingsleep. simpl. rewrite Z.eqb_refl. simpl.
  rewrite (upd_setb _ _ _ _ Hx), (upd_setb _ _ _ _ (setb_lookup _ _ _ Hi)), setb_setb.
  rewrite getbuf_setb by done. simpl. rewrite Hr. done.
Qed.

Lemma brelse_spec s D H i b d :
  bio_rel s D H -> handle s i b d -> clean s i ->
  exists s', brelse i s = Ok tt s' /\ bio_rel s' D (filter (fun b' => b' <> b) H) /\ same s s' /\
    (forall j, j <> i -> keep s s' j).
Proof.
  intros Hrel Hh Hclean. destruct (brelse_eval s i b d Hh) as (x & Hx & ->). simpl.
  set (y := set_refcnt 0 _). eexists. split; [done|].
  pose proof (rel_inv _ _ _ Hrel) as Hinv. pose proof (lookup_lt_Some _ _ _ Hx) as Hi.
  destruct Hh as (x' & Hx' & Hd & Hb & Hl & Hdt). assert (x' = x) as -> by congruence.
  assert (Hinv' : bio_inv (setb i y s)).
  { destruct (inv_buf _ Hinv _ _ Hx) as [Hlen [[? _]|(_ & Hf & Hr & _)]]; [lia|].
    apply bio_inv_setb; try done.
    - split; [done|]. right. split; [done|]. split; [done|]. split; [done|]. by left.
    - intros j z Hj Hz Hdz _ Hbz. destruct Hj. eapply (inv_uniq _ Hinv); eauto.
    - intros _ _ Hf2. by apply (Hclean x). }
  assert (Hrel' : bio_rel (setb i y s) D (filter (fun b' => b' <> b) H)).
  { apply (bio_rel_setb s D H _ _ i x y Hrel Hx Hinv'); intros b'.
    - change (dirty_at b' y) with (dirty_at b' x).
      rewrite <- (rel_dirty _ _ _ Hrel), dirty_alt, (exists_split _ i x) by done.
      destruct (decide (dirty_at b' x)); tauto.
    - rewrite list_elem_of_filter. split.
      + intros [(_ & _ & _ & Hr0)|[Hin Hn]]; [done|]. split; [|done]. intros ->.
        destruct Hn. by split_and!.
      + intros [Hne Hin]. right. split; [done|]. intros (_ & Hb' & _). congruence. }
  split; [|split].
  - apply bio_rel_lru; [done|]. simpl. apply move_front_perm; [|by eapply in_lru].
    rewrite (inv_lru _ Hinv). apply NoDup_seq.
  - split; try done. intros b'. by apply (view_setb_same s i x y).
  - intros j Hj b' d' Hh. by destruct (keep_setb_ne s i y j Hj b' d' Hh).
Qed.

(** Storing into [b->data] of a locked buffer. *)
Lemma bset_spec s D H i b d d' :
  bio_rel s D H -> handle s i b d -> length d' = bsize ->
  exists s', bset i d' s = Ok tt s' /\ bio_rel s' D H /\ handle s' i b d' /\
    disk s' = disk s /\ writes s' = writes s /\ curpid s' = curpid s /\
    (forall b', view s' b' = if decide (b' = b) then d' else view s b') /\
    (forall j, j <> i -> keep s s' j).
Proof.
  intros Hrel (x & Hx & Hd & Hb & Hl & Hdt) Hlen. unfold bset, modify.
  rewrite (upd_setb _ _ _ _ Hx). set (y := set_data d' x). eexists. split; [done|].
  pose proof (rel_inv _ _ _ Hrel) as Hinv. pose proof (lookup_lt_Some _ _ _ Hx) as Hi.
  assert (Hinv' : bio_inv (setb i y s)).
  { destruct (inv_buf _ Hinv _ _ Hx) as [_ Hok]. apply bio_inv_setb; try done.
    - intros j z Hj Hz Hdz _ Hbz. destruct Hj. eapply (inv_uniq _ Hinv); eauto.
    - intros _ [_ Hr0]. destruct Hl as [_ Hr1]. simpl in Hr0. lia. }
  split_and!; try done.
  - apply (bio_rel_setb s D H _ _ i x y Hrel Hx Hinv'); intros b'.
    + change (dirty_at b' y) with (dirty_at b' x).
      rewrite <- (rel_dirty _ _ _ Hrel), dirty_alt, (exists_split _ i x) by done.
      destruct (decide (dirty_at b' x)); tauto.
    + change (held_at (curpid s) b' y) with (held_at (curpid s) b' x).
      rewrite <- (rel_held _ _ _ Hrel), held_alt, (exists_split _ i x) by done.
      destruct (decide (b' = b)) as [->|Hne].
      * assert (held_at (curpid s) b x) by done. tauto.
      * assert (~ held_at (curpid s) b' x) by (intros (_ & ? & _); congruence). tauto.
  - exists y. split; [by apply setb_lookup|done].
  - intros b'. rewrite view_setb, Hx by done. unfold is_block. simpl. rewrite Hd, Hb. simpl.
    destruct (b =? b') eqn:E; b2p; case_decide; congruence.
  - intros j Hj. by apply keep_setb_ne.
Qed.

(** Setting [B_DIRTY] on a locked buffer pins its block. *)
Definition mark_dirty (i : nat) : M bio unit :=
  modify (upd i (fun x => set_flags (Z.lor (b_flags x) B_DIRTY) x)).

Lemma lor_dirty x : b_flags x = 2 \/ b_flags x = 6 -> Z.lor (b_flags x) B_DIRTY = 6.
Proof. by intros [-> | ->]. Qed.

Lemma handle_flags s i b d x :
  bio_inv s -> handle s i b d -> bufs s !! i = Some x -> b_flags x = 2 \/ b_flags x = 6.
Proof.
  intros Hinv (x' & Hx' & Hd & _) Hx. assert (x' = x) as -> by congruence.
  destruct (inv_buf _ Hinv _ _ Hx) as [_ [[? _]|(_ & Hf & _)]]; [lia|done].
Qed.

Lemma set_flags_inv s D H i b d x f :
  bio_rel s D H -> handle s i b d -> bufs s !! i = Some x -> f = 2 \/ f = 6 ->
  bio_inv (setb i (set_flags f x) s).
Proof.
  intros Hrel (x' & Hx' & Hd & Hb & Hl & Hdt) Hx Hf. assert (x' = x) as -> by congruence.
  pose proof (rel_inv _ _ _ Hrel) as Hinv. pose proof (lookup_lt_Some _ _ _ Hx) as Hi.
  destruct (inv_buf _ Hinv _ _ Hx) as [Hlen [[? _]|(_ & _ & Hr & Hlk)]]; [lia|].
  apply bio_inv_setb; try done.
  - split; [done|]. by right.
  - intros j z Hj Hz Hdz _ Hbz. destruct Hj. eapply (inv_uniq _ Hinv); eauto.
  - intros _ [_ Hr0]. destruct Hl as [_ Hr1]. simpl in Hr0. lia.
Qed.

Lemma mark_dirty_spec s D H i b d :
  bio_rel s D H -> handle s i b d ->
  exists s', mark_dirty i s = Ok tt s' /\ bio_rel s' (b :: D) H /\ same s s' /\ keeps s s' /\ clean s' i.
Proof.
  intros Hrel Hh. pose proof Hh as (x & Hx & Hd & Hb & Hl & Hdt). unfold mark_dirty, modify.
  pose proof (rel_inv _ _ _ Hrel) as Hinv. pose proof (lookup_lt_Some _ _ _ Hx) as Hi.
  rewrite (upd_setb _ _ _ _ Hx), lor_dirty by by eapply handle_flags.
  set (y := set_flags 6 x). eexists. split; [done|].
  assert (Hinv' : bio_inv (setb i y s)) by (eapply set_flags_inv; eauto).
  split; [|split; [|split]].
  - apply (bio_rel_setb s D H _ _ i x y Hrel Hx Hinv'); intros b'.
    + rewrite elem_of_cons. split.
      * intros [(_ & <- & _)|[? _]]; [by left|by right].
      * intros [->|Hin]; [left; by split_and!|]. destruct (decide (b' = b)) as [->|]; [left; by split_and!|].
        right. split; [done|]. intros (_ & ? & _). congruence.
    + change (held_at (curpid s) b' y) with (held_at (curpid s) b' x).
      rewrite <- (rel_held _ _ _ Hrel), held_alt, (exists_split _ i x) by done.
      destruct (decide (b' = b)) as [->|Hne].
      * assert (held_at (curpid s) b x) by done. tauto.
      * assert (~ held_at (curpid s) b' x) by (intros (_ & ? & _); congruence). tauto.
  - split; try done. intros b'. by apply (view_setb_same s i x y).
  - intros j b' e Hj. destruct (decide (j = i)) as [->|Hne]; [|by apply keep_setb_ne].
    destruct Hj as (z & Hz & Hr). assert (z = x) as -> by congruence. split.
    + exists y. split; [by apply setb_lookup|done].
    + intros _ z Hz'. rewrite setb_lookup in Hz' by done. by injection Hz' as <-.
  - intros z Hz. rewrite setb_lookup in Hz by done. by injection Hz as <-.
Qed.

(** Writing a locked buffer through to the disk. *)
Lemma put_block_rel s D H i b d :
  bio_rel s D H -> handle s i b d ->
  bio_rel (put_block b d s) D H /\ forall b', 0 <= b' -> view (put_block b d s) b' = view s b'.
Proof.
  intros Hrel Hh. pose proof (rel_inv _ _ _ Hrel) as Hinv.
  pose proof (handle_range _ _ _ _ Hinv Hh) as Hr. pose proof (handle_len _ _ _ _ Hinv Hh) as Hl.
  destruct Hh as (x & Hx & Hd & Hb & Hlk & Hdt).
  split; [split|].
  - split; try apply Hinv; simpl.
    + apply Forall_insert; [apply Hinv|done].
    + intros j z Hz. pose proof (inv_buf _ Hinv _ _ Hz) as Hok. unfold buf_ok. simpl.
      by rewrite length_insert.
    + intros j z Hz Hdz Hu Hfz. unfold on_disk. simpl. rewrite list_lookup_insert_ne.
      { by eapply (inv_coh _ Hinv). }
      intros Heq. destruct (inv_buf _ Hinv _ _ Hz) as [_ [[? _]|(_ & _ & Hrz & _)]]; [lia|].
      assert (j = i) as -> by (eapply (inv_uniq _ Hinv); eauto; lia).
      assert (z = x) as -> by congruence. destruct Hu as [_ ?], Hlk as [_ ?]. lia.
  - apply Hrel.
  - apply Hrel.
  - intros b' Hb'. unfold view. simpl. destruct (find_idx _ _) as [k|] eqn:Hk; [done|].
    rewrite nthd_insert_ne; [done|]. intros Heq. rewrite find_idx_None in Hk.
    specialize (Hk i x Hx). unfold is_block in Hk. rewrite Hd, Hb in Hk. simpl in Hk. b2p. lia.
Qed.

Lemma bwrite_eval s i b d x :
  bio_inv s -> handle s i b d -> bufs s !! i = Some x ->
  bwrite i s = Ok tt (put_block b d (setb i (set_flags 2 x) s)).
Proof.
  intros Hinv Hh Hx. pose proof (handle_range _ _ _ _ Hinv Hh) as Hr.
  pose proof (handle_flags _ _ _ _ _ Hinv Hh Hx) as Hf. pose proof (lookup_lt_Some _ _ _ Hx) as Hi.
  destruct Hh as (x' & Hx' & Hd & Hb & [Hl _] & Hdt). assert (x' = x) as -> by congruence.
  unfold bwrite, bind, gets. rewrite (getbuf_lookup _ _ _ Hx), Hl. unfold holdingsleep. simpl.
  rewrite Z.eqb_refl. simpl. rewrite (upd_setb _ _ _ _ Hx), lor_dirty by done.
  unfold iderw, bind, gets. rewrite getbuf_setb by done. simpl. rewrite Hl, Hd, Hb. simpl.
  unfold holdingsleep. simpl. rewrite Z.eqb_refl. simpl.
  destruct (Z.of_nat (length (disk s)) <=? b) eqn:E; b2p; [lia|]. unfold modify.
  rewrite (upd_setb _ _ _ _ (setb_lookup s i _ Hi)), setb_setb. simpl.
  erewrite upd_setb; [|unfold put_block; cbn [bufs]; by apply setb_lookup].
  unfold setb, put_block. simpl. by rewrite list_insert_insert_eq, Hdt.
Qed.

Lemma bwrite_spec s D H i b d :
  bio_rel s D H -> handle s i b d ->
  exists s', bwrite i s = Ok tt s' /\ bio_rel s' (filter (fun b' => b' <> b) D) H /\
    keeps s s' /\ clean s' i /\ curpid s' = curpid s /\
    disk s' = <[Z.to_nat b := d]> (disk s) /\ writes s' = writes s ++ [(b, d)] /\
    (forall b', 0 <= b' -> view s' b' = view s b').
Proof.
  intros Hrel Hh. pose proof Hh as (x & Hx & Hd & Hb & Hl & Hdt).
  pose proof (rel_inv _ _ _ Hrel) as Hinv. pose proof (lookup_lt_Some _ _ _ Hx) as Hi.
  pose proof (handle_range _ _ _ _ Hinv Hh) as Hr.
  rewrite (bwrite_eval _ _ _ _ _ Hinv Hh Hx). set (y := set_flags 2 x). eexists. split; [done|].
  assert (Hinv' : bio_inv (setb i y s)) by (eapply set_flags_inv; eauto).
  assert (Hk : forall j b' e, handle s j b' e -> handle (setb i y s) j b' e).
  { intros j b' e Hj. destruct (decide (j = i)) as [->|Hne]; [|by apply handle_setb_ne].
    destruct Hj as (z & Hz & Hrest). assert (z = x) as -> by congruence.
    exists y. split; [by apply setb_lookup|done]. }
  assert (Hci : clean (put_block b d (setb i y s)) i).
  { intros z Hz _. simpl in Hz. rewrite list_lookup_insert_eq in Hz by done. injection Hz as <-.
    unfold on_disk. simpl. rewrite Hb, list_lookup_insert_eq by lia. by rewrite Hdt. }
  assert (Hrel' : bio_rel (setb i y s) (filter (fun b' => b' <> b) D) H).
  { apply (bio_rel_setb s D H _ _ i x y Hrel Hx Hinv'); intros b'.
    - rewrite list_elem_of_filter. split.
      + intros [(_ & _ & ?)|[HinD Hn]]; [done|]. split; [|done]. intros ->.
        apply Hn. split_and!; try done.
        apply (rel_dirty _ _ _ Hrel) in HinD as (j & z & Hz & Hdz & Hbz & Hfz).
        assert (j = i) as -> by (eapply (inv_uniq _ Hinv); eauto; congruence). congruence.
      + intros [Hne HinD]. right. split; [done|]. intros (_ & ? & _). congruence.
    - change (held_at (curpid s) b' y) with (held_at (curpid s) b' x).
      rewrite <- (rel_held _ _ _ Hrel), held_alt, (exists_split _ i x) by done.
      destruct (decide (b' = b)) as [->|Hne].
      + assert (held_at (curpid s) b x) by done. tauto.
      + assert (~ held_at (curpid s) b' x) by (intros (_ & ? & _); congruence). tauto. }
  destruct (put_block_rel _ _ _ i b d Hrel' (Hk _ _ _ Hh)) as [Hrel2 Hv].
  split_and!; try done.
  - intros j b' e Hj. split; [by apply Hk|]. intros Hc.
    destruct (decide (j = i)) as [->|Hne]; [done|]. intros z Hz. simpl in Hz.
    rewrite list_lookup_insert_ne in Hz by done. intros Hf. specialize (Hc z Hz Hf).
    unfold on_disk. simpl. rewrite list_lookup_insert_ne; [done|]. intros Heq. apply Hne.
    destruct Hj as (z' & Hz' & Hdz & Hbz & _). assert (z' = z) as -> by congruence.
    destruct (inv_buf _ Hinv _ _ Hz) as [_ [[? _]|(_ & _ & Hrz & _)]]; [lia|].
    eapply (inv_uniq _ Hinv); eauto. lia.
  - intros b' Hb'. rewrite Hv by done. by apply (view_setb_same s i x y).
Qed.

(** At boot every buffer is zero; [binit] makes them an empty cache. *)
Definition bio0 (pid : Z) (dsk : list block) : bio := Bio (replicate nbuf buf0) [] dsk [] pid.

Lemma binit_lru n : foldl (fun l i => i :: l) [] (seq 0 n) ≡ₚ seq 0 n.
Proof.
  assert (H : forall l acc : list nat, foldl (fun l i => i :: l) acc l ≡ₚ l ++ acc).
  { induction l as [|x l IH]; intros acc; simpl; [done|]. rewrite IH. by rewrite Permutation_middle. }
  by rewrite H, app_nil_r.
Qed.

Lemma binit_spec pid dsk :
  Forall (fun d => length d = bsize) dsk ->
  bio_rel (binit (bio0 pid dsk)) [] [] /\
  forall b, view (binit (bio0 pid dsk)) b = nthd zero_block dsk (Z.to_nat b).
Proof.
  intros Hd. assert (Hb : forall i x, bufs (binit (bio0 pid dsk)) !! i = Some x -> x = buf0).
  { intros i x Hx. apply list_lookup_fmap_Some in Hx as (z & -> & Hz).
    by apply lookup_replicate in Hz as [-> _]. }
  split; [split; [split|..]|]; cbn [binit bio0 bufs lru disk].
  - by rewrite length_fmap, length_replicate.
  - rewrite length_replicate. apply binit_lru.
  - done.
  - intros i x ->%Hb. split; [exact length_zero_block|by left].
  - by intros i j x y ->%Hb.
  - by intros i x ->%Hb.
  - intros b. split; [|by intros ?%elem_of_nil]. by intros (i & x & ->%Hb & ? & _).
  - intros b. split; [|by intros ?%elem_of_nil]. by intros (i & d & x & ->%Hb & ? & _).
  - intros b. apply view_uncached. by intros i x ->%Hb.
Qed.
