(* ===== verification/Log.v ===== *)
(** The write-ahead log: log.c.

    [lst] is the log's own state ([struct log]) with the buffer cache below
    it.  The log header lives in the bytes of block [l_start]: [n] at offset
    0, [block[i]] at offset [4 + 4i].

    [log_rel s L H] says that the transaction in progress has logged the home
    blocks [L] and that the process holds the buffers of [H].  [commit_spec]
    gives the exact sequence of disk writes a commit issues; [crash_safe]
    cuts that sequence anywhere, the write in flight torn at sector
    granularity, reboots with an empty cache, and shows that recovery ends
    with the file system blocks all old or all new. *)
From stdpp Require Import base numbers list strings.
From Stdlib Require Import ZArith Lia.
From S2P Require Import Prelude Params Bio.

Local Open Scope list_scope.
Local Open Scope Z_scope.

Record log := Log {
  l_start : Z; l_size : Z; l_outstanding : Z; l_committing : Z; l_dev : Z;
  lh_n : Z; lh_block : list Z
}.
Record lst := Lst { lg : log; cache : bio }.

Definition log0 : log := Log 0 0 0 0 0 0 (replicate (Z.to_nat LOGSIZE) 0).

Definition with_cache (c : bio) (s : lst) : lst := Lst (lg s) c.
Definition with_log (f : log -> log) (s : lst) : lst := Lst (f (lg s)) (cache s).
Definition set_n (n : Z) (l : log) : log :=
  Log (l_start l) (l_size l) (l_outstanding l) (l_committing l) (l_dev l) n (lh_block l).
Definition set_lhblock (i : nat) (b : Z) (l : log) : log :=
  Log (l_start l) (l_size l) (l_outstanding l) (l_committing l) (l_dev l) (lh_n l) (<[i := b]> (lh_block l)).
Definition set_out (o : Z) (l : log) : log :=
  Log (l_start l) (l_size l) o (l_committing l) (l_dev l) (lh_n l) (lh_block l).
Definition set_comm (c : Z) (l : log) : log :=
  Log (l_start l) (l_size l) (l_outstanding l) c (l_dev l) (lh_n l) (lh_block l).

(** Offset of [block[i]] in [struct logheader]. *)
Definition lh_off (i : nat) : nat := (4 + 4 * i)%nat.
Definition nlogsize : nat := Z.to_nat LOGSIZE.
(** [sizeof(struct logheader)] *)
Definition LOGHEADERSIZE : Z := 4 + 4 * LOGSIZE.

Section Code.
Local Open Scope kernel_scope.

Definition cio {A} (m : M bio A) : M lst A := zoom cache with_cache m.
Definition lio : (log -> log) -> M lst unit := fun f => modify (with_log f).
Definition lget {A} (f : log -> A) : M lst A := gets (fun s => f (lg s)).

(** fs.c: read the superblock. *)
Definition readsb (dev : Z) : M bio superblock :=
  bp ← bread dev 1;
  d ← gets (bdata bp);
  brelse bp;;
  ret (Superblock (rd 4 0 d) (rd 4 4 d) (rd 4 8 d) (rd 4 12 d) (rd 4 16 d) (rd 4 20 d) (rd 4 24 d)).

Definition install_trans : M lst unit :=
  n ← lget lh_n;
  each (seq 0 (Z.to_nat n)) (fun tail =>
    l ← gets lg;
    lbuf ← cio (bread (l_dev l) (u32 (l_start l + Z.of_nat tail + 1)));
    dbuf ← cio (bread (l_dev l) (u32 (nthd 0 (lh_block l) tail)));
    d ← gets (fun s => bdata lbuf (cache s));
    cio (bset dbuf d);;
    cio (bwrite dbuf);;
    cio (brelse lbuf);;
    cio (brelse dbuf)).

(** A header that claims more than [LOGSIZE] blocks would overrun
    [log.lh.block]; that store is undefined behaviour. *)
Definition read_head : M lst unit :=
  l ← gets lg;
  b ← cio (bread (l_dev l) (u32 (l_start l)));
  d ← gets (fun s => bdata b (cache s));
  lio (set_n (i32 (rd 4 0 d)));;
  each (seq 0 (Z.to_nat (i32 (rd 4 0 d)))) (fun i =>
    if (nlogsize <=? i)%nat then panic "undefined: log.lh.block overrun"
    else lio (set_lhblock i (i32 (rd 4 (lh_off i) d))));;
  cio (brelse b).

Definition write_head : M lst unit :=
  l ← gets lg;
  b ← cio (bread (l_dev l) (u32 (l_start l)));
  d ← gets (fun s => bdata b (cache s));
  cio (bset b (wr 4 0 (lh_n l) d));;
  each (seq 0 (Z.to_nat (lh_n l))) (fun i =>
    d' ← gets (fun s => bdata b (cache s));
    cio (bset b (wr 4 (lh_off i) (nthd 0 (lh_block l) i) d')));;
  cio (bwrite b);;
  cio (brelse b).

Definition recover_from_log : M lst unit :=
  read_head;;
  install_trans;;
  lio (set_n 0);;
  write_head.

Definition initlog (dev : Z) : M lst unit :=
  if BSIZE <=? LOGHEADERSIZE then panic "initlog: too big logheader" else
  sb ← cio (readsb dev);
  lio (fun l => Log (i32 (sb_logstart sb)) (i32 (sb_nlog sb)) (l_outstanding l) (l_committing l)
                    dev (lh_n l) (lh_block l));;
  recover_from_log.

Definition begin_op : M lst unit :=
  l ← gets lg;
  if truth (l_committing l) then blocked "log"
  else if LOGSIZE <? lh_n l + (l_outstanding l + 1) * MAXOPBLOCKS then blocked "log"
  else lio (fun l => set_out (l_outstanding l + 1) l).

Definition write_log : M lst unit :=
  n ← lget lh_n;
  each (seq 0 (Z.to_nat n)) (fun tail =>
    l ← gets lg;
    to ← cio (bread (l_dev l) (u32 (l_start l + Z.of_nat tail + 1)));
    from ← cio (bread (l_dev l) (u32 (nthd 0 (lh_block l) tail)));
    d ← gets (fun s => bdata from (cache s));
    cio (bset to d);;
    cio (bwrite to);;
    cio (brelse from);;
    cio (brelse to)).

Definition commit : M lst unit :=
  n ← lget lh_n;
  if 0 <? n then
    write_log;;
    write_head;;
    install_trans;;
    lio (set_n 0);;
    write_head
  else ret tt.

Definition end_op : M lst unit :=
  lio (fun l => set_out (l_outstanding l - 1) l);;
  l ← gets lg;
  if truth (l_committing l) then panic "log.committing"
  else if l_outstanding l =? 0 then
    lio (set_comm 1);;
    commit;;
    lio (set_comm 0)
  else ret tt.

Definition log_write (b : nat) : M lst unit :=
  l ← gets lg;
  blockno ← gets (fun s => b_blockno (getbuf b (cache s)));
  if (LOGSIZE <=? lh_n l) || (l_size l - 1 <=? lh_n l) then panic "too big a transaction"
  else if l_outstanding l <? 1 then panic "log_write outside of trans"
  else
    let n := Z.to_nat (lh_n l) in
    let i := default n (find_idx (fun x => u32 x =? blockno) (take n (lh_block l))) in
    lio (set_lhblock i (i32 blockno));;
    (if (i =? n)%nat then lio (fun l => set_n (lh_n l + 1) l) else ret tt);;
    cio (mark_dirty b).
End Code.

(** ** Sequences of disk writes *)

Definition applyw (dk : list block) (ws : list (Z * block)) : list block :=
  foldl (fun d w => <[Z.to_nat w.1 := w.2]> d) dk ws.
Definition vapply (v : Z -> block) (ws : list (Z * block)) (b : Z) : block :=
  foldl (fun d w => if decide (b = w.1) then w.2 else d) (v b) ws.

(** [c'] is [c] after the writes [ws], on disk and in the view. *)
Record wrote (c c' : bio) (ws : list (Z * block)) : Prop := Wrote {
  wr_disk : disk c' = applyw (disk c) ws;
  wr_writes : writes c' = writes c ++ ws;
  wr_pid : curpid c' = curpid c;
  wr_view : forall b, 0 <= b -> view c' b = vapply (view c) ws b
}.

Lemma wrote_refl c : wrote c c [].
Proof. split; try done. by rewrite app_nil_r. Qed.

Lemma vapply_app v ws ws' b : vapply v (ws ++ ws') b = vapply (vapply v ws) ws' b.
Proof. unfold vapply. by rewrite foldl_app. Qed.

Lemma applyw_app dk ws ws' : applyw dk (ws ++ ws') = applyw (applyw dk ws) ws'.
Proof. unfold applyw. by rewrite foldl_app. Qed.

Lemma vapply_ext v v' ws b : v b = v' b -> vapply v ws b = vapply v' ws b.
Proof. unfold vapply. by intros ->. Qed.

Lemma wrote_trans c1 c2 c3 ws ws' : wrote c1 c2 ws -> wrote c2 c3 ws' -> wrote c1 c3 (ws ++ ws').
Proof.
  intros [H1 H2 H3 H4] [K1 K2 K3 K4]. split.
  - by rewrite K1, H1, applyw_app.
  - by rewrite K2, H2, app_assoc.
  - congruence.
  - intros b Hb. rewrite K4, vapply_app by done. apply vapply_ext. by apply H4.
Qed.

Lemma wrote_same c c' : same c c' -> wrote c c' [].
Proof. intros []. split; try done. by rewrite app_nil_r. Qed.

Lemma vapply_notin v ws b : Forall (fun w => w.1 <> b) ws -> vapply v ws b = v b.
Proof.
  unfold vapply. generalize (v b). induction ws as [|w ws IH]; intros d H; [done|].
  apply Forall_cons in H as [Hw H]. simpl. rewrite decide_False by congruence. by apply IH.
Qed.

(** With distinct targets each write is visible. *)
Lemma vapply_in v ws b d :
  NoDup (fst <$> ws) -> (b, d) ∈ ws -> vapply v ws b = d.
Proof.
  revert v. induction ws as [|[b' d'] ws IH]; intros v Hnd Hin; [by apply elem_of_nil in Hin|].
  cbn in Hnd. apply NoDup_cons in Hnd as [Hn Hnd].
  change ((b', d') :: ws) with ([(b', d')] ++ ws). rewrite vapply_app.
  apply elem_of_cons in Hin as [[= -> ->]|Hin]; [|by apply IH].
  rewrite vapply_notin; [by unfold vapply; simpl; rewrite decide_True|].
  apply Forall_forall. intros [b'' d''] Hw [= ->]. apply Hn, list_elem_of_fmap. by exists (b', d'').
Qed.

Lemma length_applyw dk ws : length (applyw dk ws) = length dk.
Proof.
  unfold applyw. revert dk. induction ws as [|w ws IH]; intros dk; simpl; [done|].
  by rewrite IH, length_insert.
Qed.

(** The disk follows the same equations as the view. *)
Lemma applyw_lookup dk ws b :
  0 <= b < Z.of_nat (length dk) -> Forall (fun w => 0 <= w.1) ws ->
  nthd zero_block (applyw dk ws) (Z.to_nat b) = vapply (fun b => nthd zero_block dk (Z.to_nat b)) ws b.
Proof.
  intros Hb. revert dk Hb. induction ws as [|[b' d] ws IH]; intros dk Hb Hws; [done|].
  apply Forall_cons in Hws as [Hb' Hws]. cbn in Hb'.
  change ((b', d) :: ws) with ([(b', d)] ++ ws). rewrite vapply_app, applyw_app.
  rewrite (IH (applyw dk [(b', d)])); [|by rewrite length_applyw|done].
  apply vapply_ext. unfold vapply, applyw. simpl. destruct (decide (b = b')) as [->|Hne].
  - rewrite nthd_insert_eq; [done|lia].
  - rewrite nthd_insert_ne; [done|lia].
Qed.

(** Outside the dirty set, with no buffer in hand, the view is the disk. *)
Lemma view_on_disk c D b :
  bio_rel c D [] -> b ∉ D -> 0 <= b < Z.of_nat (length (disk c)) ->
  view c b = nthd zero_block (disk c) (Z.to_nat b).
Proof.
  intros [Hinv HD HH] Hb Hr. unfold view. destruct (find_idx _ _) as [i|] eqn:Hf; [|done].
  apply find_idx_Some in Hf as [(x & Hx & Hm) _]. unfold is_block in Hm. b2p.
  unfold bdata. rewrite (getbuf_lookup _ _ _ Hx). symmetry. apply nthd_lookup.
  destruct (inv_buf _ Hinv _ _ Hx) as [_ [[? _]|(_ & Hfl & _ & Hl)]]; [lia|].
  destruct Hfl as [Hfl|Hfl]; [|destruct Hb; apply HD; by exists i, x].
  destruct Hl as [Hu|Hl].
  - pose proof (inv_coh _ Hinv _ _ Hx ltac:(done) Hu Hfl) as Hd. unfold on_disk in Hd. by subst b.
  - exfalso. assert (Hh : b ∈ []) by (apply HH, held_lookup; by exists i, x). by apply elem_of_nil in Hh.
Qed.

(** ** Copying one block to another place on disk *)

Lemma handle_inj c i j b d d' : bio_inv c -> handle c i b d -> handle c j b d' -> i = j.
Proof.
  intros Hinv (x & Hx & Hd & Hb & _) (y & Hy & Hd' & Hb' & _).
  eapply (inv_uniq _ Hinv); eauto. congruence.
Qed.

Lemma bread2_spec c D a b :
  bio_rel c D [] -> a <> b -> 0 <= a < Z.of_nat (length (disk c)) ->
  0 <= b < Z.of_nat (length (disk c)) -> (length D < nbuf)%nat ->
  b ∈ D \/ (length D + 1 < nbuf)%nat ->
  exists i j c1 c2, bread 1 a c = Ok i c1 /\ bread 1 b c1 = Ok j c2 /\
    bio_rel c2 D [b; a] /\ same c c2 /\ i <> j /\
    handle c2 i a (view c a) /\ handle c2 j b (view c b) /\ clean c2 i /\ clean c2 j.
Proof.
  intros Hrel Hab Ha Hb Hr1 Hr2.
  destruct (bread_spec c D [] a Hrel) as (i & c1 & E1 & Hrel1 & Hs1 & _ & Hh1 & Hc1);
    [by apply not_elem_of_nil|done|right; simpl; lia|].
  destruct (bread_spec c1 D [a] b Hrel1) as (j & c2 & E2 & Hrel2 & Hs2 & Hk2 & Hh2 & Hc2).
  - rewrite list_elem_of_singleton. congruence.
  - by rewrite (same_disk _ _ Hs1).
  - destruct Hr2 as [Hin|?]; [left|right; simpl; lia]. apply dirty_cached. by apply Hrel1.
  - destruct (Hk2 i a _ Hh1) as [Hh1' Hc1']. rewrite (same_view _ _ Hs1) in Hh2.
    exists i, j, c1, c2. split_and!; try done; [by eapply same_trans| |by apply Hc1'].
    intros ->. by destruct (handle_fun _ _ _ _ _ _ Hh1' Hh2).
Qed.

Lemma copy_block c D H i a da k t dt :
  bio_rel c D H -> (forall b, b ∈ H -> b = a \/ b = t) -> i <> k ->
  handle c i a da -> clean c i -> handle c k t dt ->
  exists c1 c2 c3 c4,
    bset k da c = Ok tt c1 /\ bwrite k c1 = Ok tt c2 /\ brelse i c2 = Ok tt c3 /\ brelse k c3 = Ok tt c4 /\
    bio_rel c4 (filter (fun b => b <> t) D) [] /\ wrote c c4 [(t, da)].
Proof.
  intros Hrel HH Hik Hi Hci Hk. pose proof (rel_inv _ _ _ Hrel) as Hinv.
  destruct (bset_spec _ _ _ _ _ _ da Hrel Hk (handle_len _ _ _ _ Hinv Hi))
    as (c1 & E1 & R1 & K1 & D1 & W1 & P1 & V1 & O1).
  destruct (O1 i Hik a da Hi) as [I1 C1].
  destruct (bwrite_spec _ _ _ _ _ _ R1 K1) as (c2 & E2 & R2 & O2 & Ck2 & P2 & D2 & W2 & V2).
  destruct (O2 i a da I1) as [I2 C2]. destruct (O2 k t da K1) as [K2 _].
  destruct (brelse_spec _ _ _ _ _ _ R2 I2 (C2 (C1 Hci))) as (c3 & E3 & R3 & S3 & O3).
  destruct (O3 k (not_eq_sym Hik) t da K2) as [K3 C3].
  destruct (brelse_spec _ _ _ _ _ _ R3 K3 (C3 Ck2)) as (c4 & E4 & R4 & S4 & _).
  exists c1, c2, c3, c4. split_and!; try done.
  - eapply bio_rel_ext; [exact R4|done|]. intros b. rewrite !list_elem_of_filter, elem_of_nil.
    split; [|done]. intros (? & ? & ?%HH). tauto.
  - assert (S : same c2 c4) by by eapply same_trans.
    split; simpl.
    + by rewrite (same_disk _ _ S), D2, D1.
    + by rewrite (same_writes _ _ S), W2, W1.
    + by rewrite (same_pid _ _ S), P2, P1.
    + intros b Hb. rewrite (same_view _ _ S), V2, V1 by done. done.
Qed.

(** ** Geometry *)

Definition in_log (l : log) (b : Z) : Prop := l_start l <= b < l_start l + l_size l.
Definition home (l : log) (nb : nat) (b : Z) : Prop :=
  0 <= b < Z.of_nat nb /\ b <> 1 /\ ~ in_log l b.

(** The log region lies inside the disk, after the superblock. *)
Record geometry (l : log) (nb : nat) : Prop := Geometry {
  g_dev : l_dev l = 1;
  g_start : 2 <= l_start l;
  g_size : 2 <= l_size l <= LOGSIZE;
  g_end : l_start l + l_size l <= Z.of_nat nb;
  g_max : Z.of_nat nb < 2 ^ 31;
  g_len : length (lh_block l) = nlogsize
}.

(** The in-memory header lists the blocks [L]. *)
Record lists (l : log) (nb : nat) (L : list Z) : Prop := Lists {
  ls_n : lh_n l = Z.of_nat (length L);
  ls_blocks : take (length L) (lh_block l) = L;
  ls_bound : Z.of_nat (length L) <= l_size l - 1;
  ls_nodup : NoDup L;
  ls_home : Forall (home l nb) L
}.

Lemma lists_nth l nb L t b :
  lists l nb L -> L !! t = Some b -> nthd 0 (lh_block l) t = b /\ home l nb b /\ (t < length L)%nat.
Proof.
  intros HL Hb. pose proof (lookup_lt_Some _ _ _ Hb) as Ht. split; [|split; [|done]].
  - apply nthd_lookup. rewrite <- (ls_blocks _ _ _ HL) in Hb.
    apply lookup_take_Some in Hb as [Hb _]. exact Hb.
  - exact (Forall_lookup_1 _ _ _ _ (ls_home _ _ _ HL) Hb).
Qed.

Lemma log_slot l nb L t :
  geometry l nb -> lists l nb L -> (t < length L)%nat ->
  let a := l_start l + Z.of_nat t + 1 in
  u32 a = a /\ 0 <= a < Z.of_nat nb /\ in_log l a /\ a <> l_start l.
Proof.
  intros Hg HL Ht a. destruct Hg, HL. unfold in_log, a. rewrite u32_small; lia.
Qed.

Lemma home_u32 l nb b : geometry l nb -> home l nb b -> u32 b = b.
Proof. intros Hg [Hb _]. destruct Hg. rewrite u32_small; lia. Qed.

(** ** Copying to the log and installing *)

Definition log_ws (start : Z) (v : Z -> block) (L : list Z) : list (Z * block) :=
  imap (fun t b => (start + Z.of_nat t + 1, v b)) L.
Definition home_ws (start : Z) (v : Z -> block) (L : list Z) : list (Z * block) :=
  imap (fun t b => (b, v (start + Z.of_nat t + 1))) L.

Lemma log_ws_lookup start v L t b :
  L !! t = Some b -> log_ws start v L !! t = Some (start + Z.of_nat t + 1, v b).
Proof. intros Hb. unfold log_ws. by rewrite list_lookup_imap, Hb. Qed.
Lemma home_ws_lookup start v L t b :
  L !! t = Some b -> home_ws start v L !! t = Some (b, v (start + Z.of_nat t + 1)).
Proof. intros Hb. unfold home_ws. by rewrite list_lookup_imap, Hb. Qed.

Lemma elem_log_ws start v L w :
  w ∈ log_ws start v L <-> exists t b, L !! t = Some b /\ w = (start + Z.of_nat t + 1, v b).
Proof.
  unfold log_ws. rewrite elem_of_lookup_imap. split; intros (t & b & H1 & H2); exists t, b; auto.
Qed.
Lemma elem_home_ws start v L w :
  w ∈ home_ws start v L <-> exists t b, L !! t = Some b /\ w = (b, v (start + Z.of_nat t + 1)).
Proof.
  unfold home_ws. rewrite elem_of_lookup_imap. split; intros (t & b & H1 & H2); exists t, b; auto.
Qed.

Lemma nbuf_val : nbuf = 30%nat.
Proof. done. Qed.

Definition never (_ : string) : Prop := False.

Lemma wp_cio {A} (m : M bio A) Q E s a c :
  m (cache s) = Ok a c -> Q a (with_cache c s) -> wp (cio m) Q E s.
Proof. intros Hm HQ. apply wp_zoom. eapply wp_eq; [exact Hm|exact HQ]. Qed.

(** Run one cache operation whose evaluation is known. *)
Ltac cio_step H := apply wp_bind; eapply wp_cio; [exact H|]; cbv beta; cbn [cache lg with_cache].

Definition nblocks (s : lst) : nat := length (disk (cache s)).

Lemma wrote_nblocks c c' ws : wrote c c' ws -> length (disk c') = length (disk c).
Proof. intros [-> _ _ _]. apply length_applyw. Qed.

(** The body of both copying loops: read the log slot [a] and the home block
    [b], copy one way and write the destination. *)
Lemma transfer c D a b (dst_log : bool) :
  bio_rel c D [] -> a <> b -> 0 <= a < Z.of_nat (length (disk c)) ->
  0 <= b < Z.of_nat (length (disk c)) -> (length D < nbuf)%nat ->
  b ∈ D \/ (length D + 1 < nbuf)%nat ->
  exists i j c1 c2 c3 c4 c5 c6,
    let src := if dst_log then j else i in let dst := if dst_log then i else j in
    let d := view c (if dst_log then b else a) in let t := if dst_log then a else b in
    bread 1 a c = Ok i c1 /\ bread 1 b c1 = Ok j c2 /\ bdata src c2 = d /\
    bset dst d c2 = Ok tt c3 /\ bwrite dst c3 = Ok tt c4 /\
    brelse src c4 = Ok tt c5 /\ brelse dst c5 = Ok tt c6 /\
    bio_rel c6 (filter (fun b' => b' <> t) D) [] /\ wrote c c6 [(t, d)].
Proof.
  intros Hrel Hab Ha Hb Hr1 Hr2.
  destruct (bread2_spec c D a b Hrel Hab Ha Hb Hr1 Hr2)
    as (i & j & c1 & c2 & E1 & E2 & R2 & S2 & Hij & Hi & Hj & Ci & Cj).
  assert (HH : forall b', b' ∈ [b; a] -> b' = a \/ b' = b).
  { intros b'. rewrite elem_of_cons, list_elem_of_singleton. tauto. }
  destruct dst_log.
  - destruct (copy_block c2 D _ j b _ i a _ R2 ltac:(intros b' ?%HH; tauto) ltac:(congruence) Hj Cj Hi)
      as (c3 & c4 & c5 & c6 & E3 & E4 & E5 & E6 & R6 & W6).
    exists i, j, c1, c2, c3, c4, c5, c6. cbn zeta. split_and!; try done.
    + by eapply handle_bdata.
    + exact (wrote_trans _ _ _ _ _ (wrote_same _ _ S2) W6).
  - destruct (copy_block c2 D _ i a _ j b _ R2 HH Hij Hi Ci Hj)
      as (c3 & c4 & c5 & c6 & E3 & E4 & E5 & E6 & R6 & W6).
    exists i, j, c1, c2, c3, c4, c5, c6. cbn zeta. split_and!; try done.
    + by eapply handle_bdata.
    + exact (wrote_trans _ _ _ _ _ (wrote_same _ _ S2) W6).
Qed.

Lemma lists_room l nb L : geometry l nb -> lists l nb L -> (length L < nbuf)%nat.
Proof. intros Hg HL. destruct Hg, HL. unfold nbuf, NBUF, LOGSIZE in *. lia. Qed.

(** A prefix of the log writes touches no home block, and no later slot. *)
Lemma take_log_ws_home l nb v L t b :
  geometry l nb -> lists l nb L -> home l nb b ->
  Forall (fun w => w.1 <> b) (take t (log_ws (l_start l) v L)).
Proof.
  intros Hg HL (_ & _ & Hn). apply Forall_take, Forall_forall.
  intros w (k & b' & Hk & ->)%elem_log_ws <-. apply Hn.
  apply lookup_lt_Some in Hk. by apply (log_slot _ _ _ k Hg HL Hk).
Qed.

Lemma write_log_spec s L :
  geometry (lg s) (nblocks s) -> lists (lg s) (nblocks s) L -> bio_rel (cache s) L [] ->
  wp write_log (fun _ s' => lg s' = lg s /\ bio_rel (cache s') L [] /\
       wrote (cache s) (cache s') (log_ws (l_start (lg s)) (view (cache s)) L)) never s.
Proof.
  intros Hg HL Hrel. set (ws := log_ws _ _ _). unfold write_log, lget. wp_step. wp_step.
  rewrite (ls_n _ _ _ HL), Nat2Z.id. eapply wp_conseq.
  - apply (wp_each_seq _ (fun t s' => lg s' = lg s /\ bio_rel (cache s') L [] /\
             wrote (cache s) (cache s') (take t ws))).
    { split_and!; try done. rewrite take_0. apply wrote_refl. }
    intros t s' Ht (Hlg & Hrel' & Hw). wp_step. wp_step. rewrite Hlg.
    destruct (lookup_lt_is_Some_2 L t Ht) as [b Hb].
    destruct (lists_nth _ _ _ _ _ HL Hb) as (-> & Hh & _).
    destruct (log_slot _ _ _ t Hg HL Ht) as (-> & Ha & Hia & _).
    rewrite (home_u32 _ _ _ Hg Hh), (g_dev _ _ Hg). set (a := _ + 1) in *.
    pose proof (wrote_nblocks _ _ _ Hw) as Hnb. fold (nblocks s) in Hnb.
    destruct (transfer (cache s') L a b true Hrel')
      as (i & j & c1 & c2 & c3 & c4 & c5 & c6 & E1 & E2 & Hd & E3 & E4 & E5 & E6 & R6 & W6).
    { intros ->. by destruct Hh as (_ & _ & Hn). }
    { by rewrite Hnb. }
    { rewrite Hnb. apply Hh. }
    { by eapply lists_room. }
    { left. by eapply list_elem_of_lookup_2. }
    cio_step E1. cio_step E2. wp_step. wp_step. cbn [cache with_cache]. rewrite Hd.
    cio_step E3. cio_step E4. cio_step E5. eapply wp_cio; [exact E6|]. cbn [cache lg with_cache].
    split_and!; [done| |].
    + eapply bio_rel_ext; [exact R6| |done]. intros b'. rewrite list_elem_of_filter.
      split; [tauto|]. intros Hin. split; [|done]. intros ->.
      destruct (proj1 (Forall_forall _ _) (ls_home _ _ _ HL) a Hin) as (_ & _ & Hn). by apply Hn.
    + rewrite (take_S_r _ _ (a, view (cache s) b)) by by apply log_ws_lookup.
      eapply wrote_trans; [exact Hw|]. cbv iota in W6.
      rewrite (wr_view _ _ _ Hw b), vapply_notin in W6; [done| |apply Hh].
      by eapply take_log_ws_home.
  - cbv beta. intros _ s' (? & ? & Hw). split_and!; try done.
    rewrite firstn_all2 in Hw; [done|]. unfold ws, log_ws. rewrite length_imap. lia.
Qed.

Lemma take_home_ws_slot l nb v L t a :
  lists l nb L -> in_log l a -> Forall (fun w => w.1 <> a) (take t (home_ws (l_start l) v L)).
Proof.
  intros HL Ha. apply Forall_take, Forall_forall. intros w (k & b & Hk & ->)%elem_home_ws <-.
  by destruct (Forall_lookup_1 _ _ _ _ (ls_home _ _ _ HL) Hk) as (_ & _ & Hn).
Qed.

Lemma install_spec s L D :
  geometry (lg s) (nblocks s) -> lists (lg s) (nblocks s) L -> bio_rel (cache s) D [] ->
  (length D < nbuf)%nat -> (forall b, b ∈ L -> b ∈ D) \/ (length D + 1 < nbuf)%nat ->
  wp install_trans (fun _ s' => lg s' = lg s /\ bio_rel (cache s') (filter (fun b => b ∉ L) D) [] /\
       wrote (cache s) (cache s') (home_ws (l_start (lg s)) (view (cache s)) L)) never s.
Proof.
  intros Hg HL Hrel Hr1 Hr2. set (ws := home_ws _ _ _). unfold install_trans, lget. wp_step. wp_step.
  rewrite (ls_n _ _ _ HL), Nat2Z.id. eapply wp_conseq.
  - apply (wp_each_seq _ (fun t s' => lg s' = lg s /\
             bio_rel (cache s') (filter (fun b => b ∉ take t L) D) [] /\
             wrote (cache s) (cache s') (take t ws))).
    { split_and!; [done| |rewrite take_0; apply wrote_refl].
      eapply bio_rel_ext; [exact Hrel| |done]. intros b. rewrite list_elem_of_filter, take_0, elem_of_nil. tauto. }
    intros t s' Ht (Hlg & Hrel' & Hw). wp_step. wp_step. rewrite Hlg.
    destruct (lookup_lt_is_Some_2 L t Ht) as [b Hb].
    destruct (lists_nth _ _ _ _ _ HL Hb) as (-> & Hh & _).
    destruct (log_slot _ _ _ t Hg HL Ht) as (-> & Ha & Hia & _).
    rewrite (home_u32 _ _ _ Hg Hh), (g_dev _ _ Hg). set (a := _ + 1) in *.
    pose proof (wrote_nblocks _ _ _ Hw) as Hnb. fold (nblocks s) in Hnb.
    pose proof (length_filter (fun b => b ∉ take t L) D) as Hlen.
    destruct (transfer (cache s') _ a b false Hrel')
      as (i & j & c1 & c2 & c3 & c4 & c5 & c6 & E1 & E2 & Hd & E3 & E4 & E5 & E6 & R6 & W6).
    { intros ->. by destruct Hh as (_ & _ & Hn). }
    { by rewrite Hnb. }
    { rewrite Hnb. apply Hh. }
    { lia. }
    { destruct Hr2 as [Hr2|?]; [left|right; lia]. apply list_elem_of_filter.
      split; [|apply Hr2; by eapply list_elem_of_lookup_2].
      intros (k & Hk & Hlt)%elem_of_take. pose proof (NoDup_lookup _ _ _ _ (ls_nodup _ _ _ HL) Hk Hb). lia. }
    cio_step E1. cio_step E2. wp_step. wp_step. cbn [cache with_cache]. rewrite Hd.
    cio_step E3. cio_step E4. cio_step E5. eapply wp_cio; [exact E6|]. cbn [cache lg with_cache].
    split_and!; [done| |].
    + eapply bio_rel_ext; [exact R6| |done]. intros b'. rewrite !list_elem_of_filter.
      cbn [Nat.add]. rewrite (take_S_r _ _ _ Hb), elem_of_app, list_elem_of_singleton. tauto.
    + rewrite (take_S_r _ _ (b, view (cache s) a)) by by apply home_ws_lookup.
      eapply wrote_trans; [exact Hw|]. cbv iota in W6.
      rewrite (wr_view _ _ _ Hw a), vapply_notin in W6; [done| |lia].
      by eapply take_home_ws_slot.
  - cbv beta. intros _ s' (? & Hr & Hw). rewrite firstn_all in Hr. split_and!; try done.
    rewrite firstn_all2 in Hw; [done|]. unfold ws, home_ws. rewrite length_imap. lia.
Qed.

(** ** The header *)

(** Store the first [n] block numbers after the count. *)
Definition enc_blocks (bl : list Z) (n : nat) (d : block) : block :=
  foldl (fun d i => wr 4 (lh_off i) (nthd 0 bl i) d) d (seq 0 n).
Definition enc_head (n : Z) (bl : list Z) (d : block) : block :=
  enc_blocks bl (Z.to_nat n) (wr 4 0 n d).

Lemma enc_blocks_S bl n d :
  enc_blocks bl (1 + n) d = wr 4 (lh_off n) (nthd 0 bl n) (enc_blocks bl n d).
Proof. unfold enc_blocks. by rewrite seq_S, foldl_app. Qed.

(** The header occupies the first 124 bytes. *)
Lemma lh_off_fit i : (i < nlogsize)%nat -> (lh_off i + 4 <= 124 <= bsize)%nat.
Proof. rewrite bsize_nat. unfold lh_off, nlogsize, LOGSIZE, MAXOPBLOCKS. lia. Qed.

Lemma length_enc_blocks bl n d :
  (n <= nlogsize)%nat -> length d = bsize -> length (enc_blocks bl n d) = bsize.
Proof.
  intros Hn Hd. induction n as [|n IH]; [done|]. rewrite enc_blocks_S.
  pose proof (lh_off_fit n ltac:(lia)). rewrite length_wr; rewrite IH; lia.
Qed.

Lemma length_enc_head n bl d :
  n <= LOGSIZE -> length d = bsize -> length (enc_head n bl d) = bsize.
Proof.
  intros Hn Hd. apply length_enc_blocks; [unfold nlogsize; lia|].
  rewrite length_wr; [done|]. rewrite Hd, bsize_nat. lia.
Qed.

Lemma enc_blocks_rd_n bl n d :
  (n <= nlogsize)%nat -> length d = bsize -> rd 4 0 (enc_blocks bl n d) = rd 4 0 d.
Proof.
  intros Hn Hd. induction n as [|n IH]; [done|]. rewrite enc_blocks_S.
  pose proof (lh_off_fit n ltac:(lia)). rewrite rd_wr_disj; [apply IH; lia| |unfold lh_off; lia].
  rewrite length_enc_blocks; lia.
Qed.

Lemma enc_blocks_rd bl n d i :
  (i < n <= nlogsize)%nat -> length d = bsize ->
  rd 4 (lh_off i) (enc_blocks bl n d) = u32 (nthd 0 bl i).
Proof.
  intros Hi Hd. induction n as [|n IH]; [lia|]. rewrite enc_blocks_S.
  pose proof (lh_off_fit n ltac:(lia)). destruct (decide (i = n)) as [->|Hne].
  - rewrite rd_wr_same; [done|]. rewrite length_enc_blocks; lia.
  - rewrite rd_wr_disj; [apply IH; lia| |unfold lh_off; lia]. rewrite length_enc_blocks; lia.
Qed.

Lemma enc_head_n n bl d :
  n <= LOGSIZE -> length d = bsize -> rd 4 0 (enc_head n bl d) = u32 n.
Proof.
  intros Hn Hd. pose proof bsize_nat. unfold enc_head.
  rewrite enc_blocks_rd_n; [|unfold nlogsize; lia|rewrite length_wr; lia].
  rewrite rd_wr_same; [done|lia].
Qed.

Lemma enc_head_block n bl d i :
  Z.of_nat i < n -> n <= LOGSIZE -> length d = bsize ->
  rd 4 (lh_off i) (enc_head n bl d) = u32 (nthd 0 bl i).
Proof.
  intros Hi Hn Hd. pose proof bsize_nat. unfold enc_head.
  rewrite enc_blocks_rd; [done|unfold nlogsize; lia|rewrite length_wr; lia].
Qed.

Lemma write_head_spec s D :
  geometry (lg s) (nblocks s) -> lh_n (lg s) <= LOGSIZE -> bio_rel (cache s) D [] ->
  l_start (lg s) ∉ D -> (length D < nbuf)%nat ->
  wp write_head (fun _ s' => lg s' = lg s /\ bio_rel (cache s') D [] /\
       wrote (cache s) (cache s')
         [(l_start (lg s), enc_head (lh_n (lg s)) (lh_block (lg s)) (view (cache s) (l_start (lg s))))])
     never s.
Proof.
  intros Hg Hn Hrel Hst Hroom. unfold write_head. wp_step. wp_step.
  set (st := l_start (lg s)) in *. pose proof Hg as [Hdev Hs Hsz Hend Hmax _]. fold st in Hs, Hend.
  rewrite Hdev, u32_small by lia.
  destruct (bread_spec (cache s) D [] st Hrel) as (i & c1 & E1 & R1 & S1 & _ & H1 & C1);
    [by apply not_elem_of_nil|unfold nblocks in *; lia|right; simpl; lia|].
  pose proof (view_len _ st (rel_inv _ _ _ Hrel) ltac:(unfold nblocks in *; lia)) as Hvl.
  pose proof bsize_nat as Hbs.
  cio_step E1. wp_step. wp_step. cbn [cache with_cache]. rewrite (handle_bdata _ _ _ _ H1).
  set (hd := view (cache s) st) in *.
  destruct (bset_spec c1 D [st] i st hd (wr 4 0 (lh_n (lg s)) hd) R1 H1) as (c2 & E2 & R2 & H2 & D2 & W2 & P2 & V2 & _).
  { rewrite length_wr; lia. }
  cio_step E2. wp_step. eapply wp_conseq.
  - apply (wp_each_seq _ (fun t s' => lg s' = lg s /\ exists c, cache s' = c /\ bio_rel c D [st] /\
             handle c i st (enc_blocks (lh_block (lg s)) t (wr 4 0 (lh_n (lg s)) hd)) /\
             disk c = disk (cache s) /\ writes c = writes (cache s) /\ curpid c = curpid (cache s) /\
             forall b, b <> st -> view c b = view (cache s) b)).
    { split; [done|]. exists c2. split_and!; [done|exact R2|exact H2|..].
      - by rewrite D2, (same_disk _ _ S1).
      - by rewrite W2, (same_writes _ _ S1).
      - by rewrite P2, (same_pid _ _ S1).
      - intros b Hb. by rewrite V2, decide_False, (same_view _ _ S1). }
    intros t s' Ht (Hlg & c & Hc & R & Hh & Hd & Hw & Hp & Hv). wp_step. wp_step. rewrite Hc.
    rewrite (handle_bdata _ _ _ _ Hh).
    assert (Htn : (1 + t <= nlogsize)%nat) by (unfold nlogsize; lia).
    destruct (bset_spec c D [st] i st _ (enc_blocks (lh_block (lg s)) (1 + t) (wr 4 0 (lh_n (lg s)) hd)) R Hh)
      as (c' & E' & R' & H' & D' & W' & P' & V' & _).
    { apply length_enc_blocks; [done|]. rewrite length_wr; lia. }
    rewrite enc_blocks_S in E'. eapply wp_cio; [by rewrite Hc; exact E'|]. cbn [cache lg with_cache].
    split; [done|]. exists c'. split_and!; [done|exact R'|exact H'|congruence..|].
    intros b Hb. by rewrite V', decide_False, Hv.
  - cbv beta. intros _ s' (Hlg & c & Hc & R & Hh & Hd & Hw & Hp & Hv).
    destruct (bwrite_spec _ _ _ _ _ _ R Hh) as (c3 & E3 & R3 & O3 & C3 & P3 & D3 & W3 & V3).
    destruct (O3 i _ _ Hh) as [H3 _].
    destruct (brelse_spec _ _ _ _ _ _ R3 H3 C3) as (c4 & E4 & R4 & S4 & _).
    rewrite <- Hc in E3. cio_step E3. eapply wp_cio; [exact E4|]. cbn [cache lg with_cache].
    split_and!; [done| |split].
    + eapply bio_rel_ext; [exact R4| |]; intros b; rewrite list_elem_of_filter; [|rewrite list_elem_of_singleton, elem_of_nil; tauto].
      split; [tauto|]. intros Hin. split; [|done]. intros ->. exact (Hst Hin).
    + by rewrite (same_disk _ _ S4), D3, Hd.
    + by rewrite (same_writes _ _ S4), W3, Hw.
    + by rewrite (same_pid _ _ S4), P3, Hp.
    + intros b Hb. rewrite (same_view _ _ S4), V3 by done. unfold vapply. simpl.
      case_decide as Hbs'; [subst b|by apply Hv]. by eapply handle_view; [apply R|].
Qed.

(** What [read_head] finds in a header block. *)
Definition dec_n (d : block) : Z := i32 (rd 4 0 d).
Definition dec_blocks (d : block) : list Z :=
  (fun i => i32 (rd 4 (lh_off i) d)) <$> seq 0 (Z.to_nat (dec_n d)).

Lemma read_head_spec s :
  geometry (lg s) (nblocks s) -> bio_rel (cache s) [] [] ->
  let d := view (cache s) (l_start (lg s)) in
  0 <= dec_n d <= LOGSIZE ->
  wp read_head (fun _ s' => bio_rel (cache s') [] [] /\ same (cache s) (cache s') /\
       exists bl, lg s' = Log (l_start (lg s)) (l_size (lg s)) (l_outstanding (lg s))
                              (l_committing (lg s)) 1 (dec_n d) bl /\
         length bl = nlogsize /\ take (length (dec_blocks d)) bl = dec_blocks d) never s.
Proof.
  intros Hg Hrel d Hn. unfold read_head. wp_step. wp_step.
  set (st := l_start (lg s)) in *. pose proof Hg as [Hdev Hs Hsz Hend Hmax Hlen]. fold st in Hs, Hend.
  rewrite Hdev, u32_small by lia.
  destruct (bread_spec (cache s) [] [] st Hrel) as (i & c1 & E1 & R1 & S1 & _ & H1 & C1);
    [by apply not_elem_of_nil|unfold nblocks in *; lia|right; rewrite nbuf_val; simpl; lia|].
  cio_step E1. wp_step. wp_step. cbn [cache with_cache]. rewrite (handle_bdata _ _ _ _ H1). fold d.
  wp_step. unfold lio at 1. wp_step. wp_step. fold (dec_n d). eapply wp_conseq.
  - apply (wp_each_seq _ (fun t s' => cache s' = c1 /\
       exists bl, lg s' = Log (l_start (lg s)) (l_size (lg s)) (l_outstanding (lg s))
                              (l_committing (lg s)) 1 (dec_n d) bl /\
         length bl = nlogsize /\ take t bl = (fun i => i32 (rd 4 (lh_off i) d)) <$> seq 0 t)).
    { split; [done|]. exists (lh_block (lg s)). split; [|done]. unfold with_log, set_n. cbn [lg with_cache cache]. by rewrite <- Hdev. }
    intros t s' Ht (Hc & bl & Hlg & Hbl & Htk).
    assert (t < nlogsize)%nat by (unfold nlogsize; lia).
    rewrite (proj2 (Nat.leb_gt _ _)) by done. unfold lio. wp_step. cbn [cache lg with_log].
    split; [done|]. exists (<[t := i32 (rd 4 (lh_off t) d)]> bl). rewrite Hlg. split; [done|].
    rewrite length_insert. split; [done|].
    rewrite (take_S_r _ _ (i32 (rd 4 (lh_off t) d))) by (apply list_lookup_insert_eq; lia).
    rewrite take_insert_ge by lia. rewrite Htk.
    rewrite (seq_S t 0 : seq 0 (1 + t) = _), fmap_app. done.
  - cbv beta. intros _ s' (Hc & bl & Hlg & Hbl & Htk).
    destruct (brelse_spec _ _ _ _ _ _ R1 H1 C1) as (c2 & E2 & R2 & S2 & _).
    rewrite <- Hc in E2. eapply wp_cio; [exact E2|]. cbn [cache lg with_cache].
    split_and!; [|by eapply same_trans|].
    + eapply bio_rel_ext; [exact R2|done|]. intros b.
      rewrite list_elem_of_filter, list_elem_of_singleton, elem_of_nil. tauto.
    + exists bl. split_and!; try done. unfold dec_blocks. by rewrite length_fmap, length_seq.
Qed.

(** ** Transactions *)

Definition dblock (c : bio) (b : Z) : block := nthd zero_block (disk c) (Z.to_nat b).

(** The superblock on disk describes this log. *)
Definition sb_ok (l : log) (d : block) : Prop := rd 4 16 d = l_start l /\ rd 4 12 d = l_size l.

Record log_rel (s : lst) (L H : list Z) : Prop := LogRel {
  lr_geom : geometry (lg s) (nblocks s);
  lr_lists : lists (lg s) (nblocks s) L;
  lr_bio : bio_rel (cache s) L H;
  lr_clear : dec_n (dblock (cache s) (l_start (lg s))) = 0;
  lr_sb : sb_ok (lg s) (dblock (cache s) 1)
}.

(** The writes of a commit of the blocks [L], whose contents [v] gives. *)
Definition commit_ws (l : log) (v : Z -> block) (L : list Z) : list (Z * block) :=
  let st := l_start l in
  let h1 := enc_head (lh_n l) (lh_block l) (v st) in
  log_ws st v L ++ [(st, h1)] ++ ((fun b => (b, v b)) <$> L) ++ [(st, enc_head 0 (lh_block l) h1)].

Lemma home_ws_logged st v v' L :
  (forall t b, L !! t = Some b -> v' (st + Z.of_nat t + 1) = v b) ->
  home_ws st v' L = (fun b => (b, v b)) <$> L.
Proof.
  intros Hv. apply list_eq. intros t. unfold home_ws. rewrite list_lookup_imap, list_lookup_fmap.
  destruct (L !! t) as [b|] eqn:Hb; [|done]. simpl. by rewrite (Hv t b Hb).
Qed.

Lemma log_ws_NoDup st v L : NoDup ((log_ws st v L).*1).
Proof.
  apply NoDup_alt. intros i j x. unfold log_ws. rewrite !list_lookup_fmap, !list_lookup_imap.
  destruct (L !! i), (L !! j); simpl; try done. intros [= <-] [= Hij]. lia.
Qed.

(** After the log copy, the slot of block [t] holds its contents. *)
Lemma vapply_log_ws st v L t b :
  L !! t = Some b -> vapply v (log_ws st v L) (st + Z.of_nat t + 1) = v b.
Proof.
  intros Hb. apply vapply_in; [apply log_ws_NoDup|]. apply elem_log_ws. by exists t, b.
Qed.

Lemma log_ws_not l nb v L b :
  geometry l nb -> lists l nb L -> (b = l_start l \/ b = 1) ->
  Forall (fun w => w.1 <> b) (log_ws (l_start l) v L).
Proof.
  intros Hg HL Hb. apply Forall_forall. intros w (t & b' & Ht & ->)%elem_log_ws. simpl.
  destruct Hg. lia.
Qed.

Lemma list_not_start l nb L : geometry l nb -> lists l nb L -> (l_start l ∉ L) /\ (1 ∉ L).
Proof.
  intros Hg HL. split; intros Hin;
    destruct (proj1 (Forall_forall _ _) (ls_home _ _ _ HL) _ Hin) as (_ & H1 & H2); [|done].
  apply H2. unfold in_log. destruct Hg. lia.
Qed.

Lemma set_n_geometry l nb n : geometry l nb -> geometry (set_n n l) nb.
Proof. by intros []. Qed.
Lemma lists_nil l nb : geometry l nb -> lists (set_n 0 l) nb [].
Proof. intros []. split; simpl; try done; [lia|constructor]. Qed.

Lemma dblock_wrote c c' ws b :
  wrote c c' ws -> 0 <= b < Z.of_nat (length (disk c)) -> Forall (fun w => 0 <= w.1) ws ->
  dblock c' b = vapply (dblock c) ws b.
Proof. intros Hw Hb Hws. unfold dblock at 1. rewrite (wr_disk _ _ _ Hw). by apply applyw_lookup. Qed.

(** The three phases of a commit, in order: log, header, home. *)
Lemma commit_phases s L :
  log_rel s L [] -> L <> [] ->
  wp commit (fun _ s' => lg s' = set_n 0 (lg s) /\ bio_rel (cache s') [] [] /\
       wrote (cache s) (cache s') (commit_ws (lg s) (view (cache s)) L)) never s.
Proof.
  intros Hr Hne. pose proof Hr as [Hg HL Hrel _ _].
  pose proof (lists_room _ _ _ Hg HL) as Hroom. destruct (list_not_start _ _ _ Hg HL) as [Hst _].
  assert (Hn : lh_n (lg s) <= LOGSIZE).
  { rewrite (ls_n _ _ _ HL). pose proof (ls_bound _ _ _ HL). pose proof (g_size _ _ Hg). lia. }
  unfold commit, lget. wp_step. wp_step. destruct (0 <? lh_n (lg s)) eqn:E.
  2:{ b2p. rewrite (ls_n _ _ _ HL) in E. destruct L; [done|]. simpl in E. lia. }
  wp_step. eapply wp_conseq; [by apply write_log_spec|]. cbv beta. intros _ s1 (Hl1 & R1 & W1).
  pose proof (wrote_nblocks _ _ _ W1 : nblocks s1 = nblocks s) as N1.
  wp_step. eapply wp_conseq; [apply (write_head_spec s1 L); try congruence; by rewrite ?Hl1, ?N1|].
  cbv beta. intros _ s2 (Hl2 & R2 & W2). rewrite Hl1 in *.
  pose proof (wrote_nblocks _ _ _ W2 : nblocks s2 = nblocks s1) as N2.
  rewrite (wr_view _ _ _ W1), vapply_notin in W2;
    [|eapply log_ws_not; eauto|pose proof (g_start _ _ Hg); lia].
  wp_step. eapply wp_conseq; [apply (install_spec s2 L L); rewrite ?Hl2, ?N2, ?N1; by auto|].
  cbv beta. intros _ s3 (Hl3 & R3 & W3). rewrite Hl2 in *.
  pose proof (wrote_nblocks _ _ _ W3 : nblocks s3 = nblocks s2) as N3.
  pose proof (wrote_trans _ _ _ _ _ W1 W2) as W12.
  rewrite (home_ws_logged _ (view (cache s))) in W3.
  2:{ intros t b Ht. pose proof (lookup_lt_Some _ _ _ Ht) as Hlt.
      destruct (log_slot _ _ _ t Hg HL Hlt) as (_ & Ha & _ & Hns).
      rewrite (wr_view _ _ _ W12), vapply_app by lia. rewrite vapply_notin; [by apply vapply_log_ws|].
      repeat constructor. simpl. congruence. }
  wp_step. unfold lio. wp_step. eapply wp_conseq.
  { apply (write_head_spec _ []); cbn [lg cache with_log set_n lh_n l_start].
    - rewrite Hl3. unfold nblocks in *. cbn. rewrite N3, N2, N1. by apply set_n_geometry.
    - done.
    - eapply bio_rel_ext; [exact R3| |done]. intros b. rewrite list_elem_of_filter, elem_of_nil. tauto.
    - apply not_elem_of_nil.
    - rewrite nbuf_val. simpl. lia. }
  cbv beta. cbn [lg cache with_log set_n lh_n l_start lh_block]. rewrite Hl3.
  intros _ s4 (Hl4 & R4 & W4). split_and!; [done|done|].
  pose proof (wrote_trans _ _ _ _ _ W12 W3) as W123. rewrite (wr_view _ _ _ W123), vapply_app in W4
    by (pose proof (g_start _ _ Hg); lia).
  rewrite vapply_notin in W4.
  2:{ apply Forall_fmap, Forall_forall. intros b Hb. simpl. intros ->. by apply Hst. }
  rewrite vapply_app in W4. unfold vapply at 1 in W4. simpl in W4. rewrite decide_True in W4 by done.
  pose proof (wrote_trans _ _ _ _ _ W123 W4) as W. unfold commit_ws. by rewrite <- !app_assoc in W.
Qed.

Lemma commit_ws_targets l nb v L w :
  geometry l nb -> lists l nb L -> w ∈ commit_ws l v L -> in_log l w.1 \/ w.1 ∈ L.
Proof.
  intros Hg HL. unfold commit_ws. rewrite !elem_of_app, !list_elem_of_singleton, list_elem_of_fmap.
  pose proof (g_size _ _ Hg). intros [Hw|[->|[(b & -> & Hb)| ->]]].
  - left. apply elem_log_ws in Hw as (t & b & Ht & ->). apply lookup_lt_Some in Ht.
    by apply (log_slot _ _ _ t Hg HL Ht).
  - left. unfold in_log. simpl. lia.
  - by right.
  - left. unfold in_log. simpl. lia.
Qed.

Lemma commit_ws_pos l nb v L :
  geometry l nb -> lists l nb L -> Forall (fun w => 0 <= w.1) (commit_ws l v L).
Proof.
  intros Hg HL. apply Forall_forall. intros w Hw.
  destruct (commit_ws_targets _ _ _ _ _ Hg HL Hw) as [Hi|Hi].
  - unfold in_log in Hi. destruct Hg. lia.
  - apply (proj1 (Forall_forall _ _) (ls_home _ _ _ HL) _ Hi).
Qed.

Lemma commit_ws_not_1 l nb v L :
  geometry l nb -> lists l nb L -> Forall (fun w => w.1 <> 1) (commit_ws l v L).
Proof.
  intros Hg HL. apply Forall_forall. intros w Hw Hw1.
  destruct (commit_ws_targets _ _ _ _ _ Hg HL Hw) as [Hi|Hi]; rewrite Hw1 in Hi.
  - unfold in_log in Hi. destruct Hg. lia.
  - by apply (list_not_start _ _ _ Hg HL).
Qed.

(** The last write clears the header. *)
Lemma commit_ws_start l v L b0 :
  vapply b0 (commit_ws l v L) (l_start l) = enc_head 0 (lh_block l) (enc_head (lh_n l) (lh_block l) (v (l_start l))).
Proof.
  unfold commit_ws. rewrite !app_assoc, vapply_app. unfold vapply at 1. simpl. by rewrite decide_True.
Qed.

(** A commit changes no block as the kernel sees it. *)
Lemma commit_ws_home l nb v L b :
  geometry l nb -> lists l nb L -> home l nb b -> vapply v (commit_ws l v L) b = v b.
Proof.
  intros Hg HL Hb. unfold commit_ws. pose proof Hb as (_ & _ & Hn).
  assert (Hst : b <> l_start l) by (intros ->; apply Hn; unfold in_log; destruct Hg; lia).
  rewrite !vapply_app. rewrite vapply_notin by (repeat constructor; simpl; congruence).
  assert (Hlog : forall v', vapply v' (log_ws (l_start l) v L) b = v' b).
  { intros v'. apply vapply_notin. pose proof (take_log_ws_home l nb v L (length L) b Hg HL Hb) as Ht.
    rewrite firstn_all2 in Ht; [done|]. unfold log_ws. by rewrite length_imap. }
  destruct (decide (b ∈ L)) as [Hin|Hin].
  - apply vapply_in; [|apply list_elem_of_fmap; by exists b].
    rewrite <- list_fmap_compose. rewrite (list_fmap_ext _ id); [|done].
    rewrite list_fmap_id. apply HL.
  - rewrite vapply_notin by (apply Forall_fmap, Forall_forall; intros ? ? <-; done).
    rewrite vapply_notin by (repeat constructor; simpl; congruence). apply Hlog.
Qed.

Lemma dec_enc_0 bl d : length d = bsize -> dec_n (enc_head 0 bl d) = 0.
Proof. intros Hd. unfold dec_n. by rewrite enc_head_n. Qed.

Lemma commit_spec s L :
  log_rel s L [] ->
  wp commit (fun _ s' => log_rel s' [] [] /\ lg s' = set_n 0 (lg s) /\
       wrote (cache s) (cache s') (if decide (L = []) then [] else commit_ws (lg s) (view (cache s)) L))
     never s.
Proof.
  intros Hr. pose proof Hr as [Hg HL Hrel Hcl Hsb]. destruct (decide (L = [])) as [->|Hne].
  - unfold commit, lget. wp_step. wp_step. rewrite (ls_n _ _ _ HL). cbn.
    split; [done|]. split; [|apply wrote_refl]. pose proof (ls_n _ _ _ HL) as Hn. simpl in Hn.
    destruct s as [[] c]. simpl in *. by subst.
  - eapply wp_conseq; [by apply commit_phases|]. cbv beta. intros _ s' (Hl & R & W).
    split; [|done]. pose proof (wrote_nblocks _ _ _ W : nblocks s' = nblocks s) as N.
    pose proof (commit_ws_pos _ _ (view (cache s)) _ Hg HL) as Hpos.
    pose proof (g_start _ _ Hg). pose proof (g_end _ _ Hg). pose proof (g_size _ _ Hg).
    assert (Hlen : length (view (cache s) (l_start (lg s))) = bsize).
    { apply view_len; [apply Hrel|unfold nblocks in *; lia]. }
    split; rewrite ?Hl, ?N; cbn [set_n l_start l_committing l_size]; try done.
    + by apply set_n_geometry.
    + by apply lists_nil.
    + rewrite (dblock_wrote _ _ _ _ W) by (done || unfold nblocks in *; lia).
      rewrite commit_ws_start. apply dec_enc_0, length_enc_head; [|done].
      rewrite (ls_n _ _ _ HL). pose proof (ls_bound _ _ _ HL). lia.
    + rewrite (dblock_wrote _ _ _ _ W) by (done || unfold nblocks in *; lia).
      rewrite vapply_notin; [done|]. by eapply commit_ws_not_1.
Qed.

(** ** Recovery *)

Lemma recover_spec s :
  geometry (lg s) (nblocks s) -> bio_rel (cache s) [] [] ->
  let st := l_start (lg s) in let hd := view (cache s) st in let L := dec_blocks hd in
  0 <= dec_n hd <= l_size (lg s) - 1 -> NoDup L -> Forall (home (lg s) (nblocks s)) L ->
  wp recover_from_log (fun _ s' => bio_rel (cache s') [] [] /\
       exists bl, lg s' = Log st (l_size (lg s)) (l_outstanding (lg s)) (l_committing (lg s)) 1 0 bl /\
         length bl = nlogsize /\
         wrote (cache s) (cache s') (home_ws st (view (cache s)) L ++ [(st, enc_head 0 bl hd)])) never s.
Proof.
  intros Hg Hrel st hd L Hn Hnd Hhome. pose proof (g_size _ _ Hg). unfold recover_from_log.
  wp_step. eapply wp_conseq; [apply read_head_spec; [done|done|]; fold st hd; lia|].
  fold st hd L. cbv beta. intros _ s1 (R1 & S1 & bl & Hl1 & Hbl & Htk).
  assert (N1 : nblocks s1 = nblocks s) by (unfold nblocks; by rewrite (same_disk _ _ S1)).
  assert (Hg1 : geometry (lg s1) (nblocks s1)) by (rewrite N1, Hl1; by destruct Hg).
  assert (HL1 : lists (lg s1) (nblocks s1) L).
  { rewrite N1, Hl1. split; simpl; try done; unfold L, dec_blocks; rewrite length_fmap, length_seq; lia. }
  wp_step. eapply wp_conseq.
  { apply (install_spec s1 L []); try done; rewrite nbuf_val; simpl; [lia|right; lia]. }
  cbv beta. intros _ s2 (Hl2 & R2 & W2). rewrite Hl1 in Hl2, W2. cbn [l_start] in W2.
  pose proof (wrote_nblocks _ _ _ W2 : nblocks s2 = nblocks s1) as N2.
  wp_step. unfold lio. wp_step. eapply wp_conseq.
  { apply (write_head_spec _ []); cbn [lg cache with_log set_n lh_n l_start].
    - unfold nblocks. cbn. rewrite Hl2. unfold nblocks in N2. rewrite N2.
      rewrite Hl1 in Hg1. by apply set_n_geometry.
    - done.
    - exact R2.
    - apply not_elem_of_nil.
    - rewrite nbuf_val. simpl. lia. }
  cbv beta. cbn [lg cache with_log]. rewrite Hl2. cbn [set_n lh_n l_start lh_block l_size l_outstanding l_committing l_dev].
  intros _ s3 (Hl3 & R3 & W3). split; [done|]. exists bl. split_and!; try done.
  pose proof (g_start _ _ Hg) as Hs. fold st in Hs.
  assert (Hws : home_ws st (view (cache s1)) L = home_ws st (view (cache s)) L).
  { unfold home_ws. apply imap_ext. intros t b _. simpl. by rewrite (same_view _ _ S1). }
  rewrite Hws in W2. rewrite (wr_view _ _ _ W2) in W3 by (fold st; lia). rewrite vapply_notin in W3.
  - rewrite (same_view _ _ S1) in W3.
    exact (wrote_trans _ _ _ _ _ (wrote_same _ _ S1) (wrote_trans _ _ _ _ _ W2 W3)).
  - apply Forall_forall. intros w (t & b & Ht & ->)%elem_home_ws. simpl.
    destruct (Forall_lookup_1 _ _ _ _ Hhome Ht) as (_ & _ & Hnl). intros ->. apply Hnl.
    unfold in_log, st. lia.
Qed.

Lemma readsb_spec c :
  bio_rel c [] [] -> 2 <= Z.of_nat (length (disk c)) ->
  exists c', readsb 1 c = Ok (let d := view c 1 in
      Superblock (rd 4 0 d) (rd 4 4 d) (rd 4 8 d) (rd 4 12 d) (rd 4 16 d) (rd 4 20 d) (rd 4 24 d)) c' /\
    bio_rel c' [] [] /\ same c c'.
Proof.
  intros Hrel Hd.
  destruct (bread_spec c [] [] 1 Hrel) as (i & c1 & E1 & R1 & S1 & _ & H1 & C1);
    [by apply not_elem_of_nil|lia|right; rewrite nbuf_val; simpl; lia|].
  destruct (brelse_spec _ _ _ _ _ _ R1 H1 C1) as (c2 & E2 & R2 & S2 & _).
  exists c2. split_and!; [|exact R2|by eapply same_trans].
  unfold readsb, bind, gets. rewrite E1, (handle_bdata _ _ _ _ H1), E2. done.
Qed.

(** Power on: zeroed kernel memory, an empty cache over the disk [dk]. *)
Definition boot (pid : Z) (dk : list block) : lst := Lst log0 (binit (bio0 pid dk)).

(** What recovery needs to know about the disk it finds. *)
Record recoverable (l : log) (dk : list block) : Prop := Recoverable {
  rc_geom : geometry l (length dk);
  rc_blocks : Forall (fun d => length d = bsize) dk;
  rc_sb : sb_ok l (nthd zero_block dk 1);
  rc_n : 0 <= dec_n (nthd zero_block dk (Z.to_nat (l_start l))) <= l_size l - 1;
  rc_nodup : NoDup (dec_blocks (nthd zero_block dk (Z.to_nat (l_start l))));
  rc_home : Forall (home l (length dk)) (dec_blocks (nthd zero_block dk (Z.to_nat (l_start l))))
}.

Lemma initlog_spec l pid dk :
  recoverable l dk ->
  let D b := nthd zero_block dk (Z.to_nat b) in
  exists r, initlog 1 (boot pid dk) = Ok tt r /\ log_rel r [] [] /\ nblocks r = length dk /\
    (l_start (lg r) = l_start l /\ l_size (lg r) = l_size l /\ l_outstanding (lg r) = 0 /\ l_committing (lg r) = 0) /\
    forall b, 0 <= b < Z.of_nat (length dk) -> ~ in_log l b ->
      view (cache r) b = vapply D (home_ws (l_start l) D (dec_blocks (D (l_start l)))) b.
Proof.
  intros [Hg Hblk Hsb Hn Hnd Hhome] D. pose proof Hg as [Hdev Hst Hsz Hend Hmax _].
  destruct (binit_spec pid dk Hblk) as [R0 V0].
  destruct (readsb_spec _ R0) as (c1 & E1 & R1 & S1); [cbn; lia|].
  set (l1 := Log (l_start l) (l_size l) 0 0 1 0 (lh_block log0)).
  assert (N1 : length (disk c1) = length dk) by by rewrite (same_disk _ _ S1).
  assert (V1 : forall b, view c1 b = D b) by (intros b; rewrite (same_view _ _ S1); apply V0).
  assert (Hg1 : geometry l1 (length dk)) by by split.
  destruct (wp_total _ _ _ (recover_spec (Lst l1 c1) ltac:(unfold nblocks; cbn [cache lg]; by rewrite N1) R1
     ltac:(cbn [cache lg]; rewrite V1; exact Hn) ltac:(cbn [cache lg]; rewrite V1; exact Hnd)
     ltac:(unfold nblocks; cbn [cache lg]; rewrite V1, N1; exact Hhome)))
    as ([] & r & Er & Rr & bl & Hlr & Hbl & W).
  cbn [cache lg l1 l_start l_size l_outstanding l_committing] in *.
  exists r. assert (Hnr : nblocks r = length dk) by (rewrite <- N1; exact (wrote_nblocks _ _ _ W)).
  assert (Hws : home_ws (l_start l) (view c1) (dec_blocks (view c1 (l_start l)))
                = home_ws (l_start l) D (dec_blocks (D (l_start l)))).
  { rewrite V1. unfold home_ws. apply imap_ext. intros t b _. simpl. by rewrite V1. }
  rewrite Hws in W.
  set (ws := home_ws _ _ _) in *. set (w := enc_head _ _ _) in *.
  assert (Hpos : Forall (fun w => 0 <= w.1) (ws ++ [(l_start l, w)])).
  { apply Forall_app. split; [|repeat constructor; simpl; lia]. apply Forall_forall.
    intros x (t & b & Ht & ->)%elem_home_ws. by apply (Forall_lookup_1 _ _ _ _ Hhome Ht). }
  split_and!; try done.
  - unfold initlog. change (BSIZE <=? LOGHEADERSIZE) with false. unfold bind at 1, cio, zoom.
    cbn [boot cache]. rewrite E1. destruct Hsb as [Hs1 Hs2].
    unfold bind, lio, modify, with_log. cbn [lg cache with_cache sb_logstart sb_nlog].
    rewrite (V0 1 : _ = nthd zero_block dk 1), Hs1, Hs2, !i32_small by (unfold LOGSIZE, MAXOPBLOCKS in *; lia).
    exact Er.
  - assert (Hgr : geometry (lg r) (nblocks r)).
    { rewrite Hlr, Hnr. by split. }
    split; try done.
    + pose proof (lists_nil _ _ Hgr) as Hnil. rewrite Hlr in *. exact Hnil.
    + rewrite Hlr. cbn [l_start]. rewrite (dblock_wrote _ _ _ _ W) by (done || lia).
      rewrite vapply_app. unfold vapply at 1. cbn [foldl fst snd]. rewrite decide_True by done.
      apply dec_enc_0. rewrite V1.
      exact (Forall_lookup_1 _ _ _ _ Hblk (lookup_nthd zero_block dk (Z.to_nat (l_start l)) ltac:(lia))).
    + rewrite (dblock_wrote _ _ _ _ W) by (done || lia). rewrite vapply_notin.
      * unfold sb_ok, dblock. rewrite Hlr, (same_disk _ _ S1). exact Hsb.
      * apply Forall_app. split; [|repeat constructor; simpl; lia]. apply Forall_forall.
        intros x (t & b & Ht & ->)%elem_home_ws. by apply (Forall_lookup_1 _ _ _ _ Hhome Ht).
  - by rewrite Hlr.
  - by rewrite Hlr.
  - by rewrite Hlr.
  - by rewrite Hlr.
  - intros b Hb Hnl. rewrite (wr_view _ _ _ W) by apply Hb. rewrite vapply_app, vapply_notin.
    + apply vapply_ext, V1.
    + repeat constructor. simpl. intros <-. apply Hnl. unfold in_log. lia.
Qed.

(** ** Crashes *)

Definition SECTOR : nat := 512.

(** A write cut short: each sector of the block is old or new. *)
Definition torn (old new d : block) : Prop :=
  length d = bsize /\
  forall k, slice (SECTOR * k) SECTOR d = slice (SECTOR * k) SECTOR old \/
            slice (SECTOR * k) SECTOR d = slice (SECTOR * k) SECTOR new.

(** The disk after a crash during the writes [ws]: a prefix of them done and
    at most one more in flight. *)
Definition crash (dk : list block) (ws : list (Z * block)) (dk' : list block) : Prop :=
  exists ws1 ws2, ws = ws1 ++ ws2 /\
    (dk' = applyw dk ws1 \/
     exists b d ws3 t, ws2 = (b, d) :: ws3 /\
       torn (nthd zero_block (applyw dk ws1) (Z.to_nat b)) d t /\
       dk' = applyw dk (ws1 ++ [(b, t)])).

Lemma crash_app dk ws ws' dk' :
  crash dk (ws ++ ws') dk' -> crash dk ws dk' \/ crash (applyw dk ws) ws' dk'.
Proof.
  intros (w1 & w2 & Heq & Hc). symmetry in Heq. apply app_eq_inv in Heq as [(k & -> & ->)|(k & -> & Hw2)].
  - right. exists k, w2. split; [done|].
    destruct Hc as [->|(b & d & w3 & t & -> & Ht & ->)]; [left; by rewrite applyw_app|right].
    exists b, d, w3, t. split_and!; try done; [by rewrite <- applyw_app|]. by rewrite <- app_assoc, applyw_app.
  - destruct k as [|x k].
    + right. exists [], ws'. simpl in Hw2. subst w2. rewrite app_nil_r. split; [done|].
      destruct Hc as [->|(b & d & w3 & t & -> & Ht & ->)]; [by left|right].
      exists b, d, w3, t. split_and!; try done. by rewrite applyw_app.
    + left. exists w1, (x :: k). split; [done|].
      destruct Hc as [->|(b & d & w3 & t & Hw & Ht & ->)]; [by left|right].
      rewrite Hw2 in Hw. simpl in Hw. injection Hw as -> _. by exists b, d, k, t.
Qed.

Lemma torn_old old new : length old = bsize -> torn old new old.
Proof. intros H. split; [done|]. by left. Qed.
Lemma torn_new old new : length new = bsize -> torn old new new.
Proof. intros H. split; [done|]. by right. Qed.

Lemma crash_one (dk : list block) b (d : block) dk' :
  0 <= b < Z.of_nat (length dk) -> Forall (fun d => length d = bsize) dk -> length d = bsize ->
  crash dk [(b, d)] dk' ->
  exists t, torn (nthd zero_block dk (Z.to_nat b)) d t /\ dk' = <[Z.to_nat b := t]> dk.
Proof.
  intros Hb Hdk Hd (w1 & w2 & Heq & Hc).
  pose proof (lookup_nthd zero_block dk (Z.to_nat b) ltac:(lia)) as Hold.
  destruct w1 as [|x w1]; simpl in Heq.
  - subst w2. destruct Hc as [->|(b' & d' & w3 & t & [= <- <- <-] & Ht & ->)]; [|by exists t].
    exists (nthd zero_block dk (Z.to_nat b)). split; [|symmetry; by apply list_insert_id].
    apply torn_old. exact (Forall_lookup_1 _ _ _ _ Hdk Hold).
  - injection Heq as <- Heq. symmetry in Heq. apply app_nil in Heq as [-> ->].
    destruct Hc as [->|(b' & d' & w3 & t & ? & _)]; [|done]. exists d. split; [by apply torn_new|done].
Qed.

Lemma crash_length dk ws dk' : crash dk ws dk' -> length dk' = length dk.
Proof. intros (w1 & w2 & _ & [->|(b & d & w3 & t & _ & _ & ->)]); apply length_applyw. Qed.

Lemma applyw_blocks (dk : list block) ws :
  Forall (fun d => length d = bsize) dk -> Forall (fun w => length w.2 = bsize) ws ->
  Forall (fun d => length d = bsize) (applyw dk ws).
Proof.
  intros Hdk Hws. revert dk Hdk. induction Hws as [|w ws Hw Hws IH]; intros dk Hdk; [done|].
  apply IH. by apply Forall_insert.
Qed.

(** A crash leaves alone the blocks the writes do not name. *)
Lemma crash_other dk ws dk' b :
  crash dk ws dk' -> 0 <= b < Z.of_nat (length dk) ->
  Forall (fun w => 0 <= w.1 /\ w.1 <> b) ws -> nthd zero_block dk' (Z.to_nat b) = nthd zero_block dk (Z.to_nat b).
Proof.
  intros (w1 & w2 & -> & Hc) Hb Hws. apply Forall_app in Hws as [H1 H2].
  assert (Hgo : forall ws, Forall (fun w => 0 <= w.1 /\ w.1 <> b) ws ->
    nthd zero_block (applyw dk ws) (Z.to_nat b) = nthd zero_block dk (Z.to_nat b)).
  { intros ws Hws. rewrite applyw_lookup; [|done|].
    - apply vapply_notin. eapply Forall_impl; [exact Hws|]. by intros w [_ ?].
    - eapply Forall_impl; [exact Hws|]. by intros w [? _]. }
  destruct Hc as [->|(b' & d & w3 & t & -> & _ & ->)]; apply Hgo; [done|].
  apply Forall_app. split; [done|]. apply Forall_cons in H2 as [H2 _]. apply Forall_singleton. exact H2.
Qed.

Lemma crash_blocks dk ws dk' :
  crash dk ws dk' -> Forall (fun d => length d = bsize) dk ->
  Forall (fun w => length w.2 = bsize) ws -> Forall (fun d => length d = bsize) dk'.
Proof.
  intros (w1 & w2 & -> & Hc) Hdk Hws. apply Forall_app in Hws as [H1 H2].
  destruct Hc as [->|(b & d & w3 & t & -> & [Ht _] & ->)]; apply applyw_blocks; try done.
  apply Forall_app. split; [done|]. by repeat constructor.
Qed.

(** The header is inside the first sector, so it is never torn. *)
Lemma rd_sector (old new : block) off :
  slice (SECTOR * 0) SECTOR old = slice (SECTOR * 0) SECTOR new -> (off + 4 <= SECTOR)%nat ->
  rd 4 off old = rd 4 off new.
Proof.
  intros Hs Hoff. unfold rd. f_equal. apply list_eq. intros i.
  assert (Hj : forall j, (j < SECTOR)%nat -> old !! j = new !! j).
  { intros j Hj. pose proof (f_equal (fun l => l !! j) Hs) as H. cbv beta in H.
    rewrite !lookup_slice in H by done. by rewrite !Nat.mul_0_r in H. }
  destruct (decide (i < 4)%nat).
  - rewrite !lookup_slice by done. apply Hj. lia.
  - rewrite !lookup_ge_None_2; [done|..]; unfold slice; rewrite length_take; lia.
Qed.

Lemma dec_sector old new :
  slice (SECTOR * 0) SECTOR old = slice (SECTOR * 0) SECTOR new -> dec_n new <= LOGSIZE ->
  dec_n old = dec_n new /\ dec_blocks old = dec_blocks new.
Proof.
  intros Hs Hn. assert (Hdn : dec_n old = dec_n new).
  { unfold dec_n. f_equal. apply rd_sector; [done|unfold SECTOR; lia]. }
  split; [done|]. unfold dec_blocks. rewrite Hdn. apply list_fmap_ext. intros i x Hx. f_equal.
  apply lookup_seq in Hx as [-> Hx]. apply rd_sector; [done|].
  pose proof (lh_off_fit i ltac:(unfold nlogsize; lia)). cbn [Nat.add]. unfold SECTOR. lia.
Qed.

Lemma dec_torn old new d :
  torn old new d -> dec_n old <= LOGSIZE -> dec_n new <= LOGSIZE ->
  dec_n d = dec_n old /\ dec_blocks d = dec_blocks old \/
  dec_n d = dec_n new /\ dec_blocks d = dec_blocks new.
Proof. intros [_ Ht] H1 H2. destruct (Ht 0%nat) as [H|H]; [left|right]; by apply dec_sector. Qed.

Lemma dec_enc_head l nb L d :
  geometry l nb -> lists l nb L -> length d = bsize ->
  dec_n (enc_head (lh_n l) (lh_block l) d) = Z.of_nat (length L) /\
  dec_blocks (enc_head (lh_n l) (lh_block l) d) = L.
Proof.
  intros Hg HL Hd. pose proof Hg as [_ _ Hsz _ Hmax _]. pose proof HL as [Hn _ Hb _ _].
  assert (HnL : Z.of_nat (length L) <= LOGSIZE) by lia.
  assert (Hdn : dec_n (enc_head (lh_n l) (lh_block l) d) = Z.of_nat (length L)).
  { unfold dec_n. unfold LOGSIZE, MAXOPBLOCKS in HnL.
    rewrite enc_head_n, Hn, u32_small, i32_small by (done || lia). done. }
  split; [done|]. unfold dec_blocks. rewrite Hdn, Nat2Z.id. apply list_eq. intros i.
  rewrite list_lookup_fmap. destruct (L !! i) as [b|] eqn:Hi.
  - destruct (lists_nth _ _ _ _ _ HL Hi) as (Hbl & Hh & Hlt).
    rewrite lookup_seq_lt by done. simpl. rewrite enc_head_block, Hbl by (rewrite ?Hn; done || lia).
    rewrite (home_u32 _ _ _ Hg Hh), i32_small; [done|]. destruct Hh as [? _]. lia.
  - apply lookup_ge_None in Hi. by rewrite lookup_seq_ge.
Qed.

(** The disk after a crash inside a commit, as recovery will read it. *)
Inductive crashed (l : log) (old new : Z -> block) (L : list Z) (nb : nat) (D : Z -> block) : Prop :=
| Uncommitted : dec_n (D (l_start l)) = 0 -> (forall b, home l nb b -> D b = old b) -> crashed l old new L nb D
| Committed : dec_n (D (l_start l)) = Z.of_nat (length L) -> dec_blocks (D (l_start l)) = L ->
    (forall t b, L !! t = Some b -> D (l_start l + Z.of_nat t + 1) = new b) ->
    (forall b, home l nb b -> b ∉ L -> D b = new b) -> crashed l old new L nb D
| Installed : dec_n (D (l_start l)) = 0 -> (forall b, home l nb b -> D b = new b) -> crashed l old new L nb D.

Lemma nthd_applyw_one (dk : list block) b (d : block) b' :
  0 <= b < Z.of_nat (length dk) -> 0 <= b' ->
  nthd zero_block (applyw dk [(b, d)]) (Z.to_nat b') =
  if decide (b' = b) then d else nthd zero_block dk (Z.to_nat b').
Proof.
  intros Hb Hb'. unfold applyw. simpl. case_decide as Hd.
  - subst b'. apply nthd_insert_eq. lia.
  - apply nthd_insert_ne. lia.
Qed.

Section CrashCases.
Context (s : lst) (L : list Z) (Hr : log_rel s L []).
Abbreviation l := (lg s).
Abbreviation c := (cache s).
Abbreviation st := (l_start (lg s)).
Abbreviation h1 := (enc_head (lh_n (lg s)) (lh_block (lg s)) (view (cache s) (l_start (lg s)))).
Abbreviation at_ dk := (fun b => nthd zero_block dk (Z.to_nat b)).
Abbreviation wsA := (log_ws (l_start (lg s)) (view (cache s)) L).
Abbreviation wsB := ((fun b => (b, view (cache s) b)) <$> L).

Lemma cc_range b : home l (nblocks s) b \/ in_log l b -> 0 <= b < Z.of_nat (length (disk c)).
Proof.
  destruct (lr_geom _ _ _ Hr) as [_ ? ? ? ? _]. unfold nblocks in *.
  intros [[? _]|Hi]; [done|]. unfold in_log in Hi. lia.
Qed.

Lemma cc_st : in_log l st.
Proof. destruct (lr_geom _ _ _ Hr). unfold in_log. lia. Qed.

Lemma cc_len b : home l (nblocks s) b \/ in_log l b -> length (view c b) = bsize.
Proof. intros Hb. apply view_len; [apply Hr|by apply cc_range]. Qed.

Lemma cc_h1 : length h1 = bsize.
Proof.
  apply length_enc_head; [|apply cc_len; right; apply cc_st].
  pose proof (ls_n _ _ _ (lr_lists _ _ _ Hr)). pose proof (ls_bound _ _ _ (lr_lists _ _ _ Hr)).
  pose proof (g_size _ _ (lr_geom _ _ _ Hr)). lia.
Qed.

Lemma cc_old b : home l (nblocks s) b -> b ∉ L -> dblock c b = view c b.
Proof. intros Hb Hn. symmetry. eapply view_on_disk; [apply Hr|done|]. by apply cc_range; left. Qed.

Lemma cc_wsA b : home l (nblocks s) b \/ b = st -> Forall (fun w => 0 <= w.1 /\ w.1 <> b) wsA.
Proof.
  intros Hb. apply Forall_forall. intros w (t & b' & Ht & ->)%elem_log_ws. simpl.
  pose proof (lookup_lt_Some _ _ _ Ht) as Hlt.
  destruct (log_slot _ _ _ t (lr_geom _ _ _ Hr) (lr_lists _ _ _ Hr) Hlt) as (_ & Ha & Hi & Hns).
  split; [lia|]. intros <-. destruct Hb as [(_ & _ & Hn)|?]; [by apply Hn|done].
Qed.

Lemma cc_wsB b : in_log l b \/ b ∉ L -> Forall (fun w => 0 <= w.1 /\ w.1 <> b) wsB.
Proof.
  intros Hb. apply Forall_fmap, Forall_forall. intros b' Hin. simpl.
  destruct (proj1 (Forall_forall _ _) (ls_home _ _ _ (lr_lists _ _ _ Hr)) _ Hin) as (Hp & _ & Hn).
  split; [lia|]. intros ->. destruct Hb; [by apply Hn|done].
Qed.

Lemma cc_slot t b :
  L !! t = Some b -> in_log l (st + Z.of_nat t + 1) /\ st + Z.of_nat t + 1 <> st.
Proof.
  intros Ht. apply lookup_lt_Some in Ht.
  by destruct (log_slot _ _ _ t (lr_geom _ _ _ Hr) (lr_lists _ _ _ Hr) Ht) as (_ & _ & ? & ?).
Qed.

(** After the log copy. *)
Lemma cc_afterA :
  at_ (applyw (disk c) wsA) st = dblock c st /\
  (forall b, home l (nblocks s) b -> at_ (applyw (disk c) wsA) b = dblock c b) /\
  (forall t b, L !! t = Some b -> at_ (applyw (disk c) wsA) (st + Z.of_nat t + 1) = view c b).
Proof.
  assert (Hpos : Forall (fun w => 0 <= w.1) wsA).
  { eapply Forall_impl; [apply (cc_wsA st); by right|]. by intros w [? _]. }
  split_and!.
  - rewrite applyw_lookup; [|apply cc_range; right; apply cc_st|done]. rewrite vapply_notin; [done|].
    eapply Forall_impl; [apply (cc_wsA st); by right|]. by intros w [_ ?].
  - intros b Hb. rewrite applyw_lookup; [|apply cc_range; by left|done]. rewrite vapply_notin; [done|].
    eapply Forall_impl; [apply (cc_wsA b); by left|]. by intros w [_ ?].
  - intros t b Ht. destruct (cc_slot t b Ht) as [Hi _].
    rewrite applyw_lookup; [|apply cc_range; by right|done]. apply vapply_in; [apply log_ws_NoDup|].
    apply elem_log_ws. by exists t, b.
Qed.

Lemma cc_dec_h1 : dec_n h1 = Z.of_nat (length L) /\ dec_blocks h1 = L.
Proof.
  eapply dec_enc_head; [apply Hr|apply Hr|]. apply cc_len. right. apply cc_st.
Qed.

Lemma cc_bound : Z.of_nat (length L) <= LOGSIZE.
Proof.
  pose proof (ls_bound _ _ _ (lr_lists _ _ _ Hr)). pose proof (g_size _ _ (lr_geom _ _ _ Hr)). lia.
Qed.

(** From the header write on: the state once the header names the blocks. *)
Lemma cc_committed dk' :
  nthd zero_block dk' (Z.to_nat st) = h1 \/
    (dec_n (nthd zero_block dk' (Z.to_nat st)) = dec_n h1 /\
     dec_blocks (nthd zero_block dk' (Z.to_nat st)) = dec_blocks h1) ->
  (forall b, in_log l b -> b <> st -> at_ dk' b = at_ (applyw (disk c) wsA) b) ->
  (forall b, home l (nblocks s) b -> b ∉ L -> at_ dk' b = at_ (applyw (disk c) wsA) b) ->
  crashed l (dblock c) (view c) L (nblocks s) (at_ dk').
Proof.
  intros Hh Hlog Hhome. destruct cc_dec_h1 as [Hd1 Hd2]. destruct cc_afterA as (_ & HA1 & HA2).
  apply Committed.
  - destruct Hh as [->|[-> _]]; exact Hd1.
  - destruct Hh as [->|[_ ->]]; exact Hd2.
  - intros t b Ht. destruct (cc_slot t b Ht) as [Hi Hns].
    etransitivity; [apply (Hlog _ Hi Hns)|]. by apply HA2.
  - intros b Hb Hn. etransitivity; [by apply Hhome|]. rewrite HA1 by done. by apply cc_old.
Qed.

Lemma cc_blocks_disk : Forall (fun d => length d = bsize) (disk c).
Proof. apply Hr. Qed.

Lemma cc_ws_len : Forall (fun w => length w.2 = bsize) wsA /\ Forall (fun w => length w.2 = bsize) wsB.
Proof.
  split; apply Forall_forall.
  - intros w (t & b & Ht & ->)%elem_log_ws. apply cc_len. left.
    exact (Forall_lookup_1 _ _ _ _ (ls_home _ _ _ (lr_lists _ _ _ Hr)) Ht).
  - intros w (b & -> & Hb)%list_elem_of_fmap. apply cc_len. left.
    exact (proj1 (Forall_forall _ _) (ls_home _ _ _ (lr_lists _ _ _ Hr)) _ Hb).
Qed.

Lemma cc_header (dk dk' : list block) (h : block) :
  length dk = length (disk c) -> Forall (fun d => length d = bsize) dk -> length h = bsize ->
  dec_n (at_ dk st) <= LOGSIZE -> dec_n h <= LOGSIZE -> crash dk [(st, h)] dk' ->
  (dec_n (at_ dk' st) = dec_n (at_ dk st) /\ dec_blocks (at_ dk' st) = dec_blocks (at_ dk st) \/
   dec_n (at_ dk' st) = dec_n h /\ dec_blocks (at_ dk' st) = dec_blocks h) /\
  forall b, 0 <= b -> b <> st -> at_ dk' b = at_ dk b.
Proof.
  intros Hlen Hdk Hh Hn1 Hn2 Hc. pose proof (cc_range st (or_intror cc_st)) as Hst.
  destruct (crash_one dk st h dk') as (t & Ht & ->); [lia|done|done|done|].
  split.
  - rewrite nthd_insert_eq by lia. by apply dec_torn.
  - intros b Hb Hne. apply nthd_insert_ne. lia.
Qed.

(** From the first home write on, starting from the disk [dk1] on which the
    header write is complete. *)
Lemma cc_install (dk1 dk' : list block) :
  length dk1 = length (disk c) -> Forall (fun d => length d = bsize) dk1 ->
  (forall b, 0 <= b -> at_ dk1 b = if decide (b = st) then h1 else at_ (applyw (disk c) wsA) b) ->
  crash dk1 (wsB ++ [(st, enc_head 0 (lh_block l) h1)]) dk' ->
  crashed l (dblock c) (view c) L (nblocks s) (at_ dk').
Proof.
  intros Hn1 Hb1 H1 Hc. pose proof cc_st as Hst. pose proof cc_bound as Hbd.
  destruct cc_dec_h1 as [Hd1 Hd2]. destruct cc_ws_len as [_ HlB].
  assert (Hns : forall b, home l (nblocks s) b -> b <> st) by (intros b Hb ->; by apply Hb).
  assert (HB : forall dk'' b, crash dk1 wsB dk'' -> 0 <= b < Z.of_nat (length dk1) -> in_log l b \/ b ∉ L ->
    at_ dk'' b = at_ dk1 b) by (intros dk'' b Hcr Hb Hi; apply (crash_other _ _ _ b Hcr Hb); by apply cc_wsB).
  assert (Hrg : forall b, home l (nblocks s) b \/ in_log l b -> 0 <= b < Z.of_nat (length dk1)).
  { intros b Hb. rewrite Hn1. by apply cc_range. }
  assert (Hcom : forall dk'', (forall b, 0 <= b < Z.of_nat (length dk1) -> b <> st -> in_log l b \/ b ∉ L -> at_ dk'' b = at_ dk1 b) ->
    nthd zero_block dk'' (Z.to_nat st) = h1 \/
    (dec_n (at_ dk'' st) = dec_n h1 /\ dec_blocks (at_ dk'' st) = dec_blocks h1) ->
    crashed l (dblock c) (view c) L (nblocks s) (at_ dk'')).
  { intros dk'' Hs Hh. apply cc_committed; [done|..].
    - intros b Hb Hne. rewrite (Hs b (Hrg b (or_intror Hb)) Hne (or_introl Hb)).
      rewrite H1 by apply (Hrg b (or_intror Hb)). by rewrite decide_False.
    - intros b Hb Hin. rewrite (Hs b (Hrg b (or_introl Hb)) (Hns b Hb) (or_intror Hin)).
      rewrite H1 by apply Hb. rewrite decide_False by by apply Hns. done. }
  apply crash_app in Hc as [Hc|Hc].
  - apply Hcom; [intros b Hb _; by apply HB|]. left.
    rewrite (HB _ st Hc (Hrg st (or_intror Hst)) (or_introl Hst)), H1 by apply (Hrg st (or_intror Hst)).
    by rewrite decide_True.
  - set (dkB := applyw dk1 wsB) in *.
    assert (HcB : crash dk1 wsB dkB) by (exists wsB, []; rewrite app_nil_r; by split; [|left]).
    assert (HBst : at_ dkB st = h1).
    { rewrite (HB _ st HcB (Hrg st (or_intror Hst)) (or_introl Hst)), H1 by apply (Hrg st (or_intror Hst)).
      by rewrite decide_True. }
    assert (HBhome : forall b, home l (nblocks s) b -> at_ dkB b = view c b).
    { intros b Hb. destruct (decide (b ∈ L)) as [Hin|Hin].
      - unfold dkB. rewrite applyw_lookup; [|by apply Hrg; left|].
        + apply vapply_in; [|apply list_elem_of_fmap; by exists b].
          rewrite <- list_fmap_compose. rewrite (list_fmap_ext _ id); [|done].
          rewrite list_fmap_id. apply Hr.
        + eapply Forall_impl; [apply (cc_wsB st); by left|]. by intros w [? _].
      - rewrite (HB _ b HcB (Hrg b (or_introl Hb)) (or_intror Hin)), H1 by apply Hb.
        rewrite decide_False by by apply Hns. destruct cc_afterA as (_ & HA1 & _).
        rewrite HA1 by done. by apply cc_old. }
    destruct (cc_header dkB dk' (enc_head 0 (lh_block l) h1)) as [[Hn|[Hn _]] Hne]; try done.
    + unfold dkB. by rewrite length_applyw.
    + by apply applyw_blocks.
    + apply length_enc_head; [done|apply cc_h1].
    + cbv beta. by rewrite HBst, Hd1.
    + apply Hcom; [|right; by rewrite HBst in Hn].
      intros b Hb Hbn Hi. rewrite Hne by (done || lia). by apply HB.
    + apply Installed; [cbv beta; rewrite Hn; apply dec_enc_0, cc_h1|].
      intros b Hb. rewrite Hne; [by apply HBhome|apply Hb|by apply Hns].
Qed.

Lemma crash_cases dk' :
  crash (disk c) (commit_ws l (view c) L) dk' ->
  crashed l (dblock c) (view c) L (nblocks s) (at_ dk').
Proof.
  destruct cc_afterA as (HA0 & HA1 & HA2). destruct cc_dec_h1 as [Hd1 Hd2].
  pose proof cc_bound as Hbd. pose proof (lr_clear _ _ _ Hr) as Hclear.
  destruct cc_ws_len as [HlA HlB]. pose proof (cc_range st (or_intror cc_st)) as Hst.
  set (dkA := applyw (disk c) wsA) in *.
  assert (HbA : Forall (fun d => length d = bsize) dkA) by (apply applyw_blocks; [apply cc_blocks_disk|done]).
  assert (HnA : length dkA = length (disk c)) by apply length_applyw.
  set (dk1 := applyw dkA [(st, h1)]).
  assert (H1 : forall b, 0 <= b -> at_ dk1 b = if decide (b = st) then h1 else at_ dkA b).
  { intros b Hb. apply nthd_applyw_one; [|done]. by rewrite HnA. }
  assert (Hb1 : Forall (fun d => length d = bsize) dk1).
  { apply applyw_blocks; [done|]. apply Forall_singleton. apply cc_h1. }
  assert (Hn1 : length dk1 = length (disk c)) by (unfold dk1; by rewrite length_applyw).
  intros Hc. apply crash_app in Hc as [Hc|Hc].
  { (* in the log copy *) apply Uncommitted.
    - rewrite (crash_other _ _ _ st Hc Hst); [exact Hclear|]. apply cc_wsA. by right.
    - intros b Hb. apply (crash_other _ _ _ b Hc); [by apply cc_range; left|]. apply cc_wsA. by left. }
  apply crash_app in Hc as [Hc|Hc].
  { (* in the header write *)
    destruct (cc_header dkA dk' h1) as [[[Hn _]|Hn] Hne]; try done.
    - apply cc_h1.
    - fold dkA in HA0. cbv beta. rewrite HA0, Hclear. done.
    - by rewrite Hd1.
    - apply Uncommitted.
      + cbv beta in Hn. by rewrite Hn, HA0.
      + intros b Hb. rewrite Hne; [by apply HA1|apply Hb|]. intros ->. apply Hb, cc_st.
    - apply cc_committed; [by right|..].
      + intros b Hb Hb'. apply Hne; [|done]. pose proof (cc_range b (or_intror Hb)). lia.
      + intros b Hb _. apply Hne; [apply Hb|]. intros ->. apply Hb, cc_st. }
  fold dkA dk1 in Hc. eapply cc_install; eauto.
Qed.
End CrashCases.

Lemma crashed_recoverable s L (dk' : list block) :
  log_rel s L [] -> length dk' = nblocks s -> Forall (fun d => length d = bsize) dk' ->
  nthd zero_block dk' 1 = dblock (cache s) 1 ->
  crashed (lg s) (dblock (cache s)) (view (cache s)) L (nblocks s) (fun b => nthd zero_block dk' (Z.to_nat b)) ->
  recoverable (lg s) dk'.
Proof.
  intros Hr Hlen Hblk H1 Hc. pose proof Hr as [Hg HL _ _ Hsb].
  pose proof (g_size _ _ Hg). pose proof (ls_bound _ _ _ HL).
  split; rewrite ?Hlen; [done|done|unfold sb_ok in *; by rewrite H1|..]; destruct Hc as [Hn _|Hn Hb _ _|Hn _].
  - rewrite Hn. lia.
  - rewrite Hn. lia.
  - rewrite Hn. lia.
  - unfold dec_blocks. rewrite Hn. constructor.
  - rewrite Hb. apply HL.
  - unfold dec_blocks. rewrite Hn. constructor.
  - unfold dec_blocks. rewrite Hn. constructor.
  - rewrite Hb. apply HL.
  - unfold dec_blocks. rewrite Hn. constructor.
Qed.

Lemma home_ws_NoDup st v L : NoDup L -> NoDup ((home_ws st v L).*1).
Proof.
  intros H. assert ((home_ws st v L).*1 = L) as ->; [|done].
  apply list_eq. intros t. unfold home_ws. rewrite list_lookup_fmap, list_lookup_imap.
  by destruct (L !! t).
Qed.

(** Recovery from any crash of a commit. *)
Lemma recover_crash s L (dk' : list block) pid :
  log_rel s L [] -> crash (disk (cache s)) (commit_ws (lg s) (view (cache s)) L) dk' ->
  exists r, initlog 1 (boot pid dk') = Ok tt r /\ log_rel r [] [] /\
    ((forall b, home (lg s) (nblocks s) b -> view (cache r) b = dblock (cache s) b) \/
     (forall b, home (lg s) (nblocks s) b -> view (cache r) b = view (cache s) b)).
Proof.
  intros Hr Hc. pose proof (crash_cases s L Hr dk' Hc) as Hcc.
  pose proof (crash_length _ _ _ Hc : _ = nblocks s) as Hlen.
  pose proof Hr as [Hg HL _ _ _].
  destruct (cc_ws_len s L Hr) as [HlA HlB].
  assert (Hrec : recoverable (lg s) dk').
  { eapply crashed_recoverable; try done.
    - eapply crash_blocks; [exact Hc|by apply (cc_blocks_disk s L)|].
      repeat (apply Forall_app; split); try done; apply Forall_singleton; cbn [snd].
      + by apply (cc_h1 s L).
      + apply length_enc_head; [done|by apply (cc_h1 s L)].
    - apply (crash_other _ _ _ 1 Hc).
      + destruct Hg. unfold nblocks in *. lia.
      + apply Forall_forall. intros w Hw. split.
        * by apply (proj1 (Forall_forall _ _) (commit_ws_pos _ _ (view (cache s)) _ Hg HL)).
        * by apply (proj1 (Forall_forall _ _) (commit_ws_not_1 _ _ (view (cache s)) _ Hg HL)). }
  destruct (initlog_spec _ pid _ Hrec) as (r & Er & Hlr & _ & _ & Hv). rewrite Hlen in Hv.
  exists r. split_and!; [done|done|]. destruct Hcc as [Hn Hb|Hn HbL Hs Hb|Hn Hb].
  - left. intros b Hh. rewrite Hv by apply Hh. unfold dec_blocks. rewrite Hn. by apply Hb.
  - right. intros b Hh. rewrite Hv, HbL by (done || apply Hh). destruct (decide (b ∈ L)) as [Hin|Hin].
    + apply list_elem_of_lookup in Hin as [t Ht]. apply vapply_in.
      * apply home_ws_NoDup, HL.
      * apply elem_home_ws. exists t, b. split; [done|]. f_equal. symmetry. by apply Hs.
    + rewrite vapply_notin; [by apply Hb|]. apply Forall_forall.
      intros w (t & b' & Ht & ->)%elem_home_ws. simpl. intros ->. apply Hin. by eapply list_elem_of_lookup_2.
  - right. intros b Hh. rewrite Hv by apply Hh. unfold dec_blocks. rewrite Hn. by apply Hb.
Qed.

(** A crash with no write in progress. *)
Lemma crash_nil (dk dk' : list block) : crash dk [] dk' -> dk' = dk.
Proof.
  intros (w1 & w2 & Heq & Hc). symmetry in Heq. apply app_nil in Heq as [-> ->].
  by destruct Hc as [->|(? & ? & ? & ? & ? & _)].
Qed.

Lemma recover_idle s pid :
  log_rel s [] [] ->
  exists r, initlog 1 (boot pid (disk (cache s))) = Ok tt r /\ log_rel r [] [] /\
    forall b, home (lg s) (nblocks s) b -> view (cache r) b = dblock (cache s) b.
Proof.
  intros Hr. pose proof Hr as [Hg HL Hb Hc Hsb]. pose proof (g_size _ _ Hg).
  assert (Hd : dec_blocks (dblock (cache s) (l_start (lg s))) = []) by (unfold dec_blocks; by rewrite Hc).
  unfold dblock in *. destruct (initlog_spec (lg s) pid (disk (cache s))) as (r & Er & Hlr & _ & _ & Hv).
  { split; try done; [apply Hb|lia|rewrite Hd; constructor..]. }
  exists r. split_and!; try done. intros b Hh. rewrite Hv, Hd by apply Hh. done.
Qed.

(** C1: a transaction is atomic across crashes.  From any state between
    file system calls, with the blocks [L] logged, [commit] returns, and all
    contents the kernel sees are then on disk.  Let [ws] be the disk writes
    it issued.  Cut them short anywhere, with the write in flight torn sector
    by sector; power-cycle with an empty cache and run [initlog].  It returns,
    with an empty log, and the file system blocks are either all as they were
    on disk before the commit or all as the transaction left them. *)
Theorem crash_safe s L pid :
  log_rel s L [] ->
  exists s' ws, commit s = Ok tt s' /\ log_rel s' [] [] /\
    writes (cache s') = writes (cache s) ++ ws /\
    (forall b, home (lg s) (nblocks s) b ->
       view (cache s') b = view (cache s) b /\ dblock (cache s') b = view (cache s) b) /\
    forall dk', crash (disk (cache s)) ws dk' ->
      exists r, initlog 1 (boot pid dk') = Ok tt r /\ log_rel r [] [] /\
        ((forall b, home (lg s) (nblocks s) b -> view (cache r) b = dblock (cache s) b) \/
         (forall b, home (lg s) (nblocks s) b -> view (cache r) b = view (cache s) b)).
Proof.
  intros Hr. destruct (wp_total _ _ _ (commit_spec s L Hr)) as ([] & s' & E & Hr' & Hl & W).
  set (ws := if decide (L = []) then _ else _) in *. exists s', ws.
  pose proof (wrote_nblocks _ _ _ W : nblocks s' = nblocks s) as N.
  assert (Hv : forall b, home (lg s) (nblocks s) b -> view (cache s') b = view (cache s) b).
  { intros b Hb. rewrite (wr_view _ _ _ W) by apply Hb. unfold ws. case_decide; [done|].
    eapply commit_ws_home; [apply Hr|apply Hr|done]. }
  split_and!; try done.
  - apply W.
  - intros b Hb. split; [by apply Hv|]. rewrite <- Hv by done. symmetry.
    eapply view_on_disk; [apply Hr'|apply not_elem_of_nil|]. fold (nblocks s'). rewrite N. apply Hb.
  - intros dk' Hc. unfold ws in Hc. case_decide as Hd.
    + subst L. apply crash_nil in Hc as ->. destruct (recover_idle s pid Hr) as (r & Er & Hlr & Hrv).
      exists r. split_and!; try done. by left.
    + by eapply recover_crash.
Qed.

(** ** Operations inside a transaction *)

(** What a transaction step may change of the log: the list of blocks. *)
Definition log_frame (l l' : log) : Prop :=
  l_start l' = l_start l /\ l_size l' = l_size l /\ l_outstanding l' = l_outstanding l /\
  l_committing l' = l_committing l.

Definition absorb (b : Z) (L : list Z) : list Z := if decide (b ∈ L) then L else L ++ [b].

Lemma elem_absorb b b' L : b' ∈ absorb b L <-> b' = b \/ b' ∈ L.
Proof.
  unfold absorb. case_decide; [|rewrite elem_of_app, list_elem_of_singleton; tauto].
  split; [tauto|]. intros [->|?]; done.
Qed.

Lemma home_frame l l' nb b : l_start l' = l_start l -> l_size l' = l_size l -> home l nb b -> home l' nb b.
Proof. intros H1 H2 (? & ? & Hi). split; [done|]. split; [done|]. unfold in_log in *. by rewrite H1, H2. Qed.

Lemma find_logged L (b : Z) nb l :
  geometry l nb -> Forall (home l nb) L ->
  find_idx (fun x => u32 x =? b) L = find_idx (fun x => x =? b) L.
Proof.
  intros Hg HL. induction HL as [|x L Hx HL IH]; cbn [find_idx]; [done|].
  by rewrite (home_u32 _ _ _ Hg Hx), IH.
Qed.

(** The in-memory header after [log_write] of block [b]. *)
Definition log_header (b : Z) (l : log) : log :=
  let n := Z.to_nat (lh_n l) in
  let i := default n (find_idx (fun x => u32 x =? b) (take n (lh_block l))) in
  let l1 := set_lhblock i (i32 b) l in
  if (i =? n)%nat then set_n (lh_n l1 + 1) l1 else l1.

Lemma log_header_spec l nb L b :
  geometry l nb -> lists l nb L -> home l nb b -> Z.of_nat (length L) < l_size l - 1 ->
  geometry (log_header b l) nb /\ lists (log_header b l) nb (absorb b L) /\
  log_frame l (log_header b l).
Proof.
  intros Hg HL Hb Hroom. pose proof Hg as [G1 G2 G3 G4 G5 G6]. pose proof HL as [L1 L2 L3 L4 L5].
  assert (Hlen : (length L < nlogsize)%nat) by (unfold nlogsize; lia).
  unfold log_header, absorb. rewrite L1, Nat2Z.id, L2, i32_small by (destruct Hb as [? _]; lia). cbn zeta.
  rewrite (find_logged _ _ _ _ Hg L5).
  destruct (find_idx _ L) as [k|] eqn:Hf; cbn [from_option id].
  - pose proof (find_idx_lt _ _ _ Hf) as Hk.
    apply find_idx_Some in Hf as [(x & Hx & ->%Z.eqb_eq) _].
    rewrite (proj2 (Nat.eqb_neq k (length L))) by lia. rewrite decide_True by by eapply list_elem_of_lookup_2.
    assert (Hsame : set_lhblock k b l = l).
    { destruct l as [a1 a2 a3 a4 a5 a6 bl]. unfold set_lhblock. simpl in *. f_equal. apply list_insert_id.
      rewrite <- L2 in Hx. by apply lookup_take_Some in Hx as [? _]. }
    rewrite Hsame. split_and!; [done|done|by repeat split].
  - rewrite Nat.eqb_refl, decide_False.
    2:{ intros (k & Hk)%list_elem_of_lookup. rewrite find_idx_None in Hf.
        specialize (Hf k b Hk). by rewrite Z.eqb_refl in Hf. }
    split_and!; [|split|by repeat split]; unfold set_n, set_lhblock; cbn [lh_n lh_block l_size l_start]; try done.
    + split; simpl; try done. by rewrite length_insert.
    + rewrite length_app. simpl. lia.
    + rewrite length_app, Nat.add_comm. cbn [length Nat.add].
      rewrite (take_S_r _ _ b) by (apply list_lookup_insert_eq; lia).
      by rewrite take_insert_ge, L2 by lia.
    + rewrite length_app. simpl. lia.
    + apply NoDup_app. split_and!; [done| |apply NoDup_singleton].
      intros x Hx ->%list_elem_of_singleton. apply list_elem_of_lookup in Hx as [k Hk].
      rewrite find_idx_None in Hf. specialize (Hf k b Hk). by rewrite Z.eqb_refl in Hf.
    + apply Forall_app. split; [exact L5|]. apply Forall_singleton. exact Hb.
Qed.

Lemma log_write_spec s L H i b d :
  log_rel s L H -> handle (cache s) i b d -> home (lg s) (nblocks s) b ->
  Z.of_nat (length L) < l_size (lg s) - 1 -> 1 <= l_outstanding (lg s) ->
  exists s', log_write i s = Ok tt s' /\ log_rel s' (absorb b L) H /\ same (cache s) (cache s') /\
    keeps (cache s) (cache s') /\ clean (cache s') i /\ log_frame (lg s) (lg s').
Proof.
  intros Hr Hh Hb Hroom Hout. pose proof Hr as [Hg HL Hrel Hcl Hsb].
  pose proof (g_size _ _ Hg) as Hsz. pose proof (ls_n _ _ _ HL) as Hn.
  destruct (mark_dirty_spec _ _ _ _ _ _ Hrel Hh) as (c' & Ec & Rc & Sc & Kc & Cc).
  assert (Hbn : b_blockno (getbuf i (cache s)) = b).
  { destruct Hh as (x & Hx & _ & Hbx & _). by rewrite (getbuf_lookup _ _ _ Hx). }
  destruct (log_header_spec _ _ _ b Hg HL Hb Hroom) as (Hg2 & HL2 & Hfr).
  assert (E : log_write i s = Ok tt (Lst (log_header b (lg s)) c')).
  { unfold log_write, bind, gets. rewrite Hbn.
    destruct ((LOGSIZE <=? lh_n (lg s)) || (l_size (lg s) - 1 <=? lh_n (lg s))) eqn:E1.
    { apply orb_prop in E1 as [E1|E1]; b2p; lia. }
    destruct (l_outstanding (lg s) <? 1) eqn:E2; b2p; [lia|].
    unfold log_header. cbn zeta. unfold lio, modify, cio, zoom, ret.
    destruct (_ =? _)%nat; cbn [cache with_log]; rewrite Ec; done. }
  set (l2 := log_header b (lg s)) in *.
  exists (Lst l2 c'). split; [done|].
  assert (N : nblocks (Lst l2 c') = nblocks s) by (unfold nblocks; simpl; by rewrite (same_disk _ _ Sc)).
  pose proof Hfr as (F1 & F2 & _).
  split_and!; [|done..]. split; rewrite ?N; cbn [lg cache]; try done.
  - eapply bio_rel_ext; [exact Rc| |done]. intros b'. rewrite elem_of_cons. symmetry. apply elem_absorb.
  - unfold dblock. rewrite (same_disk _ _ Sc), F1. exact Hcl.
  - unfold dblock, sb_ok. rewrite (same_disk _ _ Sc), F1, F2. exact Hsb.
Qed.

Lemma log_rel_frame s s' L H :
  log_rel s L H -> cache s' = cache s -> l_start (lg s') = l_start (lg s) ->
  l_size (lg s') = l_size (lg s) -> l_dev (lg s') = l_dev (lg s) -> lh_n (lg s') = lh_n (lg s) ->
  lh_block (lg s') = lh_block (lg s) -> log_rel s' L H.
Proof.
  intros [[] [] Hrel Hcl Hsb] E1 E2 E3 E4 E5 E6. assert (N : nblocks s' = nblocks s) by (unfold nblocks; by rewrite E1).
  split; rewrite ?N, ?E1; [split|split| |..]; unfold sb_ok; rewrite ?E1, ?E2, ?E3, ?E4, ?E5, ?E6; try done.
  - eapply Forall_impl; [done|]. intros b. by apply home_frame.
Qed.

(** Cache operations that do not write the disk keep the log's relation. *)
Lemma log_rel_cache s c L H H' :
  log_rel s L H -> disk c = disk (cache s) -> bio_rel c L H' -> log_rel (with_cache c s) L H'.
Proof.
  intros [HG HL _ Hcl Hsb] Hd Hrel.
  assert (N : nblocks (with_cache c s) = nblocks s) by (unfold nblocks; cbn [cache with_cache]; by rewrite Hd).
  unfold dblock in *.
  split; rewrite ?N; unfold dblock; cbn [lg cache with_cache]; rewrite ?Hd; assumption.
Qed.

Lemma begin_op_spec s H :
  log_rel s [] H -> l_outstanding (lg s) = 0 -> l_committing (lg s) = 0 ->
  begin_op s = Ok tt (with_log (set_out 1) s) /\ log_rel (with_log (set_out 1) s) [] H.
Proof.
  intros Hr Ho Hcm. pose proof (ls_n _ _ _ (lr_lists _ _ _ Hr)) as Hn. simpl in Hn.
  split; [|by eapply log_rel_frame]. unfold begin_op, bind, gets. rewrite Hcm, Hn, Ho.
  change (truth 0) with false. change (LOGSIZE <? _) with false.
  unfold lio, modify, with_log. cbv beta iota. by rewrite Ho.
Qed.

(** The last [end_op] commits. *)
Lemma end_op_spec s L :
  log_rel s L [] -> l_outstanding (lg s) = 1 -> l_committing (lg s) = 0 ->
  exists s', end_op s = Ok tt s' /\ log_rel s' [] [] /\
    l_start (lg s') = l_start (lg s) /\ l_size (lg s') = l_size (lg s) /\
    l_outstanding (lg s') = 0 /\ l_committing (lg s') = 0 /\
    nblocks s' = nblocks s /\ curpid (cache s') = curpid (cache s) /\
    forall b, 0 <= b < Z.of_nat (nblocks s) -> ~ in_log (lg s) b -> view (cache s') b = view (cache s) b.
Proof.
  intros Hr Ho Hcm. set (s1 := with_log (set_comm 1) (with_log (fun l => set_out (l_outstanding l - 1) l) s)).
  assert (Hr1 : log_rel s1 L []) by (by eapply log_rel_frame).
  destruct (wp_total _ _ _ (commit_spec s1 L Hr1)) as ([] & s2 & E & Hr2 & Hl & W).
  exists (with_log (set_comm 0) s2).
  assert (Hl' : lg s2 = set_n 0 (set_comm 1 (set_out 0 (lg s)))) by (rewrite Hl; unfold s1, with_log; cbn; by rewrite Ho).
  split_and!; try (unfold with_log; rewrite Hl'; done).
  - unfold end_op, lio, bind, modify, gets. cbn [lg with_log set_out l_committing l_outstanding].
    rewrite Hcm, Ho. change (truth 0) with false. change (1 - 1 =? 0) with true. cbv beta iota.
    change (commit _) with (commit s1). rewrite E. done.
  - by eapply log_rel_frame.
  - exact (wrote_nblocks _ _ _ W).
  - apply W.
  - intros b Hb Hnl. cbn [cache with_log]. rewrite (wr_view _ _ _ W) by apply Hb. case_decide; [done|].
    destruct (decide (b = 1)) as [->|Hb1].
    + apply vapply_notin. eapply commit_ws_not_1; apply Hr1.
    + eapply (commit_ws_home _ (nblocks s)); [apply Hr1|apply Hr1|done].
Qed.

(** ** A small disk, to run the log on *)

Definition sample_sb : block := wr 4 16 2 (wr 4 12 LOGSIZE zero_block).
Definition sample_disk : list block := <[1%nat := sample_sb]> (replicate 64 zero_block).
(** One call that fills block 40 with ones and does not commit yet. *)
Definition sample_op : M lst unit :=
  (bind begin_op (fun _ => bind (cio (bread 1 40)) (fun b =>
   bind (cio (bset b (replicate bsize 1))) (fun _ => bind (log_write b) (fun _ => cio (brelse b))))))%K.
Definition sample_boot : lst :=
  Lst (Log 2 LOGSIZE 0 0 1 0 (replicate nlogsize 0)) (binit (bio0 1 sample_disk)).
Definition sample : lst := match sample_op sample_boot with Ok _ s => s | _ => sample_boot end.

Lemma sample_disk_blocks : Forall (fun d => length d = bsize) sample_disk.
Proof.
  apply Forall_insert; [apply Forall_replicate, length_zero_block|].
  pose proof bsize_nat. unfold sample_sb. rewrite !length_wr_block; (done || lia).
Qed.

Lemma sample_disk_other b : b <> 1 -> 0 <= b -> nthd zero_block sample_disk (Z.to_nat b) = zero_block.
Proof.
  intros H1 H2. unfold sample_disk. rewrite nthd_insert_ne by lia. unfold nthd.
  destruct (_ !! _) as [x|] eqn:E; [|done]. by apply lookup_replicate in E as [-> _].
Qed.

Lemma sample_boot_rel : log_rel sample_boot [] [].
Proof.
  destruct (binit_spec 1 sample_disk sample_disk_blocks) as [R0 _].
  assert (N : nblocks sample_boot = 64%nat) by done.
  pose proof bsize_nat.
  split; rewrite ?N; [| |exact R0| |].
  - split; cbn [sample_boot lg l_dev l_start l_size lh_block];
      [done|done|done|done|done|apply length_replicate].
  - split; cbn [sample_boot lg lh_n lh_block l_size length]; [done|done|done|constructor|constructor].
  - unfold dblock, dec_n. cbn [cache sample_boot binit bio0 disk]. cbn [lg sample_boot l_start].
    rewrite sample_disk_other, rd_zero by (done || lia). done.
  - unfold dblock, sb_ok. cbn [cache sample_boot binit bio0 disk lg l_start l_size].
    change (Z.to_nat 1) with 1%nat. unfold sample_disk. rewrite nthd_insert_eq by (rewrite length_replicate; lia).
    unfold sample_sb. split.
    + rewrite rd_wr_same; [done|]. rewrite length_wr_block; rewrite ?length_zero_block; lia.
    + rewrite rd_wr_disj, rd_wr_same; [done|..]; rewrite ?length_wr_block; rewrite ?length_zero_block; lia.
Qed.

Lemma sample_rel : log_rel sample [40] [].
Proof.
  pose proof sample_boot_rel as Hr0.
  destruct (begin_op_spec _ _ Hr0) as [E1 Hr1]; [done|done|].
  set (s1 := with_log (set_out 1) sample_boot) in *.
  assert (N1 : nblocks s1 = 64%nat) by done.
  destruct (bread_spec (cache s1) [] [] 40) as (i & c2 & E2 & R2 & S2 & _ & H2 & _).
  { apply Hr1. } { by apply not_elem_of_nil. } { fold (nblocks s1). rewrite N1. lia. } { right. rewrite nbuf_val. simpl. lia. }
  destruct (bset_spec c2 [] [40] i 40 _ (replicate bsize 1) R2 H2) as (c3 & E3 & R3 & H3 & D3 & W3 & P3 & V3 & _).
  { apply length_replicate. }
  assert (Hhome : home (lg s1) 64 40) by (unfold home, in_log, s1; cbn [sample_boot with_log lg set_out l_start l_size];
    unfold LOGSIZE, MAXOPBLOCKS; lia).
  assert (N3 : nblocks (with_cache c3 s1) = 64%nat).
  { unfold nblocks in *. cbn [cache with_cache]. by rewrite D3, (same_disk _ _ S2). }
  assert (Hr3 : log_rel (with_cache c3 s1) [] [40]).
  { eapply log_rel_cache; [exact Hr1|by rewrite D3, (same_disk _ _ S2)|exact R3]. }
  destruct (log_write_spec _ _ _ i 40 _ Hr3 H3) as (s4 & E4 & Hr4 & S4 & K4 & C4 & F4).
  { by rewrite N3. } { done. } { done. }
  destruct (K4 i _ _ H3) as [H4 _].
  destruct (brelse_spec _ _ _ _ _ _ (lr_bio _ _ _ Hr4) H4 C4) as (c5 & E5 & R5 & S5 & _).
  assert (Es : sample = with_cache c5 s4).
  { unfold sample, sample_op, bind. rewrite E1. unfold cio, zoom. rewrite E2. cbn [cache with_cache].
    rewrite E3. change (with_cache c3 (with_cache c2 s1)) with (with_cache c3 s1). rewrite E4. by rewrite E5. }
  rewrite Es. eapply log_rel_cache; [exact Hr4|by rewrite (same_disk _ _ S5)|exact R5].
Qed.

Lemma crash_safe_witness :
  exists s' ws, commit sample = Ok tt s' /\ log_rel s' [] [] /\
    writes (cache s') = writes (cache sample) ++ ws /\
    (forall b, home (lg sample) (nblocks sample) b ->
       view (cache s') b = view (cache sample) b /\ dblock (cache s') b = view (cache sample) b) /\
    forall dk', crash (disk (cache sample)) ws dk' ->
      exists r, initlog 1 (boot 1 dk') = Ok tt r /\ log_rel r [] [] /\
        ((forall b, home (lg sample) (nblocks sample) b -> view (cache r) b = dblock (cache sample) b) \/
         (forall b, home (lg sample) (nblocks sample) b -> view (cache r) b = view (cache sample) b)).
Proof. exact (crash_safe sample [40] 1 sample_rel). Defined.
