(* ===== verification/Store.v ===== *)
(** What the log and the buffer cache promise to the file system.

    [BlockStore] is the interface fs.c is written against: [bread], access to
    [b->data], [log_write], [brelse], [begin_op] and [end_op].  Its laws are
    stated with an abstract state: the contents [v] of every block as the
    kernel sees them, the list [L] of blocks logged by the transaction in
    progress, the buffers [H] in hand, and whether a transaction is open.
    The file system's theorems are proved from these laws alone; the last
    section discharges them with log.c over bio.c. *)
From stdpp Require Import base numbers list strings.
From Stdlib Require Import ZArith Lia.
From S2P Require Import Prelude Params Bio Log.

Local Open Scope list_scope.
Local Open Scope Z_scope.

(** A buffer in hand: the [struct buf *], its block, and whether its data
    may be released (it is as on disk, or it was passed to [log_write]). *)
Record hand := Hand { h_buf : nat; h_blk : Z; h_clean : bool }.

(** Where the log lies on the device. *)
Record geo := Geo { geo_blocks : Z; geo_logstart : Z; geo_nlog : Z }.

(** The file system may read every block outside the log, and write all of
    those but the superblock. *)
Definition readable (g : geo) (b : Z) : Prop :=
  0 <= b < geo_blocks g /\ ~ (geo_logstart g <= b < geo_logstart g + geo_nlog g).
Definition writable (g : geo) (b : Z) : Prop := readable g b /\ b <> 1.

Definition blocks_of (H : list hand) : list Z := h_blk <$> H.
Definition set_clean (i : nat) (c : bool) (H : list hand) : list hand :=
  (fun h => if decide (h_buf h = i) then Hand i (h_blk h) c else h) <$> H.
Definition vset (b : Z) (d : block) (v : Z -> block) : Z -> block :=
  fun b' => if decide (b' = b) then d else v b'.

Class BlockStore (S : Type) := {
  bs_bread : Z -> Z -> M S nat;
  bs_data : nat -> S -> block;
  bs_set : nat -> block -> M S unit;
  bs_log_write : nat -> M S unit;
  bs_brelse : nat -> M S unit;
  bs_begin_op : M S unit;
  bs_end_op : M S unit;
  (** [store g v L H o s]: the abstract state of [s]; [o]: inside a transaction. *)
  store : geo -> (Z -> block) -> list Z -> list hand -> bool -> S -> Prop;
  store_ext : forall g v v' L H o s,
    (forall b, readable g b -> v b = v' b) -> store g v L H o s -> store g v' L H o s;
  store_len : forall g v L H o s b, store g v L H o s -> readable g b -> length (v b) = bsize;
  store_data : forall g v L H o s i b c,
    store g v L H o s -> Hand i b c ∈ H -> bs_data i s = v b /\ readable g b;
  store_cap : forall g v L H o s, store g v L H o s -> Z.of_nat (length L) <= geo_nlog g - 1;
  bread_law : forall g v L H o s b,
    store g v L H o s -> readable g b -> b ∉ blocks_of H ->
    Z.of_nat (length L + length H) < NBUF ->
    exists i s', bs_bread ROOTDEV b s = Ok i s' /\ (i ∉ h_buf <$> H) /\
                 store g v L (Hand i b true :: H) o s';
  set_law : forall g v L H o s i b c d,
    store g v L H o s -> Hand i b c ∈ H -> length d = bsize ->
    exists s', bs_set i d s = Ok tt s' /\ store g (vset b d v) L (set_clean i false H) o s';
  log_write_law : forall g v L H s i b c,
    store g v L H true s -> Hand i b c ∈ H -> writable g b ->
    Z.of_nat (length L) < geo_nlog g - 1 ->
    exists s', bs_log_write i s = Ok tt s' /\ store g v (absorb b L) (set_clean i true H) true s';
  brelse_law : forall g v L H o s i b,
    store g v L (Hand i b true :: H) o s ->
    exists s', bs_brelse i s = Ok tt s' /\ store g v L H o s';
  begin_op_law : forall g v s,
    store g v [] [] false s -> exists s', bs_begin_op s = Ok tt s' /\ store g v [] [] true s';
  end_op_law : forall g v L s,
    store g v L [] true s -> exists s', bs_end_op s = Ok tt s' /\ store g v [] [] false s'
}.
#[global] Hint Mode BlockStore + : typeclass_instances.

(** ** The implementation: log.c over bio.c *)

(** The abstract state of a log state. *)
Record log_store (g : geo) (v : Z -> block) (L : list Z) (H : list hand) (o : bool) (s : lst) : Prop := LogStore {
  sr_rel : log_rel s L (blocks_of H);
  sr_geo : g = Geo (Z.of_nat (nblocks s)) (l_start (lg s)) (l_size (lg s));
  sr_view : forall b, readable g b -> view (cache s) b = v b;
  sr_hands : forall i b c, Hand i b c ∈ H ->
    readable g b /\ handle (cache s) i b (v b) /\ (c = true -> clean (cache s) i);
  sr_nodup : NoDup (h_buf <$> H);
  sr_comm : l_committing (lg s) = 0;
  sr_out : l_outstanding (lg s) = b2z o
}.

Lemma log_store_ext g v v' L H o s :
  (forall b, readable g b -> v b = v' b) -> log_store g v L H o s -> log_store g v' L H o s.
Proof.
  intros Hv [H1 H2 H3 H4 H5 H6 H7]. split; try done.
  - intros b Hb. rewrite <- Hv by done. by apply H3.
  - intros i b c Hin. destruct (H4 i b c Hin) as (Hb & Hh & Hc). rewrite <- Hv by done. done.
Qed.

Lemma log_store_len g v L H o s b : log_store g v L H o s -> readable g b -> length (v b) = bsize.
Proof.
  intros [H1 -> H3 _ _ _ _] Hb. rewrite <- H3 by done. apply view_len; [apply H1|apply Hb].
Qed.

Lemma log_store_data g v L H o s i b c :
  log_store g v L H o s -> Hand i b c ∈ H -> bdata i (cache s) = v b /\ readable g b.
Proof.
  intros Hs Hin. destruct (sr_hands _ _ _ _ _ _ Hs i b c Hin) as (Hb & Hh & _). split; [|done].
  by eapply handle_bdata.
Qed.

Lemma log_store_cap g v L H o s : log_store g v L H o s -> Z.of_nat (length L) <= geo_nlog g - 1.
Proof. intros [H1 -> _ _ _ _ _]. exact (ls_bound _ _ _ (lr_lists _ _ _ H1)). Qed.

Lemma cio_eval {A} (m : M bio A) s a c : m (cache s) = Ok a c -> cio m s = Ok a (with_cache c s).
Proof. intros Hm. unfold cio, zoom. by rewrite Hm. Qed.

Lemma nblocks_same s c : disk c = disk (cache s) -> nblocks (with_cache c s) = nblocks s.
Proof. intros Hd. unfold nblocks. cbn [cache with_cache]. by rewrite Hd. Qed.

Lemma log_store_bread g v L H o s b :
  log_store g v L H o s -> readable g b -> b ∉ blocks_of H ->
  Z.of_nat (length L + length H) < NBUF ->
  exists i s', cio (bread ROOTDEV b) s = Ok i s' /\ (i ∉ h_buf <$> H) /\
               log_store g v L (Hand i b true :: H) o s'.
Proof.
  intros [H1 H2 H3 H4 H5 H6 H7] Hb Hn Hroom.
  destruct (bread_spec (cache s) L (blocks_of H) b (lr_bio _ _ _ H1) Hn) as (i & c & E & R & Sm & K & Hh & Hc).
  { rewrite H2 in Hb. apply Hb. }
  { right. unfold blocks_of. rewrite length_fmap. unfold nbuf. lia. }
  exists i, (with_cache c s). split; [by apply cio_eval|].
  assert (Hfresh : i ∉ h_buf <$> H).
  { intros ([j b' c'] & -> & Hin)%list_elem_of_fmap. destruct (H4 _ _ _ Hin) as (_ & Hh' & _).
    destruct (K _ _ _ Hh') as [Hh2 _]. destruct (handle_fun _ _ _ _ _ _ Hh Hh2) as [-> _].
    apply Hn, list_elem_of_fmap. by exists (Hand j b' c'). }
  split; [done|]. split; cbn [lg cache with_cache]; try done.
  - eapply log_rel_cache; [exact H1|apply Sm|exact R].
  - by rewrite (nblocks_same s c (same_disk _ _ Sm)).
  - intros b' Hb'. rewrite (same_view _ _ Sm). by apply H3.
  - intros j b' c' [[= -> -> ->]|Hin]%elem_of_cons.
    + rewrite <- H3 by done. done.
    + destruct (H4 _ _ _ Hin) as (? & Hh' & Hc'). destruct (K _ _ _ Hh') as [? ?]. auto.
  - cbn. by apply NoDup_cons.
Qed.

Lemma hand_unique H i b c b' c' :
  NoDup (h_buf <$> H) -> Hand i b c ∈ H -> Hand i b' c' ∈ H -> b = b' /\ c = c'.
Proof.
  intros Hnd (j & Hj)%list_elem_of_lookup (k & Hk)%list_elem_of_lookup.
  assert (j = k) as ->; [|split; congruence].
  eapply NoDup_lookup; [exact Hnd| |]; rewrite list_lookup_fmap, ?Hj, ?Hk; done.
Qed.

Lemma elem_set_clean H i c j b c' :
  Hand j b c' ∈ set_clean i c H <-> (j = i /\ c' = c /\ exists c0, Hand i b c0 ∈ H) \/ (j <> i /\ Hand j b c' ∈ H).
Proof.
  unfold set_clean. rewrite list_elem_of_fmap. split.
  - intros ([k b0 c0] & Heq & Hin). simpl in Heq. destruct (decide (k = i)) as [->|Hne].
    + injection Heq as -> -> ->. left. eauto.
    + injection Heq as -> -> ->. right. done.
  - intros [(-> & -> & c0 & Hin)|[Hne Hin]].
    + exists (Hand i b c0). simpl. by rewrite decide_True.
    + exists (Hand j b c'). simpl. by rewrite decide_False.
Qed.

Lemma blocks_set_clean i c H : blocks_of (set_clean i c H) = blocks_of H.
Proof.
  unfold blocks_of, set_clean. rewrite <- list_fmap_compose. apply list_fmap_ext. intros _ [j b c'] _.
  simpl. by destruct (decide (j = i)).
Qed.

Lemma bufs_set_clean i c H : h_buf <$> set_clean i c H = h_buf <$> H.
Proof.
  unfold set_clean. rewrite <- list_fmap_compose. apply list_fmap_ext. intros _ [j b c'] _.
  simpl. by destruct (decide (j = i)).
Qed.

Lemma log_store_set g v L H o s i b c d :
  log_store g v L H o s -> Hand i b c ∈ H -> length d = bsize ->
  exists s', cio (bset i d) s = Ok tt s' /\ log_store g (vset b d v) L (set_clean i false H) o s'.
Proof.
  intros [H1 H2 H3 H4 H5 H6 H7] Hin Hd. destruct (H4 _ _ _ Hin) as (Hb & Hh & _).
  destruct (bset_spec _ _ _ _ _ _ d (lr_bio _ _ _ H1) Hh Hd) as (c' & E & R & Hh' & D' & _ & P' & V' & K).
  exists (with_cache c' s). split; [by apply cio_eval|]. split; cbn [lg cache with_cache]; try done.
  - eapply log_rel_cache; [exact H1|exact D'|by rewrite blocks_set_clean].
  - by rewrite (nblocks_same s c' D').
  - intros b' Hb'. rewrite V'. unfold vset. case_decide; [done|by apply H3].
  - intros j b' c'' [(-> & -> & c0 & Hin')|[Hne Hin']]%elem_set_clean.
    + destruct (hand_unique _ _ _ _ _ _ H5 Hin Hin') as [<- _]. split; [done|]. split; [|done].
      unfold vset. rewrite decide_True by done. exact Hh'.
    + destruct (H4 _ _ _ Hin') as (Hb' & Hhj & Hcj). destruct (K j Hne _ _ Hhj) as [Hhj' Hcj'].
      split_and!; [done| |auto]. unfold vset. rewrite decide_False; [done|].
      intros ->. destruct Hne. eapply handle_inj; [apply (lr_bio _ _ _ H1)|exact Hhj|exact Hh].
  - by rewrite bufs_set_clean.
Qed.

Lemma log_store_log_write g v L H s i b c :
  log_store g v L H true s -> Hand i b c ∈ H -> writable g b -> Z.of_nat (length L) < geo_nlog g - 1 ->
  exists s', log_write i s = Ok tt s' /\ log_store g v (absorb b L) (set_clean i true H) true s'.
Proof.
  intros [H1 -> H3 H4 H5 H6 H7] Hin Hw Hroom. destruct (H4 _ _ _ Hin) as (Hb & Hh & _).
  destruct (log_write_spec s L _ i b _ H1 Hh) as (s' & E & R & Sm & K & Hc & F1 & F2 & F3 & F4).
  { destruct Hw as [[? ?] ?]. split; [done|]. by split. } { done. } { rewrite H7. cbn. lia. }
  exists s'. split; [done|].
  assert (N : nblocks s' = nblocks s) by (unfold nblocks; by rewrite (same_disk _ _ Sm)).
  split; try (congruence || done).
  - by rewrite blocks_set_clean.
  - intros b' Hb'. rewrite (same_view _ _ Sm). by apply H3.
  - intros j b' c' [(-> & -> & c0 & Hin')|[Hne Hin']]%elem_set_clean.
    + destruct (hand_unique _ _ _ _ _ _ H5 Hin Hin') as [<- _]. destruct (K _ _ _ Hh). auto.
    + destruct (H4 _ _ _ Hin') as (Hb' & Hhj & Hcj). destruct (K _ _ _ Hhj). auto.
  - by rewrite bufs_set_clean.
Qed.

Lemma log_store_brelse g v L H o s i b :
  log_store g v L (Hand i b true :: H) o s ->
  exists s', cio (brelse i) s = Ok tt s' /\ log_store g v L H o s'.
Proof.
  intros [H1 H2 H3 H4 H5 H6 H7]. destruct (H4 i b true) as (Hb & Hh & Hc); [by left|].
  cbn in H5. apply NoDup_cons in H5 as [Hni H5].
  destruct (brelse_spec _ _ _ _ _ _ (lr_bio _ _ _ H1) Hh (Hc eq_refl)) as (c & E & R & Sm & K).
  exists (with_cache c s). split; [by apply cio_eval|]. split; cbn [lg cache with_cache]; try done.
  - eapply log_rel_cache; [exact H1|apply Sm|]. eapply bio_rel_ext; [exact R|done|].
    intros b'. cbn [blocks_of fmap list_fmap h_blk]. rewrite list_elem_of_filter, elem_of_cons.
    split; [tauto|]. intros Hin. split; [|by right]. intros ->.
    apply list_elem_of_fmap in Hin as ([j b' c'] & -> & Hin). simpl in *.
    destruct (H4 j b' c') as (_ & Hhj & _); [by right|].
    assert (j = i) as -> by (eapply handle_inj; [apply (lr_bio _ _ _ H1)|exact Hhj|exact Hh]).
    apply Hni, list_elem_of_fmap. by exists (Hand i b' c').
  - by rewrite (nblocks_same s c (same_disk _ _ Sm)).
  - intros b' Hb'. rewrite (same_view _ _ Sm). by apply H3.
  - intros j b' c' Hin. destruct (H4 j b' c') as (Hb' & Hhj & Hcj); [by right|].
    destruct (K j) with (b := b') (d := v b') as [? ?]; [|done|auto].
    intros ->. apply Hni, list_elem_of_fmap. by exists (Hand i b' c').
Qed.

Lemma log_store_begin g v s :
  log_store g v [] [] false s -> exists s', begin_op s = Ok tt s' /\ log_store g v [] [] true s'.
Proof.
  intros [H1 H2 H3 H4 H5 H6 H7]. destruct (begin_op_spec s [] H1 H7 H6) as [E R].
  eexists. split; [exact E|]. by split.
Qed.

Lemma log_store_end g v L s :
  log_store g v L [] true s -> exists s', end_op s = Ok tt s' /\ log_store g v [] [] false s'.
Proof.
  intros [H1 -> H3 H4 H5 H6 H7].
  destruct (end_op_spec s L H1 H7 H6) as (s' & E & R & F1 & F2 & F3 & F4 & N & _ & V).
  exists s'. split; [done|]. split; try done; try congruence.
  - intros b [Hb Hnl]. rewrite V by done. by apply H3.
  - by intros i b c ?%elem_of_nil.
Qed.

(** log.c over bio.c keeps the promises the file system relies on. *)
#[export] Instance log_block_store : BlockStore lst := {
  bs_bread dev b := cio (bread dev b);
  bs_data i s := bdata i (cache s);
  bs_set i d := cio (bset i d);
  bs_log_write := log_write;
  bs_brelse i := cio (brelse i);
  bs_begin_op := begin_op;
  bs_end_op := end_op;
  store := log_store;
  store_ext := log_store_ext;
  store_len := log_store_len;
  store_data := log_store_data;
  store_cap := log_store_cap;
  bread_law := log_store_bread;
  set_law := log_store_set;
  log_write_law := log_store_log_write;
  brelse_law := log_store_brelse;
  begin_op_law := log_store_begin;
  end_op_law := log_store_end
}.

(** A freshly booted log over a clean disk is a store. *)
Lemma boot_store l pid dk :
  geometry l (length dk) -> Forall (fun d => length d = bsize) dk -> sb_ok l (nthd zero_block dk 1) ->
  dec_n (nthd zero_block dk (Z.to_nat (l_start l))) = 0 -> lh_n l = 0 ->
  l_outstanding l = 0 -> l_committing l = 0 ->
  log_store (Geo (Z.of_nat (length dk)) (l_start l) (l_size l)) (fun b => nthd zero_block dk (Z.to_nat b))
    [] [] false (Lst l (binit (bio0 pid dk))).
Proof.
  intros Hg Hblk Hsb Hn Hln Ho Hc. destruct (binit_spec pid dk Hblk) as [R V].
  assert (N : nblocks (Lst l (binit (bio0 pid dk))) = length dk) by done.
  split; [|done| | |constructor|exact Hc|exact Ho].
  - split; rewrite ?N; try done. pose proof (lists_nil _ _ Hg) as Hnil.
    destruct l. cbn in *. by subst.
  - intros b Hb. apply V.
  - by intros i b c ?%elem_of_nil.
Qed.
