(* ===== verification/Fs.v ===== *)
(** The file system layers of fs.c, over the [BlockStore] interface: block
    allocator, inode cache, file contents, directories, path names.

    A [struct inode *] is an index into [icache].  [cur] is the part of
    [myproc()] the file system reads.  [devsw] is the table of device
    functions.  Reads return the bytes the C code stores through [dst];
    writes take the bytes at [src]. *)
From stdpp Require Import base numbers list strings.
From Stdlib Require Import ZArith Lia.
From S2P Require Import Prelude Params CString Namecache Bio Log Store.

Local Open Scope list_scope.
Local Open Scope Z_scope.

(** ** State *)

Record inode := Inode {
  i_dev : Z; i_inum : Z; i_ref : Z; i_lock : sleeplock; i_valid : Z;
  i_type : Z; i_major : Z; i_minor : Z; i_nlink : Z; i_size : Z;
  i_uid : Z; i_gid : Z; i_mode : Z; i_addrs : list Z
}.
Definition inode0 : inode :=
  Inode 0 0 0 initsleeplock 0 0 0 0 0 0 0 0 0 (replicate (Z.to_nat (NDIRECT + 1)) 0).

(** The fields of the current process that fs.c and sysfile.c use. *)
Record cred := Cred { c_pid : Z; c_uid : Z; c_gid : Z; c_cwd : nat }.

Record fs (S : Type) := Fs {
  store_st : S; fsb : superblock; icache : list inode; ncache : namecache; cur : cred
}.
Arguments Fs {S}.
Arguments store_st {S}.
Arguments fsb {S}.
Arguments icache {S}.
Arguments ncache {S}.
Arguments cur {S}.

(** Setters, one per field the code assigns. *)
Definition set_ref (x : Z) (i : inode) : inode :=
  Inode (i_dev i) (i_inum i) x (i_lock i) (i_valid i) (i_type i) (i_major i) (i_minor i) (i_nlink i)
        (i_size i) (i_uid i) (i_gid i) (i_mode i) (i_addrs i).
Definition set_ilock (x : sleeplock) (i : inode) : inode :=
  Inode (i_dev i) (i_inum i) (i_ref i) x (i_valid i) (i_type i) (i_major i) (i_minor i) (i_nlink i)
        (i_size i) (i_uid i) (i_gid i) (i_mode i) (i_addrs i).
Definition set_ivalid (x : Z) (i : inode) : inode :=
  Inode (i_dev i) (i_inum i) (i_ref i) (i_lock i) x (i_type i) (i_major i) (i_minor i) (i_nlink i)
        (i_size i) (i_uid i) (i_gid i) (i_mode i) (i_addrs i).
Definition set_type (x : Z) (i : inode) : inode :=
  Inode (i_dev i) (i_inum i) (i_ref i) (i_lock i) (i_valid i) x (i_major i) (i_minor i) (i_nlink i)
        (i_size i) (i_uid i) (i_gid i) (i_mode i) (i_addrs i).
Definition set_dev (ma mi : Z) (i : inode) : inode :=
  Inode (i_dev i) (i_inum i) (i_ref i) (i_lock i) (i_valid i) (i_type i) ma mi (i_nlink i)
        (i_size i) (i_uid i) (i_gid i) (i_mode i) (i_addrs i).
Definition set_nlink (x : Z) (i : inode) : inode :=
  Inode (i_dev i) (i_inum i) (i_ref i) (i_lock i) (i_valid i) (i_type i) (i_major i) (i_minor i) x
        (i_size i) (i_uid i) (i_gid i) (i_mode i) (i_addrs i).
Definition set_size (x : Z) (i : inode) : inode :=
  Inode (i_dev i) (i_inum i) (i_ref i) (i_lock i) (i_valid i) (i_type i) (i_major i) (i_minor i) (i_nlink i)
        x (i_uid i) (i_gid i) (i_mode i) (i_addrs i).
Definition set_owner (u g : Z) (i : inode) : inode :=
  Inode (i_dev i) (i_inum i) (i_ref i) (i_lock i) (i_valid i) (i_type i) (i_major i) (i_minor i) (i_nlink i)
        (i_size i) u g (i_mode i) (i_addrs i).
Definition set_mode (x : Z) (i : inode) : inode :=
  Inode (i_dev i) (i_inum i) (i_ref i) (i_lock i) (i_valid i) (i_type i) (i_major i) (i_minor i) (i_nlink i)
        (i_size i) (i_uid i) (i_gid i) x (i_addrs i).
Definition set_addrs (x : list Z) (i : inode) : inode :=
  Inode (i_dev i) (i_inum i) (i_ref i) (i_lock i) (i_valid i) (i_type i) (i_major i) (i_minor i) (i_nlink i)
        (i_size i) (i_uid i) (i_gid i) (i_mode i) x.

(** ** On-disk inodes and directory entries *)

(** Offsets of the fields of [struct dinode] from [off]. *)
Definition dip_off (inum : Z) : nat := Z.to_nat (inum mod IPB * DINODESIZE).
Definition addr_off (off i : nat) : nat := (off + 20 + 4 * i)%nat.
Definition naddrs : nat := Z.to_nat (NDIRECT + 1).

(** [dip->type = ip->type; ...; memmove(dip->addrs, ip->addrs, ...)] *)
Definition enc_addrs (off : nat) (a : list Z) (d : block) : block :=
  splice (off + 20) (concat (le_enc 4 <$> a)) d.
Definition enc_dinode (off : nat) (ip : inode) (d : block) : block :=
  enc_addrs off (i_addrs ip)
    (wr 2 (off + 16) (i_mode ip) (wr 2 (off + 14) (i_gid ip) (wr 2 (off + 12) (i_uid ip)
    (wr 4 (off + 8) (i_size ip) (wr 2 (off + 6) (i_nlink ip) (wr 2 (off + 4) (i_minor ip)
    (wr 2 (off + 2) (i_major ip) (wr 2 off (i_type ip) d)))))))).
Definition dec_dinode (off : nat) (d : block) (ip : inode) : inode :=
  Inode (i_dev ip) (i_inum ip) (i_ref ip) (i_lock ip) (i_valid ip)
        (i16 (rd 2 off d)) (i16 (rd 2 (off + 2) d)) (i16 (rd 2 (off + 4) d)) (i16 (rd 2 (off + 6) d))
        (rd 4 (off + 8) d) (rd 2 (off + 12) d) (rd 2 (off + 14) d) (rd 2 (off + 16) d)
        ((fun i => rd 4 (addr_off off i) d) <$> seq 0 naddrs).

(** stat.h *)
Record stat := Stat {
  st_type : Z; st_dev : Z; st_ino : Z; st_nlink : Z; st_size : Z; st_uid : Z; st_gid : Z; st_mode : Z
}.

Record dirent := Dirent { de_inum : Z; de_name : list Z }.
Definition enc_dirent (de : dirent) : list Z := le_enc 2 (de_inum de) ++ de_name de.
Definition dec_dirent (bs : list Z) : dirent := Dirent (le_dec (take 2 bs)) (drop 2 bs).

(** ** Path elements *)

Definition SLASH : Z := 47.

Fixpoint skip_slashes (p : list Z) : list Z :=
  match p with
  | c :: p' => if c =? SLASH then skip_slashes p' else p
  | [] => []
  end.
(** The element at the start of [p], and what follows it. *)
Fixpoint span_elem (p : list Z) : list Z * list Z :=
  match p with
  | [] => ([], [])
  | c :: p' => if (c =? SLASH) || (c =? 0) then ([], p)
               else let '(e, r) := span_elem p' in (c :: e, r)
  end.

(** [None]: no name to remove.  [name] is the old contents of the buffer. *)
Definition skipelem (path name : list Z) : option (list Z * list Z) :=
  let p := skip_slashes path in
  if hd0 p =? 0 then None
  else
    let '(e, r) := span_elem p in
    let len := length e in
    let name' := if (Z.to_nat DIRSIZ <=? len)%nat then splice 0 (take (Z.to_nat DIRSIZ) e) name
                 else <[len := 0]> (splice 0 e name) in
    Some (skip_slashes r, name').

(** ** Operations *)

Section Code.
Context {S : Type} `{!BlockStore S}.
Local Open Scope kernel_scope.
Abbreviation F := (M (fs S)).

(** Device functions, by major number: [devsw[].read] and [devsw[].write].
    A null pointer is [None]. *)
Context (dev_read : Z -> option (nat -> Z -> F (Z * list Z))).
Context (dev_write : Z -> option (nat -> list Z -> Z -> F Z)).

Definition sio {A} (m : M S A) : F A :=
  zoom store_st (fun t s => Fs t (fsb s) (icache s) (ncache s) (cur s)) m.
Definition set_icache (c : list inode) (s : fs S) : fs S := Fs (store_st s) (fsb s) c (ncache s) (cur s).
Definition geti (ip : nat) : F inode := gets (fun s => nthd inode0 (icache s) ip).
Definition updi (ip : nat) (f : inode -> inode) : F unit :=
  modify (fun s => set_icache (alter f ip (icache s)) s).
Definition ncio {A} (f : namecache -> A * namecache) : F A :=
  fun s => let '(a, nc) := f (ncache s) in Ok a (Fs (store_st s) (fsb s) (icache s) nc (cur s)).
Definition getsb : F superblock := gets fsb.
Definition bdat (b : nat) : F block := gets (fun s => bs_data b (store_st s)).

(** *** Blocks *)

Definition bzero (dev bno : Z) : F unit :=
  bp ← sio (bs_bread dev (u32 bno));
  sio (bs_set bp zero_block);;
  sio (bs_log_write bp);;
  sio (bs_brelse bp).

Definition bit_mask (bi : Z) : Z := Z.shiftl 1 (bi mod 8).
Definition data_byte (d : list Z) (bi : Z) : Z := nthd 0 d (Z.to_nat (bi / 8)).
Definition put_byte (d : list Z) (bi : Z) (x : Z) : list Z := <[Z.to_nat (bi / 8) := x]> d.

(** The inner loop of [balloc]: the first clear bit among [n] from [bi]. *)
Fixpoint scan_bits (n : nat) (d : block) (bi : Z) : option Z :=
  match n with
  | O => None
  | Datatypes.S n' => if Z.land (data_byte d bi) (bit_mask bi) =? 0 then Some bi else scan_bits n' d (bi + 1)
  end.

Definition balloc (dev : Z) : F Z :=
  sb ← getsb;
  r ← for_loop (Z.to_nat ((sb_size sb + BPB - 1) / BPB)) 0 (fun k =>
    let b := k * BPB in
    bp ← sio (bs_bread dev (BBLOCK b sb));
    d ← bdat bp;
    match scan_bits (Z.to_nat (Z.min BPB (sb_size sb - b))) d 0 with
    | Some bi =>
        sio (bs_set bp (put_byte d bi (Z.lor (data_byte d bi) (bit_mask bi))));;
        sio (bs_log_write bp);;
        sio (bs_brelse bp);;
        bzero dev (b + bi);;
        ret (Some (b + bi))
    | None => sio (bs_brelse bp);; ret None
    end);
  match r with
  | Some b => ret b
  | None => panic "balloc: out of blocks"
  end.

Definition bfree (dev b : Z) : F unit :=
  sb ← getsb;
  bp ← sio (bs_bread dev (BBLOCK b sb));
  let bi := b mod BPB in
  d ← bdat bp;
  if Z.land (data_byte d bi) (bit_mask bi) =? 0 then panic "freeing free block"
  else
    sio (bs_set bp (put_byte d bi (Z.land (data_byte d bi) (Z.lnot (bit_mask bi)))));;
    sio (bs_log_write bp);;
    sio (bs_brelse bp).

(** *** Inodes *)

Definition iget (dev inum : Z) : F nat :=
  c ← gets icache;
  match find_idx (fun i => (0 <? i_ref i) && (i_dev i =? dev) && (i_inum i =? inum)) c with
  | Some ip => updi ip (fun i => set_ref (i32 (i_ref i + 1)) i);; ret ip
  | None =>
      match find_idx (fun i => i_ref i =? 0) c with
      | None => panic "iget: no inodes"
      | Some ip =>
          updi ip (fun i => Inode dev inum 1 (i_lock i) 0 (i_type i) (i_major i) (i_minor i) (i_nlink i)
                                  (i_size i) (i_uid i) (i_gid i) (i_mode i) (i_addrs i));;
          ret ip
      end
  end.

Definition idup (ip : nat) : F nat := updi ip (fun i => set_ref (i32 (i_ref i + 1)) i);; ret ip.

(** A fresh on-disk inode: [memset], then type, owner and default mode. *)
Definition fresh_dinode (off : nat) (type uid gid : Z) (d : block) : block :=
  let d0 := splice off (replicate (Z.to_nat DINODESIZE) 0) d in
  let mode := if type =? T_DIR then DEFAULT_DIR_MODE else DEFAULT_FILE_MODE in
  wr 2 (off + 16) mode (wr 2 (off + 14) gid (wr 2 (off + 12) uid (wr 2 off type d0))).

Definition ialloc (dev type : Z) : F nat :=
  sb ← getsb;
  r ← for_loop (Z.to_nat (sb_ninodes sb - 1)) 1 (fun inum =>
    bp ← sio (bs_bread dev (IBLOCK inum sb));
    d ← bdat bp;
    let off := dip_off inum in
    if i16 (rd 2 off d) =? 0 then
      me ← gets cur;
      sio (bs_set bp (fresh_dinode off type (c_uid me) (c_gid me) d));;
      sio (bs_log_write bp);;
      sio (bs_brelse bp);;
      ip ← iget dev inum;
      ret (Some ip)
    else sio (bs_brelse bp);; ret None);
  match r with
  | Some ip => ret ip
  | None => panic "ialloc: no inodes"
  end.

Definition iupdate (ip : nat) : F unit :=
  sb ← getsb;
  i ← geti ip;
  bp ← sio (bs_bread (i_dev i) (IBLOCK (i_inum i) sb));
  d ← bdat bp;
  sio (bs_set bp (enc_dinode (dip_off (i_inum i)) i d));;
  sio (bs_log_write bp);;
  sio (bs_brelse bp).

Definition lock_inode (ip : nat) : F unit :=
  i ← geti ip;
  me ← gets cur;
  match acquiresleep (c_pid me) (i_lock i) with
  | Some lk => updi ip (set_ilock lk)
  | None => blocked "inode"
  end.

Definition ilock (ip : nat) : F unit :=
  i ← geti ip;
  if i_ref i <? 1 then panic "ilock"
  else
    lock_inode ip;;
    if i_valid i =? 0 then
      sb ← getsb;
      bp ← sio (bs_bread (i_dev i) (IBLOCK (i_inum i) sb));
      d ← bdat bp;
      updi ip (dec_dinode (dip_off (i_inum i)) d);;
      sio (bs_brelse bp);;
      updi ip (set_ivalid 1);;
      j ← geti ip;
      if i_type j =? 0 then panic "ilock: no type" else ret tt
    else ret tt.

Definition iunlock (ip : nat) : F unit :=
  i ← geti ip;
  me ← gets cur;
  if negb (holdingsleep (c_pid me) (i_lock i)) || (i_ref i <? 1) then panic "iunlock"
  else updi ip (fun i => set_ilock (releasesleep (i_lock i)) i).

Definition itrunc (ip : nat) : F unit :=
  each (seq 0 (Z.to_nat NDIRECT)) (fun k =>
    i ← geti ip;
    let a := nthd 0 (i_addrs i) k in
    if truth a then bfree (i_dev i) a;; updi ip (fun i => set_addrs (<[k := 0]> (i_addrs i)) i)
    else ret tt);;
  i ← geti ip;
  let ind := nthd 0 (i_addrs i) (Z.to_nat NDIRECT) in
  (if truth ind then
     bp ← sio (bs_bread (i_dev i) ind);
     each (seq 0 (Z.to_nat NINDIRECT)) (fun j =>
       d ← bdat bp;
       let a := rd 4 (4 * j) d in
       if truth a then bfree (i_dev i) a else ret tt);;
     sio (bs_brelse bp);;
     bfree (i_dev i) ind;;
     updi ip (fun i => set_addrs (<[Z.to_nat NDIRECT := 0]> (i_addrs i)) i)
   else ret tt);;
  updi ip (set_size 0);;
  iupdate ip.

Definition iput (ip : nat) : F unit :=
  lock_inode ip;;
  i ← geti ip;
  (if truth (i_valid i) && (i_nlink i =? 0) && (i_ref i =? 1) then
     itrunc ip;;
     updi ip (set_type 0);;
     iupdate ip;;
     updi ip (set_ivalid 0)
   else ret tt);;
  updi ip (fun i => set_ilock (releasesleep (i_lock i)) i);;
  updi ip (fun i => set_ref (i32 (i_ref i - 1)) i).

Definition iunlockput (ip : nat) : F unit := iunlock ip;; iput ip.

(** *** Contents *)

Definition bmap (ip : nat) (bn : Z) : F Z :=
  i ← geti ip;
  if bn <? NDIRECT then
    let a := nthd 0 (i_addrs i) (Z.to_nat bn) in
    if a =? 0 then
      a' ← balloc (i_dev i);
      updi ip (fun i => set_addrs (<[Z.to_nat bn := a']> (i_addrs i)) i);;
      ret a'
    else ret a
  else
    let bn' := bn - NDIRECT in
    if bn' <? NINDIRECT then
      let a := nthd 0 (i_addrs i) (Z.to_nat NDIRECT) in
      ind ← (if a =? 0 then
               a' ← balloc (i_dev i);
               updi ip (fun i => set_addrs (<[Z.to_nat NDIRECT := a']> (i_addrs i)) i);;
               ret a'
             else ret a);
      bp ← sio (bs_bread (i_dev i) ind);
      d ← bdat bp;
      let e := rd 4 (4 * Z.to_nat bn') d in
      e' ← (if e =? 0 then
              x ← balloc (i_dev i);
              d' ← bdat bp;
              sio (bs_set bp (wr 4 (4 * Z.to_nat bn') x d'));;
              sio (bs_log_write bp);;
              ret x
            else ret e);
      sio (bs_brelse bp);;
      ret e'
    else panic "bmap: out of range".

Definition stati (ip : nat) : F stat :=
  i ← geti ip;
  ret (Stat (i_type i) (i_dev i) (i_inum i) (i_nlink i) (i_size i) (i_uid i) (i_gid i) (i_mode i)).

(** One pass of the copying loops: [m] bytes at [off] of the file. *)
Definition chunk (off n tot : Z) : Z := Z.min (n - tot) (BSIZE - off mod BSIZE).

Fixpoint readi_loop (fuel : nat) (ip : nat) (off n tot : Z) (acc : list Z) : F (list Z) :=
  match fuel with
  | O => ret acc
  | Datatypes.S fuel' =>
      if tot <? n then
        i ← geti ip;
        a ← bmap ip (off / BSIZE);
        bp ← sio (bs_bread (i_dev i) a);
        let m := chunk off n tot in
        d ← bdat bp;
        sio (bs_brelse bp);;
        readi_loop fuel' ip (off + m) n (tot + m) (acc ++ slice (Z.to_nat (off mod BSIZE)) (Z.to_nat m) d)
      else ret acc
  end.

Definition readi (ip : nat) (off n : Z) : F (Z * list Z) :=
  i ← geti ip;
  if i_type i =? T_DEV then
    if (i_major i <? 0) || (NDEV <=? i_major i) then ret (-1, [])
    else match dev_read (i_major i) with
         | None => ret (-1, [])
         | Some f => f ip n
         end
  else if (i_size i <? off) || (u32 (off + n) <? off) then ret (-1, [])
  else
    let n := if i_size i <? off + n then i_size i - off else n in
    bs ← readi_loop (Z.to_nat n) ip off n 0 [];
    ret (i32 n, bs).

Fixpoint writei_loop (fuel : nat) (ip : nat) (src : list Z) (off n tot : Z) : F Z :=
  match fuel with
  | O => ret off
  | Datatypes.S fuel' =>
      if tot <? n then
        i ← geti ip;
        a ← bmap ip (off / BSIZE);
        bp ← sio (bs_bread (i_dev i) a);
        let m := chunk off n tot in
        d ← bdat bp;
        sio (bs_set bp (splice (Z.to_nat (off mod BSIZE)) (slice (Z.to_nat tot) (Z.to_nat m) src) d));;
        sio (bs_log_write bp);;
        sio (bs_brelse bp);;
        writei_loop fuel' ip src (off + m) n (tot + m)
      else ret off
  end.

Definition writei (ip : nat) (src : list Z) (off n : Z) : F Z :=
  i ← geti ip;
  if i_type i =? T_DEV then
    if (i_major i <? 0) || (NDEV <=? i_major i) then ret (-1)
    else match dev_write (i_major i) with
         | None => ret (-1)
         | Some f => f ip src n
         end
  else if (i_size i <? off) || (u32 (off + n) <? off) then ret (-1)
  else if MAXFILE * BSIZE <? u32 (off + n) then ret (-1)
  else
    off' ← writei_loop (Z.to_nat n) ip src off n 0;
    i ← geti ip;
    (if (0 <? n) && (i_size i <? off') then updi ip (set_size off');; iupdate ip else ret tt);;
    ret (i32 n).

(** *** Directories *)

Definition namecmp (s t : list Z) : Z := strncmp (Z.to_nat DIRSIZ) s t.

Definition DE : Z := DIRENTSIZE.

(** The result of [dirlookup]: the inode and the [*poff] it stores. *)
Definition dirlookup (dp : nat) (name : list Z) : F (option (nat * Z)) :=
  dpi ← geti dp;
  if negb (i_type dpi =? T_DIR) then panic "dirlookup not DIR"
  else
    c ← ncio (namecache_lookup (i_dev dpi) (i_inum dpi) name);
    if truth c then ip ← iget (i_dev dpi) c; ret (Some (ip, 0))
    else
      for_loop (Z.to_nat ((i_size dpi + DE - 1) / DE)) 0 (fun k =>
        let off := k * DE in
        '(r, bs) ← readi dp off DE;
        if negb (r =? DE) then panic "dirlookup read"
        else
          let de := dec_dirent bs in
          if de_inum de =? 0 then ret None
          else if namecmp name (de_name de) =? 0 then
            ncio (fun nc => (tt, namecache_add (i_dev dpi) (i_inum dpi) name (de_inum de) nc));;
            ip ← iget (i_dev dpi) (de_inum de);
            ret (Some (ip, off))
          else ret None).

Definition dirlink (dp : nat) (name : list Z) (inum : Z) : F Z :=
  r ← dirlookup dp name;
  match r with
  | Some (ip, _) => iput ip;; ret (-1)
  | None =>
      dpi ← geti dp;
      let n := Z.to_nat ((i_size dpi + DE - 1) / DE) in
      e ← for_loop n 0 (fun k =>
        let off := k * DE in
        '(r, bs) ← readi dp off DE;
        if negb (r =? DE) then panic "dirlink read"
        else if de_inum (dec_dirent bs) =? 0 then ret (Some off) else ret None);
      let off := default (Z.of_nat n * DE) e in
      let de := Dirent (u16 inum) (strncpy (Z.to_nat DIRSIZ) (replicate (Z.to_nat DIRSIZ) 0) name) in
      r ← writei dp (enc_dirent de) off DE;
      if negb (r =? DE) then panic "dirlink"
      else
        ncio (fun nc => (tt, namecache_add (i_dev dpi) (i_inum dpi) name inum nc));;
        ret 0
  end.

(** *** Path names *)

(** The loop of [namex] from inode [ip]; [fuel] bounds the path elements. *)
Fixpoint namex_loop (fuel : nat) (ip : nat) (path : list Z) (parent : bool) (name : list Z)
  : F (option (nat * list Z)) :=
  match fuel with
  | O => panic "undefined: namex fuel"
  | Datatypes.S fuel' =>
      match skipelem path name with
      | None => if parent then iput ip;; ret None else ret (Some (ip, name))
      | Some (path', name') =>
          ilock ip;;
          i ← geti ip;
          if negb (i_type i =? T_DIR) then iunlockput ip;; ret None
          else if parent && (hd0 path' =? 0) then iunlock ip;; ret (Some (ip, name'))
          else
            next ← dirlookup ip name';
            match next with
            | None => iunlockput ip;; ret None
            | Some (nx, _) => iunlockput ip;; namex_loop fuel' nx path' parent name'
            end
      end
  end.

Definition namex (path : list Z) (parent : bool) (name : list Z) : F (option (nat * list Z)) :=
  ip ← (if hd0 path =? SLASH then iget ROOTDEV ROOTINO
        else me ← gets cur; idup (c_cwd me));
  namex_loop (Datatypes.S (length path)) ip path parent name.

Definition name0 : list Z := replicate (Z.to_nat DIRSIZ) 0.

Definition namei (path : list Z) : F (option nat) :=
  r ← namex path false name0; ret (fst <$> r).
Definition nameiparent (path name : list Z) : F (option (nat * list Z)) := namex path true name.

(** *** Start of day *)

Definition iinit (dev : Z) : F unit :=
  modify (fun s => set_icache (set_ilock initsleeplock <$> icache s) s);;
  bp ← sio (bs_bread dev 1);
  d ← bdat bp;
  sio (bs_brelse bp);;
  modify (fun s => Fs (store_st s)
    (Superblock (rd 4 0 d) (rd 4 4 d) (rd 4 8 d) (rd 4 12 d) (rd 4 16 d) (rd 4 20 d) (rd 4 24 d))
    (icache s) (ncache s) (cur s)).
End Code.
