(* ===== verification/Path.v ===== *)
(** Path names: [skipelem] and the loop of [namex] of fs.c.

    [components] is the usual reading of a path: the C string cut at its
    slashes, empty pieces dropped.  [skipelem] peels off one component per
    call, truncated to [DIRSIZ] bytes, so the fuel of [namex_loop] is
    enough. *)
From stdpp Require Import base numbers list strings.
From Stdlib Require Import ZArith Lia.
From S2P Require Import Prelude Params CString Namecache Bio Log Store Fs.

Local Open Scope list_scope.
Local Open Scope Z_scope.

(** ** The reference *)

Fixpoint split_on (p : list Z) : list (list Z) :=
  match p with
  | [] => [[]]
  | c :: p' =>
      if c =? SLASH then [] :: split_on p'
      else match split_on p' with
           | e :: r => (c :: e) :: r
           | [] => [[c]]
           end
  end.

Definition components (p : list Z) : list (list Z) :=
  filter (fun e => e <> []) (split_on (cstr (length p) p)).

(** The bytes of a path up to its NUL. *)
Definition pstr (p : list Z) : list Z := cstr (length p) p.

Lemma cstr_cons n c p : cstr (S n) (c :: p) = if c =? 0 then [] else c :: cstr n p.
Proof. done. Qed.

Lemma pstr_cons c p : pstr (c :: p) = if c =? 0 then [] else c :: pstr p.
Proof. done. Qed.

Lemma components_nul p : hd0 p = 0 -> components p = [].
Proof. destruct p as [|c p]; [done|]. intros Hc. cbn in Hc. subst. done. Qed.

Lemma components_slash c p : c = SLASH -> components (c :: p) = components p.
Proof. intros ->. unfold components. fold (pstr (SLASH :: p)) (pstr p). rewrite pstr_cons. done. Qed.

Lemma components_skip p : components (skip_slashes p) = components p.
Proof.
  induction p as [|c p IH]; [done|]. cbn [skip_slashes]. destruct (c =? SLASH) eqn:E; [|done]. b2p.
  by rewrite components_slash.
Qed.

Lemma skip_slashes_hd p : hd0 (skip_slashes p) <> SLASH.
Proof. induction p as [|c p IH]; [done|]. cbn [skip_slashes]. destruct (c =? SLASH) eqn:E; [done|]. b2p. done. Qed.

Lemma skip_slashes_length p : (length (skip_slashes p) <= length p)%nat.
Proof. induction p as [|c p IH]; [done|]. cbn [skip_slashes]. destruct (c =? SLASH); cbn; lia. Qed.

Lemma split_on_ne p : split_on p <> [].
Proof. destruct p as [|c p]; [done|]. cbn. destruct (c =? SLASH); [done|]. by destruct (split_on p). Qed.

(** The first piece is the element, the others those of the rest. *)
Lemma split_span p :
  split_on (pstr p) = (span_elem p).1 :: match pstr (span_elem p).2 with [] => [] | _ :: r => split_on r end.
Proof.
  induction p as [|c p IH]; [done|]. rewrite pstr_cons. cbn [span_elem].
  destruct (c =? 0) eqn:E0; [rewrite orb_true_r; b2p; subst; done|]. rewrite orb_false_r. cbn [split_on].
  destruct (c =? SLASH) eqn:Es; [cbn [fst snd]; by rewrite pstr_cons, E0|].
  rewrite IH. by destruct (span_elem p).
Qed.

Lemma span_rest p : hd0 (span_elem p).2 = 0 \/ exists r, (span_elem p).2 = SLASH :: r.
Proof.
  induction p as [|c p IH]; [by left|]. cbn [span_elem]. destruct ((c =? SLASH) || (c =? 0)) eqn:E.
  - apply orb_prop in E as [E|E]; b2p; subst; [right; by exists p|by left].
  - by destruct (span_elem p).
Qed.

Lemma span_length p : (length (span_elem p).1 + length (span_elem p).2 = length p)%nat.
Proof.
  induction p as [|c p IH]; [done|]. cbn [span_elem]. destruct ((c =? SLASH) || (c =? 0)); [done|].
  destruct (span_elem p). cbn in *. lia.
Qed.

Lemma span_nonempty p : hd0 p <> 0 -> hd0 p <> SLASH -> (span_elem p).1 <> [].
Proof.
  destruct p as [|c p]; [done|]. cbn [hd0 span_elem]. intros H1 H2.
  rewrite (proj2 (Z.eqb_neq _ _) H1), (proj2 (Z.eqb_neq _ _) H2). cbn [orb]. by destruct (span_elem p).
Qed.

Lemma components_span p :
  hd0 p <> 0 -> hd0 p <> SLASH -> components p = (span_elem p).1 :: components (span_elem p).2.
Proof.
  intros H1 H2. unfold components. fold (pstr p) (pstr (span_elem p).2). rewrite split_span, filter_cons.
  rewrite decide_True by (by apply span_nonempty). f_equal.
  destruct (span_rest p) as [Hr|[r Hr]].
  - destruct (span_elem p).2 as [|c r]; [done|]. cbn in Hr. by subst.
  - rewrite Hr, pstr_cons. done.
Qed.

Lemma span_elem_nonzero p : 0 ∉ (span_elem p).1.
Proof.
  induction p as [|c p IH]; [apply not_elem_of_nil|]. cbn [span_elem].
  destruct ((c =? SLASH) || (c =? 0)) eqn:E; [apply not_elem_of_nil|].
  apply orb_false_iff in E as [_ E]. b2p. destruct (span_elem p). cbn in *. apply not_elem_of_cons. split; [congruence|done].
Qed.

(** ** [skipelem] *)

Lemma components_hd p : hd0 (skip_slashes p) = 0 <-> components p = [].
Proof.
  rewrite <- components_skip. split; [apply components_nul|]. intros Hc.
  destruct (decide (hd0 (skip_slashes p) = 0)) as [|Hne]; [done|].
  rewrite components_span in Hc by (done || apply skip_slashes_hd). done.
Qed.

Lemma skipelem_name (e name : list Z) :
  0 ∉ e -> (Z.to_nat DIRSIZ <= length name)%nat ->
  let name' := if (Z.to_nat DIRSIZ <=? length e)%nat then splice 0 (take (Z.to_nat DIRSIZ) e) name
               else <[length e := 0]> (splice 0 e name) in
  cstr (Z.to_nat DIRSIZ) name' = take (Z.to_nat DIRSIZ) e /\ length name' = length name.
Proof.
  intros He Hn. cbn zeta. destruct (Z.to_nat DIRSIZ <=? length e)%nat eqn:E.
  - apply Nat.leb_le in E. split; [|rewrite length_splice; [done|rewrite length_take; lia]].
    unfold splice. rewrite take_0; cbn [app Nat.add]. rewrite cstr_app.
    + apply cstr_id; [|rewrite length_take; lia]. intros Hin. apply He.
      apply elem_of_take in Hin as (i & Hi & _). by apply list_elem_of_lookup_2 in Hi.
    + right. rewrite length_take. lia.
  - apply Nat.leb_gt in E. split; [|rewrite length_insert, length_splice; lia]. rewrite take_ge by lia.
    unfold splice. rewrite take_0; cbn [app Nat.add]. rewrite insert_app_r_alt, Nat.sub_diag by lia.
    assert (Hd : exists x r, drop (length e) name = x :: r).
    { destruct (drop (length e) name) as [|x r] eqn:D; [|eauto]. apply (f_equal length) in D. rewrite length_drop in D. cbn in D. lia. }
    destruct Hd as (x & r & ->). cbn [insert list_insert].
    clear -He E. revert E. generalize (Z.to_nat DIRSIZ) as n. induction e as [|c e IH]; intros [|n] Hn; cbn [length app] in *; try lia; [done|].
    apply not_elem_of_cons in He as [H0 He]. rewrite cstr_cons, (proj2 (Z.eqb_neq c 0)) by congruence. f_equal. apply IH; [done|lia].
Qed.

Lemma skipelem_shorter path name path' name' :
  skipelem path name = Some (path', name') -> (length path' < length path)%nat.
Proof.
  unfold skipelem. destruct (hd0 (skip_slashes path) =? 0) eqn:E0; [done|]. b2p.
  pose proof (span_nonempty _ E0 (skip_slashes_hd path)) as Hne. pose proof (span_length (skip_slashes path)) as Hl.
  destruct (span_elem _) as [e r]. cbn [fst snd] in *. intros [= <- _].
  pose proof (skip_slashes_length path). pose proof (skip_slashes_length r). destruct e; [done|]. cbn [length] in *. lia.
Qed.

(** One call of [skipelem] against the reference. *)
Lemma skipelem_case path name :
  (Z.to_nat DIRSIZ <= length name)%nat ->
  match skipelem path name with
  | None => components path = []
  | Some (path', name') => exists e, components path = e :: components path' /\
      cstr (Z.to_nat DIRSIZ) name' = take (Z.to_nat DIRSIZ) e /\ length name' = length name /\
      (hd0 path' = 0 <-> components path' = [])
  end.
Proof.
  intros Hn. unfold skipelem. destruct (hd0 (skip_slashes path) =? 0) eqn:E0; b2p; [by apply components_hd|].
  pose proof (components_span _ E0 (skip_slashes_hd path)) as Hc. pose proof (span_elem_nonzero (skip_slashes path)) as Hz.
  destruct (span_elem _) as [e r]. cbn [fst snd] in *. destruct (skipelem_name e name Hz Hn) as [H1 H2].
  exists e. rewrite (components_skip r). split_and!; [by rewrite <- Hc, components_skip|exact H1|exact H2|apply components_hd].
Qed.

(** The names the loop of [namex] visits, one [skipelem] call after another. *)
Fixpoint visited (fuel : nat) (path name : list Z) : list (list Z) :=
  match fuel with
  | O => []
  | S fuel' => match skipelem path name with
               | None => []
               | Some (path', name') => cstr (Z.to_nat DIRSIZ) name' :: visited fuel' path' name'
               end
  end.

(** Splitting a path.  For every path and name buffer of at least
    [DIRSIZ] bytes, repeated [skipelem] visits exactly the non-empty
    components of the path between slashes, up to its NUL, in order, each
    cut to [DIRSIZ] bytes; and the check [*path == 0] that stops
    [nameiparent] one level early holds exactly at the last component. *)
Theorem skipelem_components path name :
  (Z.to_nat DIRSIZ <= length name)%nat ->
  visited (S (length path)) path name = take (Z.to_nat DIRSIZ) <$> components path /\
  forall path' name', skipelem path name = Some (path', name') ->
    (hd0 path' = 0 <-> length (components path) = 1%nat).
Proof.
  intros Hn. split.
  - enough (H : forall fuel path name, (length path < fuel)%nat -> (Z.to_nat DIRSIZ <= length name)%nat ->
      visited fuel path name = take (Z.to_nat DIRSIZ) <$> components path) by (apply H; [lia|done]).
    clear. intros fuel. induction fuel as [|fuel IH]; intros path name Hf Hn; [lia|]. cbn [visited].
    pose proof (skipelem_case path name Hn) as Hc. pose proof (skipelem_shorter path name) as Hs.
    destruct (skipelem path name) as [[path' name']|]; [|by rewrite Hc].
    destruct Hc as (e & -> & -> & Hl & _). specialize (Hs _ _ eq_refl). cbn [fmap list_fmap]. f_equal. apply IH; lia.
  - intros path' name' Hs. pose proof (skipelem_case path name Hn) as Hc. rewrite Hs in Hc.
    destruct Hc as (e & -> & _ & _ & Hh). rewrite Hh. cbn [length]. destruct (components path'); cbn [length]; split; (done || lia).
Qed.

Definition smp_path : list Z := lit "//usr///averylongcomponent/b".

Lemma skipelem_components_witness :
  visited (S (length smp_path)) smp_path name0
  = @removelast Z <$> [lit "usr"; lit "averylongcompo"; lit "b"].
Proof.
  destruct (skipelem_components smp_path name0 ltac:(vm_compute; lia)) as [H _]. rewrite H. vm_compute. reflexivity.
Defined.

(** ** The loop of [namex] *)

Section Namex.
Context {S : Type} `{!BlockStore S}.
Context (dev_read : Z -> option (nat -> Z -> M (fs S) (Z * list Z))).

(** [namex] terminates.  A path of [n] bytes has fewer than [n + 1]
    components, so the loop never runs more than [n + 1] rounds: more fuel
    changes nothing, in any state and for any outcome. *)
Theorem namex_terminates fuel ip path parent name (s : fs S) :
  (length path < fuel)%nat ->
  namex_loop dev_read fuel ip path parent name s = namex_loop dev_read (Datatypes.S (length path)) ip path parent name s.
Proof.
  enough (H : forall f1 f2 ip path name (s : fs S), (length path < f1)%nat -> (length path < f2)%nat ->
    namex_loop dev_read f1 ip path parent name s = namex_loop dev_read f2 ip path parent name s)
    by (intros Hf; apply H; lia).
  clear. intros f1. induction f1 as [|f1 IH]; intros [|f2] ip path name s H1 H2; try lia. cbn [namex_loop].
  pose proof (skipelem_shorter path name) as Hs. destruct (skipelem path name) as [[path' name']|]; [|done].
  specialize (Hs _ _ eq_refl). apply bind_ext. intros _ s1. apply bind_ext. intros i s2.
  destruct (negb _); [done|]. destruct (parent && _); [done|]. apply bind_ext. intros [[nx o]|] s3; [|done].
  apply bind_ext. intros _ s4. apply IH; lia.
Qed.
End Namex.
