(* ===== verification/Balloc.v ===== *)
(** The block allocator of fs.c: proof rules for code over a [BlockStore],
    and the specification of [balloc] and [bfree] against the free bitmap. *)
From stdpp Require Import base numbers list sets strings.
From Stdlib Require Import ZArith Lia.
From S2P Require Import Prelude Params CString Namecache Bio Log Store Fs.

Local Open Scope list_scope.
Local Open Scope Z_scope.

(** ** Rules for code over the store *)

Section Rules.
Context {S : Type} `{!BlockStore S}.
Implicit Types (g : geo) (v : Z -> block) (L : list Z) (H : list hand) (t : S).

Lemma wp_sio_bind {A B} (m : M S A) (k : A -> M (fs S) B) Q E t sb ic nc me a t' :
  m t = Ok a t' -> wp (k a) Q E (Fs t' sb ic nc me) -> wp (bind (sio m) k) Q E (Fs t sb ic nc me).
Proof. intros Hm HQ. apply wp_bind, wp_zoom. eapply wp_eq; [exact Hm|exact HQ]. Qed.

(** A computation in tail position. *)
Lemma wp_tail {X A} (m : M X A) Q E s : wp (bind m ret) Q E s -> wp m Q E s.
Proof. unfold wp, bind, ret. by destruct (m s). Qed.

Lemma wp_bread {B} g v L H o (k : nat -> M (fs S) B) Q E t sb ic nc me b :
  store g v L H o t -> readable g b -> b ∉ blocks_of H -> Z.of_nat (length L + length H) < NBUF ->
  (forall i t', i ∉ h_buf <$> H -> store g v L (Hand i b true :: H) o t' ->
     wp (k i) Q E (Fs t' sb ic nc me)) ->
  wp (bind (sio (bs_bread ROOTDEV b)) k) Q E (Fs t sb ic nc me).
Proof.
  intros Ht Hb Hn Hr Hk. destruct (bread_law g v L H o t b Ht Hb Hn Hr) as (i & t' & E1 & Hi & Ht').
  eapply wp_sio_bind; [exact E1|]. by apply Hk.
Qed.

Lemma wp_bdat {B} g v L H o (k : block -> M (fs S) B) Q E t sb ic nc me i b c :
  store g v L H o t -> Hand i b c ∈ H -> wp (k (v b)) Q E (Fs t sb ic nc me) ->
  wp (bind (bdat i) k) Q E (Fs t sb ic nc me).
Proof.
  intros Ht Hi Hk. apply wp_bind, wp_gets. cbn [store_st].
  destruct (store_data g v L H o t i b c Ht Hi) as [-> _]. exact Hk.
Qed.

Lemma wp_set {B} g v L H o (k : unit -> M (fs S) B) Q E t sb ic nc me i b c d :
  store g v L H o t -> Hand i b c ∈ H -> length d = bsize ->
  (forall t', store g (vset b d v) L (set_clean i false H) o t' -> wp (k tt) Q E (Fs t' sb ic nc me)) ->
  wp (bind (sio (bs_set i d)) k) Q E (Fs t sb ic nc me).
Proof.
  intros Ht Hi Hd Hk. destruct (set_law g v L H o t i b c d Ht Hi Hd) as (t' & E1 & Ht').
  eapply wp_sio_bind; [exact E1|]. by apply Hk.
Qed.

Lemma wp_log_write {B} g v L H (k : unit -> M (fs S) B) Q E t sb ic nc me i b c :
  store g v L H true t -> Hand i b c ∈ H -> writable g b -> Z.of_nat (length L) < geo_nlog g - 1 ->
  (forall t', store g v (absorb b L) (set_clean i true H) true t' -> wp (k tt) Q E (Fs t' sb ic nc me)) ->
  wp (bind (sio (bs_log_write i)) k) Q E (Fs t sb ic nc me).
Proof.
  intros Ht Hi Hw Hr Hk. destruct (log_write_law g v L H t i b c Ht Hi Hw Hr) as (t' & E1 & Ht').
  eapply wp_sio_bind; [exact E1|]. by apply Hk.
Qed.

Lemma wp_brelse {B} g v L H o (k : unit -> M (fs S) B) Q E t sb ic nc me i b :
  store g v L (Hand i b true :: H) o t ->
  (forall t', store g v L H o t' -> wp (k tt) Q E (Fs t' sb ic nc me)) ->
  wp (bind (sio (bs_brelse i)) k) Q E (Fs t sb ic nc me).
Proof.
  intros Ht Hk. destruct (brelse_law g v L H o t i b Ht) as (t' & E1 & Ht').
  eapply wp_sio_bind; [exact E1|]. by apply Hk.
Qed.

(** The hands after the head one was written or logged. *)
Lemma set_clean_head i b c c' H :
  i ∉ h_buf <$> H -> set_clean i c' (Hand i b c :: H) = Hand i b c' :: H.
Proof.
  intros Hi. unfold set_clean. cbn. rewrite decide_True by done. f_equal.
  induction H as [|[j b' c''] H IH]; [done|]. cbn in *. apply not_elem_of_cons in Hi as [Hne Hi].
  rewrite decide_False by done. f_equal. by apply IH.
Qed.

Lemma absorb_absorb b L : absorb b (absorb b L) = absorb b L.
Proof.
  unfold absorb at 1. rewrite decide_True; [done|]. apply elem_absorb. by left.
Qed.
End Rules.

(** ** Log space *)

(** Blocks of [W] not yet in the log. *)
Definition miss (W L : list Z) : nat := length (filter (fun b => b ∉ L) W).
(** Every block of [W], and [n] more, can still be logged. *)
Definition fits (g : geo) (W L : list Z) (n : nat) : Prop :=
  Z.of_nat (length L + miss W L + n) < geo_nlog g - 1.

Lemma miss_cons b W L : (miss (b :: W) L <= 1 + miss W L)%nat.
Proof. unfold miss. rewrite filter_cons. case_decide; simpl; lia. Qed.

Lemma miss_mono W L L' : L ⊆ L' -> (miss W L' <= miss W L)%nat.
Proof.
  intros Hsub. unfold miss. induction W as [|x W IH]; [done|]. rewrite !filter_cons.
  repeat case_decide; simpl; try lia. exfalso. set_solver.
Qed.

Lemma miss_absorb b W L : b ∈ W -> b ∉ L -> (1 + miss W (absorb b L) <= miss W L)%nat.
Proof.
  intros Hin Hn. assert (Hsub : L ⊆ absorb b L) by (intros x Hx; apply elem_absorb; by right).
  induction W as [|x W IH]; [by apply elem_of_nil in Hin|].
  unfold miss in *. rewrite !filter_cons. pose proof (miss_mono W L (absorb b L) Hsub) as Hm. unfold miss in Hm.
  destruct (decide (x = b)) as [->|Hne].
  - rewrite (decide_True (P := b ∉ L)) by done. rewrite decide_False; [simpl; lia|].
    intros Hx. apply Hx, elem_absorb. by left.
  - apply elem_of_cons in Hin as [?|Hin]; [congruence|]. specialize (IH Hin).
    repeat case_decide; simpl; try lia. exfalso. set_solver.
Qed.

Lemma fits_absorb g W L n b : b ∈ W -> fits g W L n -> fits g W (absorb b L) n.
Proof.
  intros Hb Hf. unfold fits in *. destruct (decide (b ∈ L)) as [Hin|Hin].
  - unfold absorb. by rewrite decide_True.
  - pose proof (miss_absorb b W L Hb Hin). unfold absorb in *. rewrite decide_False in * by done.
    rewrite length_app in *. simpl in *. lia.
Qed.

(** Reserve one of the [n] for a block now known. *)
Lemma fits_cons g W L n b : fits g W L (1 + n) -> fits g (b :: W) L n.
Proof. unfold fits. pose proof (miss_cons b W L). lia. Qed.

Lemma fits_le g W L n m : fits g W L n -> (m <= n)%nat -> fits g W L m.
Proof. unfold fits. lia. Qed.

Lemma fits_lt g W L n : fits g W L n -> Z.of_nat (length L) < geo_nlog g - 1.
Proof. unfold fits. lia. Qed.

Lemma length_absorb b L : (length (absorb b L) <= 1 + length L)%nat.
Proof. unfold absorb. case_decide; [lia|]. rewrite length_app. simpl. lia. Qed.

(** Write one whole block in the middle of an operation: the sequence
    [bread], store, [log_write], [brelse] that most of fs.c is made of. *)
Lemma wp_update {S} `{!BlockStore S} {B} g v L H (k : unit -> M (fs S) B) Q E t sb ic nc me b d i :
  store g v L (Hand i b true :: H) true t -> i ∉ h_buf <$> H -> length d = bsize -> writable g b ->
  Z.of_nat (length L) < geo_nlog g - 1 ->
  (forall t', store g (vset b d v) (absorb b L) H true t' -> wp (k tt) Q E (Fs t' sb ic nc me)) ->
  wp (bind (sio (bs_set i d)) (fun _ => bind (sio (bs_log_write i)) (fun _ => bind (sio (bs_brelse i)) k)))
     Q E (Fs t sb ic nc me).
Proof.
  intros Ht Hi Hd Hw Hr Hk. eapply wp_set; [exact Ht|by left|done|]. intros t1 Ht1.
  rewrite set_clean_head in Ht1 by done. eapply wp_log_write; [exact Ht1|by left|done|done|].
  intros t2 Ht2. rewrite set_clean_head in Ht2 by done. eapply wp_brelse; [exact Ht2|]. exact Hk.
Qed.

Lemma wp_update_tail {S} `{!BlockStore S} g v L H Q E (t : S) sb ic nc me b d i :
  store g v L (Hand i b true :: H) true t -> i ∉ h_buf <$> H -> length d = bsize -> writable g b ->
  Z.of_nat (length L) < geo_nlog g - 1 ->
  (forall t', store g (vset b d v) (absorb b L) H true t' -> Q tt (Fs t' sb ic nc me)) ->
  wp (bind (sio (bs_set i d)) (fun _ => bind (sio (bs_log_write i)) (fun _ => sio (bs_brelse i))))
     Q E (Fs t sb ic nc me).
Proof.
  intros Ht Hi Hd Hw Hr Hk. eapply wp_set; [exact Ht|by left|done|]. intros t1 Ht1.
  rewrite set_clean_head in Ht1 by done. eapply wp_log_write; [exact Ht1|by left|done|done|].
  intros t2 Ht2. rewrite set_clean_head in Ht2 by done. apply wp_tail.
  eapply wp_brelse; [exact Ht2|]. intros t3 Ht3. apply wp_ret. by apply Hk.
Qed.

(** ** The disk layout *)

Definition datastart (sb : superblock) : Z := sb_bmapstart sb + sb_size sb / BPB + 1.

(** The regions of the disk in order, as mkfs lays them out.  [FSSIZE] is
    1000, so one bitmap block covers the disk. *)
Record layout (g : geo) (sb : superblock) : Prop := Layout {
  ly_log : 2 <= geo_logstart g;
  ly_nlog : 0 <= geo_nlog g <= LOGSIZE;
  ly_ino : geo_logstart g + geo_nlog g <= sb_inodestart sb;
  ly_bmap : sb_inodestart sb + sb_ninodes sb / IPB + 1 <= sb_bmapstart sb;
  ly_data : datastart sb <= sb_size sb;
  ly_size : sb_size sb <= geo_blocks g;
  ly_one : sb_size sb <= BPB;
  ly_ninodes : 0 <= sb_ninodes sb < 2 ^ 16
}.

Definition is_data (sb : superblock) (b : Z) : Prop := datastart sb <= b < sb_size sb.

Section Layout.
Context (g : geo) (sb : superblock) (Hly : layout g sb).

Lemma region_sizes : 0 <= sb_ninodes sb / IPB /\ 0 <= sb_size sb / BPB.
Proof.
  destruct Hly. unfold datastart in *.
  assert (0 <= sb_ninodes sb / IPB) by (apply Z.div_pos; [lia|done]).
  split; [done|]. destruct (decide (0 <= sb_size sb)); [by apply Z.div_pos|].
  assert (sb_size sb <= sb_size sb / BPB) by (apply Z.div_le_lower_bound; [done|unfold BPB, BSIZE; lia]). lia.
Qed.

Lemma bblock_range b :
  0 <= b < sb_size sb -> sb_bmapstart sb <= BBLOCK b sb < datastart sb /\ writable g (BBLOCK b sb).
Proof.
  intros Hb. pose proof region_sizes as [H1 H2]. destruct Hly. unfold BBLOCK, datastart, writable, readable in *.
  assert (0 <= b / BPB <= sb_size sb / BPB)
    by (split; [apply Z.div_pos; [lia|done]|apply Z.div_le_mono; [done|lia]]). lia.
Qed.

Lemma iblock_range i :
  0 <= i < sb_ninodes sb ->
  sb_inodestart sb <= IBLOCK i sb < sb_bmapstart sb /\ writable g (IBLOCK i sb).
Proof.
  intros Hi. pose proof region_sizes as [H1 H2]. destruct Hly. unfold IBLOCK, datastart, writable, readable in *.
  assert (0 <= i / IPB <= sb_ninodes sb / IPB)
    by (split; [apply Z.div_pos; [lia|done]|apply Z.div_le_mono; [done|lia]]). lia.
Qed.

Lemma data_writable b : is_data sb b -> writable g b.
Proof.
  intros Hb. pose proof region_sizes as [H1 H2]. destruct Hly. unfold is_data, datastart, writable, readable in *. lia.
Qed.

(** One block of the bitmap is enough. *)
Lemma BBLOCK_one b : 0 <= b < sb_size sb -> BBLOCK b sb = sb_bmapstart sb.
Proof. intros Hb. destruct Hly. unfold BBLOCK. rewrite Z.div_small by lia. done. Qed.

Lemma data_not_bitmap b b' : is_data sb b -> 0 <= b' < sb_size sb -> b <> BBLOCK b' sb.
Proof. intros Hb Hb'. pose proof (bblock_range b' Hb'). unfold is_data in Hb. lia. Qed.

Lemma data_not_inode b i : is_data sb b -> 0 <= i < sb_ninodes sb -> b <> IBLOCK i sb.
Proof.
  intros Hb Hi. pose proof (iblock_range i Hi). unfold is_data, datastart in Hb.
  pose proof region_sizes. lia.
Qed.

Lemma bitmap_not_inode b i : 0 <= b < sb_size sb -> 0 <= i < sb_ninodes sb -> BBLOCK b sb <> IBLOCK i sb.
Proof. intros Hb Hi. pose proof (iblock_range i Hi). pose proof (bblock_range b Hb). lia. Qed.
End Layout.

(** ** The bitmap *)

(** Block [b] is marked in use. *)
Definition bit_in (d : block) (bi : Z) : bool := negb (Z.land (data_byte d bi) (bit_mask bi) =? 0).
Definition in_use (sb : superblock) (v : Z -> block) (b : Z) : bool := bit_in (v (BBLOCK b sb)) (b mod BPB).

Lemma bit_in_testbit d bi : 0 <= bi -> bit_in d bi = Z.testbit (data_byte d bi) (bi mod 8).
Proof.
  intros Hbi. unfold bit_in, bit_mask. pose proof (Z.mod_pos_bound bi 8 ltac:(lia)) as Hk.
  rewrite Z.shiftl_1_l. destruct (Z.testbit _ (bi mod 8)) eqn:E.
  - apply negb_true_iff, Z.eqb_neq. intros H0.
    apply (f_equal (fun z => Z.testbit z (bi mod 8))) in H0.
    rewrite Z.land_spec, E, Z.pow2_bits_true, Z.bits_0 in H0 by lia. done.
  - apply negb_false_iff, Z.eqb_eq, Z.bits_inj'. intros n Hn. rewrite Z.land_spec, Z.bits_0.
    destruct (decide (n = bi mod 8)) as [->|Hne]; [by rewrite E|].
    rewrite Z.pow2_bits_false by lia. apply andb_false_r.
Qed.

(** Setting or clearing one bit of a bitmap block changes that bit only. *)
Lemma bit_in_put d bi bi' (x : Z) (w : bool) :
  0 <= bi < BPB -> 0 <= bi' < BPB -> length d = bsize ->
  (forall n, 0 <= n < 8 -> Z.testbit x n = if decide (n = bi mod 8) then w else Z.testbit (data_byte d bi) n) ->
  bit_in (put_byte d bi x) bi' = if decide (bi' = bi) then w else bit_in d bi'.
Proof.
  intros Hbi Hbi' Hd Hx. rewrite !bit_in_testbit by lia. unfold put_byte, data_byte.
  unfold BPB, BSIZE in *. pose proof bsize_nat as Hbs.
  pose proof (Z.mod_pos_bound bi' 8 ltac:(lia)).
  destruct (decide (bi' / 8 = bi / 8)) as [Hq|Hq].
  - rewrite Hq, nthd_insert_eq by zlia. rewrite Hx by lia.
    destruct (decide (bi' mod 8 = bi mod 8)) as [Hm|Hm].
    + rewrite decide_True; [done|]. rewrite (Z.div_mod bi' 8), (Z.div_mod bi 8) by lia. congruence.
    + rewrite decide_False by (intros ->; done). unfold data_byte. done.
  - rewrite nthd_insert_ne by zlia. rewrite decide_False by (intros ->; done). done.
Qed.

Definition set_bit (d : block) (bi : Z) : block := put_byte d bi (Z.lor (data_byte d bi) (bit_mask bi)).
Definition clear_bit (d : block) (bi : Z) : block :=
  put_byte d bi (Z.land (data_byte d bi) (Z.lnot (bit_mask bi))).

Lemma length_put_byte d bi x : length (put_byte d bi x) = length d.
Proof. apply length_insert. Qed.

Lemma mask_testbit bi n : 0 <= bi -> 0 <= n -> Z.testbit (bit_mask bi) n = bool_decide (n = bi mod 8).
Proof.
  intros Hbi Hn. unfold bit_mask. rewrite Z.shiftl_1_l. pose proof (Z.mod_pos_bound bi 8 ltac:(lia)).
  case_bool_decide as Hd; [subst n; apply Z.pow2_bits_true; lia|apply Z.pow2_bits_false; lia].
Qed.

Lemma bit_in_set d bi bi' :
  0 <= bi < BPB -> 0 <= bi' < BPB -> length d = bsize ->
  bit_in (set_bit d bi) bi' = if decide (bi' = bi) then true else bit_in d bi'.
Proof.
  intros H1 H2 H3. apply bit_in_put; try done. intros n Hn.
  rewrite Z.lor_spec, mask_testbit by lia. case_decide as Hd; [subst n|].
  - by rewrite bool_decide_eq_true_2, orb_true_r.
  - by rewrite bool_decide_eq_false_2, orb_false_r.
Qed.

Lemma bit_in_clear d bi bi' :
  0 <= bi < BPB -> 0 <= bi' < BPB -> length d = bsize ->
  bit_in (clear_bit d bi) bi' = if decide (bi' = bi) then false else bit_in d bi'.
Proof.
  intros H1 H2 H3. apply bit_in_put; try done. intros n Hn.
  rewrite Z.land_spec, Z.lnot_spec, mask_testbit by lia. case_decide as Hd; [subst n|].
  - by rewrite bool_decide_eq_true_2, andb_false_r.
  - by rewrite bool_decide_eq_false_2, andb_true_r.
Qed.

Lemma scan_bits_spec n d bi :
  match scan_bits n d bi with
  | Some k => bi <= k < bi + Z.of_nat n /\ bit_in d k = false /\ forall j, bi <= j < k -> bit_in d j = true
  | None => forall j, bi <= j < bi + Z.of_nat n -> bit_in d j = true
  end.
Proof.
  revert bi. induction n as [|n IH]; intros bi; cbn [scan_bits]; [lia|].
  destruct (_ =? 0) eqn:E.
  - split; [lia|]. split; [|lia]. unfold bit_in. by rewrite E.
  - assert (Hb : bit_in d bi = true) by (unfold bit_in; by rewrite E). specialize (IH (bi + 1)).
    destruct (scan_bits n d (bi + 1)) as [k|].
    + destruct IH as (Hk & Hf & Hj). split; [lia|]. split; [done|]. intros j Hj'.
      destruct (decide (j = bi)) as [->|]; [done|]. apply Hj. lia.
    + intros j Hj. destruct (decide (j = bi)) as [->|]; [done|]. apply IH. lia.
Qed.

(** ** Allocation on the abstract state *)

Definition mark (sb : superblock) (b : Z) (v : Z -> block) : Z -> block :=
  vset (BBLOCK b sb) (set_bit (v (BBLOCK b sb)) (b mod BPB)) v.
Definition unmark (sb : superblock) (b : Z) (v : Z -> block) : Z -> block :=
  vset (BBLOCK b sb) (clear_bit (v (BBLOCK b sb)) (b mod BPB)) v.
Definition alloc_view (sb : superblock) (b : Z) (v : Z -> block) : Z -> block :=
  vset b zero_block (mark sb b v).

(** The blocks of the boot, super, log, inode and bitmap regions are marked. *)
Definition meta_marked (sb : superblock) (v : Z -> block) : Prop :=
  forall b, 0 <= b < datastart sb -> in_use sb v b = true.

Lemma vset_eq b d v : vset b d v b = d.
Proof. unfold vset. by rewrite decide_True. Qed.
Lemma vset_ne b d v b' : b' <> b -> vset b d v b' = v b'.
Proof. intros H. unfold vset. by rewrite decide_False. Qed.

Lemma BBLOCK_mod b b' sb : BBLOCK b sb = BBLOCK b' sb -> b mod BPB = b' mod BPB -> b = b'.
Proof. unfold BBLOCK. intros H1 H2. rewrite (Z.div_mod b BPB), (Z.div_mod b' BPB) by done. nia. Qed.

Section Bits.
Context (g : geo) (sb : superblock) (Hly : layout g sb).
Context (v : Z -> block) (Hlen : forall b, readable g b -> length (v b) = bsize).

Lemma bitmap_len b : 0 <= b < sb_size sb -> length (v (BBLOCK b sb)) = bsize.
Proof. intros Hb. apply Hlen. by apply (bblock_range g sb Hly b Hb). Qed.

Lemma in_use_mark b b' :
  0 <= b < sb_size sb -> 0 <= b' < sb_size sb ->
  in_use sb (mark sb b v) b' = if decide (b' = b) then true else in_use sb v b'.
Proof.
  intros Hb Hb'. unfold in_use, mark, vset. case_decide as Hd.
  - rewrite Hd, bit_in_set; [|by apply Z.mod_pos_bound|by apply Z.mod_pos_bound|by apply bitmap_len].
    destruct (decide (b' = b)) as [->|Hne]; [by rewrite decide_True|].
    rewrite decide_False; [done|]. intros Hm. apply Hne. by eapply BBLOCK_mod.
  - by rewrite decide_False by congruence.
Qed.

Lemma in_use_unmark b b' :
  0 <= b < sb_size sb -> 0 <= b' < sb_size sb ->
  in_use sb (unmark sb b v) b' = if decide (b' = b) then false else in_use sb v b'.
Proof.
  intros Hb Hb'. unfold in_use, unmark, vset. case_decide as Hd.
  - rewrite Hd, bit_in_clear; [|by apply Z.mod_pos_bound|by apply Z.mod_pos_bound|by apply bitmap_len].
    destruct (decide (b' = b)) as [->|Hne]; [by rewrite decide_True|].
    rewrite decide_False; [done|]. intros Hm. apply Hne. by eapply BBLOCK_mod.
  - by rewrite decide_False by congruence.
Qed.

Lemma in_use_vset_data b d b' :
  is_data sb b -> 0 <= b' < sb_size sb -> in_use sb (vset b d v) b' = in_use sb v b'.
Proof.
  intros Hb Hb'. unfold in_use. rewrite vset_ne; [done|]. intros Heq.
  symmetry in Heq. by apply (data_not_bitmap g sb Hly b b').
Qed.
End Bits.

Lemma in_use_alloc g sb v b b' :
  layout g sb -> (forall b, readable g b -> length (v b) = bsize) -> is_data sb b -> 0 <= b' < sb_size sb ->
  in_use sb (alloc_view sb b v) b' = if decide (b' = b) then true else in_use sb v b'.
Proof.
  intros Hly Hlen Hb Hb'. unfold alloc_view. rewrite (in_use_vset_data g sb Hly) by done.
  apply (in_use_mark g sb Hly v Hlen); [|done]. unfold is_data, datastart in Hb.
  pose proof (region_sizes g sb Hly). destruct Hly. lia.
Qed.

Definition oob (sb : superblock) (v : Z -> block) (m : string) : Prop :=
  m = "balloc: out of blocks"%string /\ forall b, 0 <= b < sb_size sb -> in_use sb v b = true.

(** ** Specifications *)

Section Specs.
Context {S : Type} `{!BlockStore S}.
Implicit Types (g : geo) (v : Z -> block) (L : list Z) (H : list hand) (t : S).

(** Buffers in hand while allocating hold data blocks in use. *)
Definition hands_data (sb : superblock) (v : Z -> block) (H : list hand) : Prop :=
  Forall (fun b => is_data sb b /\ in_use sb v b = true) (blocks_of H).

Lemma fits_bufs g sb W L H n :
  layout g sb -> fits g W L n -> (length H <= 1)%nat -> Z.of_nat (length L + length H) < NBUF.
Proof. intros [] Hr HH. unfold fits, LOGSIZE, NBUF in *. lia. Qed.

Lemma bzero_wp g v W L H n Q E t sb ic nc me b :
  layout g sb -> store g v L H true t -> is_data sb b -> b ∉ blocks_of H -> fits g W L n -> (length H <= 1)%nat ->
  (forall t', store g (vset b zero_block v) (absorb b L) H true t' -> Q tt (Fs t' sb ic nc me)) ->
  wp (bzero ROOTDEV b) Q E (Fs t sb ic nc me).
Proof.
  intros Hly Ht Hb Hn Hr HH Hk. pose proof (data_writable g sb Hly b Hb) as Hw.
  unfold bzero. rewrite u32_small.
  2:{ destruct Hw as [[Hw _] _]. unfold is_data in Hb. destruct Hly. unfold BPB, BSIZE in *. lia. }
  eapply wp_bread; [exact Ht|apply Hw|done|by eapply fits_bufs|]. intros i t1 Hi Ht1.
  eapply wp_update_tail; [exact Ht1|done|apply length_zero_block|done|by eapply fits_lt|done].
Qed.

(** [balloc] returns the lowest free block, marks it and zeroes it; it panics
    only when every block is marked. *)
Lemma balloc_wp g v W L H n Q E t sb ic nc me :
  layout g sb -> store g v L H true t -> meta_marked sb v -> hands_data sb v H -> (length H <= 1)%nat ->
  sb_bmapstart sb ∈ W -> fits g W L (1 + n) -> (forall m, oob sb v m -> E m) ->
  (forall b t', is_data sb b -> in_use sb v b = false -> (forall b', 0 <= b' < b -> in_use sb v b' = true) ->
     store g (alloc_view sb b v) (absorb b (absorb (BBLOCK b sb) L)) H true t' ->
     fits g (b :: W) (absorb b (absorb (BBLOCK b sb) L)) n -> Q b (Fs t' sb ic nc me)) ->
  wp (balloc ROOTDEV) Q E (Fs t sb ic nc me).
Proof.
  intros Hly Ht Hmeta HH HH1 HW Hroom HE HQ. unfold balloc, getsb. apply wp_bind, wp_gets. cbn [fsb]. apply wp_bind.
  pose proof (region_sizes g sb Hly) as [_ Hsz].
  apply (wp_for_loop _ (fun k s' => exists t', s' = Fs t' sb ic nc me /\ store g v L H true t' /\
           forall b, 0 <= b < sb_size sb -> b < Z.of_nat k * BPB -> in_use sb v b = true)).
  - exists t. split_and!; try done. intros b Hb Hlt. lia.
  - intros k s' Hk (t' & -> & Ht' & Hall). rewrite Z.add_0_l. set (b0 := Z.of_nat k * BPB) in *.
    assert (Hb0 : 0 <= b0 < sb_size sb).
    { unfold b0. split; [unfold BPB, BSIZE; lia|]. assert (Z.of_nat k < (sb_size sb + BPB - 1) / BPB) by lia.
      unfold BPB, BSIZE in *. zlia. }
    destruct (bblock_range g sb Hly b0 Hb0) as [Hbr Hbw].
    assert (Hnot : BBLOCK b0 sb ∉ blocks_of H).
    { intros Hin. destruct (proj1 (Forall_forall _ _) HH _ Hin) as [Hd _]. unfold is_data in Hd. lia. }
    eapply wp_bread; [exact Ht'|apply Hbw|done|by eapply fits_bufs|].
    intros i t1 Hi Ht1. eapply wp_bdat; [exact Ht1|by left|].
    set (cnt := Z.to_nat (Z.min BPB (sb_size sb - b0))).
    pose proof (scan_bits_spec cnt (v (BBLOCK b0 sb)) 0) as Hscan.
    assert (Hblk : forall j, 0 <= j < BPB -> BBLOCK (b0 + j) sb = BBLOCK b0 sb /\ (b0 + j) mod BPB = j).
    { intros j Hj. unfold BBLOCK, b0. rewrite (Z.add_comm _ j), Z.div_add, Z.mod_add, Z.div_mul by done.
      rewrite Z.div_small, Z.mod_small by done. done. }
    destruct (scan_bits _ _ 0) as [bi|] eqn:Es.
    + destruct Hscan as (Hbi & Hfree & Hlow). set (b := b0 + bi).
      destruct (Hblk bi ltac:(lia)) as [HB1 HB2].
      assert (Hfree' : in_use sb v b = false) by (unfold in_use, b; by rewrite HB1, HB2).
      assert (Hdata : is_data sb b).
      { split; [|unfold b; lia]. destruct (decide (datastart sb <= b)) as [?|Hlt]; [done|].
        rewrite Hmeta in Hfree'; [done|]. unfold b in *. lia. }
      assert (Hlow' : forall b', 0 <= b' < b -> in_use sb v b' = true).
      { intros b' Hb'. destruct (decide (b' < b0)); [apply Hall; unfold b, is_data in *; lia|].
        replace b' with (b0 + (b' - b0)) by lia. destruct (Hblk (b' - b0)) as [E1 E2]; [unfold b in *; lia|].
        unfold in_use. rewrite E1, E2. apply Hlow. unfold b in *. lia. }
      eapply wp_update; [exact Ht1|done| |exact Hbw|by eapply fits_lt|].
      { rewrite length_put_byte. apply (store_len g v L H true t' (BBLOCK b0 sb) Ht'). apply Hbw. }
      intros t2 Ht2. apply wp_bind. eapply bzero_wp; [done|exact Ht2|exact Hdata| |..].
      * intros Hin. destruct (proj1 (Forall_forall _ _) HH _ Hin) as [_ Hu]. fold b in Hu. congruence.
      * apply fits_absorb; [|exact Hroom]. by rewrite (BBLOCK_one g sb Hly b0).
      * done.
      * intros t3 Ht3. apply wp_ret, wp_ret. fold b in HB1, HB2. eapply HQ; try done.
        -- unfold alloc_view, mark, set_bit. rewrite HB1, HB2. exact Ht3.
        -- apply fits_absorb; [by left|]. rewrite HB1. apply fits_absorb; [|by apply fits_cons].
           right. by rewrite (BBLOCK_one g sb Hly b0).
    + eapply wp_brelse; [exact Ht1|]. intros t2 Ht2. apply wp_ret.
      exists t2. split_and!; [done|done|]. intros b Hb Hlt.
      destruct (decide (b < b0)); [apply Hall; lia|].
      replace b with (b0 + (b - b0)) by lia. destruct (Hblk (b - b0)) as [E1 E2]; [unfold b0 in *; lia|].
      unfold in_use. rewrite E1, E2. apply Hscan. unfold cnt, b0 in *. lia.
  - intros s' (t' & -> & Ht' & Hall). apply wp_panic, HE. split; [done|]. intros b Hb. apply Hall; [done|].
    rewrite Z2Nat.id; unfold BPB, BSIZE in *; zlia.
Qed.

(** [bfree] clears the mark of a block in use. *)
Lemma bfree_wp g v W L H n Q E t sb ic nc me b :
  layout g sb -> store g v L H true t -> is_data sb b -> in_use sb v b = true -> hands_data sb v H ->
  (length H <= 1)%nat -> fits g W L n ->
  (forall t', store g (unmark sb b v) (absorb (BBLOCK b sb) L) H true t' -> Q tt (Fs t' sb ic nc me)) ->
  wp (bfree ROOTDEV b) Q E (Fs t sb ic nc me).
Proof.
  intros Hly Ht Hb Hu HH HH1 Hroom HQ. unfold bfree, getsb. apply wp_bind, wp_gets. cbn [fsb].
  assert (Hb0 : 0 <= b < sb_size sb).
  { unfold is_data, datastart in Hb. pose proof (region_sizes g sb Hly). destruct Hly. lia. }
  destruct (bblock_range g sb Hly b Hb0) as [Hbr Hbw].
  eapply wp_bread; [exact Ht|apply Hbw| |by eapply fits_bufs|].
  { intros Hin. destruct (proj1 (Forall_forall _ _) HH _ Hin) as [Hd _]. unfold is_data in Hd. lia. }
  intros i t1 Hi Ht1. cbv zeta. eapply wp_bdat; [exact Ht1|by left|].
  unfold in_use, bit_in in Hu. apply negb_true_iff in Hu. rewrite Hu.
  eapply wp_update_tail; [exact Ht1|done| |exact Hbw|by eapply fits_lt|exact HQ].
  rewrite length_put_byte. apply (store_len g v L H true t _ Ht). apply Hbw.
Qed.

(** Freeing a block that is not in use is caught. *)
Lemma bfree_free_panics g v W L H n t sb ic nc me b :
  layout g sb -> store g v L H true t -> is_data sb b -> in_use sb v b = false -> hands_data sb v H ->
  (length H <= 1)%nat -> fits g W L n ->
  bfree ROOTDEV b (Fs t sb ic nc me) = Panic "freeing free block".
Proof.
  intros Hly Ht Hb Hu HH HH1 Hroom.
  cut (wp (bfree ROOTDEV b) (fun _ _ => False) (fun m => m = "freeing free block"%string) (Fs t sb ic nc me)).
  { unfold wp. destruct (bfree _ _ _); try done. by intros ->. }
  unfold bfree, getsb. apply wp_bind, wp_gets. cbn [fsb].
  assert (Hb0 : 0 <= b < sb_size sb).
  { unfold is_data, datastart in Hb. pose proof (region_sizes g sb Hly). destruct Hly. lia. }
  destruct (bblock_range g sb Hly b Hb0) as [Hbr Hbw].
  eapply wp_bread; [exact Ht|apply Hbw| |by eapply fits_bufs|].
  { intros Hin. destruct (proj1 (Forall_forall _ _) HH _ Hin) as [Hd _]. unfold is_data in Hd. lia. }
  intros i t1 Hi Ht1. cbv zeta. eapply wp_bdat; [exact Ht1|by left|].
  unfold in_use, bit_in in Hu. apply negb_false_iff in Hu. rewrite Hu. by apply wp_panic.
Qed.

(** C9: the block allocator.  In a transaction with room for the bitmap
    block and one more, on a disk whose metadata blocks are marked, [balloc] either returns a
    data block that was free (the lowest numbered one), now marked in use and
    zeroed, with every other mark and every other data block unchanged, or
    panics "out of blocks", and then every block was marked.  Giving the
    block back with [bfree] returns and restores all the marks; a second
    [bfree] of it panics. *)
Theorem balloc_bfree g v L t sb ic nc me :
  layout g sb -> store g v L [] true t -> meta_marked sb v -> fits g [sb_bmapstart sb] L 1 ->
  wp (balloc ROOTDEV)
     (fun b s' => is_data sb b /\ in_use sb v b = false /\ (forall b', 0 <= b' < b -> in_use sb v b' = true) /\
        exists t' v' L', s' = Fs t' sb ic nc me /\ store g v' L' [] true t' /\ v' b = zero_block /\
          (forall b', 0 <= b' < sb_size sb -> in_use sb v' b' = (bool_decide (b' = b) || in_use sb v b')%bool) /\
          (forall b', is_data sb b' -> b' <> b -> v' b' = v b') /\
          wp (bfree ROOTDEV b) (fun _ s2 =>
            (exists t2 v2 L2, s2 = Fs t2 sb ic nc me /\ store g v2 L2 [] true t2 /\
              forall b', 0 <= b' < sb_size sb -> in_use sb v2 b' = in_use sb v b') /\
            bfree ROOTDEV b s2 = Panic "freeing free block") (fun _ => False) s')
     (oob sb v) (Fs t sb ic nc me).
Proof.
  intros Hly Ht Hmeta Hroom.
  assert (Hlen : forall b, readable g b -> length (v b) = bsize) by (intros b; by eapply store_len).
  eapply balloc_wp; [done|exact Ht|done|constructor|simpl; lia|by left|exact Hroom|done|].
  intros b t' Hb Hfree Hlow Ht' R2. pose proof (fun b' => in_use_alloc g sb v b b' Hly Hlen Hb) as Huse.
  assert (Hb0 : 0 <= b < sb_size sb).
  { unfold is_data, datastart in Hb. pose proof (region_sizes g sb Hly). destruct Hly. lia. }
  pose proof (fun b' => store_len g _ _ _ _ t' b' Ht') as Hlen'.
  split; [done|]. split; [done|]. split; [done|]. eexists t', _, _. split; [done|]. split; [exact Ht'|].
  split_and!.
  - apply vset_eq.
  - intros b' Hb'. rewrite Huse by done. case_decide; by case_bool_decide.
  - intros b' Hb' Hne. unfold alloc_view, mark. rewrite !vset_ne; [done| |done].
    by apply (data_not_bitmap g sb Hly b' b).
  - assert (Hu : in_use sb (alloc_view sb b v) b = true) by (rewrite Huse by done; by rewrite decide_True).
    eapply bfree_wp; [done|exact Ht'|done|done|constructor|simpl; lia|exact R2|].
    intros t2 Ht2. pose proof (fun b' => in_use_unmark g sb Hly _ Hlen' b b' Hb0) as Hun.
    split.
    + eexists t2, _, _. split; [done|]. split; [exact Ht2|]. intros b' Hb'. rewrite Hun by done.
      rewrite Huse by done. case_decide as Hd; [by subst b'|done].
    + eapply bfree_free_panics; [done|exact Ht2|done| |constructor|simpl; lia|apply fits_absorb; [|exact R2]; right; by rewrite (BBLOCK_one g sb Hly); [left|lia]].
      rewrite Hun by done. by rewrite decide_True.
Qed.
End Specs.
