(* ===== verification/Inode.v ===== *)
(** The inode layer of fs.c: the on-disk inode codec, [iupdate] and [ilock],
    the inode cache ([iget], [idup], [iput]) and [ialloc]. *)
From stdpp Require Import base numbers list strings.
From Stdlib Require Import ZArith Lia.
From S2P Require Import Prelude Params CString Namecache Bio Log Store Fs Balloc.

Local Open Scope list_scope.
Local Open Scope Z_scope.

(** ** The codec *)

Lemma length_splice_block off bs (d : block) :
  (off + length bs <= bsize)%nat -> length d = bsize -> length (splice off bs d) = bsize.
Proof. intros H Hd. rewrite length_splice; lia. Qed.

Lemma length_enc_words a : length (concat (le_enc 4 <$> a)) = (4 * length a)%nat.
Proof. induction a as [|x a IH]; cbn [fmap list_fmap concat length]; [done|]. rewrite length_app, IH, length_le_enc. lia. Qed.

Lemma rd_enc_words a i :
  (i < length a)%nat -> rd 4 (4 * i) (concat (le_enc 4 <$> a)) = u32 (nthd 0 a i).
Proof.
  revert i. induction a as [|x a IH]; intros i Hi; [simpl in Hi; lia|].
  cbn [fmap list_fmap concat]. unfold rd, slice. destruct i as [|i].
  - change (4 * 0)%nat with 0%nat. rewrite drop_0. rewrite take_app_le by (rewrite length_le_enc; lia).
    rewrite take_ge by (rewrite length_le_enc; lia). rewrite le_dec_enc. done.
  - replace (4 * S i)%nat with (length (le_enc 4 x) + 4 * i)%nat by (rewrite length_le_enc; lia).
    rewrite drop_app_add'; [|done]. simpl in Hi. apply IH. lia.
Qed.

(** Reading inside a spliced region. *)
Lemma rd_splice_in n off o bs d :
  (o <= off)%nat -> (off + n <= o + length bs)%nat -> (o + length bs <= length d)%nat ->
  rd n off (splice o bs d) = rd n (off - o) bs.
Proof.
  intros H1 H2 H3. unfold rd. f_equal. apply list_eq. intros i. destruct (decide (i < n)%nat) as [Hi|Hi].
  - rewrite !lookup_slice, lookup_splice_in by lia. f_equal. lia.
  - rewrite !lookup_ge_None_2; [done| |]; unfold slice; rewrite length_take; lia.
Qed.

Lemma rd_splice_out n off o bs d :
  (off + n <= o \/ o + length bs <= off)%nat -> (o + length bs <= length d)%nat ->
  rd n off (splice o bs d) = rd n off d.
Proof. intros H1 H2. unfold rd. rewrite slice_splice_disj; [done|done|lia]. Qed.

(** The fields of an inode that live on disk are in the range of their types. *)
Record inode_ok (i : inode) : Prop := InodeOk {
  io_type : - 2 ^ 15 <= i_type i < 2 ^ 15;
  io_major : - 2 ^ 15 <= i_major i < 2 ^ 15;
  io_minor : - 2 ^ 15 <= i_minor i < 2 ^ 15;
  io_nlink : - 2 ^ 15 <= i_nlink i < 2 ^ 15;
  io_size : 0 <= i_size i < 2 ^ 32;
  io_uid : 0 <= i_uid i < 2 ^ 16;
  io_gid : 0 <= i_gid i < 2 ^ 16;
  io_mode : 0 <= i_mode i < 2 ^ 16;
  io_addrs : length (i_addrs i) = naddrs;
  io_addr : Forall (fun a => 0 <= a < 2 ^ 32) (i_addrs i)
}.

(** The on-disk part of an inode. *)
Definition disk_part (i : inode) : inode :=
  Inode 0 0 0 initsleeplock 0 (i_type i) (i_major i) (i_minor i) (i_nlink i) (i_size i)
        (i_uid i) (i_gid i) (i_mode i) (i_addrs i).

Lemma i16_small z : - 2 ^ 15 <= z < 2 ^ 15 -> i16 (z mod 256 ^ Z.of_nat 2) = z.
Proof.
  intros H. unfold i16. change (256 ^ Z.of_nat 2) with (2 ^ 16).
  rewrite Zplus_mod_idemp_l, Z.mod_small; lia.
Qed.

Definition dec_word (off : nat) (d : block) (i : nat) : Z := rd 4 (addr_off off i) d.

Lemma naddrs_val : naddrs = 13%nat.
Proof. done. Qed.

(** Slots of 128 bytes never overlap. *)
Lemma dip_off_fit inum : (dip_off inum + 128 <= bsize)%nat.
Proof.
  unfold dip_off, DINODESIZE. rewrite bsize_nat. pose proof (Z.mod_pos_bound inum IPB ltac:(done)).
  change IPB with 32 in *. lia.
Qed.

Lemma dip_off_disj inum inum' :
  inum mod IPB <> inum' mod IPB ->
  (dip_off inum + 128 <= dip_off inum' \/ dip_off inum' + 128 <= dip_off inum)%nat.
Proof.
  intros H. unfold dip_off, DINODESIZE. pose proof (Z.mod_pos_bound inum IPB ltac:(done)).
  pose proof (Z.mod_pos_bound inum' IPB ltac:(done)). lia.
Qed.

Section Codec.
Context (off : nat) (Hoff : (off + 128 <= bsize)%nat) (d : block) (Hd : length d = bsize).

Ltac blk := repeat first [apply length_wr_block; [lia|] | exact Hd].
Ltac inb := match goal with |- (_ <= length ?x)%nat => replace (length x) with bsize by (symmetry; blk); lia end.
Ltac fld := repeat (rewrite rd_wr_disj; [|inb|lia]); rewrite rd_wr_same; [|inb].

Lemma length_enc_dinode i : inode_ok i -> length (enc_dinode off i d) = bsize.
Proof.
  intros Hi. unfold enc_dinode, enc_addrs. apply length_splice_block; [|blk].
  rewrite length_enc_words, (io_addrs _ Hi), naddrs_val. lia.
Qed.

Lemma enc_field n o i :
  inode_ok i -> (o + n <= off + 20)%nat ->
  rd n o (enc_dinode off i d) =
  rd n o (wr 2 (off + 16) (i_mode i) (wr 2 (off + 14) (i_gid i) (wr 2 (off + 12) (i_uid i)
    (wr 4 (off + 8) (i_size i) (wr 2 (off + 6) (i_nlink i) (wr 2 (off + 4) (i_minor i)
    (wr 2 (off + 2) (i_major i) (wr 2 off (i_type i) d)))))))).
Proof.
  intros Hi Ho. unfold enc_dinode, enc_addrs. apply rd_splice_out; [lia|].
  rewrite length_enc_words, (io_addrs _ Hi), naddrs_val.
  replace (length _) with bsize by (symmetry; blk). lia.
Qed.

Lemma enc_addr i k :
  inode_ok i -> (k < naddrs)%nat -> rd 4 (addr_off off k) (enc_dinode off i d) = nthd 0 (i_addrs i) k.
Proof.
  intros Hi Hk. pose proof (io_addrs _ Hi) as Ha. rewrite naddrs_val in *. unfold enc_dinode, enc_addrs, addr_off.
  rewrite rd_splice_in; rewrite ?length_enc_words, ?Ha; [|lia|lia|].
  2:{ replace (length _) with bsize by (symmetry; blk). lia. }
  replace (off + 20 + 4 * k - (off + 20))%nat with (4 * k)%nat by lia.
  rewrite rd_enc_words by lia. apply u32_small.
  pose proof (lookup_nthd 0 (i_addrs i) k ltac:(lia)) as Hl.
  exact (Forall_lookup_1 _ _ _ _ (io_addr _ Hi) Hl).
Qed.

(** Writing an inode and reading it back. *)
Lemma dec_enc_dinode i i' :
  inode_ok i -> disk_part (dec_dinode off (enc_dinode off i d) i') = disk_part i.
Proof.
  intros Hi. pose proof Hi as [H1 H2 H3 H4 H5 H6 H7 H8 H9 H10].
  unfold disk_part, dec_dinode. cbn [i_type i_major i_minor i_nlink i_size i_uid i_gid i_mode i_addrs].
  rewrite !enc_field by (done || lia). f_equal.
  - fld. by apply i16_small.
  - fld. by apply i16_small.
  - fld. by apply i16_small.
  - fld. by apply i16_small.
  - fld. by apply Z.mod_small.
  - fld. by apply Z.mod_small.
  - fld. by apply Z.mod_small.
  - fld. by apply Z.mod_small.
  - apply list_eq. intros k. rewrite list_lookup_fmap. destruct (decide (k < naddrs)%nat) as [Hk|Hk].
    + rewrite lookup_seq_lt by done. cbn. rewrite enc_addr by done. symmetry. apply lookup_nthd. lia.
    + rewrite lookup_seq_ge by lia. symmetry. apply lookup_ge_None_2. lia.
Qed.

(** An update of one slot leaves the others alone. *)
Lemma rd_enc_other n o i :
  inode_ok i -> (o + n <= off \/ off + 128 <= o)%nat -> rd n o (enc_dinode off i d) = rd n o d.
Proof.
  intros Hi Ho. unfold enc_dinode, enc_addrs. rewrite rd_splice_out.
  - repeat (rewrite rd_wr_disj; [|inb|lia]). done.
  - rewrite length_enc_words, (io_addrs _ Hi), naddrs_val. lia.
  - rewrite length_enc_words, (io_addrs _ Hi), naddrs_val. replace (length _) with bsize by (symmetry; blk). lia.
Qed.
End Codec.

(** ** The inode table *)

Definition dinode_at (sb : superblock) (v : Z -> block) (inum : Z) : inode :=
  disk_part (dec_dinode (dip_off inum) (v (IBLOCK inum sb)) inode0).
Definition put_inode (sb : superblock) (i : inode) (v : Z -> block) : Z -> block :=
  vset (IBLOCK (i_inum i) sb) (enc_dinode (dip_off (i_inum i)) i (v (IBLOCK (i_inum i) sb))) v.

Lemma disk_part_dec off d i i' : disk_part (dec_dinode off d i) = disk_part (dec_dinode off d i').
Proof. done. Qed.

Lemma IBLOCK_mod i i' sb : IBLOCK i sb = IBLOCK i' sb -> i mod IPB = i' mod IPB -> i = i'.
Proof. unfold IBLOCK. intros H1 H2. rewrite (Z.div_mod i IPB), (Z.div_mod i' IPB) by done. nia. Qed.

Section Table.
Context (g : geo) (sb : superblock) (Hly : layout g sb).
Context (v : Z -> block) (Hlen : forall b, readable g b -> length (v b) = bsize).

Lemma iblock_len i : 0 <= i < sb_ninodes sb -> length (v (IBLOCK i sb)) = bsize.
Proof. intros Hi. apply Hlen. by apply (iblock_range g sb Hly i Hi). Qed.

Lemma dinode_at_put i inum :
  inode_ok i -> 0 <= i_inum i < sb_ninodes sb -> 0 <= inum < sb_ninodes sb ->
  dinode_at sb (put_inode sb i v) inum = if decide (inum = i_inum i) then disk_part i else dinode_at sb v inum.
Proof.
  intros Hi Hr Hr'. unfold dinode_at, put_inode. destruct (decide (IBLOCK inum sb = IBLOCK (i_inum i) sb)) as [Hb|Hb].
  - rewrite Hb, vset_eq. destruct (decide (inum = i_inum i)) as [->|Hne].
    + apply dec_enc_dinode; [apply dip_off_fit|by apply iblock_len|done].
    + assert (Hm : inum mod IPB <> i_inum i mod IPB) by (intros Hm; apply Hne; by eapply IBLOCK_mod).
      pose proof (dip_off_disj _ _ Hm) as Hdis. pose proof (dip_off_fit (i_inum i)) as Hf.
      pose proof (iblock_len _ Hr) as Hl. unfold disk_part, dec_dinode.
      cbn [i_type i_major i_minor i_nlink i_size i_uid i_gid i_mode i_addrs].
      rewrite !(rd_enc_other (dip_off (i_inum i)) Hf _ Hl) by (done || lia). f_equal.
      apply list_fmap_ext. intros k x Hk. apply lookup_seq in Hk as [-> Hk]. rewrite naddrs_val in Hk.
      apply (rd_enc_other (dip_off (i_inum i)) Hf _ Hl); [done|unfold addr_off; lia].
  - rewrite vset_ne by done. rewrite decide_False by (intros ->; done). done.
Qed.

(** The table does not depend on data blocks or on the bitmap. *)
Lemma dinode_at_data b d inum :
  is_data sb b -> 0 <= inum < sb_ninodes sb -> dinode_at sb (vset b d v) inum = dinode_at sb v inum.
Proof.
  intros Hb Hi. unfold dinode_at. rewrite vset_ne; [done|]. intros Heq. symmetry in Heq.
  by apply (data_not_inode g sb Hly b inum).
Qed.

Lemma in_use_put_inode i b :
  0 <= i_inum i < sb_ninodes sb -> 0 <= b < sb_size sb -> in_use sb (put_inode sb i v) b = in_use sb v b.
Proof.
  intros Hi Hb. unfold in_use, put_inode. rewrite vset_ne; [done|].
  by apply (bitmap_not_inode g sb Hly).
Qed.
End Table.

(** ** Rules for the inode cache *)

Section Specs.
Context {S : Type} `{!BlockStore S}.
Implicit Types (g : geo) (v : Z -> block) (L : list Z) (H : list hand) (t : S).

Lemma wp_geti {B} (k : inode -> M (fs S) B) Q E t sb (ic : list inode) nc me (ip : nat) i :
  ic !! ip = Some i -> wp (k i) Q E (Fs t sb ic nc me) -> wp (bind (geti ip) k) Q E (Fs t sb ic nc me).
Proof. intros Hi Hk. apply wp_bind, wp_gets. cbn [icache]. by rewrite (nthd_lookup _ _ _ _ Hi). Qed.

Lemma alter_insert_inode (f : inode -> inode) (ic : list inode) (ip : nat) i :
  ic !! ip = Some i -> alter f ip ic = <[ip := f i]> ic.
Proof.
  intros Hi. apply list_eq. intros j. destruct (decide (ip = j)) as [->|].
  - rewrite list_lookup_alter_eq, Hi. cbn. rewrite list_lookup_insert_eq; [done|by eapply lookup_lt_Some].
  - by rewrite list_lookup_alter_ne, list_lookup_insert_ne.
Qed.

Lemma wp_updi {B} f (k : unit -> M (fs S) B) Q E t sb (ic : list inode) nc me (ip : nat) i :
  ic !! ip = Some i -> wp (k tt) Q E (Fs t sb (<[ip := f i]> ic) nc me) ->
  wp (bind (updi ip f) k) Q E (Fs t sb ic nc me).
Proof.
  intros Hi Hk. apply wp_bind, wp_modify. unfold set_icache. cbn [icache store_st fsb ncache cur].
  by rewrite (alter_insert_inode f ic ip i Hi).
Qed.

(** Copy the in-memory inode to its slot. *)
Lemma iupdate_wp g v W L H n Q E t sb (ic : list inode) nc me (ip : nat) i :
  layout g sb -> store g v L H true t -> ic !! ip = Some i -> i_dev i = ROOTDEV ->
  0 <= i_inum i < sb_ninodes sb -> inode_ok i -> IBLOCK (i_inum i) sb ∉ blocks_of H ->
  (length H <= 1)%nat -> fits g W L n ->
  (forall t', store g (put_inode sb i v) (absorb (IBLOCK (i_inum i) sb) L) H true t' -> Q tt (Fs t' sb ic nc me)) ->
  wp (iupdate ip) Q E (Fs t sb ic nc me).
Proof.
  intros Hly Ht Hi Hdev Hin Hok HH HH1 Hroom HQ. unfold iupdate, getsb. apply wp_bind, wp_gets. cbn [fsb].
  eapply wp_geti; [exact Hi|]. rewrite Hdev. destruct (iblock_range g sb Hly _ Hin) as [Hr Hw].
  eapply wp_bread; [exact Ht|apply Hw|done|by eapply fits_bufs|].
  intros b t1 Hb Ht1. eapply wp_bdat; [exact Ht1|by left|].
  eapply wp_update_tail; [exact Ht1|done| |exact Hw|by eapply fits_lt|exact HQ].
  apply length_enc_dinode; [apply dip_off_fit| |done]. eapply store_len; [exact Ht|apply Hw].
Qed.

(** The in-memory inode [ilock] leaves behind. *)
Definition loaded (sb : superblock) (v : Z -> block) (i : inode) : inode :=
  if i_valid i =? 0 then set_ivalid 1 (dec_dinode (dip_off (i_inum i)) (v (IBLOCK (i_inum i) sb)) i) else i.

Lemma ilock_wp g v L H o Q E t sb (ic : list inode) nc me (ip : nat) i :
  layout g sb -> store g v L H o t -> ic !! ip = Some i -> i_dev i = ROOTDEV ->
  0 <= i_inum i < sb_ninodes sb -> 1 <= i_ref i -> i_lock i = Sleeplock 0 0 ->
  IBLOCK (i_inum i) sb ∉ blocks_of H -> Z.of_nat (length L + length H) < NBUF ->
  let j := set_ilock (Sleeplock 1 (c_pid me)) (loaded sb v i) in
  (i_valid i = 0 -> i_type j = 0 -> E "ilock: no type"%string) ->
  (forall t', (i_valid i = 0 -> i_type j <> 0) -> store g v L H o t' -> Q tt (Fs t' sb (<[ip := j]> ic) nc me)) ->
  wp (ilock ip) Q E (Fs t sb ic nc me).
Proof.
  intros Hly Ht Hi Hdev Hin Href Hlk HH Hroom j HE HQ. unfold ilock.
  pose proof (lookup_lt_Some _ _ _ Hi) as Hlt.
  eapply wp_geti; [exact Hi|]. destruct (i_ref i <? 1) eqn:Er; b2p; [lia|].
  apply wp_bind. unfold lock_inode. eapply wp_geti; [exact Hi|]. apply wp_bind, wp_gets. cbn [cur].
  rewrite Hlk. cbn [acquiresleep truth sl_locked Z.eqb negb]. apply wp_tail.
  eapply wp_updi; [exact Hi|]. apply wp_ret.
  set (i1 := set_ilock _ i). assert (Hi1 : <[ip := i1]> ic !! ip = Some i1) by by apply list_lookup_insert_eq.
  unfold j, loaded in *. destruct (i_valid i =? 0) eqn:Ev; b2p.
  - unfold getsb. apply wp_bind, wp_gets. cbn [fsb]. rewrite Hdev.
    destruct (iblock_range g sb Hly _ Hin) as [Hr Hw].
    eapply wp_bread; [exact Ht|apply Hw|done|done|]. intros b t1 Hb Ht1.
    eapply wp_bdat; [exact Ht1|by left|]. eapply wp_updi; [exact Hi1|]. rewrite list_insert_insert_eq.
    eapply wp_brelse; [exact Ht1|]. intros t2 Ht2.
    eapply wp_updi; [by apply list_lookup_insert_eq|]. rewrite list_insert_insert_eq.
    eapply wp_geti; [by apply list_lookup_insert_eq|].
    destruct (i_type _ =? 0) eqn:Et; b2p.
    + apply wp_panic, HE; done.
    + apply wp_ret. by apply HQ.
  - apply wp_ret. by apply HQ.
Qed.

(** Inodes are written through.  After [iupdate] of a cached inode
    inside a transaction, any other cache slot opened for the same inode
    number and not yet valid is loaded by [ilock] with exactly the fields of
    the updated inode; the on-disk inodes of all other numbers are as before.
    Neither call can panic. *)
Theorem iupdate_ilock g v L t sb (ic : list inode) nc me (ip ip2 : nat) i j :
  layout g sb -> store g v L [] true t -> fits g [IBLOCK (i_inum i) sb] L 0 ->
  ic !! ip = Some i -> i_dev i = ROOTDEV -> 0 <= i_inum i < sb_ninodes sb -> inode_ok i -> i_type i <> 0 ->
  ic !! ip2 = Some j -> i_dev j = ROOTDEV -> i_inum j = i_inum i -> i_valid j = 0 -> 1 <= i_ref j ->
  i_lock j = Sleeplock 0 0 ->
  wp (bind (iupdate ip) (fun _ => ilock ip2))
     (fun _ s' => exists t' v' L' j', s' = Fs t' sb (<[ip2 := j']> ic) nc me /\ store g v' L' [] true t' /\
        disk_part j' = disk_part i /\ i_valid j' = 1 /\ i_lock j' = Sleeplock 1 (c_pid me) /\
        forall n, 0 <= n < sb_ninodes sb -> n <> i_inum i -> dinode_at sb v' n = dinode_at sb v n)
     (fun _ => False) (Fs t sb ic nc me).
Proof.
  intros Hly Ht Hroom Hi Hid Hin Hok Hty Hj Hjd Hjn Hjv Hjr Hjl.
  assert (Hlen : forall b, readable g b -> length (v b) = bsize) by (intros b; by eapply store_len).
  apply wp_bind. eapply iupdate_wp; [done|exact Ht|done|done|done|done|apply not_elem_of_nil|simpl; lia|exact Hroom|].
  intros t1 Ht1. pose proof (dinode_at_put g sb Hly v Hlen i) as Hput.
  assert (Hdec : disk_part (dec_dinode (dip_off (i_inum j)) (put_inode sb i v (IBLOCK (i_inum j) sb)) j) = disk_part i).
  { rewrite Hjn. pose proof (Hput (i_inum i) Hok Hin Hin) as Hp. by rewrite decide_True in Hp. }
  eapply (ilock_wp g _ _ []); [done|exact Ht1|done|done|by rewrite Hjn|done|done|apply not_elem_of_nil| |..].
  - eapply (fits_bufs _ _ _ _ []); [done| |simpl; lia]. apply fits_absorb; [by left|exact Hroom].
  - intros _ Hz. exfalso. apply Hty. unfold loaded in Hz. rewrite Hjv in Hz. cbn in Hz.
    apply (f_equal i_type) in Hdec. cbn in Hdec. congruence.
  - intros t2 _ Ht2. eexists t2, _, _, _. split; [done|]. split; [exact Ht2|].
    unfold loaded. rewrite Hjv. change (0 =? 0) with true. cbv iota. split; [exact Hdec|].
    split_and!; try done. intros n Hn Hne. rewrite Hput by done. by rewrite decide_False.
Qed.

(** ** The inode cache *)

(** No two live entries for the same inode, and reference counts are sane. *)
Record ic_wf (ic : list inode) : Prop := IcWf {
  ic_len : length ic = Z.to_nat NINODE;
  ic_ref : forall (j : nat) x, ic !! j = Some x -> 0 <= i_ref x;
  ic_uniq : forall (j k : nat) x y, ic !! j = Some x -> ic !! k = Some y -> 0 < i_ref x -> 0 < i_ref y ->
    i_dev x = i_dev y -> i_inum x = i_inum y -> j = k
}.

Lemma ic_wf_insert (ic : list inode) (ip : nat) i :
  ic_wf ic -> 0 <= i_ref i ->
  (forall (j : nat) x, j <> ip -> ic !! j = Some x -> 0 < i_ref x -> 0 < i_ref i -> i_dev x = i_dev i ->
     i_inum x = i_inum i -> False) ->
  ic_wf (<[ip := i]> ic).
Proof.
  intros [H1 H2 H3] Hr Hu. split.
  - by rewrite length_insert.
  - intros j x [(<- & <- & _)|(_ & Hx)]%list_lookup_insert_Some; [done|by eapply H2].
  - intros j k x y [(<- & <- & _)|(Hj & Hx)]%list_lookup_insert_Some
      [(<- & <- & _)|(Hk & Hy)]%list_lookup_insert_Some R1 R2 E1 E2; try done.
    + exfalso. apply (Hu k y); done.
    + exfalso. by apply (Hu j x).
    + by eapply H3.
Qed.

Definition cached_for (dev inum : Z) (i : inode) : bool :=
  (0 <? i_ref i) && (i_dev i =? dev) && (i_inum i =? inum).

Lemma cached_for_true dev inum i :
  cached_for dev inum i = true <-> 0 < i_ref i /\ i_dev i = dev /\ i_inum i = inum.
Proof.
  unfold cached_for. rewrite !andb_true_iff, Z.ltb_lt, !Z.eqb_eq. tauto.
Qed.

(** How [iget] answers. *)
Inductive iget_case (dev inum : Z) (ic : list inode) : option (nat * inode) -> Prop :=
| IgetHit (ip : nat) i : ic !! ip = Some i -> cached_for dev inum i = true ->
    iget_case dev inum ic (Some (ip, set_ref (i32 (i_ref i + 1)) i))
| IgetFresh (ip : nat) i : (forall (j : nat) x, ic !! j = Some x -> cached_for dev inum x = false) ->
    ic !! ip = Some i -> i_ref i = 0 ->
    iget_case dev inum ic (Some (ip, Inode dev inum 1 (i_lock i) 0 (i_type i) (i_major i) (i_minor i) (i_nlink i)
                                  (i_size i) (i_uid i) (i_gid i) (i_mode i) (i_addrs i)))
| IgetFull : (forall (j : nat) x, ic !! j = Some x -> cached_for dev inum x = false /\ i_ref x <> 0) ->
    iget_case dev inum ic None.

Lemma iget_eval dev inum t sb ic nc me :
  exists r, iget_case dev inum ic r /\
    iget dev inum (Fs t sb ic nc me) =
      match r with
      | Some (ip, i) => Ok ip (Fs t sb (<[ip := i]> ic) nc me)
      | None => Panic "iget: no inodes"
      end.
Proof.
  unfold iget, bind, gets. cbn [icache].
  destruct (find_idx (fun i => (0 <? i_ref i) && (i_dev i =? dev) && (i_inum i =? inum)) ic) as [ip|] eqn:Hf.
  - apply find_idx_Some in Hf as [(i & Hi & Hm) _]. exists (Some (ip, set_ref (i32 (i_ref i + 1)) i)).
    split; [by apply IgetHit|]. unfold updi, modify, set_icache, ret. cbn.
    by rewrite (alter_insert_inode _ _ _ _ Hi).
  - rewrite find_idx_None in Hf. destruct (find_idx (fun i => i_ref i =? 0) ic) as [ip|] eqn:Hf2.
    + apply find_idx_Some in Hf2 as [(i & Hi & Hm) _]. b2p. eexists (Some (ip, _)).
      split; [by eapply IgetFresh|]. unfold updi, modify, set_icache, ret. cbn.
      by rewrite (alter_insert_inode _ _ _ _ Hi).
    + rewrite find_idx_None in Hf2. exists None. split; [|done]. apply IgetFull. intros j x Hx.
      split; [by eapply Hf|]. specialize (Hf2 j x Hx). by b2p.
Qed.

Lemma iget_case_wf dev inum ic ip i :
  ic_wf ic -> (forall (j : nat) x, ic !! j = Some x -> i_ref x < 2 ^ 31 - 1) ->
  iget_case dev inum ic (Some (ip, i)) ->
  ic_wf (<[ip := i]> ic) /\ (ip < length ic)%nat /\ 1 <= i_ref i /\ i_dev i = dev /\ i_inum i = inum.
Proof.
  intros Hwf Hb Hc. inversion Hc as [ip' i' Hi Hm|ip' i' Hno Hi Hr|]; subst.
  - apply cached_for_true in Hm as (Hr & Hd & Hn). pose proof (Hb _ _ Hi).
    cbn [set_ref i_ref i_dev i_inum]. rewrite i32_small by lia.
    split; [|split; [by eapply lookup_lt_Some|split; [lia|done]]].
    apply ic_wf_insert; [done|cbn; lia|]. cbn. intros j x Hj Hx Hrx _ Hd' Hn'.
    apply Hj. eapply (ic_uniq _ Hwf); [exact Hx|exact Hi|done|done|congruence|congruence].
  - cbn. split; [|split; [by eapply lookup_lt_Some|done]]. apply ic_wf_insert; [done|done|].
    cbn. intros j x Hj Hx Hrx _ Hd' Hn'. specialize (Hno j x Hx).
    apply not_true_iff_false in Hno. apply Hno. by apply cached_for_true.
Qed.

(** The inode cache.  On a well-formed cache, [iget] returns the one
    entry for the inode, with one more reference, or a recycled entry marked
    not valid; no other entry changes, and the cache stays free of
    duplicates, so a second [iget] of the same inode returns the same entry
    with its count raised again.  It panics exactly when the inode is not
    cached and no entry is free. *)
Theorem iget_unique dev inum t sb (ic : list inode) nc me :
  ic_wf ic -> (forall (j : nat) x, ic !! j = Some x -> i_ref x < 2 ^ 31 - 2) ->
  match iget dev inum (Fs t sb ic nc me) with
  | Ok ip s' => exists i, s' = Fs t sb (<[ip := i]> ic) nc me /\ ic_wf (<[ip := i]> ic) /\
      i_dev i = dev /\ i_inum i = inum /\ (ip < length ic)%nat /\
      ((exists x, ic !! ip = Some x /\ cached_for dev inum x = true /\ i = set_ref (i_ref x + 1) x) \/
       (i_ref i = 1 /\ i_valid i = 0 /\ forall (j : nat) x, ic !! j = Some x -> cached_for dev inum x = false)) /\
      iget dev inum s' = Ok ip (Fs t sb (<[ip := set_ref (i_ref i + 1) i]> ic) nc me)
  | Panic m => m = "iget: no inodes"%string /\
      forall (j : nat) x, ic !! j = Some x -> cached_for dev inum x = false /\ i_ref x <> 0
  | Blocked _ => False
  end.
Proof.
  intros Hwf Hb. destruct (iget_eval dev inum t sb ic nc me) as (r & Hc & ->).
  destruct r as [[ip i]|]; [|split; [done|]; by inversion Hc].
  destruct (iget_case_wf dev inum ic ip i Hwf) as (Hwf' & Hlt & Hr & Hd & Hn); [|done|].
  { intros j x Hx. specialize (Hb j x Hx). lia. }
  assert (Hri : i_ref i < 2 ^ 31 - 1).
  { inversion Hc as [ip' i' Hi Hm|ip' i' Hno Hi Hr0|]; subst; cbn; [|lia]. specialize (Hb _ _ Hi).
    pose proof (ic_ref _ Hwf _ _ Hi). rewrite i32_small; lia. }
  exists i. split_and!; try done.
  - inversion Hc as [ip' i' Hi Hm|ip' i' Hno Hi Hr0|]; subst; [left|by right].
    exists i'. split_and!; try done. specialize (Hb _ _ Hi). pose proof (ic_ref _ Hwf _ _ Hi). rewrite i32_small; [done|lia].
  - destruct (iget_eval dev inum t sb (<[ip := i]> ic) nc me) as (r' & Hc' & ->).
    assert (Hi : <[ip := i]> ic !! ip = Some i) by by apply list_lookup_insert_eq.
    assert (Hm : cached_for (i_dev i) (i_inum i) i = true) by (apply cached_for_true; split; [lia|done]).
    rewrite Hd, Hn in Hm.
    inversion Hc' as [ip' x Hx Hmx|ip' x Hno Hx Hr0|Hfull]; subst.
    + apply cached_for_true in Hmx as (Hrx & Hdx & Hnx).
      assert (ip' = ip) as -> by (eapply (ic_uniq _ Hwf'); [exact Hx|exact Hi|done|lia|congruence|congruence]).
      assert (x = i) as -> by congruence. rewrite list_insert_insert_eq, i32_small by lia. done.
    + specialize (Hno ip i Hi). congruence.
    + destruct (Hfull ip i Hi). congruence.
Qed.
End Specs.
