(* ===== verification/Content.v ===== *)
(** File contents: [bmap], [readi], [writei] and [itrunc] of fs.c.

    [slot v i k] is the k-th block number an inode holds: its twelve direct
    blocks, the indirect block (k = 12), and the entries of the indirect
    block.  [content v i] is the file as a byte string. *)
From stdpp Require Import base numbers list strings.
From Stdlib Require Import ZArith Lia.
From S2P Require Import Prelude Params CString Namecache Bio Log Store Fs Balloc Inode.

Local Open Scope list_scope.
Local Open Scope Z_scope.

Definition nd : nat := 12.
Definition nslots : nat := Z.to_nat (MAXFILE + 1).

Definition ind (i : inode) : Z := nthd 0 (i_addrs i) nd.
Definition entry (d : block) (k : nat) : Z := rd 4 (4 * k) d.
Definition slot (v : Z -> block) (i : inode) (k : nat) : Z :=
  if decide (k <= nd)%nat then nthd 0 (i_addrs i) k
  else if decide (ind i = 0) then 0 else entry (v (ind i)) (k - 13).
(** The slot of file block [bn]. *)
Definition bslot (bn : Z) : nat := if decide (bn < NDIRECT) then Z.to_nat bn else Z.to_nat (bn + 1).
Definition addr (v : Z -> block) (i : inode) (bn : Z) : Z := slot v i (bslot bn).

(** An inode owns its blocks: they are data blocks marked in use, and no
    block appears twice. *)
Record inode_wf (sb : superblock) (v : Z -> block) (i : inode) : Prop := InodeWf {
  iw_len : length (i_addrs i) = naddrs;
  iw_data : forall k, (k < nslots)%nat -> slot v i k <> 0 ->
    is_data sb (slot v i k) /\ in_use sb v (slot v i k) = true;
  iw_inj : forall k k', (k < nslots)%nat -> (k' < nslots)%nat -> slot v i k <> 0 ->
    slot v i k = slot v i k' -> k = k'
}.

Lemma nslots_val : nslots = Z.to_nat 1037.
Proof. done. Qed.

Lemma bslot_lt bn : 0 <= bn < MAXFILE -> (bslot bn < nslots)%nat /\ bslot bn <> nd.
Proof.
  intros H. rewrite nslots_val. unfold bslot, nd. change MAXFILE with 1036 in H. unfold NDIRECT. case_decide; lia.
Qed.

Lemma bslot_inj bn bn' : 0 <= bn -> 0 <= bn' -> bslot bn = bslot bn' -> bn = bn'.
Proof. intros H1 H2. unfold bslot, NDIRECT. repeat case_decide; lia. Qed.

(** ** One allocation *)

(** What an allocation step does to the disk, as seen by the rest of the
    file system: marks only grow, and outside the bitmap only free blocks
    and the indirect block [x] change. *)
Record grows (sb : superblock) (x : Z) (v v' : Z -> block) : Prop := Grows {
  gr_use : forall b, 0 <= b < sb_size sb -> in_use sb v b = true -> in_use sb v' b = true;
  gr_data : forall b, is_data sb b -> in_use sb v b = true -> b <> x -> v' b = v b;
  gr_meta : forall b, ~ is_data sb b -> (forall b', 0 <= b' < sb_size sb -> b <> BBLOCK b' sb) -> v' b = v b
}.

Lemma grows_refl sb x v : grows sb x v v.
Proof. by split. Qed.

Lemma grows_trans sb x v1 v2 v3 :
  (forall b, is_data sb b -> 0 <= b < sb_size sb) ->
  grows sb x v1 v2 -> grows sb x v2 v3 -> grows sb x v1 v3.
Proof.
  intros Hd [A1 A2 A3] [B1 B2 B3]. split.
  - intros b Hb Hu. auto.
  - intros b Hb Hu Hne. rewrite B2, A2; auto.
  - intros b Hb Hn. rewrite B3, A3; auto.
Qed.

Section Slots.
Context (g : geo) (sb : superblock) (Hly : layout g sb).

Lemma data_range b : is_data sb b -> 0 < b < sb_size sb.
Proof. intros Hb. unfold is_data, datastart in Hb. pose proof (region_sizes g sb Hly). destruct Hly. lia. Qed.

Lemma alloc_grows v b x :
  (forall b, readable g b -> length (v b) = bsize) -> is_data sb b -> in_use sb v b = false ->
  grows sb x v (alloc_view sb b v).
Proof.
  intros Hlen Hb Hfree. pose proof (data_range b Hb) as Hr. split.
  - intros b' Hb' Hu. rewrite (in_use_alloc g sb v b b' Hly Hlen Hb) by done. by case_decide.
  - intros b' Hb' Hu _. unfold alloc_view, mark. rewrite !vset_ne; [done| |congruence].
    apply (data_not_bitmap g sb Hly); [done|lia].
  - intros b' Hb' Hn. unfold alloc_view, mark. rewrite !vset_ne; [done|apply Hn; lia|congruence].
Qed.

(** Slots read only the indirect block. *)
Lemma slot_ext v v' i k : (ind i <> 0 -> v' (ind i) = v (ind i)) -> slot v' i k = slot v i k.
Proof.
  intros H. unfold slot. case_decide; [done|]. case_decide as Hi; [done|]. by rewrite H.
Qed.

Lemma ind_slot v i : slot v i nd = ind i.
Proof. done. Qed.

Lemma wf_ind v i : inode_wf sb v i -> ind i <> 0 -> is_data sb (ind i) /\ in_use sb v (ind i) = true.
Proof. intros Hwf Hi. apply (iw_data _ _ _ Hwf nd); [rewrite nslots_val; unfold nd; lia|done]. Qed.

(** Well-formedness survives changes elsewhere on the disk. *)
Lemma wf_grows v v' i x :
  inode_wf sb v i -> grows sb x v v' -> (ind i <> 0 -> ind i <> x \/ v' (ind i) = v (ind i)) ->
  inode_wf sb v' i /\ forall k, slot v' i k = slot v i k.
Proof.
  intros Hwf [G1 G2 G3] Hx. assert (Hs : forall k, slot v' i k = slot v i k).
  { intros k. apply slot_ext. intros Hi. destruct (Hx Hi) as [Hne|He]; [|done].
    destruct (wf_ind v i Hwf Hi). by apply G2. }
  split; [|done]. destruct Hwf as [W1 W2 W3]. split; [done| |].
  - intros k Hk. rewrite Hs. intros Hne. destruct (W2 k Hk Hne) as [Hd Hu]. split; [done|].
    apply G1; [|done]. pose proof (data_range _ Hd). lia.
  - intros k k' Hk Hk'. rewrite !Hs. by apply W3.
Qed.
End Slots.

Section Fill.
Context (g : geo) (sb : superblock) (Hly : layout g sb).
Context (v : Z -> block) (Hlen : forall b, readable g b -> length (v b) = bsize).
Context (i : inode) (Hwf : inode_wf sb v i).
Context (a : Z) (Ha : is_data sb a) (Hfree : in_use sb v a = false).

(** A free block put into an empty slot keeps the inode well-formed. *)
Lemma wf_fill v' i' k :
  length (i_addrs i') = naddrs ->
  (forall k', (k' < nslots)%nat -> slot v' i' k' = if decide (k' = k) then a else slot v i k') ->
  in_use sb v' a = true ->
  (forall b, 0 <= b < sb_size sb -> in_use sb v b = true -> in_use sb v' b = true) ->
  inode_wf sb v' i'.
Proof.
  intros Hl Hs Hu Hmono. split; [done| |].
  - intros k' Hk'. rewrite Hs by done. case_decide; [done|]. intros Hne.
    destruct (iw_data _ _ _ Hwf k' Hk' Hne) as [Hd Hus]. split; [done|]. apply Hmono; [|done].
    pose proof (data_range g sb Hly _ Hd). lia.
  - intros k1 k2 Hk1 Hk2. rewrite !Hs by done.
    assert (Hfresh : forall k', (k' < nslots)%nat -> slot v i k' <> a).
    { intros k' Hk' Heq. destruct (iw_data _ _ _ Hwf k' Hk') as [_ Hus].
      - rewrite Heq. pose proof (data_range g sb Hly _ Ha). lia.
      - rewrite Heq in Hus. congruence. }
    repeat case_decide; intros Hne Heq; subst; try done.
    + by destruct (Hfresh k2 Hk2).
    + by destruct (Hfresh k1 Hk1).
    + by eapply (iw_inj _ _ _ Hwf).
Qed.

Lemma ind_not_a : ind i <> 0 -> ind i <> a /\ alloc_view sb a v (ind i) = v (ind i).
Proof.
  intros Hi. destruct (wf_ind sb v i Hwf Hi) as [Hd Hu]. assert (ind i <> a) by congruence.
  split; [done|]. unfold alloc_view, mark. rewrite !vset_ne; [done| |done].
  apply (data_not_bitmap g sb Hly); [done|]. pose proof (data_range g sb Hly _ Ha). lia.
Qed.

Lemma alloc_use : in_use sb (alloc_view sb a v) a = true.
Proof.
  rewrite (in_use_alloc g sb v a a Hly Hlen Ha); [by rewrite decide_True|].
  pose proof (data_range g sb Hly _ Ha). lia.
Qed.

Definition set_addr (k : nat) (b : Z) (i : inode) : inode := set_addrs (<[k := b]> (i_addrs i)) i.

Lemma nthd_addr (k k' : nat) :
  (k < naddrs)%nat -> nthd 0 (<[k := a]> (i_addrs i)) k' = if decide (k' = k) then a else nthd 0 (i_addrs i) k'.
Proof.
  intros Hk. case_decide as Hd.
  - subst k'. apply nthd_insert_eq. by rewrite (iw_len _ _ _ Hwf).
  - by apply nthd_insert_ne.
Qed.

(** Filling a direct slot, or the slot of the indirect block itself. *)
Lemma fill_direct k :
  (k <= nd)%nat -> slot v i k = 0 ->
  let v' := alloc_view sb a v in let i' := set_addr k a i in
  inode_wf sb v' i' /\ forall k', slot v' i' k' = if decide (k' = k) then a else slot v i k'.
Proof.
  intros Hk H0 v' i'. unfold nd in Hk.
  assert (Hs : forall k', slot v' i' k' = if decide (k' = k) then a else slot v i k').
  { intros k'. unfold slot, ind, i', set_addr, nd in *. cbn [set_addrs i_addrs].
    rewrite !nthd_addr by (rewrite naddrs_val; lia).
    rewrite (decide_True (P := (k <= 12)%nat)) in H0 by done.
    destruct (decide (k' <= 12)%nat) as [Hk'|Hk']; [done|].
    rewrite (decide_False (P := k' = k)) by lia.
    destruct (decide (12%nat = k)) as [<-|Hne].
    - rewrite H0, (decide_True (P := 0 = 0)) by done.
      pose proof (data_range g sb Hly _ Ha). rewrite decide_False by lia.
      unfold v', alloc_view. rewrite vset_eq. apply rd_zero.
    - change (nthd 0 (i_addrs i) 12) with (ind i) in *. case_decide as Hi; [done|].
      unfold v'. by rewrite (proj2 (ind_not_a Hi)). }
  split; [|done]. eapply (wf_fill v' i' k).
  - unfold i', set_addr. cbn. by rewrite length_insert, (iw_len _ _ _ Hwf).
  - intros k' _. apply Hs.
  - apply alloc_use.
  - intros b Hb Hu. apply (gr_use sb 0 v v'); [|done|done]. by apply (alloc_grows g sb Hly).
Qed.

(** Filling an entry of the indirect block. *)
Lemma fill_indirect k :
  (13 <= k < nslots)%nat -> ind i <> 0 ->
  let v1 := alloc_view sb a v in
  let v' := vset (ind i) (wr 4 (4 * (k - 13)) a (v1 (ind i))) v1 in
  slot v i k = 0 ->
  inode_wf sb v' i /\ (forall k', (k' < nslots)%nat -> slot v' i k' = if decide (k' = k) then a else slot v i k') /\
  grows sb (ind i) v v' /\ in_use sb v' a = true.
Proof.
  intros Hk Hi v1 v' H0. rewrite nslots_val in Hk. destruct (wf_ind sb v i Hwf Hi) as [Hid Hiu].
  destruct (ind_not_a Hi) as [Hia Hv1]. fold v1 in Hv1. pose proof bsize_nat as Hbs.
  assert (Hil : length (v (ind i)) = bsize) by (apply Hlen, (data_writable g sb Hly), Hid).
  assert (Hs : forall k', (k' < nslots)%nat -> slot v' i k' = if decide (k' = k) then a else slot v i k').
  { intros k' Hk'. rewrite nslots_val in Hk'. unfold slot, nd.
    destruct (decide (k' <= 12)%nat); [by rewrite decide_False by lia|].
    rewrite !(decide_False (P := ind i = 0)) by done. unfold v'. rewrite vset_eq, Hv1. unfold entry.
    destruct (decide (k' = k)) as [->|Hne].
    - rewrite rd_wr_same by lia. apply Z.mod_small. pose proof (data_range g sb Hly _ Ha). destruct Hly.
      change (256 ^ Z.of_nat 4) with (2 ^ 32). unfold BPB, BSIZE in *; lia.
    - apply rd_wr_disj; lia. }
  assert (Hu : forall b, 0 <= b < sb_size sb -> in_use sb v' b = in_use sb v1 b).
  { intros b Hb. unfold v'. by apply (in_use_vset_data g sb Hly). }
  pose proof (alloc_grows g sb Hly v a (ind i) Hlen Ha Hfree) as [G1 G2 G3]. fold v1 in G1, G2, G3.
  pose proof (data_range g sb Hly _ Ha) as Har.
  split_and!; [|done| |rewrite Hu by lia; apply alloc_use].
  - apply (wf_fill v' i k); [apply Hwf|done|rewrite Hu by lia; apply alloc_use|].
    intros b Hb Hub. rewrite Hu by done. by apply G1.
  - split.
    + intros b Hb Hub. rewrite Hu by done. by apply G1.
    + intros b Hb Hub Hne. unfold v'. rewrite vset_ne by done. by apply G2.
    + intros b Hb Hn. unfold v'. rewrite vset_ne by (intros ->; done). by apply G3.
Qed.
End Fill.

Section Bmap.
Context {S : Type} `{!BlockStore S}.
Context (g : geo) (sb : superblock) (Hly : layout g sb).
Implicit Types (v : Z -> block) (L : list Z) (H : list hand) (t : S).

Lemma bmap_index bn :
  0 <= bn < MAXFILE ->
  ((bn <? NDIRECT) = true /\ bslot bn = Z.to_nat bn /\ (bslot bn < nd)%nat) \/
  ((bn <? NDIRECT) = false /\ (bn - NDIRECT <? NINDIRECT) = true /\ (13 <= bslot bn < nslots)%nat /\
   Z.to_nat (bn - NDIRECT) = (bslot bn - 13)%nat).
Proof.
  intros Hb. change MAXFILE with 1036 in Hb. change NINDIRECT with 1024. rewrite nslots_val.
  unfold bslot, nd, NDIRECT. destruct (bn <? 12) eqn:E; b2p; [left|right].
  - rewrite decide_True by lia. split_and!; [done|done|lia].
  - rewrite decide_False by lia. split_and!; lia.
Qed.

(** A block that is there is found, and nothing changes. *)
Lemma bmap_hit v L H o Q E t ic nc me (ip : nat) i bn :
  store g v L H o t -> ic !! ip = Some i -> i_dev i = ROOTDEV -> inode_wf sb v i -> 0 <= bn < MAXFILE ->
  addr v i bn <> 0 -> ind i ∉ blocks_of H -> Z.of_nat (length L + length H) < NBUF ->
  (forall t', store g v L H o t' -> Q (addr v i bn) (Fs t' sb ic nc me)) ->
  wp (bmap ip bn) Q E (Fs t sb ic nc me).
Proof.
  intros Ht Hi Hdev Hwf Hbn Ha Hnh Hroom HQ. unfold bmap. eapply wp_geti; [exact Hi|].
  unfold addr in *. destruct (bmap_index bn Hbn) as [(-> & Hs & Hlt)|(-> & -> & Hrg & Hs)].
  - cbv zeta. unfold slot in Ha, HQ. rewrite decide_True in Ha by lia.
    rewrite decide_True in HQ by lia. rewrite Hs in *.
    rewrite (proj2 (Z.eqb_neq _ _) Ha). apply wp_ret. by apply HQ.
  - cbv zeta. unfold slot in Ha, HQ. rewrite decide_False in Ha by (unfold nd; lia).
    rewrite decide_False in HQ by (unfold nd; lia).
    change (nthd 0 (i_addrs i) (Z.to_nat NDIRECT)) with (ind i).
    destruct (decide (ind i = 0)) as [?|Hind]; [done|].
    rewrite (proj2 (Z.eqb_neq _ _) Hind). apply wp_bind, wp_ret. rewrite Hdev.
    destruct (wf_ind sb v i Hwf Hind) as [Hd _].
    eapply wp_bread; [exact Ht|apply (data_writable g sb Hly), Hd|done|done|].
    intros b t1 Hb Ht1. eapply wp_bdat; [exact Ht1|by left|]. rewrite Hs. unfold entry in *.
    rewrite (proj2 (Z.eqb_neq _ _) Ha). apply wp_bind, wp_ret.
    eapply wp_brelse; [exact Ht1|]. intros t2 Ht2. apply wp_ret. by apply HQ.
Qed.

(** What [bmap] does when it has to allocate. *)
Record bmap_post v i bn a v' i' : Prop := BmapPost {
  bp_wf : inode_wf sb v' i';
  bp_grows : grows sb (ind i) v v';
  bp_data : is_data sb a /\ in_use sb v a = false;
  bp_zero : v' a = zero_block;
  bp_addr : addr v' i' bn = a;
  bp_keep : forall k, (k < nslots)%nat -> slot v i k <> 0 -> slot v' i' k = slot v i k;
  bp_only : forall k, (k < nslots)%nat -> k <> nd -> k <> bslot bn -> slot v' i' k = slot v i k;
  bp_fresh : forall k, (k < nslots)%nat -> slot v' i' k = slot v i k \/ in_use sb v (slot v' i' k) = false;
  bp_inode : i' = set_addrs (i_addrs i') i
}.

Lemma meta_grows v v' x : meta_marked sb v -> grows sb x v v' -> meta_marked sb v'.
Proof.
  intros Hm [Hu _ _] b Hb. apply Hu; [|by apply Hm]. destruct Hly. lia.
Qed.

Lemma slot_direct_0 v i k : (k <= nd)%nat -> slot v i k = nthd 0 (i_addrs i) k.
Proof. intros Hk. unfold slot. by rewrite decide_True. Qed.

(** The second half of the indirect case: an entry of a present indirect block. *)
Lemma bmap_entry v W L n Q E t ic nc me (ip : nat) i bn bp :
  store g v L [Hand bp (ind i) true] true t -> ic !! ip = Some i -> i_dev i = ROOTDEV -> inode_wf sb v i ->
  meta_marked sb v -> ind i <> 0 -> (13 <= bslot bn < nslots)%nat -> slot v i (bslot bn) = 0 ->
  sb_bmapstart sb ∈ W -> ind i ∈ W -> fits g W L (1 + n) -> E "balloc: out of blocks"%string ->
  (forall a t' v' L', bmap_post v i bn a v' i -> store g v' L' [Hand bp (ind i) true] true t' ->
     fits g (a :: W) L' n -> Q a (Fs t' sb ic nc me)) ->
  wp (bind (balloc ROOTDEV) (fun x => bind (bdat bp) (fun d' =>
        bind (sio (bs_set bp (wr 4 (4 * (bslot bn - 13)) x d'))) (fun _ =>
        bind (sio (bs_log_write bp)) (fun _ => ret x))))) Q E (Fs t sb ic nc me).
Proof.
  intros Ht Hi Hdev Hwf Hmeta Hind Hrg H0 HW HWi Hroom HE HQ. destruct (wf_ind sb v i Hwf Hind) as [Hid Hiu].
  pose proof (data_writable g sb Hly _ Hid) as Hiw.
  assert (Hlen : forall b, readable g b -> length (v b) = bsize) by (intros b; by eapply store_len).
  apply wp_bind. eapply balloc_wp; [done|exact Ht|done|by apply Forall_singleton|simpl; lia|exact HW|exact Hroom|by intros m [-> _]|].
  intros a t1 Ha Hfree _ Ht1 Hfit. eapply wp_bdat; [exact Ht1|by left|].
  destruct (fill_indirect g sb Hly v Hlen i Hwf a Ha Hfree (bslot bn) Hrg Hind H0) as (Hwf' & Hs & Hgr & Hu).
  destruct (ind_not_a g sb Hly v i Hwf a Ha Hfree Hind) as [Hia Hv1].
  eapply wp_set; [exact Ht1|by left| |].
  { rewrite nslots_val in Hrg. pose proof bsize_nat. apply length_wr_block; [lia|]. rewrite Hv1. apply Hlen, Hiw. }
  intros t2 Ht2. rewrite set_clean_head in Ht2 by apply not_elem_of_nil.
  eapply wp_log_write; [exact Ht2|by left|exact Hiw|by eapply fits_lt|].
  intros t3 Ht3. rewrite set_clean_head in Ht3 by apply not_elem_of_nil. apply wp_ret.
  eapply HQ; [|exact Ht3|by apply fits_absorb; [right|]].
  split; try done.
  - unfold alloc_view. rewrite vset_ne, vset_eq by congruence. done.
  - unfold addr. rewrite Hs by lia. by rewrite decide_True.
  - intros k Hk Hne. rewrite Hs by done. case_decide as Hd; [|done]. subst k. done.
  - intros k Hk _ Hne. rewrite Hs by done. by rewrite decide_False.
  - intros k Hk. rewrite Hs by done. case_decide; [by right|by left].
  - by destruct i.
Qed.

(** The indirect case once the indirect block is there. *)
Lemma bmap_through v W L n Q E t (ic : list inode) nc me (ip : nat) i bn :
  store g v L [] true t -> ic !! ip = Some i -> i_dev i = ROOTDEV -> inode_wf sb v i -> meta_marked sb v ->
  ind i <> 0 -> (13 <= bslot bn < nslots)%nat -> slot v i (bslot bn) = 0 ->
  sb_bmapstart sb ∈ W -> ind i ∈ W -> fits g W L (1 + n) -> E "balloc: out of blocks"%string ->
  (forall a t' v' L', bmap_post v i bn a v' i -> store g v' L' [] true t' ->
    fits g (a :: W) L' n -> Q a (Fs t' sb ic nc me)) ->
  wp (bind (sio (bs_bread ROOTDEV (ind i))) (fun bp => bind (bdat bp) (fun d =>
       bind (if rd 4 (4 * (bslot bn - 13)) d =? 0 then
               bind (balloc ROOTDEV) (fun x => bind (bdat bp) (fun d' =>
                 bind (sio (bs_set bp (wr 4 (4 * (bslot bn - 13)) x d'))) (fun _ =>
                 bind (sio (bs_log_write bp)) (fun _ => ret x))))
             else ret (rd 4 (4 * (bslot bn - 13)) d)) (fun e' =>
       bind (sio (bs_brelse bp)) (fun _ => ret e'))))) Q E (Fs t sb ic nc me).
Proof.
  intros Ht Hi Hd Hwf Hm Hind Hrg Hs HW HWi Hr HE HQ.
  destruct (wf_ind sb v i Hwf Hind) as [Hid _].
  eapply wp_bread; [exact Ht|apply (data_writable g sb Hly), Hid|apply not_elem_of_nil|by eapply (fits_bufs g sb W L []); [|exact Hr|simpl; lia]|].
  intros bp t2 Hb Ht2. eapply wp_bdat; [exact Ht2|by left|].
  assert (He : rd 4 (4 * (bslot bn - 13)) (v (ind i)) = 0).
  { unfold slot in Hs. rewrite decide_False in Hs by (unfold nd; lia). by rewrite decide_False in Hs. }
  rewrite He, Z.eqb_refl. apply wp_bind.
  eapply bmap_entry; [exact Ht2|exact Hi|done|done|done|done|done|done|exact HW|done|exact Hr|done|].
  intros a t3 v3 L3 Hp Ht3 HL3. eapply wp_brelse; [exact Ht3|]. intros t4 Ht4. apply wp_ret. by eapply HQ.
Qed.

(** Allocating the indirect block and then an entry is one allocation. *)
Lemma bmap_post_trans v i bn a0 a v2 :
  (forall b, readable g b -> length (v b) = bsize) ->
  inode_wf sb v i -> is_data sb a0 -> in_use sb v a0 = false -> ind i = 0 -> bslot bn <> nd ->
  let v1 := alloc_view sb a0 v in let i1 := set_addr nd a0 i in
  (forall k, slot v1 i1 k = if decide (k = nd) then a0 else slot v i k) ->
  bmap_post v1 i1 bn a v2 i1 -> bmap_post v i bn a v2 i1.
Proof.
  intros Hlen Hwf Ha0 Hf0 Hi0 Hbn v1 i1 Hs1 [P1 P2 [P3 P3'] P4 P5 P6 P7 P8 _].
  pose proof (alloc_grows g sb Hly v a0 (ind i) Hlen Ha0 Hf0) as [G1 G2 G3]. fold v1 in G1, G2, G3.
  destruct P2 as [K1 K2 K3].
  assert (Hi1 : ind i1 = a0).
  { unfold ind, i1, set_addr. cbn [set_addrs i_addrs]. apply nthd_insert_eq.
    rewrite (iw_len _ _ _ Hwf), naddrs_val. unfold nd. lia. }
  split; try done.
  - split.
    + auto.
    + intros b Hb Hu Hne. rewrite K2; [by apply G2|done| |].
      * apply G1; [|done]. pose proof (data_range g sb Hly b Hb). lia.
      * rewrite Hi1. congruence.
    + intros b Hb Hn. rewrite K3 by done. by apply G3.
  - split; [done|]. destruct (in_use sb v a) eqn:E; [|done]. rewrite G1 in P3'; [done| |done].
    pose proof (data_range g sb Hly a P3). lia.
  - intros k Hk Hne. assert (k <> nd) by (intros ->; by rewrite ind_slot in Hne).
    assert (Hsk : slot v1 i1 k = slot v i k) by (rewrite Hs1; by rewrite decide_False).
    rewrite P6; congruence.
  - intros k Hk Hnd Hne. rewrite P7 by done. rewrite Hs1. by rewrite decide_False.
  - intros k Hk. destruct (P8 k Hk) as [->|Hfr].
    + rewrite Hs1. case_decide; [by right|by left].
    + destruct (decide (slot v2 i1 k = 0)) as [Hz|Hnz].
      * left. rewrite Hz. destruct (decide (slot v i k = 0)) as [|Hnz]; [done|].
        assert (k <> nd) by (intros ->; by rewrite ind_slot in Hnz).
        assert (Hsk : slot v1 i1 k = slot v i k) by (rewrite Hs1; by rewrite decide_False).
        rewrite P6 in Hz; congruence.
      * right. destruct (in_use sb v (slot v2 i1 k)) eqn:E; [|done]. rewrite G1 in Hfr; [done| |done].
        destruct (iw_data _ _ _ P1 k Hk Hnz) as [Hd _]. pose proof (data_range g sb Hly _ Hd). lia.
Qed.

(** Log space for [n] more file blocks of inode [i], and for its indirect
    block if it has none yet. *)
Definition budget (W : list Z) (i : inode) (L : list Z) (n : nat) : Prop :=
  sb_bmapstart sb ∈ W /\
  ((ind i = 0 /\ fits g W L (1 + n)) \/ (ind i <> 0 /\ ind i ∈ W /\ fits g W L n)).

Lemma budget_fits W i L n : budget W i L n -> fits g W L n.
Proof. intros [_ [[_ H]|(_ & _ & H)]]; [eapply fits_le; [exact H|lia]|done]. Qed.

Lemma budget_cons W i L n b : budget W i L (1 + n) -> budget (b :: W) i L n.
Proof.
  intros [HW Hc]. split; [by right|]. destruct Hc as [[? Hf]|(? & ? & Hf)]; [left|right; split; [done|split; [by right|]]].
  - split; [done|]. by apply fits_cons.
  - by apply fits_cons.
Qed.

Lemma budget_absorb W i L n b : b ∈ W -> budget W i L n -> budget W i (absorb b L) n.
Proof.
  intros Hb [HW Hc]. split; [done|]. destruct Hc as [[? Hf]|(? & ? & Hf)]; [left|right]; split; try done; [|split; [done|]].
  - by apply fits_absorb.
  - by apply fits_absorb.
Qed.

Lemma bmap_alloc v W L n Q E t (ic : list inode) nc me (ip : nat) i bn :
  store g v L [] true t -> ic !! ip = Some i -> i_dev i = ROOTDEV -> inode_wf sb v i -> meta_marked sb v ->
  0 <= bn < MAXFILE -> addr v i bn = 0 -> budget W i L (1 + n) -> E "balloc: out of blocks"%string ->
  (forall a t' v' i' L' W', bmap_post v i bn a v' i' -> store g v' L' [] true t' ->
     W ⊆ W' -> a ∈ W' -> budget W' i' L' n -> Q a (Fs t' sb (<[ip := i']> ic) nc me)) ->
  wp (bmap ip bn) Q E (Fs t sb ic nc me).
Proof.
  intros Ht Hi Hdev Hwf Hmeta Hbn H0 [HW Hbud] HE HQ.
  assert (Hlen : forall b, readable g b -> length (v b) = bsize) by (intros b; by eapply store_len).
  unfold bmap. eapply wp_geti; [exact Hi|]. rewrite Hdev. unfold addr in H0.
  destruct (bslot_lt bn Hbn) as [Hbs Hbnd]. pose proof (lookup_lt_Some _ _ _ Hi) as Hlt.
  destruct (bmap_index bn Hbn) as [(-> & Hs & Hd)|(-> & -> & Hrg & Hs)]; cbv zeta.
  - (* direct *)
    pose proof H0 as H0'. rewrite slot_direct_0, Hs in H0' by lia. rewrite H0', Z.eqb_refl.
    assert (Hfit : exists m, fits g W L (1 + m) /\ m = if decide (ind i = 0) then (1 + n)%nat else n).
    { destruct Hbud as [[Hz Hf]|(Hz & _ & Hf)]; [exists (1 + n)%nat|exists n]; (split; [done|]).
      - by rewrite decide_True. - by rewrite decide_False. }
    destruct Hfit as (m & Hfit & Hm).
    apply wp_bind. eapply balloc_wp; [done|exact Ht|done|constructor|simpl; lia|exact HW|exact Hfit|by intros x [-> _]|].
    intros a t1 Ha Hfree _ Ht1 Hfit1. eapply wp_updi; [exact Hi|]. apply wp_ret.
    destruct (fill_direct g sb Hly v Hlen i Hwf a Ha Hfree (bslot bn) ltac:(lia) H0) as [Hwf' Hsl].
    assert (Hind : ind (set_addr (bslot bn) a i) = ind i).
    { rewrite <- (ind_slot (alloc_view sb a v)), Hsl. by rewrite decide_False by lia. }
    rewrite <- Hs. eapply (HQ _ _ _ _ _ (a :: W)); [|exact Ht1|by intros x; right|by left|].
    + split; try done.
      * by apply (alloc_grows g sb Hly).
      * unfold alloc_view. by rewrite vset_eq.
      * unfold addr. rewrite Hsl. by rewrite decide_True.
      * intros k Hk Hne. rewrite Hsl. destruct (decide (k = bslot bn)); [congruence|done].
      * intros k Hk _ Hne. rewrite Hsl. by rewrite decide_False.
      * intros k Hk. rewrite Hsl. destruct (decide (k = bslot bn)); [by right|by left].
    + fold (set_addr (bslot bn) a i). split; [by right|]. rewrite Hind.
      destruct Hbud as [[Hz _]|(Hz & HWi & _)]; [left|right]; subst m;
        [rewrite decide_True in Hfit1 by done|rewrite decide_False in Hfit1 by done]; [done|].
      split; [done|]. split; [by right|done].
  - (* through the indirect block *)
    change (nthd 0 (i_addrs i) (Z.to_nat NDIRECT)) with (ind i). rewrite Hs.
    destruct Hbud as [[Hind Hf]|(Hind & HWi & Hf)].
    + rewrite Hind, Z.eqb_refl. apply wp_bind, wp_bind.
      eapply balloc_wp; [done|exact Ht|done|constructor|simpl; lia|exact HW|exact Hf|by intros x [-> _]|].
      intros a0 t1 Ha0 Hf0 _ Ht1 Hfit1. eapply wp_updi; [exact Hi|]. apply wp_ret. change (Z.to_nat NDIRECT) with nd.
      destruct (fill_direct g sb Hly v Hlen i Hwf a0 Ha0 Hf0 nd ltac:(lia) Hind) as [Hwf1 Hsl].
      assert (Hi1 : ind (set_addr nd a0 i) = a0) by (rewrite <- (ind_slot (alloc_view sb a0 v)), Hsl; by rewrite decide_True).
      fold (set_addr nd a0 i). rewrite <- Hi1 at 1. pose proof (data_range g sb Hly a0 Ha0) as Har.
      eapply (bmap_through (alloc_view sb a0 v)); [exact Ht1|by apply list_lookup_insert_eq|done|done| |lia|done| |by right|rewrite Hi1; by left|exact Hfit1|done|].
      * eapply meta_grows; [exact Hmeta|by apply (alloc_grows g sb Hly v a0 0)].
      * rewrite Hsl. by rewrite decide_False.
      * intros a t2 v2 L2 Hp Ht2 Hfit2. eapply (HQ _ _ _ _ _ (a :: a0 :: W)); [by eapply bmap_post_trans|exact Ht2| |by left|].
        -- intros x Hx. do 2 right. done.
        -- split; [by do 2 right|]. right. rewrite Hi1. split; [lia|]. split; [right; by left|done].
    + rewrite (proj2 (Z.eqb_neq _ _) Hind). apply wp_bind, wp_ret.
      eapply (bmap_through v); try done.
      intros a t2 v2 L2 Hp Ht2 Hfit2. rewrite <- (list_insert_id ic ip i) by done.
      eapply (HQ _ _ _ _ _ (a :: W)); [exact Hp|exact Ht2|by intros x; right|by left|].
      split; [by right|]. right. split; [done|]. split; [by right|done].
Qed.
End Bmap.

(** ** Bytes of a file *)

Definition fbyte (v : Z -> block) (i : inode) (off : Z) : Z :=
  nthd 0 (v (addr v i (off / BSIZE))) (Z.to_nat (off mod BSIZE)).
Definition fbytes (v : Z -> block) (i : inode) (off : Z) (n : nat) : list Z :=
  (fun k => fbyte v i (off + Z.of_nat k)) <$> seq 0 n.
Definition content (v : Z -> block) (i : inode) : list Z := fbytes v i 0 (Z.to_nat (i_size i)).

(** Every block below the size is there. *)
Definition file_ok (v : Z -> block) (i : inode) : Prop :=
  0 <= i_size i <= MAXFILE * BSIZE /\
  forall bn, 0 <= bn -> bn * BSIZE < i_size i -> addr v i bn <> 0.

Lemma length_fbytes v i off n : length (fbytes v i off n) = n.
Proof. unfold fbytes. by rewrite length_fmap, length_seq. Qed.

Lemma lookup_fbytes v i off n (k : nat) :
  (k < n)%nat -> fbytes v i off n !! k = Some (fbyte v i (off + Z.of_nat k)).
Proof. intros Hk. unfold fbytes. rewrite list_lookup_fmap, lookup_seq_lt by done. done. Qed.

Lemma fbytes_app v i off n m : fbytes v i off (n + m) = fbytes v i off n ++ fbytes v i (off + Z.of_nat n) m.
Proof.
  unfold fbytes. rewrite seq_app, fmap_app. f_equal. apply list_eq. intros k. rewrite !list_lookup_fmap.
  destruct (decide (k < m)%nat).
  - rewrite !lookup_seq_lt by done. cbn. do 2 f_equal. lia.
  - by rewrite !lookup_seq_ge by lia.
Qed.

(** The bytes inside one block. *)
Lemma slice_fbytes v i off (m : nat) :
  0 <= off -> off mod BSIZE + Z.of_nat m <= BSIZE -> length (v (addr v i (off / BSIZE))) = bsize ->
  slice (Z.to_nat (off mod BSIZE)) m (v (addr v i (off / BSIZE))) = fbytes v i off m.
Proof.
  intros Hoff Hm Hl. pose proof (Z.mod_pos_bound off BSIZE ltac:(done)) as Hmod. pose proof bsize_Z as Hbz.
  apply list_eq. intros k. destruct (decide (k < m)%nat) as [Hk|Hk].
  - rewrite lookup_slice, lookup_fbytes by done. unfold fbyte.
    assert (Hd : (off + Z.of_nat k) / BSIZE = off / BSIZE /\ (off + Z.of_nat k) mod BSIZE = off mod BSIZE + Z.of_nat k).
    { unfold BSIZE in *. split; zlia. }
    destruct Hd as [-> ->]. rewrite Z2Nat.inj_add, Nat2Z.id by lia. apply lookup_nthd. lia.
  - rewrite !lookup_ge_None_2; [done| |]; [rewrite length_fbytes; lia|unfold slice; rewrite length_take; lia].
Qed.

Lemma block_index off : 0 <= off -> off / BSIZE * BSIZE <= off < off / BSIZE * BSIZE + BSIZE /\ 0 <= off / BSIZE.
Proof. intros H. unfold BSIZE. zlia. Qed.

Section Readi.
Context {S : Type} `{!BlockStore S}.
Context (dev_read : Z -> option (nat -> Z -> M (fs S) (Z * list Z))).
Context (g : geo) (sb : superblock) (Hly : layout g sb).
Implicit Types (v : Z -> block) (L : list Z) (H : list hand) (t : S).

Lemma readi_loop_wp v L o Q E (ic : list inode) nc me (ip : nat) i :
  ic !! ip = Some i -> i_dev i = ROOTDEV -> inode_wf sb v i -> file_ok v i ->
  Z.of_nat (length L) < NBUF ->
  forall fuel t off n tot acc,
  store g v L [] o t -> 0 <= off -> 0 <= tot <= n -> n - tot <= Z.of_nat fuel ->
  off + (n - tot) <= i_size i ->
  (forall t', store g v L [] o t' -> Q (acc ++ fbytes v i off (Z.to_nat (n - tot))) (Fs t' sb ic nc me)) ->
  wp (readi_loop fuel ip off n tot acc) Q E (Fs t sb ic nc me).
Proof.
  intros Hi Hdev Hwf [Hsz Haddr] Hroom fuel. induction fuel as [|fuel IH]; intros t off n tot acc Ht Hoff Htot Hf Hle HQ; cbn [readi_loop].
  { apply wp_ret. specialize (HQ t Ht). replace (n - tot) with 0 in HQ by lia. by rewrite app_nil_r in HQ. }
  destruct (tot <? n) eqn:Etot; b2p.
  2:{ apply wp_ret. specialize (HQ t Ht). replace (n - tot) with 0 in HQ by lia. by rewrite app_nil_r in HQ. }
  eapply wp_geti; [exact Hi|]. destruct (block_index off Hoff) as [Hb1 Hb2].
  assert (Ha : addr v i (off / BSIZE) <> 0) by (apply Haddr; lia).
  assert (Hbn : 0 <= off / BSIZE < MAXFILE) by (change MAXFILE with 1036 in *; unfold BSIZE in *; lia).
  apply wp_bind. eapply bmap_hit; [done|exact Ht|exact Hi|done|done|done|done|apply not_elem_of_nil|simpl; lia|].
  intros t1 Ht1. rewrite Hdev. destruct (bslot_lt _ Hbn) as [Hbs _].
  destruct (iw_data _ _ _ Hwf _ Hbs Ha) as [Hd _]. fold (addr v i (off / BSIZE)) in Hd.
  eapply wp_bread; [exact Ht1|apply (data_writable g sb Hly), Hd|apply not_elem_of_nil|simpl; lia|].
  intros b t2 Hb Ht2. cbv zeta. eapply wp_bdat; [exact Ht2|by left|]. eapply wp_brelse; [exact Ht2|].
  intros t3 Ht3. pose proof (Z.mod_pos_bound off BSIZE ltac:(done)) as Hmod.
  assert (Hm : 0 < chunk off n tot <= n - tot /\ off mod BSIZE + chunk off n tot <= BSIZE) by (unfold chunk; lia).
  set (m := chunk off n tot) in *.
  rewrite slice_fbytes; [|done|lia|eapply store_len; [exact Ht|apply (data_writable g sb Hly), Hd]].
  apply IH; [done|lia|lia|lia|lia|]. intros t' Ht'. rewrite <- app_assoc.
  replace (off + m) with (off + Z.of_nat (Z.to_nat m)) by lia. rewrite <- fbytes_app.
  replace (Z.to_nat m + Z.to_nat (n - (tot + m)))%nat with (Z.to_nat (n - tot)) by lia. by apply HQ.
Qed.

(** [readi] of a regular file or directory. *)
Lemma readi_wp v L o Q E t (ic : list inode) nc me (ip : nat) i off n :
  ic !! ip = Some i -> i_dev i = ROOTDEV -> i_type i <> T_DEV -> inode_wf sb v i -> file_ok v i ->
  Z.of_nat (length L) < NBUF -> store g v L [] o t -> 0 <= off < 2 ^ 32 -> 0 <= n < 2 ^ 32 ->
  (off <= i_size i -> off + n < 2 ^ 32 ->
   let m := Z.min n (i_size i - off) in
   forall t', store g v L [] o t' -> Q (m, fbytes v i off (Z.to_nat m)) (Fs t' sb ic nc me)) ->
  ((i_size i < off \/ 2 ^ 32 <= off + n) -> Q (-1, []) (Fs t sb ic nc me)) ->
  wp (readi dev_read ip off n) Q E (Fs t sb ic nc me).
Proof.
  intros Hi Hdev Hty Hwf Hok Hroom Ht Hoff Hn HQ1 HQ2. unfold readi. eapply wp_geti; [exact Hi|].
  rewrite (proj2 (Z.eqb_neq _ _) Hty). destruct ((i_size i <? off) || (u32 (off + n) <? off)) eqn:Eg.
  { apply wp_ret, HQ2. apply orb_prop in Eg as [Eg|Eg]; b2p; [by left|right].
    destruct (decide (off + n < 2 ^ 32)); [|lia]. rewrite u32_small in Eg; lia. }
  b2p. assert (Hov : off + n < 2 ^ 32).
  { destruct (decide (off + n < 2 ^ 32)) as [?|Hge]; [done|]. unfold u32 in *.
    replace ((off + n) mod 2 ^ 32) with (off + n - 2 ^ 32) in *; [lia|].
    apply Z.mod_unique with 1; lia. }
  cbv zeta. set (n' := if i_size i <? off + n then i_size i - off else n).
  assert (Hn' : n' = Z.min n (i_size i - off)) by (unfold n'; destruct (i_size i <? off + n) eqn:E0; b2p; lia).
  apply wp_bind. destruct Hok as [Hs Hok'].
  assert (Hsz : i_size i < 2 ^ 31) by (change (MAXFILE * BSIZE) with 4243456 in Hs; lia).
  eapply readi_loop_wp; [exact Hi|done|done|by split|done|exact Ht|lia|lia|lia|lia|].
  intros t' Ht'. apply wp_ret. rewrite Z.sub_0_r. cbn [app]. rewrite Hn', i32_small by lia.
  by apply HQ1; [lia|done|].
Qed.
End Readi.
