(* ===== verification/Writei.v ===== *)
(** [writei] of fs.c: what a write does to the file, to the rest of the disk
    and to the log. *)
From stdpp Require Import base numbers list sets strings.
From Stdlib Require Import ZArith Lia.
From S2P Require Import Prelude Params CString Namecache Bio Log Store Fs Balloc Inode Content.

Local Open Scope list_scope.
Local Open Scope Z_scope.

(** ** Where a file's bytes live *)

Lemma bn_of x m off : 0 <= off -> off mod BSIZE + m <= BSIZE -> off <= x < off + m -> x / BSIZE = off / BSIZE.
Proof. intros H1 H2 H3. unfold BSIZE in *. zlia. Qed.

Lemma mod_of x m off :
  0 <= off -> off mod BSIZE + m <= BSIZE -> off <= x < off + m -> x mod BSIZE = off mod BSIZE + (x - off).
Proof. intros H1 H2 H3. unfold BSIZE in *. zlia. Qed.

Lemma bn_max x : 0 <= x < MAXFILE * BSIZE -> 0 <= x / BSIZE < MAXFILE.
Proof. intros H. change (MAXFILE * BSIZE) with 4243456 in H. change MAXFILE with 1036. unfold BSIZE. zlia. Qed.

(** Distinct file blocks live in distinct disk blocks, none the indirect one. *)
Lemma addr_inj sb v i bn bn' :
  inode_wf sb v i -> 0 <= bn < MAXFILE -> 0 <= bn' < MAXFILE -> addr v i bn <> 0 ->
  addr v i bn = addr v i bn' -> bn = bn'.
Proof.
  intros Hwf Hb Hb' Hne Heq. destruct (bslot_lt bn Hb) as [H1 _]. destruct (bslot_lt bn' Hb') as [H2 _].
  apply bslot_inj; [lia|lia|]. by eapply (iw_inj _ _ _ Hwf).
Qed.

Lemma addr_not_ind sb v i bn :
  inode_wf sb v i -> 0 <= bn < MAXFILE -> addr v i bn <> 0 -> addr v i bn <> ind i.
Proof.
  intros Hwf Hb Hne Heq. destruct (bslot_lt bn Hb) as [H1 H2]. apply H2.
  eapply (iw_inj _ _ _ Hwf); [done|rewrite nslots_val; unfold nd; lia|done|]. by rewrite ind_slot.
Qed.

Lemma addr_data sb v i bn :
  inode_wf sb v i -> 0 <= bn < MAXFILE -> addr v i bn <> 0 ->
  is_data sb (addr v i bn) /\ in_use sb v (addr v i bn) = true.
Proof. intros Hwf Hb Hne. apply (iw_data _ _ _ Hwf); [apply bslot_lt, Hb|done]. Qed.

(** The file's bytes do not move when [bmap] allocates. *)
Lemma fbyte_bmap sb v i bn a v' i' x :
  inode_wf sb v i -> bmap_post sb v i bn a v' i' -> 0 <= x / BSIZE < MAXFILE -> addr v i (x / BSIZE) <> 0 ->
  fbyte v' i' x = fbyte v i x.
Proof.
  intros Hwf [P1 P2 P3 P4 P5 P6 P7 P8 P9] Hx Ha. unfold fbyte.
  assert (Hk : addr v' i' (x / BSIZE) = addr v i (x / BSIZE)) by (apply P6; [apply bslot_lt, Hx|done]).
  rewrite Hk. destruct (addr_data _ _ _ _ Hwf Hx Ha) as [Hd Hu].
  rewrite (gr_data _ _ _ _ P2) by (done || by eapply addr_not_ind). done.
Qed.

(** ** The state of the copying loop *)

Section Wstate.
Context (g : geo) (sb : superblock) (Hly : layout g sb).
Context (v0 : Z -> block) (i0 : inode) (src : list Z) (off0 : Z).

(** After the bytes from [off0] up to [off] have been written. *)
Record wstate (v : Z -> block) (i : inode) (off : Z) : Prop := Wstate {
  ws_wf : inode_wf sb v i;
  ws_meta : meta_marked sb v;
  ws_inode : i = set_addrs (i_addrs i) i0;
  ws_alloc : forall bn, 0 <= bn -> bn * BSIZE < Z.max (i_size i0) off -> addr v i bn <> 0;
  ws_bytes : forall x, 0 <= x < Z.max (i_size i0) off ->
    fbyte v i x = if decide (off0 <= x < off) then nthd 0 src (Z.to_nat (x - off0)) else fbyte v0 i0 x;
  ws_use : forall b, 0 <= b < sb_size sb -> in_use sb v0 b = true -> in_use sb v b = true;
  ws_other : forall b, is_data sb b -> in_use sb v0 b = true ->
    (forall k, (k < nslots)%nat -> slot v0 i0 k <> b) -> v b = v0 b;
  ws_fresh : forall k, (k < nslots)%nat ->
    slot v i k = 0 \/ slot v i k = slot v0 i0 k \/ in_use sb v0 (slot v i k) = false;
  ws_metab : forall b, ~ is_data sb b -> (forall b', 0 <= b' < sb_size sb -> b <> BBLOCK b' sb) -> v b = v0 b
}.

(** [bmap] keeps the loop state. *)
Lemma wstate_bmap v i off bn a v' i' :
  Z.max (i_size i0) off <= MAXFILE * BSIZE -> wstate v i off -> bmap_post sb v i bn a v' i' -> wstate v' i' off.
Proof.
  intros Hmax [W1 W2 W3 W4 W5 W6 W7 W8 W9] Hp. pose proof Hp as [P1 P2 P3 P4 P5 P6 P7 P8 P9].
  pose proof P2 as [G1 G2 G3].
  assert (Hbn : forall bn', 0 <= bn' -> bn' * BSIZE < Z.max (i_size i0) off -> 0 <= bn' < MAXFILE).
  { intros bn' H1 H2. change (MAXFILE * BSIZE) with 4243456 in Hmax. change MAXFILE with 1036. unfold BSIZE in *. lia. }
  split; try done.
  - by eapply meta_grows.
  - rewrite P9, W3. by destruct i0.
  - intros bn' H1 H2. pose proof (W4 bn' H1 H2) as Hne. unfold addr. rewrite P6; [done|apply bslot_lt; auto|done].
  - intros x Hx. rewrite <- W5 by done. destruct (block_index x) as [Hx1 Hx2]; [lia|].
    assert (Hxm : 0 <= x / BSIZE < MAXFILE) by (apply Hbn; lia).
    eapply fbyte_bmap; [done|exact Hp|done|]. apply W4; lia.
  - intros b Hb Hu. apply G1; [done|]. by apply W6.
  - intros b Hb Hu Hno. pose proof (data_range g sb Hly b Hb). rewrite G2; [by apply W7|done|apply W6; [lia|done]|].
    intros ->. assert (Hnd : (nd < nslots)%nat) by (rewrite nslots_val; unfold nd; lia).
    pose proof (W8 nd Hnd) as Hfr. rewrite ind_slot in Hfr. destruct Hfr as [Hz|[He|Hf]].
    + lia.
    + by apply (Hno nd Hnd).
    + congruence.
  - intros k Hk. destruct (P8 k Hk) as [->|Hfr]; [by apply W8|].
    destruct (decide (slot v' i' k = 0)) as [|Hnz]; [by left|]. right. right.
    destruct (iw_data _ _ _ P1 k Hk Hnz) as [Hd _]. pose proof (data_range g sb Hly _ Hd).
    destruct (in_use sb v0 (slot v' i' k)) eqn:E; [|done]. rewrite W6 in Hfr; [done|lia|done].
  - intros b Hb Hn. rewrite G3 by done. by apply W9.
Qed.

(** Writing [m] bytes of the source at [off], inside the block that [bmap] gave. *)
Lemma wstate_write v i off m a :
  (forall b, readable g b -> length (v b) = bsize) ->
  0 <= off0 <= off -> 0 < m -> off mod BSIZE + m <= BSIZE -> off + m <= MAXFILE * BSIZE ->
  i_size i0 <= MAXFILE * BSIZE -> off + m - off0 <= Z.of_nat (length src) ->
  wstate v i off -> addr v i (off / BSIZE) = a -> a <> 0 ->
  wstate (vset a (splice (Z.to_nat (off mod BSIZE)) (slice (Z.to_nat (off - off0)) (Z.to_nat m) src) (v a)) v)
         i (off + m).
Proof.
  intros Hlen Hoff Hm Hfit Hmax Hsz Hsrc [W1 W2 W3 W4 W5 W6 W7 W8 W9] Ha Hne.
  set (bs := slice _ _ src). set (v' := vset a _ v).
  pose proof (Z.mod_pos_bound off BSIZE ltac:(done)) as Hmod.
  assert (Hbn : 0 <= off / BSIZE < MAXFILE) by (apply bn_max; lia).
  destruct (addr_data _ _ _ _ W1 Hbn ltac:(congruence)) as [Hd Hu]. rewrite Ha in Hd, Hu.
  pose proof (data_range g sb Hly a Hd) as Har.
  assert (Hai : a <> ind i) by (rewrite <- Ha; eapply addr_not_ind; [exact W1|done|congruence]).
  assert (Hs : forall k, slot v' i k = slot v i k) by (intros k; apply slot_ext; intros _; unfold v'; by rewrite vset_ne).
  assert (Hlbs : length bs = Z.to_nat m) by (apply length_slice; lia).
  pose proof (Hlen a (proj1 (data_writable g sb Hly a Hd))) as Hla. pose proof bsize_Z as Hbz.
  assert (Huse : forall b, 0 <= b < sb_size sb -> in_use sb v' b = in_use sb v b).
  { intros b Hb. unfold v'. by apply (in_use_vset_data g sb Hly). }
  assert (Haddr : forall bn, addr v' i bn = addr v i bn) by (intros bn; unfold addr; apply Hs).
  split; [| |exact W3|..].
  - destruct W1 as [A1 A2 A3]. split; [done| |].
    + intros k Hk. rewrite Hs. intros Hnz. destruct (A2 k Hk Hnz) as [Hdk Huk]. split; [done|].
      pose proof (data_range g sb Hly _ Hdk). rewrite Huse by lia. done.
    + intros k k' Hk Hk'. rewrite !Hs. by apply A3.
  - intros b Hb. rewrite Huse; [by apply W2|]. destruct Hly. lia.
  - intros bn H1 H2. rewrite Haddr. destruct (decide (bn * BSIZE < Z.max (i_size i0) off)); [by apply W4|].
    replace bn with (off / BSIZE); [congruence|].
    pose proof (Z.div_mod off BSIZE ltac:(done)). unfold BSIZE in *. lia.
  - intros x Hx. assert (Hdec : ~ off <= x < off + m -> 0 <= x < Z.max (i_size i0) off /\
      fbyte v i x = if decide (off0 <= x < off + m) then nthd 0 src (Z.to_nat (x - off0)) else fbyte v0 i0 x).
    { intros Hout. assert (Hx' : 0 <= x < Z.max (i_size i0) off) by lia. split; [done|]. rewrite W5 by done.
      destruct (decide (off0 <= x < off)); [rewrite decide_True by lia|rewrite decide_False by lia]; done. }
    unfold fbyte at 1. rewrite Haddr. destruct (decide (off <= x < off + m)) as [Hin|Hout].
    + rewrite (bn_of x m off ltac:(lia) Hfit Hin), Ha. unfold v'. rewrite vset_eq. rewrite decide_True by lia.
      assert (Hxm : x mod BSIZE = off mod BSIZE + (x - off)) by (apply (mod_of x m off); lia).
      rewrite Hxm, nthd_splice_in by lia. unfold bs. rewrite nthd_slice by lia. f_equal. lia.
    + destruct (Hdec Hout) as [Hx' <-]. unfold fbyte. destruct (block_index x) as [Hx1 Hx2]; [lia|].
      destruct (decide (x / BSIZE = off / BSIZE)) as [Hq|Hq].
      * rewrite Hq, Ha. unfold v'. rewrite vset_eq. apply nthd_splice_out; [lia|].
        pose proof (Z.div_mod x BSIZE ltac:(done)). pose proof (Z.div_mod off BSIZE ltac:(done)).
        pose proof (Z.mod_pos_bound x BSIZE ltac:(done)). rewrite Hq in *. lia.
      * assert (Hnz : addr v i (x / BSIZE) <> 0) by (apply W4; lia).
        unfold v'. rewrite vset_ne; [done|]. intros Heq. apply Hq.
        eapply addr_inj; [exact W1|apply bn_max; lia|done|done|congruence].
  - intros b Hb Hub. rewrite Huse by done. by apply W6.
  - intros b Hb Hub Hno. unfold v'. rewrite vset_ne; [by apply W7|]. intros ->.
    destruct (bslot_lt _ Hbn) as [Hbs _]. destruct (W8 _ Hbs) as [Hz|[He|Hf]]; fold (addr v i (off / BSIZE)) in *.
    + congruence.
    + apply (Hno _ Hbs). congruence.
    + congruence.
  - intros k Hk. rewrite Hs. by apply W8.
  - intros b Hb Hn. unfold v'. rewrite vset_ne; [by apply W9|]. by intros ->.
Qed.
End Wstate.

(** ** The loop *)

(** Blocks touched by [r] bytes at [off]. *)
Definition nblk (off r : Z) : nat :=
  if decide (0 < r) then Z.to_nat ((off + r - 1) / BSIZE - off / BSIZE + 1) else 0.

Lemma nblk_step off n tot :
  0 <= off -> tot < n -> let m := chunk off n tot in nblk off (n - tot) = (1 + nblk (off + m) (n - (tot + m)))%nat.
Proof.
  intros Hoff Hlt m. unfold nblk. rewrite (decide_True (P := 0 < n - tot)) by lia.
  pose proof (Z.div_mod off BSIZE ltac:(done)) as H1. pose proof (Z.mod_pos_bound off BSIZE ltac:(done)) as H2.
  unfold m, chunk in *. destruct (decide (n - tot <= BSIZE - off mod BSIZE)).
  - rewrite Z.min_l by lia. rewrite decide_False by lia.
    replace ((off + (n - tot) - 1) / BSIZE) with (off / BSIZE); [lia|].
    apply Z.div_unique with (off mod BSIZE + (n - tot) - 1); lia.
  - rewrite Z.min_r by lia. rewrite decide_True by lia.
    replace (off + (BSIZE - off mod BSIZE)) with ((off / BSIZE + 1) * BSIZE) by lia.
    rewrite Z.div_mul by done.
    replace ((off / BSIZE + 1) * BSIZE + (n - (tot + (BSIZE - off mod BSIZE))) - 1) with (off + (n - tot) - 1) by lia.
    assert (off / BSIZE + 1 <= (off + (n - tot) - 1) / BSIZE) by (apply Z.div_le_lower_bound; [done|unfold BSIZE in *; lia]).
    lia.
Qed.

Section Loop.
Context {S : Type} `{!BlockStore S}.
Context (g : geo) (sb : superblock) (Hly : layout g sb).
Context (v0 : Z -> block) (i0 : inode) (src : list Z) (off0 n : Z).
Context (Hdev : i_dev i0 = ROOTDEV) (Hoff0 : 0 <= off0) (Hsz : i_size i0 <= MAXFILE * BSIZE).
Context (Hmax : off0 + n <= MAXFILE * BSIZE) (Hsrc : n <= Z.of_nat (length src)).
Context (E : string -> Prop) (HE : E "balloc: out of blocks"%string).
Implicit Types (v : Z -> block) (L : list Z) (t : S).

Lemma writei_loop_wp nc me (ip : nat) Q fuel :
  forall t v i L W (ic : list inode) off tot k,
  off = off0 + tot -> 0 <= tot <= n -> n - tot <= Z.of_nat fuel ->
  store g v L [] true t -> ic !! ip = Some i -> wstate sb v0 i0 src off0 v i off ->
  (off <= i_size i0 -> i = i0) -> budget g sb W i L (nblk off (n - tot) + k) ->
  (forall t' v' i' L' W', store g v' L' [] true t' -> wstate sb v0 i0 src off0 v' i' (off0 + n) ->
     (off0 + n <= i_size i0 -> i' = i0) -> W ⊆ W' -> budget g sb W' i' L' k ->
     Q (off0 + n) (Fs t' sb (<[ip := i']> ic) nc me)) ->
  wp (writei_loop fuel ip src off n tot) Q E (Fs t sb ic nc me).
Proof.
  induction fuel as [|fuel IH]; intros t v i L W ic off tot k Hoff Htot Hf Ht Hi Hws Hkeep Hbud HQ; cbn [writei_loop].
  { apply wp_ret. rewrite <- (list_insert_id ic ip i) by done. replace off with (off0 + n) in * by lia.
    eapply HQ; [exact Ht|done|done|done|]. replace (n - tot) with 0 in Hbud by lia. exact Hbud. }
  destruct (tot <? n) eqn:Etot; b2p.
  2:{ apply wp_ret. rewrite <- (list_insert_id ic ip i) by done. replace off with (off0 + n) in * by lia.
      eapply HQ; [exact Ht|done|done|done|]. replace (n - tot) with 0 in Hbud by lia. exact Hbud. }
  pose proof (lookup_lt_Some _ _ _ Hi) as Hlt. eapply wp_geti; [exact Hi|].
  assert (Hidev : i_dev i = ROOTDEV) by (rewrite (ws_inode _ _ _ _ _ _ _ _ Hws); exact Hdev).
  assert (Hbn : 0 <= off / BSIZE < MAXFILE) by (apply bn_max; lia).
  pose proof (Z.mod_pos_bound off BSIZE ltac:(done)) as Hmod.
  assert (Hm : 0 < chunk off n tot <= n - tot /\ off mod BSIZE + chunk off n tot <= BSIZE) by (unfold chunk; lia).
  rewrite nblk_step in Hbud by lia. set (m := chunk off n tot) in *. cbn [Nat.add] in Hbud.
  (* the rest of the body, from the block found *)
  assert (Hrest : forall t1 v1 i1 L1 W1 a, store g v1 L1 [] true t1 -> wstate sb v0 i0 src off0 v1 i1 off ->
    addr v1 i1 (off / BSIZE) = a -> a <> 0 -> (off < i_size i0 -> i1 = i0) -> W ⊆ W1 -> a ∈ W1 ->
    budget g sb W1 i1 L1 (nblk (off + m) (n - (tot + m)) + k) ->
    wp (bind (sio (bs_bread ROOTDEV a)) (fun bp => bind (bdat bp) (fun d =>
          bind (sio (bs_set bp (splice (Z.to_nat (off mod BSIZE)) (slice (Z.to_nat tot) (Z.to_nat m) src) d))) (fun _ =>
          bind (sio (bs_log_write bp)) (fun _ => bind (sio (bs_brelse bp)) (fun _ =>
          writei_loop fuel ip src (off + m) n (tot + m))))))) Q E (Fs t1 sb (<[ip := i1]> ic) nc me)).
  { intros t1 v1 i1 L1 W1 a Ht1 Hws1 Ha Hane Hk1 HW1 HaW Hb1.
    destruct (addr_data _ _ _ _ (ws_wf _ _ _ _ _ _ _ _ Hws1) Hbn ltac:(congruence)) as [Hd _]. rewrite Ha in Hd.
    pose proof (data_writable g sb Hly a Hd) as Haw.
    assert (Hlen1 : forall b, readable g b -> length (v1 b) = bsize) by (intros b; by eapply store_len).
    eapply wp_bread; [exact Ht1|apply Haw|apply not_elem_of_nil|by eapply (fits_bufs g sb W1 L1 []); [|eapply budget_fits; exact Hb1|simpl; lia]|].
    intros bp t2 Hbp Ht2. eapply wp_bdat; [exact Ht2|by left|].
    eapply wp_update; [exact Ht2|done| |exact Haw|by eapply fits_lt, budget_fits, Hb1|].
    { pose proof bsize_Z. apply length_splice_block; [|by apply Hlen1, Haw]. rewrite length_slice; lia. }
    intros t3 Ht3. replace tot with (off - off0) in Ht3 by lia.
    pose proof (wstate_write g sb Hly v0 i0 src off0 v1 i1 off m a Hlen1 ltac:(lia) ltac:(lia) ltac:(lia) ltac:(lia)
                  Hsz ltac:(lia) Hws1 Ha Hane) as Hws2.
    eapply IH; [lia|lia|lia|exact Ht3|by apply list_lookup_insert_eq|exact Hws2| |by apply budget_absorb; [|exact Hb1]|].
    - intros Hle. apply Hk1. lia.
    - intros t' v' i' L' W' Ht' Hws' Hk' HW' Hb'. rewrite list_insert_insert_eq.
      eapply (HQ _ _ _ _ W'); [exact Ht'|exact Hws'|exact Hk'|by etransitivity|exact Hb']. }
  apply wp_bind. destruct (decide (addr v i (off / BSIZE) = 0)) as [Hz|Hnz].
  - eapply bmap_alloc; [done|exact Ht|exact Hi|done|apply Hws|apply Hws|done|done|exact Hbud|done|].
    intros a t1 v1 i1 L1 W1 Hp Ht1 HW1 HaW Hb1. rewrite Hidev. cbv zeta.
    eapply Hrest; [exact Ht1|eapply wstate_bmap; [done|lia|exact Hws|exact Hp]|apply Hp| | |exact HW1|exact HaW|exact Hb1].
    + destruct (bp_data _ _ _ _ _ _ _ Hp) as [Hd _]. pose proof (data_range g sb Hly a Hd). lia.
    + intros Hlt'. exfalso. destruct (block_index off) as [? ?]; [lia|].
      apply (ws_alloc _ _ _ _ _ _ _ _ Hws (off / BSIZE)); [lia|lia|done].
  - eapply (bmap_hit g sb Hly v L []); [exact Ht|exact Hi|done|apply Hws|done|done|apply not_elem_of_nil|by eapply (fits_bufs g sb W L []); [|eapply budget_fits; exact Hbud|simpl; lia]|].
    intros t1 Ht1. rewrite Hidev. cbv zeta.
    rewrite <- (list_insert_id ic ip i) at 1 by done.
    eapply (Hrest t1 v i L (addr v i (off / BSIZE) :: W)); [exact Ht1|exact Hws|done|done| |by intros x; right|by left|by apply budget_cons].
    intros Hl. apply Hkeep. lia.
Qed.
End Loop.

(** ** The whole call *)

(** The file after writing [n] bytes of [src] at [off]. *)
Definition overwrite (c : list Z) (off : Z) (src : list Z) (n : Z) : list Z :=
  take (Z.to_nat off) c ++ take (Z.to_nat n) src ++ drop (Z.to_nat (off + n)) c.

Lemma lookup_content v i (k : nat) :
  (k < Z.to_nat (i_size i))%nat -> content v i !! k = Some (fbyte v i (Z.of_nat k)).
Proof. intros Hk. unfold content. by rewrite lookup_fbytes. Qed.
Lemma length_content v i : length (content v i) = Z.to_nat (i_size i).
Proof. apply length_fbytes. Qed.

Lemma content_overwrite v i v' i' off src n :
  0 <= i_size i -> 0 <= off <= i_size i -> 0 <= n <= Z.of_nat (length src) -> i_size i' = Z.max (i_size i) (off + n) ->
  (forall x, 0 <= x < Z.max (i_size i) (off + n) ->
     fbyte v' i' x = if decide (off <= x < off + n) then nthd 0 src (Z.to_nat (x - off)) else fbyte v i x) ->
  content v' i' = overwrite (content v i) off src n.
Proof.
  intros Hsz Hoff Hn Hs' Hb. apply list_eq. intros k. unfold overwrite. pose proof (length_content v i) as Hl.
  destruct (decide (k < Z.to_nat (i_size i'))%nat) as [Hk|Hk].
  - rewrite lookup_content by done. rewrite Hb by lia. case_decide as Hd.
    + rewrite lookup_app_r; rewrite length_take, Hl; [|lia]. rewrite lookup_app_l by (rewrite length_take; lia).
      rewrite lookup_take_lt by lia. symmetry. rewrite (lookup_nthd 0) by lia. do 2 f_equal. lia.
    + destruct (decide (Z.of_nat k < off)).
      * rewrite lookup_app_l by (rewrite length_take; lia). rewrite lookup_take_lt by lia.
        by rewrite lookup_content by lia.
      * rewrite lookup_app_r; rewrite length_take, Hl; [|lia]. rewrite lookup_app_r; rewrite length_take; [|lia].
        rewrite lookup_drop. replace (_ + _)%nat with k by lia. by rewrite lookup_content by lia.
  - rewrite !lookup_ge_None_2; [done| |by rewrite length_content; lia].
    rewrite !length_app, !length_take, length_drop, Hl. lia.
Qed.

(** Views that agree on the data blocks and on the marks. *)
Definition agree (sb : superblock) (v v' : Z -> block) : Prop :=
  (forall b, is_data sb b -> v' b = v b) /\ (forall b, 0 <= b < sb_size sb -> in_use sb v' b = in_use sb v b).

Lemma agree_slot g sb v v' i k : layout g sb -> agree sb v v' -> inode_wf sb v i -> slot v' i k = slot v i k.
Proof. intros Hly [Ha _] Hwf. apply slot_ext. intros Hi. apply Ha. by apply (wf_ind sb v i Hwf Hi). Qed.

Lemma agree_wf g sb v v' i : layout g sb -> agree sb v v' -> inode_wf sb v i -> inode_wf sb v' i.
Proof.
  intros Hly Hag Hwf. pose proof (fun k => agree_slot g sb v v' i k Hly Hag Hwf) as Hs. destruct Hag as [_ Hu].
  destruct Hwf as [W1 W2 W3]. split; [done| |].
  - intros k Hk. rewrite Hs. intros Hne. destruct (W2 k Hk Hne) as [Hd Hus]. split; [done|].
    pose proof (data_range g sb Hly _ Hd). rewrite Hu by lia. done.
  - intros k k' Hk Hk'. rewrite !Hs. by apply W3.
Qed.

Lemma agree_fbyte g sb v v' i x :
  layout g sb -> agree sb v v' -> inode_wf sb v i -> 0 <= x / BSIZE < MAXFILE -> addr v i (x / BSIZE) <> 0 ->
  fbyte v' i x = fbyte v i x.
Proof.
  intros Hly Hag Hwf Hx Ha. unfold fbyte, addr. rewrite (agree_slot g sb v v' i _ Hly Hag Hwf).
  fold (addr v i (x / BSIZE)). destruct Hag as [Hd _]. rewrite Hd; [done|]. by eapply addr_data.
Qed.

Lemma agree_put_inode g sb v i : layout g sb -> 0 <= i_inum i < sb_ninodes sb -> agree sb v (put_inode sb i v).
Proof.
  intros Hly Hi. split.
  - intros b Hb. unfold put_inode. rewrite vset_ne; [done|]. by apply (data_not_inode g sb Hly).
  - intros b Hb. by apply (in_use_put_inode g sb Hly).
Qed.

Lemma agree_refl sb v : agree sb v v.
Proof. done. Qed.

Lemma agree_content g sb v v' i :
  layout g sb -> agree sb v v' -> inode_wf sb v i -> file_ok v i -> content v' i = content v i /\ file_ok v' i.
Proof.
  intros Hly Hag Hwf [Hsz Hok]. split.
  - unfold content, fbytes. apply list_fmap_ext. intros k x Hk. apply lookup_seq in Hk as [-> Hk].
    destruct (block_index (0 + Z.of_nat (0 + k))) as [Hb1 Hb2]; [lia|].
    apply (agree_fbyte g sb); [done|done|done|apply bn_max; lia|apply Hok; lia].
  - split; [done|]. intros bn H1 H2. unfold addr. rewrite (agree_slot g sb v v' i _ Hly Hag Hwf). by apply Hok.
Qed.

(** An inode that shares no block with [i]. *)
Definition apart (v : Z -> block) (i j : inode) : Prop :=
  forall k k', (k < nslots)%nat -> (k' < nslots)%nat -> slot v j k' <> 0 -> slot v i k <> slot v j k'.

Lemma wstate_apart g sb v0 i0 src off0 v i off j :
  layout g sb -> wstate sb v0 i0 src off0 v i off -> inode_wf sb v0 j -> file_ok v0 j -> apart v0 i0 j ->
  inode_wf sb v j /\ file_ok v j /\ content v j = content v0 j /\ apart v i j.
Proof.
  intros Hly Hws Hwf [Hsz Hok] Hap. pose proof Hws as [W1 W2 W3 W4 W5 W6 W7 W8 W9].
  assert (Hb : forall k, (k < nslots)%nat -> slot v0 j k <> 0 -> v (slot v0 j k) = v0 (slot v0 j k)).
  { intros k Hk Hne. destruct (iw_data _ _ _ Hwf k Hk Hne) as [Hd Hu]. apply W7; [done|done|].
    intros k' Hk'. by apply Hap. }
  assert (Hs : forall k, slot v j k = slot v0 j k).
  { intros k. apply slot_ext. intros Hi. rewrite <- (ind_slot v0 j) in *. apply Hb; [|done].
    rewrite nslots_val. unfold nd. lia. }
  assert (Ha : forall bn, addr v j bn = addr v0 j bn) by (intros bn; apply Hs).
  split_and!.
  - destruct Hwf as [A1 A2 A3]. split; [done| |].
    + intros k Hk. rewrite Hs. intros Hne. destruct (A2 k Hk Hne) as [Hd Hu]. split; [done|].
      apply W6; [|done]. pose proof (data_range g sb Hly _ Hd). lia.
    + intros k k' Hk Hk'. rewrite !Hs. by apply A3.
  - split; [done|]. intros bn H1 H2. rewrite Ha. by apply Hok.
  - unfold content, fbytes. apply list_fmap_ext. intros k x Hk. apply lookup_seq in Hk as [-> Hk].
    destruct (block_index (0 + Z.of_nat (0 + k))) as [Hb1 Hb2]; [lia|].
    unfold fbyte. rewrite Ha. unfold addr. rewrite Hb; [done|apply bslot_lt, bn_max; lia|apply Hok; lia].
  - intros k k' Hk Hk'. rewrite Hs. intros Hne. destruct (W8 k Hk) as [->|[->|Hf]]; [done|by apply Hap|].
    intros E. rewrite E in Hf. destruct (iw_data _ _ _ Hwf k' Hk' Hne) as [_ Hu]. congruence.
Qed.

Lemma wstate_init sb v i src off :
  inode_wf sb v i -> meta_marked sb v -> file_ok v i -> 0 <= off <= i_size i -> wstate sb v i src off v i off.
Proof.
  intros Hwf Hm [Hsz Hok] Hoff. split; try done.
  - by destruct i.
  - intros bn H1 H2. apply Hok; lia.
  - intros x Hx. rewrite decide_False by lia. done.
  - intros k Hk. right. by left.
Qed.

(** ** Files *)

(** A cached inode of a regular file or directory, consistent with the disk. *)
Record file_wf (sb : superblock) (v : Z -> block) (i : inode) : Prop := FileWf {
  fw_dev : i_dev i = ROOTDEV;
  fw_inum : 0 <= i_inum i < sb_ninodes sb;
  fw_type : i_type i <> T_DEV;
  fw_ok : inode_ok i;
  fw_wf : inode_wf sb v i;
  fw_file : file_ok v i;
  fw_disk : dinode_at sb v (i_inum i) = disk_part i
}.

Lemma wf_inode_ok g sb v i i0 :
  layout g sb -> inode_wf sb v i -> inode_ok i0 -> i = set_addrs (i_addrs i) i0 -> inode_ok i.
Proof.
  intros Hly Hwf [] Heq. split; try (rewrite Heq; done); [apply Hwf|].
  apply Forall_lookup. intros k a Hk. pose proof (lookup_lt_Some _ _ _ Hk) as Hlt. rewrite (iw_len _ _ _ Hwf), naddrs_val in Hlt.
  assert (Hs : slot v i k = a) by (rewrite slot_direct_0 by (unfold nd; lia); by apply nthd_lookup).
  destruct (decide (a = 0)) as [->|Hne]; [lia|].
  destruct (iw_data _ _ _ Hwf k ltac:(rewrite nslots_val; lia) ltac:(congruence)) as [Hd _]. rewrite Hs in Hd.
  pose proof (data_range g sb Hly a Hd). destruct Hly. unfold BPB, BSIZE in *. lia.
Qed.

Lemma dinode_at_meta g sb v v' inum :
  layout g sb -> 0 <= inum < sb_ninodes sb ->
  (forall b, ~ is_data sb b -> (forall b', 0 <= b' < sb_size sb -> b <> BBLOCK b' sb) -> v' b = v b) ->
  dinode_at sb v' inum = dinode_at sb v inum.
Proof.
  intros Hly Hi Hm. unfold dinode_at. rewrite Hm; [done| |].
  - intros Hd. by apply (data_not_inode g sb Hly _ inum Hd).
  - intros b' Hb' Heq. by apply (bitmap_not_inode g sb Hly b' inum).
Qed.

(** What a write leaves behind, for the file and for everything else. *)
Record wrote_file (sb : superblock) (v : Z -> block) (i : inode) (off : Z) (src : list Z) (n : Z)
    (v' : Z -> block) (i' : inode) : Prop := WroteFile {
  wf_file : file_wf sb v' i';
  wf_meta : meta_marked sb v';
  wf_content : content v' i' = overwrite (content v i) off src n;
  wf_same : i' = set_size (i_size i') (set_addrs (i_addrs i') i);
  wf_others : forall j, inode_wf sb v j -> file_ok v j -> apart v i j ->
    inode_wf sb v' j /\ file_ok v' j /\ content v' j = content v j /\ apart v' i' j;
  wf_inodes : forall k, 0 <= k < sb_ninodes sb -> k <> i_inum i -> dinode_at sb v' k = dinode_at sb v k
}.

Lemma overwrite_split c off src n1 n2 :
  0 <= off <= Z.of_nat (length c) -> 0 <= n1 -> 0 <= n2 -> n1 + n2 <= Z.of_nat (length src) ->
  overwrite (overwrite c off src n1) (off + n1) (drop (Z.to_nat n1) src) n2 = overwrite c off src (n1 + n2).
Proof.
  intros Ho H1 H2 Hl. unfold overwrite. replace (Z.to_nat (off + n1)) with (Z.to_nat off + Z.to_nat n1)%nat by lia.
  replace (Z.to_nat (off + n1 + n2)) with (Z.to_nat off + Z.to_nat n1 + Z.to_nat n2)%nat by lia.
  replace (Z.to_nat (n1 + n2)) with (Z.to_nat n1 + Z.to_nat n2)%nat by lia.
  replace (Z.to_nat (off + (n1 + n2))) with (Z.to_nat off + Z.to_nat n1 + Z.to_nat n2)%nat by lia.
  assert (Ht : length (take (Z.to_nat off) c) = Z.to_nat off) by (rewrite length_take; lia).
  assert (Hs : length (take (Z.to_nat n1) src) = Z.to_nat n1) by (rewrite length_take; lia).
  rewrite (app_assoc (take (Z.to_nat off) c) (take (Z.to_nat n1) src) (drop (Z.to_nat off + Z.to_nat n1) c)).
  rewrite (take_app_length' (take _ c ++ take _ src)) by (rewrite length_app; lia).
  rewrite drop_app_ge by (rewrite length_app; lia). rewrite length_app, Ht, Hs, drop_drop.
  rewrite <- app_assoc. f_equal. rewrite <- (take_take_drop src). rewrite <- app_assoc. do 3 f_equal. lia.
Qed.

(** A write in two steps. *)
Lemma wrote_file_trans sb v i off src n1 n2 v1 i1 v2 i2 :
  0 <= off <= i_size i -> 0 <= n1 -> 0 <= n2 -> n1 + n2 <= Z.of_nat (length src) ->
  wrote_file sb v i off src n1 v1 i1 -> wrote_file sb v1 i1 (off + n1) (drop (Z.to_nat n1) src) n2 v2 i2 ->
  wrote_file sb v i off src (n1 + n2) v2 i2.
Proof.
  intros Ho H1 H2 Hl [A1 A2 A3 A4 A5 A6] [B1 B2 B3 B4 B5 B6]. split; [done|done| | | |].
  - rewrite B3, A3. apply overwrite_split; [|done|done|done]. rewrite length_content. lia.
  - rewrite B4, A4. done.
  - intros j C1 C2 C3. destruct (A5 j C1 C2 C3) as (D1 & D2 & D3 & D4). destruct (B5 j D1 D2 D4) as (E1 & E2 & E3 & E4).
    split_and!; [done|done|congruence|done].
  - intros k Hk Hne. rewrite B6; [by apply A6|done|]. rewrite A4. done.
Qed.

Lemma wrote_file_nil sb v i off src : file_wf sb v i -> meta_marked sb v -> 0 <= off -> wrote_file sb v i off src 0 v i.
Proof.
  intros Hf Hm Ho. split; [done|done| |by destruct i|done|done].
  unfold overwrite. rewrite take_0, Z.add_0_r. cbn [app]. by rewrite take_drop.
Qed.

Section Writei.
Context {S : Type} `{!BlockStore S}.
Context (dev_read : Z -> option (nat -> Z -> M (fs S) (Z * list Z))).
Context (dev_write : Z -> option (nat -> list Z -> Z -> M (fs S) Z)).
Context (g : geo) (sb : superblock) (Hly : layout g sb).
Implicit Types (v : Z -> block) (L : list Z) (t : S).

Lemma writei_wp v W L k Q E t (ic : list inode) nc me (ip : nat) i src off n :
  store g v L [] true t -> ic !! ip = Some i -> file_wf sb v i -> meta_marked sb v ->
  0 <= off <= i_size i -> 0 <= n <= Z.of_nat (length src) -> off + n <= MAXFILE * BSIZE ->
  budget g sb W i L (nblk off n + k) -> IBLOCK (i_inum i) sb ∈ W ->
  E "balloc: out of blocks"%string ->
  (forall t' v' i' L' W', store g v' L' [] true t' -> wrote_file sb v i off src n v' i' -> W ⊆ W' ->
     budget g sb W' i' L' k -> Q n (Fs t' sb (<[ip := i']> ic) nc me)) ->
  wp (writei dev_write ip src off n) Q E (Fs t sb ic nc me).
Proof.
  intros Ht Hi [F1 F2 F3 F4 F5 F6 F7] Hmeta Hoff Hn Hmax Hbud HWi HE HQ. unfold writei.
  eapply wp_geti; [exact Hi|]. rewrite (proj2 (Z.eqb_neq _ _) F3). pose proof F6 as [Hsz Hok].
  change (MAXFILE * BSIZE) with 4243456 in *.
  assert (Eg : (i_size i <? off) || (u32 (off + n) <? off) = false).
  { rewrite u32_small by lia. apply orb_false_iff. split; apply Z.ltb_ge; lia. }
  rewrite Eg, u32_small by lia. rewrite (proj2 (Z.ltb_ge _ _)) by lia.
  pose proof (lookup_lt_Some _ _ _ Hi) as Hlt. apply wp_bind.
  eapply (writei_loop_wp g sb Hly v i src off n F1); try exact Ht; try exact Hi; try (by apply wstate_init); try (by rewrite Z.sub_0_r); try (done || lia).
  { change (MAXFILE * BSIZE) with 4243456. lia. }
  intros t1 v1 i1 L1 W1 Ht1 Hws Hkeep HW1 Hb1. pose proof Hws as [A1 A2 A3 A4 A5 A6 A7 A8 A9].
  eapply wp_geti; [by apply list_lookup_insert_eq|].
  assert (Hlen1 : forall b, readable g b -> length (v1 b) = bsize) by (intros b; by eapply store_len).
  pose proof (wf_inode_ok g sb v1 i1 i Hly A1 F4 A3) as Hok1.
  assert (Hs1 : i_size i1 = i_size i) by (rewrite A3; done).
  assert (Hn1 : i_inum i1 = i_inum i) by (rewrite A3; done).
  assert (Hmeta1 : forall k, 0 <= k < sb_ninodes sb -> dinode_at sb v1 k = dinode_at sb v k).
  { intros k' Hk'. by eapply dinode_at_meta. }
  assert (Hap : forall j, inode_wf sb v j -> file_ok v j -> apart v i j ->
    inode_wf sb v1 j /\ file_ok v1 j /\ content v1 j = content v j /\ apart v1 i1 j) by (intros j; by eapply wstate_apart).
  rewrite Hs1. destruct ((0 <? n) && (i_size i <? off + n)) eqn:Eg2.
  - apply andb_prop in Eg2 as [En Es]. b2p. set (i2 := set_size (off + n) i1).
    apply wp_bind. eapply wp_updi; [by apply list_lookup_insert_eq|]. rewrite list_insert_insert_eq. fold i2.
    assert (Hok2 : inode_ok i2) by (destruct Hok1; split; try done; cbn; lia).
    assert (Hr2 : 0 <= i_inum i2 < sb_ninodes sb) by (cbn; by rewrite Hn1).
    apply wp_bind. eapply (iupdate_wp g v1 W1 L1 []); [done|exact Ht1|by apply list_lookup_insert_eq|cbn; by rewrite A3|exact Hr2|exact Hok2|apply not_elem_of_nil|simpl; lia|by eapply budget_fits|].
    intros t2 Ht2. apply wp_ret. rewrite i32_small by lia.
    pose proof (agree_put_inode g sb v1 i2 Hly Hr2) as Hag.
    assert (Hwf2 : inode_wf sb v1 i2) by (destruct A1; by split).
    assert (Hf2 : file_ok v1 i2).
    { split; [cbn; change (MAXFILE * BSIZE) with 4243456; lia|]. cbn. intros bn H1 H2.
      change (addr v1 i2 bn) with (addr v1 i1 bn). apply A4; lia. }
    destruct (agree_content g sb v1 _ i2 Hly Hag Hwf2 Hf2) as [Hc2 Hf3].
    eapply (HQ _ _ _ _ W1); [exact Ht2| |done|].
    + split.
      * split; [cbn; by rewrite A3|done|cbn; by rewrite A3|done|by eapply agree_wf|done|].
        rewrite (dinode_at_put g sb Hly v1 Hlen1) by done. by rewrite decide_True.
      * intros b Hb. rewrite (proj2 Hag); [by apply A2|]. destruct Hly. lia.
      * rewrite Hc2. apply content_overwrite; [lia|done|done|cbn; lia|]. intros x Hx. by apply A5.
      * unfold i2. rewrite A3. reflexivity.
      * intros j Hj Hfj Hapj. destruct (Hap j Hj Hfj Hapj) as (B1 & B2 & B3 & B6).
        destruct (agree_content g sb v1 _ j Hly Hag B1 B2) as [B4 B5]. split_and!; [by eapply agree_wf|done|congruence|].
        intros k1 k2 Hk1 Hk2. rewrite (agree_slot g sb v1 _ j) by done. rewrite (agree_slot g sb v1 _ i2) by done. exact (B6 k1 k2 Hk1 Hk2).
      * intros k' Hk' Hne. rewrite (dinode_at_put g sb Hly v1 Hlen1) by done. rewrite decide_False by (cbn; congruence).
        by apply Hmeta1.
    + apply budget_absorb; [|exact Hb1]. cbn. rewrite Hn1. by apply HW1.
  - assert (Hno : n = 0 \/ off + n <= i_size i) by (apply andb_false_iff in Eg2 as [Eg2|Eg2]; b2p; lia).
    assert (i1 = i) as -> by (apply Hkeep; lia).
    apply wp_bind, wp_ret, wp_ret. rewrite i32_small by lia. eapply (HQ _ _ _ _ W1); [exact Ht1| |done|done].
    split; try done.
    + split; try done.
      * split; [done|]. intros bn H1 H2. apply A4; lia.
      * rewrite <- F7. by apply Hmeta1.
    + apply content_overwrite; [lia|done|done|lia|]. intros x Hx. by apply A5.
    + intros k' Hk' _. by apply Hmeta1.
Qed.

(** C2: writing [n] bytes at an offset inside a file and reading them back
    gives the bytes written.  The write either completes, with the file equal
    to the old one overwritten at [off] (extended if the write goes past its
    end), its inode on disk equal to the one in memory, every block it newly
    uses marked in the bitmap, every other file's bytes and every other inode
    unchanged; or it stops in [balloc] with the disk full.  No log-space
    panic happens as long as the log has room for the bitmap block, the inode
    block, the indirect block and the blocks the range covers. *)
Theorem writei_readi v L t (ic : list inode) nc me (ip : nat) i src off n W :
  store g v L [] true t -> ic !! ip = Some i -> file_wf sb v i -> meta_marked sb v ->
  0 <= off <= i_size i -> 0 <= n <= Z.of_nat (length src) -> off + n <= MAXFILE * BSIZE ->
  budget g sb W i L (nblk off n) -> IBLOCK (i_inum i) sb ∈ W ->
  wp (bind (writei dev_write ip src off n) (fun r => bind (readi dev_read ip off n) (fun x => ret (r, x))))
     (fun x s' => x = (n, (n, take (Z.to_nat n) src)) /\
        exists t' v' i' L', s' = Fs t' sb (<[ip := i']> ic) nc me /\ store g v' L' [] true t' /\
          wrote_file sb v i off src n v' i')
     (fun m => m = "balloc: out of blocks"%string) (Fs t sb ic nc me).
Proof.
  intros Ht Hi Hf Hm Hoff Hn Hmax Hb HW. apply wp_bind.
  eapply (writei_wp v W L 0); [exact Ht|exact Hi|exact Hf|exact Hm|exact Hoff|exact Hn|exact Hmax|by rewrite Nat.add_0_r|exact HW|done|].
  intros t' v' i' L' W' Ht' Hwr _ Hb'. pose proof Hwr as [[F1 F2 F3 F4 F5 F6 F7] M C _ _ _].
  pose proof (lookup_lt_Some _ _ _ Hi) as Hlt. pose proof Hf as [_ _ _ _ _ [Hsz _] _]. pose proof F6 as [Hsz' _].
  assert (Hlen : i_size i' = Z.max (i_size i) (off + n)).
  { apply (f_equal length) in C. unfold overwrite in C. rewrite !length_app, !length_take, length_drop, !length_content in C. lia. }
  assert (Hrd : fbytes v' i' off (Z.to_nat n) = take (Z.to_nat n) src).
  { apply (f_equal (fun c => take (Z.to_nat n) (drop (Z.to_nat off) c))) in C. revert C. unfold overwrite.
    rewrite drop_app_length' by (rewrite length_take, length_content; lia).
    rewrite take_app_length' by (rewrite length_take; lia). intros <-.
    apply list_eq. intros k. destruct (decide (k < Z.to_nat n)%nat) as [Hk|Hk].
    - rewrite lookup_fbytes, lookup_take_lt, lookup_drop, lookup_content by lia. do 2 f_equal. lia.
    - rewrite !lookup_ge_None_2; [done| |]; [rewrite length_take|rewrite length_fbytes]; lia. }
  change (MAXFILE * BSIZE) with 4243456 in *. apply wp_bind.
  eapply (readi_wp dev_read g sb Hly v' L'); [by apply list_lookup_insert_eq|exact F1|exact F3|exact F5|exact F6| |exact Ht'|lia|lia| |].
  - pose proof (fits_bufs g sb _ _ [] _ Hly (budget_fits _ _ _ _ _ _ Hb')). cbn [length] in *. lia.
  - intros _ _. cbn zeta. intros t2 Ht2. apply wp_ret. replace (Z.min n (i_size i' - off)) with n by lia.
    split; [by rewrite Hrd|]. by exists t2, v', i', L'.
  - intros [?|?]; lia.
Qed.
End Writei.
