(* ===== verification/Dir.v ===== *)
(** Directories: [dirlookup] and [dirlink] of fs.c.

    A directory is the list of entries its bytes encode, [dents].  The name
    cache is coherent with a directory when every binding it holds for it is
    the one the scan finds. *)
From stdpp Require Import base numbers list strings.
From Stdlib Require Import ZArith Lia.
From S2P Require Import Prelude Params CString Namecache Bio Log Store Fs Balloc Inode Content Writei.

Local Open Scope list_scope.
Local Open Scope Z_scope.

(** ** A directory as a list of entries *)

Definition desz : nat := 16.
Definition dents_of (c : list Z) : list dirent :=
  (fun k => dec_dirent (slice (desz * k) desz c)) <$> seq 0 (length c / desz).
Definition dents (v : Z -> block) (i : inode) : list dirent := dents_of (content v i).
Definition dirent0 : dirent := Dirent 0 [].

Definition dmatch (s : list Z) (de : dirent) : bool :=
  negb (de_inum de =? 0) && bool_decide (cstr (Z.to_nat DIRSIZ) (de_name de) = s).
Definition dir_find (s : list Z) (ds : list dirent) : option nat := find_idx (dmatch s) ds.
Definition dir_get (s : list Z) (ds : list dirent) : option Z :=
  (fun k => de_inum (nthd dirent0 ds k)) <$> dir_find s ds.
(** The slot [dirlink] fills: the first free entry, or one past the end. *)
Definition free_slot (ds : list dirent) : nat :=
  default (length ds) (find_idx (fun de => de_inum de =? 0) ds).
Definition put_dent (k : nat) (de : dirent) (ds : list dirent) : list dirent :=
  if decide (k < length ds)%nat then <[k := de]> ds else ds ++ [de].

Definition name_of (name : list Z) : list Z := cstr (Z.to_nat DIRSIZ) name.

Lemma length_dents_of c : length (dents_of c) = (length c / desz)%nat.
Proof. unfold dents_of. by rewrite length_fmap, length_seq. Qed.

Lemma lookup_dents_of c k :
  (k < length c / desz)%nat -> dents_of c !! k = Some (dec_dirent (slice (desz * k) desz c)).
Proof. intros Hk. unfold dents_of. rewrite list_lookup_fmap, lookup_seq_lt by done. done. Qed.

Lemma dec_enc_dirent de : 0 <= de_inum de < 2 ^ 16 -> dec_dirent (enc_dirent de) = de.
Proof.
  intros H. destruct de as [n name]. unfold dec_dirent, enc_dirent. cbn [de_inum de_name] in *.
  rewrite take_app_length' by (by rewrite length_le_enc). rewrite drop_app_length' by (by rewrite length_le_enc).
  rewrite le_dec_enc, Z.mod_small by (cbn; lia). done.
Qed.

Lemma length_enc_dirent de : length (de_name de) = 14%nat -> length (enc_dirent de) = desz.
Proof. intros H. unfold enc_dirent. rewrite length_app, length_le_enc, H. done. Qed.

(** Writing an entry at slot [k] of the bytes replaces or appends it. *)
Lemma dents_overwrite c k de :
  (length c mod desz = 0)%nat -> (k <= length c / desz)%nat ->
  0 <= de_inum de < 2 ^ 16 -> length (de_name de) = 14%nat ->
  dents_of (overwrite c (Z.of_nat (desz * k)) (enc_dirent de) (Z.of_nat desz)) = put_dent k de (dents_of c).
Proof.
  intros Hm Hk Hi Hn. pose proof (length_enc_dirent de Hn) as Hl.
  pose proof (Nat.div_mod_eq (length c) desz) as Hd. rewrite Hm, Nat.add_0_r in Hd.
  set (n := (length c / desz)%nat) in *.
  assert (Ho : overwrite c (Z.of_nat (desz * k)) (enc_dirent de) (Z.of_nat desz)
    = take (desz * k) c ++ enc_dirent de ++ drop (desz * k + desz) c).
  { unfold overwrite. rewrite <- Nat2Z.inj_add, !Nat2Z.id. by rewrite (take_ge (enc_dirent de)) by lia. }
  rewrite Ho. set (c' := take _ _ ++ _).
  assert (Hc : length c' = (desz * (if decide (k < n) then n else S n))%nat).
  { unfold c'. rewrite !length_app, length_take, length_drop, Hl. unfold desz in *. case_decide; lia. }
  assert (Hlen : (length c' / desz)%nat = length (put_dent k de (dents_of c))).
  { unfold put_dent. rewrite Hc, Nat.mul_comm, Nat.div_mul by done. rewrite length_dents_of. fold n.
    case_decide; [by rewrite length_insert, length_dents_of|rewrite length_app, length_dents_of; cbn; lia]. }
  apply list_eq. intros j. destruct (decide (j < length c' / desz)%nat) as [Hj|Hj].
  2:{ rewrite !lookup_ge_None_2; [done|lia|rewrite length_dents_of; lia]. }
  rewrite lookup_dents_of by done. rewrite Hlen in Hj. unfold put_dent in *. rewrite length_dents_of in *. fold n in Hj |- *.
  assert (Hs : slice (desz * j) desz c' = if decide (j = k) then enc_dirent de else slice (desz * j) desz c).
  { unfold slice, c'. destruct (decide (j = k)) as [->|Hne].
    - rewrite drop_app_length' by (rewrite length_take; unfold desz in *; lia).
      by rewrite take_app_length' by done.
    - destruct (decide (j < k)%nat) as [Hlt|Hge].
      + rewrite drop_app_le by (rewrite length_take; unfold desz in *; lia).
        rewrite take_app_le by (rewrite length_drop, length_take; unfold desz in *; lia).
        rewrite skipn_firstn_comm, take_take. f_equal. unfold desz; lia.
      + rewrite drop_app_ge by (rewrite length_take; unfold desz in *; lia).
        rewrite drop_app_ge by (rewrite Hl, length_take; unfold desz in *; lia).
        rewrite drop_drop, Hl, length_take. do 2 f_equal. unfold desz in *; lia. }
  rewrite Hs. destruct (decide (j = k)) as [->|Hne].
  - rewrite dec_enc_dirent by done. case_decide.
    + by rewrite list_lookup_insert_eq by (rewrite length_dents_of; done).
    + rewrite lookup_app_r, length_dents_of by (rewrite length_dents_of; lia). fold n.
      by replace (k - n)%nat with 0%nat by lia.
  - case_decide.
    + rewrite list_lookup_insert_ne by done. rewrite lookup_dents_of; [done|]. rewrite length_insert, length_dents_of in Hj. exact Hj.
    + rewrite length_app, length_dents_of in Hj. cbn [length] in Hj. fold n in Hj.
      rewrite lookup_app_l by (rewrite length_dents_of; fold n; lia). rewrite lookup_dents_of; [done|]. fold n. lia.
Qed.

Lemma lookup_put_dent k de ds j :
  (k <= length ds)%nat -> put_dent k de ds !! j = if decide (j = k) then Some de else ds !! j.
Proof.
  intros Hk. unfold put_dent. destruct (decide (k < length ds)%nat) as [Hlt|Hge]; case_decide as Hj; subst.
  - by apply list_lookup_insert_eq.
  - by apply list_lookup_insert_ne.
  - replace k with (length ds) by lia. by rewrite lookup_app_r, Nat.sub_diag by lia.
  - destruct (decide (j < length ds)%nat); [by apply lookup_app_l|].
    rewrite !lookup_ge_None_2; [done|lia|rewrite length_app; cbn; lia].
Qed.

Lemma free_slot_le ds : (free_slot ds <= length ds)%nat.
Proof. unfold free_slot. destruct (find_idx _ ds) eqn:E; cbn; [apply find_idx_lt in E; lia|lia]. Qed.

Lemma free_slot_dead ds s : default false (dmatch s <$> ds !! free_slot ds) = false.
Proof.
  unfold free_slot. destruct (find_idx _ ds) as [k|] eqn:E.
  - change (default (length ds) (Some k)) with k. apply find_idx_Some in E as [(x & -> & Hx) _]. cbn. unfold dmatch. by rewrite Hx.
  - by rewrite lookup_ge_None_2 by done.
Qed.

(** Linking a new name binds it and leaves every other name alone. *)
Lemma dir_get_put ds de s :
  de_inum de <> 0 -> dir_get (name_of (de_name de)) ds = None ->
  dir_get s (put_dent (free_slot ds) de ds)
  = if decide (s = name_of (de_name de)) then Some (de_inum de) else dir_get s ds.
Proof.
  intros Hi Hnone. pose proof (free_slot_le ds) as Hle. unfold dir_get, dir_find in *.
  destruct (decide (s = name_of (de_name de))) as [->|Hne].
  - rewrite (find_idx_unique _ _ (free_slot ds) de).
    + cbn [fmap option_fmap option_map]. unfold nthd. rewrite lookup_put_dent, decide_True by done. done.
    + by rewrite lookup_put_dent, decide_True by done.
    + unfold dmatch. rewrite (proj2 (Z.eqb_neq _ _) Hi). cbn. by apply bool_decide_eq_true_2.
    + intros j y Hj. rewrite lookup_put_dent, decide_False by done. intros Hy. apply fmap_None in Hnone.
      rewrite find_idx_None in Hnone. by eapply Hnone.
  - rewrite (find_idx_pad _ _ ds).
    + destruct (find_idx (dmatch s) ds) as [k|] eqn:E; [|done]. cbn [fmap option_fmap option_map].
      unfold nthd. rewrite lookup_put_dent by done. destruct (decide (k = free_slot ds)) as [->|]; [|done].
      apply find_idx_Some in E as [(x & Hx & Hm) _]. pose proof (free_slot_dead ds s) as Hd. rewrite Hx in Hd. cbn in Hd. congruence.
    + intros j. rewrite lookup_put_dent by done. destruct (decide (j = free_slot ds)) as [->|]; [|done].
      rewrite free_slot_dead. cbn. unfold dmatch. rewrite (bool_decide_eq_false_2 _ ); [by rewrite andb_false_r|].
      intros Heq. by apply Hne.
Qed.

(** ** Reading entries *)

Record dir_wf (sb : superblock) (v : Z -> block) (i : inode) : Prop := DirWf {
  dw_file : file_wf sb v i;
  dw_type : i_type i = T_DIR;
  dw_size : i_size i mod DIRENTSIZE = 0
}.

Lemma slice_content v i off n :
  (off + n <= Z.to_nat (i_size i))%nat -> slice off n (content v i) = fbytes v i (Z.of_nat off) n.
Proof.
  intros H. apply list_eq. intros k. destruct (decide (k < n)%nat) as [Hk|Hk].
  - rewrite lookup_slice, lookup_content, lookup_fbytes by lia. do 2 f_equal. lia.
  - rewrite !lookup_ge_None_2; [done|rewrite length_fbytes; lia|].
    rewrite length_slice by (rewrite length_content; lia). lia.
Qed.

Section Dir.
Context {S : Type} `{!BlockStore S}.
Context (dev_read : Z -> option (nat -> Z -> M (fs S) (Z * list Z))).
Context (dev_write : Z -> option (nat -> list Z -> Z -> M (fs S) Z)).
Context (g : geo) (sb : superblock) (Hly : layout g sb).
Implicit Types (v : Z -> block) (L : list Z) (t : S).

Lemma ndents_count v i :
  dir_wf sb v i -> Z.to_nat ((i_size i + DE - 1) / DE) = length (dents v i) /\
  i_size i = Z.of_nat desz * Z.of_nat (length (dents v i)).
Proof.
  intros [Hf _ Hs]. destruct (fw_file _ _ _ Hf) as [[Hz _] _]. unfold dents. rewrite length_dents_of, length_content.
  change DE with 16. change DIRENTSIZE with 16 in Hs. apply Z.mod_divide in Hs as [q Hq]; [|done].
  rewrite Hq. replace ((q * 16 + 16 - 1) / 16) with q by (apply Z.div_unique with 15; lia).
  replace (Z.to_nat (q * 16)) with (Z.to_nat q * desz)%nat by (unfold desz; lia). rewrite Nat.div_mul by done.
  unfold desz. lia.
Qed.

(** One [readi] of the scans. *)
Lemma readi_dirent v L o Q E t (ic : list inode) nc me (dp : nat) i (k : nat) :
  ic !! dp = Some i -> dir_wf sb v i -> Z.of_nat (length L) < NBUF -> store g v L [] o t ->
  (k < length (dents v i))%nat ->
  (forall t' bs, store g v L [] o t' -> dents v i !! k = Some (dec_dirent bs) -> Q (DE, bs) (Fs t' sb ic nc me)) ->
  wp (readi dev_read dp (Z.of_nat k * DE) DE) Q E (Fs t sb ic nc me).
Proof.
  intros Hi Hd Hroom Ht Hk HQ. destruct (ndents_count v i Hd) as [_ Hsz]. pose proof Hd as [[F1 F2 F3 F4 F5 F6 F7] _ _].
  pose proof F6 as [[_ Hmax] _]. change (MAXFILE * BSIZE) with 4243456 in Hmax. change DE with 16 in *. unfold desz in *.
  eapply (readi_wp dev_read g sb Hly v L o); [exact Hi|exact F1|exact F3|exact F5|exact F6|exact Hroom|exact Ht|lia|lia| |intros [?|?]; lia].
  intros _ _. cbn zeta. intros t' Ht'. replace (Z.min 16 (i_size i - Z.of_nat k * 16)) with 16 by lia.
  apply HQ; [exact Ht'|]. unfold dents in *. rewrite length_dents_of in Hk. rewrite lookup_dents_of by done.
  rewrite slice_content.
  - do 2 f_equal. unfold desz. f_equal. lia.
  - rewrite length_content in Hk. pose proof (Nat.Div0.mul_div_le (Z.to_nat (i_size i)) desz). unfold desz in *. lia.
Qed.

(** The cache holds only bindings of the directory [ds] for inode [i]. *)
Definition dir_coherent (i : inode) (ds : list dirent) (nc : namecache) : Prop :=
  nc_inv nc /\ forall s c, nc_get nc (i_dev i) (i_inum i) s = Some c -> c <> 0 -> dir_get s ds = Some c.

Lemma dmatch_namecmp name de :
  dmatch (name_of name) de = negb (de_inum de =? 0) && (namecmp name (de_name de) =? 0).
Proof.
  unfold dmatch, namecmp, name_of. f_equal. apply eq_true_iff_eq. rewrite bool_decide_eq_true, Z.eqb_eq, strncmp_zero_iff. naive_solver.
Qed.

(** [dirlookup], up to the final [iget]. *)
Lemma dirlookup_wp v L o Q E t (ic : list inode) nc me (dp : nat) i name c nc1 :
  ic !! dp = Some i -> dir_wf sb v i -> Z.of_nat (length L) < NBUF -> store g v L [] o t ->
  namecache_lookup (i_dev i) (i_inum i) name nc = (c, nc1) ->
  (c <> 0 -> wp (iget (i_dev i) c) (fun ip s' => Q (Some (ip, 0)) s') E (Fs t sb ic nc1 me)) ->
  (c = 0 -> forall t' (k : nat) de, store g v L [] o t' -> dir_find (name_of name) (dents v i) = Some k ->
     dents v i !! k = Some de ->
     wp (iget (i_dev i) (de_inum de)) (fun ip s' => Q (Some (ip, Z.of_nat k * DE)) s') E
        (Fs t' sb ic (namecache_add (i_dev i) (i_inum i) name (de_inum de) nc1) me)) ->
  (c = 0 -> forall t', store g v L [] o t' -> dir_find (name_of name) (dents v i) = None ->
     Q None (Fs t' sb ic nc1 me)) ->
  wp (dirlookup dev_read dp name) Q E (Fs t sb ic nc me).
Proof.
  intros Hi Hd Hroom Ht Hnc Hhit Hfound Hnone. pose proof Hd as [_ Hty _]. unfold dirlookup.
  eapply wp_geti; [exact Hi|]. rewrite Hty. change (negb (T_DIR =? T_DIR)) with false. cbv iota.
  apply wp_bind. unfold ncio at 1, wp at 1. cbn [ncache]. rewrite Hnc. cbn [store_st fsb icache cur].
  unfold truth. destruct (c =? 0) eqn:Ec; b2p; cbn [negb].
  2:{ apply wp_bind. eapply wp_conseq; [by apply Hhit|]. cbv beta. intros ip s' H. by apply wp_ret. }
  destruct (ndents_count v i Hd) as [-> _].
  eapply (wp_for_loop _ (fun k s' => exists t', s' = Fs t' sb ic nc1 me /\ store g v L [] o t' /\
    forall j de, (j < k)%nat -> dents v i !! j = Some de -> dmatch (name_of name) de = false)).
  - exists t. split; [done|]. split; [done|lia].
  - intros k s' Hk (t1 & -> & Ht1 & Hbefore). rewrite Z.add_0_l. apply wp_bind.
    eapply readi_dirent; [exact Hi|exact Hd|exact Hroom|exact Ht1|exact Hk|]. intros t2 bs Ht2 Hde.
    rewrite Z.eqb_refl. cbn [negb]. pose proof (dmatch_namecmp name (dec_dirent bs)) as Hm.
    assert (Hnext : dmatch (name_of name) (dec_dirent bs) = false -> exists t', Fs t2 sb ic nc1 me = Fs t' sb ic nc1 me /\
      store g v L [] o t' /\ forall j de, (j < 1 + k)%nat -> dents v i !! j = Some de -> dmatch (name_of name) de = false).
    { intros Hf. exists t2. split; [done|]. split; [done|]. intros j de Hj Hl.
      destruct (decide (j = k)) as [->|]; [congruence|]. apply (Hbefore j); [lia|done]. }
    destruct (de_inum (dec_dirent bs) =? 0) eqn:E0; [by apply wp_ret, Hnext|].
    destruct (namecmp name (de_name (dec_dirent bs)) =? 0) eqn:E1; [|by apply wp_ret, Hnext].
    apply wp_bind. unfold ncio, wp at 1. cbn [ncache store_st fsb icache cur]. apply wp_bind.
    eapply wp_conseq; [eapply (Hfound Ec t2 k); [exact Ht2| |exact Hde]|].
    + apply find_idx_Some. split; [by exists (dec_dirent bs)|]. exact Hbefore.
    + cbv beta. intros ip s' H. by apply wp_ret.
  - intros s' (t1 & -> & Ht1 & Hall). apply Hnone; [done|done|]. apply find_idx_None. intros j x Hx.
    apply (Hall j); [by eapply lookup_lt_Some|done].
Qed.

Lemma dir_get_find s ds k de :
  dir_find s ds = Some k -> ds !! k = Some de -> dir_get s ds = Some (de_inum de).
Proof. intros Hf Hl. unfold dir_get. rewrite Hf. cbn. by rewrite (nthd_lookup _ _ _ de). Qed.

Lemma lookup_coherent i ds nc name c nc1 :
  dir_coherent i ds nc -> namecache_lookup (i_dev i) (i_inum i) name nc = (c, nc1) ->
  dir_coherent i ds nc1 /\ (c <> 0 -> dir_get (name_of name) ds = Some c).
Proof.
  intros [Hinv Hco] H. apply namecache_lookup_spec in H as (Hc & Hinv' & Hget); [|done]. split.
  - split; [done|]. intros s x Hx. rewrite Hget in Hx. by apply Hco.
  - intros Hne. change (Z.to_nat DIRSIZ) with 14%nat in *. unfold name_of. change (Z.to_nat DIRSIZ) with 14%nat.
    destruct (nc_get nc _ _ _) as [x|] eqn:Ex; cbn in Hc; [subst|done]. by apply (Hco _ _ Ex).
Qed.

Lemma add_coherent i ds nc name inum :
  dir_coherent i ds nc -> dir_get (name_of name) ds = Some inum ->
  dir_coherent i ds (namecache_add (i_dev i) (i_inum i) name inum nc).
Proof.
  intros [Hinv Hco] Hg. destruct (namecache_add_spec (i_dev i) (i_inum i) name inum nc Hinv) as (Hinv' & Hsame & Hother & _).
  split; [done|]. intros s c Hs Hc. destruct (decide (s = name_of name)) as [->|Hne].
  - unfold name_of in *. change (Z.to_nat DIRSIZ) with 14%nat in *. rewrite Hsame in Hs. congruence.
  - destruct (Hother (i_dev i) (i_inum i) s) as [He|He].
    + intros [= Heq]. by apply Hne.
    + rewrite He in Hs. by apply Hco.
    + congruence.
Qed.

(** What [dirlookup] returns for a name bound to [inum]: its slot of the
    inode cache with one more reference, and in [*poff] the offset of the
    entry, or 0 when the name cache answered. *)
Definition looked_up (i : inode) (ds : list dirent) (ic : list inode) nc (name : list Z) (inum : Z)
    (r : option (nat * Z)) (ic' : list inode) : Prop :=
  exists ip (k : nat) x,
    r = Some (ip, if fst (namecache_lookup (i_dev i) (i_inum i) name nc) =? 0 then Z.of_nat k * DE else 0) /\
    dir_find (name_of name) ds = Some k /\ iget_case ROOTDEV inum ic (Some (ip, x)) /\ ic' = <[ip := x]> ic.

(** C27: a directory lookup is the directory scan.  With a name cache that is
    coherent with the directory, [dirlookup] returns the inode of the first
    live entry with the name, from the cache or from the disk, takes one
    reference on its cache slot, and answers "not found" exactly when no live
    entry has the name; the cache stays coherent.  The offset it reports is
    the entry's when the scan found it, and 0 when the name cache did.  The
    only failure is a full inode table. *)
Theorem dirlookup_correct v L o t (ic : list inode) nc me (dp : nat) i name :
  ic !! dp = Some i -> dir_wf sb v i -> Z.of_nat (length L) < NBUF -> store g v L [] o t ->
  dir_coherent i (dents v i) nc ->
  wp (dirlookup dev_read dp name)
     (fun r s' => exists t' ic' nc', s' = Fs t' sb ic' nc' me /\ store g v L [] o t' /\
        dir_coherent i (dents v i) nc' /\
        match dir_get (name_of name) (dents v i) with
        | Some inum => looked_up i (dents v i) ic nc name inum r ic'
        | None => r = None /\ ic' = ic
        end)
     (fun m => m = "iget: no inodes"%string) (Fs t sb ic nc me).
Proof.
  intros Hi Hd Hroom Ht Hco. destruct (namecache_lookup (i_dev i) (i_inum i) name nc) as [c nc1] eqn:Hnc.
  destruct (lookup_coherent _ _ _ _ _ _ Hco Hnc) as [Hco1 Hhit]. pose proof (fw_dev _ _ _ (dw_file _ _ _ Hd)) as Hdev.
  assert (Hget : forall (k : nat) inum t1 nc2, store g v L [] o t1 -> dir_coherent i (dents v i) nc2 ->
    dir_get (name_of name) (dents v i) = Some inum -> dir_find (name_of name) (dents v i) = Some k ->
    wp (iget (i_dev i) inum) (fun ip s' => exists t' ic' nc', s' = Fs t' sb ic' nc' me /\ store g v L [] o t' /\
        dir_coherent i (dents v i) nc' /\
        looked_up i (dents v i) ic nc name inum (Some (ip, if c =? 0 then Z.of_nat k * DE else 0)) ic')
      (fun m => m = "iget: no inodes"%string) (Fs t1 sb ic nc2 me)).
  { intros k inum t1 nc2 Ht1 Hco2 Hg Hk. rewrite Hdev. unfold wp.
    destruct (iget_eval ROOTDEV inum t1 sb ic nc2 me) as (r & Hc & ->). destruct r as [[ip x]|]; [|done].
    exists t1, (<[ip := x]> ic), nc2. split_and!; [done|done|done|]. exists ip, k, x. by rewrite Hnc. }
  eapply dirlookup_wp; [exact Hi|exact Hd|exact Hroom|exact Ht|exact Hnc| | |].
  - intros Hc. rewrite (Hhit Hc). pose proof (Hhit Hc) as Hg. unfold dir_get in Hg. apply fmap_Some in Hg as (k & Hk & _).
    pose proof (Hget k c t nc1 Ht Hco1 (Hhit Hc) Hk) as Hw. by rewrite (proj2 (Z.eqb_neq _ _) Hc) in Hw.
  - intros -> t' k de Ht' Hf Hde. pose proof (dir_get_find _ _ _ _ Hf Hde) as Hg. rewrite Hg.
    apply (Hget k); [done|by apply add_coherent|done|done].
  - intros _ t' Ht' Hf. exists t', ic, nc1. split_and!; [done|done|done|]. unfold dir_get. rewrite Hf. done.
Qed.

(** ** Adding an entry *)

Lemma nblk_dirent (k : nat) : nblk (Z.of_nat k * DE) DE = 1%nat.
Proof.
  unfold nblk. change DE with 16. rewrite decide_True by lia. change BSIZE with (16 * 256).
  rewrite <- !Z.div_div by lia. rewrite Z.div_mul by lia.
  replace ((Z.of_nat k * 16 + 16 - 1) / 16) with (Z.of_nat k) by (apply Z.div_unique with 15; lia). lia.
Qed.

(** The scan of [dirlink] for a free entry. *)
Lemma free_scan_wp v L o Q E t (ic : list inode) nc me (dp : nat) i :
  ic !! dp = Some i -> dir_wf sb v i -> Z.of_nat (length L) < NBUF -> store g v L [] o t ->
  (forall t' e, store g v L [] o t' -> default (Z.of_nat (length (dents v i)) * DE) e = Z.of_nat (free_slot (dents v i)) * DE ->
     Q e (Fs t' sb ic nc me)) ->
  wp (for_loop (length (dents v i)) 0 (fun k =>
        bind (readi dev_read dp (k * DE) DE) (fun '(r, bs) =>
          if negb (r =? DE) then panic "dirlink read"
          else if de_inum (dec_dirent bs) =? 0 then ret (Some (k * DE)) else ret None))) Q E (Fs t sb ic nc me).
Proof.
  intros Hi Hd Hroom Ht HQ.
  eapply (wp_for_loop _ (fun k s' => exists t', s' = Fs t' sb ic nc me /\ store g v L [] o t' /\
    forall j de, (j < k)%nat -> dents v i !! j = Some de -> (de_inum de =? 0) = false)).
  - exists t. split; [done|]. split; [done|lia].
  - intros k s' Hk (t1 & -> & Ht1 & Hbefore). rewrite Z.add_0_l. apply wp_bind.
    eapply readi_dirent; [exact Hi|exact Hd|exact Hroom|exact Ht1|exact Hk|]. intros t2 bs Ht2 Hde.
    rewrite Z.eqb_refl. cbn [negb]. destruct (de_inum (dec_dirent bs) =? 0) eqn:E0; apply wp_ret.
    + apply HQ; [done|]. unfold free_slot. rewrite (proj2 (find_idx_Some _ _ k)); [done|].
      split; [by exists (dec_dirent bs)|]. exact Hbefore.
    + exists t2. split; [done|]. split; [done|]. intros j de Hj Hl.
      destruct (decide (j = k)) as [->|]; [congruence|]. apply (Hbefore j); [lia|done].
  - intros s' (t1 & -> & Ht1 & Hall). apply HQ; [done|]. unfold free_slot. rewrite (proj2 (find_idx_None _ _)); [done|].
    intros j x Hx. apply (Hall j); [by eapply lookup_lt_Some|done].
Qed.

(** The directory after the [writei] of [dirlink]. *)
Lemma dir_wrote v i v' i' (k : nat) de :
  dir_wf sb v i -> (k <= length (dents v i))%nat -> 0 <= de_inum de < 2 ^ 16 -> length (de_name de) = 14%nat ->
  wrote_file sb v i (Z.of_nat k * DE) (enc_dirent de) DE v' i' ->
  dir_wf sb v' i' /\ dents v' i' = put_dent k de (dents v i) /\ i_dev i' = i_dev i /\ i_inum i' = i_inum i.
Proof.
  intros Hd Hk Hi Hn Hw. destruct (ndents_count v i Hd) as [_ Hsz]. pose proof Hd as [Hf Hty Hm].
  pose proof (fw_file _ _ _ Hf) as [[H0 Hmax] _]. pose proof Hw as [Wf _ Wc Ws _ _].
  assert (Hlen : length (content v i) = (desz * length (dents v i))%nat) by (rewrite length_content; unfold desz in *; lia).
  assert (Hc : content v' i' = overwrite (content v i) (Z.of_nat (desz * k)) (enc_dirent de) (Z.of_nat desz)).
  { rewrite Wc. change DE with 16. unfold desz. f_equal. lia. }
  assert (Hs : i_size i' = Z.max (i_size i) (Z.of_nat k * DE + DE)).
  { pose proof (fw_file _ _ _ Wf) as [[? _] _]. apply (f_equal length) in Hc. unfold overwrite in Hc.
    rewrite !length_app, !length_take, length_drop, !length_content, length_enc_dirent in Hc by done.
    change DE with 16. unfold desz in *. lia. }
  split_and!.
  - split; [done|rewrite Ws; exact Hty|]. rewrite Hs. destruct (Z.max_dec (i_size i) (Z.of_nat k * DE + DE)) as [-> | ->]; [done|]. change DE with 16.
    change DIRENTSIZE with 16. replace (Z.of_nat k * 16 + 16) with ((Z.of_nat k + 1) * 16) by lia. by apply Z.mod_mul.
  - unfold dents. rewrite Hc. unfold dents in Hk, Hlen. rewrite length_dents_of in Hk, Hlen. apply dents_overwrite; try done.
    rewrite Hlen. rewrite Nat.mul_comm. apply Nat.Div0.mod_mul.
  - rewrite Ws. done.
  - rewrite Ws. done.
Qed.

Lemma add_coherent_new i i' ds de nc name :
  i_dev i' = i_dev i -> i_inum i' = i_inum i -> dir_coherent i ds nc -> dir_get (name_of name) ds = None ->
  name_of (de_name de) = name_of name -> de_inum de <> 0 ->
  dir_coherent i' (put_dent (free_slot ds) de ds) (namecache_add (i_dev i) (i_inum i) name (de_inum de) nc).
Proof.
  intros E1 E2 [Hinv Hco] Hnone Hname Hi. rewrite <- E1, <- E2. rewrite <- Hname in Hnone.
  apply add_coherent.
  - split; [done|]. rewrite E1, E2. intros s c Hs Hc. rewrite dir_get_put by done.
    pose proof (Hco s c Hs Hc). destruct (decide (s = name_of (de_name de))) as [->|]; congruence.
  - rewrite dir_get_put by done. by rewrite decide_True.
Qed.


Lemma iget_self t nc me (ic : list inode) (dp : nat) i :
  ic_wf ic -> ic !! dp = Some i -> 0 < i_ref i ->
  iget (i_dev i) (i_inum i) (Fs t sb ic nc me) = Ok dp (Fs t sb (<[dp := set_ref (i32 (i_ref i + 1)) i]> ic) nc me).
Proof.
  intros Hic Hi Hr. assert (Hc : cached_for (i_dev i) (i_inum i) i = true) by (by apply cached_for_true).
  destruct (iget_eval (i_dev i) (i_inum i) t sb ic nc me) as (r & Hcase & ->).
  inversion Hcase as [ip x Hx Hcx|ip x Hno|Hno]; subst.
  - apply cached_for_true in Hcx as (H1 & H2 & H3). assert (ip = dp) as -> by (eapply (ic_uniq ic); eauto). congruence.
  - by rewrite (Hno dp i Hi) in Hc.
  - destruct (Hno dp i Hi) as [Hf _]. congruence.
Qed.

Lemma iput_locked_blocks t nc me (ic : list inode) (ip : nat) i :
  ic !! ip = Some i -> truth (sl_locked (i_lock i)) = true -> iput ip (Fs t sb ic nc me) = Blocked "inode".
Proof.
  intros Hi Hl. unfold iput, lock_inode, geti, gets, bind. cbn [icache]. rewrite (nthd_lookup _ _ _ i) by done. unfold acquiresleep.
  by rewrite Hl.
Qed.

(** Linking a name that a directory binds to itself, such as [.], never
    returns: [dirlink] finds the name, and the [iput] of the inode it found
    waits for the sleep lock of the directory, which the caller holds. *)
Theorem dirlink_self_blocks v L t (ic : list inode) nc me (dp : nat) i name inum :
  ic !! dp = Some i -> dir_wf sb v i -> Z.of_nat (length L) < NBUF -> store g v L [] true t ->
  dir_coherent i (dents v i) nc -> dir_get (name_of name) (dents v i) = Some (i_inum i) ->
  ic_wf ic -> 0 < i_ref i -> truth (sl_locked (i_lock i)) = true ->
  dirlink dev_read dev_write dp name inum (Fs t sb ic nc me) = Blocked "inode".
Proof.
  intros Hi Hd Hroom Ht Hco Hg Hic Hr Hl. pose proof (lookup_lt_Some _ _ _ Hi) as Hlt.
  destruct (namecache_lookup (i_dev i) (i_inum i) name nc) as [c nc1] eqn:Hnc.
  destruct (lookup_coherent _ _ _ _ _ _ Hco Hnc) as [_ Hhit].
  assert (Hw : wp (dirlookup dev_read dp name) (fun r s' => exists off t' nc', r = Some (dp, off) /\
    s' = Fs t' sb (<[dp := set_ref (i32 (i_ref i + 1)) i]> ic) nc' me) (fun _ => False) (Fs t sb ic nc me)).
  { assert (Hget : forall (off : Z) t1 nc2, wp (iget (i_dev i) (i_inum i)) (fun ip s' => exists off' t' nc', Some (ip, off) = Some (dp, off') /\
      s' = Fs t' sb (<[dp := set_ref (i32 (i_ref i + 1)) i]> ic) nc' me) (fun _ => False) (Fs t1 sb ic nc2 me)).
    { intros off t1 nc2. eapply wp_eq; [by apply iget_self|]. by exists off, t1, nc2. }
    eapply dirlookup_wp; [exact Hi|exact Hd|exact Hroom|exact Ht|exact Hnc| | |].
    - intros Hc. rewrite (Hhit Hc) in Hg. injection Hg as ->. apply Hget.
    - intros _ t' k de Ht' Hf Hde. rewrite (dir_get_find _ _ _ _ Hf Hde) in Hg. injection Hg as ->. apply Hget.
    - intros _ t' Ht' Hf. unfold dir_get in Hg. by rewrite Hf in Hg. }
  apply wp_total in Hw as (r & s' & Hr' & off & t' & nc' & -> & ->). unfold dirlink, bind at 1. rewrite Hr'.
  unfold bind. by rewrite (iput_locked_blocks _ _ _ _ _ (set_ref (i32 (i_ref i + 1)) i)) by (done || by apply list_lookup_insert_eq).
Qed.
End Dir.
