(* ===== verification/Trunc.v ===== *)
(** Truncation: [itrunc] of fs.c gives back every block of a file. *)
From stdpp Require Import base numbers list strings.
From Stdlib Require Import ZArith Lia.
From S2P Require Import Prelude Params CString Namecache Bio Log Store Fs Balloc Inode Content Writei.

Local Open Scope list_scope.
Local Open Scope Z_scope.

(** The view [v] is [v0] with the blocks [F] freed. *)
Record freed (sb : superblock) (v0 : Z -> block) (F : list Z) (v : Z -> block) : Prop := Freed {
  fr_use : forall b, 0 <= b < sb_size sb -> in_use sb v b = (in_use sb v0 b && bool_decide (b ∉ F))%bool;
  fr_same : forall b, b <> sb_bmapstart sb -> v b = v0 b
}.

(** The block numbers at the first slots of an inode. *)
Definition slots (v : Z -> block) (i : inode) (ks : list nat) : list Z := filter (fun b => b <> 0) (slot v i <$> ks).

Lemma elem_of_slots v i ks b : b ∈ slots v i ks <-> b <> 0 /\ exists k, k ∈ ks /\ slot v i k = b.
Proof. unfold slots. rewrite list_elem_of_filter, list_elem_of_fmap.
  split; [intros [Hb (k & -> & Hk)]; eauto|intros [Hb (k & Hk & <-)]; eauto]. Qed.

Lemma slots_snoc v i ks k :
  slots v i (ks ++ [k]) = slots v i ks ++ (if decide (slot v i k = 0) then [] else [slot v i k]).
Proof.
  unfold slots. rewrite fmap_app, filter_app. f_equal. cbn [fmap list_fmap]. rewrite filter_cons, filter_nil.
  destruct (decide (slot v i k = 0)); [by rewrite decide_False by naive_solver|by rewrite decide_True].
Qed.

Lemma freed_nil sb v : freed sb v [] v.
Proof.
  split; [|done]. intros b _. rewrite bool_decide_eq_true_2 by apply not_elem_of_nil. by rewrite andb_true_r.
Qed.

Lemma freed_ext sb v0 F F' v : (forall b, b ∈ F <-> b ∈ F') -> freed sb v0 F v -> freed sb v0 F' v.
Proof. intros HF [H1 H2]. split; [|done]. intros b Hb. rewrite H1 by done. f_equal. apply bool_decide_ext. by rewrite HF. Qed.

Lemma freed_unmark g sb v0 F v b :
  layout g sb -> (forall b, readable g b -> length (v b) = bsize) -> is_data sb b -> freed sb v0 F v ->
  freed sb v0 (F ++ [b]) (unmark sb b v).
Proof.
  intros Hly Hlen Hb [H1 H2]. pose proof (data_range g sb Hly b Hb) as Hr. split.
  - intros b' Hb'. rewrite (in_use_unmark g sb Hly v Hlen) by lia. rewrite H1 by done. case_decide as Hd.
    + subst. rewrite (bool_decide_eq_false_2 (b ∉ F ++ [b])); [by rewrite andb_false_r|].
      intros Hn. apply Hn, elem_of_app. right. by left.
    + f_equal. apply bool_decide_ext. rewrite elem_of_app, list_elem_of_singleton. tauto.
  - intros b' Hne. unfold unmark. rewrite vset_ne; [by apply H2|]. rewrite (BBLOCK_one g sb Hly) by lia. done.
Qed.

Lemma set_addrs_id i : set_addrs (i_addrs i) i = i.
Proof. by destruct i. Qed.

Section Trunc.
Context {S : Type} `{!BlockStore S}.
Context (g : geo) (sb : superblock) (Hly : layout g sb).
Context (v0 : Z -> block) (i0 : inode) (Hf : file_wf sb v0 i0).
Implicit Types (v : Z -> block) (L : list Z) (t : S).

(** Freeing the block of slot [k], the slots [ks] being freed already. *)
Lemma free_slot_wp v W L H Q E t ic nc me ks k :
  store g v L H true t -> freed sb v0 (slots v0 i0 ks) v -> k ∉ ks -> (forall k', k' ∈ ks -> (k' < nslots)%nat) -> (k < nslots)%nat ->
  slot v0 i0 k <> 0 -> hands_data sb v H -> (length H <= 1)%nat -> fits g W L 0 -> sb_bmapstart sb ∈ W ->
  (forall t' v' L', store g v' L' H true t' -> freed sb v0 (slots v0 i0 (ks ++ [k])) v' -> fits g W L' 0 ->
     Q tt (Fs t' sb ic nc me)) ->
  wp (bfree ROOTDEV (slot v0 i0 k)) Q E (Fs t sb ic nc me).
Proof.
  intros Ht Hfr Hk Hks Hlt Hne HH HH1 Hfit HW HQ. pose proof (fw_wf _ _ _ Hf) as Hwf.
  destruct (iw_data _ _ _ Hwf k Hlt Hne) as [Hd Hu]. pose proof (data_range g sb Hly _ Hd) as Hr.
  assert (Hlen : forall b, readable g b -> length (v b) = bsize) by (intros b; by eapply store_len).
  eapply bfree_wp; [exact Hly|exact Ht|exact Hd| |exact HH|exact HH1|exact Hfit|].
  - rewrite (fr_use _ _ _ _ Hfr) by lia. rewrite Hu. apply bool_decide_eq_true_2. intros Hin.
    apply elem_of_slots in Hin as (_ & k' & Hin & Heq).
    assert (k = k') as -> by (eapply (iw_inj _ _ _ Hwf); auto). done.
  - intros t' Ht'. eapply (HQ t' (unmark sb (slot v0 i0 k) v)); [exact Ht'| |].
    + rewrite slots_snoc, decide_False by done. by apply (freed_unmark g).
    + rewrite (BBLOCK_one g sb Hly) by lia. by apply fits_absorb.
Qed.

Definition zeroed (k : nat) : inode := set_addrs (replicate k 0 ++ drop k (i_addrs i0)) i0.

Lemma zeroed_next k : (k < naddrs)%nat -> length (i_addrs i0) = naddrs ->
  set_addrs (<[k := 0]> (i_addrs (zeroed k))) (zeroed k) = zeroed (1 + k).
Proof.
  intros Hk Hl. unfold zeroed. cbn [i_addrs set_addrs]. unfold set_addrs. cbn. f_equal.
  rewrite insert_app_r_alt by (rewrite length_replicate; lia). rewrite length_replicate, Nat.sub_diag.
  destruct (drop k (i_addrs i0)) as [|x r] eqn:E; [apply (f_equal length) in E; rewrite length_drop in E; cbn in E; lia|].
  replace (drop (Datatypes.S k) (i_addrs i0)) with r by (rewrite <- Nat.add_1_r, <- drop_drop, E; done).
  cbn [insert list_insert]. change (0 :: replicate k 0 ++ r) with (replicate (Datatypes.S k) 0 ++ r). by rewrite replicate_S_end, <- app_assoc.
Qed.

Lemma zeroed_nth k j : (k <= j)%nat -> nthd 0 (i_addrs (zeroed k)) j = nthd 0 (i_addrs i0) j.
Proof.
  intros Hk. unfold zeroed, nthd. cbn [i_addrs set_addrs].
  rewrite lookup_app_r, lookup_drop by (rewrite length_replicate; lia). rewrite length_replicate. do 2 f_equal. lia.
Qed.

Lemma zeroed_0 : zeroed 0 = i0.
Proof. apply set_addrs_id. Qed.

Lemma zeroed_skip k :
  (k < naddrs)%nat -> length (i_addrs i0) = naddrs -> nthd 0 (i_addrs i0) k = 0 -> zeroed (1 + k) = zeroed k.
Proof.
  intros Hk Hl H0. rewrite <- zeroed_next by done. rewrite list_insert_id; [apply set_addrs_id|].
  rewrite lookup_nthd with (d := 0); [by rewrite zeroed_nth, H0|].
  unfold zeroed. cbn [i_addrs set_addrs]. rewrite length_app, length_replicate, length_drop. lia.
Qed.

(** The direct blocks. *)
Lemma trunc_direct_wp W L Q E t (ic : list inode) nc me (ip : nat) :
  store g v0 L [] true t -> ic !! ip = Some i0 -> fits g W L 0 -> sb_bmapstart sb ∈ W ->
  (forall t' v' L', store g v' L' [] true t' -> freed sb v0 (slots v0 i0 (seq 0 nd)) v' -> fits g W L' 0 ->
     Q tt (Fs t' sb (<[ip := zeroed nd]> ic) nc me)) ->
  wp (each (seq 0 (Z.to_nat NDIRECT)) (fun k =>
        bind (geti ip) (fun i => let a := nthd 0 (i_addrs i) k in
          if truth a then bind (bfree (i_dev i) a) (fun _ => updi ip (fun i => set_addrs (<[k := 0]> (i_addrs i)) i))
          else ret tt))) Q E (Fs t sb ic nc me).
Proof.
  intros Ht Hi Hfit HW HQ. pose proof (lookup_lt_Some _ _ _ Hi) as Hlt. pose proof (iw_len _ _ _ (fw_wf _ _ _ Hf)) as Hl.
  eapply wp_conseq.
  - apply (wp_each_seq _ (fun k s' => exists t' v' L', s' = Fs t' sb (<[ip := zeroed k]> ic) nc me /\
      store g v' L' [] true t' /\ freed sb v0 (slots v0 i0 (seq 0 k)) v' /\ fits g W L' 0)).
    + exists t, v0, L. rewrite list_insert_id by (by rewrite zeroed_0). split_and!; [done|done|apply freed_nil|done].
    + intros k s' Hk (t1 & v1 & L1 & -> & Ht1 & Hfr & Hfit1). change (Z.to_nat NDIRECT) with 12%nat in Hk.
      eapply wp_geti; [by apply list_lookup_insert_eq|]. cbn zeta. rewrite zeroed_nth by lia.
      pose proof (slot_direct_0 v0 i0 k ltac:(unfold nd; lia)) as Hs. rewrite <- Hs.
      assert (Hsq : seq 0 (1 + k) = seq 0 k ++ [k]) by (rewrite Nat.add_comm, seq_app; done).
      change (i_dev (zeroed k)) with (i_dev i0). rewrite (fw_dev _ _ _ Hf).
      unfold truth. destruct (slot v0 i0 k =? 0) eqn:E0; b2p; cbn [negb].
      * apply wp_ret. exists t1, v1, L1. split_and!; [|done| |done].
        -- rewrite zeroed_skip; [done|rewrite naddrs_val; lia|done|by rewrite <- Hs].
        -- rewrite Hsq, slots_snoc, decide_True, app_nil_r by done. done.
      * apply wp_bind. eapply (free_slot_wp v1 W L1 [] _ _ t1 _ _ _ (seq 0 k) k); try done.
        -- rewrite elem_of_seq. lia.
        -- intros k'. rewrite elem_of_seq, nslots_val. lia.
        -- rewrite nslots_val. lia.
        -- constructor.
        -- cbn. lia.
        -- intros t2 v2 L2 Ht2 Hfr2 Hfit2. unfold updi. apply wp_modify. unfold set_icache. cbn [icache store_st fsb ncache cur].
           rewrite (alter_insert_inode _ _ _ (zeroed k)) by (by apply list_lookup_insert_eq).
           rewrite list_insert_insert_eq, zeroed_next by (done || rewrite naddrs_val; lia).
           exists t2, v2, L2. rewrite Hsq. split_and!; done.
  - cbv beta. intros [] s' (t' & v' & L' & -> & H1 & H2 & H3). eapply HQ; [exact H1|exact H2|exact H3].
Qed.

(** The entries of the indirect block [bp], which stays held. *)
Lemma trunc_entries_wp v W L Q E t (ic : list inode) nc me (bp : nat) :
  store g v L [Hand bp (ind i0) true] true t -> freed sb v0 (slots v0 i0 (seq 0 nd)) v -> ind i0 <> 0 ->
  fits g W L 0 -> sb_bmapstart sb ∈ W ->
  (forall t' v' L', store g v' L' [Hand bp (ind i0) true] true t' ->
     freed sb v0 (slots v0 i0 (seq 0 nd ++ seq 13 (Z.to_nat NINDIRECT))) v' -> fits g W L' 0 -> Q tt (Fs t' sb ic nc me)) ->
  wp (each (seq 0 (Z.to_nat NINDIRECT)) (fun j =>
        bind (bdat bp) (fun d => let a := rd 4 (4 * j) d in if truth a then bfree ROOTDEV a else ret tt))) Q E (Fs t sb ic nc me).
Proof.
  intros Ht Hfr Hind Hfit HW HQ. pose proof (fw_wf _ _ _ Hf) as Hwf.
  assert (Hsl : slot v0 i0 nd = ind i0) by (by rewrite slot_direct_0).
  destruct (iw_data _ _ _ Hwf nd ltac:(rewrite nslots_val; unfold nd; lia) ltac:(congruence)) as [Hd Hu].
  rewrite Hsl in Hd, Hu. pose proof (data_range g sb Hly _ Hd) as Hr.
  assert (Hnb : ind i0 <> sb_bmapstart sb).
  { rewrite <- (BBLOCK_one g sb Hly (ind i0)) by lia. apply (data_not_bitmap g sb Hly); [done|lia]. }
  eapply wp_conseq.
  - apply (wp_each_seq _ (fun j s' => exists t' v' L', s' = Fs t' sb ic nc me /\
      store g v' L' [Hand bp (ind i0) true] true t' /\ freed sb v0 (slots v0 i0 (seq 0 nd ++ seq 13 j)) v' /\ fits g W L' 0)).
    + exists t, v, L. rewrite app_nil_r. split_and!; done.
    + intros j s' Hj (t1 & v1 & L1 & -> & Ht1 & Hfr1 & Hfit1). change (Z.to_nat NINDIRECT) with (Z.to_nat 1024) in Hj.
      eapply wp_bdat; [exact Ht1|by left|]. cbn zeta. rewrite (fr_same _ _ _ _ Hfr1 _ Hnb).
      assert (Hs : slot v0 i0 (13 + j) = rd 4 (4 * j) (v0 (ind i0))).
      { unfold slot. rewrite decide_False by (unfold nd; lia). rewrite decide_False by done. unfold entry.
        by replace (13 + j - 13)%nat with j by lia. }
      rewrite <- Hs. assert (Hsq : seq 13 (1 + j) = seq 13 j ++ [(13 + j)%nat]) by (rewrite Nat.add_comm, seq_app; done).
      assert (Hks : forall k, k ∈ seq 0 nd ++ seq 13 j -> (k < 13 + j)%nat /\ k <> nd).
      { intros k. rewrite elem_of_app, !elem_of_seq. unfold nd. lia. }
      unfold truth. destruct (slot v0 i0 (13 + j) =? 0) eqn:E0; b2p; cbn [negb].
      * apply wp_ret. exists t1, v1, L1. rewrite Hsq, app_assoc, slots_snoc, decide_True, app_nil_r by done. split_and!; done.
      * eapply (free_slot_wp v1 W L1 _ _ _ t1 _ _ _ (seq 0 nd ++ seq 13 j) (13 + j)); try done.
        -- intros Hin. apply Hks in Hin. lia.
        -- intros k Hin. apply Hks in Hin. rewrite nslots_val. lia.
        -- rewrite nslots_val. lia.
        -- constructor; [|constructor]. change (is_data sb (ind i0) /\ in_use sb v1 (ind i0) = true).
           split; [exact Hd|]. rewrite (fr_use _ _ _ _ Hfr1) by lia. rewrite Hu. apply bool_decide_eq_true_2.
           intros Hin. apply elem_of_slots in Hin as (_ & k & Hin & Heq). destruct (Hks k Hin) as [Hk1 Hk2].
           apply Hk2. eapply (iw_inj _ _ _ Hwf); [rewrite nslots_val; lia|rewrite nslots_val; unfold nd; lia|congruence|congruence].
        -- intros t2 v2 L2 Ht2 Hfr2 Hfit2. exists t2, v2, L2. rewrite Hsq, app_assoc. split_and!; done.
  - cbv beta. intros [] s' (t' & v' & L' & -> & H1 & H2 & H3). eapply HQ; [exact H1|exact H2|exact H3].
Qed.

(** All the slots, in the order [itrunc] frees them. *)
Definition all_slots : list nat := (seq 0 nd ++ seq 13 (Z.to_nat NINDIRECT)) ++ [nd].

Lemma elem_of_all_slots k : k ∈ all_slots <-> (k < nslots)%nat.
Proof.
  unfold all_slots. rewrite !elem_of_app, !elem_of_seq, list_elem_of_singleton, nslots_val. unfold nd.
  change (Z.to_nat NINDIRECT) with (Z.to_nat 1024). lia.
Qed.

(** Without an indirect block there are no further slots. *)
Lemma slots_no_ind b : ind i0 = 0 -> b ∈ slots v0 i0 (seq 0 nd) <-> b ∈ slots v0 i0 all_slots.
Proof.
  intros Hz. rewrite !elem_of_slots. split; intros [Hb (k & Hk & <-)]; (split; [done|]); exists k; (split; [|done]).
  - unfold all_slots. rewrite !elem_of_app. by left; left.
  - apply elem_of_all_slots in Hk. apply elem_of_seq. split; [lia|]. destruct (decide (k < nd)%nat); [lia|]. exfalso. apply Hb.
    unfold slot. case_decide as Hn; [|by rewrite decide_True]. by replace k with nd by lia.
Qed.

Lemma zeroed_all : length (i_addrs i0) = naddrs -> zeroed naddrs = set_addrs (replicate naddrs 0) i0.
Proof. intros Hl. unfold zeroed. by rewrite drop_ge, app_nil_r by lia. Qed.

Lemma itrunc_wp W L n Q E t (ic : list inode) nc me (ip : nat) :
  store g v0 L [] true t -> ic !! ip = Some i0 -> fits g W L n -> sb_bmapstart sb ∈ W -> IBLOCK (i_inum i0) sb ∈ W ->
  (forall t' v' L', store g (put_inode sb (set_size 0 (set_addrs (replicate naddrs 0) i0)) v') L' [] true t' ->
     (forall b, readable g b -> length (v' b) = bsize) -> freed sb v0 (slots v0 i0 all_slots) v' -> fits g W L' 0 ->
     Q tt (Fs t' sb (<[ip := set_size 0 (set_addrs (replicate naddrs 0) i0)]> ic) nc me)) ->
  wp (itrunc ip) Q E (Fs t sb ic nc me).
Proof.
  intros Ht Hi Hfit0 HW HWi HQ. pose proof (lookup_lt_Some _ _ _ Hi) as Hlt. pose proof (fw_wf _ _ _ Hf) as Hwf.
  pose proof (iw_len _ _ _ Hwf) as Hl. assert (Hfit : fits g W L 0) by (eapply fits_le; [exact Hfit0|lia]).
  unfold itrunc. apply wp_bind. eapply trunc_direct_wp; [exact Ht|exact Hi|exact Hfit|exact HW|].
  intros t1 v1 L1 Ht1 Hfr1 Hfit1. eapply wp_geti; [by apply list_lookup_insert_eq|]. cbn zeta.
  change (Z.to_nat NDIRECT) with nd. rewrite zeroed_nth by lia. change (i_dev (zeroed nd)) with (i_dev i0).
  rewrite (fw_dev _ _ _ Hf). change (nthd 0 (i_addrs i0) nd) with (ind i0).
  (* the last steps, from the state with every block freed *)
  assert (Hend : forall t2 v2 L2, store g v2 L2 [] true t2 -> freed sb v0 (slots v0 i0 all_slots) v2 -> fits g W L2 0 ->
    wp (bind (updi ip (set_size 0)) (fun _ => iupdate ip)) Q E (Fs t2 sb (<[ip := zeroed naddrs]> ic) nc me)).
  { intros t2 v2 L2 Ht2 Hfr2 Hfit2. eapply wp_updi; [by apply list_lookup_insert_eq|]. rewrite list_insert_insert_eq, zeroed_all by done.
    destruct Hf as [F1 F2 F3 F4 F5 F6 F7].
    eapply (iupdate_wp g v2 W L2 []); [exact Hly|exact Ht2|by apply list_lookup_insert_eq|exact F1|exact F2| |apply not_elem_of_nil|cbn; lia|exact Hfit2|].
    - destruct F4. split; try done. cbn [i_addrs set_size set_addrs]. by apply Forall_replicate.
    - intros t3 Ht3. eapply HQ; [exact Ht3|intros b; by eapply store_len|exact Hfr2|]. apply fits_absorb; [exact HWi|exact Hfit2]. }
  apply wp_bind. unfold truth. destruct (ind i0 =? 0) eqn:E0; b2p; cbn [negb].
  - apply wp_ret. rewrite <- (zeroed_skip nd ltac:(rewrite naddrs_val; unfold nd; lia) Hl E0).
    eapply Hend; [exact Ht1| |exact Hfit1]. eapply freed_ext; [intros b; by apply slots_no_ind|exact Hfr1].
  - destruct (iw_data _ _ _ Hwf nd ltac:(rewrite nslots_val; unfold nd; lia) ltac:(by rewrite slot_direct_0)) as [Hd _].
    rewrite slot_direct_0 in Hd by lia. change (nthd 0 (i_addrs i0) nd) with (ind i0) in Hd.
    eapply wp_bread; [exact Ht1|apply (data_writable g sb Hly _ Hd)|apply not_elem_of_nil|apply (fits_bufs g sb W L1 [] 0); [exact Hly|exact Hfit1|cbn; lia]|].
    intros bp t2 Hbp Ht2. apply wp_bind. eapply trunc_entries_wp; [exact Ht2|exact Hfr1|exact E0|exact Hfit1|exact HW|].
    intros t3 v3 L3 Ht3 Hfr3 Hfit3. eapply wp_brelse; [exact Ht3|]. intros t4 Ht4. apply wp_bind.
    pose proof (slot_direct_0 v0 i0 nd ltac:(lia)) as Hs. change (nthd 0 (i_addrs i0) nd) with (ind i0) in Hs. rewrite <- Hs.
    eapply (free_slot_wp v3 W L3 [] _ _ t4 _ _ _ (seq 0 nd ++ seq 13 (Z.to_nat NINDIRECT)) nd); [exact Ht4|exact Hfr3| | | |congruence|constructor|cbn; lia|exact Hfit3|exact HW|].
    + rewrite elem_of_app, !elem_of_seq. unfold nd. lia.
    + intros k' Hk'. apply elem_of_all_slots. unfold all_slots. apply elem_of_app. by left.
    + rewrite nslots_val. unfold nd. lia.
    + intros t5 v5 L5 Ht5 Hfr5 Hfit5. unfold updi at 1. apply wp_modify. unfold set_icache. cbn [icache store_st fsb ncache cur].
      rewrite (alter_insert_inode _ _ _ (zeroed nd)) by (by apply list_lookup_insert_eq).
      rewrite list_insert_insert_eq, zeroed_next by (done || (rewrite naddrs_val; unfold nd; lia)).
      eapply Hend; [exact Ht5|exact Hfr5|exact Hfit5].
Qed.
End Trunc.

(** Truncating a file returns all of it.  [itrunc] completes without
    panicking, needing log room for the bitmap and the inode block only; the
    file is then empty in memory and on disk, its bitmap bits - the direct
    blocks, the indirect block and every block it lists - are clear, every
    other bit, every data block and every other inode is as before. *)
Theorem itrunc_frees {S : Type} `{!BlockStore S} g sb v L (t : S) (ic : list inode) nc me (ip : nat) i :
  layout g sb -> store g v L [] true t -> ic !! ip = Some i -> file_wf sb v i ->
  fits g [sb_bmapstart sb; IBLOCK (i_inum i) sb] L 0 ->
  wp (itrunc ip)
     (fun _ s' => exists t' v' L', let i' := set_size 0 (set_addrs (replicate naddrs 0) i) in
        s' = Fs t' sb (<[ip := i']> ic) nc me /\ store g v' L' [] true t' /\
        dinode_at sb v' (i_inum i) = disk_part i' /\
        (forall b, 0 < b < sb_size sb ->
           in_use sb v' b = true <-> in_use sb v b = true /\ forall k, (k < nslots)%nat -> slot v i k <> b) /\
        (forall b, is_data sb b -> v' b = v b) /\
        forall k, 0 <= k < sb_ninodes sb -> k <> i_inum i -> dinode_at sb v' k = dinode_at sb v k)
     (fun _ => False) (Fs t sb ic nc me).
Proof.
  intros Hly Ht Hi Hf Hfit. pose proof Hf as [F1 F2 F3 F4 F5 F6 F7].
  eapply (itrunc_wp g sb Hly v i Hf _ L 0); [exact Ht|exact Hi|exact Hfit|by left|by right; left|].
  intros t' v' L' Ht' Hlen [Hu Hsame] _. set (i' := set_size 0 _) in *.
  assert (Hok : inode_ok i').
  { destruct F4. split; try done. cbn [i' i_addrs set_size set_addrs]. by apply Forall_replicate. }
  assert (Hdi : forall k, 0 <= k < sb_ninodes sb -> dinode_at sb (put_inode sb i' v') k
    = if decide (k = i_inum i) then disk_part i' else dinode_at sb v k).
  { intros k Hk. rewrite (dinode_at_put g sb Hly v' Hlen i' k Hok F2 Hk). change (i_inum i') with (i_inum i).
    destruct (decide (k = i_inum i)); [done|]. unfold dinode_at. rewrite Hsame; [done|]. intros Heq.
    assert (Hz : 0 <= 0 < sb_size sb) by (pose proof (region_sizes g sb Hly); destruct Hly; unfold datastart in *; lia).
    apply (bitmap_not_inode g sb Hly 0 k); [lia|lia|]. rewrite (BBLOCK_one g sb Hly) by lia. congruence. }
  exists t', (put_inode sb i' v'), L'. cbn zeta. fold i'. split_and!; [done|exact Ht'| | | |].
  - rewrite Hdi by done. by rewrite decide_True.
  - intros b Hb. rewrite (in_use_put_inode g sb Hly v' i' b F2) by lia. rewrite Hu by lia.
    rewrite andb_true_iff, bool_decide_eq_true, elem_of_slots. split; intros [H1 H2]; (split; [done|]).
    + intros k Hk Heq. apply H2. split; [lia|]. exists k. split; [by apply elem_of_all_slots|done].
    + intros [_ (k & Hk & Heq)]. apply (H2 k); [by apply elem_of_all_slots|done].
  - intros b Hb. unfold put_inode. rewrite vset_ne by (apply (data_not_inode g sb Hly b); [exact Hb|exact F2]). apply Hsame.
    pose proof (data_range g sb Hly b Hb). rewrite <- (BBLOCK_one g sb Hly b) by lia. by apply (data_not_bitmap g sb Hly); [|lia].
  - intros k Hk Hne. rewrite Hdi by done. by rewrite decide_False.
Qed.
