(* ===== verification/Sample.v ===== *)
(** A small file system image and the state of the kernel after mounting it,
    on which the theorems are exercised: 64 blocks, log at 2, inodes at 32,
    bitmap at 34, data from 35.  Inode 1 is the root directory (data block
    35, entries "." and ".."), inode 2 a file "a" owned by user 1000 whose
    ten bytes are in block 36. *)
From stdpp Require Import base numbers list strings.
From Stdlib Require Import ZArith Lia.
From S2P Require Import Prelude Params CString Namecache Bio Log Store Fs Path Balloc Inode Content Writei Dir Trunc.

Local Open Scope list_scope.
Local Open Scope Z_scope.

Definition smp_sb : superblock := Superblock 64 29 40 LOGSIZE 2 32 34.
Definition smp_geo : geo := Geo 64 2 LOGSIZE.

(** A block that starts with the given bytes. *)
Definition fill (bs : list Z) : block := bs ++ replicate (bsize - length bs) 0.

Lemma length_fill bs : (length bs <= bsize)%nat -> length (fill bs) = bsize.
Proof. intros H. unfold fill. rewrite length_app, length_replicate. lia. Qed.

Definition smp_root : inode := Inode 1 1 1 (Sleeplock 1 1) 1 T_DIR 0 0 1 48 0 0 493 (35 :: replicate 12 0).
Definition smp_file : inode := Inode 1 2 1 (Sleeplock 1 1) 1 T_FILE 0 0 1 10 1000 1000 420 (36 :: replicate 12 0).

Definition smp_superblock : block := fill (concat (le_enc 4 <$> [64; 29; 40; LOGSIZE; 2; 32; 34])).
Definition smp_bitmap : block := fill [255; 255; 255; 255; 31].
Definition smp_inodes : block :=
  enc_dinode (dip_off 2) smp_file (enc_dinode (dip_off 1) smp_root zero_block).
Definition smp_name (s : string) : list Z := strncpy 14 (replicate 14 0) (lit s).
Definition smp_rootdir : block :=
  fill (enc_dirent (Dirent 1 (smp_name ".")) ++ enc_dirent (Dirent 1 (smp_name ".."))
        ++ enc_dirent (Dirent 2 (smp_name "a"))).
Definition smp_data : block := fill [104; 101; 108; 108; 111; 32; 111; 115; 33; 10].

Definition smp_view (b : Z) : block :=
  if b =? 1 then smp_superblock else if b =? 32 then smp_inodes else if b =? 34 then smp_bitmap
  else if b =? 35 then smp_rootdir else if b =? 36 then smp_data else zero_block.
Definition smp_disk : list block := (fun i => smp_view (Z.of_nat i)) <$> seq 0 64.

Definition smp_log : log := Log 2 LOGSIZE 0 0 1 0 (replicate nlogsize 0).
Definition smp_lst : lst := Lst smp_log (binit (bio0 1 smp_disk)).
(** Inside a transaction. *)
Definition smp_op : lst := match begin_op smp_lst with Ok _ s => s | _ => smp_lst end.

Definition smp_v (b : Z) : block := nthd zero_block smp_disk (Z.to_nat b).

(** The inode cache holds the root and the file, both locked by process 1. *)
Definition smp_cred : cred := Cred 1 1000 1000 0.
Definition smp_icache : list inode :=
  smp_root :: smp_file :: replicate (Z.to_nat NINODE - 2) inode0.
Definition smp_fs : fs lst := Fs smp_op smp_sb smp_icache namecache0 smp_cred.

(** ** The image is well formed *)

Lemma smp_v_view b : 0 <= b < 64 -> smp_v b = smp_view b.
Proof.
  intros Hb. unfold smp_v, smp_disk. apply nthd_lookup. rewrite list_lookup_fmap, lookup_seq_lt by lia. simpl. do 2 f_equal. lia.
Qed.

Lemma smp_small bs : (length bs <= 100)%nat -> length (fill bs) = bsize.
Proof. intros H. apply length_fill. rewrite bsize_nat. lia. Qed.

Lemma smp_root_ok : inode_ok smp_root.
Proof. split; try (cbn; lia); try done; cbn [i_addrs smp_root smp_file]. repeat constructor; lia. Qed.

Lemma smp_file_ok : inode_ok smp_file.
Proof. split; try (cbn; lia); try done; cbn [i_addrs smp_root smp_file]. repeat constructor; lia. Qed.

#[local] Hint Resolve smp_root_ok smp_file_ok dip_off_fit length_zero_block : core.

Lemma smp_view_len b : length (smp_view b) = bsize.
Proof.
  assert (length smp_inodes = bsize).
  { unfold smp_inodes. by rewrite !length_enc_dinode by (rewrite ?length_enc_dinode by auto; auto). }
  unfold smp_view. repeat case_match; try done; apply smp_small; vm_compute; lia.
Qed.

Lemma smp_layout : layout smp_geo smp_sb.
Proof. split; vm_compute; split_and?; congruence. Qed.

Lemma nthd_fill bs k : (k < length bs)%nat -> nthd 0 (fill bs) k = nthd 0 bs k.
Proof. intros Hk. unfold fill, nthd. by rewrite lookup_app_l. Qed.

Lemma rd_fill n off bs : (off + n <= length bs)%nat -> rd n off (fill bs) = rd n off bs.
Proof.
  intros H. unfold rd, slice, fill. rewrite drop_app_le, take_app_le; [done|rewrite length_drop; lia|lia].
Qed.

Lemma smp_idle : store smp_geo smp_v [] [] false smp_lst.
Proof.
  apply (boot_store smp_log 1 smp_disk); [split; done| | | |done|done|done].
  - apply Forall_fmap, Forall_forall. intros i _. apply smp_view_len.
  - change (nthd zero_block smp_disk 1) with smp_superblock. unfold smp_superblock.
    split; (rewrite rd_fill; [done|vm_compute; lia]).
  - change (nthd zero_block smp_disk (Z.to_nat (l_start smp_log))) with zero_block. unfold dec_n. by rewrite rd_zero.
Qed.

Lemma smp_store : store smp_geo smp_v [] [] true smp_op.
Proof.
  destruct (log_store_begin _ _ _ smp_idle) as (s' & E & R). unfold smp_op. by rewrite E.
Qed.

Lemma smp_used b : 0 <= b < 37 -> in_use smp_sb smp_v b = true.
Proof.
  intros Hb. unfold in_use. rewrite (BBLOCK_one _ _ smp_layout) by (cbn; lia).
  change (sb_bmapstart smp_sb) with 34. rewrite smp_v_view by lia. change (smp_view 34) with smp_bitmap.
  rewrite Z.mod_small by (change BPB with 32768; lia). unfold bit_in, data_byte, smp_bitmap.
  assert (b / 8 < 5 /\ 0 <= b / 8) by (split; [apply Z.div_lt_upper_bound; lia|apply Z.div_pos; lia]).
  rewrite nthd_fill by (simpl; lia).
  assert (Hall : Forall (fun b => negb (Z.land (nthd 0 [255; 255; 255; 255; 31] (Z.to_nat (b / 8))) (bit_mask b) =? 0) = true) (seqZ 0 37))
    by (repeat constructor).
  rewrite Forall_forall in Hall. apply Hall, elem_of_seqZ. lia.
Qed.

Lemma smp_meta : meta_marked smp_sb smp_v.
Proof. intros b Hb. apply smp_used. change (datastart smp_sb) with 35 in Hb. lia. Qed.

(** An inode with a single direct block. *)
Lemma one_block_slot v i a k : i_addrs i = a :: replicate 12 0 -> slot v i k = if decide (k = 0)%nat then a else 0.
Proof.
  intros Ha. unfold slot, ind. rewrite Ha. change (nthd 0 (a :: replicate 12 0) nd) with 0.
  case_decide as Hk; [|rewrite decide_True by done; rewrite decide_False by lia; done].
  destruct k as [|k]; [done|]. rewrite decide_False by lia. change (nthd 0 (a :: replicate 12 0) (S k)) with (nthd 0 (replicate 12 0) k).
  unfold nthd. rewrite lookup_replicate_2 by (unfold nd in Hk; lia). done.
Qed.

Lemma one_block_wf v i a :
  i_addrs i = a :: replicate 12 0 -> is_data smp_sb a -> in_use smp_sb v a = true -> inode_wf smp_sb v i.
Proof.
  intros Ha Hd Hu. split; [by rewrite Ha| |].
  - intros k _. rewrite (one_block_slot v i a) by done. case_decide; [done|congruence].
  - intros k k' _ _. rewrite !(one_block_slot v i a) by done. repeat case_decide; try congruence; try lia.
Qed.

Lemma one_block_file v i a :
  i_addrs i = a :: replicate 12 0 -> a <> 0 -> 0 <= i_size i <= BSIZE -> file_ok v i.
Proof.
  intros Ha H0 Hs. split; [change (MAXFILE * BSIZE) with 4243456; unfold BSIZE in Hs; lia|]. intros bn H1 H2. unfold addr.
  rewrite (one_block_slot v i a) by done.
  assert (bn = 0) as -> by (unfold BSIZE in *; nia). done.
Qed.

Lemma smp_file_dinode : dinode_at smp_sb smp_v 2 = disk_part smp_file.
Proof.
  unfold dinode_at. change (IBLOCK 2 smp_sb) with 32. rewrite smp_v_view by lia. change (smp_view 32) with smp_inodes.
  apply dec_enc_dinode; auto.
Qed.

Lemma smp_file_wf : file_wf smp_sb smp_v smp_file.
Proof.
  split; [done|cbn; lia|done|exact smp_file_ok| | |exact smp_file_dinode].
  - apply (one_block_wf _ _ 36); [done|done|by apply smp_used].
  - apply (one_block_file _ _ 36); [done|done|cbn; unfold BSIZE; lia].
Qed.

(** ** Witnesses *)

Lemma smp_free : in_use smp_sb smp_v 37 = false.
Proof.
  unfold in_use. rewrite (BBLOCK_one _ _ smp_layout) by (cbn; lia).
  change (sb_bmapstart smp_sb) with 34. rewrite smp_v_view by lia. change (smp_view 34) with smp_bitmap.
  unfold bit_in, data_byte, smp_bitmap. by rewrite nthd_fill by (vm_compute; lia).
Qed.

Lemma smp_fits W n : (length W + n <= 28)%nat -> fits smp_geo W [] n.
Proof.
  intros H. unfold fits, miss. pose proof (length_filter (fun b => b ∉ []) W).
  change (geo_nlog smp_geo) with 30. cbn [length]. lia.
Qed.

Lemma balloc_bfree_witness : wp (balloc ROOTDEV) (fun b _ => b = 37) (fun _ => False) smp_fs.
Proof.
  eapply wp_mono.
  - exact (balloc_bfree smp_geo smp_v [] smp_op smp_sb smp_icache namecache0 smp_cred
             smp_layout smp_store smp_meta (smp_fits [34] 1 ltac:(vm_compute; lia))).
  - cbv beta. intros b s' (Hd & Hfree & Hfirst & _). pose proof smp_free as H37.
    destruct (decide (b < 37)) as [Hb|Hb].
    + rewrite smp_used in Hfree; [done|]. destruct Hd as [Hd _]. change (35 <= b) in Hd. lia.
    + destruct (decide (b = 37)) as [Heq|Hne]; [exact Heq|]. rewrite (Hfirst 37) in H37 by lia. discriminate H37.
  - intros m [_ Hall]. pose proof smp_free as H37. rewrite Hall in H37; [discriminate H37|]. cbn. lia.
Defined.

(** The file's inode written back, then read into a second cache slot. *)
Definition smp_icache2 : list inode :=
  smp_root :: smp_file :: Inode 1 2 1 initsleeplock 0 0 0 0 0 0 0 0 0 (replicate 13 0)
  :: replicate (Z.to_nat NINODE - 3) inode0.

Lemma iupdate_ilock_witness :
  wp (bind (iupdate 1) (fun _ => ilock 2))
     (fun _ s' => exists j, icache s' !! 2%nat = Some j /\ disk_part j = disk_part smp_file)
     (fun _ => False) (Fs smp_op smp_sb smp_icache2 namecache0 smp_cred).
Proof.
  eapply wp_conseq.
  - exact (iupdate_ilock smp_geo smp_v [] smp_op smp_sb smp_icache2 namecache0 smp_cred 1 2 smp_file
             (Inode 1 2 1 initsleeplock 0 0 0 0 0 0 0 0 0 (replicate 13 0))
             smp_layout smp_store (smp_fits [IBLOCK 2 smp_sb] 0 ltac:(vm_compute; lia)) eq_refl eq_refl
             ltac:(cbn; lia) smp_file_ok ltac:(done) eq_refl eq_refl eq_refl eq_refl ltac:(cbn; lia) eq_refl).
  - cbv beta. intros _ s' (t' & v' & L' & j' & -> & _ & Hj & _). exists j'. split; [|exact Hj].
    apply list_lookup_insert_eq. vm_compute. lia.
Defined.

Lemma smp_ic_wf : ic_wf smp_icache.
Proof.
  assert (Hl : forall (j : nat) x, smp_icache !! j = Some x ->
    (j = 0%nat /\ x = smp_root) \/ (j = 1%nat /\ x = smp_file) \/ x = inode0).
  { intros [|[|j]] x Hx; [left|right; left|right; right].
    - by injection Hx.
    - by injection Hx.
    - by apply (lookup_replicate_1 (Z.to_nat NINODE - 2)%nat inode0 x j) in Hx as [-> _]. }
  split; [done| |].
  - intros j x [[_ ->]|[[_ ->]| ->]]%Hl; cbn; lia.
  - intros j k x y [[-> ->]|[[-> ->]| ->]]%Hl [[-> ->]|[[-> ->]| ->]]%Hl; cbn; lia.
Qed.

Lemma iget_unique_witness :
  exists i, iget 1 2 (Fs smp_op smp_sb smp_icache namecache0 smp_cred)
            = Ok 1%nat (Fs smp_op smp_sb (<[1%nat := i]> smp_icache) namecache0 smp_cred) /\ i_ref i = 2.
Proof.
  assert (Hb : forall (j : nat) x, smp_icache !! j = Some x -> i_ref x < 2 ^ 31 - 2).
  { intros [|[|j]] x Hx; [by injection Hx as <-|by injection Hx as <-|].
    apply (lookup_replicate_1 (Z.to_nat NINODE - 2)%nat inode0 x j) in Hx as [-> _]. done. }
  pose proof (iget_unique 1 2 smp_op smp_sb smp_icache namecache0 smp_cred smp_ic_wf Hb) as H.
  destruct (iget 1 2 _) as [ip s'|m|s']; [|destruct H as [_ H]; destruct (H 1%nat smp_file eq_refl) as [H1 _]; discriminate H1|destruct H].
  destruct H as (i & -> & _ & _ & _ & _ & [(x & Hx & Hc & ->)|(_ & _ & H)] & _); [|discriminate (H 1%nat smp_file eq_refl)].
  exists (set_ref (i_ref x + 1) x). destruct ip as [|[|ip]].
  - injection Hx as <-. discriminate Hc.
  - injection Hx as <-. split; reflexivity.
  - apply (lookup_replicate_1 (Z.to_nat NINODE - 2)%nat inode0 x ip) in Hx as [-> _]. discriminate Hc.
Defined.

Lemma writei_readi_witness :
  wp (bind (writei (fun _ => None) 1 [72; 73] 9 2) (fun r => bind (readi (fun _ => None) 1 9 2) (fun x => ret (r, x))))
     (fun x _ => x = (2, (2, [72; 73]))) (fun m => m = "balloc: out of blocks"%string) smp_fs.
Proof.
  eapply wp_conseq.
  - refine (writei_readi (fun _ => None) (fun _ => None) smp_geo smp_sb smp_layout smp_v [] smp_op smp_icache namecache0
             smp_cred 1 smp_file [72; 73] 9 2 [34; 32] smp_store eq_refl smp_file_wf smp_meta _ _ _ _ _).
    + cbn. lia.
    + cbn. lia.
    + vm_compute. discriminate.
    + split; [left|]. left. split; [reflexivity|]. apply smp_fits. vm_compute. lia.
    + right. left.
  - cbv beta. intros x s' [-> _]. reflexivity.
Defined.

Lemma namex_terminates_witness :
  namex_loop (fun _ => None) 1000 0 (lit "/a") false name0 smp_fs
  = namex_loop (fun _ => None) 4 0 (lit "/a") false name0 smp_fs.
Proof. exact (namex_terminates (fun _ => None) 1000 0 (lit "/a") false name0 smp_fs ltac:(vm_compute; lia)). Defined.

(** The root directory. *)
Definition smp_dents : list dirent :=
  [Dirent 1 (smp_name "."); Dirent 1 (smp_name ".."); Dirent 2 (smp_name "a")].

Lemma smp_root_dents : dents smp_v smp_root = smp_dents.
Proof. vm_compute. reflexivity. Qed.

Lemma smp_root_wf : dir_wf smp_sb smp_v smp_root.
Proof.
  split; [|done|done]. split; [done|cbn; lia|done|exact smp_root_ok| | |].
  - apply (one_block_wf _ _ 35); [done|done|by apply smp_used].
  - apply (one_block_file _ _ 35); [done|done|cbn; unfold BSIZE; lia].
  - vm_compute. reflexivity.
Qed.

Lemma smp_nc_inv : nc_inv namecache0.
Proof.
  assert (Hl : forall (i : nat) e, entries namecache0 !! i = Some e -> e = nc_entry0).
  { intros i e He. by apply (lookup_replicate_1 NAMECACHE_SIZE nc_entry0 e i) in He as [-> _]. }
  split; [done|]. split; [done|]. split; [|split; [|done]].
  - apply Forall_lookup. by intros i e ->%Hl.
  - intros i j e e' ->%Hl _ Hv. discriminate Hv.
Qed.

Lemma smp_coherent ds : dir_coherent smp_root ds namecache0.
Proof.
  split; [exact smp_nc_inv|]. intros s c Hs. exfalso. unfold nc_get in Hs. apply fmap_Some in Hs as (k & Hk & _).
  apply find_idx_Some in Hk as [(x & Hx & Hv) _]. apply lookup_replicate_1 in Hx as [-> _]. discriminate Hv.
Qed.

Lemma dirlookup_correct_witness :
  wp (dirlookup (fun _ => None) 0 (lit "a")) (fun r _ => r = Some (1%nat, 32)) (fun m => m = "iget: no inodes"%string) smp_fs.
Proof.
  eapply wp_conseq.
  - exact (dirlookup_correct (fun _ => None) smp_geo smp_sb smp_layout smp_v [] true smp_op smp_icache namecache0 smp_cred
             0 smp_root (lit "a") eq_refl smp_root_wf ltac:(vm_compute; reflexivity) smp_store (smp_coherent _)).
  - cbv beta. rewrite smp_root_dents. intros r s' (t' & ic' & nc' & _ & _ & _ & H).
    change (dir_get (name_of (lit "a")) smp_dents) with (Some 2) in H. destruct H as (ip & k & x & -> & Hk & Hc & _).
    change (dir_find (name_of (lit "a")) smp_dents) with (Some 2%nat) in Hk. injection Hk as <-.
    inversion Hc as [ip0 y Hy Hcy|ip0 y Hno|]; subst; [|discriminate (Hno 1%nat smp_file eq_refl)].
    assert (ip = 1%nat) as ->; [|reflexivity].
    apply cached_for_true in Hcy as (H1 & H2 & H3). eapply (ic_uniq _ smp_ic_wf ip 1 y smp_file); auto; reflexivity.
Defined.


(** [link("x", ".")] in the root directory. *)
Lemma dirlink_self_blocks_witness :
  dirlink (fun _ => None) (fun _ => None) 0 (lit ".") 2 smp_fs = Blocked "inode".
Proof.
  apply (dirlink_self_blocks (fun _ => None) (fun _ => None) smp_geo smp_sb smp_layout smp_v [] smp_op smp_icache namecache0 smp_cred
           0 smp_root (lit ".") 2 eq_refl smp_root_wf ltac:(vm_compute; reflexivity) smp_store (smp_coherent _)).
  - rewrite smp_root_dents. reflexivity.
  - exact smp_ic_wf.
  - vm_compute. reflexivity.
  - reflexivity.
Defined.

Lemma itrunc_frees_witness :
  wp (itrunc 1) (fun _ s' => exists v', icache s' !! 1%nat = Some (set_size 0 (set_addrs (replicate naddrs 0) smp_file)) /\
      in_use smp_sb v' 36 <> true /\ in_use smp_sb v' 35 = true) (fun _ => False) smp_fs.
Proof.
  eapply wp_conseq.
  - exact (itrunc_frees smp_geo smp_sb smp_v [] smp_op smp_icache namecache0 smp_cred 1 smp_file smp_layout smp_store eq_refl
             smp_file_wf (smp_fits [34; IBLOCK 2 smp_sb] 0 ltac:(vm_compute; lia))).
  - cbv beta. intros _ s' (t' & v' & L' & -> & _ & _ & Hu & _). exists v'. split; [reflexivity|]. split.
    + intros H. apply Hu in H as [_ H]; [|cbn; lia]. apply (H 0%nat); [rewrite nslots_val; lia|reflexivity].
    + apply Hu; [cbn; lia|]. split; [by apply smp_used|]. intros k Hk. rewrite (one_block_slot _ _ 36) by done. case_decide; lia.
Defined.
