(* ===== verification/Kalloc.v ===== *)
(** The physical page allocator, kalloc.c.

    Physical memory is a function from page addresses (kernel virtual
    addresses, multiples of [PGSIZE]) to their bytes.  The free list is threaded
    through the free pages themselves, as in the code: [kmem.freelist] is the
    address of the first free page, whose first four bytes hold the address of
    the next.  [kend] is the linker's [end] symbol.  The allocator promises
    its clients a stack of pages ([chain]), and that a page is never handed out
    twice. *)
From stdpp Require Import base numbers list strings relations.
From Stdlib Require Import ZArith Lia.
From S2P Require Import Prelude.

Local Open Scope list_scope.
Local Open Scope Z_scope.

(** ** memlayout.h and mmu.h *)

Definition PGSIZE : Z := 4096.
Definition EXTMEM : Z := 1048576.
Definition PHYSTOP : Z := 234881024.
Definition DEVSPACE : Z := 4261412864.
Definition KERNBASE : Z := 2147483648.
Definition KERNLINK : Z := KERNBASE + EXTMEM.
Definition V2P (a : Z) : Z := u32 (a - KERNBASE).
Definition P2V (a : Z) : Z := u32 (a + KERNBASE).
Definition PGROUNDUP (sz : Z) : Z := Z.land (u32 (sz + PGSIZE - 1)) (u32 (Z.lnot (PGSIZE - 1))).
Definition PGROUNDDOWN (a : Z) : Z := Z.land a (u32 (Z.lnot (PGSIZE - 1))).

Definition pgsize : nat := Z.to_nat PGSIZE.
Definition page : Type := list Z.
Definition fill_page (c : Z) : page := replicate pgsize c.

(** ** State *)

Record kmem := Kmem { pm : Z -> page; freelist : Z; use_lock : Z }.

Definition pset (a : Z) (p : page) (f : Z -> page) : Z -> page :=
  fun b => if decide (b = a) then p else f b.
Definition set_pm (f : Z -> page) (s : kmem) : kmem := Kmem f (freelist s) (use_lock s).
Definition put_page (a : Z) (p : page) (s : kmem) : kmem := set_pm (pset a p (pm s)) s.

(** ** Operations *)

Section Code.
Context (kend : Z).
Local Open Scope kernel_scope.

Definition kfree (v : Z) : M kmem unit :=
  if truth (v mod PGSIZE) || (v <? kend) || (PHYSTOP <=? V2P v) then panic "kfree"
  else
    modify (put_page v (fill_page 1));;
    modify (fun s => put_page v (wr 4 0 (freelist s) (pm s v)) s);;
    modify (fun s => Kmem (pm s) v (use_lock s)).

Definition kalloc : M kmem Z :=
  r ← gets freelist;
  (if truth r then modify (fun s => Kmem (pm s) (rd 4 0 (pm s r)) (use_lock s)) else ret tt);;
  ret r.

(** The pages of [vstart, vend), in the order of the loop. *)
Definition freerange (vstart vend : Z) : M kmem unit :=
  let p := PGROUNDUP vstart in
  each (seq 0 (Z.to_nat ((vend - p) / PGSIZE))) (fun k => kfree (p + Z.of_nat k * PGSIZE)).

Definition kinit1 (vstart vend : Z) : M kmem unit :=
  modify (fun s => Kmem (pm s) (freelist s) 0);;
  freerange vstart vend.
Definition kinit2 (vstart vend : Z) : M kmem unit :=
  freerange vstart vend;;
  modify (fun s => Kmem (pm s) (freelist s) 1).
End Code.

(** ** Rounding *)

Lemma land_mask x : 0 <= x < 2 ^ 32 -> Z.land x (u32 (Z.lnot (PGSIZE - 1))) = x - x mod PGSIZE.
Proof.
  intros Hx. unfold u32. change (2 ^ 32) with (2 ^ 32) in *. rewrite <- (Z.land_ones (Z.lnot _) 32) by lia.
  rewrite Z.land_assoc. change (PGSIZE - 1) with (Z.ones 12). fold (Z.ldiff x (Z.ones 12)).
  change (Z.land x (Z.lnot (Z.ones 12))) with (Z.ldiff x (Z.ones 12)).
  rewrite Z.ldiff_ones_r, Z.land_ones, Z.shiftl_mul_pow2, Z.shiftr_div_pow2 by lia.
  change (2 ^ 12) with PGSIZE. pose proof (Z.div_mod x PGSIZE ltac:(done)). pose proof (Z.mod_pos_bound x PGSIZE ltac:(done)).
  rewrite Z.mod_small; unfold PGSIZE in *; lia.
Qed.

Lemma PGROUNDDOWN_val a : 0 <= a < 2 ^ 32 -> PGROUNDDOWN a = a - a mod PGSIZE.
Proof. apply land_mask. Qed.

Lemma PGROUNDUP_val a :
  0 <= a -> a + PGSIZE - 1 < 2 ^ 32 ->
  PGROUNDUP a mod PGSIZE = 0 /\ a <= PGROUNDUP a < a + PGSIZE.
Proof.
  intros H1 H2. unfold PGROUNDUP. rewrite u32_small by (unfold PGSIZE in *; lia).
  rewrite land_mask by (unfold PGSIZE in *; lia). pose proof (Z.mod_pos_bound (a + PGSIZE - 1) PGSIZE ltac:(done)).
  split; [|unfold PGSIZE in *; lia]. by rewrite Zminus_mod, Zmod_mod, Z.sub_diag.
Qed.

(** ** The stack of free pages *)

(** A page address [kfree] accepts. *)
Definition kpage (kend v : Z) : Prop := v mod PGSIZE = 0 /\ kend <= v /\ V2P v < PHYSTOP.

(** From [r], the links spell out the list [l]. *)
Fixpoint chain (f : Z -> page) (r : Z) (l : list Z) : Prop :=
  match l with
  | [] => r = 0
  | v :: l' => r = v /\ v <> 0 /\ length (f v) = pgsize /\ chain f (rd 4 0 (f v)) l'
  end.

Record free_list (kend : Z) (s : kmem) (l : list Z) : Prop := FreeList {
  fl_chain : chain (pm s) (freelist s) l;
  fl_nodup : NoDup l;
  fl_pages : Forall (fun v => kpage kend v /\ 0 < v < 2 ^ 32) l
}.

Lemma pgsize_nat : pgsize = Z.to_nat 4096.
Proof. done. Qed.
Lemma length_fill_page c : length (fill_page c) = pgsize.
Proof. apply length_replicate. Qed.
#[global] Opaque pgsize fill_page.

Lemma pset_eq a p f : pset a p f a = p.
Proof. unfold pset. by rewrite decide_True. Qed.
Lemma pset_ne a p f b : b <> a -> pset a p f b = f b.
Proof. intros H. unfold pset. by rewrite decide_False. Qed.

(** The links depend on the free pages only. *)
Lemma chain_ext f f' r l : (forall v, v ∈ l -> f' v = f v) -> chain f r l -> chain f' r l.
Proof.
  revert r. induction l as [|v l IH]; intros r H; [done|]. cbn [chain]. intros (-> & H1 & H2 & H3).
  rewrite H by (by left). split_and!; try done. apply IH; [|done]. intros w Hw. apply H. by right.
Qed.

Lemma chain_pset f a p r l : a ∉ l -> chain f r l -> chain (pset a p f) r l.
Proof. intros Ha. apply chain_ext. intros v Hv. apply pset_ne. by intros ->. Qed.

(** Two chains from the same head are the same list. *)
Lemma chain_unique f r l l' : chain f r l -> chain f r l' -> l = l'.
Proof.
  revert r l'. induction l as [|v l IH]; intros r [|v' l'] H H'; cbn [chain] in *; [done| | |].
  - destruct H' as (-> & H' & _). congruence.
  - destruct H as (-> & H & _). congruence.
  - destruct H as (-> & _ & _ & H), H' as (<- & _ & _ & H'). f_equal. by eapply IH.
Qed.

Section Specs.
Context (kend : Z) (Hend : 0 < kend).

Lemma kfree_eval v s :
  kpage kend v -> kfree kend v s = Ok tt (Kmem (pset v (wr 4 0 (freelist s) (fill_page 1)) (pset v (fill_page 1) (pm s))) v (use_lock s)).
Proof.
  intros (H1 & H2 & H3). unfold kfree, truth. rewrite H1, Z.eqb_refl. cbn [negb orb].
  rewrite (proj2 (Z.ltb_ge _ _) H2), (proj2 (Z.leb_gt _ _) H3). unfold bind, modify, put_page, set_pm. cbn.
  by rewrite pset_eq.
Qed.

(** Freeing pushes. *)
Lemma kfree_spec v s l :
  free_list kend s l -> kpage kend v -> v < 2 ^ 32 -> v ∉ l ->
  exists s', kfree kend v s = Ok tt s' /\ free_list kend s' (v :: l) /\ use_lock s' = use_lock s /\
    forall a, a <> v -> pm s' a = pm s a.
Proof.
  intros [Hc Hn Hp] Hv Hmax Hl. rewrite kfree_eval by done. eexists. split; [done|].
  assert (Hpos : 0 < v) by (destruct Hv; lia).
  assert (Hfl : 0 <= freelist s < 2 ^ 32).
  { destruct l as [|w l]; cbn in Hc; [lia|]. destruct Hc as (-> & _). apply Forall_cons in Hp as [[_ ?] _]. lia. }
  split_and!; [|done|].
  - split; cbn [pm freelist]; [|by constructor|by constructor].
    cbn [chain]. rewrite pset_eq. split_and!; [done|lia| |].
    + rewrite length_wr, length_fill_page; [done|]. rewrite length_fill_page, pgsize_nat. lia.
    + rewrite rd_wr_same by (rewrite length_fill_page, pgsize_nat; lia). rewrite Z.mod_small by (cbn; lia).
      by apply chain_pset, chain_pset.
  - intros a Ha. cbn [pm]. by rewrite !pset_ne.
Qed.

(** Allocating pops, and returns 0 exactly when the stack is empty. *)
Lemma kalloc_spec s l :
  free_list kend s l ->
  match l with
  | [] => kalloc s = Ok 0 s
  | v :: l' => exists s', kalloc s = Ok v s' /\ free_list kend s' l' /\ pm s' = pm s /\ use_lock s' = use_lock s
  end.
Proof.
  intros [Hc Hn Hp]. unfold kalloc, bind, gets, ret, modify. destruct l as [|v l']; cbn [chain] in Hc.
  - rewrite Hc. cbn. done.
  - destruct Hc as (-> & H0 & _ & Hc). unfold truth. rewrite (proj2 (Z.eqb_neq _ _) H0). cbn [negb].
    eexists. split; [done|]. split; [|done]. apply NoDup_cons in Hn as [_ Hn]. apply Forall_cons in Hp as [_ Hp].
    split; [exact Hc|exact Hn|exact Hp].
Qed.

(** What [kalloc] returned can be any page; a dangling write would be to a
    free page. *)
Inductive kstep : kmem * list Z -> kmem * list Z -> Prop :=
| KAlloc s s' v A : kalloc s = Ok v s' -> kstep (s, A) (s', if truth v then v :: A else A)
| KFree s s' v A : v ∈ A -> kfree kend v s = Ok tt s' -> kstep (s, A) (s', filter (fun w => w <> v) A)
| KWrite s v p A : v ∈ A -> length p = pgsize -> kstep (s, A) (put_page v p s, A).

(** The allocator's invariant: free and allocated pages together are
    pairwise distinct. *)
Definition kinv (all : list Z) (x : kmem * list Z) : Prop :=
  exists l, free_list kend x.1 l /\ NoDup (l ++ x.2) /\ (l ++ x.2) ≡ₚ all.

Lemma kinv_step all x y : Forall (fun v => kpage kend v /\ 0 < v < 2 ^ 32) all -> kinv all x -> kstep x y -> kinv all y.
Proof.
  intros Hall (l & Hfl & Hn & Hp) Hs. destruct Hs as [s s' v A Ha|s s' v A Hv Hf|s v p A Hv Hlen]; cbn [fst snd] in *.
  - pose proof (kalloc_spec s l Hfl) as Hk. destruct l as [|w l'].
    + rewrite Hk in Ha. injection Ha as <- <-. exists []. split_and!; done.
    + destruct Hk as (s1 & Hk & Hfl' & _). rewrite Hk in Ha. injection Ha as <- <-.
      assert (w <> 0) by (destruct Hfl as [_ _ Hpp]; apply Forall_cons in Hpp as [[_ ?] _]; lia).
      unfold truth. rewrite (proj2 (Z.eqb_neq _ _)) by done. cbn [negb].
      assert (Hperm : l' ++ w :: A ≡ₚ (w :: l') ++ A) by (symmetry; apply Permutation_middle).
      exists l'. split_and!; [done|by rewrite Hperm|by rewrite Hperm].
  - assert (Hvl : v ∉ l) by (intros Hin; apply NoDup_app in Hn as (_ & Hd & _); by apply (Hd v)).
    assert (Hkp : kpage kend v /\ 0 < v < 2 ^ 32).
    { rewrite Forall_forall in Hall. apply Hall. rewrite <- Hp. apply elem_of_app. by right. }
    destruct (kfree_spec v s l Hfl (proj1 Hkp) ltac:(lia) Hvl) as (s1 & Hk & Hfl' & _). rewrite Hk in Hf. injection Hf as <-.
    assert (Hperm : v :: filter (fun w => w <> v) A ≡ₚ A).
    { apply NoDup_app in Hn as (_ & _ & HnA). apply NoDup_Permutation; [|done|].
      - constructor; [|by apply NoDup_filter]. rewrite list_elem_of_filter. tauto.
      - intros w. rewrite elem_of_cons, list_elem_of_filter. destruct (decide (w = v)) as [->|]; tauto. }
    assert (Hperm2 : (v :: l) ++ filter (fun w => w <> v) A ≡ₚ l ++ A).
    { cbn [app]. rewrite Permutation_middle. by rewrite Hperm. }
    exists (v :: l). split_and!; [done|by rewrite Hperm2|by rewrite Hperm2].
  - assert (Hvl : v ∉ l) by (intros Hin; apply NoDup_app in Hn as (_ & Hd & _); by apply (Hd v)).
    exists l. split_and!; [|done|done]. destruct Hfl as [H1 H2 H3]. split; [by apply chain_pset|done|done].
Qed.

Lemma kinv_steps all x y :
  Forall (fun v => kpage kend v /\ 0 < v < 2 ^ 32) all -> kinv all x -> rtc kstep x y -> kinv all y.
Proof. intros Hall Hx Hs. induction Hs as [|x y z H Hs IH]; [done|]. apply IH. by eapply kinv_step. Qed.

(** The pages of a range, as [freerange] visits them. *)
Definition range_pages (vstart vend : Z) : list Z :=
  (fun k : nat => PGROUNDUP vstart + Z.of_nat k * PGSIZE) <$> seq 0 (Z.to_nat ((vend - PGROUNDUP vstart) / PGSIZE)).

Context (vstart vend : Z) (H1 : kend <= vstart) (H2 : KERNBASE <= vstart <= vend) (H3 : vend <= KERNBASE + PHYSTOP).

Lemma range_round : PGROUNDUP vstart mod PGSIZE = 0 /\ vstart <= PGROUNDUP vstart < vstart + PGSIZE.
Proof. apply PGROUNDUP_val; unfold KERNBASE, PHYSTOP, PGSIZE in *; lia. Qed.

Lemma range_pages_ok : Forall (fun v => kpage kend v /\ 0 < v < 2 ^ 32) (range_pages vstart vend).
Proof.
  apply Forall_fmap, Forall_forall. intros k Hk. apply elem_of_seq in Hk. cbn [compose]. destruct range_round as [Hm Hr].
  set (p := PGROUNDUP vstart) in *. pose proof (Z.mul_div_le (vend - p) PGSIZE ltac:(done)).
  assert (Hb : p + Z.of_nat k * PGSIZE < vend) by (unfold PGSIZE in *; lia).
  assert (Hlo : vstart <= p + Z.of_nat k * PGSIZE) by (unfold PGSIZE in *; lia).
  unfold KERNBASE, PHYSTOP in *. split; [|lia]. split_and!.
  - by rewrite Z_mod_plus_full.
  - lia.
  - unfold V2P, KERNBASE, PHYSTOP. rewrite u32_small; lia.
Qed.

Lemma range_pages_nodup : NoDup (range_pages vstart vend).
Proof.
  unfold range_pages. apply (NoDup_fmap_2_strong _); [|apply NoDup_seq]. intros a b _ _ Hab. unfold PGSIZE in Hab. lia.
Qed.

(** [freerange] puts every page of the range on the list, once. *)
Lemma freerange_spec s :
  freelist s = 0 ->
  wp (freerange kend vstart vend) (fun _ s' => free_list kend s' (reverse (range_pages vstart vend)) /\ use_lock s' = use_lock s)
     (fun _ => False) s.
Proof.
  intros Hz. unfold freerange. set (n := Z.to_nat _). set (p := PGROUNDUP vstart).
  assert (Hpg : forall k, (k < n)%nat -> kpage kend (p + Z.of_nat k * PGSIZE) /\ 0 < p + Z.of_nat k * PGSIZE < 2 ^ 32).
  { intros k Hk. pose proof range_pages_ok as Hall. rewrite Forall_forall in Hall. apply Hall.
    apply list_elem_of_fmap. exists k. split; [done|]. apply elem_of_seq. unfold n, p in Hk. lia. }
  eapply wp_conseq.
  - apply (wp_each_seq _ (fun k s' => free_list kend s' (reverse ((fun k : nat => p + Z.of_nat k * PGSIZE) <$> seq 0 k)) /\ use_lock s' = use_lock s)).
    + split; [|done]. split; [exact Hz|constructor|constructor].
    + intros k s' Hk [Hfl Hu]. destruct (Hpg k Hk) as [Hp1 Hp2].
      destruct (kfree_spec _ s' _ Hfl Hp1 ltac:(lia)) as (s2 & E & Hfl' & Hu' & _).
      { rewrite elem_of_reverse, list_elem_of_fmap. intros (j & Hj & Hin). apply elem_of_seq in Hin. unfold PGSIZE in Hj. lia. }
      eapply wp_eq; [exact E|]. split; [|congruence]. rewrite Nat.add_comm, seq_app, fmap_app, reverse_app. exact Hfl'.
  - cbv beta. intros _ s' H. exact H.
Qed.
End Specs.


(** Two pages at the bottom of the kernel's memory, one of them handed out. *)
Definition smp_kend : Z := 2148532224.
Definition smp_kmem0 : kmem := Kmem (fun _ => fill_page 0) 0 0.

Definition smp_kmem1 : kmem :=
  match kinit1 smp_kend smp_kend (smp_kend + 8192) smp_kmem0 with Ok _ s => s | _ => smp_kmem0 end.
Definition smp_kmem2 : kmem := match kalloc smp_kmem1 with Ok _ s => s | _ => smp_kmem1 end.

