(* ===== verification/Vm.v ===== *)
(** Page tables and user memory, vm.c.

    A page directory or page table is a page of 1024 little-endian words in
    the physical memory of [Kalloc.v]; a [pte_t *] is the kernel address of a
    word.  [kend] and [kdata] are the linker's [end] and [data] symbols.  The
    hardware side (segment descriptors, cr3, the TSS) is not modelled. *)
From stdpp Require Import base numbers list strings.
From Stdlib Require Import ZArith Lia.
From S2P Require Import Prelude Kalloc.

Local Open Scope list_scope.
Local Open Scope Z_scope.

(** ** mmu.h *)

Definition PDXSHIFT : Z := 22.
Definition PTXSHIFT : Z := 12.
Definition NPDENTRIES : Z := 1024.
Definition PTE_P : Z := 1.
Definition PTE_W : Z := 2.
Definition PTE_U : Z := 4.
Definition PDX (va : Z) : Z := Z.land (Z.shiftr va PDXSHIFT) 1023.
Definition PTX (va : Z) : Z := Z.land (Z.shiftr va PTXSHIFT) 1023.
Definition PGADDR (d t o : Z) : Z := u32 (Z.lor (Z.lor (Z.shiftl d PDXSHIFT) (Z.shiftl t PTXSHIFT)) o).
Definition PTE_ADDR (pte : Z) : Z := Z.land pte (u32 (Z.lnot 4095)).
Definition PTE_FLAGS (pte : Z) : Z := Z.land pte 4095.
Definition has (pte flag : Z) : bool := truth (Z.land pte flag).

(** ** Memory accesses *)

Definition pg (a : Z) : Z := a - a mod PGSIZE.
Definition ofs (a : Z) : nat := Z.to_nat (a mod PGSIZE).
Definition load (s : kmem) (a : Z) : Z := rd 4 (ofs a) (pm s (pg a)).
Definition ld32 (a : Z) : M kmem Z := gets (fun s => load s a).
Definition st32 (a v : Z) : M kmem unit := modify (fun s => put_page (pg a) (wr 4 (ofs a) v (pm s (pg a))) s).
(** [memset(page, 0, PGSIZE)] and [memmove] into a page. *)
Definition zero_page (a : Z) : M kmem unit := modify (put_page a (fill_page 0)).
Definition copy_in (a : Z) (off : nat) (bs : list Z) : M kmem unit :=
  modify (fun s => put_page a (splice off bs (pm s a)) s).

Section Code.
Context (kend kdata : Z).
Local Open Scope kernel_scope.

Definition walkpgdir (pgdir va : Z) (alloc : bool) : M kmem Z :=
  let pde := pgdir + 4 * PDX va in
  e ← ld32 pde;
  if has e PTE_P then ret (P2V (PTE_ADDR e) + 4 * PTX va)
  else if negb alloc then ret 0
  else
    pgtab ← kalloc;
    if pgtab =? 0 then ret 0
    else
      zero_page pgtab;;
      st32 pde (Z.lor (Z.lor (Z.lor (V2P pgtab) PTE_P) PTE_W) PTE_U);;
      ret (pgtab + 4 * PTX va).

(** The loop of [mappages]; it leaves at [a == last]. *)
Fixpoint mappages_loop (fuel : nat) (pgdir a last pa perm : Z) : M kmem Z :=
  match fuel with
  | O => panic "undefined: mappages fuel"
  | S fuel' =>
      pte ← walkpgdir pgdir a true;
      if pte =? 0 then ret (-1)
      else
        e ← ld32 pte;
        if has e PTE_P then panic "remap"
        else
          st32 pte (Z.lor (Z.lor pa perm) PTE_P);;
          if a =? last then ret 0
          else mappages_loop fuel' pgdir (u32 (a + PGSIZE)) last (u32 (pa + PGSIZE)) perm
  end.
Definition mappages (pgdir va size pa perm : Z) : M kmem Z :=
  let a := PGROUNDDOWN va in
  let last := PGROUNDDOWN (u32 (va + size - 1)) in
  mappages_loop (S (Z.to_nat (u32 (last - a) / PGSIZE))) pgdir a last pa perm.

Record kmap_entry := Kmap { k_virt : Z; k_start : Z; k_end : Z; k_perm : Z }.
Definition kmap : list kmap_entry :=
  [Kmap KERNBASE 0 EXTMEM PTE_W; Kmap KERNLINK (V2P KERNLINK) (V2P kdata) 0;
   Kmap kdata (V2P kdata) PHYSTOP PTE_W; Kmap DEVSPACE DEVSPACE 0 PTE_W].

(** The loop of [deallocuvm]: when a page table is missing, [a] jumps to the
    end of its 4 MB. *)
Fixpoint deallocuvm_loop (fuel : nat) (pgdir a oldsz : Z) : M kmem unit :=
  match fuel with
  | O => ret tt
  | S fuel' =>
      if a <? oldsz then
        pte ← walkpgdir pgdir a false;
        if pte =? 0 then deallocuvm_loop fuel' pgdir (u32 (PGADDR (PDX a + 1) 0 0 - PGSIZE + PGSIZE)) oldsz
        else
          e ← ld32 pte;
          (if has e PTE_P then
             let pa := PTE_ADDR e in
             if pa =? 0 then panic "kfree"
             else kfree kend (P2V pa);; st32 pte 0
           else ret tt);;
          deallocuvm_loop fuel' pgdir (u32 (a + PGSIZE)) oldsz
      else ret tt
  end.
Definition deallocuvm (pgdir oldsz newsz : Z) : M kmem Z :=
  if oldsz <=? newsz then ret oldsz
  else
    let a := PGROUNDUP newsz in
    deallocuvm_loop (Z.to_nat (oldsz / PGSIZE + 1)) pgdir a oldsz;;
    ret newsz.

Definition freevm (pgdir : Z) : M kmem unit :=
  if pgdir =? 0 then panic "freevm: no pgdir"
  else
    deallocuvm pgdir KERNBASE 0;;
    each (seq 0 (Z.to_nat NPDENTRIES)) (fun i =>
      e ← ld32 (pgdir + 4 * Z.of_nat i);
      if has e PTE_P then kfree kend (P2V (PTE_ADDR e)) else ret tt);;
    kfree kend pgdir.

Fixpoint map_all (pgdir : Z) (ks : list kmap_entry) : M kmem Z :=
  match ks with
  | [] => ret pgdir
  | k :: ks' =>
      r ← mappages pgdir (k_virt k) (u32 (k_end k - k_start k)) (k_start k) (k_perm k);
      if r <? 0 then freevm pgdir;; ret 0 else map_all pgdir ks'
  end.
Definition setupkvm : M kmem Z :=
  pgdir ← kalloc;
  if pgdir =? 0 then ret 0
  else
    zero_page pgdir;;
    if DEVSPACE <? P2V PHYSTOP then panic "PHYSTOP too high"
    else map_all pgdir kmap.

(** A null [mem] is not checked: the model stops where the code would write
    through it. *)
Definition inituvm (pgdir : Z) (init : list Z) (sz : Z) : M kmem unit :=
  if PGSIZE <=? sz then panic "inituvm: more than a page"
  else
    mem ← kalloc;
    if mem =? 0 then panic "undefined: inituvm out of memory"
    else
      zero_page mem;;
      mappages pgdir 0 PGSIZE (V2P mem) (Z.lor PTE_W PTE_U);;
      copy_in mem 0 (take (Z.to_nat sz) init).

Definition allocuvm (pgdir oldsz newsz : Z) : M kmem Z :=
  if KERNBASE <=? newsz then ret 0
  else if newsz <? oldsz then ret oldsz
  else
    let a0 := PGROUNDUP oldsz in
    r ← for_loop (Z.to_nat ((newsz - a0 + PGSIZE - 1) / PGSIZE)) 0 (fun k =>
      let a := a0 + k * PGSIZE in
      mem ← kalloc;
      if mem =? 0 then deallocuvm pgdir newsz oldsz;; ret (Some 0)
      else
        zero_page mem;;
        r ← mappages pgdir a PGSIZE (V2P mem) (Z.lor PTE_W PTE_U);
        if r <? 0 then deallocuvm pgdir newsz oldsz;; kfree kend mem;; ret (Some 0)
        else ret None);
    ret (default newsz r).

Definition clearpteu (pgdir uva : Z) : M kmem unit :=
  pte ← walkpgdir pgdir uva false;
  if pte =? 0 then panic "clearpteu"
  else e ← ld32 pte; st32 pte (Z.land e (u32 (Z.lnot PTE_U))).

Definition copyuvm (pgdir sz : Z) : M kmem Z :=
  d ← setupkvm;
  if d =? 0 then ret 0
  else
    r ← for_loop (Z.to_nat ((sz + PGSIZE - 1) / PGSIZE)) 0 (fun k =>
      let i := k * PGSIZE in
      pte ← walkpgdir pgdir i false;
      if pte =? 0 then panic "copyuvm: pte should exist"
      else
        e ← ld32 pte;
        if negb (has e PTE_P) then panic "copyuvm: page not present"
        else
          let pa := PTE_ADDR e in
          let flags := PTE_FLAGS e in
          mem ← kalloc;
          if mem =? 0 then freevm d;; ret (Some 0)
          else
            src ← gets (fun s => pm s (P2V pa));
            copy_in mem 0 src;;
            r ← mappages d i PGSIZE (V2P mem) flags;
            if r <? 0 then kfree kend mem;; freevm d;; ret (Some 0) else ret None);
    ret (default d r).

(** [uva2ka] reads [*pte] without testing [pte] for 0. *)
Definition uva2ka (pgdir uva : Z) : M kmem Z :=
  pte ← walkpgdir pgdir uva false;
  if pte =? 0 then panic "undefined: null pte"
  else
    e ← ld32 pte;
    if negb (has e PTE_P) then ret 0
    else if negb (has e PTE_U) then ret 0
    else ret (P2V (PTE_ADDR e)).

Fixpoint copyout_loop (fuel : nat) (pgdir va : Z) (buf : list Z) (len : Z) : M kmem Z :=
  match fuel with
  | O => ret 0
  | S fuel' =>
      if 0 <? len then
        let va0 := PGROUNDDOWN va in
        pa0 ← uva2ka pgdir va0;
        if pa0 =? 0 then ret (-1)
        else
          let n := Z.min (PGSIZE - (va - va0)) len in
          copy_in pa0 (Z.to_nat (va - va0)) (take (Z.to_nat n) buf);;
          copyout_loop fuel' pgdir (u32 (va0 + PGSIZE)) (drop (Z.to_nat n) buf) (len - n)
      else ret 0
  end.
Definition copyout (pgdir va : Z) (p : list Z) (len : Z) : M kmem Z :=
  copyout_loop (Z.to_nat len) pgdir va p len.

(** [loaduvm] reads the file while it fills memory: it runs in any state that
    holds the memory, [km] lifting memory operations to it; [readi off n]
    is the inode's [readi]. *)
Definition loaduvm {T} (km : forall A, M kmem A -> M T A) (readi : Z -> Z -> M T (Z * list Z))
    (pgdir addr offset sz : Z) : M T Z :=
  if truth (addr mod PGSIZE) then panic "loaduvm: addr must be page aligned"
  else
    r ← for_loop (Z.to_nat ((sz + PGSIZE - 1) / PGSIZE)) 0 (fun k =>
      let i := k * PGSIZE in
      pte ← km _ (walkpgdir pgdir (u32 (addr + i)) false);
      if pte =? 0 then panic "loaduvm: address should exist"
      else
        e ← km _ (ld32 pte);
        let pa := PTE_ADDR e in
        let n := if sz - i <? PGSIZE then sz - i else PGSIZE in
        '(r, bs) ← readi (u32 (offset + i)) n;
        km _ (copy_in (P2V pa) 0 bs);;
        if negb (r =? n) then ret (Some (-1)) else ret None);
    ret (default 0 r).
End Code.
