(* ===== verification/Walk.v ===== *)
(** Page-table walks: what [walkpgdir] and [mappages] of vm.c do to the
    translation of addresses.

    [ent s pgdir va] is the page-table entry of [va], 0 when it has none.
    [vm_wf] says that the pages of a page table are allocated, and its own. *)
From stdpp Require Import base numbers list strings.
From Stdlib Require Import ZArith Lia.
From S2P Require Import Prelude Kalloc Vm.

Local Open Scope list_scope.
Local Open Scope Z_scope.

(** ** Entries as numbers *)

Lemma lor_low q f : 0 <= f < 4096 -> Z.lor (q * 4096) f = q * 4096 + f.
Proof.
  intros Hf. rewrite <- (Z.add_lor_land (q * 4096) f). enough (Z.land (q * 4096) f = 0) by lia.
  apply Z.bits_inj'. intros n Hn. rewrite Z.land_spec, Z.bits_0. change 4096 with (2 ^ 12) in *.
  destruct (decide (n < 12)).
  - by rewrite Z.mul_pow2_bits_low.
  - rewrite <- (Z.mod_small f (2 ^ 12)) by lia. rewrite Z.mod_pow2_bits_high by lia. apply andb_false_r.
Qed.

Lemma PTE_ADDR_val e : 0 <= e < 2 ^ 32 -> PTE_ADDR e = e - e mod PGSIZE.
Proof. apply land_mask. Qed.
Lemma PTE_FLAGS_val e : PTE_FLAGS e = e mod PGSIZE.
Proof. unfold PTE_FLAGS. change 4095 with (Z.ones 12). by rewrite Z.land_ones by lia. Qed.

(** The entry built from a page address and flags. *)
Lemma mk_pte pa f :
  0 <= pa < 2 ^ 32 -> pa mod PGSIZE = 0 -> 0 <= f < PGSIZE ->
  let e := Z.lor pa f in 0 <= e < 2 ^ 32 /\ PTE_ADDR e = pa /\ PTE_FLAGS e = f.
Proof.
  intros Hpa Hm Hf. cbn zeta. pose proof (Z.div_mod pa PGSIZE ltac:(done)) as Hd. rewrite Hm, Z.add_0_r in Hd.
  set (q := pa / PGSIZE) in *. assert (He : Z.lor pa f = q * 4096 + f) by (rewrite Hd, Z.mul_comm; by apply lor_low).
  rewrite He. unfold PGSIZE in *.
  assert (Hr : 0 <= q * 4096 + f < 2 ^ 32).
  { split; [lia|]. assert (q < 2 ^ 20) by lia. lia. }
  split; [exact Hr|]. rewrite PTE_ADDR_val by done. rewrite PTE_FLAGS_val. unfold PGSIZE.
  rewrite Z.add_comm, Z_mod_plus_full, Z.mod_small by lia. lia.
Qed.

Lemma lor_range a b n : 0 <= n -> 0 <= a < 2 ^ n -> 0 <= b < 2 ^ n -> 0 <= Z.lor a b < 2 ^ n.
Proof.
  intros Hn Ha Hb. split; [apply Z.lor_nonneg; lia|].
  destruct (decide (Z.lor a b = 0)) as [->|Hne]; [lia|]. apply Z.log2_lt_pow2; [pose proof (proj2 (Z.lor_nonneg a b)); lia|].
  rewrite Z.log2_lor by lia.
  assert (Hl : forall x, 0 <= x < 2 ^ n -> x <> 0 -> Z.log2 x < n) by (intros x Hx Hx0; apply Z.log2_lt_pow2; lia).
  destruct (decide (a = 0)) as [->|Ha0], (decide (b = 0)) as [->|Hb0].
  - done.
  - rewrite Z.max_r by (rewrite Z.log2_nonpos by lia; apply Z.log2_nonneg). by apply Hl.
  - rewrite Z.max_l by (rewrite (Z.log2_nonpos 0) by lia; apply Z.log2_nonneg). by apply Hl.
  - apply Z.max_lub_lt; by apply Hl.
Qed.

Lemma has_lor_P e : 0 <= e -> has (Z.lor e PTE_P) PTE_P = true.
Proof.
  intros He. unfold has, truth, PTE_P. rewrite Z.land_lor_distr_l. rewrite (Z.land_diag 1).
  apply negb_true_iff, Z.eqb_neq. intros H. apply Z.lor_eq_0_iff in H. lia.
Qed.

Lemma has_0 f : has 0 f = false.
Proof. done. Qed.

(** ** Kernel pages *)

Section Pages.
Context (kend : Z).

Lemma kpage_addr v : kpage kend v -> 0 <= v < 2 ^ 32 ->
  KERNBASE <= v < KERNBASE + PHYSTOP /\ V2P v = v - KERNBASE /\ P2V (V2P v) = v /\ V2P v mod PGSIZE = 0.
Proof.
  intros (H1 & H2 & H3) Hv. unfold V2P, u32 in *. 
  assert (Hlo : KERNBASE <= v).
  { destruct (decide (KERNBASE <= v)) as [|Hn]; [done|]. exfalso.
    rewrite <- (Z_mod_plus_full (v - KERNBASE) 1) in H3. rewrite Z.mod_small in H3; unfold KERNBASE, PHYSTOP in *; lia. }
  rewrite Z.mod_small in H3 |- * by (unfold KERNBASE, PHYSTOP in *; lia).
  split_and!; try (unfold KERNBASE, PHYSTOP in *; lia).
  - unfold P2V, u32. rewrite Z.mod_small; unfold KERNBASE, PHYSTOP in *; lia.
  - rewrite Zminus_mod, H1. done.
Qed.
End Pages.

(** ** Words of a page *)

Lemma word_addr p d : p mod PGSIZE = 0 -> 0 <= d < 1024 -> pg (p + 4 * d) = p /\ ofs (p + 4 * d) = Z.to_nat (4 * d).
Proof.
  intros Hp Hd. unfold pg, ofs. assert (Hm : (p + 4 * d) mod PGSIZE = 4 * d).
  { rewrite Zplus_mod, Hp, Z.add_0_l, Zmod_mod. apply Z.mod_small. unfold PGSIZE. lia. }
  rewrite Hm. split; [lia|done].
Qed.

Definition word (s : kmem) (p d : Z) : Z := load s (p + 4 * d).

Lemma word_st s p d v p' d' :
  p mod PGSIZE = 0 -> p' mod PGSIZE = 0 -> 0 <= d < 1024 -> 0 <= d' < 1024 -> length (pm s p) = pgsize -> 0 <= v < 2 ^ 32 ->
  let s' := put_page (pg (p + 4 * d)) (wr 4 (ofs (p + 4 * d)) v (pm s (pg (p + 4 * d)))) s in
  word s' p' d' = if decide (p' = p /\ d' = d) then v else word s p' d'.
Proof.
  intros Hp Hp' Hd Hd' Hl Hv. cbn zeta. unfold word, load.
  destruct (word_addr p d Hp Hd) as [-> ->], (word_addr p' d' Hp' Hd') as [-> ->]. unfold put_page, set_pm. cbn [pm].
  destruct (decide (p' = p)) as [->|Hne]; [rewrite pset_eq|rewrite pset_ne by done; by rewrite decide_False by tauto].
  destruct (decide (d' = d)) as [->|Hne].
  - rewrite decide_True by done. rewrite rd_wr_same by (rewrite Hl, pgsize_nat; lia). apply Z.mod_small. cbn. lia.
  - rewrite decide_False by tauto. apply rd_wr_disj; [rewrite Hl, pgsize_nat; lia|lia].
Qed.

Lemma word_range s p d : p mod PGSIZE = 0 -> 0 <= d < 1024 -> length (pm s p) = pgsize -> Forall is_byte (pm s p) -> 0 <= word s p d < 2 ^ 32.
Proof.
  intros Hp Hd Hl Hb. unfold word, load. destruct (word_addr p d Hp Hd) as [-> ->]. unfold rd.
  assert (Hs : length (slice (Z.to_nat (4 * d)) 4 (pm s p)) = 4%nat) by (apply length_slice; rewrite Hl, pgsize_nat; lia).
  pose proof (le_dec_bound (slice (Z.to_nat (4 * d)) 4 (pm s p))) as H. rewrite Hs in H. apply H.
  unfold slice. by apply Forall_take, Forall_drop.
Qed.

(** ** Translation *)

Lemma PDX_range va : 0 <= PDX va < 1024.
Proof. unfold PDX. change 1023 with (Z.ones 10). rewrite Z.land_ones by lia. by apply Z.mod_pos_bound. Qed.
Lemma PTX_range va : 0 <= PTX va < 1024.
Proof. unfold PTX. change 1023 with (Z.ones 10). rewrite Z.land_ones by lia. by apply Z.mod_pos_bound. Qed.

Lemma PDX_val va : 0 <= va < 2 ^ 32 -> PDX va = va / 2 ^ 22.
Proof.
  intros H. unfold PDX, PDXSHIFT. change 1023 with (Z.ones 10). rewrite Z.land_ones, Z.shiftr_div_pow2 by lia.
  apply Z.mod_small. split; [apply Z.div_pos; lia|apply Z.div_lt_upper_bound; lia].
Qed.
Lemma PTX_val va : 0 <= va -> PTX va = (va / PGSIZE) mod 1024.
Proof. intros H. unfold PTX, PTXSHIFT. change 1023 with (Z.ones 10). by rewrite Z.land_ones, Z.shiftr_div_pow2 by lia. Qed.

(** The two indices determine the page. *)
Lemma same_page va va' :
  0 <= va < 2 ^ 32 -> 0 <= va' < 2 ^ 32 -> PDX va = PDX va' /\ PTX va = PTX va' <-> va / PGSIZE = va' / PGSIZE.
Proof.
  intros H H'. rewrite !PDX_val, !PTX_val by lia. change (2 ^ 22) with (PGSIZE * 1024). rewrite <- !Z.div_div by done.
  set (a := va / PGSIZE). set (b := va' / PGSIZE). pose proof (Z.div_mod a 1024). pose proof (Z.div_mod b 1024).
  split; [intros [E1 E2]; lia|intros ->; done].
Qed.

Definition tab (s : kmem) (pgdir d : Z) : Z := P2V (PTE_ADDR (word s pgdir d)).
Definition ent (s : kmem) (pgdir va : Z) : Z :=
  if has (word s pgdir (PDX va)) PTE_P then word s (tab s pgdir (PDX va)) (PTX va) else 0.

Record vm_wf (kend : Z) (s : kmem) (l : list Z) (pgdir : Z) : Prop := VmWf {
  vw_free : free_list kend s l;
  vw_dir : kpage kend pgdir /\ 0 < pgdir < 2 ^ 32 /\ (pgdir ∉ l) /\ length (pm s pgdir) = pgsize;
  vw_word : forall d, 0 <= d < 1024 -> 0 <= word s pgdir d < 2 ^ 32;
  vw_tab : forall d, 0 <= d < 1024 -> has (word s pgdir d) PTE_P = true ->
    kpage kend (tab s pgdir d) /\ 0 < tab s pgdir d < 2 ^ 32 /\ (tab s pgdir d ∉ l) /\
    tab s pgdir d <> pgdir /\ length (pm s (tab s pgdir d)) = pgsize;
  vw_inj : forall d d', 0 <= d < 1024 -> 0 <= d' < 1024 -> has (word s pgdir d) PTE_P = true ->
    has (word s pgdir d') PTE_P = true -> tab s pgdir d = tab s pgdir d' -> d = d'
}.

(** A page that is neither free nor part of the page table. *)
Definition outside (s : kmem) (l : list Z) (pgdir a : Z) : Prop :=
  (a ∉ l) /\ a <> pgdir /\ forall d, 0 <= d < 1024 -> has (word s pgdir d) PTE_P = true -> a <> tab s pgdir d.

Lemma kpage_mod kend v : kpage kend v -> v mod PGSIZE = 0.
Proof. by intros [? _]. Qed.

(** A zeroed page holds null entries. *)
Lemma word_zero s p d : p mod PGSIZE = 0 -> 0 <= d < 1024 -> pm s p = fill_page 0 -> word s p d = 0.
Proof.
  intros Hp Hd Hz. unfold word, load. destruct (word_addr p d Hp Hd) as [-> ->]. rewrite Hz. unfold rd, slice.
  Transparent fill_page. unfold fill_page. Opaque fill_page. rewrite drop_replicate, take_replicate.
  generalize (4 `min` (pgsize - Z.to_nat (4 * d)))%nat as k. induction k as [|k IH]; [done|]. cbn [replicate le_dec]. by rewrite IH.
Qed.

Lemma word_ext s s' p d : p mod PGSIZE = 0 -> 0 <= d < 1024 -> pm s' p = pm s p -> word s' p d = word s p d.
Proof. intros Hp Hd H. unfold word, load. destruct (word_addr p d Hp Hd) as [-> ->]. by rewrite H. Qed.

(** The directory entry for a fresh table. *)
Lemma dir_entry kend t :
  kpage kend t -> 0 < t < 2 ^ 32 ->
  let e := Z.lor (Z.lor (Z.lor (V2P t) PTE_P) PTE_W) PTE_U in
  0 <= e < 2 ^ 32 /\ has e PTE_P = true /\ P2V (PTE_ADDR e) = t.
Proof.
  intros Ht Hr. destruct (kpage_addr kend t Ht ltac:(lia)) as (Hb & Hv & HP & Hm). cbn zeta.
  assert (He : Z.lor (Z.lor (Z.lor (V2P t) PTE_P) PTE_W) PTE_U = Z.lor (V2P t) 7) by (rewrite <- !Z.lor_assoc; done).
  rewrite He. destruct (mk_pte (V2P t) 7) as (H1 & H2 & _); [unfold KERNBASE, PHYSTOP in *; lia|done|unfold PGSIZE; lia|].
  rewrite H2, HP. split_and!; [lia|lia| |done]. change 7 with (Z.lor 6 PTE_P). rewrite Z.lor_assoc. apply has_lor_P.
  apply Z.lor_nonneg. unfold KERNBASE, PHYSTOP in *; lia.
Qed.

Section Walk.
Context (kend : Z).

Lemma vm_wf_mod s l pgdir : vm_wf kend s l pgdir -> pgdir mod PGSIZE = 0.
Proof. intros H. apply (vw_dir _ _ _ _ H). Qed.

(** Adding the page table [t], taken off the free list, at directory slot [d]. *)
Lemma add_table s l t pgdir d :
  vm_wf kend s (t :: l) pgdir -> 0 <= d < 1024 -> has (word s pgdir d) PTE_P = false ->
  let e := Z.lor (Z.lor (Z.lor (V2P t) PTE_P) PTE_W) PTE_U in
  let s1 := put_page t (fill_page 0) (Kmem (pm s) (rd 4 0 (pm s t)) (use_lock s)) in
  let s2 := put_page (pg (pgdir + 4 * d)) (wr 4 (ofs (pgdir + 4 * d)) e (pm s1 (pg (pgdir + 4 * d)))) s1 in
  vm_wf kend s2 l pgdir /\ has (word s2 pgdir d) PTE_P = true /\ tab s2 pgdir d = t /\
  (forall va, ent s2 pgdir va = ent s pgdir va) /\
  (forall a, a <> t -> a <> pgdir -> pm s2 a = pm s a) /\
  (forall d', 0 <= d' < 1024 -> d' <> d -> word s2 pgdir d' = word s pgdir d').
Proof.
  intros Hwf Hd Hno e s1 s2. destruct Hwf as [[Hc Hnd Hpp] (D1 & D2 & D3 & D4) Hw Ht Hi].
  apply Forall_cons in Hpp as [[Hkt Hrt] Hpp]. apply NoDup_cons in Hnd as [Htl Hnd]. apply not_elem_of_cons in D3 as [D3 D3'].
  destruct (dir_entry kend t Hkt Hrt) as (He1 & He2 & He3). fold e in He1, He2, He3.
  pose proof (kpage_mod _ _ D1) as Hpm. pose proof (kpage_mod _ _ Hkt) as Htm. cbn [chain] in Hc. destruct Hc as (Hfl & Ht0 & Htlen & Hc).
  assert (Hpg : pm s1 pgdir = pm s pgdir) by (unfold s1, put_page, set_pm; cbn [pm]; by apply pset_ne).
  assert (Hw1 : forall p' d', p' mod PGSIZE = 0 -> 0 <= d' < 1024 ->
    word s2 p' d' = if decide (p' = pgdir /\ d' = d) then e else word s1 p' d').
  { intros p' d' Hp' Hd'. apply word_st; auto. by rewrite Hpg. }
  assert (Hws : forall p' d', p' mod PGSIZE = 0 -> 0 <= d' < 1024 -> p' <> t -> word s1 p' d' = word s p' d').
  { intros p' d' Hp' Hd' Hne. apply word_ext; [done|done|]. unfold s1, put_page, set_pm. cbn [pm]. by apply pset_ne. }
  assert (Hdir : forall d', 0 <= d' < 1024 -> word s2 pgdir d' = if decide (d' = d) then e else word s pgdir d').
  { intros d' Hd'. rewrite Hw1 by done. destruct (decide (d' = d)) as [->|]; [by rewrite decide_True by done|].
    rewrite decide_False by tauto. by apply Hws. }
  assert (Hframe : forall a, a <> t -> a <> pgdir -> pm s2 a = pm s a).
  { intros a Ha1 Ha2. unfold s2, put_page, set_pm. cbn [pm]. destruct (word_addr pgdir d Hpm Hd) as [-> _].
    rewrite pset_ne by done. by apply pset_ne. }
  assert (Htab : forall d', 0 <= d' < 1024 -> tab s2 pgdir d' = if decide (d' = d) then t else tab s pgdir d').
  { intros d' Hd'. unfold tab. rewrite Hdir by done. by destruct (decide (d' = d)). }
  assert (Hpmt : pm s2 t = fill_page 0).
  { unfold s2, put_page, set_pm. cbn [pm]. destruct (word_addr pgdir d Hpm Hd) as [-> _]. rewrite pset_ne by done. apply pset_eq. }
  split_and!; [| | | |exact Hframe|intros d' Hd' Hne; rewrite Hdir by done; by rewrite decide_False].
  - split.
    + split; [|exact Hnd|exact Hpp]. unfold s2, s1, put_page, set_pm. cbn [pm freelist]. destruct (word_addr pgdir d Hpm Hd) as [-> _].
      by apply chain_pset, chain_pset.
    + split_and!; [exact D1|lia|lia|exact D3'|]. unfold s2, put_page, set_pm. cbn [pm]. destruct (word_addr pgdir d Hpm Hd) as [-> ->].
      rewrite pset_eq, length_wr; [by rewrite Hpg|rewrite Hpg, D4, pgsize_nat; lia].
    + intros d' Hd'. rewrite Hdir by done. destruct (decide (d' = d)); [done|]. by apply Hw.
    + intros d' Hd'. rewrite Hdir, Htab by done. destruct (decide (d' = d)) as [->|Hne].
      * intros _. split_and!; [done|lia|lia|done|done|]. rewrite Hpmt. apply length_fill_page.
      * intros Hp'. destruct (Ht d' Hd' Hp') as (T1 & T2 & T3 & T4 & T5). apply not_elem_of_cons in T3 as [T3 T3'].
        split_and!; [done|lia|lia|done|done|]. by rewrite Hframe.
    + intros d1 d2 H1 H2. rewrite !Hdir, !Htab by done.
      destruct (decide (d1 = d)) as [->|N1], (decide (d2 = d)) as [->|N2]; try done.
      * intros _ Hp' Heq. destruct (Ht d2 H2 Hp') as (_ & _ & T3 & _). apply not_elem_of_cons in T3 as [T3 _]. congruence.
      * intros Hp' _ Heq. destruct (Ht d1 H1 Hp') as (_ & _ & T3 & _). apply not_elem_of_cons in T3 as [T3 _]. congruence.
      * by apply Hi.
  - rewrite Hdir by done. by rewrite decide_True.
  - rewrite Htab by done. by rewrite decide_True.
  - intros va. unfold ent. pose proof (PDX_range va) as Hx. pose proof (PTX_range va) as Hy. rewrite Hdir, Htab by done.
    destruct (decide (PDX va = d)) as [->|Hne].
    + rewrite He2, Hno. apply word_zero; auto.
    + destruct (has (word s pgdir (PDX va)) PTE_P) eqn:Hp'; [|done]. destruct (Ht _ Hx Hp') as (T1 & T2 & T3 & T4 & T5).
      apply not_elem_of_cons in T3 as [T3 _]. pose proof (kpage_mod _ _ T1). rewrite Hw1 by done. rewrite decide_False by tauto. by apply Hws.
Qed.

Lemma ld_word p d s : ld32 (p + 4 * d) s = Ok (word s p d) s.
Proof. done. Qed.

(** The walk that creates missing tables. *)
Lemma walk_alloc_wp s l pgdir va Q E :
  vm_wf kend s l pgdir ->
  (l = [] -> has (word s pgdir (PDX va)) PTE_P = false -> Q 0 s) ->
  (forall s' k l', vm_wf kend s' l' pgdir -> has (word s' pgdir (PDX va)) PTE_P = true -> l = k ++ l' ->
     (length k <= if has (word s pgdir (PDX va)) PTE_P then 0 else 1)%nat ->
     (forall va', ent s' pgdir va' = ent s pgdir va') ->
     (forall b, outside s l pgdir b -> outside s' l' pgdir b /\ pm s' b = pm s b) ->
     Q (tab s' pgdir (PDX va) + 4 * PTX va) s') ->
  wp (walkpgdir pgdir va true) Q E s.
Proof.
  intros Hwf Hnone Hsome. pose proof (PDX_range va) as Hd. unfold walkpgdir. apply wp_bind. eapply wp_eq; [apply ld_word|].
  destruct (has (word s pgdir (PDX va)) PTE_P) eqn:Hp.
  - apply wp_ret. apply (Hsome s [] l); auto.
  - cbn [negb]. apply wp_bind. pose proof (kalloc_spec kend s l (vw_free _ _ _ _ Hwf)) as Hk. destruct l as [|t l'].
    + eapply wp_eq; [exact Hk|]. apply wp_ret. by apply Hnone.
    + destruct (vw_free _ _ _ _ Hwf) as [(Hf & H0 & _) _ _]. cbn [chain] in *.
      assert (Hka : kalloc s = Ok t (Kmem (pm s) (rd 4 0 (pm s t)) (use_lock s))).
      { unfold kalloc, bind, gets, modify, ret, truth. by rewrite Hf, (proj2 (Z.eqb_neq _ _) H0). }
      eapply wp_eq; [exact Hka|]. rewrite (proj2 (Z.eqb_neq _ _) H0).
      destruct (add_table s l' t pgdir (PDX va) Hwf Hd Hp) as (W1 & W2 & W3 & W4 & W5 & W6).
      apply wp_bind, wp_modify, wp_bind. unfold st32. apply wp_modify, wp_ret.
      set (s2 := put_page _ _ _) in *. rewrite <- W3. apply (Hsome s2 [t] l'); [exact W1|exact W2|done|cbn; lia|exact W4|].
      intros b (B1 & B2 & B3). apply not_elem_of_cons in B1 as [B1 B1']. split; [|by apply W5].
      split; [exact B1'|]. split; [exact B2|]. intros d' Hd'. destruct (decide (d' = PDX va)) as [->|Hne].
      * intros _. by rewrite W3.
      * unfold tab. rewrite (W6 d' Hd' Hne). by apply B3.
Qed.

(** The walk that only looks. *)
Lemma walk_wp s pgdir va Q E :
  (has (word s pgdir (PDX va)) PTE_P = false -> Q 0 s) ->
  (has (word s pgdir (PDX va)) PTE_P = true -> Q (tab s pgdir (PDX va) + 4 * PTX va) s) ->
  wp (walkpgdir pgdir va false) Q E s.
Proof.
  intros H1 H2. unfold walkpgdir. apply wp_bind. eapply wp_eq; [apply ld_word|].
  destruct (has (word s pgdir (PDX va)) PTE_P); cbn [negb]; apply wp_ret; auto.
Qed.

(** Storing an entry. *)
Lemma set_entry s l pgdir va v :
  vm_wf kend s l pgdir -> 0 <= va < 2 ^ 32 -> has (word s pgdir (PDX va)) PTE_P = true -> 0 <= v < 2 ^ 32 ->
  let a := tab s pgdir (PDX va) + 4 * PTX va in
  let s' := put_page (pg a) (wr 4 (ofs a) v (pm s (pg a))) s in
  vm_wf kend s' l pgdir /\
  (forall va', 0 <= va' < 2 ^ 32 -> ent s' pgdir va' = if decide (va' / PGSIZE = va / PGSIZE) then v else ent s pgdir va') /\
  (forall b, b <> tab s pgdir (PDX va) -> pm s' b = pm s b) /\ (forall d, 0 <= d < 1024 -> word s' pgdir d = word s pgdir d).
Proof.
  intros [[Hc Hnd Hpp] (D1 & D2 & D3 & D4) Hw Ht Hi] Hva Hp Hv a s'. pose proof (PDX_range va) as Hd. pose proof (PTX_range va) as Hx.
  destruct (Ht _ Hd Hp) as (T1 & T2 & T3 & T4 & T5). pose proof (kpage_mod _ _ T1) as Tm. pose proof (kpage_mod _ _ D1) as Dm.
  destruct (word_addr _ _ Tm Hx) as [Ea Eo].
  assert (Hst : forall p' d', p' mod PGSIZE = 0 -> 0 <= d' < 1024 ->
    word s' p' d' = if decide (p' = tab s pgdir (PDX va) /\ d' = PTX va) then v else word s p' d').
  { intros p' d' Hp' Hd'. by apply word_st. }
  assert (Hdir : forall d, 0 <= d < 1024 -> word s' pgdir d = word s pgdir d).
  { intros d Hd'. rewrite Hst by done. rewrite decide_False; [done|]. intros [? _]. congruence. }
  assert (Htab : forall d, 0 <= d < 1024 -> tab s' pgdir d = tab s pgdir d) by (intros d Hd'; unfold tab; by rewrite Hdir).
  assert (Hframe : forall b, b <> tab s pgdir (PDX va) -> pm s' b = pm s b).
  { intros b Hb. unfold s', put_page, set_pm. cbn [pm]. unfold a. rewrite Ea. by apply pset_ne. }
  assert (Hlen : forall b, length (pm s b) = pgsize -> length (pm s' b) = pgsize).
  { intros b Hb. destruct (decide (b = tab s pgdir (PDX va))) as [->|]; [|by rewrite Hframe].
    unfold s', put_page, set_pm. cbn [pm]. unfold a. rewrite Ea, Eo, pset_eq, length_wr; [done|rewrite Hb, pgsize_nat; lia]. }
  split_and!; [| |exact Hframe|exact Hdir].
  - split.
    + split; [|exact Hnd|exact Hpp]. unfold s', put_page, set_pm. cbn [pm freelist]. unfold a. rewrite Ea. by apply chain_pset.
    + split_and!; [done|lia|lia|done|by apply Hlen].
    + intros d Hd'. rewrite Hdir by done. by apply Hw.
    + intros d Hd'. rewrite Hdir, Htab by done. intros Hp'. destruct (Ht d Hd' Hp') as (U1 & U2 & U3 & U4 & U5).
      split_and!; [done|lia|lia|done|done|by apply Hlen].
    + intros d d' H1 H2. rewrite !Hdir, !Htab by done. by apply Hi.
  - intros va' Hva'. unfold ent. pose proof (PDX_range va') as Hd'. pose proof (PTX_range va') as Hx'. rewrite Hdir, Htab by done.
    pose proof (same_page va' va Hva' Hva) as Hsp. destruct (has (word s pgdir (PDX va')) PTE_P) eqn:Hp'.
    + destruct (Ht _ Hd' Hp') as (U1 & _). rewrite Hst by (done || by eapply kpage_mod).
      destruct (decide (va' / PGSIZE = va / PGSIZE)) as [Heq|Hne].
      * apply Hsp in Heq as [-> ->]. by rewrite decide_True.
      * rewrite decide_False; [done|]. intros [E1 E2]. apply Hne, Hsp. split; [by apply Hi|done].
    + rewrite decide_False; [done|]. intros Heq. apply Hsp in Heq as [E1 _]. congruence.
Qed.

(** Storing an entry leaves the pages outside the table alone. *)
Lemma set_entry_outside s l pgdir va v b :
  vm_wf kend s l pgdir -> 0 <= va < 2 ^ 32 -> has (word s pgdir (PDX va)) PTE_P = true -> 0 <= v < 2 ^ 32 ->
  let a := tab s pgdir (PDX va) + 4 * PTX va in
  let s' := put_page (pg a) (wr 4 (ofs a) v (pm s (pg a))) s in
  outside s l pgdir b -> outside s' l pgdir b /\ pm s' b = pm s b.
Proof.
  intros Hwf Hva Hp Hv a s' (B1 & B2 & B3). destruct (set_entry s l pgdir va v Hwf Hva Hp Hv) as (_ & _ & Hf & Hd).
  fold a s' in Hf, Hd. pose proof (PDX_range va). split; [|by apply Hf, B3]. split; [done|]. split; [done|].
  intros d Hd'. unfold tab. rewrite Hd by done. by apply B3.
Qed.

(** The entry [mappages] writes. *)
Definition new_pte (pa perm : Z) : Z := Z.lor (Z.lor pa perm) PTE_P.

Lemma new_pte_range pa perm :
  0 <= pa < 2 ^ 32 -> 0 <= perm < PGSIZE -> 0 <= new_pte pa perm < 2 ^ 32 /\ has (new_pte pa perm) PTE_P = true.
Proof.
  intros H1 H2. unfold new_pte, PGSIZE in *. split.
  - apply lor_range; [lia| |unfold PTE_P; lia]. apply lor_range; lia.
  - apply has_lor_P. apply Z.lor_nonneg. lia.
Qed.

(** How many page tables a call on [n] pages from [a] may need: one per 4 MB
    it touches, less the first when it is there already. *)
Definition cost (s : kmem) (pgdir a : Z) (n : nat) : nat :=
  (if has (word s pgdir (PDX a)) PTE_P then 0 else 1) + Z.to_nat ((a + (Z.of_nat n - 1) * PGSIZE) / 2 ^ 22 - a / 2 ^ 22).

(** What a call of [mappages] on [n] pages from [a] does. *)
Record mapped (s : kmem) (l : list Z) (pgdir a pa perm : Z) (n : nat) (s' : kmem) (l' : list Z) : Prop := Mapped {
  mp_wf : vm_wf kend s' l' pgdir;
  mp_used : exists k, l = k ++ l' /\ (length k <= cost s pgdir a n)%nat;
  mp_ent : forall va, 0 <= va < 2 ^ 32 -> ent s' pgdir va =
    if decide (a <= va < a + Z.of_nat n * PGSIZE) then new_pte (pa + (va / PGSIZE * PGSIZE - a)) perm else ent s pgdir va;
  mp_frame : forall b, outside s l pgdir b -> outside s' l' pgdir b /\ pm s' b = pm s b
}.
(** The call ran out of memory after mapping some of the pages. *)
Record unmapped (s : kmem) (l : list Z) (pgdir a : Z) (n : nat) (s' : kmem) : Prop := Unmapped {
  um_wf : vm_wf kend s' [] pgdir;
  um_few : (length l < cost s pgdir a n)%nat;
  um_ent : forall va, 0 <= va < 2 ^ 32 -> ~ a <= va < a + Z.of_nat n * PGSIZE -> ent s' pgdir va = ent s pgdir va;
  um_frame : forall b, outside s l pgdir b -> outside s' [] pgdir b /\ pm s' b = pm s b
}.

Lemma page_index a va :
  a mod PGSIZE = 0 -> (va / PGSIZE = a / PGSIZE <-> a <= va < a + PGSIZE).
Proof.
  intros Ha. pose proof (Z.div_mod a PGSIZE ltac:(done)) as Hd. rewrite Ha in Hd.
  pose proof (Z.div_mod va PGSIZE ltac:(done)) as Hv. pose proof (Z.mod_pos_bound va PGSIZE ltac:(done)) as Hm. unfold PGSIZE in *. lia.
Qed.

Lemma cost_step s s2 pgdir a n k :
  0 <= a -> a + Z.of_nat n * PGSIZE <= 2 ^ 32 -> (2 <= n)%nat -> has (word s2 pgdir (PDX a)) PTE_P = true ->
  (k <= if has (word s pgdir (PDX a)) PTE_P then 0 else 1)%nat ->
  (k + cost s2 pgdir (a + PGSIZE) (n - 1) <= cost s pgdir a n)%nat.
Proof.
  intros H0 Hmax Hn Hp Hk. unfold cost.
  replace (a + PGSIZE + (Z.of_nat (n - 1) - 1) * PGSIZE) with (a + (Z.of_nat n - 1) * PGSIZE) by (unfold PGSIZE; lia).
  assert (Hreg : (a + PGSIZE) / 2 ^ 22 = a / 2 ^ 22 \/ (a + PGSIZE) / 2 ^ 22 = a / 2 ^ 22 + 1).
  { assert (a / 2 ^ 22 <= (a + PGSIZE) / 2 ^ 22) by (apply Z.div_le_mono; [done|unfold PGSIZE; lia]).
    assert ((a + PGSIZE) / 2 ^ 22 <= (a + 1 * 2 ^ 22) / 2 ^ 22) by (apply Z.div_le_mono; [done|unfold PGSIZE; lia]).
    rewrite Z_div_plus_full in * by done. lia. }
  assert ((a + PGSIZE) / 2 ^ 22 <= (a + (Z.of_nat n - 1) * PGSIZE) / 2 ^ 22) by (apply Z.div_le_mono; [done|unfold PGSIZE; lia]).
  destruct Hreg as [Hr|Hr].
  - assert (Hx : PDX (a + PGSIZE) = PDX a) by (rewrite !PDX_val by (unfold PGSIZE in *; lia); exact Hr). rewrite Hx, Hp, Hr. lia.
  - rewrite Hr. destruct (has (word s2 pgdir (PDX (a + PGSIZE))) PTE_P); lia.
Qed.

Lemma mappages_loop_wp perm last pgdir (HE : 0 <= perm < PGSIZE) fuel :
  forall s l a pa n Q (E : string -> Prop),
  vm_wf kend s l pgdir -> a mod PGSIZE = 0 -> 0 <= a -> a + Z.of_nat n * PGSIZE <= 2 ^ 32 ->
  0 <= pa -> pa + Z.of_nat n * PGSIZE <= 2 ^ 32 -> last = a + (Z.of_nat n - 1) * PGSIZE -> (1 <= n <= fuel)%nat ->
  ((exists va, a <= va < a + Z.of_nat n * PGSIZE /\ has (ent s pgdir va) PTE_P = true) -> E "remap"%string) ->
  (forall s' l', mapped s l pgdir a pa perm n s' l' -> Q 0 s') ->
  (forall s', unmapped s l pgdir a n s' -> Q (-1) s') ->
  wp (mappages_loop fuel pgdir a last pa perm) Q E s.
Proof.
  induction fuel as [|fuel IH]; intros s l a pa n Q E Hwf Ha H0 Hmax Hp0 Hpmax Hlast Hn Hre HQ1 HQ2; [lia|].
  cbn [mappages_loop]. assert (Hva : 0 <= a < 2 ^ 32) by (unfold PGSIZE in *; lia).
  assert (Hpr : 0 <= pa < 2 ^ 32) by (unfold PGSIZE in *; lia). apply wp_bind.
  eapply walk_alloc_wp; [exact Hwf| |].
  { intros -> Hno. apply wp_ret, HQ2. split; [done|unfold cost; rewrite Hno; cbn; lia|done|]. intros b Hb. done. }
  intros s1 k1 l1 Hwf1 Hp1 Hl1 Hk1 Hent1 Hfr1. pose proof (PDX_range a) as Hd. pose proof (PTX_range a) as Hx.
  destruct (vw_tab _ _ _ _ Hwf1 _ Hd Hp1) as (_ & T2 & _). rewrite (proj2 (Z.eqb_neq _ _)) by lia.
  apply wp_bind. eapply wp_eq; [apply ld_word|].
  assert (He : word s1 (tab s1 pgdir (PDX a)) (PTX a) = ent s pgdir a) by (rewrite <- Hent1; unfold ent; by rewrite Hp1).
  rewrite He. destruct (has (ent s pgdir a) PTE_P) eqn:Hpre.
  { apply wp_panic, Hre. exists a. split; [unfold PGSIZE; lia|done]. }
  destruct (new_pte_range pa perm Hpr HE) as [Hv _].
  destruct (set_entry s1 l1 pgdir a _ Hwf1 Hva Hp1 Hv) as (Hwf2 & Hent2 & _ & Hdir2). pose proof (Hdir2 _ Hd) as Hp2. 
  pose proof (fun b => set_entry_outside s1 l1 pgdir a _ b Hwf1 Hva Hp1 Hv) as Hfr2.
  apply wp_bind. unfold st32. apply wp_modify. cbn zeta in *. fold (new_pte pa perm). set (s2 := put_page _ _ s1) in *.
  assert (Hfr : forall b, outside s l pgdir b -> outside s2 l1 pgdir b /\ pm s2 b = pm s b).
  { intros b Hb. destruct (Hfr1 b Hb) as [Hb1 E1]. destruct (Hfr2 b Hb1) as [Hb2 E2]. split; [done|congruence]. }
  assert (Hent : forall va, 0 <= va < 2 ^ 32 -> ent s2 pgdir va = if decide (a <= va < a + PGSIZE) then new_pte pa perm else ent s pgdir va).
  { intros va Hv'. rewrite Hent2, Hent1 by done. pose proof (page_index a va Ha) as Hpi.
    destruct (decide (va / PGSIZE = a / PGSIZE)) as [Heq|Hne]; [rewrite decide_True by tauto|rewrite decide_False by tauto]; done. }
  destruct (a =? last) eqn:Elast; b2p.
  - assert (n = 1%nat) as -> by (unfold PGSIZE in *; lia). apply wp_ret, (HQ1 s2 l1). split; [done|exists k1; split; [done|unfold cost; lia]| |done].
    intros va Hv'. rewrite Hent by done. rewrite Z.mul_1_l. destruct (decide (a <= va < a + PGSIZE)) as [Hin|]; [|done].
    f_equal. apply page_index in Hin; [|done]. pose proof (Z.div_mod a PGSIZE ltac:(done)). rewrite Hin. lia.
  - assert (Hn2 : (2 <= n)%nat) by (destruct (decide (n = 1%nat)) as [->|]; [unfold PGSIZE in *; lia|lia]).
    rewrite !u32_small by (unfold PGSIZE in *; lia).
    assert (Hcs : (length k1 + cost s2 pgdir (a + PGSIZE) (n - 1) <= cost s pgdir a n)%nat) by (apply cost_step; [done|done|done|by rewrite Hp2|done]).
    eapply (IH s2 l1 (a + PGSIZE) (pa + PGSIZE) (n - 1)%nat); [exact Hwf2| | | | | | |lia| | |].
    + by rewrite <- (Z.mul_1_l PGSIZE) at 1; rewrite Z_mod_plus_full.
    + unfold PGSIZE in *; lia.
    + unfold PGSIZE in *; lia.
    + unfold PGSIZE in *; lia.
    + unfold PGSIZE in *; lia.
    + unfold PGSIZE in *; lia.
    + intros (va & Hin & Hpv). apply Hre. exists va. split; [unfold PGSIZE in *; lia|].
      rewrite Hent in Hpv by (unfold PGSIZE in *; lia). by rewrite decide_False in Hpv by lia.
    + intros s3 l3 [M1 (k3 & M2 & M2') M3 M4]. apply (HQ1 s3 l3). split; [done| | |].
      * exists (k1 ++ k3). subst l l1. split; [by rewrite app_assoc|rewrite length_app; lia].
      * intros va Hv'. rewrite M3, Hent by done. unfold PGSIZE in *.
        destruct (decide (a + 4096 <= va < a + 4096 + Z.of_nat (n - 1) * 4096)) as [Hi|Hi].
        -- rewrite decide_True by lia. f_equal. lia.
        -- destruct (decide (a <= va < a + 4096)) as [Hj|Hj].
           ++ rewrite decide_True by lia. f_equal. apply page_index in Hj; [|done]. unfold PGSIZE in Hj. pose proof (Z.div_mod a 4096 ltac:(done)).
              rewrite Ha in H. rewrite Hj. lia.
           ++ by rewrite decide_False by lia.
      * intros b Hb. destruct (Hfr b Hb) as [Hb1 E1]. destruct (M4 b Hb1) as [Hb2 E2]. split; [done|congruence].
    + intros s3 [U1 U2 U3 U4]. apply HQ2. split; [done| | |].
      * subst l. rewrite length_app. lia.
      * intros va Hv' Hout. unfold PGSIZE in *. rewrite U3 by lia. rewrite Hent by done. by rewrite decide_False by lia.
      * intros b Hb. destruct (Hfr b Hb) as [Hb1 E1]. destruct (U4 b Hb1) as [Hb2 E2]. split; [done|congruence].
Qed.

(** The pages a range touches. *)
Definition first_page (va : Z) : Z := va / PGSIZE * PGSIZE.
Definition npages (va size : Z) : nat := Z.to_nat ((va + size - 1) / PGSIZE - va / PGSIZE + 1).

Lemma PGROUNDDOWN_first a : 0 <= a < 2 ^ 32 -> PGROUNDDOWN a = first_page a.
Proof.
  intros H. rewrite PGROUNDDOWN_val by done. unfold first_page. pose proof (Z.div_mod a PGSIZE ltac:(done)). lia.
Qed.

Lemma mappages_wp s l pgdir va size pa perm Q (E : string -> Prop) :
  vm_wf kend s l pgdir -> 0 <= va -> 1 <= size -> va + size <= 2 ^ 32 -> 0 <= perm < PGSIZE ->
  0 <= pa -> pa + Z.of_nat (npages va size) * PGSIZE <= 2 ^ 32 ->
  ((exists x, first_page va <= x < first_page va + Z.of_nat (npages va size) * PGSIZE /\ has (ent s pgdir x) PTE_P = true) ->
    E "remap"%string) ->
  (forall s' l', mapped s l pgdir (first_page va) pa perm (npages va size) s' l' -> Q 0 s') ->
  (forall s', unmapped s l pgdir (first_page va) (npages va size) s' -> Q (-1) s') ->
  wp (mappages pgdir va size pa perm) Q E s.
Proof.
  intros Hwf H1 H2 H3 Hp Hpa Hpm HE HQ1 HQ2. unfold mappages.
  rewrite (u32_small (va + size - 1)), !PGROUNDDOWN_first by lia.
  assert (Hle : va / PGSIZE <= (va + size - 1) / PGSIZE) by (apply Z.div_le_mono; [done|lia]).
  assert (Hlast : first_page (va + size - 1) = first_page va + (Z.of_nat (npages va size) - 1) * PGSIZE).
  { unfold first_page, npages. rewrite Z2Nat.id by lia. lia. }
  pose proof (Z.div_mod (va + size - 1) PGSIZE ltac:(done)) as Hdm. pose proof (Z.mod_pos_bound (va + size - 1) PGSIZE ltac:(done)) as Hmb.
  assert (Hfp : 0 <= first_page va) by (unfold first_page; pose proof (Z.div_pos va PGSIZE H1 ltac:(done)); unfold PGSIZE in *; lia).
  assert (Hnp : (1 <= npages va size)%nat) by (unfold npages; lia).
  assert (Hmax : first_page va + Z.of_nat (npages va size) * PGSIZE <= 2 ^ 32).
  { assert (first_page (va + size - 1) + PGSIZE <= 2 ^ 32); [|unfold PGSIZE in *; lia]. unfold first_page.
    assert ((va + size - 1) / PGSIZE < 2 ^ 20) by (apply Z.div_lt_upper_bound; [done|unfold PGSIZE; lia]). unfold PGSIZE in *. lia. }
  rewrite Hlast. replace (first_page va + (Z.of_nat (npages va size) - 1) * PGSIZE - first_page va)
    with ((Z.of_nat (npages va size) - 1) * PGSIZE) by lia.
  rewrite u32_small by (unfold PGSIZE in *; lia). rewrite Z.div_mul by done.
  eapply (mappages_loop_wp perm _ pgdir Hp _ s l _ pa (npages va size)); [exact Hwf| |exact Hfp|exact Hmax|exact Hpa|exact Hpm|done|lia|exact HE|exact HQ1|exact HQ2].
  unfold first_page. by apply Z_mod_mult.
Qed.

(** [mappages] installs exactly the mapping asked for.  On a well-formed
    page table, for a non-empty range inside the address space, it returns 0
    with every page of the range translated to its physical page with the
    given permissions, and every other address translated as before; or -1
    when the free list ran out, again without touching other translations; or
    it stops with [remap] when a page of the range is already mapped.  Either
    way the page table stays well formed, page-table pages come from the free
    list (one per 4 MB of addresses at most), and no page that was in use for
    anything else is written. *)
Theorem mappages_maps s l pgdir va size pa perm :
  vm_wf kend s l pgdir -> 0 <= va -> 1 <= size -> va + size <= 2 ^ 32 -> 0 <= perm < PGSIZE ->
  0 <= pa -> pa + Z.of_nat (npages va size) * PGSIZE <= 2 ^ 32 ->
  wp (mappages pgdir va size pa perm)
     (fun r s' => (r = 0 /\ exists l', mapped s l pgdir (first_page va) pa perm (npages va size) s' l') \/
                  (r = -1 /\ unmapped s l pgdir (first_page va) (npages va size) s'))
     (fun m => m = "remap"%string /\
        exists x, va / PGSIZE * PGSIZE <= x < va + size + PGSIZE /\ has (ent s pgdir x) PTE_P = true) s.
Proof.
  intros Hwf H1 H2 H3 Hp Hpa Hpm. eapply (mappages_wp s l); try done.
  - intros (x & Hx & Hh). split; [done|]. exists x. split; [|done]. unfold first_page, npages in Hx. fold (first_page va).
    pose proof (Z.div_le_mono va (va + size - 1) PGSIZE ltac:(done) ltac:(lia)) as Hle. rewrite Z2Nat.id in Hx by lia.
    pose proof (Z.mul_div_le (va + size - 1) PGSIZE ltac:(done)). unfold first_page, PGSIZE in *. lia.
  - intros s' l' Hm. left. split; [done|]. by exists l'.
  - intros s' Hu. by right.
Qed.
End Walk.

(** ** A fresh page table *)

(** A zeroed page taken off the free list is an empty page table. *)
Lemma vm_wf_new kend s d l :
  free_list kend s (d :: l) ->
  let s' := put_page d (fill_page 0) (Kmem (pm s) (rd 4 0 (pm s d)) (use_lock s)) in
  vm_wf kend s' l d /\ (forall va, ent s' d va = 0) /\ (forall b, b <> d -> pm s' b = pm s b).
Proof.
  intros [Hc Hnd Hpp] s'. apply Forall_cons in Hpp as [[Hk Hr] Hpp]. apply NoDup_cons in Hnd as [Hd Hnd].
  cbn [chain] in Hc. destruct Hc as (_ & _ & _ & Hc). pose proof (kpage_mod _ _ Hk) as Hm.
  assert (Hw : forall x, 0 <= x < 1024 -> word s' d x = 0) by (intros x Hx; apply word_zero; [done|done|apply pset_eq]).
  split_and!.
  - split.
    + split; [|done|done]. unfold s', put_page, set_pm. cbn [pm freelist]. by apply chain_pset.
    + split_and!; [done|lia|lia|done|]. unfold s', put_page, set_pm. cbn [pm]. rewrite pset_eq. apply length_fill_page.
    + intros x Hx. rewrite Hw by done. lia.
    + intros x Hx. rewrite Hw by done. done.
    + intros x y Hx Hy. rewrite Hw by done. done.
  - intros va. unfold ent. rewrite Hw by apply PDX_range. done.
  - intros b Hb. by apply pset_ne.
Qed.

(** Four pages, the last one taken as an empty page directory. *)
Definition smp_vm0 : kmem :=
  match kinit1 smp_kend smp_kend (smp_kend + 4 * 4096) smp_kmem0 with Ok _ s => s | _ => smp_kmem0 end.
Definition smp_pgdir : Z := smp_kend + 3 * 4096.
Definition smp_free : list Z := [smp_kend + 2 * 4096; smp_kend + 4096; smp_kend].
Definition smp_vm : kmem :=
  put_page smp_pgdir (fill_page 0) (Kmem (pm smp_vm0) (rd 4 0 (pm smp_vm0 smp_pgdir)) (use_lock smp_vm0)).

Lemma smp_vm_free : free_list smp_kend smp_vm0 (smp_pgdir :: smp_free).
Proof.
  pose proof (freerange_spec smp_kend ltac:(done) smp_kend (smp_kend + 4 * 4096) ltac:(done) ltac:(done) ltac:(done)
    (Kmem (pm smp_kmem0) 0 0) eq_refl) as Hw.
  assert (E : kinit1 smp_kend smp_kend (smp_kend + 4 * 4096) smp_kmem0 = Ok tt smp_vm0) by reflexivity.
  eapply wp_Ok in Hw as [Hfl _]; [|exact E]. exact Hfl.
Qed.

Lemma mappages_maps_witness :
  wp (mappages smp_pgdir 100 5000 8192 6)
     (fun r s' => r = 0 /\ ent s' smp_pgdir 4200 = new_pte 12288 6 /\ ent s' smp_pgdir 8192 = 0) (fun _ => False) smp_vm.
Proof.
  destruct (vm_wf_new smp_kend smp_vm0 smp_pgdir smp_free smp_vm_free) as (Hwf & He & _). fold smp_vm in Hwf, He.
  eapply wp_mono.
  - exact (mappages_maps smp_kend smp_vm smp_free smp_pgdir 100 5000 8192 6 Hwf ltac:(lia) ltac:(lia) ltac:(lia)
             ltac:(unfold PGSIZE; lia) ltac:(lia) ltac:(vm_compute; discriminate)).
  - cbv beta. intros r s' [[-> (l' & [_ _ M _])]|[_ U]].
    + split; [reflexivity|]. rewrite !M by lia. rewrite He. split; reflexivity.
    + destruct U as [_ Hfew _ _]. vm_compute in Hfew. lia.
  - cbv beta. intros m [_ (x & _ & Hx)]. rewrite He in Hx. discriminate Hx.
Defined.
