(* ===== verification/Uvm.v ===== *)
(** User memory: [copyout], [allocuvm] and [copyuvm] of vm.c against the
    bytes a process sees.

    [ubyte s pgdir va] is the byte at user address [va]. *)
From stdpp Require Import base numbers list strings.
From Stdlib Require Import ZArith Lia.
From S2P Require Import Prelude Kalloc Vm Walk.

Local Open Scope list_scope.
Local Open Scope Z_scope.

Definition uaddr (s : kmem) (pgdir va : Z) : Z := P2V (PTE_ADDR (ent s pgdir va)).
Definition ubyte (s : kmem) (pgdir va : Z) : Z := nthd 0 (pm s (uaddr s pgdir va)) (ofs va).
(** User code may access [va]. *)
Definition user (s : kmem) (pgdir va : Z) : bool := has (ent s pgdir va) PTE_P && has (ent s pgdir va) PTE_U.

(** The user pages of a page table are its own: no page-table page, no free
    page, and no page mapped twice. *)
Record private (s : kmem) (l : list Z) (pgdir : Z) : Prop := Private {
  pv_out : forall x, 0 <= x < 2 ^ 32 -> user s pgdir x = true ->
    outside s l pgdir (uaddr s pgdir x) /\ length (pm s (uaddr s pgdir x)) = pgsize /\ uaddr s pgdir x <> 0;
  pv_inj : forall x y, 0 <= x < 2 ^ 32 -> 0 <= y < 2 ^ 32 -> user s pgdir x = true -> user s pgdir y = true ->
    uaddr s pgdir x = uaddr s pgdir y -> x / PGSIZE = y / PGSIZE
}.

Lemma ent_page s pgdir x y :
  0 <= x < 2 ^ 32 -> 0 <= y < 2 ^ 32 -> x / PGSIZE = y / PGSIZE -> ent s pgdir x = ent s pgdir y.
Proof. intros Hx Hy H. apply (same_page x y Hx Hy) in H as [E1 E2]. unfold ent. by rewrite E1, E2. Qed.

Lemma ofs_lt a : (ofs a < pgsize)%nat.
Proof. unfold ofs. pose proof (Z.mod_pos_bound a PGSIZE ltac:(done)). rewrite pgsize_nat. unfold PGSIZE in *. lia. Qed.

Section Uvm.
Context (kend : Z).

(** Writing a page outside the page table does not change translations. *)
Lemma vm_wf_write s l pgdir b p :
  vm_wf kend s l pgdir -> outside s l pgdir b ->
  vm_wf kend (put_page b p s) l pgdir /\ (forall x, ent (put_page b p s) pgdir x = ent s pgdir x) /\
  (forall c, outside s l pgdir c -> outside (put_page b p s) l pgdir c).
Proof.
  intros [[Hc Hnd Hpp] (D1 & D2 & D3 & D4) Hw Ht Hi] (B1 & B2 & B3). pose proof (kpage_mod _ _ D1) as Dm.
  assert (Hpm : forall c, c <> b -> pm (put_page b p s) c = pm s c) by (intros c Hc'; by apply pset_ne).
  assert (Hdir : forall d, 0 <= d < 1024 -> word (put_page b p s) pgdir d = word s pgdir d).
  { intros d Hd. apply word_ext; [done|done|]. apply Hpm. congruence. }
  assert (Htab : forall d, 0 <= d < 1024 -> tab (put_page b p s) pgdir d = tab s pgdir d) by (intros d Hd; unfold tab; by rewrite Hdir).
  split_and!.
  - split.
    + split; [by apply chain_pset|done|done].
    + split_and!; [done|lia|lia|done|]. rewrite Hpm by congruence. done.
    + intros d Hd. rewrite Hdir by done. by apply Hw.
    + intros d Hd. rewrite Hdir, Htab by done. intros Hp. destruct (Ht d Hd Hp) as (T1 & T2 & T3 & T4 & T5).
      split_and!; [done|lia|lia|done|done|]. rewrite Hpm; [done|]. intros E. by apply (B3 d).
    + intros d d' Hd Hd'. rewrite !Hdir, !Htab by done. by apply Hi.
  - intros x. unfold ent. pose proof (PDX_range x) as Hd. rewrite Hdir, Htab by done.
    destruct (has (word s pgdir (PDX x)) PTE_P) eqn:Hp; [|done]. destruct (Ht _ Hd Hp) as (T1 & _).
    apply word_ext; [by eapply kpage_mod|apply PTX_range|]. apply Hpm. intros E. by apply (B3 (PDX x)).
  - intros c (C1 & C2 & C3). split; [done|]. split; [done|]. intros d Hd. rewrite Hdir, Htab by done. by apply C3.
Qed.

Lemma private_write s l pgdir b p :
  vm_wf kend s l pgdir -> outside s l pgdir b -> length p = pgsize -> private s l pgdir -> private (put_page b p s) l pgdir.
Proof.
  intros Hwf Hb Hl [P1 P2]. destruct (vm_wf_write s l pgdir b p Hwf Hb) as (_ & He & Ho).
  assert (Hu : forall x, user (put_page b p s) pgdir x = user s pgdir x) by (intros x; unfold user; by rewrite He).
  assert (Ha : forall x, uaddr (put_page b p s) pgdir x = uaddr s pgdir x) by (intros x; unfold uaddr; by rewrite He).
  split.
  - intros x Hx. rewrite Hu, Ha. intros Hux. destruct (P1 x Hx Hux) as (O1 & O2 & O3). split_and!; [by apply Ho| |done].
    unfold put_page, set_pm. cbn [pm]. unfold pset. by case_decide.
  - intros x y Hx Hy. rewrite !Hu, !Ha. by apply P2.
Qed.

(** [uva2ka]. *)
Lemma uva2ka_wp s pgdir va Q (E : string -> Prop) :
  (has (word s pgdir (PDX va)) PTE_P = false -> E "undefined: null pte"%string) ->
  (forall l, vm_wf kend s l pgdir -> Q (if user s pgdir va then uaddr s pgdir va else 0) s) ->
  forall l, vm_wf kend s l pgdir -> wp (uva2ka pgdir va) Q E s.
Proof.
  intros HE HQ l Hwf. unfold uva2ka. apply wp_bind. apply walk_wp.
  - intros H. rewrite Z.eqb_refl. by apply HE.
  - intros Hp. destruct (vw_tab _ _ _ _ Hwf _ (PDX_range va) Hp) as (_ & T2 & _). pose proof (PTX_range va).
    rewrite (proj2 (Z.eqb_neq _ _)) by lia. apply wp_bind. eapply wp_eq; [apply ld_word|].
    assert (He : word s (tab s pgdir (PDX va)) (PTX va) = ent s pgdir va) by (unfold ent; by rewrite Hp).
    rewrite He. specialize (HQ l Hwf). unfold user in HQ. destruct (has (ent s pgdir va) PTE_P); cbn [negb andb] in *; [|by apply wp_ret].
    destruct (has (ent s pgdir va) PTE_U); cbn [negb] in *; by apply wp_ret.
Qed.

(** What [copyout] of [n] bytes at [va] leaves. *)
Record copied (s : kmem) (l : list Z) (pgdir va : Z) (buf : list Z) (n : Z) (s' : kmem) : Prop := Copied {
  cp_wf : vm_wf kend s' l pgdir;
  cp_private : private s' l pgdir;
  cp_ent : forall x, ent s' pgdir x = ent s pgdir x;
  cp_byte : forall x, 0 <= x < 2 ^ 32 -> user s pgdir x = true ->
    ubyte s' pgdir x = if decide (va <= x < va + n) then nthd 0 buf (Z.to_nat (x - va)) else ubyte s pgdir x;
  cp_frame : forall b, (forall x, va <= x < va + n -> user s pgdir x = true -> b <> uaddr s pgdir x) -> pm s' b = pm s b
}.

Lemma copied_refl s l pgdir va buf : vm_wf kend s l pgdir -> private s l pgdir -> copied s l pgdir va buf 0 s.
Proof. intros Hwf Hp. split; try done. intros x Hx Hu. by rewrite decide_False by lia. Qed.

(** One page of the copy. *)
Lemma copy_page s l pgdir va buf n :
  vm_wf kend s l pgdir -> private s l pgdir -> 0 <= va -> 1 <= n -> va mod PGSIZE + n <= PGSIZE -> va + n <= 2 ^ 32 ->
  (Z.to_nat n <= length buf)%nat -> user s pgdir va = true ->
  copied s l pgdir va buf n (put_page (uaddr s pgdir va) (splice (ofs va) (take (Z.to_nat n) buf) (pm s (uaddr s pgdir va))) s).
Proof.
  intros Hwf Hp H0 H1 H2 H3 Hlen Hu. pose proof Hp as [P1 P2].
  assert (Hva : 0 <= va < 2 ^ 32) by lia. destruct (P1 va Hva Hu) as (O1 & O2 & O3).
  assert (Hspl : (ofs va + length (take (Z.to_nat n) buf) <= length (pm s (uaddr s pgdir va)))%nat).
  { rewrite length_take, O2, pgsize_nat. unfold ofs. pose proof (Z.mod_pos_bound va PGSIZE ltac:(done)). unfold PGSIZE in *. lia. }
  set (p := splice _ _ _). assert (Hpl : length p = pgsize) by (unfold p; by rewrite length_splice).
  destruct (vm_wf_write s l pgdir (uaddr s pgdir va) p Hwf O1) as (Hwf' & He & Ho).
  pose proof (Z.div_mod va PGSIZE ltac:(done)) as Hdv. pose proof (Z.mod_pos_bound va PGSIZE ltac:(done)) as Hmv.
  split; [done|by apply private_write|done| |].
  - intros x Hx Hux. unfold ubyte. replace (uaddr (put_page (uaddr s pgdir va) p s) pgdir x) with (uaddr s pgdir x) by (unfold uaddr; by rewrite He).
    pose proof (Z.div_mod x PGSIZE ltac:(done)) as Hdx. pose proof (Z.mod_pos_bound x PGSIZE ltac:(done)) as Hmx.
    unfold put_page, set_pm. cbn [pm]. destruct (decide (uaddr s pgdir x = uaddr s pgdir va)) as [Heq|Hne].
    + rewrite Heq, pset_eq. pose proof (P2 x va Hx Hva Hux Hu Heq) as Hpage. unfold p.
      assert (Hl : length (take (Z.to_nat n) buf) = Z.to_nat n) by (rewrite length_take; lia).
      assert (Hox : Z.of_nat (ofs x) - Z.of_nat (ofs va) = x - va) by (unfold ofs, PGSIZE in *; lia).
      destruct (decide (va <= x < va + n)) as [Hin|Hout].
      * rewrite nthd_splice_in; [|exact Hspl|rewrite Hl; lia].
        unfold nthd. rewrite lookup_take_lt by lia. do 2 f_equal. lia.
      * rewrite nthd_splice_out; [done|exact Hspl|rewrite Hl; lia].
    + rewrite pset_ne by done. rewrite decide_False; [done|]. intros Hin. apply Hne. unfold uaddr. f_equal. f_equal.
      apply ent_page; [done|done|]. unfold PGSIZE in *. lia.
  - intros b Hb. apply pset_ne. apply Hb; [lia|done].
Qed.

Lemma copied_trans s l pgdir va buf n m s1 s2 :
  0 <= n -> 0 <= m -> (Z.to_nat n <= length buf)%nat ->
  copied s l pgdir va buf n s1 -> copied s1 l pgdir (va + n) (drop (Z.to_nat n) buf) m s2 -> copied s l pgdir va buf (n + m) s2.
Proof.
  intros Hn Hm Hl [A1 A2 A3 A4 A5] [B1 B2 B3 B4 B5].
  assert (Hu : forall x, user s1 pgdir x = user s pgdir x) by (intros x; unfold user; by rewrite A3).
  assert (Ha : forall x, uaddr s1 pgdir x = uaddr s pgdir x) by (intros x; unfold uaddr; by rewrite A3).
  split; [done|done| | |].
  - intros x. by rewrite B3, A3.
  - intros x Hx Hux. rewrite B4 by (done || by rewrite Hu). rewrite A4 by done.
    destruct (decide (va + n <= x < va + n + m)) as [H1|H1].
    + rewrite decide_True by lia. unfold nthd. rewrite lookup_drop. do 2 f_equal. lia.
    + destruct (decide (va <= x < va + n)) as [H2|H2]; [by rewrite decide_True by lia|by rewrite decide_False by lia].
  - intros b Hb. rewrite B5; [apply A5|].
    + intros x Hx. apply Hb. lia.
    + intros x Hx. rewrite Hu, Ha. apply Hb. lia.
Qed.

Lemma copyout_loop_wp l pgdir Q (E : string -> Prop) fuel :
  forall s va buf len,
  vm_wf kend s l pgdir -> private s l pgdir -> 0 <= va -> 0 <= len <= Z.of_nat fuel -> va + len <= 2 ^ 32 ->
  (Z.to_nat len <= length buf)%nat ->
  ((exists x, va <= x < va + len /\ has (word s pgdir (PDX x)) PTE_P = false) -> E "undefined: null pte"%string) ->
  (forall s', copied s l pgdir va buf len s' -> Q 0 s') ->
  (forall s' n, 0 <= n < len -> user s pgdir (va + n) = false -> copied s l pgdir va buf n s' -> Q (-1) s') ->
  wp (copyout_loop fuel pgdir va buf len) Q E s.
Proof.
  induction fuel as [|fuel IH]; intros s va buf len Hwf Hp H0 Hlen Hmax Hbuf HE HQ0 HQ1; cbn [copyout_loop].
  { apply wp_ret, HQ0. replace len with 0 by lia. by apply copied_refl. }
  destruct (0 <? len) eqn:E0; b2p; [|apply wp_ret, HQ0; replace len with 0 by lia; by apply copied_refl].
  assert (Hva : 0 <= va < 2 ^ 32) by lia. rewrite PGROUNDDOWN_first by done.
  pose proof (Z.div_mod va PGSIZE ltac:(done)) as Hdv. pose proof (Z.mod_pos_bound va PGSIZE ltac:(done)) as Hmv.
  assert (Hfp : va - first_page va = va mod PGSIZE) by (unfold first_page; lia).
  assert (Hf0 : 0 <= first_page va < 2 ^ 32) by (unfold first_page, PGSIZE in *; lia).
  assert (Hsame : first_page va / PGSIZE = va / PGSIZE) by (unfold first_page; by rewrite Z.div_mul).
  assert (Hent : ent s pgdir (first_page va) = ent s pgdir va) by (by apply ent_page).
  assert (Hu : user s pgdir (first_page va) = user s pgdir va) by (unfold user; by rewrite Hent).
  assert (Ha : uaddr s pgdir (first_page va) = uaddr s pgdir va) by (unfold uaddr; by rewrite Hent).
  rewrite Hfp. set (n := Z.min (PGSIZE - va mod PGSIZE) len). assert (Hn : 1 <= n <= len /\ va mod PGSIZE + n <= PGSIZE) by (unfold n, PGSIZE in *; lia).
  apply wp_bind. eapply uva2ka_wp; [| |exact Hwf].
  { intros Hno. apply HE. exists va. split; [lia|]. apply (same_page _ _ Hf0 Hva) in Hsame as [E1 _]. by rewrite <- E1. }
  intros l0 _. rewrite Hu, Ha. destruct (user s pgdir va) eqn:Euser.
  2:{ rewrite Z.eqb_refl. apply wp_ret. apply (HQ1 s 0); [lia|by rewrite Z.add_0_r|by apply copied_refl]. }
  destruct (pv_out _ _ _ Hp va Hva Euser) as (_ & _ & Hne). rewrite (proj2 (Z.eqb_neq _ _) Hne).
  apply wp_bind. unfold copy_in. apply wp_modify. change (Z.to_nat (va mod PGSIZE)) with (ofs va).
  pose proof (copy_page s l pgdir va buf n Hwf Hp H0 ltac:(lia) ltac:(lia) ltac:(lia) ltac:(lia) Euser) as Hc.
  set (s1 := put_page _ _ s) in *. pose proof Hc as [C1 C2 C3 C4 C5].
  assert (Hu1 : forall x, user s1 pgdir x = user s pgdir x) by (intros x; unfold user; by rewrite C3).
  destruct (decide (len = n)) as [Heq|Hlt].
  { replace (len - n) with 0 by lia. destruct fuel as [|f]; cbn [copyout_loop]; apply wp_ret, HQ0; rewrite Heq; exact Hc. }
  assert (Hnext : first_page va + PGSIZE = va + n) by (unfold n, PGSIZE in *; lia). rewrite Hnext, u32_small by lia.
  eapply (IH s1 (va + n) (drop (Z.to_nat n) buf) (len - n)); [done|done|lia|lia|lia|rewrite length_drop; lia| | |].
  - intros (x & Hx & Hno). apply HE. exists x. split; [lia|]. destruct (has (word s pgdir (PDX x)) PTE_P) eqn:Hp'; [|done]. exfalso.
    assert (Hdir : word s1 pgdir (PDX x) = word s pgdir (PDX x)).
    { apply word_ext; [eapply vm_wf_mod; exact Hwf|apply PDX_range|]. destruct (pv_out _ _ _ Hp va Hva Euser) as ((_ & Hnd & _) & _).
      apply pset_ne. congruence. }
    congruence.
  - intros s' Hc'. apply HQ0. replace len with (n + (len - n)) by lia. eapply copied_trans; [lia|lia|lia|exact Hc|exact Hc'].
  - intros s' m Hm Hno Hc'. apply (HQ1 s' (n + m)); [lia| |].
    + rewrite <- Hu1. by rewrite Z.add_assoc.
    + eapply copied_trans; [lia|lia|lia|exact Hc|exact Hc'].
Qed.

(** Copying to user memory.  [copyout] writes the bytes at the addresses
    asked for and no others: it returns 0 with the whole range written, or -1
    with the part before the first page that user code may not access; no
    page outside the user pages of the range changes, and no translation.
    Where the range has no page table at all the code reads through a null
    pointer ([uva2ka] does not test the result of the walk). *)
Theorem copyout_writes s l pgdir va buf len :
  vm_wf kend s l pgdir -> private s l pgdir -> 0 <= va -> 0 <= len -> va + len <= 2 ^ 32 -> len <= Z.of_nat (length buf) ->
  wp (copyout pgdir va buf len)
     (fun r s' => (r = 0 /\ copied s l pgdir va buf len s') \/
        (r = -1 /\ exists n, 0 <= n < len /\ user s pgdir (va + n) = false /\ copied s l pgdir va buf n s'))
     (fun m => m = "undefined: null pte"%string /\ exists x, va <= x < va + len /\ has (word s pgdir (PDX x)) PTE_P = false) s.
Proof.
  intros Hwf Hp H0 H1 H2 H3. unfold copyout. eapply copyout_loop_wp; [exact Hwf|exact Hp|done|lia|done|lia| | |].
  - intros H. split; [done|exact H].
  - intros s' H. left. done.
  - intros s' n Hn Hu Hc. right. split; [done|]. by exists n.
Qed.
End Uvm.
