(* ===== verification/Grow.v ===== *)
(** Growing and copying address spaces: [allocuvm], [setupkvm] and [copyuvm]
    of vm.c. *)
From stdpp Require Import base numbers list strings.
From Stdlib Require Import ZArith Lia.
From S2P Require Import Prelude Kalloc Vm Walk Uvm.

Local Open Scope list_scope.
Local Open Scope Z_scope.

Section Grow.
Context (kend kdata : Z).

(** Taking a page off the free list and overwriting it does not concern a
    page table; the page is then outside it. *)
Definition take_page (t : Z) (p : page) (s : kmem) : kmem := put_page t p (Kmem (pm s) (rd 4 0 (pm s t)) (use_lock s)).

Lemma kalloc_pop s t l : free_list kend s (t :: l) -> t <> 0 /\ kalloc s = Ok t (Kmem (pm s) (rd 4 0 (pm s t)) (use_lock s)).
Proof.
  intros [Hc _ _]. cbn [chain] in Hc. destruct Hc as (Hf & H0 & _). split; [done|].
  unfold kalloc, bind, gets, modify, ret, truth. by rewrite Hf, (proj2 (Z.eqb_neq _ _) H0).
Qed.

Lemma take_free s t l p : free_list kend s (t :: l) -> free_list kend (take_page t p s) l.
Proof.
  intros [Hc Hnd Hpp]. apply Forall_cons in Hpp as [_ Hpp]. apply NoDup_cons in Hnd as [Hd Hnd]. cbn [chain] in Hc.
  destruct Hc as (_ & _ & _ & Hc). split; [|done|done]. unfold take_page, put_page, set_pm. cbn [pm freelist]. by apply chain_pset.
Qed.

Lemma vm_wf_take s t l pgdir p :
  vm_wf kend s (t :: l) pgdir -> length p = pgsize ->
  vm_wf kend (take_page t p s) l pgdir /\ (forall x, ent (take_page t p s) pgdir x = ent s pgdir x) /\
  outside (take_page t p s) l pgdir t /\
  (forall b, outside s (t :: l) pgdir b -> outside (take_page t p s) l pgdir b /\ pm (take_page t p s) b = pm s b).
Proof.
  intros [Hfl (D1 & D2 & D3 & D4) Hw Ht Hi] Hl. pose proof (take_free s t l p Hfl) as Hfl'. pose proof (kpage_mod _ _ D1) as Dm.
  apply not_elem_of_cons in D3 as [D3 D3']. destruct Hfl as [_ Hnd _]. apply NoDup_cons in Hnd as [Htl _].
  assert (Hpm : forall c, c <> t -> pm (take_page t p s) c = pm s c) by (intros c Hc'; unfold take_page, put_page, set_pm; cbn [pm]; by apply pset_ne).
  assert (Hdir : forall d, 0 <= d < 1024 -> word (take_page t p s) pgdir d = word s pgdir d).
  { intros d Hd. apply word_ext; [done|done|]. by apply Hpm. }
  assert (Htab : forall d, 0 <= d < 1024 -> tab (take_page t p s) pgdir d = tab s pgdir d) by (intros d Hd; unfold tab; by rewrite Hdir).
  assert (Htt : forall d, 0 <= d < 1024 -> has (word s pgdir d) PTE_P = true -> tab s pgdir d <> t /\ tab s pgdir d ∉ l).
  { intros d Hd Hp. destruct (Ht d Hd Hp) as (_ & _ & T3 & _). by apply not_elem_of_cons in T3. }
  split_and!.
  - split; [done| | | |].
    + split_and!; [done|lia|lia|done|]. by rewrite Hpm.
    + intros d Hd. rewrite Hdir by done. by apply Hw.
    + intros d Hd. rewrite Hdir, Htab by done. intros Hp. destruct (Ht d Hd Hp) as (T1 & T2 & T3 & T4 & T5), (Htt d Hd Hp).
      split_and!; [done|lia|lia|done|done|]. by rewrite Hpm.
    + intros d d' Hd Hd'. rewrite !Hdir, !Htab by done. by apply Hi.
  - intros x. unfold ent. pose proof (PDX_range x) as Hd. rewrite Hdir, Htab by done.
    destruct (has (word s pgdir (PDX x)) PTE_P) eqn:Hp; [|done]. destruct (Ht _ Hd Hp) as (T1 & _), (Htt _ Hd Hp).
    apply word_ext; [by eapply kpage_mod|apply PTX_range|]. by apply Hpm.
  - split; [done|]. split; [congruence|]. intros d Hd. rewrite Hdir, Htab by done. intros Hp. destruct (Htt d Hd Hp). congruence.
  - intros b (B1 & B2 & B3). apply not_elem_of_cons in B1 as [B1 B1']. split; [|by apply Hpm].
    split; [done|]. split; [done|]. intros d Hd. rewrite Hdir, Htab by done. by apply B3.
Qed.

(** The entry for a page. *)
Lemma user_pte t f :
  kpage kend t -> 0 < t < 2 ^ 32 -> 0 <= f < PGSIZE ->
  P2V (PTE_ADDR (new_pte (V2P t) f)) = t /\ PTE_FLAGS (new_pte (V2P t) f) = Z.lor f PTE_P /\ has (new_pte (V2P t) f) PTE_P = true.
Proof.
  intros Hk Hr Hf. destruct (kpage_addr kend t Hk ltac:(lia)) as (Hb & Hv & HP & Hm). unfold new_pte. rewrite <- Z.lor_assoc.
  assert (Hf' : 0 <= Z.lor f PTE_P < PGSIZE) by (change PGSIZE with (2 ^ 12) in *; apply lor_range; unfold PTE_P; lia).
  destruct (mk_pte (V2P t) (Z.lor f PTE_P)) as (_ & H2 & H3); [unfold KERNBASE, PHYSTOP in *; lia|done|done|].
  rewrite H2, H3. split_and!; [done|done|]. rewrite Z.lor_assoc. apply has_lor_P, Z.lor_nonneg. unfold KERNBASE, PHYSTOP in *. lia.
Qed.

(** ** One user page added *)

Lemma cost_one s pgdir a : (cost s pgdir a 1 <= 1)%nat.
Proof.
  unfold cost. change (Z.of_nat 1 - 1) with 0. rewrite Z.mul_0_l, Z.add_0_r, Z.sub_diag. destruct (has _ _); cbn; lia.
Qed.

Lemma npages_one a : a mod PGSIZE = 0 -> npages a PGSIZE = 1%nat /\ first_page a = a.
Proof.
  intros Ha. pose proof (Z.div_mod a PGSIZE ltac:(done)) as Hd. rewrite Ha in Hd. unfold npages, first_page.
  replace ((a + PGSIZE - 1) / PGSIZE) with (a / PGSIZE) by (apply Z.div_unique with (PGSIZE - 1); unfold PGSIZE in *; lia).
  split; [lia|unfold PGSIZE in *; lia].
Qed.

(** The address space after adding the page [t], with contents [p] and flags
    [f], at [a]. *)
Record added (s : kmem) (l : list Z) (pgdir a t : Z) (p : page) (f : Z) (s' : kmem) (l' : list Z) : Prop := Added {
  ad_wf : vm_wf kend s' l' pgdir;
  ad_used : exists k, l = t :: k ++ l' /\ (length k <= 1)%nat;
  ad_ent : forall x, 0 <= x < 2 ^ 32 -> ent s' pgdir x = if decide (x / PGSIZE = a / PGSIZE) then new_pte (V2P t) f else ent s pgdir x;
  ad_page : outside s' l' pgdir t /\ pm s' t = p;
  ad_frame : forall b, outside s l pgdir b -> outside s' l' pgdir b /\ pm s' b = pm s b
}.

Lemma add_page_wp s t l pgdir a p f Q (E : string -> Prop) :
  vm_wf kend s (t :: l) pgdir -> length p = pgsize -> a mod PGSIZE = 0 -> 0 <= a -> a + PGSIZE <= 2 ^ 32 -> 0 <= f < PGSIZE ->
  has (ent s pgdir a) PTE_P = false -> (1 <= length l)%nat ->
  (forall s' l', added s (t :: l) pgdir a t p f s' l' -> Q 0 s') ->
  wp (mappages pgdir a PGSIZE (V2P t) f) Q E (take_page t p s).
Proof.
  intros Hwf Hl Ha H0 Hmax Hf Hno Hroom HQ. destruct (vm_wf_take s t l pgdir p Hwf Hl) as (Hwf1 & He1 & Ho1 & Hfr1).
  destruct (vw_free _ _ _ _ Hwf) as [_ _ Hpp]. apply Forall_cons in Hpp as [[Hk Hr] _].
  destruct (kpage_addr kend t Hk ltac:(lia)) as (Hb & Hv & _). destruct (npages_one a Ha) as [Hn1 Hfp].
  eapply (mappages_wp kend _ l); [exact Hwf1|done|unfold PGSIZE; lia|done|done|unfold KERNBASE in *; lia| | | |].
  - rewrite Hn1. unfold KERNBASE, PHYSTOP, PGSIZE in *. lia.
  - rewrite Hfp, Hn1, Z.mul_1_l. intros (x & Hx & Hp). exfalso. rewrite He1 in Hp.
    rewrite (ent_page s pgdir x a) in Hp; [congruence|lia|unfold PGSIZE in *; lia|]. by apply page_index.
  - intros s' l' [M1 (k & M2 & M2') M3 M4]. rewrite Hfp, Hn1 in *. apply (HQ s' l'). split; [done| | | |].
    + exists k. split; [by rewrite M2|]. pose proof (cost_one (take_page t p s) pgdir a). lia.
    + intros x Hx. rewrite M3, He1 by done. rewrite Z.mul_1_l. pose proof (page_index a x Ha) as Hpi.
      destruct (decide (a <= x < a + PGSIZE)) as [Hi|Hi]; [rewrite decide_True by tauto|by rewrite decide_False by tauto].
      f_equal. apply Hpi in Hi. rewrite Hi. pose proof (Z.div_mod a PGSIZE ltac:(done)). lia.
    + destruct (M4 t Ho1) as [Ho2 Hp2]. split; [done|]. rewrite Hp2. unfold take_page, put_page, set_pm. cbn [pm]. apply pset_eq.
    + intros b Hb'. destruct (Hfr1 b Hb') as [Hb1 E1]. destruct (M4 b Hb1) as [Hb2 E2]. split; [done|congruence].
  - intros s' [_ Hfew _ _]. rewrite Hfp, Hn1 in Hfew. pose proof (cost_one (take_page t p s) pgdir a). lia.
Qed.

(** ** [allocuvm] *)

(** The address space grown by [n] zeroed pages from [a]. *)
Record grown (s : kmem) (l : list Z) (pgdir a : Z) (n : nat) (s' : kmem) (l' : list Z) : Prop := Grown {
  gw_wf : vm_wf kend s' l' pgdir;
  gw_private : private s' l' pgdir;
  gw_used : exists k, l = k ++ l' /\ (length k <= 2 * n)%nat;
  gw_new : forall x, 0 <= x < 2 ^ 32 -> a <= x < a + Z.of_nat n * PGSIZE -> user s' pgdir x = true /\ ubyte s' pgdir x = 0;
  gw_old : forall x, 0 <= x < 2 ^ 32 -> ~ a <= x < a + Z.of_nat n * PGSIZE -> ent s' pgdir x = ent s pgdir x;
  gw_frame : forall b, outside s l pgdir b -> outside s' l' pgdir b /\ pm s' b = pm s b
}.

Lemma private_added s l pgdir a t p f s' l' :
  private s l pgdir -> added s l pgdir a t p f s' l' -> kpage kend t -> 0 < t < 2 ^ 32 -> 0 <= f < PGSIZE -> length p = pgsize ->
  private s' l' pgdir.
Proof.
  intros [P1 P2] [A1 (k & A2 & _) A3 (A4 & A5) A6] Hk Hr Hf Hl. destruct (user_pte t f Hk Hr Hf) as (U1 & _ & _).
  assert (Hin : t ∈ l) by (rewrite A2; by left).
  assert (Hcase : forall x, 0 <= x < 2 ^ 32 -> user s' pgdir x = true ->
    (x / PGSIZE = a / PGSIZE /\ uaddr s' pgdir x = t) \/
    (x / PGSIZE <> a / PGSIZE /\ user s pgdir x = true /\ uaddr s' pgdir x = uaddr s pgdir x /\ uaddr s pgdir x <> t)).
  { intros x Hx Hu. unfold user, uaddr in *. rewrite A3 in * by done. destruct (decide (x / PGSIZE = a / PGSIZE)); [left; done|right].
    split_and!; [done|done|done|]. destruct (P1 x Hx Hu) as ((O1 & _) & _). intros E. apply O1. unfold uaddr. by rewrite E. }
  split.
  - intros x Hx Hu. destruct (Hcase x Hx Hu) as [[_ ->]|(_ & Hu' & -> & _)].
    + split_and!; [done|by rewrite A5|lia].
    + destruct (P1 x Hx Hu') as (O1 & O2 & O3). destruct (A6 _ O1) as [O4 E]. split_and!; [done|by rewrite E|done].
  - intros x y Hx Hy Hux Huy. destruct (Hcase x Hx Hux) as [[-> ->]|(_ & Hu1 & -> & N1)], (Hcase y Hy Huy) as [[-> ->]|(_ & Hu2 & -> & N2)].
    + done.
    + congruence.
    + congruence.
    + by apply P2.
Qed.

Lemma has_WU t : kpage kend t -> 0 < t < 2 ^ 32 -> has (new_pte (V2P t) (Z.lor PTE_W PTE_U)) PTE_U = true.
Proof.
  intros Hk Hr. destruct (kpage_addr kend t Hk ltac:(lia)) as (Hb & Hv & _). unfold new_pte.
  rewrite <- (Z.lor_assoc (V2P t)), (Z.lor_comm (V2P t)). unfold has, truth. rewrite Z.land_lor_distr_l.
  apply negb_true_iff, Z.eqb_neq. intros H. apply Z.lor_eq_0_iff in H as [H _]. discriminate H.
Qed.

Lemma nthd_fill_page c k : (k < pgsize)%nat -> nthd 0 (fill_page c) k = c.
Proof.
  intros Hk. unfold nthd. Transparent fill_page. unfold fill_page. Opaque fill_page. by rewrite lookup_replicate_2.
Qed.

Lemma grown_next s l pgdir a n s1 t l1 s2 l2 :
  grown s l pgdir a n s1 (t :: l1) -> a mod PGSIZE = 0 ->
  added s1 (t :: l1) pgdir (a + Z.of_nat n * PGSIZE) t (fill_page 0) (Z.lor PTE_W PTE_U) s2 l2 ->
  grown s l pgdir a (S n) s2 l2.
Proof.
  intros [G1 G2 (k1 & G3 & G3') G4 G5 G6] Ha Hadd. pose proof Hadd as [A1 (k2 & A2 & A2') A3 (A4 & A5) A6].
  destruct (vw_free _ _ _ _ G1) as [_ _ Hpp]. apply Forall_cons in Hpp as [[Hk Hr] _].
  assert (Hf : 0 <= Z.lor PTE_W PTE_U < PGSIZE) by done. destruct (user_pte t _ Hk Hr Hf) as (U1 & _ & U3).
  assert (Ham : (a + Z.of_nat n * PGSIZE) mod PGSIZE = 0) by (by rewrite Z_mod_plus_full).
  pose proof (fun x => page_index (a + Z.of_nat n * PGSIZE) x Ham) as Hpi. split.
  - done.
  - by eapply private_added.
  - exists (k1 ++ t :: k2). injection A2 as A2. split; [rewrite G3, A2; by rewrite <- app_assoc|rewrite length_app; cbn; lia].
  - intros x Hx Hin. unfold user, ubyte, uaddr. rewrite A3 by done.
    destruct (decide (x / PGSIZE = (a + Z.of_nat n * PGSIZE) / PGSIZE)) as [Heq|Hne].
    + rewrite U3, (has_WU t Hk Hr), U1, A5. split; [done|]. apply nthd_fill_page, ofs_lt.
    + rewrite Hpi in Hne. destruct (G4 x Hx ltac:(unfold PGSIZE in *; lia)) as [Hu Hb]. split; [exact Hu|].
      destruct (pv_out _ _ _ G2 x Hx Hu) as (O1 & _). destruct (A6 _ O1) as [_ E]. fold (uaddr s1 pgdir x). by rewrite E.
  - intros x Hx Hout. rewrite A3 by done. rewrite decide_False by (rewrite Hpi; unfold PGSIZE in *; lia). apply G5; [done|unfold PGSIZE in *; lia].
  - intros b Hb. destruct (G6 b Hb) as [Hb1 E1]. destruct (A6 b Hb1) as [Hb2 E2]. split; [done|congruence].
Qed.

Lemma grown_refl s l pgdir a : vm_wf kend s l pgdir -> private s l pgdir -> grown s l pgdir a 0 s l.
Proof. intros Hwf Hp. split; try done. - by exists []. - intros x Hx H. lia. Qed.

Lemma allocuvm_wp s l pgdir oldsz newsz :
  vm_wf kend s l pgdir -> private s l pgdir -> 0 <= oldsz <= newsz -> newsz < KERNBASE ->
  (forall x, oldsz <= x < newsz + PGSIZE -> has (ent s pgdir x) PTE_P = false \/ x < PGROUNDUP oldsz) ->
  2 * ((newsz - PGROUNDUP oldsz + PGSIZE - 1) / PGSIZE) <= Z.of_nat (length l) ->
  wp (allocuvm kend pgdir oldsz newsz)
     (fun r s' => r = newsz /\ exists l',
        grown s l pgdir (PGROUNDUP oldsz) (Z.to_nat ((newsz - PGROUNDUP oldsz + PGSIZE - 1) / PGSIZE)) s' l')
     (fun _ => False) s.
Proof.
  intros Hwf Hp Hsz Hmax Hfree Hroom. unfold allocuvm. rewrite (proj2 (Z.leb_gt _ _) Hmax), (proj2 (Z.ltb_ge _ _)) by lia.
  destruct (PGROUNDUP_val oldsz) as [Ha Hr]; [lia|unfold KERNBASE, PGSIZE in *; lia|]. set (a := PGROUNDUP oldsz) in *.
  set (q := (newsz - a + PGSIZE - 1) / PGSIZE) in *. pose proof (Z.mul_div_le (newsz - a + PGSIZE - 1) PGSIZE ltac:(done)) as Hq. fold q in Hq.
  apply wp_bind. eapply (wp_for_loop _ (fun k s' => exists l', grown s l pgdir a k s' l')).
  - exists l. by apply grown_refl.
  - intros k s1 Hk (l1 & Hg). rewrite Z.add_0_l. pose proof Hg as [G1 G2 (k1 & G3 & G3') G4 G5 G6].
    assert (Hlen : (length l1 >= 2)%nat) by (apply (f_equal length) in G3; rewrite length_app in G3; lia).
    destruct l1 as [|t l2]; [cbn in Hlen; lia|]. destruct (kalloc_pop s1 t l2 (vw_free _ _ _ _ G1)) as [Ht Hka].
    apply wp_bind. eapply wp_eq; [exact Hka|]. rewrite (proj2 (Z.eqb_neq _ _) Ht). apply wp_bind. unfold zero_page. apply wp_modify.
    fold (take_page t (fill_page 0) s1). apply wp_bind.
    assert (Hx : a + Z.of_nat k * PGSIZE < newsz) by (unfold PGSIZE in *; lia).
    eapply add_page_wp; [exact G1|apply length_fill_page|by rewrite Z_mod_plus_full|unfold PGSIZE in *; lia|unfold KERNBASE, PGSIZE in *; lia|done| |cbn in Hlen; lia|].
    + rewrite G5 by (unfold KERNBASE, PGSIZE in *; lia). destruct (Hfree (a + Z.of_nat k * PGSIZE)) as [H|H]; [unfold PGSIZE in *; lia|exact H|unfold PGSIZE in *; lia].
    + intros s2 l3 Hadd. change (0 <? 0) with false. apply wp_ret. exists l3. by eapply grown_next.
  - intros s' (l' & Hg). apply wp_ret. split; [done|]. by exists l'.
Qed.

(** Growing a process.  When memory suffices (two pages per page grown:
    the page and a page table) and no address above the old size is mapped,
    [allocuvm] returns the new size; every new address is then accessible to
    the user and reads 0, so nothing leaks from earlier owners of the pages,
    every old address keeps its translation, pages outside the page table
    keep their bytes, and the user pages stay private. *)
Theorem allocuvm_grows s l pgdir oldsz newsz :
  vm_wf kend s l pgdir -> private s l pgdir -> 0 <= oldsz <= newsz -> newsz < KERNBASE ->
  (forall x, oldsz <= x < newsz + PGSIZE -> has (ent s pgdir x) PTE_P = false \/ x < PGROUNDUP oldsz) ->
  2 * ((newsz - PGROUNDUP oldsz + PGSIZE - 1) / PGSIZE) <= Z.of_nat (length l) ->
  wp (allocuvm kend pgdir oldsz newsz)
     (fun r s' => r = newsz /\ exists l',
        grown s l pgdir (PGROUNDUP oldsz) (Z.to_nat ((newsz - PGROUNDUP oldsz + PGSIZE - 1) / PGSIZE)) s' l')
     (fun _ => False) s.
Proof. apply allocuvm_wp. Qed.

(** ** [setupkvm] *)

Lemma npages_aligned va n :
  va mod PGSIZE = 0 -> 0 < n -> npages va (n * PGSIZE) = Z.to_nat n /\ first_page va = va.
Proof.
  intros Ha Hn. pose proof (Z.div_mod va PGSIZE ltac:(done)) as Hd. rewrite Ha in Hd. unfold npages, first_page.
  replace ((va + n * PGSIZE - 1) / PGSIZE) with (va / PGSIZE + n - 1) by (apply Z.div_unique with (PGSIZE - 1); unfold PGSIZE in *; lia).
  split; [f_equal; lia|unfold PGSIZE in *; lia].
Qed.

Lemma cost_bound s d a n : 0 <= a -> (1 <= n)%nat -> (cost s d a n <= 2 + Z.to_nat (Z.of_nat n * PGSIZE / 2 ^ 22))%nat.
Proof.
  intros Ha Hn. unfold cost.
  assert ((a + (Z.of_nat n - 1) * PGSIZE) / 2 ^ 22 <= a / 2 ^ 22 + 1 + Z.of_nat n * PGSIZE / 2 ^ 22).
  { pose proof (Z.div_mod a (2 ^ 22) ltac:(done)). pose proof (Z.mod_pos_bound a (2 ^ 22) ltac:(done)).
    pose proof (Z.div_mod (Z.of_nat n * PGSIZE) (2 ^ 22) ltac:(done)). pose proof (Z.mod_pos_bound (Z.of_nat n * PGSIZE) (2 ^ 22) ltac:(done)).
    apply Z.lt_succ_r. apply Z.div_lt_upper_bound; [done|]. unfold PGSIZE in *. lia. }
  assert (0 <= Z.of_nat n * PGSIZE / 2 ^ 22) by (apply Z.div_pos; [unfold PGSIZE; lia|done]).
  destruct (has _ _); lia.
Qed.

(** One entry of [kmap]: [n] pages. *)
Lemma map_one_wp s l d k ks n Q (E : string -> Prop) :
  vm_wf kend s l d -> k_virt k mod PGSIZE = 0 -> 0 <= k_virt k -> 0 < n -> u32 (k_end k - k_start k) = n * PGSIZE ->
  k_virt k + n * PGSIZE <= 2 ^ 32 -> 0 <= k_start k -> k_start k + n * PGSIZE <= 2 ^ 32 -> 0 <= k_perm k < PGSIZE ->
  (forall x, k_virt k <= x < k_virt k + n * PGSIZE -> ent s d x = 0) ->
  (2 + Z.to_nat (n * PGSIZE / 2 ^ 22) <= length l)%nat ->
  (forall s' l', mapped kend s l d (k_virt k) (k_start k) (k_perm k) (Z.to_nat n) s' l' ->
     (length l <= length l' + (2 + Z.to_nat (n * PGSIZE / 2 ^ 22)))%nat -> wp (map_all kend d ks) Q E s') ->
  wp (map_all kend d (k :: ks)) Q E s.
Proof.
  intros Hwf Ha H0 Hn Hsz Hmax Hp0 Hpmax Hperm Hno Hroom HQ. cbn [map_all]. rewrite Hsz. destruct (npages_aligned _ n Ha Hn) as [Hnp Hfp].
  pose proof (cost_bound s d (k_virt k) (Z.to_nat n) H0 ltac:(lia)) as Hc. rewrite Z2Nat.id in Hc by lia.
  apply wp_bind. eapply (mappages_wp kend s l); [exact Hwf|done|unfold PGSIZE in *; lia|done|done|done| | | |].
  - rewrite Hnp, Z2Nat.id by lia. done.
  - rewrite Hnp, Hfp, Z2Nat.id by lia. intros (x & Hx & Hp). by rewrite Hno in Hp.
  - rewrite Hnp, Hfp. intros s' l' Hm. change (0 <? 0) with false. cbv iota. apply (HQ s' l' Hm).
    destruct (mp_used _ _ _ _ _ _ _ _ _ _ Hm) as (kk & Hkk & Hlen). rewrite Hkk, length_app. lia.
  - rewrite Hnp, Hfp. intros s' Hu. pose proof (um_few _ _ _ _ _ _ _ Hu). lia.
Qed.

(** What [setupkvm] gives: the kernel's mappings and nothing below them. *)
Record kernel_map (s : kmem) (l : list Z) (d : Z) (s' : kmem) (l' : list Z) : Prop := KernelMap {
  km_wf : vm_wf kend s' l' d;
  km_used : exists k, l = d :: k ++ l' /\ (length k <= 128)%nat;
  km_user : forall x, 0 <= x < KERNBASE -> ent s' d x = 0;
  km_kern : forall x, KERNBASE <= x < KERNBASE + PHYSTOP ->
    PTE_ADDR (ent s' d x) = first_page (x - KERNBASE) /\ has (ent s' d x) PTE_P = true /\
    has (ent s' d x) PTE_U = false /\ has (ent s' d x) PTE_W = negb ((KERNLINK <=? x) && (x <? kdata));
  km_dev : forall x, DEVSPACE <= x < 2 ^ 32 ->
    PTE_ADDR (ent s' d x) = first_page x /\ has (ent s' d x) PTE_P = true /\ has (ent s' d x) PTE_U = false;
  km_none : forall x, KERNBASE + PHYSTOP <= x < DEVSPACE -> ent s' d x = 0;
  km_frame : forall b, (b ∉ l) -> outside s' l' d b /\ pm s' b = pm s b
}.

(** The flags of an entry made from a page address. *)
Lemma new_pte_flags pa f :
  0 <= pa < 2 ^ 32 -> pa mod PGSIZE = 0 -> f = 0 \/ f = PTE_W ->
  PTE_ADDR (new_pte pa f) = pa /\ has (new_pte pa f) PTE_P = true /\ has (new_pte pa f) PTE_U = false /\
  has (new_pte pa f) PTE_W = negb (f =? 0).
Proof.
  intros Hpa Hm Hf. unfold new_pte. rewrite <- Z.lor_assoc.
  assert (Hfr : 0 <= Z.lor f PTE_P < PGSIZE) by (destruct Hf as [-> | ->]; done).
  destruct (mk_pte pa (Z.lor f PTE_P) Hpa Hm Hfr) as (_ & H2 & H3).
  assert (Hlow : forall b, 0 <= b < PGSIZE -> Z.land (Z.lor pa (Z.lor f PTE_P)) b = Z.land (Z.lor f PTE_P) b).
  { intros b Hb. rewrite <- H3 at 2. unfold PTE_FLAGS. rewrite <- Z.land_assoc. f_equal. change 4095 with (Z.ones 12).
    rewrite Z.land_comm, Z.land_ones by lia. symmetry. apply Z.mod_small. done. }
  unfold has. rewrite !Hlow by done. rewrite H2. destruct Hf as [-> | ->]; done.
Qed.

Context (Hdm : kdata mod PGSIZE = 0) (Hdr : KERNLINK < kdata < KERNBASE + PHYSTOP).

Lemma first_page_sub x c : first_page (x - c * PGSIZE) = first_page x - c * PGSIZE.
Proof.
  unfold first_page. replace (x - c * PGSIZE) with (x + (- c) * PGSIZE) by lia. rewrite Z_div_plus_full by done. lia.
Qed.

(** An address [x] mapped at offset [pa - a], both page aligned. *)
Lemma kern_pte x a pa f :
  a mod PGSIZE = 0 -> pa mod PGSIZE = 0 -> 0 <= a <= x -> x < 2 ^ 32 -> 0 <= pa <= a -> f = 0 \/ f = PTE_W ->
  let e := new_pte (pa + (x / PGSIZE * PGSIZE - a)) f in
  PTE_ADDR e = first_page (x - (a - pa)) /\ has e PTE_P = true /\ has e PTE_U = false /\ has e PTE_W = negb (f =? 0).
Proof.
  intros Ha Hpa Hx Hmax Hp Hf. cbn zeta. pose proof (Z.div_mod x PGSIZE ltac:(done)). pose proof (Z.mod_pos_bound x PGSIZE ltac:(done)).
  pose proof (Z.div_mod a PGSIZE ltac:(done)) as Hda. pose proof (Z.div_mod pa PGSIZE ltac:(done)) as Hdp.
  rewrite Ha in Hda. rewrite Hpa in Hdp. assert (a / PGSIZE <= x / PGSIZE) by (apply Z.div_le_mono; [done|lia]).
  assert (Hfp : first_page (x - (a - pa)) = pa + (x / PGSIZE * PGSIZE - a)).
  { replace (a - pa) with ((a / PGSIZE - pa / PGSIZE) * PGSIZE) by lia. rewrite first_page_sub. unfold first_page. lia. }
  rewrite Hfp. apply new_pte_flags; [unfold PGSIZE in *; lia| |done].
  replace (pa + (x / PGSIZE * PGSIZE - a)) with ((pa / PGSIZE + x / PGSIZE - a / PGSIZE) * PGSIZE) by lia. by apply Z_mod_mult.
Qed.

(** The entries of [kmap] cover the kernel's address space in turn. *)
Lemma setupkvm_wp s l Q (E : string -> Prop) :
  free_list kend s l -> (129 <= length l)%nat ->
  (forall d s' l', kernel_map s l d s' l' -> d <> 0 -> Q d s') ->
  wp (setupkvm kend kdata) Q E s.
Proof.
  intros Hfl Hlen HQ. destruct l as [|d l]; [cbn in Hlen; lia|]. cbn [length] in Hlen. unfold setupkvm.
  destruct (kalloc_pop s d l Hfl) as [Hd0 Hka]. apply wp_bind. eapply wp_eq; [exact Hka|]. rewrite (proj2 (Z.eqb_neq _ _) Hd0).
  apply wp_bind. unfold zero_page. apply wp_modify. change (DEVSPACE <? P2V PHYSTOP) with false. cbv iota.
  destruct (vm_wf_new kend s d l Hfl) as (Hwf0 & He0 & Hf0). cbn zeta in *. set (s0 := put_page d _ _) in *.
  assert (Hdl : d ∉ l) by (destruct Hfl as [_ Hnd _]; by apply NoDup_cons in Hnd as [? _]).
  pose proof (Z.div_mod kdata PGSIZE ltac:(done)) as Hkq. rewrite Hdm, Z.add_0_r in Hkq.
  set (n1 := 256). set (n2 := (kdata - KERNLINK) / PGSIZE). set (n3 := (KERNBASE + PHYSTOP - kdata) / PGSIZE). set (n4 := 8192).
  assert (Hn2 : n2 * PGSIZE = kdata - KERNLINK).
  { unfold n2. rewrite Hkq. replace (PGSIZE * (kdata / PGSIZE) - KERNLINK) with ((kdata / PGSIZE - 524544) * PGSIZE) by (unfold KERNLINK, KERNBASE, EXTMEM, PGSIZE; lia).
    by rewrite Z.div_mul. }
  assert (Hn3 : n3 * PGSIZE = KERNBASE + PHYSTOP - kdata).
  { unfold n3. rewrite Hkq. replace (KERNBASE + PHYSTOP - PGSIZE * (kdata / PGSIZE)) with ((581632 - kdata / PGSIZE) * PGSIZE) by (unfold KERNBASE, PHYSTOP, PGSIZE; lia).
    by rewrite Z.div_mul. }
  assert (Hv : V2P kdata = kdata - KERNBASE) by (unfold V2P; apply u32_small; unfold KERNLINK, KERNBASE, PHYSTOP, EXTMEM in *; lia).
  assert (Hc2 : (Z.to_nat (n2 * PGSIZE / 2 ^ 22) <= 56)%nat).
  { assert (n2 * PGSIZE / 2 ^ 22 <= 56) by (apply Z.div_le_upper_bound; unfold KERNLINK, KERNBASE, PHYSTOP, EXTMEM in *; lia). lia. }
  assert (Hc3 : (Z.to_nat (n3 * PGSIZE / 2 ^ 22) <= 56)%nat).
  { assert (n3 * PGSIZE / 2 ^ 22 <= 56) by (apply Z.div_le_upper_bound; unfold KERNLINK, KERNBASE, PHYSTOP, EXTMEM in *; lia). lia. }
  assert (Hc1 : Z.to_nat (n1 * PGSIZE / 2 ^ 22) = 0%nat) by done. assert (Hc4 : Z.to_nat (n4 * PGSIZE / 2 ^ 22) = 8%nat) by done.
  assert (Hk1 : n1 * PGSIZE = EXTMEM) by done. assert (Hk4 : DEVSPACE + n4 * PGSIZE = 2 ^ 32) by done.
  unfold kmap. unfold KERNLINK, KERNBASE, PHYSTOP, EXTMEM, DEVSPACE in *.
  eapply (map_one_wp s0 l d _ _ n1); cbn [k_virt k_start k_end k_perm]; try done; try lia.
  intros s1 l1 [M1 (u1 & L1 & L1') M1e M1f] C1.
  assert (He1 : forall x, 0 <= x < 2 ^ 32 -> ~ 2147483648 <= x < 2148532224 -> ent s1 d x = 0).
  { intros x Hx Ho. rewrite M1e by done. rewrite Z2Nat.id by done. rewrite decide_False by lia. apply He0. }
  eapply (map_one_wp s1 l1 d _ _ n2); cbn [k_virt k_start k_end k_perm]; try done; try lia.
  { rewrite Hv. change (V2P (2147483648 + 1048576)) with 1048576. rewrite Hn2. rewrite u32_small; lia. }
  { change (V2P (2147483648 + 1048576)) with 1048576. lia. }
  { intros x Hx. apply He1; lia. }
  intros s2 l2 [M2 (u2 & L2 & L2') M2e M2f] C2.
  assert (He2 : forall x, 0 <= x < 2 ^ 32 -> ~ 2147483648 <= x < kdata -> ent s2 d x = 0).
  { intros x Hx Ho. rewrite M2e by done. rewrite Z2Nat.id by lia. rewrite decide_False by lia. apply He1; lia. }
  eapply (map_one_wp s2 l2 d _ _ n3); cbn [k_virt k_start k_end k_perm]; try done; try lia.
  { rewrite Hv, Hn3. rewrite u32_small; lia. }
  { intros x Hx. apply He2; lia. }
  intros s3 l3 [M3 (u3 & L3 & L3') M3e M3f] C3.
  assert (He3 : forall x, 0 <= x < 2 ^ 32 -> ~ 2147483648 <= x < 2382364672 -> ent s3 d x = 0).
  { intros x Hx Ho. rewrite M3e by done. rewrite Z2Nat.id by lia. rewrite decide_False by lia. apply He2; lia. }
  eapply (map_one_wp s3 l3 d _ _ n4); cbn [k_virt k_start k_end k_perm]; try done; try lia.
  { intros x Hx. apply He3; lia. }
  intros s4 l4 [M4 (u4 & L4 & L4') M4e M4f] C4. cbn [map_all]. apply wp_ret. apply (HQ d s4 l4); [|done].
  assert (Hkd : V2P kdata mod PGSIZE = 0) by (rewrite Hv, Zminus_mod, Hdm; done). change (V2P (2147483648 + 1048576)) with 1048576 in *.
  split.
  - exact M4.
  - exists (u1 ++ u2 ++ u3 ++ u4). subst l l1 l2 l3. split; [by rewrite <- !app_assoc|]. rewrite !length_app in *. lia.
  - intros x Hx. unfold KERNBASE in Hx. rewrite M4e by lia. rewrite decide_False by lia. apply He3; lia.
  - intros x Hx. unfold KERNLINK, EXTMEM, KERNBASE, PHYSTOP in *. rewrite M4e by lia. rewrite decide_False by lia. rewrite M3e by lia. rewrite Z2Nat.id by lia.
    destruct (decide (kdata <= x < kdata + n3 * PGSIZE)) as [H3|H3].
    { destruct (kern_pte x kdata (V2P kdata) PTE_W) as (A & B & C & D); [done|done|lia|lia|lia|by right|].
      rewrite A, B, C, D. split_and!; [f_equal; lia|done|done|]. rewrite (proj2 (Z.ltb_ge x kdata)) by lia. by rewrite andb_false_r. }
    rewrite M2e by lia. rewrite Z2Nat.id by lia. rewrite (proj2 (Z.ltb_lt x kdata)) by lia.
    destruct (decide (2147483648 + 1048576 <= x < 2147483648 + 1048576 + n2 * PGSIZE)) as [H2|H2].
    { destruct (kern_pte x (2147483648 + 1048576) 1048576 0) as (A & B & C & D); [done|done|lia|lia|lia|by left|].
      rewrite A, B, C, D. split_and!; [f_equal; lia|done|done|]. by rewrite (proj2 (Z.leb_le (2147483648 + 1048576) x)) by lia. }
    rewrite M1e by lia. rewrite Z2Nat.id by done. rewrite decide_True by lia.
    destruct (kern_pte x 2147483648 0 PTE_W) as (A & B & C & D); [done|done|lia|lia|lia|by right|].
    rewrite A, B, C, D. split_and!; [f_equal; lia|done|done|]. by rewrite (proj2 (Z.leb_gt (2147483648 + 1048576) x)) by lia.
  - intros x Hx. unfold DEVSPACE in Hx. rewrite M4e by lia. rewrite Z2Nat.id, decide_True by lia.
    destruct (kern_pte x 4261412864 4261412864 PTE_W) as (A & B & C & D); [done|done|lia|lia|lia|by right|].
    rewrite A, B, C. split_and!; [f_equal; lia|done|done].
  - intros x Hx. unfold KERNBASE, PHYSTOP, DEVSPACE in Hx. rewrite M4e, decide_False by lia. apply He3; lia.
  - intros b Hb. apply not_elem_of_cons in Hb as [Hb1 Hb2].
    assert (O0 : outside s0 l d b).
    { split; [done|]. split; [done|]. intros y Hy Hp. exfalso. pose proof (vw_word _ _ _ _ Hwf0 y Hy).
      assert (Hwz : word s0 d y = 0) by (apply word_zero; [by eapply vm_wf_mod|done|apply pset_eq]). by rewrite Hwz in Hp. }
    destruct (M1f b O0) as [O1 E1]. destruct (M2f b O1) as [O2 E2]. destruct (M3f b O2) as [O3 E3]. destruct (M4f b O3) as [O4 E4].
    split; [done|]. rewrite E4, E3, E2, E1. by apply Hf0.
Qed.

(** A new page table holds the kernel and no user memory.  With enough
    free pages for the page tables, [setupkvm] returns a page directory that
    translates every address from [KERNBASE] to the top of memory to the
    physical address [KERNBASE] below it, writable except for the kernel text,
    and the device space to itself, all of it closed to user code; nothing
    else is mapped, and pages that were not free are untouched. *)
Theorem setupkvm_maps_kernel s l :
  free_list kend s l -> (129 <= length l)%nat ->
  wp (setupkvm kend kdata) (fun d s' => d <> 0 /\ exists l', kernel_map s l d s' l') (fun _ => False) s.
Proof.
  intros Hfl Hlen. eapply setupkvm_wp; [exact Hfl|exact Hlen|]. intros d s' l' Hk Hd. split; [done|]. by exists l'.
Qed.

(** ** [copyuvm] *)

(** A page table whose pages are not written keeps its translations. *)
Lemma ent_frame s s' l p x :
  vm_wf kend s l p -> (forall b, (b ∉ l) -> pm s' b = pm s b) ->
  word s' p (PDX x) = word s p (PDX x) /\ ent s' p x = ent s p x.
Proof.
  intros [_ (D1 & _ & D3 & _) _ Ht _] Hf. pose proof (PDX_range x) as Hd.
  assert (Hw : word s' p (PDX x) = word s p (PDX x)) by (apply word_ext; [by eapply kpage_mod|done|by apply Hf]).
  split; [done|]. unfold ent, tab. rewrite Hw. destruct (has (word s p (PDX x)) PTE_P) eqn:Hp; [|done].
  destruct (Ht _ Hd Hp) as (T1 & _ & T3 & _). apply word_ext; [by eapply kpage_mod|apply PTX_range|]. by apply Hf.
Qed.

(** The child after [n] pages. *)
Record copying (s : kmem) (l : list Z) (p d : Z) (n : nat) (s' : kmem) (l' : list Z) : Prop := Copying {
  cy_wf : vm_wf kend s' l' d;
  cy_used : exists k, l = k ++ l' /\ (length k <= 129 + 2 * n)%nat;
  cy_new : forall x, 0 <= x < Z.of_nat n * PGSIZE ->
    PTE_FLAGS (ent s' d x) = Z.lor (PTE_FLAGS (ent s p x)) PTE_P /\ pm s' (uaddr s' d x) = pm s (uaddr s p x) /\
    outside s' l' d (uaddr s' d x) /\ uaddr s' d x ∈ l;
  cy_inj : forall x y, 0 <= x < Z.of_nat n * PGSIZE -> 0 <= y < Z.of_nat n * PGSIZE ->
    uaddr s' d x = uaddr s' d y -> x / PGSIZE = y / PGSIZE;
  cy_none : forall x, Z.of_nat n * PGSIZE <= x < KERNBASE -> ent s' d x = 0;
  cy_frame : forall b, (b ∉ l) -> outside s' l' d b /\ pm s' b = pm s b
}.

Lemma copying_next s l p d n s1 t l1 s2 l2 :
  copying s l p d n s1 (t :: l1) -> (Z.of_nat n + 1) * PGSIZE <= KERNBASE ->
  added s1 (t :: l1) d (Z.of_nat n * PGSIZE) t (pm s (uaddr s p (Z.of_nat n * PGSIZE))) (PTE_FLAGS (ent s p (Z.of_nat n * PGSIZE))) s2 l2 ->
  copying s l p d (S n) s2 l2.
Proof.
  intros [Y1 (k1 & Y2 & Y2') Y3 Y4 Y5 Y6] Hmax [A1 (k2 & A2 & A2') A3 (A4 & A5) A6].
  destruct (vw_free _ _ _ _ Y1) as [_ _ Hpp]. apply Forall_cons in Hpp as [[Hk Hr] _]. set (a := Z.of_nat n * PGSIZE) in *.
  assert (Ha : a mod PGSIZE = 0) by (by apply Z_mod_mult). pose proof (fun x => page_index a x Ha) as Hpi.
  assert (Ha0 : 0 <= a) by (unfold a, PGSIZE; lia). assert (HS : Z.of_nat (S n) * PGSIZE = a + PGSIZE) by (unfold a, PGSIZE; lia).
  assert (Hlim : a + PGSIZE <= KERNBASE) by (unfold a, PGSIZE in *; lia).
  assert (Htl : t ∈ l) by (rewrite Y2, elem_of_app; right; by left).
  assert (Hold : forall x, 0 <= x < a -> ent s2 d x = ent s1 d x /\ uaddr s2 d x = uaddr s1 d x).
  { intros x Hx. assert (E : ent s2 d x = ent s1 d x); [|unfold uaddr; by rewrite E].
    rewrite A3 by (unfold KERNBASE, PGSIZE in *; lia). rewrite decide_False; [done|]. rewrite Hpi. lia. }
  assert (Hfl : forall e, 0 <= PTE_FLAGS e < PGSIZE) by (intros e; rewrite PTE_FLAGS_val; by apply Z.mod_pos_bound).
  assert (Hnew : forall x, a <= x < a + PGSIZE -> ent s2 d x = new_pte (V2P t) (PTE_FLAGS (ent s p a)) /\ uaddr s2 d x = t /\ ent s p x = ent s p a).
  { intros x Hx. assert (Hpg : x / PGSIZE = a / PGSIZE) by (by apply Hpi).
    assert (E : ent s2 d x = new_pte (V2P t) (PTE_FLAGS (ent s p a))) by (rewrite A3 by (unfold KERNBASE, PGSIZE in *; lia); by rewrite decide_True).
    split_and!; [done|unfold uaddr; rewrite E; by apply (user_pte t _ Hk Hr)|]. apply ent_page; [unfold KERNBASE, PGSIZE in *; lia..|done]. }
  assert (Hnt : forall x, 0 <= x < a -> uaddr s1 d x <> t).
  { intros x Hx Heq. destruct (Y3 x Hx) as (_ & _ & (O1 & _) & _). apply O1. rewrite Heq. by left. }
  split.
  - done.
  - exists (k1 ++ t :: k2). injection A2 as A2. split; [rewrite Y2, A2; by rewrite <- app_assoc|rewrite length_app; cbn; lia].
  - rewrite HS. intros x Hx. destruct (decide (x < a)) as [Hlt|Hge].
    + destruct (Hold x ltac:(lia)) as [-> ->]. destruct (Y3 x ltac:(lia)) as (B1 & B2 & B3 & B4). destruct (A6 _ B3) as [B5 B6].
      split_and!; [done|congruence|done|done].
    + destruct (Hnew x ltac:(lia)) as (-> & -> & E). destruct (user_pte t (PTE_FLAGS (ent s p a)) Hk Hr (Hfl _)) as (_ & U2 & _).
      rewrite U2, A5, E. split_and!; [done| |done|done]. unfold uaddr. by rewrite E.
  - rewrite HS. intros x y Hx Hy. destruct (decide (x < a)) as [Hx1|Hx1], (decide (y < a)) as [Hy1|Hy1].
    + destruct (Hold x ltac:(lia)) as [_ ->], (Hold y ltac:(lia)) as [_ ->]. by apply Y4; lia.
    + destruct (Hold x ltac:(lia)) as [_ ->], (Hnew y ltac:(lia)) as (_ & -> & _). intros E. by destruct (Hnt x ltac:(lia)).
    + destruct (Hold y ltac:(lia)) as [_ ->], (Hnew x ltac:(lia)) as (_ & -> & _). intros E. by destruct (Hnt y ltac:(lia)).
    + intros _. transitivity (a / PGSIZE); [|symmetry]; apply Hpi; lia.
  - rewrite HS. intros x Hx. rewrite A3 by (unfold KERNBASE, PGSIZE in *; lia). rewrite decide_False by (rewrite Hpi; lia). apply Y5. unfold PGSIZE in *; lia.
  - intros b Hb. destruct (Y6 b Hb) as [O1 E1]. destruct (A6 b O1) as [O2 E2]. split; [done|congruence].
Qed.

Lemma copying_start s l p d s1 l1 : kernel_map s l d s1 l1 -> copying s l p d 0 s1 l1.
Proof.
  intros [K1 (k & K2 & K2') K3 _ _ _ K6]. split; [done| | | | |done].
  - exists (d :: k). split; [done|cbn; lia].
  - intros x Hx. lia.
  - intros x y Hx. lia.
  - intros x Hx. apply K3. lia.
Qed.

Lemma copyuvm_wp s l p sz :
  vm_wf kend s l p -> 0 <= sz <= KERNBASE ->
  (forall x, 0 <= x < sz + PGSIZE -> x / PGSIZE * PGSIZE < sz ->
     has (ent s p x) PTE_P = true /\ (uaddr s p x ∉ l) /\ length (pm s (uaddr s p x)) = pgsize) ->
  129 + 2 * ((sz + PGSIZE - 1) / PGSIZE) <= Z.of_nat (length l) ->
  wp (copyuvm kend kdata p sz)
     (fun d s' => d <> 0 /\ exists l', vm_wf kend s' l' d /\
        (forall x, 0 <= x < sz -> ubyte s' d x = ubyte s p x /\ PTE_FLAGS (ent s' d x) = Z.lor (PTE_FLAGS (ent s p x)) PTE_P /\
           uaddr s' d x ∈ l) /\
        (forall x y, 0 <= x < sz -> 0 <= y < sz -> uaddr s' d x = uaddr s' d y -> x / PGSIZE = y / PGSIZE) /\
        (forall x, ent s' p x = ent s p x) /\ (forall b, (b ∉ l) -> pm s' b = pm s b))
     (fun _ => False) s.
Proof.
  intros Hwf Hsz Hpres Hroom. unfold copyuvm. set (q := (sz + PGSIZE - 1) / PGSIZE) in *.
  pose proof (Z.mul_div_le (sz + PGSIZE - 1) PGSIZE ltac:(done)) as Hq. fold q in Hq.
  assert (Hq2 : sz <= q * PGSIZE).
  { pose proof (Z.div_mod (sz + PGSIZE - 1) PGSIZE ltac:(done)). pose proof (Z.mod_pos_bound (sz + PGSIZE - 1) PGSIZE ltac:(done)).
    fold q in H. unfold PGSIZE in *. lia. }
  assert (Hq0 : 0 <= q) by (apply Z.div_pos; [unfold PGSIZE; lia|done]).
  apply wp_bind. eapply setupkvm_wp; [apply Hwf|lia|]. intros d s1 l1 Hk Hd. rewrite (proj2 (Z.eqb_neq _ _) Hd).
  apply wp_bind. eapply (wp_for_loop _ (fun k s' => exists l', copying s l p d k s' l')).
  - exists l1. by apply copying_start.
  - intros k s2 Hkk (l2 & Hc). rewrite Z.add_0_l. pose proof Hc as [Y1 (k2 & Y2 & Y2') Y3 Y4 Y5 Y6]. set (a := Z.of_nat k * PGSIZE) in *.
    assert (Ha : a < sz) by (unfold a, PGSIZE in *; lia). assert (Ha0 : 0 <= a) by (unfold a, PGSIZE; lia).
    assert (Ham : a mod PGSIZE = 0) by (by apply Z_mod_mult).
    assert (Hap : a / PGSIZE * PGSIZE = a) by (pose proof (Z.div_mod a PGSIZE ltac:(done)); lia).
    destruct (Hpres a ltac:(unfold PGSIZE; lia) ltac:(lia)) as (P1 & P2 & P3).
    destruct (ent_frame s s2 l p a Hwf (fun b Hb => proj2 (Y6 b Hb))) as [Hw He].
    assert (Hpp : has (word s2 p (PDX a)) PTE_P = true).
    { rewrite Hw. unfold ent in P1. destruct (has (word s p (PDX a)) PTE_P); [done|by rewrite has_0 in P1]. }
    apply wp_bind. apply walk_wp; [intros H; congruence|]. intros _.
    assert (Htab : tab s2 p (PDX a) = tab s p (PDX a)) by (unfold tab; by rewrite Hw). rewrite Hw in Hpp.
    destruct (vw_tab _ _ _ _ Hwf _ (PDX_range a) Hpp) as (_ & T2 & _). rewrite Htab. pose proof (PTX_range a).
    rewrite (proj2 (Z.eqb_neq _ _)) by lia. apply wp_bind. eapply wp_eq; [apply ld_word|]. rewrite <- Htab.
    replace (word s2 (tab s2 p (PDX a)) (PTX a)) with (ent s p a) by (rewrite <- He; unfold ent; by rewrite Hw, Hpp).
    rewrite P1. cbn [negb].
    assert (Hlen : (length l2 >= 2)%nat) by (apply (f_equal length) in Y2; rewrite length_app in Y2; lia).
    destruct l2 as [|t l3]; [cbn in Hlen; lia|]. destruct (kalloc_pop s2 t l3 (vw_free _ _ _ _ Y1)) as [Ht Hka].
    apply wp_bind. eapply wp_eq; [exact Hka|]. rewrite (proj2 (Z.eqb_neq _ _) Ht). apply wp_bind, wp_gets. cbn [pm].
    apply wp_bind. unfold copy_in. apply wp_modify. cbn [pm].
    change (P2V (PTE_ADDR (ent s p a))) with (uaddr s p a). rewrite (proj2 (Y6 _ P2)).
    assert (Htlen : length (pm s2 t) = pgsize).
    { destruct (vw_free _ _ _ _ Y1) as [Hch _ _]. by destruct Hch as (_ & _ & ? & _). }
    rewrite splice_0_all by (by rewrite P3). fold (take_page t (pm s (uaddr s p a)) s2). apply wp_bind.
    eapply add_page_wp; [exact Y1|exact P3|exact Ham|exact Ha0|unfold KERNBASE, PGSIZE in *; lia| | |cbn in Hlen; lia|].
    + rewrite PTE_FLAGS_val. by apply Z.mod_pos_bound.
    + rewrite Y5 by (unfold KERNBASE in *; lia). apply has_0.
    + intros s3 l4 Hadd. change (0 <? 0) with false. apply wp_ret. exists l4. eapply copying_next; [exact Hc| |exact Hadd].
      assert (Z.of_nat k * PGSIZE + PGSIZE <= KERNBASE); [|unfold PGSIZE in *; lia]. fold a.
      assert (a / PGSIZE < KERNBASE / PGSIZE) by (apply Z.div_lt_upper_bound; [done|rewrite <- Z.mul_comm; change (KERNBASE / PGSIZE * PGSIZE) with KERNBASE; lia]).
      change (KERNBASE / PGSIZE) with 524288 in *. unfold KERNBASE, PGSIZE in *. lia.
  - intros s' (l' & [Y1 _ Y3 Y4 _ Y6]). apply wp_ret. change (default d None) with d. split; [done|]. exists l'. rewrite Z2Nat.id in * by done.
    split_and!; [done| | | |intros b Hb; by apply Y6].
    + intros x Hx. destruct (Y3 x ltac:(lia)) as (B1 & B2 & B3 & B4). split_and!; [|done|done]. unfold ubyte. by rewrite B2.
    + intros x y Hx Hy. apply Y4; lia.
    + intros x. by apply (ent_frame s s' l p x Hwf (fun b Hb => proj2 (Y6 b Hb))).
Qed.

(** C8: the memory of a forked child.  When every page of the parent below
    [sz] is present and the free list has room for the child, [copyuvm]
    returns a page directory through which each address below [sz] reads the
    byte the parent reads there, with the same flags, from pages that were
    free before the call, one per parent page; the parent's page table and all
    its memory, like every page that was not free, are unchanged. *)
Theorem copyuvm_copies s l p sz :
  vm_wf kend s l p -> 0 <= sz <= KERNBASE ->
  (forall x, 0 <= x < sz + PGSIZE -> x / PGSIZE * PGSIZE < sz ->
     has (ent s p x) PTE_P = true /\ (uaddr s p x ∉ l) /\ length (pm s (uaddr s p x)) = pgsize) ->
  129 + 2 * ((sz + PGSIZE - 1) / PGSIZE) <= Z.of_nat (length l) ->
  wp (copyuvm kend kdata p sz)
     (fun d s' => d <> 0 /\ exists l', vm_wf kend s' l' d /\
        (forall x, 0 <= x < sz -> ubyte s' d x = ubyte s p x /\ PTE_FLAGS (ent s' d x) = Z.lor (PTE_FLAGS (ent s p x)) PTE_P /\
           uaddr s' d x ∈ l) /\
        (forall x y, 0 <= x < sz -> 0 <= y < sz -> uaddr s' d x = uaddr s' d y -> x / PGSIZE = y / PGSIZE) /\
        (forall x, ent s' p x = ent s p x) /\ (forall b, (b ∉ l) -> pm s' b = pm s b))
     (fun _ => False) s.
Proof. exact (copyuvm_wp s l p sz). Qed.
End Grow.

(** ** A machine with 400 free pages *)

Definition smp_top : Z := smp_kend + 400 * 4096.
Definition smp_mem : kmem := match kinit1 smp_kend smp_kend smp_top smp_kmem0 with Ok _ s => s | _ => smp_kmem0 end.
Definition smp_list : list Z := reverse (range_pages smp_kend smp_top).

Lemma smp_mem_free : free_list smp_kend smp_mem smp_list.
Proof.
  pose proof (freerange_spec smp_kend ltac:(done) smp_kend smp_top ltac:(done) ltac:(done) ltac:(done) (Kmem (pm smp_kmem0) 0 0) eq_refl) as Hw.
  apply wp_total in Hw as ([] & s' & E & Hfl & _).
  assert (E' : kinit1 smp_kend smp_kend smp_top smp_kmem0 = Ok tt s') by exact E. unfold smp_mem. by rewrite E'.
Qed.

Definition smp_dir : Z := smp_kend + 399 * 4096.
Definition smp_mem1 : kmem := take_page smp_dir (fill_page 0) smp_mem.

Lemma smp_list_cons : smp_list = smp_dir :: tail smp_list /\ length smp_list = 400%nat.
Proof. vm_compute. split; reflexivity. Qed.

Lemma smp_dir_wf : vm_wf smp_kend smp_mem1 (tail smp_list) smp_dir /\ (forall x, ent smp_mem1 smp_dir x = 0).
Proof.
  pose proof smp_mem_free as H. rewrite (proj1 smp_list_cons) in H. destruct (vm_wf_new smp_kend smp_mem smp_dir (tail smp_list) H) as (H1 & H2 & _). done.
Qed.

Lemma smp_private : private smp_mem1 (tail smp_list) smp_dir.
Proof. destruct smp_dir_wf as [_ He]. split; intros x *; unfold user; by rewrite He. Qed.

Lemma smp_room : length (tail smp_list) = 399%nat.
Proof. pose proof smp_list_cons as [E H]. rewrite E in H. cbn [length] in H. lia. Qed.

Lemma setupkvm_maps_kernel_witness :
  wp (setupkvm smp_kend (KERNLINK + 40960)) (fun d s' => PTE_ADDR (ent s' d (KERNBASE + 5000)) = 4096 /\ ent s' d 5000 = 0)
     (fun _ => False) smp_mem.
Proof.
  eapply wp_conseq.
  - refine (setupkvm_maps_kernel smp_kend (KERNLINK + 40960) eq_refl _ smp_mem smp_list smp_mem_free _).
    + vm_compute. split; reflexivity.
    + rewrite (proj2 smp_list_cons). lia.
  - cbv beta. intros d s' (_ & l' & [_ _ K3 K4 _ _ _]). destruct (K4 (KERNBASE + 5000)) as [E _]; [vm_compute; split; congruence|].
    rewrite E, K3 by (vm_compute; split; congruence). split; reflexivity.
Defined.

Lemma allocuvm_grows_witness :
  wp (allocuvm smp_kend smp_dir 100 9000)
     (fun r s' => r = 9000 /\ user s' smp_dir 8999 = true /\ ubyte s' smp_dir 8999 = 0) (fun _ => False) smp_mem1.
Proof.
  destruct smp_dir_wf as [Hwf He]. eapply wp_conseq.
  - refine (allocuvm_grows smp_kend smp_mem1 (tail smp_list) smp_dir 100 9000 Hwf smp_private _ _ _ _).
    + lia.
    + reflexivity.
    + intros x _. rewrite He. left. reflexivity.
    + rewrite smp_room. vm_compute. discriminate.
  - cbv beta. intros r s' [-> (l' & G)]. split; [reflexivity|]. apply (gw_new _ _ _ _ _ _ _ _ G); [lia|]. vm_compute. split; congruence.
Defined.

(** Two pages mapped from address 0. *)
Lemma smp_grow Q :
  (forall s' l', grown smp_kend smp_mem1 (tail smp_list) smp_dir 0 2 s' l' -> Q 5000 s') ->
  wp (allocuvm smp_kend smp_dir 0 5000) Q (fun _ => False) smp_mem1.
Proof.
  intros HQ. destruct smp_dir_wf as [Hwf He]. eapply wp_conseq.
  - apply (allocuvm_wp smp_kend smp_mem1 (tail smp_list) smp_dir 0 5000 Hwf smp_private); [lia|done| |].
    + intros x _. left. by rewrite He.
    + rewrite smp_room. done.
  - cbv beta. intros r s' [-> (l' & G)]. by apply (HQ s' l').
Qed.

Lemma copyout_writes_witness :
  wp (bind (allocuvm smp_kend smp_dir 0 5000) (fun _ => copyout smp_dir 4095 [7; 8; 9] 3))
     (fun r s' => r = 0 /\ ubyte s' smp_dir 4096 = 8 /\ ubyte s' smp_dir 4098 = 0) (fun _ => False) smp_mem1.
Proof.
  apply wp_bind, smp_grow. intros s l G. pose proof G as [G1 G2 _ G4 _ _].
  assert (Hu : forall x, 0 <= x < 8192 -> user s smp_dir x = true /\ ubyte s smp_dir x = 0) by (intros x Hx; apply G4; unfold PGSIZE; lia).
  eapply wp_mono.
  - exact (copyout_writes smp_kend s l smp_dir 4095 [7; 8; 9] 3 G1 G2 ltac:(lia) ltac:(lia) ltac:(lia) ltac:(cbn; lia)).
  - cbv beta. intros r s' [[-> C]|[_ (n & Hn & Hno & _)]].
    + destruct (Hu 4096 ltac:(lia)) as [U1 _], (Hu 4098 ltac:(lia)) as [U2 E2].
      rewrite (cp_byte _ _ _ _ _ _ _ _ C 4096 ltac:(lia) U1), (cp_byte _ _ _ _ _ _ _ _ C 4098 ltac:(lia) U2). rewrite E2. split_and!; reflexivity.
    + destruct (Hu (4095 + n) ltac:(lia)) as [U _]. rewrite Hno in U. discriminate U.
  - cbv beta. intros m [_ (x & Hx & Hno)]. destruct (Hu x ltac:(lia)) as [U _]. unfold user, ent in U. rewrite Hno in U. discriminate U.
Defined.

Lemma copyuvm_copies_witness :
  wp (bind (allocuvm smp_kend smp_dir 0 5000) (fun _ => copyuvm smp_kend (KERNLINK + 40960) smp_dir 5000))
     (fun d s' => d <> 0 /\ ubyte s' d 4999 = 0) (fun _ => False) smp_mem1.
Proof.
  apply wp_bind, smp_grow. intros s l G. pose proof G as [G1 G2 (k & G3 & G3') G4 _ _].
  assert (Hu : forall x, 0 <= x < 8192 -> user s smp_dir x = true /\ ubyte s smp_dir x = 0) by (intros x Hx; apply G4; unfold PGSIZE; lia).
  eapply wp_conseq.
  - refine (copyuvm_copies smp_kend (KERNLINK + 40960) eq_refl _ s l smp_dir 5000 G1 _ _ _).
    + vm_compute. split; reflexivity.
    + unfold KERNBASE. lia.
    + intros x Hx Hpg. unfold PGSIZE in Hx. destruct (decide (x < 8192)) as [Hlt|Hge].
      * destruct (Hu x ltac:(lia)) as [U _]. destruct (pv_out _ _ _ G2 x ltac:(lia) U) as ((O1 & _) & O2 & _).
        apply andb_true_iff in U as [U _]. split_and!; [exact U|exact O1|exact O2].
      * exfalso. assert (2 <= x / PGSIZE) by (apply Z.div_le_lower_bound; unfold PGSIZE; lia). unfold PGSIZE in *. lia.
    + pose proof smp_room as Hr. rewrite G3, length_app in Hr. change ((5000 + PGSIZE - 1) / PGSIZE) with 2. lia.
  - cbv beta. intros d s' [Hd (l' & _ & Hb & _)]. split; [exact Hd|]. destruct (Hb 4999 ltac:(lia)) as [-> _]. apply Hu. lia.
Defined.
