(* ===== verification/Pipe.v ===== *)
(** Pipes, pipe.c.

    A call of [pipewrite] or [piperead] holds the pipe's lock except while it
    sleeps, so it is a sequence of atomic segments: [pipewrite_run] and
    [piperead_run] run from the entry, or from a wakeup, to the return or to
    the next [sleep], and report the channels they wake.  The system of
    processes using a pipe steps from segment to segment. *)
From stdpp Require Import base numbers list strings relations.
From Stdlib Require Import ZArith Lia.
From S2P Require Import Prelude.

Local Open Scope list_scope.
Local Open Scope Z_scope.

Definition PIPESIZE : Z := 512.
Definition psize : nat := Z.to_nat PIPESIZE.

Record pipe := Pipe {
  p_data : list Z; p_nread : Z; p_nwrite : Z; p_readopen : Z; p_writeopen : Z
}.
(** The sleep channels [&p->nread] and [&p->nwrite]. *)
Inductive chan := CRead | CWrite.
#[export] Instance chan_eq_dec : EqDecision chan.
Proof. solve_decision. Defined.

(** The pipe [pipealloc] sets up in a fresh page with contents [junk]. *)
Definition pipe_init (junk : list Z) : pipe := Pipe junk 0 0 1 1.

Definition pipe_put (b : Z) (p : pipe) : pipe :=
  Pipe (<[Z.to_nat (p_nwrite p mod PIPESIZE) := b]> (p_data p)) (p_nread p) (u32 (p_nwrite p + 1)) (p_readopen p) (p_writeopen p).
Definition pipe_get (p : pipe) : Z * pipe :=
  (nthd 0 (p_data p) (Z.to_nat (p_nread p mod PIPESIZE)),
   Pipe (p_data p) (u32 (p_nread p + 1)) (p_nwrite p) (p_readopen p) (p_writeopen p)).

Definition pfull (p : pipe) : bool := p_nwrite p =? u32 (p_nread p + PIPESIZE).
Definition pempty (p : pipe) : bool := p_nread p =? p_nwrite p.

(** ** [pipewrite] *)

Inductive wres := WRet (r : Z) | WSleep (rest : list Z).

(** [rest] are the bytes [addr[i..n)] still to write. *)
Fixpoint pipewrite_run (killed : bool) (n : Z) (p : pipe) (rest : list Z) : pipe * wres * list chan :=
  match rest with
  | [] => (p, WRet n, [CRead])
  | b :: rest' =>
      if pfull p then
        if (p_readopen p =? 0) || killed then (p, WRet (-1), [])
        else (p, WSleep rest, [CRead])
      else pipewrite_run killed n (pipe_put b p) rest'
  end.

(** ** [piperead] *)

Inductive rres := RRet (r : Z) (bytes : list Z) | RSleep.

Fixpoint read_copy (k : nat) (p : pipe) : pipe * list Z :=
  match k with
  | O => (p, [])
  | S k' => if pempty p then (p, [])
            else let '(b, p1) := pipe_get p in
                 let '(p2, bs) := read_copy k' p1 in (p2, b :: bs)
  end.
Definition piperead_run (killed : bool) (n : Z) (p : pipe) : pipe * rres * list chan :=
  if pempty p && truth (p_writeopen p) then
    if killed then (p, RRet (-1) [], []) else (p, RSleep, [])
  else
    let '(p', bs) := read_copy (Z.to_nat n) p in (p', RRet (Z.of_nat (length bs)) bs, [CWrite]).

(** ** [pipeclose]: the pipe, the channel woken, and whether the page is freed *)

Definition pipeclose (p : pipe) (writable : Z) : pipe * list chan * bool :=
  let '(p', wk) := if truth writable
                   then (Pipe (p_data p) (p_nread p) (p_nwrite p) (p_readopen p) 0, [CRead])
                   else (Pipe (p_data p) (p_nread p) (p_nwrite p) 0 (p_writeopen p), [CWrite]) in
  (p', wk, (p_readopen p' =? 0) && (p_writeopen p' =? 0)).

(** ** Processes around a pipe *)

Inductive pthread :=
| Writer (n : Z) (rest : list Z) (asleep : bool)
| Reader (n : Z) (asleep : bool)
| Finished (r : Z) (bytes : list Z).

Definition wake (wk : list chan) (t : pthread) : pthread :=
  match t with
  | Writer n rest true => Writer n rest (negb (bool_decide (CWrite ∈ wk)))
  | Reader n true => Reader n (negb (bool_decide (CRead ∈ wk)))
  | _ => t
  end.

(** [written] and [readb] are the bytes put into and taken out of the pipe. *)
Record psys := Psys { ps_pipe : pipe; ps_threads : list pthread; ps_written : list Z; ps_readb : list Z }.

(** The bytes a segment of [pipewrite] pipe_wrote: those no longer to write. *)
Definition pipe_wrote (rest : list Z) (p p' : pipe) : list Z := take (Z.to_nat (u32 (p_nwrite p' - p_nwrite p))) rest.

(** A process inside a call keeps its end of the pipe open: [fileclose]
    calls [pipeclose] when the last reference to that end goes. *)
Definition uses (writable : Z) (t : pthread) : bool :=
  match t with Writer _ _ _ => truth writable | Reader _ _ => negb (truth writable) | Finished _ _ => false end.

Inductive pstep (k : bool) : psys -> psys -> Prop :=
| PWrite p ts w r (j : nat) n rest p' res wk :
    ts !! j = Some (Writer n rest false) -> pipewrite_run k n p rest = (p', res, wk) ->
    pstep k (Psys p ts w r)
      (Psys p' (<[j := match res with WRet v => Finished v [] | WSleep rest' => Writer n rest' true end]> (wake wk <$> ts))
         (w ++ pipe_wrote rest p p') r)
| PRead p ts w r (j : nat) n p' res wk :
    ts !! j = Some (Reader n false) -> piperead_run k n p = (p', res, wk) ->
    pstep k (Psys p ts w r)
      (Psys p' (<[j := match res with RRet v bs => Finished v bs | RSleep => Reader n true end]> (wake wk <$> ts))
         w (r ++ match res with RRet _ bs => bs | RSleep => [] end))
| PCallWrite p ts w r (j : nat) v bs addr :
    ts !! j = Some (Finished v bs) -> p_writeopen p <> 0 ->
    pstep k (Psys p ts w r) (Psys p (<[j := Writer (Z.of_nat (length addr)) addr false]> ts) w r)
| PCallRead p ts w r (j : nat) v bs n :
    ts !! j = Some (Finished v bs) -> p_readopen p <> 0 ->
    pstep k (Psys p ts w r) (Psys p (<[j := Reader n false]> ts) w r)
| PClose p ts w r writable p' wk fr :
    Forall (fun t => uses writable t = false) ts -> pipeclose p writable = (p', wk, fr) ->
    pstep k (Psys p ts w r) (Psys p' (wake wk <$> ts) w r).

(** [m] processes, none of them in a call, around a new pipe. *)
Definition psys_init (junk : list Z) (m : nat) : psys := Psys (pipe_init junk) (replicate m (Finished 0 [])) [] [].

(** A step of a process that has been killed, or of one that has not. *)
Definition pstep_any (x y : psys) : Prop := exists k, pstep k x y.

(** ** The pipe is a bounded queue *)

(** The pipe holds the bytes [q]. *)
Record holds (p : pipe) (q : list Z) : Prop := Holds {
  hd_len : length (p_data p) = psize;
  hd_nread : 0 <= p_nread p < 2 ^ 32;
  hd_nwrite : p_nwrite p = u32 (p_nread p + Z.of_nat (length q));
  hd_cap : (length q <= psize)%nat;
  hd_data : forall i x, q !! i = Some x -> p_data p !! Z.to_nat ((p_nread p + Z.of_nat i) mod PIPESIZE) = Some x
}.

Lemma psize_nat : psize = 512%nat.
Proof. done. Qed.

Lemma u32_mod_pipe z : u32 z mod PIPESIZE = z mod PIPESIZE.
Proof.
  unfold u32. change (2 ^ 32) with (PIPESIZE * 2 ^ 23). rewrite Z.rem_mul_r by done.
  rewrite (Z.mul_comm PIPESIZE (_ mod _)), Z_mod_plus_full. apply Zmod_mod.
Qed.

Lemma holds_count p q : holds p q -> pempty p = bool_decide (q = []) /\ pfull p = bool_decide (length q = psize).
Proof.
  intros [H1 H2 H3 H4 H5]. rewrite psize_nat in H4. unfold pempty, pfull. rewrite H3.
  assert (Hinj : forall a b, 0 <= a <= 512 -> 0 <= b <= 512 -> u32 (p_nread p + a) = u32 (p_nread p + b) -> a = b).
  { intros a b Ha Hb E. unfold u32 in E.
    assert (Hd : (p_nread p + a - (p_nread p + b)) mod 2 ^ 32 = 0) by (rewrite Zminus_mod, E, Z.sub_diag; done).
    apply Z.mod_divide in Hd as [c Hc]; [|done]. lia. }
  split; apply eq_true_iff_eq; rewrite Z.eqb_eq, bool_decide_eq_true.
  - rewrite <- (Z.add_0_r (p_nread p)) at 1. rewrite <- (u32_small (p_nread p + 0)) at 1 by lia. split.
    + intros E. apply Hinj in E; [|lia|lia]. destruct q; [done|cbn in E; lia].
    + intros ->. done.
  - rewrite psize_nat. split; [intros E; apply Hinj in E; unfold PIPESIZE in *; lia|intros ->; done].
Qed.

Lemma mod_inj_512 n i j : 0 <= i < 512 -> 0 <= j < 512 -> (n + i) mod PIPESIZE = (n + j) mod PIPESIZE -> i = j.
Proof.
  intros Hi Hj E. unfold PIPESIZE in E.
  assert (Hd : (n + i - (n + j)) mod 512 = 0) by (rewrite Zminus_mod, E, Z.sub_diag; done).
  apply Z.mod_divide in Hd as [c Hc]; [|done]. lia.
Qed.

Lemma holds_put p q b : holds p q -> (length q < psize)%nat -> holds (pipe_put b p) (q ++ [b]).
Proof.
  intros [H1 H2 H3 H4 H5] Hlt. rewrite psize_nat in *.
  assert (Hidx : p_nwrite p mod PIPESIZE = (p_nread p + Z.of_nat (length q)) mod PIPESIZE) by (rewrite H3; apply u32_mod_pipe).
  pose proof (fun z => Z.mod_pos_bound z PIPESIZE ltac:(done)) as Hmb.
  split; unfold pipe_put; cbn [p_data p_nread p_nwrite].
  - by rewrite length_insert.
  - done.
  - rewrite H3, u32_add_l, length_app. cbn [length]. f_equal. lia.
  - rewrite length_app, psize_nat. cbn. lia.
  - intros i x Hi. rewrite Hidx. destruct (decide (i < length q)%nat) as [Hl|Hl].
    + rewrite lookup_app_l in Hi by done. rewrite list_lookup_insert_ne; [by apply H5|].
      intros E. assert (Z.of_nat (length q) = Z.of_nat i); [|lia]. apply (mod_inj_512 (p_nread p)); [lia|lia|].
      pose proof (Hmb (p_nread p + Z.of_nat (length q))). pose proof (Hmb (p_nread p + Z.of_nat i)). lia.
    + rewrite lookup_app_r in Hi by lia. destruct (i - length q)%nat eqn:Ei; [|done]. injection Hi as ->.
      replace i with (length q) by lia. apply list_lookup_insert_eq. rewrite H1.
      pose proof (Hmb (p_nread p + Z.of_nat (length q))). unfold PIPESIZE in *. lia.
Qed.

Lemma holds_get p b q : holds p (b :: q) -> exists p', pipe_get p = (b, p') /\ holds p' q /\ p_readopen p' = p_readopen p /\
  p_writeopen p' = p_writeopen p.
Proof.
  intros [H1 H2 H3 H4 H5]. pose proof (H5 0%nat b eq_refl) as H0. rewrite Z.add_0_r in H0. unfold pipe_get.
  rewrite (nthd_lookup _ _ _ _ H0). eexists. split; [done|]. split; [|done]. cbn [length] in *.
  split; cbn [p_data p_nread p_nwrite]; [done|apply u32_range| |lia|].
  - rewrite H3, u32_add_l. f_equal. lia.
  - intros i x Hi. pose proof (H5 (S i) x Hi) as Hs. rewrite <- Hs. do 2 f_equal. rewrite <- u32_mod_pipe, u32_add_l, u32_mod_pipe. f_equal. lia.
Qed.

(** ** The segments on the queue *)

Definition same_ends (p p' : pipe) : Prop := p_readopen p' = p_readopen p /\ p_writeopen p' = p_writeopen p.

(** What a segment of [pipewrite] does to the queue: it appends the bytes [bs]
    up to the point where the bytes are all written, or the pipe is full. *)
Lemma pipewrite_run_spec killed n rest : forall p q p' res wk,
  holds p q -> pipewrite_run killed n p rest = (p', res, wk) ->
  exists bs rest', rest = bs ++ rest' /\ holds p' (q ++ bs) /\ same_ends p p' /\
    match res with
    | WRet r => (rest' = [] /\ r = n /\ wk = [CRead]) \/
                (rest' <> [] /\ r = -1 /\ wk = [] /\ (length (q ++ bs) = psize)%nat /\ (p_readopen p = 0 \/ killed = true))
    | WSleep rs => rs = rest' /\ rest' <> [] /\ wk = [CRead] /\ (length (q ++ bs) = psize)%nat /\ p_readopen p <> 0 /\ killed = false
    end.
Proof.
  induction rest as [|b rest IH]; intros p q p' res wk Hp; cbn [pipewrite_run].
  - intros [= <- <- <-]. exists [], []. rewrite (app_nil_r q). split; [done|]. split; [done|]. split; [done|]. by left.
  - destruct (holds_count _ _ Hp) as [_ ->]. case_bool_decide as Hfull.
    + destruct (p_readopen p =? 0) eqn:Ho; [apply Z.eqb_eq in Ho|apply Z.eqb_neq in Ho; destruct killed]; cbn [orb]; intros [= <- <- <-];
        exists [], (b :: rest); rewrite (app_nil_r q); (split; [done|]); (split; [done|]); (split; [done|]); [right|right|];
        repeat (split; [done|]); auto.
    + intros Hrun. assert (Hlt : (length q < psize)%nat) by (pose proof (hd_cap _ _ Hp); lia).
      destruct (IH _ _ _ _ _ (holds_put p q b Hp Hlt) Hrun) as (bs & rest' & -> & Hh & Hs & Hres).
      exists (b :: bs), rest'. rewrite <- app_assoc in Hh, Hres. done.
Qed.

Lemma read_copy_spec k : forall p q p' bs, holds p q -> read_copy k p = (p', bs) ->
  bs = take k q /\ holds p' (drop k q) /\ same_ends p p'.
Proof.
  induction k as [|k IH]; intros p q p' bs Hp; cbn [read_copy].
  - intros [= <- <-]. rewrite take_0, drop_0. done.
  - destruct (holds_count _ _ Hp) as [-> _]. case_bool_decide as Hq; [subst q; intros [= <- <-]; done|].
    destruct q as [|b q]; [done|]. destruct (holds_get _ _ _ Hp) as (p1 & -> & Hp1 & Ho1 & Ho2).
    destruct (read_copy k p1) as [p2 bs2] eqn:Er. intros [= <- <-]. destruct (IH _ _ _ _ Hp1 Er) as (-> & Hh & Hs1 & Hs2).
    cbn [take drop]. split; [done|]. split; [done|]. split; congruence.
Qed.

(** What a segment of [piperead] does: it takes the first [n] bytes, or as
    many as there are; it sleeps only on an empty pipe with a writer. *)
Lemma piperead_run_spec killed n p q p' res wk :
  holds p q -> piperead_run killed n p = (p', res, wk) ->
  same_ends p p' /\
  match res with
  | RRet r bs =>
      (killed = true /\ r = -1 /\ bs = [] /\ wk = [] /\ q = [] /\ holds p' q) \/
      (r = Z.of_nat (length bs) /\ bs = take (Z.to_nat n) q /\ wk = [CWrite] /\ holds p' (drop (Z.to_nat n) q) /\
       (q <> [] \/ p_writeopen p = 0))
  | RSleep => q = [] /\ wk = [] /\ p_writeopen p <> 0 /\ killed = false /\ holds p' q
  end.
Proof.
  intros Hp. unfold piperead_run, truth. destruct (holds_count _ _ Hp) as [-> _].
  case_bool_decide as Hq; [destruct (p_writeopen p =? 0) eqn:Ew|]; cbn [negb andb].
  2: { apply Z.eqb_neq in Ew. destruct killed; intros [= <- <- <-]; (split; [done|]); naive_solver. }
  all: destruct (read_copy (Z.to_nat n) p) as [p2 bs] eqn:Er; intros [= <- <- <-];
    destruct (read_copy_spec _ _ _ _ _ Hp Er) as (-> & Hh & Hs); (split; [done|]); right; try apply Z.eqb_eq in Ew; naive_solver.
Qed.

(** Bytes that fit are written at once, and bytes that are there are read at once. *)
Lemma pipewrite_run_all killed n p q bs :
  holds p q -> (length q + length bs <= psize)%nat ->
  exists p', pipewrite_run killed n p bs = (p', WRet n, [CRead]) /\ holds p' (q ++ bs) /\ same_ends p p'.
Proof.
  intros Hp Hl. destruct (pipewrite_run killed n p bs) as [[p' res] wk] eqn:E.
  destruct (pipewrite_run_spec _ _ _ _ _ _ _ _ Hp E) as (b1 & b2 & -> & Hh & Hs & Hres). rewrite !length_app in *.
  assert (Hb2 : b2 <> [] -> (0 < length b2)%nat) by (destruct b2; [done|cbn; lia]).
  destruct res; [destruct Hres as [(-> & -> & ->)|(Hne & _ & _ & Hfull & _)]|destruct Hres as (_ & Hne & _ & Hfull & _)];
    [exists p'; by rewrite app_nil_r|specialize (Hb2 Hne); lia|specialize (Hb2 Hne); lia].
Qed.

Lemma piperead_run_all killed n p q :
  holds p q -> q <> [] -> Z.of_nat (length q) <= n ->
  exists p', piperead_run killed n p = (p', RRet (Z.of_nat (length q)) q, [CWrite]) /\ holds p' [] /\ same_ends p p'.
Proof.
  intros Hp Hne Hn. destruct (piperead_run killed n p) as [[p' res] wk] eqn:E.
  destruct (piperead_run_spec _ _ _ _ _ _ _ Hp E) as [Hs Hres].
  destruct res as [r bs|]; [destruct Hres as [(_ & _ & _ & _ & ? & _)|(-> & -> & -> & Hh & _)]|by destruct Hres]; [done|].
  rewrite take_ge in * by lia. rewrite drop_ge in Hh by lia. by exists p'.
Qed.

Lemma pipeclose_spec p w p' wk fr : pipeclose p w = (p', wk, fr) ->
  (forall q, holds p q -> holds p' q) /\
  ((w <> 0 /\ p_writeopen p' = 0 /\ p_readopen p' = p_readopen p /\ wk = [CRead]) \/
   (w = 0 /\ p_readopen p' = 0 /\ p_writeopen p' = p_writeopen p /\ wk = [CWrite])) /\
  fr = bool_decide (p_readopen p' = 0 /\ p_writeopen p' = 0).
Proof.
  unfold pipeclose, truth. assert (Hb : forall a b : Z, (a =? 0) && (b =? 0) = bool_decide (a = 0 /\ b = 0)).
  { intros a b. apply eq_true_iff_eq. rewrite bool_decide_eq_true, andb_true_iff, !Z.eqb_eq. done. }
  destruct (w =? 0) eqn:E; cbn [negb]; intros [= <- <- <-]; [apply Z.eqb_eq in E|apply Z.eqb_neq in E];
    (split; [by intros q []|]); (split; [(by left) || (by right)|]); cbn [p_readopen p_writeopen];
    rewrite <- Hb; cbn; by rewrite ?andb_true_r.
Qed.

(** ** The system of processes *)

(** The bytes in the pipe are those written and not yet read. *)
Definition fifo (y : psys) : Prop := exists q, holds (ps_pipe y) q /\ ps_written y = ps_readb y ++ q.

Lemma pipe_wrote_spec p p' q bs rest : holds p q -> holds p' (q ++ bs) -> p_nread p' = p_nread p -> pipe_wrote (bs ++ rest) p p' = bs.
Proof.
  intros [H1 H2 H3 H4 H5] [K1 K2 K3 K4 K5] E. unfold pipe_wrote. rewrite psize_nat, length_app in *.
  assert (Hu : u32 (p_nwrite p' - p_nwrite p) = Z.of_nat (length bs)).
  { rewrite K3, H3, E. unfold u32. rewrite <- Zminus_mod. rewrite Z.mod_small; lia. }
  rewrite Hu, Nat2Z.id, take_app_length. done.
Qed.

Lemma pipewrite_run_nread killed n rest : forall p p' res wk, pipewrite_run killed n p rest = (p', res, wk) -> p_nread p' = p_nread p.
Proof.
  induction rest as [|b rest IH]; intros p p' res wk; cbn [pipewrite_run]; [by intros [= <- <- <-]|].
  destruct (pfull p); [destruct (_ || _); by intros [= <- <- <-]|]. intros H. by rewrite (IH _ _ _ _ H).
Qed.

Lemma fifo_step x y : pstep_any x y -> fifo x -> fifo y.
Proof.
  intros [k Hst] (q & Hq & Hw).
  destruct Hst as [p ts w r j n rest p' res wk _ Hrun|p ts w r j n p' res wk _ Hrun| | |p ts w r c p' wk fr _ Hc];
    cbn [ps_pipe ps_written ps_readb] in *; unfold fifo; cbn [ps_pipe ps_written ps_readb]; [| |by eauto|by eauto|].
  - pose proof (pipewrite_run_nread _ _ _ _ _ _ _ Hrun) as Hn. destruct (pipewrite_run_spec _ _ _ _ _ _ _ _ Hq Hrun) as (bs & rest' & -> & Hh & _).
    exists (q ++ bs). split; [done|]. rewrite (pipe_wrote_spec p p' q) by done. by rewrite Hw, app_assoc.
  - destruct (piperead_run_spec _ _ _ _ _ _ _ Hq Hrun) as [_ Hres]. destruct res as [v bs|].
    + destruct Hres as [(_ & _ & -> & _ & _ & Hh)|(_ & -> & _ & Hh & _)]; [exists q; by rewrite app_nil_r|].
      exists (drop (Z.to_nat n) q). split; [done|]. by rewrite <- app_assoc, take_drop.
    + exists q. rewrite app_nil_r. destruct Hres as (_ & _ & _ & _ & ?). done.
  - destruct (pipeclose_spec _ _ _ _ _ Hc) as [Hh _]. eauto.
Qed.

(** A process in a call has its end open, and a process asleep waits for
    something that has not happened. *)
Definition thread_ok (p : pipe) (t : pthread) : Prop :=
  match t with
  | Writer _ rest a => p_writeopen p <> 0 /\ (a = true -> rest <> [] /\ pfull p = true /\ p_readopen p <> 0)
  | Reader _ a => p_readopen p <> 0 /\ (a = true -> pempty p = true /\ p_writeopen p <> 0)
  | Finished _ _ => True
  end.
Definition awake_ok (y : psys) : Prop := Forall (thread_ok (ps_pipe y)) (ps_threads y).

(** A segment that does not change the ends, and that leaves the condition of
    the sleepers on a channel true or wakes them, keeps them waiting rightly. *)
Lemma awake_segment ts (p p' : pipe) wk (j : nat) t w r w' r' :
  awake_ok (Psys p ts w r) -> same_ends p p' ->
  (CWrite ∈ wk \/ (pfull p = true -> pfull p' = true)) ->
  (CRead ∈ wk \/ (p_readopen p <> 0 -> pempty p = true -> pempty p' = true)) ->
  thread_ok p' t -> awake_ok (Psys p' (<[j := t]> (wake wk <$> ts)) w' r').
Proof.
  unfold awake_ok. cbn [ps_pipe ps_threads]. intros Hts [E1 E2] Hw Hr Ht. apply Forall_insert; [|done]. apply Forall_fmap.
  eapply Forall_impl; [exact Hts|]. intros u Hu. unfold compose. destruct u as [n rest [|]|n [|]|]; cbn [wake thread_ok] in *;
    rewrite ?E1, ?E2; try done; try (destruct Hu as [? _]; by split).
  - destruct Hu as [Ho Hu]. destruct (Hu eq_refl) as (H1 & H2 & H3). split; [done|]. case_bool_decide; [done|]. intros _.
    split; [done|]. split; [|done]. by destruct Hw as [?|Hw]; [|apply Hw].
  - destruct Hu as [Ho Hu]. destruct (Hu eq_refl) as (H1 & H2). split; [done|]. case_bool_decide; [done|]. intros _.
    split; [|done]. by destruct Hr as [?|Hr]; [|apply Hr].
Qed.

Lemma full_after p q p' bs : holds p q -> holds p' (q ++ bs) -> pfull p = true -> pfull p' = true.
Proof.
  intros H H'. destruct (holds_count _ _ H) as [_ ->], (holds_count _ _ H') as [_ ->]. rewrite !bool_decide_eq_true.
  pose proof (hd_cap _ _ H'). rewrite length_app in *. lia.
Qed.

Lemma holds_full p q : holds p q -> (length q = psize)%nat -> pfull p = true.
Proof. intros H E. destruct (holds_count _ _ H) as [_ ->]. by rewrite bool_decide_eq_true. Qed.
Lemma holds_empty p : holds p [] -> pempty p = true.
Proof. intros H. by destruct (holds_count _ _ H) as [-> _]. Qed.

Lemma alive_step x y : pstep false x y -> fifo x -> awake_ok x -> awake_ok y.
Proof.
  intros Hst (q & Hq & _) Ha.
  destruct Hst as [p ts w r j n rest p' res wk Hj Hrun|p ts w r j n p' res wk Hj Hrun|p ts w r j v bs addr Hj Ho|p ts w r j v bs n Hj Ho|p ts w r c p' wk fr Huse Hc];
    cbn [ps_pipe] in Hq.
  - destruct (pipewrite_run_spec _ _ _ _ _ _ _ _ Hq Hrun) as (bs & rest' & -> & Hh & [Ho1 Ho2] & Hres).
    pose proof (Forall_lookup_1 _ _ _ _ Ha Hj) as [Hwo _]. cbn [ps_pipe] in Hwo. pose proof (full_after _ _ _ _ Hq Hh).
    eapply awake_segment; [exact Ha|done|by right| |].
    + destruct res; [destruct Hres as [(_ & _ & ->)|(_ & _ & _ & _ & [?|?])]; [by left; left|by right|done]|].
      destruct Hres as (_ & _ & -> & _). by left; left.
    + destruct res as [v|rs]; [done|]. destruct Hres as (-> & Hne & _ & Hl & Hro & _). cbn [thread_ok]. rewrite Ho1, Ho2.
      split; [done|]. intros _. split; [done|]. split; [by eapply holds_full|done].
  - destruct (piperead_run_spec _ _ _ _ _ _ _ Hq Hrun) as [[Ho1 Ho2] Hres].
    pose proof (Forall_lookup_1 _ _ _ _ Ha Hj) as [Hro _]. cbn [ps_pipe] in Hro.
    destruct res as [v bs|].
    + destruct Hres as [(? & _)|(-> & -> & -> & Hh & _)]; [done|]. eapply awake_segment; [exact Ha|done|by left; left| |done].
      right. intros _ He. destruct (holds_count _ _ Hq) as [He' _]. rewrite He' in He. apply bool_decide_eq_true in He as ->.
      rewrite drop_nil in Hh. by apply holds_empty.
    + destruct Hres as (-> & -> & Hwo & _ & Hh). assert (p' = p) as -> by (unfold piperead_run in Hrun; by repeat case_match; simplify_eq).
      eapply awake_segment; [exact Ha|done|by right|by right|]. cbn. split; [done|]. intros _. split; [by apply holds_empty|done].
  - unfold awake_ok in *. cbn [ps_pipe ps_threads] in *. apply Forall_insert; [done|]. by split.
  - unfold awake_ok in *. cbn [ps_pipe ps_threads] in *. apply Forall_insert; [done|]. by split.
  - destruct (pipeclose_spec _ _ _ _ _ Hc) as (Hh & Hcase & _). specialize (Hh _ Hq). unfold awake_ok in *. cbn [ps_pipe ps_threads] in *.
    destruct (holds_count _ _ Hh) as [He' Hf'], (holds_count _ _ Hq) as [He Hf]. rewrite <- He in He'. rewrite <- Hf in Hf'.
    apply Forall_fmap. unfold compose. rewrite Forall_forall in *. intros t Ht. specialize (Ha t Ht). specialize (Huse t Ht).
    assert (Htr : truth c = negb (c =? 0)) by done.
    destruct Hcase as [(Hc0 & E1 & E2 & ->)|(Hc0 & E1 & E2 & ->)];
      [apply Z.eqb_neq in Hc0|apply Z.eqb_eq in Hc0]; rewrite Hc0 in Htr; cbn in Htr;
      destruct t as [n rest [|]|n [|]|]; cbn [wake thread_ok uses] in *; rewrite ?Htr in Huse; try done;
      rewrite ?E1, ?E2, ?He', ?Hf'; try done; try (destruct Ha as [? _]; by split).
Qed.

Lemma psys_init_ok junk m : length junk = psize -> fifo (psys_init junk m) /\ awake_ok (psys_init junk m).
Proof.
  intros Hl. split.
  - exists []. split; [|done]. split; cbn; [done|lia|done|lia|by intros []].
  - unfold awake_ok. apply Forall_replicate. done.
Qed.

(** C6: a pipe is a bounded first-in first-out queue. However the calls of
    [pipewrite], [piperead] and [pipeclose] of any number of processes are
    interleaved, killed processes included, and however often the counters
    wrap around, the bytes the readers got are, in order, those the writers
    put in, except the at most [PIPESIZE] bytes the buffer holds; and the
    buffer holds exactly those. *)
Theorem pipe_fifo junk m y (Hjunk : length junk = psize) (Hreach : rtc pstep_any (psys_init junk m) y) :
  exists q, holds (ps_pipe y) q /\ (length q <= psize)%nat /\ ps_written y = ps_readb y ++ q.
Proof.
  assert (Hf : fifo y).
  { revert Hreach. generalize (proj1 (psys_init_ok junk m Hjunk)). generalize (psys_init junk m).
    intros x Hx Hr. induction Hr as [|x z y Hst _ IH]; [done|]. apply IH. by apply (fifo_step x z). }
  destruct Hf as (q & Hq & Hw). exists q. split; [done|]. split; [apply (hd_cap _ _ Hq)|done].
Qed.

(** No wakeup is lost between processes that are not killed. A writer is
    asleep only while the pipe is full and its read end open, a reader only
    while the pipe is empty and its write end open; so readers and writers
    are never asleep at the same time. *)
Theorem pipe_wakeups junk m y (Hjunk : length junk = psize) (Hreach : rtc (pstep false) (psys_init junk m) y) :
  (forall n rest, Writer n rest true ∈ ps_threads y -> pfull (ps_pipe y) = true /\ p_readopen (ps_pipe y) <> 0) /\
  (forall n, Reader n true ∈ ps_threads y -> pempty (ps_pipe y) = true /\ p_writeopen (ps_pipe y) <> 0) /\
  ~ (exists n rest m, Writer n rest true ∈ ps_threads y /\ Reader m true ∈ ps_threads y).
Proof.
  assert (Hf : fifo y /\ awake_ok y).
  { revert Hreach. generalize (psys_init_ok junk m Hjunk). generalize (psys_init junk m).
    intros x Hx Hr. induction Hr as [|x z y Hst _ IH]; [done|]. destruct Hx as [Hx1 Hx2]. apply IH. split;
      [apply (fifo_step x z); [by exists false|done]|by apply (alive_step x z)]. }
  destruct Hf as [(q & Hq & _) Ha]. unfold awake_ok in Ha. rewrite Forall_forall in Ha.
  assert (HW : forall n rest, Writer n rest true ∈ ps_threads y -> pfull (ps_pipe y) = true /\ p_readopen (ps_pipe y) <> 0).
  { intros n rest Hin. destruct (Ha _ Hin) as [_ H]. by destruct (H eq_refl) as (_ & ? & ?). }
  assert (HR : forall n, Reader n true ∈ ps_threads y -> pempty (ps_pipe y) = true /\ p_writeopen (ps_pipe y) <> 0).
  { intros n Hin. destruct (Ha _ Hin) as [_ H]. by apply H. }
  split; [done|]. split; [done|]. intros (n & rest & k & H1 & H2). destruct (HW _ _ H1) as [Hf _], (HR _ H2) as [He _].
  destruct (holds_count _ _ Hq) as [E1 E2]. rewrite E1, bool_decide_eq_true in He. subst q. by rewrite E2 in Hf.
Qed.

(** A reader that waits, and a writer with one byte more than the pipe holds. *)
Definition smp_waiting : psys :=
  Psys (pipe_init (replicate psize 0)) [Reader 1 true; Writer 513 (replicate 513 7) false] [] [].
Definition smp_stranded : psys :=
  Psys (Pipe (replicate 512 7) 0 512 1 1) [Reader 1 true; Finished (-1) []] (replicate 512 7) [].

Lemma smp_pipe_steps : rtc (pstep false) (psys_init (replicate psize 0) 2) smp_waiting.
Proof.
  eapply rtc_l; [by apply (PCallRead false _ _ _ _ 0%nat 0 [] 1)|].
  eapply rtc_l; [by apply (PCallWrite false _ _ _ _ 1%nat 0 [] (replicate 513 7))|].
  apply rtc_once. by apply (PRead false (pipe_init (replicate psize 0)) [Reader 1 false; Writer 513 (replicate 513 7) false] [] [] 0%nat 1 _ RSleep []).
Qed.

Lemma smp_stranded_step : pstep true smp_waiting smp_stranded.
Proof.
  pose proof (PWrite true (pipe_init (replicate psize 0)) [Reader 1 true; Writer 513 (replicate 513 7) false] [] [] 1%nat 513
    (replicate 513 7) (Pipe (replicate 512 7) 0 512 1 1) (WRet (-1)) [] eq_refl ltac:(by vm_compute)) as H.
  match type of H with pstep _ _ ?y => replace y with smp_stranded in H by by vm_compute end. exact H.
Qed.

Lemma smp_stranded_reach : rtc pstep_any (psys_init (replicate psize 0) 2) smp_stranded.
Proof.
  transitivity smp_waiting; [|by apply rtc_once; exists true; apply smp_stranded_step].
  eapply rtc_subrel, smp_pipe_steps. intros x y H. by exists false.
Qed.

(** The wakeup of a killed writer is lost. When a killed process finds
    the pipe full, [pipewrite] returns -1 without waking the readers of the
    bytes it has put in: a reader that went to sleep on the empty pipe stays
    asleep although the pipe is full. *)
Theorem pipe_killed_writer_strands_reader :
  exists y n, rtc pstep_any (psys_init (replicate psize 0) 2) y /\ Reader n true ∈ ps_threads y /\ pfull (ps_pipe y) = true /\
    Forall (fun t => match t with Writer _ _ _ => False | _ => True end) (ps_threads y).
Proof.
  exists smp_stranded, 1. split; [|split; [by left|split; [done|by repeat constructor]]].
  apply smp_stranded_reach.
Qed.

Lemma pipe_fifo_witness : exists q, holds (ps_pipe smp_stranded) q /\ (length q <= psize)%nat /\
  ps_written smp_stranded = ps_readb smp_stranded ++ q.
Proof. apply (pipe_fifo (replicate psize 0) 2); [done|apply smp_stranded_reach]. Defined.

Lemma pipe_wakeups_witness : pempty (ps_pipe smp_waiting) = true /\ p_writeopen (ps_pipe smp_waiting) <> 0.
Proof.
  apply (proj1 (proj2 (pipe_wakeups (replicate psize 0) 2 smp_waiting eq_refl smp_pipe_steps)) 1). by left.
Defined.
