(* ===== verification/File.v ===== *)
(** Open files, file.c and the allocation of pipes in pipe.c, over the file
    system, the pipes and the page allocator.

    A [struct file *] is an index into [ftab]; a [struct pipe *] is the
    address of the page the pipe lives in, and [pipes] gives the pipe at each
    such address.  A call that would sleep in a pipe is [Blocked]; how such a
    call goes on is the matter of Pipe.v.  The channels woken are recorded. *)
From stdpp Require Import base numbers list strings gmap.
From Stdlib Require Import ZArith Lia.
From S2P Require Import Prelude Params CString Namecache Bio Log Store Fs Balloc Inode Content Writei Sample Kalloc Walk Grow Pipe.

Local Open Scope list_scope.
Local Open Scope Z_scope.

Inductive fdtype := FD_NONE | FD_PIPE | FD_INODE.
Record file := File {
  f_type : fdtype; f_ref : Z; f_readable : Z; f_writable : Z; f_pipe : Z; f_ip : nat; f_off : Z
}.
Definition file0 : file := File FD_NONE 0 0 0 0 0 0.

(** [x_killed] is [myproc()->killed]. *)
Record files (S : Type) := Files {
  x_fs : fs S; ftab : list file; pipes : gmap Z pipe; x_mem : kmem; x_killed : Z; woken : list (Z * chan)
}.
Arguments Files {S}.
Arguments x_fs {S}.
Arguments ftab {S}.
Arguments pipes {S}.
Arguments x_mem {S}.
Arguments x_killed {S}.
Arguments woken {S}.

Definition nfile : nat := Z.to_nat NFILE.

Definition set_fref (r : Z) (f : file) : file :=
  File (f_type f) r (f_readable f) (f_writable f) (f_pipe f) (f_ip f) (f_off f).
Definition set_fnone (f : file) : file :=
  File FD_NONE 0 (f_readable f) (f_writable f) (f_pipe f) (f_ip f) (f_off f).
Definition set_foff (o : Z) (f : file) : file :=
  File (f_type f) (f_ref f) (f_readable f) (f_writable f) (f_pipe f) (f_ip f) o.
Definition set_fpipe (rd wr p : Z) (f : file) : file :=
  File FD_PIPE (f_ref f) rd wr p (f_ip f) (f_off f).

Section Code.
Context {S : Type} `{!BlockStore S}.
Context (dev_read : Z -> option (nat -> Z -> M (fs S) (Z * list Z))).
Context (dev_write : Z -> option (nat -> list Z -> Z -> M (fs S) Z)).
(** The end of the kernel image, for [kfree]. *)
Context (kend : Z).
Local Open Scope kernel_scope.
Abbreviation X := (M (files S)).

Definition fio {A} (m : M (fs S) A) : X A :=
  zoom x_fs (fun y s => Files y (ftab s) (pipes s) (x_mem s) (x_killed s) (woken s)) m.
Definition mio {A} (m : M kmem A) : X A :=
  zoom x_mem (fun k s => Files (x_fs s) (ftab s) (pipes s) k (x_killed s) (woken s)) m.
Definition getf (f : nat) : X file := gets (fun s => nthd file0 (ftab s) f).
Definition updf (f : nat) (h : file -> file) : X unit :=
  modify (fun s => Files (x_fs s) (alter h f (ftab s)) (pipes s) (x_mem s) (x_killed s) (woken s)).
Definition getpipe (p : Z) : X pipe := gets (fun s => default (pipe_init []) (pipes s !! p)).
Definition setpipe (p : Z) (x : pipe) : X unit :=
  modify (fun s => Files (x_fs s) (ftab s) (<[p := x]> (pipes s)) (x_mem s) (x_killed s) (woken s)).
Definition wakeups (p : Z) (wk : list chan) : X unit :=
  modify (fun s => Files (x_fs s) (ftab s) (pipes s) (x_mem s) (x_killed s) (woken s ++ (pair p <$> wk))).

Definition begin_op : X unit := fio (sio bs_begin_op).
Definition end_op : X unit := fio (sio bs_end_op).

Definition filealloc : X (option nat) :=
  fs ← gets ftab;
  match find_idx (fun f => f_ref f =? 0) fs with
  | Some f => updf f (set_fref 1);; ret (Some f)
  | None => ret None
  end.

Definition filedup (f : nat) : X nat :=
  x ← getf f;
  if f_ref x <? 1 then panic "filedup"
  else updf f (set_fref (i32 (f_ref x + 1)));; ret f.

(** [pipeclose(ff.pipe, ff.writable)] on the pipe at [p]. *)
Definition close_pipe (p writable : Z) : X unit :=
  x ← getpipe p;
  let '(x', wk, free) := pipeclose x writable in
  setpipe p x';; wakeups p wk;;
  if free : bool then mio (kfree kend p) else ret tt.

Definition fileclose (f : nat) : X unit :=
  x ← getf f;
  if f_ref x <? 1 then panic "fileclose"
  else
    updf f (set_fref (i32 (f_ref x - 1)));;
    if 0 <? i32 (f_ref x - 1) then ret tt
    else
      ff ← getf f;
      updf f set_fnone;;
      match f_type ff with
      | FD_PIPE => close_pipe (f_pipe ff) (f_writable ff)
      | FD_INODE => begin_op;; fio (iput (f_ip ff));; end_op
      | FD_NONE => ret tt
      end.

(** The [struct stat] is [None] when nothing is stored. *)
Definition filestat (f : nat) : X (Z * option stat) :=
  x ← getf f;
  match f_type x with
  | FD_INODE =>
      fio (ilock (f_ip x));;
      st ← fio (stati (f_ip x));
      fio (iunlock (f_ip x));;
      ret (0, Some st)
  | _ => ret (-1, None)
  end.

Definition fileread (f : nat) (n : Z) : X (Z * list Z) :=
  x ← getf f;
  if f_readable x =? 0 then ret (-1, [])
  else match f_type x with
  | FD_PIPE =>
      p ← getpipe (f_pipe x);
      k ← gets x_killed;
      let '(p', res, wk) := piperead_run (truth k) n p in
      setpipe (f_pipe x) p';; wakeups (f_pipe x) wk;;
      match res with RRet r bs => ret (r, bs) | RSleep => blocked "piperead" end
  | FD_INODE =>
      fio (ilock (f_ip x));;
      rb ← fio (readi dev_read (f_ip x) (f_off x) (u32 n));
      (if 0 <? fst rb then updf f (set_foff (u32 (f_off x + fst rb))) else ret tt);;
      fio (iunlock (f_ip x));;
      ret rb
  | FD_NONE => panic "fileread"
  end.

(** [((MAXOPBLOCKS-1-1-2) / 2) * 512] *)
Definition max_write : Z := (MAXOPBLOCKS - 1 - 1 - 2) / 2 * 512.

(** The loop of [filewrite]; [fuel] bounds the number of chunks, which is at
    most the number of bytes. *)
Fixpoint filewrite_loop (fuel : nat) (f : nat) (addr : list Z) (n i : Z) : X Z :=
  match fuel with
  | O => ret i
  | Datatypes.S fuel' =>
      if i <? n then
        let n1 := if max_write <? n - i then max_write else n - i in
        begin_op;;
        x ← getf f;
        fio (ilock (f_ip x));;
        r ← fio (writei dev_write (f_ip x) (drop (Z.to_nat i) addr) (f_off x) (u32 n1));
        (if 0 <? r then updf f (set_foff (u32 (f_off x + r))) else ret tt);;
        fio (iunlock (f_ip x));;
        end_op;;
        if r <? 0 then ret i
        else if negb (r =? n1) then panic "short filewrite"
        else filewrite_loop fuel' f addr n (i + r)
      else ret i
  end.

Definition filewrite (f : nat) (addr : list Z) (n : Z) : X Z :=
  x ← getf f;
  if f_writable x =? 0 then ret (-1)
  else match f_type x with
  | FD_PIPE =>
      p ← getpipe (f_pipe x);
      k ← gets x_killed;
      let '(p', res, wk) := pipewrite_run (truth k) n p (take (Z.to_nat n) addr) in
      setpipe (f_pipe x) p';; wakeups (f_pipe x) wk;;
      match res with WRet r => ret r | WSleep _ => blocked "pipewrite" end
  | FD_INODE =>
      i ← filewrite_loop (Z.to_nat n) f addr n 0;
      ret (if i =? n then n else -1)
  | FD_NONE => panic "filewrite"
  end.

(** [sizeof(struct spinlock)], the offset of [data] in [struct pipe]. *)
Definition SPINLOCKSIZE : nat := 52.

(** The [bad:] label of [pipealloc]; [p] is still 0 there. *)
Definition pipealloc_bad (f0 f1 : option nat) : X (option (nat * nat)) :=
  (match f0 with Some f => fileclose f | None => ret tt end);;
  (match f1 with Some f => fileclose f | None => ret tt end);;
  ret None.

(** [Some (f0, f1)] for the result 0, [None] for -1. *)
Definition pipealloc : X (option (nat * nat)) :=
  f0 ← filealloc;
  match f0 with
  | None => pipealloc_bad None None
  | Some a =>
      f1 ← filealloc;
      match f1 with
      | None => pipealloc_bad f0 None
      | Some b =>
          p ← mio kalloc;
          if p =? 0 then pipealloc_bad f0 f1
          else
            pg ← gets (fun s => pm (x_mem s) p);
            setpipe p (pipe_init (take psize (drop SPINLOCKSIZE pg)));;
            updf a (set_fpipe 1 0 p);;
            updf b (set_fpipe 0 1 p);;
            ret (Some (a, b))
      end
  end.
End Code.

(** ** Writing to a file *)

Section WriteFile.
Context {S : Type} `{!BlockStore S}.
Context (dev_write : Z -> option (nat -> list Z -> Z -> M (fs S) Z)).
Context (g : geo) (sb : superblock) (Hly : layout g sb).

Lemma wp_fio {A} (m : M (fs S) A) Q E y ft ps k kl w :
  wp m (fun a y' => Q a (Files y' ft ps k kl w)) E y -> wp (fio m) Q E (Files y ft ps k kl w).
Proof. intros H. by apply (wp_zoom x_fs). Qed.

Lemma wp_getf {B} (f : nat) x (h : file -> M (files S) B) Q E y ft ps k kl w :
  ft !! f = Some x -> wp (h x) Q E (Files y ft ps k kl w) -> wp (bind (getf f) h) Q E (Files y ft ps k kl w).
Proof. intros Hf Hw. apply wp_bind, wp_gets. cbn [ftab]. by rewrite (nthd_lookup _ _ _ _ Hf). Qed.

Lemma alter_insert_file h (f : nat) (ft : list file) x : ft !! f = Some x -> alter h f ft = <[f := h x]> ft.
Proof.
  intros Hx. apply list_eq. intros k. destruct (decide (k = f)) as [->|Hne].
  - rewrite list_lookup_alter_eq, Hx, list_lookup_insert_eq; [done|]. by eapply lookup_lt_Some.
  - by rewrite list_lookup_alter_ne, list_lookup_insert_ne.
Qed.

Lemma wp_updf (f : nat) x h Q E y ft ps k kl w :
  ft !! f = Some x -> Q tt (Files y (<[f := h x]> ft) ps k kl w) -> wp (@updf S f h) Q E (Files y ft ps k kl w).
Proof.
  intros Hf HQ. apply wp_modify. cbn [x_fs ftab pipes x_mem x_killed woken].
  replace (alter h f ft) with (<[f := h x]> ft); [done|]. symmetry. by apply alter_insert_file.
Qed.

Lemma wp_begin_op {B} (h : unit -> M (files S) B) Q E v t ic nc me ft ps k kl w :
  store g v [] [] false t -> (forall t', store g v [] [] true t' -> wp (h tt) Q E (Files (Fs t' sb ic nc me) ft ps k kl w)) ->
  wp (bind File.begin_op h) Q E (Files (Fs t sb ic nc me) ft ps k kl w).
Proof.
  intros Ht HQ. destruct (begin_op_law g v t Ht) as (t1 & E1 & Ht1). apply wp_bind, wp_fio, (wp_zoom store_st).
  unfold wp at 1. cbn [store_st]. rewrite E1. by apply HQ.
Qed.

Lemma wp_end_op {B} (h : unit -> M (files S) B) Q E v L t ic nc me ft ps k kl w :
  store g v L [] true t -> (forall t', store g v [] [] false t' -> wp (h tt) Q E (Files (Fs t' sb ic nc me) ft ps k kl w)) ->
  wp (bind File.end_op h) Q E (Files (Fs t sb ic nc me) ft ps k kl w).
Proof.
  intros Ht HQ. destruct (end_op_law g v L t Ht) as (t1 & E1 & Ht1). apply wp_bind, wp_fio, (wp_zoom store_st).
  unfold wp at 1. cbn [store_st]. rewrite E1. by apply HQ.
Qed.

Lemma iunlock_wp Q E t (ic : list inode) nc me (ip : nat) i :
  ic !! ip = Some i -> i_lock i = Sleeplock 1 (c_pid me) -> 1 <= i_ref i ->
  Q tt (Fs t sb (<[ip := set_ilock (Sleeplock 0 0) i]> ic) nc me) -> wp (@iunlock S ip) Q E (Fs t sb ic nc me).
Proof.
  intros Hi Hl Hr HQ. unfold iunlock. eapply wp_geti; [exact Hi|]. apply wp_bind, wp_gets. cbn [cur].
  rewrite Hl. unfold holdingsleep. cbn [sl_locked sl_pid truth]. rewrite Z.eqb_refl. cbn.
  rewrite (proj2 (Z.ltb_ge _ _)) by done. eapply wp_updi; [exact Hi|]. done.
Qed.

Lemma wp_getpipe {B} p q (h : pipe -> M (files S) B) Q E y ft ps k kl w :
  ps !! p = Some q -> wp (h q) Q E (Files y ft ps k kl w) -> wp (bind (getpipe p) h) Q E (Files y ft ps k kl w).
Proof. intros Hp Hw. apply wp_bind, wp_gets. cbn [pipes]. by rewrite Hp. Qed.

Lemma file_wf_lock v i lk : file_wf sb v i -> file_wf sb v (set_ilock lk i).
Proof. intros [A1 A2 A3 [] [B1 B2 B3] A6 A7]. split; [done|done|done|by split|by split|done|done]. Qed.

Lemma wrote_file_lock v i off src n v' i' lk :
  wrote_file sb v (set_ilock lk i) off src n v' i' -> wrote_file sb v i off src n v' (set_ilock (i_lock i) i').
Proof.
  intros [A1 A2 A3 A4 A5 A6]. split; [by apply file_wf_lock|done|exact A3| |exact A5|exact A6].
  rewrite A4. done.
Qed.

Lemma wrote_file_size v i off src n v' i' :
  0 <= off <= i_size i -> 0 <= n <= Z.of_nat (length src) -> wrote_file sb v i off src n v' i' ->
  file_wf sb v i -> i_size i' = Z.max (i_size i) (off + n).
Proof.
  intros Ho Hn [F _ C _ _ _] Hf. pose proof (fw_file _ _ _ F) as [Hs _]. pose proof (fw_file _ _ _ Hf) as [Hs0 _].
  apply (f_equal length) in C. unfold overwrite in C. rewrite !length_app, !length_take, length_drop, !length_content in C. lia.
Qed.

(** A chunk covers at most two blocks: with the bitmap block, the inode block
    and the indirect block a transaction of [filewrite] logs at most five. *)
Lemma nblk_chunk off n : 0 <= off -> 0 <= n <= max_write -> (nblk off n <= 2)%nat.
Proof.
  intros Ho [H0 H1]. unfold nblk. case_decide; [|lia]. change max_write with 1536 in *. unfold BSIZE.
  enough ((off + n - 1) / 4096 - off / 4096 <= 1) by lia.
  pose proof (Z.mod_pos_bound off 4096 ltac:(lia)). pose proof (Z.div_mod off 4096 ltac:(lia)).
  assert ((off + n - 1) / 4096 < off / 4096 + 2); [|lia]. apply Z.div_lt_upper_bound; lia.
Qed.

Definition chunk_writes (i : inode) : list Z :=
  [sb_bmapstart sb; IBLOCK (i_inum i) sb] ++ (if decide (ind i = 0) then [] else [ind i]).

Lemma chunk_budget i off n : 5 < geo_nlog g - 1 -> 0 <= off -> 0 <= n <= max_write -> budget g sb (chunk_writes i) i [] (nblk off n).
Proof.
  intros Hg Ho Hn. pose proof (nblk_chunk off n Ho Hn). unfold budget, chunk_writes. split; [set_solver|].
  assert (Hm : forall W, (miss W [] <= length W)%nat) by (intros W; unfold miss; apply length_filter).
  destruct (decide (ind i = 0)) as [E|E]; [left|right].
  - split; [done|]. unfold fits. pose proof (Hm [sb_bmapstart sb; IBLOCK (i_inum i) sb]). cbn [app length] in *. lia.
  - split; [done|]. split; [set_solver|]. unfold fits. pose proof (Hm ([sb_bmapstart sb; IBLOCK (i_inum i) sb] ++ [ind i])).
    cbn [app length] in *. lia.
Qed.

Section Loop.
Context (v0 : Z -> block) (i0 : inode) (off n : Z) (addr : list Z) (f ip : nat) (x : file) (ic : list inode) (ft : list file).
Context (nc : namecache) (me : cred) (ps : gmap Z pipe) (km : kmem) (kl : Z) (wk : list (Z * chan)).
Context (Hf : file_wf sb v0 i0) (Hm0 : meta_marked sb v0) (Hoff : 0 <= off <= i_size i0) (Hn : 0 <= n <= Z.of_nat (length addr)).
Context (Hmax : off + n <= MAXFILE * BSIZE) (Hlog : 5 < geo_nlog g - 1).
Context (Hlk : i_lock i0 = Sleeplock 0 0) (Hval : i_valid i0 = 1) (Href : 1 <= i_ref i0).
Context (Hip : (ip < length ic)%nat) (Hft : (f < length ft)%nat) (Hfip : f_ip x = ip).

Lemma filewrite_loop_wp fuel Q (E : string -> Prop) : forall i v t ii,
  (Z.to_nat (n - i) <= fuel)%nat -> 0 <= i <= n -> wrote_file sb v0 i0 off addr i v ii -> store g v [] [] false t ->
  E "balloc: out of blocks"%string ->
  (forall v' t' i', wrote_file sb v0 i0 off addr n v' i' -> store g v' [] [] false t' ->
     Q n (Files (Fs t' sb (<[ip := i']> ic) nc me) (<[f := set_foff (off + n) x]> ft) ps km kl wk)) ->
  wp (filewrite_loop dev_write fuel f addr n i) Q E
     (Files (Fs t sb (<[ip := ii]> ic) nc me) (<[f := set_foff (off + i) x]> ft) ps km kl wk).
Proof.
  induction fuel as [|fuel IH]; intros i v t ii Hfu Hi Hwr Ht HE HQ; cbn [filewrite_loop].
  { assert (i = n) as -> by lia. apply wp_ret. by apply (HQ v t). }
  destruct (i <? n) eqn:Ei; b2p; [|assert (i = n) as -> by lia; apply wp_ret; by apply (HQ v t)].
  set (n1 := if max_write <? n - i then max_write else n - i).
  assert (Hn1 : 0 < n1 <= max_write /\ n1 <= n - i).
  { unfold n1. destruct (max_write <? n - i) eqn:E1; b2p; change max_write with 1536 in *; lia. }
  assert (Hsz : i_size ii = Z.max (i_size i0) (off + i)) by (eapply wrote_file_size; [exact Hoff| |exact Hwr|exact Hf]; lia).
  pose proof Hwr as [Hf1 Hm1 _ Hsame _ _]. pose proof Hf1 as [Hdev Hinum _ _ _ _ _].
  assert (Hl : i_lock ii = Sleeplock 0 0) by (by rewrite Hsame).
  assert (Hv : i_valid ii = 1) by (by rewrite Hsame). assert (Hr : 1 <= i_ref ii) by (by rewrite Hsame).
  eapply wp_begin_op; [exact Ht|]. intros t1 Ht1. eapply wp_getf; [by apply list_lookup_insert_eq|]. cbn [f_ip f_off set_foff]. rewrite Hfip.
  apply wp_bind, wp_fio. eapply (ilock_wp g v []); [exact Hly|exact Ht1|by apply list_lookup_insert_eq|exact Hdev|exact Hinum|exact Hr|exact Hl|
    apply not_elem_of_nil|done|by rewrite Hv|]. intros t2 _ Ht2. unfold loaded. rewrite Hv. cbn [Z.eqb].
  rewrite list_insert_insert_eq. apply wp_bind, wp_fio. rewrite u32_small by (change max_write with 1536 in *; lia).
  eapply (writei_wp dev_write g sb Hly v (chunk_writes ii) [] 0); [exact Ht2|by apply list_lookup_insert_eq|by apply file_wf_lock|exact Hm1|
    cbn; lia|rewrite length_drop; lia|lia|rewrite Nat.add_0_r; by apply (chunk_budget (set_ilock _ ii)); lia|unfold chunk_writes; set_solver|exact HE|].

  intros t3 v3 j L3 W3 Ht3 Hwr3 _ _. rewrite list_insert_insert_eq. rewrite (proj2 (Z.ltb_lt 0 n1)) by lia.
  apply wp_bind. eapply wp_updf; [by apply list_lookup_insert_eq|]. rewrite list_insert_insert_eq.
  assert (Hj : j = set_size (i_size j) (set_addrs (i_addrs j) (set_ilock (Sleeplock 1 (c_pid me)) ii))) by apply Hwr3.
  apply wp_bind, wp_fio. eapply iunlock_wp; [by apply list_lookup_insert_eq|by rewrite Hj|by rewrite Hj|].
  rewrite list_insert_insert_eq. eapply wp_end_op; [exact Ht3|]. intros t4 Ht4.
  rewrite (proj2 (Z.ltb_ge n1 0)), Z.eqb_refl by lia. cbn [negb].
  change (set_foff (u32 (off + i + n1)) (set_foff (off + i) x)) with (set_foff (u32 (off + i + n1)) x).
  change (MAXFILE * BSIZE) with 4243456 in *.
  rewrite u32_small by lia. rewrite <- Z.add_assoc. apply (IH (i + n1) v3); [lia|lia| |exact Ht4|exact HE|exact HQ].
  apply wrote_file_lock in Hwr3. rewrite Hl in Hwr3. eapply wrote_file_trans; [exact Hoff|lia|lia|lia|exact Hwr|exact Hwr3].
Qed.
End Loop.

(** Writing to an open file.  [filewrite] of [n] bytes splits the write
    into transactions of at most [max_write] bytes, none of which can exceed
    the log as long as the log has seven blocks; it returns [n], the offset
    advances by [n], and the file holds the bytes: it is the old file
    overwritten at the offset of the [struct file].  No transaction is left
    open, the inode is unlocked again, other files and inodes are unchanged,
    and the only failure is a full disk. *)
Theorem filewrite_writes v t (ic : list inode) nc me ft ps km kl wk (f : nat) x (ip : nat) i addr n :
  ft !! f = Some x -> f_type x = FD_INODE -> f_writable x <> 0 -> f_ip x = ip -> ic !! ip = Some i ->
  i_lock i = Sleeplock 0 0 -> i_valid i = 1 -> 1 <= i_ref i ->
  store g v [] [] false t -> file_wf sb v i -> meta_marked sb v -> 5 < geo_nlog g - 1 ->
  0 <= f_off x <= i_size i -> 0 <= n <= Z.of_nat (length addr) -> f_off x + n <= MAXFILE * BSIZE ->
  wp (filewrite dev_write f addr n)
     (fun r s' => r = n /\ exists v' t' i',
        s' = Files (Fs t' sb (<[ip := i']> ic) nc me) (<[f := set_foff (f_off x + n) x]> ft) ps km kl wk /\
        store g v' [] [] false t' /\ wrote_file sb v i (f_off x) addr n v' i')
     (fun m => m = "balloc: out of blocks"%string)
     (Files (Fs t sb ic nc me) ft ps km kl wk).
Proof.
  intros Hx Hty Hw Hip Hi Hlk Hval Href Ht Hf Hm Hlog Hoff Hn Hmax. unfold filewrite. eapply wp_getf; [exact Hx|].
  rewrite (proj2 (Z.eqb_neq _ _) Hw), Hty. apply wp_bind.
  assert (Eft : ft = <[f := set_foff (f_off x + 0) x]> ft) by (rewrite Z.add_0_r, list_insert_id; [done|by destruct x]).
  assert (Eic : ic = <[ip := i]> ic) by (by rewrite list_insert_id). rewrite Eft at 1. rewrite Eic at 1.
  eapply (filewrite_loop_wp v i (f_off x) n addr f ip x ic ft nc me ps km kl wk); try done.
  - by eapply lookup_lt_Some.
  - by eapply lookup_lt_Some.
  - lia.
  - lia.
  - apply wrote_file_nil; [done|done|lia].
  - intros v' t' i' Hwr Ht'. apply wp_ret. rewrite Z.eqb_refl. split; [done|]. by exists v', t', i'.
Qed.
End WriteFile.

(** ** The life of a pipe *)

Section PipeLife.
Context {S : Type} `{!BlockStore S}.
Context (dev_read : Z -> option (nat -> Z -> M (fs S) (Z * list Z))).
Context (dev_write : Z -> option (nat -> list Z -> Z -> M (fs S) Z)).
Context (kend : Z).
Local Open Scope kernel_scope.

Lemma filealloc_wp Q E (y : fs S) ft ps k kl w (c : nat) xc :
  ft !! c = Some xc -> f_ref xc = 0 ->
  (forall a x, ft !! a = Some x -> f_ref x = 0 -> Q (Some a) (Files y (<[a := set_fref 1 x]> ft) ps k kl w)) ->
  wp filealloc Q E (Files y ft ps k kl w).
Proof.
  intros Hc Hr HQ. unfold filealloc. apply wp_bind, wp_gets. cbn [ftab].
  destruct (find_idx_is_Some (fun f => f_ref f =? 0) ft c xc Hc (proj2 (Z.eqb_eq _ _) Hr)) as [a Ha]. rewrite Ha.
  apply find_idx_Some in Ha as [(x & Hx & H0) _]. apply Z.eqb_eq in H0.
  apply wp_bind. eapply wp_updf; [exact Hx|]. apply wp_ret. by apply HQ.
Qed.

(** The last reference to an end of a pipe. *)
Lemma fileclose_pipe_wp Q E (y : fs S) ft ps k kl w (f : nat) x p q q' wk free k' :
  ft !! f = Some x -> f_ref x = 1 -> f_type x = FD_PIPE -> f_pipe x = p -> ps !! p = Some q ->
  pipeclose q (f_writable x) = (q', wk, free) -> (if free then kfree kend p k = Ok tt k' else k' = k) ->
  Q tt (Files y (<[f := set_fnone x]> ft) (<[p := q']> ps) k' kl (w ++ (pair p <$> wk))) ->
  wp (fileclose kend f) Q E (Files y ft ps k kl w).
Proof.
  intros Hf Hr Hty Hp Hq Hc Hk HQ. unfold fileclose. eapply wp_getf; [exact Hf|]. rewrite Hr. change (1 <? 1) with false.
  change (i32 (1 - 1)) with 0. cbn [Z.ltb Z.compare]. apply wp_bind. eapply wp_updf; [exact Hf|]. pose proof (lookup_lt_Some _ _ _ Hf).
  eapply wp_getf; [by apply list_lookup_insert_eq|]. cbn [f_type set_fref f_pipe f_writable]. rewrite Hty, Hp.
  apply wp_bind. eapply wp_updf; [by apply list_lookup_insert_eq|]. rewrite list_insert_insert_eq. unfold close_pipe.
  eapply wp_getpipe; [exact Hq|]. rewrite Hc. apply wp_bind, wp_modify, wp_bind, wp_modify. destruct free.
  - apply (wp_zoom x_mem). unfold wp. cbn [x_mem]. by rewrite Hk.
  - subst k'. by apply wp_ret.
Qed.

(** A new pipe: its page, its two ends, and what it does to the file table. *)
Lemma pipealloc_wp Q E (y : fs S) ft ps km l p kl wk (c d : nat) xc xd :
  ft !! c = Some xc -> ft !! d = Some xd -> c <> d -> f_ref xc = 0 -> f_ref xd = 0 -> free_list kend km (p :: l) ->
  (forall a b xa xb km1 q, ft !! a = Some xa -> f_ref xa = 0 -> ft !! b = Some xb -> f_ref xb = 0 -> a <> b ->
     free_list kend km1 l -> holds q [] -> p_readopen q = 1 -> p_writeopen q = 1 ->
     Q (Some (a, b)) (Files y (<[b := set_fpipe 0 1 p (set_fref 1 xb)]> (<[a := set_fpipe 1 0 p (set_fref 1 xa)]> ft))
                        (<[p := q]> ps) km1 kl wk)) ->
  wp (pipealloc kend) Q E (Files y ft ps km kl wk).
Proof.
  intros Hc Hd Hcd Rc Rd Hfl HQ. unfold pipealloc. apply wp_bind. eapply filealloc_wp; [exact Hc|exact Rc|].
  intros a xa Ha Ra. assert (Hsec : exists e xe, <[a := set_fref 1 xa]> ft !! e = Some xe /\ f_ref xe = 0).
  { destruct (decide (a = c)) as [->|Hne]; [exists d, xd|exists c, xc]; rewrite list_lookup_insert_ne; done. }
  destruct Hsec as (e & xe & He & Re). apply wp_bind. eapply filealloc_wp; [exact He|exact Re|]. intros b xb Hb Rb.
  assert (Hab : a <> b).
  { intros <-. rewrite list_lookup_insert_eq in Hb by (by eapply lookup_lt_Some). by injection Hb as <-. }
  rewrite list_lookup_insert_ne in Hb by done.
  destruct (kalloc_spec kend km _ Hfl) as (km1 & Ek & Hfl1 & Hpm & _). apply wp_bind, (wp_zoom x_mem). unfold wp at 1. cbn [x_mem]. rewrite Ek.
  destruct Hfl as [Hch _ _]. cbn [chain] in Hch. destruct Hch as (_ & Hp0 & Hplen & _).
  rewrite (proj2 (Z.eqb_neq _ _) Hp0). apply wp_bind, wp_gets. cbn [x_mem]. rewrite Hpm.
  set (q0 := pipe_init _). assert (Hq0 : holds q0 []).
  { split; cbn; [|lia|done|lia|by intros []]. rewrite length_take, length_drop, Hplen, psize_nat, pgsize_nat. unfold SPINLOCKSIZE. lia. }
  apply wp_bind, wp_modify, wp_bind. cbn [x_fs ftab pipes x_mem x_killed woken].
  pose proof (lookup_lt_Some _ _ _ Ha) as La. pose proof (lookup_lt_Some _ _ _ Hb) as Lb.
  eapply wp_updf; [rewrite list_lookup_insert_ne by done; by apply list_lookup_insert_eq|].
  apply wp_bind. eapply wp_updf.
  { rewrite list_lookup_insert_ne by done. apply list_lookup_insert_eq. by rewrite length_insert. }
  apply wp_ret. rewrite (list_insert_insert_ne _ a b) by done. rewrite !list_insert_insert_eq. by apply HQ.
Qed.

(** The life of a pipe. With two free slots in the file table and a free
    page, [pipealloc] makes a pipe with its two ends; bytes written to one end
    with [filewrite] come out of the other with [fileread]; and once both ends
    are closed the file table has the reference counts it had and the page is
    free again. *)
Theorem pipe_lifecycle (y : fs S) ft ps km l p kl wk (c d : nat) xc xd bs n :
  ft !! c = Some xc -> ft !! d = Some xd -> c <> d -> f_ref xc = 0 -> f_ref xd = 0 -> 0 < kend -> free_list kend km (p :: l) ->
  0 < Z.of_nat (length bs) <= PIPESIZE -> Z.of_nat (length bs) <= n ->
  wp (r ← pipealloc kend;
      match r with
      | None => ret None
      | Some (a, b) =>
          w ← filewrite dev_write b bs (Z.of_nat (length bs));
          x ← fileread dev_read a n;
          fileclose kend b;; fileclose kend a;; ret (Some (w, x))
      end)
     (fun r s' => r = Some (Z.of_nat (length bs), (Z.of_nat (length bs), bs)) /\
        f_ref <$> ftab s' = f_ref <$> ft /\ x_fs s' = y /\ free_list kend (x_mem s') (p :: l))
     (fun _ => False) (Files y ft ps km kl wk).
Proof.
  intros Hc Hd Hcd Rc Rd Hkend Hfl Hlen Hn. apply wp_bind. eapply pipealloc_wp; [exact Hc|exact Hd|exact Hcd|exact Rc|exact Rd|exact Hfl|].
  intros a b xa xb km1 q0 Ha Ra Hb Rb Hab Hfl1 Hq0 Hr0 Hw0. destruct Hfl as [_ Hnd Hpg].
  set (fa := set_fpipe 1 0 p (set_fref 1 xa)). set (fb := set_fpipe 0 1 p (set_fref 1 xb)).
  set (ft1 := <[b := fb]> (<[a := fa]> ft)). pose proof (lookup_lt_Some _ _ _ Ha) as La. pose proof (lookup_lt_Some _ _ _ Hb) as Lb.
  assert (La1 : ft1 !! a = Some fa) by (unfold ft1; rewrite list_lookup_insert_ne, list_lookup_insert_eq; done).
  assert (Lb1 : ft1 !! b = Some fb) by (unfold ft1; rewrite list_lookup_insert_eq; rewrite ?length_insert; done).
  unfold filewrite. apply wp_bind. eapply wp_getf; [exact Lb1|]. cbn [f_writable f_type fb set_fpipe f_pipe Z.eqb].
  eapply wp_getpipe; [apply lookup_insert_eq|]. apply wp_bind, wp_gets. cbn [x_killed].
  rewrite Nat2Z.id, firstn_all.
  destruct (pipewrite_run_all (truth kl) (Z.of_nat (length bs)) q0 [] bs Hq0) as (q1 & -> & Hq1 & [Ho1 Ho2]).
  { rewrite psize_nat. change PIPESIZE with 512 in *. cbn. lia. }
  apply wp_bind, wp_modify, wp_bind, wp_modify, wp_ret. cbn [x_fs ftab pipes x_mem x_killed woken]. rewrite insert_insert_eq.
  unfold fileread. apply wp_bind. eapply wp_getf; [exact La1|]. cbn [f_readable f_type fa set_fpipe f_pipe Z.eqb].
  eapply wp_getpipe; [apply lookup_insert_eq|]. apply wp_bind, wp_gets. cbn [x_killed].
  destruct (piperead_run_all (truth kl) n q1 bs Hq1) as (q2 & -> & Hq2 & [Ho3 Ho4]); [intros E; rewrite E in Hlen; cbn in Hlen; lia|done|].
  apply wp_bind, wp_modify, wp_bind, wp_modify, wp_ret. cbn [x_fs ftab pipes x_mem x_killed woken]. rewrite insert_insert_eq.
  assert (Ho : p_readopen q2 = 1 /\ p_writeopen q2 = 1) by (rewrite Ho3, Ho4, Ho1, Ho2; done). clear Ho1 Ho2 Ho3 Ho4. destruct Ho as [Hro Hwo].
  pose proof (lookup_lt_Some _ _ _ La1) as La2. pose proof (lookup_lt_Some _ _ _ Lb1) as Lb2.
  assert (Hpk : kpage kend p /\ 0 < p < 2 ^ 32) by (by apply Forall_cons in Hpg as [? _]).
  destruct (kfree_spec kend Hkend p km1 l Hfl1 (proj1 Hpk) ltac:(lia)) as (km2 & Ef & Hfl2 & _); [by apply NoDup_cons in Hnd as [? _]|].
  apply wp_bind. eapply (fileclose_pipe_wp _ _ _ _ _ _ _ _ b); [exact Lb1|done|done|done|apply lookup_insert_eq| | |].
  { unfold pipeclose. cbn. rewrite Hro. done. } { done. }
  apply wp_bind. eapply (fileclose_pipe_wp _ _ _ _ _ _ _ _ a); [rewrite list_lookup_insert_ne; [exact La1|done]|done|done|done|apply lookup_insert_eq| | |].
  { unfold pipeclose. cbn. done. } { exact Ef. }
  apply wp_ret. cbn [ftab x_fs x_mem]. split; [done|]. split; [|done]. apply list_eq. intros j. rewrite !list_lookup_fmap.
  destruct (decide (j = a)) as [->|Ha']; [rewrite list_lookup_insert_eq by (by rewrite length_insert); rewrite Ha; cbn; by rewrite Ra|].
  rewrite list_lookup_insert_ne by done.
  destruct (decide (j = b)) as [->|Hb']; [rewrite list_lookup_insert_eq by done; rewrite Hb; cbn; by rewrite Rb|].
  rewrite list_lookup_insert_ne by done. unfold ft1. by rewrite !list_lookup_insert_ne.
Qed.
End PipeLife.

(** ** Samples *)

Definition smp_ftab : list file := File FD_INODE 1 1 1 0 1 9 :: replicate 99 file0.
Definition smp_files : files lst :=
  Files (Fs smp_lst smp_sb (alter (set_ilock (Sleeplock 0 0)) 1%nat smp_icache) namecache0 smp_cred) smp_ftab ∅ smp_mem 0 [].

Lemma filewrite_writes_witness :
  wp (filewrite (fun _ => None) 0 [72; 73] 2) (fun r _ => r = 2) (fun m => m = "balloc: out of blocks"%string) smp_files.
Proof.
  eapply wp_conseq.
  - refine (filewrite_writes (fun _ => None) smp_geo smp_sb smp_layout smp_v smp_lst (alter (set_ilock (Sleeplock 0 0)) 1%nat smp_icache) namecache0
      smp_cred smp_ftab ∅ smp_mem 0 [] 0 (File FD_INODE 1 1 1 0 1 9) 1 (set_ilock (Sleeplock 0 0) smp_file) [72; 73] 2
      eq_refl eq_refl _ eq_refl eq_refl eq_refl eq_refl _ smp_idle _ smp_meta _ _ _ _).
    + done.
    + vm_compute. discriminate.
    + apply file_wf_lock, smp_file_wf.
    + reflexivity.
    + vm_compute. split; discriminate.
    + vm_compute. split; discriminate.
    + vm_compute. discriminate.
  - cbv beta. intros x s' [-> _]. reflexivity.
Defined.

Lemma pipe_lifecycle_witness :
  wp (bind (pipealloc smp_kend) (fun r => match r with
      | None => ret None
      | Some (a, b) =>
          bind (filewrite (fun _ => None) b [1; 2; 3] 3) (fun w => bind (fileread (fun _ => None) a 10) (fun x =>
          bind (fileclose smp_kend b) (fun _ => bind (fileclose smp_kend a) (fun _ => ret (Some (w, x))))))
      end)) (fun r _ => r = Some (3, (3, [1; 2; 3]))) (fun _ => False) smp_files.
Proof.
  eapply wp_conseq.
  - refine (pipe_lifecycle (fun _ => None) (fun _ => None) smp_kend (x_fs smp_files) smp_ftab ∅ smp_mem (tail smp_list) smp_dir 0 [] 1 2
      file0 file0 [1; 2; 3] 10 eq_refl eq_refl _ eq_refl eq_refl _ _ _ _).
    + discriminate.
    + reflexivity.
    + rewrite <- (proj1 smp_list_cons). apply smp_mem_free.
    + vm_compute. split; [reflexivity|discriminate].
    + vm_compute. discriminate.
  - cbv beta. intros x s' [-> _]. reflexivity.
Defined.
