(* ===== verification/Proc.v ===== *)
(** Processes, proc.c: the process table, fork, exit, wait, sleep and wakeup,
    kill, and the scheduler's choice.

    A [struct proc *] is an index into [procs].  The trap frame and the saved
    context, which live on the kernel stack page, are fields of the process.
    [ptable.lock] is held over every operation here, so each is one step;
    [sched] hands the processor to the scheduler, and a process that has to
    wait for another one is [Blocked].  Not modelled: the processor's own
    registers ([mycpu], [swtch], [switchuvm]), and [procdump], which prints. *)
From stdpp Require Import base numbers list strings gmap.
From Stdlib Require Import ZArith Lia.
From S2P Require Import Prelude Params CString Users Namecache Bio Log Store Fs Kalloc Vm Pipe File.

Local Open Scope list_scope.
Local Open Scope Z_scope.

Inductive procstate := UNUSED | EMBRYO | SLEEPING | RUNNABLE | RUNNING | ZOMBIE.
#[export] Instance procstate_eq_dec : EqDecision procstate.
Proof. solve_decision. Defined.

(** Sleep channels: null, a process, the tick counter, the ends of a pipe, the console's input index. *)
Inductive kchan := ChNull | ChProc (p : nat) | ChTicks | ChPipe (a : Z) (c : chan) | ChInput.
#[export] Instance kchan_eq_dec : EqDecision kchan.
Proof. solve_decision. Defined.

(** The 19 words of [struct trapframe], and the words the kernel assigns. *)
Definition TF_EAX : nat := 7.
Definition TF_ES : nat := 10.
Definition TF_DS : nat := 11.
Definition TF_EIP : nat := 14.
Definition TF_CS : nat := 15.
Definition TF_EFLAGS : nat := 16.
Definition TF_ESP : nat := 17.
Definition TF_SS : nat := 18.
Definition tf_words : nat := 19.

Record proc := Proc {
  p_sz : Z; p_pgdir : Z; p_kstack : Z; p_state : procstate; p_pid : Z; p_parent : option nat;
  p_tf : list Z; p_context : list Z; p_chan : kchan; p_killed : Z; p_ofile : list (option nat);
  p_cwd : option nat; p_name : list Z; p_uid : Z; p_gid : Z
}.
Definition nproc : nat := Z.to_nat NPROC.
Definition nofile : nat := Z.to_nat NOFILE.
(** A slot of the zero-initialised table. *)
Definition proc0 : proc :=
  Proc 0 0 0 UNUSED 0 None (replicate tf_words 0) (replicate 5 0) ChNull 0 (replicate nofile None) None (replicate 16 0) 0 0.

(** Assignments to the fields. *)
Definition set_mem (sz pgdir : Z) (p : proc) : proc :=
  Proc sz pgdir (p_kstack p) (p_state p) (p_pid p) (p_parent p) (p_tf p) (p_context p) (p_chan p) (p_killed p) (p_ofile p) (p_cwd p) (p_name p) (p_uid p) (p_gid p).
Definition set_kstack (x : Z) (p : proc) : proc :=
  Proc (p_sz p) (p_pgdir p) x (p_state p) (p_pid p) (p_parent p) (p_tf p) (p_context p) (p_chan p) (p_killed p) (p_ofile p) (p_cwd p) (p_name p) (p_uid p) (p_gid p).
Definition set_state (x : procstate) (p : proc) : proc :=
  Proc (p_sz p) (p_pgdir p) (p_kstack p) x (p_pid p) (p_parent p) (p_tf p) (p_context p) (p_chan p) (p_killed p) (p_ofile p) (p_cwd p) (p_name p) (p_uid p) (p_gid p).
Definition set_pid (x : Z) (p : proc) : proc :=
  Proc (p_sz p) (p_pgdir p) (p_kstack p) (p_state p) x (p_parent p) (p_tf p) (p_context p) (p_chan p) (p_killed p) (p_ofile p) (p_cwd p) (p_name p) (p_uid p) (p_gid p).
Definition set_parent (x : option nat) (p : proc) : proc :=
  Proc (p_sz p) (p_pgdir p) (p_kstack p) (p_state p) (p_pid p) x (p_tf p) (p_context p) (p_chan p) (p_killed p) (p_ofile p) (p_cwd p) (p_name p) (p_uid p) (p_gid p).
Definition set_tf (x : list Z) (p : proc) : proc :=
  Proc (p_sz p) (p_pgdir p) (p_kstack p) (p_state p) (p_pid p) (p_parent p) x (p_context p) (p_chan p) (p_killed p) (p_ofile p) (p_cwd p) (p_name p) (p_uid p) (p_gid p).
Definition set_context (x : list Z) (p : proc) : proc :=
  Proc (p_sz p) (p_pgdir p) (p_kstack p) (p_state p) (p_pid p) (p_parent p) (p_tf p) x (p_chan p) (p_killed p) (p_ofile p) (p_cwd p) (p_name p) (p_uid p) (p_gid p).
Definition set_chan (x : kchan) (p : proc) : proc :=
  Proc (p_sz p) (p_pgdir p) (p_kstack p) (p_state p) (p_pid p) (p_parent p) (p_tf p) (p_context p) x (p_killed p) (p_ofile p) (p_cwd p) (p_name p) (p_uid p) (p_gid p).
Definition set_killed (x : Z) (p : proc) : proc :=
  Proc (p_sz p) (p_pgdir p) (p_kstack p) (p_state p) (p_pid p) (p_parent p) (p_tf p) (p_context p) (p_chan p) x (p_ofile p) (p_cwd p) (p_name p) (p_uid p) (p_gid p).
Definition set_ofile (x : list (option nat)) (p : proc) : proc :=
  Proc (p_sz p) (p_pgdir p) (p_kstack p) (p_state p) (p_pid p) (p_parent p) (p_tf p) (p_context p) (p_chan p) (p_killed p) x (p_cwd p) (p_name p) (p_uid p) (p_gid p).
Definition set_cwd (x : option nat) (p : proc) : proc :=
  Proc (p_sz p) (p_pgdir p) (p_kstack p) (p_state p) (p_pid p) (p_parent p) (p_tf p) (p_context p) (p_chan p) (p_killed p) (p_ofile p) x (p_name p) (p_uid p) (p_gid p).
Definition set_name (x : list Z) (p : proc) : proc :=
  Proc (p_sz p) (p_pgdir p) (p_kstack p) (p_state p) (p_pid p) (p_parent p) (p_tf p) (p_context p) (p_chan p) (p_killed p) (p_ofile p) (p_cwd p) x (p_uid p) (p_gid p).
Definition set_ids (u g : Z) (p : proc) : proc :=
  Proc (p_sz p) (p_pgdir p) (p_kstack p) (p_state p) (p_pid p) (p_parent p) (p_tf p) (p_context p) (p_chan p) (p_killed p) (p_ofile p) (p_cwd p) (p_name p) u g.

(** The kernel: the layers below, the process table, the process running
    ([myproc()]), [initproc], [nextpid], the user database and [ticks]. *)
Record kern (S : Type) := Kern {
  k_x : files S; procs : list proc; curp : nat; initproc : option nat; nextpid : Z;
  k_users : utable; k_ticks : Z
}.
Arguments Kern {S}.
Arguments k_x {S}.
Arguments procs {S}.
Arguments curp {S}.
Arguments initproc {S}.
Arguments nextpid {S}.
Arguments k_users {S}.
Arguments k_ticks {S}.

(** [wakeup1] on the table. *)
Definition wake_chan (c : kchan) (p : proc) : proc :=
  if bool_decide (p_state p = SLEEPING) && bool_decide (p_chan p = c) then set_state RUNNABLE p else p.
Definition wake_all (cs : list kchan) (ps : list proc) : list proc :=
  foldl (fun ps c => wake_chan c <$> ps) ps cs.

Section Code.
Context {S : Type} `{!BlockStore S}.
Context (dev_read : Z -> option (nat -> Z -> M (fs S) (Z * list Z))).
(** The end of the kernel image, the start of its data, [forkret], and the program of the first process. *)
Context (kend kdata forkret_eip : Z) (initcode : list Z).
Local Open Scope kernel_scope.
Abbreviation K := (M (kern S)).

Definition set_procs (f : list proc -> list proc) (s : kern S) : kern S :=
  Kern (k_x s) (f (procs s)) (curp s) (initproc s) (nextpid s) (k_users s) (k_ticks s).
Definition getp (i : nat) : K proc := gets (fun s => nthd proc0 (procs s) i).
Definition updp (i : nat) (f : proc -> proc) : K unit := modify (set_procs (alter f i)).
Definition myproc : K nat := gets curp.

(** What the lower layers see of the running process. *)
Definition cred_of (p : proc) : cred := Cred (p_pid p) (p_uid p) (p_gid p) (default 0%nat (p_cwd p)).
Definition enter (s : kern S) : files S :=
  let x := k_x s in let y := x_fs x in let p := nthd proc0 (procs s) (curp s) in
  Files (Fs (store_st y) (fsb y) (icache y) (ncache y) (cred_of p)) (ftab x) (pipes x) (x_mem x) (p_killed p) [].
(** The wakeups a call of the file layer made are carried out on the table. *)
Definition leave (s : kern S) (x : files S) : kern S :=
  Kern x (wake_all ((fun e => ChPipe e.1 e.2) <$> woken x) (procs s)) (curp s) (initproc s) (nextpid s) (k_users s) (k_ticks s).
Definition xio {A} (m : M (files S) A) : K A :=
  fun s => match m (enter s) with
           | Ok a x => Ok a (leave s x)
           | Panic msg => Panic msg
           | Blocked c => Blocked c
           end.
Definition kio {A} (m : M kmem A) : K A := xio (mio m).
Definition nio {A} (m : M (fs S) A) : K A := xio (fio m).

Definition allocproc : K (option nat) :=
  ps ← gets procs;
  match find_idx (fun p => bool_decide (p_state p = UNUSED)) ps with
  | None => ret None
  | Some i =>
      updp i (set_state EMBRYO);;
      pid ← gets nextpid;
      updp i (set_pid pid);;
      modify (fun s => Kern (k_x s) (procs s) (curp s) (initproc s) (i32 (nextpid s + 1)) (k_users s) (k_ticks s));;
      ks ← kio kalloc;
      updp i (set_kstack ks);;
      if ks =? 0 then updp i (set_state UNUSED);; ret None
      else
        pg ← gets (fun s => pm (x_mem (k_x s)) ks);
        updp i (set_tf ((fun k => rd 4 (pgsize - 4 * tf_words + 4 * k) pg) <$> seq 0 tf_words));;
        updp i (set_context [0; 0; 0; 0; forkret_eip]);;
        ret (Some i)
  end.

(** The trap frame [userinit] builds. *)
Definition user_tf : list Z :=
  let ds := Z.lor (Z.shiftl SEG_UDATA 3) DPL_USER in
  <[TF_EIP := 0]> (<[TF_ESP := PGSIZE]> (<[TF_EFLAGS := FL_IF]> (<[TF_SS := ds]> (<[TF_ES := ds]> (<[TF_DS := ds]>
    (<[TF_CS := Z.lor (Z.shiftl SEG_UCODE 3) DPL_USER]> (replicate tf_words 0))))))).

(** A null [p] is dereferenced. *)
Definition userinit : K unit :=
  r ← allocproc;
  modify (fun s => Kern (k_x s) (procs s) (curp s) r (nextpid s) (k_users s) (k_ticks s));;
  match r with
  | None => panic "null dereference"
  | Some i =>
      d ← kio (setupkvm kend kdata);
      p ← getp i;
      updp i (set_mem (p_sz p) d);;
      if d =? 0 then panic "userinit: out of memory?"
      else
        kio (inituvm d initcode (Z.of_nat (length initcode)));;
        updp i (set_mem PGSIZE d);;
        updp i (set_tf user_tf);;
        updp i (fun p => set_name (safestrcpy 16 (p_name p) (lit "initcode")) p);;
        c ← nio (namei dev_read (lit "/"));
        updp i (set_cwd c);;
        updp i (set_ids 0 0);;
        updp i (set_state RUNNABLE)
  end.

Definition growproc (n : Z) : K Z :=
  me ← myproc;
  p ← getp me;
  let sz := p_sz p in
  r ← (if 0 <? n then sz' ← kio (allocuvm kend (p_pgdir p) sz (u32 (sz + n))); ret (if sz' =? 0 then None else Some sz')
       else if n <? 0 then sz' ← kio (deallocuvm kend (p_pgdir p) sz (u32 (sz + n))); ret (if sz' =? 0 then None else Some sz')
       else ret (Some sz));
  match r with
  | None => ret (-1)
  | Some sz' => updp me (set_mem sz' (p_pgdir p));; ret 0
  end.

(** The loop of [fork] over the open files: the child's array. *)
Definition dup_files (np : nat) (fds : list (option nat)) : K unit :=
  each (zip (seq 0 (length fds)) fds) (fun '(fd, f) =>
    match f with
    | Some f => f' ← xio (filedup f); updp np (fun p => set_ofile (<[fd := Some f']> (p_ofile p)) p)
    | None => ret tt
    end).

Definition fork : K Z :=
  me ← myproc;
  r ← allocproc;
  match r with
  | None => ret (-1)
  | Some np =>
      p ← getp me;
      d ← kio (copyuvm kend kdata (p_pgdir p) (p_sz p));
      c ← getp np;
      updp np (set_mem (p_sz c) d);;
      if d =? 0 then
        kio (kfree kend (p_kstack c));;
        updp np (set_kstack 0);;
        updp np (set_state UNUSED);;
        ret (-1)
      else
        updp np (set_mem (p_sz p) d);;
        updp np (set_parent (Some me));;
        updp np (set_tf (<[TF_EAX := 0]> (p_tf p)));;
        dup_files np (p_ofile p);;
        cwd ← nio (idup (default 0%nat (p_cwd p)));
        updp np (set_cwd (Some cwd));;
        updp np (fun q => set_name (safestrcpy 16 (p_name q) (p_name p)) q);;
        c ← getp np;
        updp np (set_ids (p_uid p) (p_gid p));;
        updp np (set_state RUNNABLE);;
        ret (p_pid c)
  end.

Definition wakeup1 (c : kchan) : K unit := modify (set_procs (fun ps => wake_chan c <$> ps)).
Definition wakeup (c : kchan) : K unit := wakeup1 c.

(** [sched] gives up the processor; the checks of the interrupt state and of
    the locks held are not part of the model. *)
Definition sched : K unit :=
  me ← myproc;
  p ← getp me;
  if bool_decide (p_state p = RUNNING) then panic "sched running" else ret tt.

(** A process that has exited does not run again. *)
Definition exit : K unit :=
  me ← myproc;
  ini ← gets initproc;
  if bool_decide (ini = Some me) then panic "init exiting"
  else
    each (seq 0 nofile) (fun fd =>
      p ← getp me;
      match nthd None (p_ofile p) fd with
      | Some f => xio (fileclose kend f);; updp me (fun p => set_ofile (<[fd := None]> (p_ofile p)) p)
      | None => ret tt
      end);;
    p ← getp me;
    xio File.begin_op;;
    nio (iput (default 0%nat (p_cwd p)));;
    xio File.end_op;;
    updp me (set_cwd None);;
    wakeup1 (match p_parent p with Some q => ChProc q | None => ChNull end);;
    each (seq 0 nproc) (fun i =>
      q ← getp i;
      if bool_decide (p_parent q = Some me) then
        updp i (set_parent ini);;
        if bool_decide (p_state q = ZOMBIE) then wakeup1 (match ini with Some j => ChProc j | None => ChNull end) else ret tt
      else ret tt);;
    updp me (set_state ZOMBIE);;
    sched.

Definition is_child (me : nat) (p : proc) : bool := bool_decide (p_parent p = Some me).
Definition is_zombie (p : proc) : bool := bool_decide (p_state p = ZOMBIE).

(** One round of the loop of [wait]; [None] when it has to sleep on [curproc]. *)
Definition wait_scan : K (option Z) :=
  me ← myproc;
  ps ← gets procs;
  match find_idx (fun p => is_child me p && is_zombie p) ps with
  | Some i =>
      p ← getp i;
      kio (kfree kend (p_kstack p));;
      updp i (set_kstack 0);;
      kio (freevm kend (p_pgdir p));;
      updp i (set_pid 0);;
      updp i (set_parent None);;
      updp i (fun p => set_name (<[0%nat := 0]> (p_name p)) p);;
      updp i (set_killed 0);;
      updp i (set_state UNUSED);;
      ret (Some (p_pid p))
  | None =>
      p ← getp me;
      if negb (existsb (is_child me) ps) || truth (p_killed p) then ret (Some (-1)) else ret None
  end.

Definition wait : K Z :=
  r ← wait_scan;
  match r with Some pid => ret pid | None => blocked "wait" end.

Definition yield : K unit := me ← myproc; updp me (set_state RUNNABLE);; sched.

(** [sleep] up to the switch to the scheduler, and what it does when it runs again. *)
Definition sleep (c : kchan) : K unit :=
  me ← myproc; updp me (set_chan c);; updp me (set_state SLEEPING);; sched.
Definition sleep_return : K unit := me ← myproc; updp me (set_chan ChNull).

(** The scheduler runs process [i]. *)
Definition scheduler_run (i : nat) : K unit :=
  updp i (set_state RUNNING);;
  modify (fun s => Kern (k_x s) (procs s) i (initproc s) (nextpid s) (k_users s) (k_ticks s)).

Definition kill (pid : Z) : K Z :=
  ps ← gets procs;
  match find_idx (fun p => p_pid p =? pid) ps with
  | Some i =>
      updp i (set_killed 1);;
      p ← getp i;
      (if bool_decide (p_state p = SLEEPING) then updp i (set_state RUNNABLE) else ret tt);;
      ret 0
  | None => ret (-1)
  end.
End Code.
