(* ===== verification/Ptable.v ===== *)
(** The process tree: what every sequence of process operations keeps true of
    the process table. *)
From stdpp Require Import base numbers list strings gmap relations.
From Stdlib Require Import ZArith Lia.
From S2P Require Import Prelude Params CString Users Namecache Bio Log Store Fs Kalloc Vm Pipe File Proc.

Local Open Scope list_scope.
Local Open Scope Z_scope.

(** ** Wakeups *)

Definition nudge1 (p p' : proc) : Prop := p' = p \/ (p_state p = SLEEPING /\ p' = set_state RUNNABLE p).
Definition nudged : list proc -> list proc -> Prop := Forall2 nudge1.

Lemma wake_chan_nudge c p : nudge1 p (wake_chan c p).
Proof. unfold wake_chan. destruct (bool_decide (p_state p = SLEEPING)) eqn:E; [|by left]. apply bool_decide_eq_true in E. cbn. case_bool_decide; [by right|by left]. Qed.

Lemma nudge1_trans p q r : nudge1 p q -> nudge1 q r -> nudge1 p r.
Proof. intros [->|[Hs ->]] [->|[Hs' ->]]; [by left|by right|by right|]. cbn in Hs'. done. Qed.

#[export] Instance nudged_preorder : PreOrder nudged.
Proof.
  split.
  - intros ps. apply Forall_Forall2_diag, Forall_true. intros p. by left.
  - intros a b c H1 H2. revert c H2. induction H1 as [|x y a b Hxy _ IH]; intros c H2; inversion H2; subst; constructor; [by eapply nudge1_trans|by apply IH].
Qed.

Lemma wake_nudged c ps : nudged ps (wake_chan c <$> ps).
Proof. apply Forall2_fmap_r, Forall_Forall2_diag, Forall_true. intros p. apply wake_chan_nudge. Qed.

Lemma wake_all_nudged cs ps : nudged ps (wake_all cs ps).
Proof.
  revert ps. induction cs as [|c cs IH]; intros ps; [done|]. change (wake_all (c :: cs) ps) with (wake_all cs (wake_chan c <$> ps)).
  etransitivity; [apply wake_nudged|apply IH].
Qed.

Lemma nudged_back ps ps' i p' : nudged ps ps' -> ps' !! i = Some p' -> exists p, ps !! i = Some p /\ nudge1 p p'.
Proof. intros H Hp. by eapply Forall2_lookup_r. Qed.
Lemma nudged_fwd ps ps' i p : nudged ps ps' -> ps !! i = Some p -> exists p', ps' !! i = Some p' /\ nudge1 p p'.
Proof. intros H Hp. by eapply Forall2_lookup_l. Qed.

(** ** The invariant *)

Definition live (p : proc) : Prop := p_state p <> UNUSED.
(** Neither free, nor being set up, nor dead. *)
Definition alive (p : proc) : Prop := p_state p <> UNUSED /\ p_state p <> EMBRYO /\ p_state p <> ZOMBIE.

Record pinv (ini : nat) (npid : Z) (ps : list proc) : Prop := Pinv {
  pi_len : length ps = nproc;
  pi_init : exists p, ps !! ini = Some p /\ alive p /\ p_parent p = None;
  pi_free : forall i p, ps !! i = Some p -> p_state p = UNUSED -> p_parent p = None;
  pi_tree : forall i p, ps !! i = Some p -> i <> ini -> alive p \/ p_state p = ZOMBIE ->
    exists q r, p_parent p = Some q /\ ps !! q = Some r /\ alive r;
  pi_pid : forall i p, ps !! i = Some p -> live p -> 1 <= p_pid p < npid;
  pi_uniq : forall i j p q, ps !! i = Some p -> ps !! j = Some q -> live p -> live q -> p_pid p = p_pid q -> i = j;
  pi_wait : forall i p q, ps !! i = Some p -> p_state p = SLEEPING -> p_chan p = ChProc q -> q = i;
  pi_wake : forall i p j z, ps !! i = Some p -> p_state p = SLEEPING -> p_chan p = ChProc i ->
    ps !! j = Some z -> p_state z = ZOMBIE -> p_parent z <> Some i;
  pi_self : forall i p, ps !! i = Some p -> p_parent p <> Some i
}.

Lemma nudge1_fields p p' : nudge1 p p' ->
  p_pid p' = p_pid p /\ p_parent p' = p_parent p /\ p_chan p' = p_chan p /\ (alive p <-> alive p') /\
  (p_state p' = SLEEPING -> p_state p = SLEEPING) /\ (p_state p' = ZOMBIE <-> p_state p = ZOMBIE) /\
  (p_state p' = UNUSED <-> p_state p = UNUSED) /\ (p_state p' = EMBRYO <-> p_state p = EMBRYO) /\
  (p_state p' = RUNNING <-> p_state p = RUNNING).
Proof.
  intros [->|[Hs ->]]; [done|]. unfold alive. cbn [set_state p_state p_pid p_parent p_chan]. rewrite Hs.
  split_and!; try done; split; try done.
Qed.

Lemma pinv_nudged ini n ps ps' : pinv ini n ps -> nudged ps ps' -> pinv ini n ps'.
Proof.
  intros [A1 A2 A3 A4 A5 A6 A7 A8 A9] Hn.
  assert (Hb : forall i p', ps' !! i = Some p' -> exists p, ps !! i = Some p /\ nudge1 p p') by (intros; by eapply nudged_back).
  split.
  - rewrite <- A1. symmetry. by eapply Forall2_length.
  - destruct A2 as (p & Hp & Ha & Hpar). destruct (nudged_fwd _ _ _ _ Hn Hp) as (p' & Hp' & N).
    apply nudge1_fields in N as (_ & Npar & _ & N & _). exists p'. rewrite Npar. split; [done|]. split; [by apply N|done].
  - intros i p' Hp' Hs. destruct (Hb _ _ Hp') as (p & Hp & N). apply nudge1_fields in N as (_ & Npar & _ & _ & _ & _ & Nu & _).
    rewrite Npar. eapply A3; [exact Hp|]. by apply Nu.
  - intros i p' Hp' Hi Hs. destruct (Hb _ _ Hp') as (p & Hp & N). apply nudge1_fields in N as (_ & Npar & _ & Na & _ & Nz & _).
    destruct (A4 i p Hp Hi) as (q & r & Hq & Hr & Har); [destruct Hs; [left; by apply Na|right; by apply Nz]|].
    destruct (nudged_fwd _ _ _ _ Hn Hr) as (r' & Hr' & N). apply nudge1_fields in N as (_ & _ & _ & N & _).
    exists q, r'. rewrite Npar. split; [done|]. split; [done|by apply N].
  - intros i p' Hp' Hl. destruct (Hb _ _ Hp') as (p & Hp & N). apply nudge1_fields in N as (Npid & _ & _ & _ & _ & _ & Nu & _).
    rewrite Npid. eapply A5; [exact Hp|]. unfold live in *. by rewrite <- Nu.
  - intros i j p' q' Hp' Hq' Hl Hl'. destruct (Hb _ _ Hp') as (p & Hp & N). destruct (Hb _ _ Hq') as (q & Hq & N').
    apply nudge1_fields in N as (Npid & _ & _ & _ & _ & _ & Nu & _). apply nudge1_fields in N' as (Npid' & _ & _ & _ & _ & _ & Nu' & _).
    rewrite Npid, Npid'. apply (A6 i j p q Hp Hq); unfold live in *; [by rewrite <- Nu|by rewrite <- Nu'].
  - intros i p' q Hp' Hs Hc. destruct (Hb _ _ Hp') as (p & Hp & N). apply nudge1_fields in N as (_ & _ & Nc & _ & Ns & _).
    eapply A7; [exact Hp|by apply Ns|congruence].
  - intros i p' j z' Hp' Hs Hc Hz' Hzs. destruct (Hb _ _ Hp') as (p & Hp & N). destruct (Hb _ _ Hz') as (z & Hz & N').
    apply nudge1_fields in N as (_ & _ & Nc & _ & Ns & _). apply nudge1_fields in N' as (_ & Npar & _ & _ & _ & Nz & _).
    rewrite Npar. eapply A8; [exact Hp|by apply Ns|congruence|exact Hz|by apply Nz].
  - intros i p' Hp'. destruct (Hb _ _ Hp') as (p & Hp & N). apply nudge1_fields in N as (_ & Npar & _). rewrite Npar. by apply A9.
Qed.

(** One process changes. *)
Lemma pinv_upd ini n n' ps i p p' :
  pinv ini n ps -> ps !! i = Some p -> n <= n' ->
  (alive p -> alive p' \/ (i <> ini /\ forall j r, ps !! j = Some r -> p_parent r <> Some i)) ->
  (i = ini -> p_parent p' = None) ->
  (p_state p' = UNUSED -> p_parent p' = None) ->
  (alive p' \/ p_state p' = ZOMBIE -> i <> ini -> exists q r, p_parent p' = Some q /\ ps !! q = Some r /\ alive r) ->
  (live p' -> 1 <= p_pid p' < n' /\ forall j r, ps !! j = Some r -> j <> i -> live r -> p_pid r <> p_pid p') ->
  (p_state p' = SLEEPING -> forall q, p_chan p' = ChProc q ->
     q = i /\ forall j z, ps !! j = Some z -> j <> i -> p_state z = ZOMBIE -> p_parent z <> Some i) ->
  (p_state p' = ZOMBIE -> forall q r, p_parent p' = Some q -> ps !! q = Some r -> p_state r = SLEEPING -> p_chan r <> ChProc q) ->
  p_parent p' <> Some i ->
  pinv ini n' (<[i := p']> ps).
Proof.
  intros [A1 A2 A3 A4 A5 A6 A7 A8 A9] Hi Hn Ha Hini Hfree Htree Hpid Hwait Hzom Hself. pose proof (lookup_lt_Some _ _ _ Hi) as Hlt.
  assert (Hl : forall j r, <[i := p']> ps !! j = Some r -> (j = i /\ r = p') \/ (j <> i /\ ps !! j = Some r)).
  { intros j r. destruct (decide (j = i)) as [->|Hne]; [rewrite list_lookup_insert_eq by done; intros [= <-]; by left|].
    rewrite list_lookup_insert_ne by done. by right. }
  assert (Hpar : forall j r q, ps !! j = Some r -> p_parent r = Some q -> forall s, ps !! q = Some s -> alive s ->
    exists s', <[i := p']> ps !! q = Some s' /\ alive s').
  { intros j r q Hj Hq s Hs Has. destruct (decide (q = i)) as [->|Hne]; [|exists s; by rewrite list_lookup_insert_ne].
    assert (s = p) as -> by congruence. exists p'. rewrite list_lookup_insert_eq by done. split; [done|].
    destruct (Ha Has) as [?|[_ Hno]]; [done|]. by destruct (Hno j r Hj). }
  split.
  - by rewrite length_insert.
  - destruct A2 as (r & Hr & Har & Hrp). destruct (decide (ini = i)) as [->|Hne]; [|exists r; by rewrite list_lookup_insert_ne].
    assert (r = p) as -> by congruence. exists p'. rewrite list_lookup_insert_eq by done. split; [done|]. split; [|by apply Hini].
    by destruct (Ha Har) as [?|[? _]].
  - intros j r Hj Hs. destruct (Hl j r Hj) as [[-> ->]|[_ Hj']]; [by apply Hfree|by eapply A3].
  - intros j r Hj Hji Hs. destruct (Hl j r Hj) as [[-> ->]|[_ Hj']].
    + destruct (Htree Hs Hji) as (q & t & Hq & Ht & Hat). exists q, t. rewrite list_lookup_insert_ne; [done|congruence].
    + destruct (A4 j r Hj' Hji Hs) as (q & t & Hq & Ht & Hat). destruct (Hpar j r q Hj' Hq t Ht Hat) as (t' & Ht' & Hat'). eauto.
  - intros j r Hj Hlr. destruct (Hl j r Hj) as [[-> ->]|[_ Hj']]; [by apply Hpid|]. pose proof (A5 j r Hj' Hlr). lia.
  - intros j k r t Hj Hk Hlr Hlt' E. destruct (Hl j r Hj) as [[-> ->]|[Hj1 Hj']], (Hl k t Hk) as [[-> ->]|[Hk1 Hk']]; [done| | |by eapply A6].
    + destruct (Hpid Hlr) as [_ Hu]. by destruct (Hu k t Hk' Hk1 Hlt').
    + destruct (Hpid Hlt') as [_ Hu]. by destruct (Hu j r Hj' Hj1 Hlr).
  - intros j r q Hj Hs Hc. destruct (Hl j r Hj) as [[-> ->]|[_ Hj']]; [by apply (Hwait Hs)|by eapply A7].
  - intros j r k z Hj Hs Hc Hk Hz. destruct (Hl j r Hj) as [[-> ->]|[Hj1 Hj']], (Hl k z Hk) as [[-> ->]|[Hk1 Hk']].
    + congruence.
    + destruct (Hwait Hs _ Hc) as [_ Hw]. by eapply Hw.
    + intros Hp. by eapply Hzom.
    + by eapply A8.
  - intros j r Hj. destruct (Hl j r Hj) as [[-> ->]|[_ Hj']]; [done|by eapply A9].
Qed.

Lemma alter_case f i (ps : list proc) : alter f i ps = match ps !! i with Some p => <[i := f p]> ps | None => ps end.
Proof.
  apply list_eq. intros j. destruct (decide (j = i)) as [->|Hne].
  - rewrite list_lookup_alter_eq. destruct (ps !! i) as [p|] eqn:E; cbn; [|done]. rewrite list_lookup_insert_eq; [done|by eapply lookup_lt_Some].
  - rewrite list_lookup_alter_ne by done. destruct (ps !! i); [by rewrite list_lookup_insert_ne|done].
Qed.

(** A change of the fields that do not matter to the tree. *)
Lemma pinv_same ini n ps i f :
  (forall p, p_state (f p) = p_state p /\ p_pid (f p) = p_pid p /\ p_parent (f p) = p_parent p /\ p_chan (f p) = p_chan p) ->
  pinv ini n ps -> pinv ini n (alter f i ps).
Proof.
  intros Hf H. rewrite alter_case. destruct (ps !! i) as [p|] eqn:Hi; [|done].
  destruct (Hf p) as (E1 & E2 & E3 & E4). pose proof H as [A1 A2 A3 A4 A5 A6 A7 A8 A9].
  apply (pinv_upd ini n n ps i p); unfold alive, live in *; rewrite ?E1, ?E2, ?E3, ?E4; try done.
  - auto.
  - intros ->. destruct A2 as (r & Hr & _ & ?). congruence.
  - by eapply A3.
  - intros Hs Hne. destruct (A4 i p Hi Hne Hs) as (q & r & Hq & Hr & Har). exists q, r. done.
  - intros Hlp. split; [by eapply A5|]. intros j r Hj Hne Hr E. apply Hne. by eapply A6.
  - intros Hs q Hc. pose proof (A7 i p q Hi Hs Hc) as ->. split; [done|]. intros j z Hj _ Hz. by eapply A8.
  - intros Hz q r Hq Hr Hs Hc. by eapply (A8 q r i p).
  - by eapply A9.
Qed.

(** ** The operations *)

Section Ops.
Context {S : Type} `{!BlockStore S}.
Context (dev_read : Z -> option (nat -> Z -> M (fs S) (Z * list Z))).
Context (kend kdata forkret_eip : Z) (initcode : list Z).
Abbreviation K := (M (kern S)).

(** Everything but the table, the layers below and [nextpid] stays. *)
Definition ksame (s s' : kern S) : Prop := curp s' = curp s /\ initproc s' = initproc s /\ nextpid s' = nextpid s.

Lemma wlp_xio {A} (m : M (files S) A) Q s :
  (forall a s', ksame s s' -> nudged (procs s) (procs s') -> Q a s') -> wlp (xio m) Q s.
Proof.
  intros HQ. unfold wlp, xio. destruct (m (enter s)) as [a x| |]; [|done|done]. apply HQ; [done|]. apply wake_all_nudged.
Qed.

(** The table in the middle of an operation by process [me]: the invariant,
    and [me] still running. *)
Record mid (ini me : nat) (s : kern S) : Prop := Mid {
  md_inv : pinv ini (nextpid s) (procs s);
  md_ini : initproc s = Some ini;
  md_cur : curp s = me;
  md_run : exists p, procs s !! me = Some p /\ p_state p = RUNNING
}.

Lemma mid_nudged ini me s s' : mid ini me s -> ksame s s' -> nudged (procs s) (procs s') -> mid ini me s'.
Proof.
  intros [H1 H2 H3 (p & Hp & Hr)] (E1 & E2 & E3) Hn. split; [rewrite E3; by eapply pinv_nudged|congruence|congruence|].
  destruct (nudged_fwd _ _ _ _ Hn Hp) as (p' & Hp' & N). exists p'. split; [done|]. by apply nudge1_fields in N as (_ & _ & _ & _ & _ & _ & _ & _ & ->).
Qed.

(** What is known of a slot that is being set up or taken down. *)
Definition slot (i : nat) (st : procstate) (par : option nat) (s : kern S) : Prop :=
  exists p, procs s !! i = Some p /\ p_state p = st /\ p_parent p = par.

Lemma slot_nudged i st par s s' : st = EMBRYO \/ st = ZOMBIE \/ st = RUNNING -> slot i st par s -> nudged (procs s) (procs s') -> slot i st par s'.
Proof.
  intros Hst (p & Hp & Hs & Hpar) Hn. destruct (nudged_fwd _ _ _ _ Hn Hp) as (p' & Hp' & N). exists p'.
  apply nudge1_fields in N as (_ & E1 & _ & _ & _ & E3 & _ & E2 & E4). split; [done|]. split; [|congruence].
  destruct Hst as [-> |[-> | ->]]; [by apply E2|by apply E3|by apply E4].
Qed.

Definition harmless (f : proc -> proc) : Prop :=
  forall p, p_state (f p) = p_state p /\ p_pid (f p) = p_pid p /\ p_parent (f p) = p_parent p /\ p_chan (f p) = p_chan p.

Lemma wlp_updp_harmless ini me i f (Q : unit -> kern S -> Prop) s :
  harmless f -> mid ini me s ->
  (forall s', mid ini me s' -> (forall i st par, slot i st par s -> slot i st par s') -> Q tt s') -> wlp (updp i f) Q s.
Proof.
  intros Hf [H1 H2 H3 (p & Hp & Hr)] HQ. apply wlp_modify, HQ.
  - split; [by apply pinv_same|done|done|]. cbn [procs set_procs]. destruct (decide (i = me)) as [->|Hne].
    + exists (f p). rewrite list_lookup_alter_eq, Hp. split; [done|]. by rewrite (proj1 (Hf p)).
    + exists p. by rewrite list_lookup_alter_ne.
  - intros np st par (q & Hq & Hs & Hpar). unfold slot. cbn [procs set_procs]. destruct (decide (i = np)) as [->|Hne].
    + exists (f q). rewrite list_lookup_alter_eq, Hq. destruct (Hf q) as (-> & _ & -> & _). done.
    + exists q. by rewrite list_lookup_alter_ne.
Qed.

(** A running process is alive, and not the slot being set up. *)
Lemma mid_ne ini me np par s : mid ini me s -> slot np EMBRYO par s -> np <> me.
Proof. intros [_ _ _ (p & Hp & Hr)] (q & Hq & Hs & _) ->. congruence. Qed.

(** A change of slot [i] that is not the running process's. *)
Lemma mid_upd ini me s i p p' s' :
  mid ini me s -> procs s !! i = Some p -> i <> me -> procs s' = <[i := p']> (procs s) -> curp s' = curp s -> initproc s' = initproc s ->
  pinv ini (nextpid s') (<[i := p']> (procs s)) -> mid ini me s'.
Proof.
  intros [H1 H2 H3 (q & Hq & Hr)] Hp Hne E1 E2 E3 Hinv. split; [by rewrite E1|congruence|congruence|].
  exists q. rewrite E1, list_lookup_insert_ne by done. done.
Qed.

Lemma wlp_unembryo ini me np (Q : unit -> kern S -> Prop) s :
  mid ini me s -> slot np EMBRYO None s -> (forall s', mid ini me s' -> Q tt s') -> wlp (updp np (set_state UNUSED)) Q s.
Proof.
  intros Hm Hem HQ. pose proof (mid_ne _ _ _ _ _ Hm Hem) as Hne. destruct Hem as (p & Hp & Hs & Hpar).
  apply wlp_modify, HQ. eapply (mid_upd _ _ s np p (set_state UNUSED p)); [done|done|done| |done|done|].
  { cbn [procs set_procs]. by rewrite alter_case, Hp. }
  eapply (pinv_upd _ _ _ _ _ p); [apply Hm|done|done| | | | | | | |]; unfold alive, live; cbn [set_state p_state p_parent]; try done.
  - rewrite Hs. naive_solver.
  - naive_solver.
  - by rewrite Hpar.
Qed.

Lemma allocproc_wlp ini me (Q : option nat -> kern S -> Prop) s :
  mid ini me s -> nextpid s < 2 ^ 31 - 1 -> (forall s', mid ini me s' -> Q None s') ->
  (forall np s', mid ini me s' -> slot np EMBRYO None s' -> Q (Some np) s') -> wlp (allocproc forkret_eip) Q s.
Proof.
  intros Hm Hpid HN HS. unfold allocproc. apply wlp_bind, wlp_gets. destruct (find_idx _ (procs s)) as [i|] eqn:Hf; [|by apply wlp_ret, HN].
  apply find_idx_Some in Hf as [(p & Hp & Hs) _]. apply bool_decide_eq_true in Hs. pose proof Hm as [Hinv _ _ (pm & Hpm & Hrun)].
  assert (Hne : i <> me) by (intros ->; congruence). pose proof Hinv as [A1 A2 A3 A4 A5 A6 A7 A8 A9].
  assert (Hn1 : 1 <= nextpid s).
  { destruct A2 as (r & Hr & Har & _). pose proof (A5 _ _ Hr (proj1 Har)). lia. }
  apply wlp_bind, wlp_modify, wlp_bind, wlp_gets, wlp_bind, wlp_modify, wlp_bind, wlp_modify. cbn [nextpid set_procs procs curp initproc k_x k_users k_ticks].
  set (s1 := Kern _ _ _ _ _ _ _).
  assert (Ep : procs s1 = <[i := set_pid (nextpid s) (set_state EMBRYO p)]> (procs s)).
  { subst s1. cbn [procs]. rewrite (alter_case _ i (procs s)), Hp, alter_case.
    rewrite list_lookup_insert_eq by (by eapply lookup_lt_Some). by rewrite list_insert_insert_eq. }
  assert (En : nextpid s1 = nextpid s + 1) by (subst s1; cbn; apply i32_small; lia).
  assert (Hm1 : mid ini me s1).
  { eapply (mid_upd _ _ s i p); [done|done|done|exact Ep|done|done|]. rewrite En.
    eapply (pinv_upd _ _ _ _ _ p); [exact Hinv|done|lia| | | | | | | |]; unfold alive, live; cbn [set_state set_pid p_state p_parent p_pid p_chan]; try done.
    - rewrite Hs. naive_solver.
    - intros _. by eapply A3.
    - naive_solver.
    - intros _. split; [lia|]. intros j r Hj _ Hr. pose proof (A5 j r Hj Hr). lia.
    - by eapply A9. }
  assert (Hem1 : slot i EMBRYO None s1).
  { exists (set_pid (nextpid s) (set_state EMBRYO p)). rewrite Ep, list_lookup_insert_eq by (by eapply lookup_lt_Some).
    split; [done|]. split; [done|]. exact (A3 i p Hp Hs). }
  clearbody s1. apply wlp_bind, wlp_xio. intros ks s2 K2 N2. pose proof (mid_nudged _ _ _ _ Hm1 K2 N2) as Hm2.
  pose proof (slot_nudged _ _ _ _ _ (or_introl eq_refl) Hem1 N2) as Hem2. apply wlp_bind. eapply wlp_updp_harmless; [intros q; by repeat split|exact Hm2|]. intros s3 Hm3 H3.
  pose proof (H3 _ _ _ Hem2) as Hem3. destruct (ks =? 0).
  - apply wlp_bind. eapply wlp_unembryo; [exact Hm3|exact Hem3|]. intros s4 Hm4. by apply wlp_ret, HN.
  - apply wlp_bind, wlp_gets, wlp_bind. eapply wlp_updp_harmless; [intros q; by repeat split|exact Hm3|]. intros s4 Hm4 H4.
    apply wlp_bind. eapply wlp_updp_harmless; [intros q; by repeat split|exact Hm4|]. intros s5 Hm5 H5. apply wlp_ret, HS; auto.
Qed.

Lemma wlp_set_parent ini me np (Q : unit -> kern S -> Prop) s :
  mid ini me s -> slot np EMBRYO None s ->
  (forall s', mid ini me s' -> slot np EMBRYO (Some me) s' -> Q tt s') -> wlp (updp np (set_parent (Some me))) Q s.
Proof.
  intros Hm Hem HQ. pose proof (mid_ne _ _ _ _ _ Hm Hem) as Hne. destruct Hem as (p & Hp & Hs & Hpar).
  pose proof Hm as [[A1 A2 A3 A4 A5 A6 A7 A8 A9] _ _ _].
  assert (Hini : np <> ini).
  { intros ->. destruct A2 as (r & Hr & (_ & Hr2 & _) & _). congruence. }
  apply wlp_modify, HQ.
  - eapply (mid_upd _ _ s np p (set_parent (Some me) p)); [done|done|done| |done|done|].
    { cbn [procs set_procs]. by rewrite alter_case, Hp. }
    eapply (pinv_upd _ _ _ _ _ p); [apply Hm|done|done| | | | | | | |]; unfold alive, live; cbn [set_parent p_state p_parent p_pid p_chan]; rewrite ?Hs; try done.
    + naive_solver.
    + naive_solver.
    + intros _. split; [by eapply A5; unfold live; rewrite ?Hs|]. intros j r Hj Hji Hr E. apply Hji.
      apply (A6 j np r p Hj Hp Hr); [unfold live; by rewrite Hs|done].
    + congruence.
  - exists (set_parent (Some me) p). cbn [procs set_procs]. rewrite list_lookup_alter_eq, Hp. done.
Qed.

Lemma wlp_start ini me np (Q : unit -> kern S -> Prop) s :
  mid ini me s -> slot np EMBRYO (Some me) s ->
  (forall s', mid ini me s' -> Q tt s') -> wlp (updp np (set_state RUNNABLE)) Q s.
Proof.
  intros Hm Hem HQ. pose proof (mid_ne _ _ _ _ _ Hm Hem) as Hne. destruct Hem as (p & Hp & Hs & Hpar).
  pose proof Hm as [[A1 A2 A3 A4 A5 A6 A7 A8 A9] _ _ (pm & Hpm & Hrun)].
  apply wlp_modify, HQ. eapply (mid_upd _ _ s np p (set_state RUNNABLE p)); [done|done|done| |done|done|].
  { cbn [procs set_procs]. by rewrite alter_case, Hp. }
  eapply (pinv_upd _ _ _ _ _ p); [apply Hm|done|done| | | | | | | |]; unfold alive, live; cbn [set_state p_state p_parent p_pid p_chan]; rewrite ?Hs; try done.
  - naive_solver.
  - intros E. destruct A2 as (r & Hr & (_ & Hr2 & _) & _). congruence.
  - intros _ Hi. exists me, pm. rewrite Hrun. done.
  - intros _. split; [eapply A5; [exact Hp|unfold live; by rewrite Hs]|]. intros j r Hj Hji Hr E. apply Hji.
    apply (A6 j np r p Hj Hp Hr); [unfold live; by rewrite Hs|done].
  - by eapply A9.
Qed.

Lemma dup_files_wlp ini me np par fds (Q : unit -> kern S -> Prop) s :
  mid ini me s -> slot np EMBRYO par s -> (forall s', mid ini me s' -> slot np EMBRYO par s' -> Q tt s') -> wlp (dup_files np fds) Q s.
Proof.
  intros Hm Hem HQ. eapply wlp_conseq; [apply (wlp_each _ (fun s => mid ini me s /\ slot np EMBRYO par s)); [done|]|].
  - intros [fd [f|]] s1 _ [Hm1 Hem1]; [|by apply wlp_ret]. apply wlp_bind, wlp_xio. intros f' s2 K2 N2.
    eapply wlp_updp_harmless; [intros q; by repeat split|by eapply mid_nudged|]. intros s3 Hm3 H3. split; [done|]. apply H3. eapply slot_nudged; [by left|done|done].
  - intros [] s1 [Hm1 Hem1]. by apply HQ.
Qed.

Ltac harmless := eapply wlp_updp_harmless; [intros ?q; by repeat split|eassumption|].

Lemma fork_wlp ini me s :
  mid ini me s -> nextpid s < 2 ^ 31 - 1 -> wlp (fork kend kdata forkret_eip) (fun _ => mid ini me) s.
Proof.
  intros Hm Hpid. unfold fork. apply wlp_bind, wlp_gets. rewrite (md_cur _ _ _ Hm). apply wlp_bind.
  eapply allocproc_wlp; [exact Hm|done|intros s1 Hm1; by apply wlp_ret|]. intros np s1 Hm1 Hem1.
  apply wlp_bind, wlp_gets, wlp_bind, wlp_xio. intros d s2 K2 N2. pose proof (mid_nudged _ _ _ _ Hm1 K2 N2) as Hm2.
  pose proof (slot_nudged _ _ _ _ _ (or_introl eq_refl) Hem1 N2) as Hem2. apply wlp_bind, wlp_gets, wlp_bind. harmless. intros s3 Hm3 H3.
  apply H3 in Hem2 as Hem3. clear H3. destruct (d =? 0).
  - apply wlp_bind, wlp_xio. intros [] s4 K4 N4. pose proof (mid_nudged _ _ _ _ Hm3 K4 N4) as Hm4.
    pose proof (slot_nudged _ _ _ _ _ (or_introl eq_refl) Hem3 N4) as Hem4. apply wlp_bind. harmless. intros s5 Hm5 H5. apply H5 in Hem4.
    apply wlp_bind. eapply wlp_unembryo; [exact Hm5|exact Hem4|]. intros s6 Hm6. by apply wlp_ret.
  - apply wlp_bind. harmless. intros s4 Hm4 H4. apply H4 in Hem3 as Hem4. clear H4.
    apply wlp_bind. eapply wlp_set_parent; [exact Hm4|exact Hem4|]. intros s5 Hm5 Hem5.
    apply wlp_bind. harmless. intros s6 Hm6 H6. apply H6 in Hem5 as Hem6. clear H6.
    apply wlp_bind. eapply dup_files_wlp; [exact Hm6|exact Hem6|]. intros s7 Hm7 Hem7.
    apply wlp_bind, wlp_xio. intros cwd s8 K8 N8. pose proof (mid_nudged _ _ _ _ Hm7 K8 N8) as Hm8. pose proof (slot_nudged _ _ _ _ _ (or_introl eq_refl) Hem7 N8) as Hem8.
    apply wlp_bind. harmless. intros s9 Hm9 H9. apply H9 in Hem8 as Hem9. clear H9.
    apply wlp_bind. harmless. intros s10 Hm10 H10. apply H10 in Hem9 as Hem10. clear H10.
    apply wlp_bind, wlp_gets, wlp_bind. harmless. intros s11 Hm11 H11. apply H11 in Hem10 as Hem11. clear H11.
    apply wlp_bind. eapply wlp_start; [exact Hm11|exact Hem11|]. intros s12 Hm12. by apply wlp_ret.
Qed.

(** The state between two steps. *)
Definition kinv (ini : nat) (s : kern S) : Prop := pinv ini (nextpid s) (procs s) /\ initproc s = Some ini.

Lemma mid_kinv ini me s : mid ini me s -> kinv ini s.
Proof. by intros [H1 H2 _ _]. Qed.

(** *** [wait] *)

Lemma alter_alter f g i (ps : list proc) : alter f i (alter g i ps) = alter (fun p => f (g p)) i ps.
Proof.
  rewrite !alter_case. destruct (ps !! i) as [p|] eqn:E; [|by rewrite E].
  rewrite list_lookup_insert_eq by (by eapply lookup_lt_Some). by rewrite list_insert_insert_eq.
Qed.

Lemma wait_wlp ini me s : mid ini me s ->
  wlp (wait_scan kend) (fun r s' => mid ini me s' /\
    (r = None -> forall j z, procs s' !! j = Some z -> p_state z = ZOMBIE -> p_parent z <> Some me)) s.
Proof.
  intros Hm. unfold wait_scan. apply wlp_bind, wlp_gets, wlp_bind, wlp_gets. rewrite (md_cur _ _ _ Hm).
  destruct (find_idx _ (procs s)) as [i|] eqn:Hf.
  2: { apply wlp_bind, wlp_gets. destruct (_ || _); apply wlp_ret; [done|]. split; [done|]. intros _ j z Hj Hz Hpar.
       rewrite find_idx_None in Hf. specialize (Hf j z Hj). unfold is_child, is_zombie in Hf. by rewrite !bool_decide_true in Hf. }
  apply find_idx_Some in Hf as [(p & Hp & Hz) _]. apply andb_prop in Hz as [_ Hz]. apply bool_decide_eq_true in Hz.
  assert (Hsl : slot i ZOMBIE (p_parent p) s) by (by exists p).
  apply wlp_bind, wlp_gets, wlp_bind, wlp_xio. intros [] s1 K1 N1. pose proof (mid_nudged _ _ _ _ Hm K1 N1) as Hm1.
  pose proof (slot_nudged _ _ _ _ _ (or_intror (or_introl eq_refl)) Hsl N1) as Hsl1. apply wlp_bind. harmless. intros s2 Hm2 H2. apply H2 in Hsl1 as Hsl2. clear H2.
  apply wlp_bind, wlp_xio. intros [] s3 K3 N3. pose proof (mid_nudged _ _ _ _ Hm2 K3 N3) as Hm3.
  pose proof (slot_nudged _ _ _ _ _ (or_intror (or_introl eq_refl)) Hsl2 N3) as (z & Hzi & Hzs & _).
  do 5 (apply wlp_bind, wlp_modify). apply wlp_ret. split; [|done]. assert (Hne : i <> me).
  { intros ->. destruct Hm3 as [_ _ _ (r & Hr & Hrs)]. congruence. }
  eapply (mid_upd _ _ s3 i z); [exact Hm3|exact Hzi|done| |done|done|].
  { cbn [procs set_procs]. rewrite !alter_alter, alter_case, Hzi. done. }
  eapply (pinv_upd _ _ _ _ _ z); [apply Hm3|done|done| | | | | | | |]; unfold alive, live; cbn; try done; rewrite ?Hzs; naive_solver.
Qed.

(** *** [exit] *)

(** Process [q] does not wait for a child. *)
Definition not_waiting (q : nat) (s : kern S) : Prop :=
  forall r, procs s !! q = Some r -> p_state r = SLEEPING -> p_chan r <> ChProc q.

Lemma not_waiting_nudged q s s' : not_waiting q s -> nudged (procs s) (procs s') -> not_waiting q s'.
Proof.
  intros H Hn r' Hr' Hs. destruct (nudged_back _ _ _ _ Hn Hr') as (r & Hr & N). apply nudge1_fields in N as (_ & _ & -> & _ & Ns & _).
  by apply (H r Hr), Ns.
Qed.

Lemma not_waiting_wake q (ps : list proc) r : (wake_chan (ChProc q) <$> ps) !! q = Some r -> p_state r = SLEEPING -> p_chan r <> ChProc q.
Proof.
  rewrite list_lookup_fmap. destruct (ps !! q) as [t|]; [|done]. cbn. intros [= <-]. unfold wake_chan.
  repeat case_bool_decide; cbn; congruence.
Qed.

(** The loop that passes the children of [me] to init. *)
Record passing (ini me par k : nat) (s : kern S) : Prop := Passing {
  ps_mid : mid ini me s;
  ps_par : exists p, procs s !! me = Some p /\ p_parent p = Some par;
  ps_ne : me <> ini;
  ps_awake : not_waiting par s;
  ps_done : forall j r, (j < k)%nat -> procs s !! j = Some r -> p_parent r <> Some me
}.

(** One child: the table after the wakeup of init, if there is one, with its parent changed. *)
Lemma passing_step ini me par k s s' ps q :
  passing ini me par k s -> procs s !! k = Some q -> p_parent q = Some me -> ksame s s' ->
  nudged (procs s) ps -> (p_state q = ZOMBIE -> forall r, ps !! ini = Some r -> p_state r = SLEEPING -> p_chan r <> ChProc ini) ->
  procs s' = alter (set_parent (Some ini)) k ps -> passing ini me par (Datatypes.S k) s'.
Proof.
  intros [Hm (p & Hp & Hpar) Hmi Haw Hd] Hq Hqp (E1 & E2 & E3) Hn Hini Eps. pose proof Hm as [Hinv Hi Hc (pm & Hpm & Hrun)].
  pose proof (pinv_nudged _ _ _ _ Hinv Hn) as Hinv'. destruct (nudged_fwd _ _ _ _ Hn Hq) as (q' & Hq' & Nq).
  pose proof (nudge1_fields _ _ Nq) as (F1 & F2 & F3 & F4 & F5 & F6 & F7 & F8 & F9). pose proof Hinv' as [A1 A2 A3 A4 A5 A6 A7 A8 A9].
  destruct A2 as (ri & Hri & Hai & Hrp). rewrite alter_case, Hq' in Eps.
  assert (Hkm : k <> me) by (intros ->; apply (pi_self _ _ _ Hinv _ _ Hq Hqp)).
  assert (Hki : k <> ini) by (intros ->; congruence).
  assert (Hinv2 : pinv ini (nextpid s) (procs s')).
  { rewrite Eps. eapply (pinv_upd _ _ _ _ _ q'); [exact Hinv'|exact Hq'|done| | | | | | | |]; unfold alive, live in *;
      cbn [set_parent p_state p_parent p_pid p_chan]; try done.
    - by left.
    - intros Hu. pose proof (A3 _ _ Hq' Hu). congruence.
    - intros _ _. by exists ini, ri.
    - intros Hl. split; [by eapply A5|]. intros j r Hj Hjk Hr E. apply Hjk. by eapply A6.
    - intros Hs x Hx. pose proof (A7 _ _ _ Hq' Hs Hx) as ->. split; [done|]. intros j z Hj _ Hz. by eapply A8.
    - intros Hz x r [= <-] Hr Hs. apply Hini; [by apply F6|done|done].
    - congruence. }
  assert (Hlk : forall j, j <> k -> procs s' !! j = ps !! j) by (intros j Hj; rewrite Eps; by rewrite list_lookup_insert_ne).
  split.
  - split; [by rewrite E3|congruence|congruence|]. destruct (nudged_fwd _ _ _ _ Hn Hpm) as (pm' & Hpm' & N). exists pm'.
    rewrite Hlk by done. split; [done|]. apply nudge1_fields in N as (_ & _ & _ & _ & _ & _ & _ & _ & ->). done.
  - destruct (nudged_fwd _ _ _ _ Hn Hp) as (p' & Hp' & N). exists p'. rewrite Hlk by done. split; [done|].
    apply nudge1_fields in N as (_ & -> & _). done.
  - done.
  - assert (Haw' : forall r, ps !! par = Some r -> p_state r = SLEEPING -> p_chan r <> ChProc par).
    { intros r Hr Hs. destruct (nudged_back _ _ _ _ Hn Hr) as (r0 & Hr0 & N). apply nudge1_fields in N as (_ & _ & -> & _ & Ns & _).
      apply (Haw r0 Hr0). by apply Ns. }
    intros r. destruct (decide (par = k)) as [->|Hne]; [|rewrite Hlk by done; apply Haw'].
    rewrite Eps, list_lookup_insert_eq by (by eapply lookup_lt_Some). intros [= <-]. cbn. by apply Haw'.
  - intros j r Hj. destruct (decide (j = k)) as [->|Hne].
    + rewrite Eps, list_lookup_insert_eq by (by eapply lookup_lt_Some). intros [= <-]. cbn. congruence.
    + rewrite Hlk by done. intros Hr. destruct (nudged_back _ _ _ _ Hn Hr) as (r0 & Hr0 & N). apply nudge1_fields in N as (_ & -> & _).
      apply (Hd j); [lia|done].
Qed.

Lemma wake_set_parent c x i (ps : list proc) : wake_chan c <$> alter (set_parent x) i ps = alter (set_parent x) i (wake_chan c <$> ps).
Proof.
  apply list_eq. intros j. rewrite list_lookup_fmap. destruct (decide (j = i)) as [->|Hne].
  - rewrite !list_lookup_alter_eq, list_lookup_fmap. destruct (ps !! i) as [p|]; [|done]. cbn. f_equal. unfold wake_chan. cbn.
    by destruct (_ && _).
  - by rewrite !list_lookup_alter_ne, list_lookup_fmap.
Qed.

Lemma exit_wlp ini me s : mid ini me s -> wlp (exit kend) (fun _ => kinv ini) s.
Proof.
  intros Hm. unfold exit. apply wlp_bind, wlp_gets, wlp_bind, wlp_gets. rewrite (md_cur _ _ _ Hm), (md_ini _ _ _ Hm).
  case_bool_decide as Hni; [apply wlp_panic|]. assert (Hmi : me <> ini) by congruence. apply wlp_bind.
  eapply wlp_conseq; [apply (wlp_each _ (mid ini me)); [exact Hm|]|].
  { intros fd s1 _ Hm1. apply wlp_bind, wlp_gets. destruct (nthd None _ fd) as [f|]; [|by apply wlp_ret].
    apply wlp_bind, wlp_xio. intros [] s2 K2 N2. pose proof (mid_nudged _ _ _ _ Hm1 K2 N2). harmless. by intros s3 Hm3 _. }
  clear s Hm. intros [] s Hm. apply wlp_bind, wlp_gets.
  destruct (md_run _ _ _ Hm) as (p & Hp & Hrun). rewrite (nthd_lookup _ _ _ _ Hp).
  destruct (pi_tree _ _ _ (md_inv _ _ _ Hm) me p Hp Hmi) as (par & r & Hpar & Hr & Har); [left; unfold alive; by rewrite Hrun|].
  rewrite Hpar.
  assert (Hsl : slot me RUNNING (Some par) s) by (by exists p).
  apply wlp_bind, wlp_xio. intros [] s1 K1 N1. apply wlp_bind, wlp_xio. intros [] s2 K2 N2. apply wlp_bind, wlp_xio. intros [] s3 K3 N3.
  assert (N : nudged (procs s) (procs s3)) by (etransitivity; [exact N1|]; etransitivity; [exact N2|exact N3]).
  pose proof (mid_nudged _ _ _ _ (mid_nudged _ _ _ _ (mid_nudged _ _ _ _ Hm K1 N1) K2 N2) K3 N3) as Hm3.
  pose proof (slot_nudged _ _ _ _ _ (or_intror (or_intror eq_refl)) Hsl N) as Hsl3.
  apply wlp_bind. harmless. intros s4 Hm4 H4. apply H4 in Hsl3 as Hsl4. clear H4. apply wlp_bind, wlp_modify.
  set (s5 := set_procs _ s4). assert (N5 : nudged (procs s4) (procs s5)) by apply wake_nudged.
  assert (HP : passing ini me par 0 s5).
  { split; [by eapply mid_nudged| |done|intros r0 Hr0; exact (not_waiting_wake par (procs s4) r0 Hr0)|intros j r0 Hj; lia].
    destruct (slot_nudged _ _ _ _ _ (or_intror (or_intror eq_refl)) Hsl4 N5) as (p5 & ? & _ & ?). by exists p5. }
  clearbody s5. clear s s1 s2 s3 s4 K1 K2 K3 N1 N2 N3 N N5 Hm Hm3 Hm4 Hp Hr Hsl Hsl3 Hsl4. apply wlp_bind.
  eapply wlp_conseq; [apply (wlp_each_seq _ (passing ini me par)); [exact HP|]|].
  - intros k s Hk Hps. apply wlp_bind, wlp_gets. pose proof (pi_len _ _ _ (md_inv _ _ _ (ps_mid _ _ _ _ _ Hps))) as Hlen.
    destruct (lookup_lt_is_Some_2 (procs s) k) as [q Hq]; [lia|]. rewrite (nthd_lookup _ _ _ _ Hq). case_bool_decide as Hqp.
    + apply wlp_bind, wlp_modify. case_bool_decide as Hz; [apply wlp_modify|apply wlp_ret].
      * eapply (passing_step _ _ _ _ s _ (wake_chan (ChProc ini) <$> procs s)); [exact Hps|exact Hq|exact Hqp|done|apply wake_nudged| |].
        -- intros _ r0 Hr0. exact (not_waiting_wake ini (procs s) r0 Hr0).
        -- cbn [procs set_procs]. apply wake_set_parent.
      * eapply (passing_step _ _ _ _ s _ (procs s)); [exact Hps|exact Hq|exact Hqp|done|done|done|done].
    + apply wlp_ret. destruct Hps as [B1 B2 B3 B4 B5]. split; [done|done|done|done|]. intros j r0 Hj. destruct (decide (j = k)) as [->|Hne];
        [congruence|apply B5; lia].
  - clear s5 HP. intros [] s [Hm (p5 & Hp5 & Hpar5) _ Haw Hd]. apply wlp_bind, wlp_modify. unfold sched. apply wlp_bind, wlp_gets, wlp_bind, wlp_gets.
    case_bool_decide; [apply wlp_panic|apply wlp_ret]. pose proof Hm as [Hinv Hi _ (pr & Hpr & Hrn)]. pose proof Hinv as [A1 A2 A3 A4 A5 A6 A7 A8 A9].
    assert (pr = p5) as -> by congruence. split; [|done]. cbn [procs set_procs nextpid]. rewrite alter_case, Hp5.
    eapply (pinv_upd _ _ _ _ _ p5); [exact Hinv|done|done| | | | | | | |]; unfold alive, live in *; cbn [set_state p_state p_parent p_pid p_chan]; try done.
    + intros _. right. split; [done|]. intros j r0 Hj. apply (Hd j); [|done]. apply lookup_lt_Some in Hj. lia.
    + intros _ _. apply (A4 me p5); [done|done|left; by rewrite Hrn].
    + intros _. split; [apply (A5 me p5); [done|by rewrite Hrn]|]. intros j r0 Hj Hjm Hr0 E. apply Hjm. apply (A6 j me r0 p5); [done|done|done|by rewrite Hrn|done].
    + intros _ q r0 Hq Hr0. rewrite Hpar5 in Hq. injection Hq as <-. by apply Haw.
    + by eapply A9.
Qed.

(** *** The other operations *)

Lemma kill_wlp ini me pid s : mid ini me s -> wlp (kill pid) (fun _ => mid ini me) s.
Proof.
  intros Hm. unfold kill. apply wlp_bind, wlp_gets. destruct (find_idx _ (procs s)) as [i|] eqn:Hf; [|by apply wlp_ret].
  apply wlp_bind. harmless. intros s1 Hm1 _. apply wlp_bind, wlp_gets, wlp_bind.
  case_bool_decide as Hs; [|by apply wlp_ret, wlp_ret]. apply wlp_modify, wlp_ret. eapply mid_nudged; [exact Hm1|done|].
  cbn [procs set_procs]. rewrite alter_case. destruct (procs s1 !! i) as [q|] eqn:Hq; [|done]. rewrite (nthd_lookup _ _ _ _ Hq) in Hs.
  apply Forall2_same_length_lookup. split; [by rewrite length_insert|]. intros j x y Hx Hy. destruct (decide (j = i)) as [->|Hne].
  - rewrite list_lookup_insert_eq in Hy by (by eapply lookup_lt_Some). right. split; congruence.
  - rewrite list_lookup_insert_ne in Hy by done. left. congruence.
Qed.

Lemma growproc_wlp ini me n s : mid ini me s -> wlp (growproc kend n) (fun _ => mid ini me) s.
Proof.
  intros Hm. unfold growproc. apply wlp_bind, wlp_gets, wlp_bind, wlp_gets, wlp_bind.
  assert (Hend : forall r s', mid ini me s' -> wlp (match r with None => ret (-1) | Some sz' =>
    bind (updp (curp s) (set_mem sz' (p_pgdir (nthd proc0 (procs s) (curp s))))) (fun _ => ret 0) end) (fun _ => mid ini me) s').
  { intros [sz|] s' Hm'; [|by apply wlp_ret]. apply wlp_bind. harmless. intros s2 Hm2 _. by apply wlp_ret. }
  destruct (0 <? n); [|destruct (n <? 0)]; [| |apply wlp_ret; exact (Hend (Some _) _ Hm)]; apply wlp_bind, wlp_xio; intros r s1 K1 N1; apply wlp_ret;
    exact (Hend _ _ (mid_nudged _ _ _ _ Hm K1 N1)).
Qed.

(** The running process stops running, or the scheduler picks one. *)
Lemma state_change ini s i p p' cur :
  kinv ini s -> procs s !! i = Some p -> alive p -> alive p' -> p_parent p' = p_parent p -> p_pid p' = p_pid p ->
  (p_state p' = SLEEPING -> forall q, p_chan p' = ChProc q ->
     q = i /\ forall j z, procs s !! j = Some z -> p_state z = ZOMBIE -> p_parent z <> Some i) ->
  kinv ini (Kern (k_x s) (<[i := p']> (procs s)) cur (initproc s) (nextpid s) (k_users s) (k_ticks s)).
Proof.
  intros [Hinv Hi] Hp Ha Ha' Epar Epid Hw. split; [|done]. cbn [procs nextpid]. pose proof Hinv as [A1 A2 A3 A4 A5 A6 A7 A8 A9].
  eapply (pinv_upd _ _ _ _ _ p); [exact Hinv|done|done| | | | | | | |]; rewrite ?Epar, ?Epid.
  - by left.
  - intros ->. destruct A2 as (r & Hr & _ & ?). congruence.
  - intros Hu. by destruct Ha'.
  - intros _ Hne. apply (A4 i p); [done|done|by left].
  - intros _. split; [eapply A5; [done|apply Ha]|]. intros j r Hj Hji Hr E. apply Hji. apply (A6 j i r p); [done|done|done|apply Ha|done].
  - intros Hs q Hq. destruct (Hw Hs q Hq) as [-> Hz]. split; [done|]. eauto.
  - intros Hz. by destruct Ha' as (_ & _ & ?).
  - by eapply A9.
Qed.

(** ** The system *)

Definition running (s : kern S) : Prop := exists p, procs s !! curp s = Some p /\ p_state p = RUNNING.

(** The steps of a system with any number of processors: system calls of a
    running process, any call of the layers below, the choice of a process to
    run, and a switch of attention to another processor.  A process id is
    taken from an [int] counter, which must not overflow. *)
Inductive pkstep : kern S -> kern S -> Prop :=
| SFork s r s' : running s -> nextpid s < 2 ^ 31 - 1 -> fork kend kdata forkret_eip s = Ok r s' -> pkstep s s'
| SExit s s' : running s -> exit kend s = Ok tt s' -> pkstep s s'
| SWait s r s' : running s -> wait kend s = Ok r s' -> pkstep s s'
| SWaitSleep s s1 s' : running s -> wait_scan kend s = Ok None s1 -> sleep (ChProc (curp s1)) s1 = Ok tt s' -> pkstep s s'
| SSleep s c s' : running s -> (forall q, c <> ChProc q) -> sleep c s = Ok tt s' -> pkstep s s'
| SReturn s s' : running s -> sleep_return s = Ok tt s' -> pkstep s s'
| SYield s s' : running s -> yield s = Ok tt s' -> pkstep s s'
| SKill s pid r s' : running s -> kill pid s = Ok r s' -> pkstep s s'
| SGrow s n r s' : running s -> growproc kend n s = Ok r s' -> pkstep s s'
| SWakeup s c s' : wakeup c s = Ok tt s' -> pkstep s s'
| SLayer {A} (m : M (files S) A) s a s' : xio m s = Ok a s' -> pkstep s s'
| SRun s i p s' : procs s !! i = Some p -> p_state p = RUNNABLE -> scheduler_run i s = Ok tt s' -> pkstep s s'
| SSwitch (s : kern S) i p : procs s !! i = Some p -> p_state p = RUNNING ->
    pkstep s (Kern (k_x s) (procs s) i (initproc s) (nextpid s) (k_users s) (k_ticks s)).

Lemma running_mid ini s : kinv ini s -> running s -> mid ini (curp s) s.
Proof. by intros [H1 H2] H3. Qed.

(** [updp me f] on the running process. *)
Lemma set_me (s : kern S) p f : procs s !! curp s = Some p ->
  set_procs (alter f (curp s)) s = Kern (k_x s) (<[curp s := f p]> (procs s)) (curp s) (initproc s) (nextpid s) (k_users s) (k_ticks s).
Proof. intros Hp. unfold set_procs. by rewrite alter_case, Hp. Qed.

Lemma sched_ok (s s' : kern S) : sched s = Ok tt s' -> s' = s.
Proof. unfold sched, bind, myproc, getp, gets. case_bool_decide; [done|]. by intros [= ->]. Qed.

Lemma sleep_kinv ini s c s' :
  kinv ini s -> running s -> sleep c s = Ok tt s' ->
  (forall q, c = ChProc q -> q = curp s /\ forall j z, procs s !! j = Some z -> p_state z = ZOMBIE -> p_parent z <> Some q) -> kinv ini s'.
Proof.
  intros Hk (p & Hp & Hr) E Hc. unfold sleep, bind, myproc, updp, gets, modify in E. apply sched_ok in E as ->.
  unfold set_procs at 1. cbn [procs set_procs k_x curp initproc nextpid k_users k_ticks]. rewrite alter_alter, alter_case, Hp.
  apply (state_change ini s (curp s) p); [done|done|unfold alive; by rewrite Hr|done|done|done|].
  intros _ q Hq. cbn in Hq. destruct (Hc q Hq) as [-> Hz]. done.
Qed.

Lemma ktable_step ini s s' : pkstep s s' -> kinv ini s -> kinv ini s'.
Proof.
  intros Hst Hk. pose proof (running_mid ini s Hk) as Hmid.
  destruct Hst as [s r s' Hr Hp E|s s' Hr E|s r s' Hr E|s s1 s' Hr E1 E2|s c s' Hr Hc E|s s' Hr E|s s' Hr E|s pid r s' Hr E|s n r s' Hr E|s c s' E
    |A m s a s' E|s i p s' Hp Hs E|s i p Hp Hs].
  - exact (mid_kinv _ _ _ (wlp_Ok _ _ _ _ _ (fork_wlp ini _ s (Hmid Hr) Hp) E)).
  - exact (wlp_Ok _ _ _ _ _ (exit_wlp ini _ s (Hmid Hr)) E).
  - unfold wait in E. pose proof (wait_wlp ini _ s (Hmid Hr)) as Hw. unfold wlp, bind in *. destruct (wait_scan kend s) as [[v|] s1| |]; [|done|done|done].
    injection E as <- <-. eapply mid_kinv, Hw.
  - destruct (wlp_Ok _ _ _ _ _ (wait_wlp ini _ s (Hmid Hr)) E1) as [Hm1 Hz]. pose proof (md_cur _ _ _ Hm1) as Hc.
    eapply (sleep_kinv ini s1); [by eapply mid_kinv| |exact E2|].
    + destruct (md_run _ _ _ Hm1) as (p & Hp & Hs). exists p. by rewrite Hc.
    + intros q [= <-]. split; [done|]. rewrite Hc. by apply Hz.
  - eapply (sleep_kinv ini s); [done|done|exact E|]. intros q ->. by destruct (Hc q).
  - destruct Hr as (p & Hp & Hs). unfold sleep_return, bind, myproc, updp, gets, modify in E. injection E as <-. rewrite (set_me _ p) by done.
    apply (state_change ini s (curp s) p); [done|done|unfold alive; by rewrite Hs|unfold alive; cbn; by rewrite Hs|done|done|done].
  - destruct Hr as (p & Hp & Hs). unfold yield, bind, myproc, updp, gets, modify in E. apply sched_ok in E as ->. rewrite (set_me _ p) by done.
    apply (state_change ini s (curp s) p); [done|done|unfold alive; by rewrite Hs|done|done|done|done].
  - exact (mid_kinv _ _ _ (wlp_Ok _ _ _ _ _ (kill_wlp ini _ pid s (Hmid Hr)) E)).
  - exact (mid_kinv _ _ _ (wlp_Ok _ _ _ _ _ (growproc_wlp ini _ n s (Hmid Hr)) E)).
  - injection E as <-. destruct Hk as [H1 H2]. split; [|done]. eapply pinv_nudged; [exact H1|apply wake_nudged].
  - destruct Hk as [H1 H2]. unfold xio in E. destruct (m (enter s)) as [a' x| |]; [|done|done]. injection E as <- <-.
    split; [|done]. eapply pinv_nudged; [exact H1|apply wake_all_nudged].
  - unfold scheduler_run, bind, updp, modify in E. injection E as <-. cbn [procs set_procs k_x curp initproc nextpid k_users k_ticks].
    rewrite alter_case, Hp. apply (state_change ini s i p); [done|done|unfold alive; by rewrite Hs|done|done|done|done].
  - done.
Qed.

(** The state [userinit] leaves: one process, init. *)
Record booted (ini : nat) (s : kern S) : Prop := Booted {
  bt_len : length (procs s) = nproc;
  bt_init : exists p, procs s !! ini = Some p /\ p_state p = RUNNABLE /\ p_parent p = None /\ p_pid p = 1;
  bt_free : forall i p, procs s !! i = Some p -> i <> ini -> p_state p = UNUSED /\ p_parent p = None;
  bt_pid : nextpid s = 2;
  bt_ini : initproc s = Some ini
}.

Lemma booted_kinv ini s : booted ini s -> kinv ini s.
Proof.
  intros [B1 (p & Hp & Hs & Hpar & Hpid) B3 B4 B5]. split; [|done]. rewrite B4.
  assert (Hc : forall i r, procs s !! i = Some r -> (i = ini /\ r = p) \/ (p_state r = UNUSED /\ p_parent r = None)).
  { intros i r Hr. destruct (decide (i = ini)) as [->|Hne]; [left; split; congruence|right; by apply (B3 i)]. }
  split; [done| | | | | | | |].
  - exists p. unfold alive. by rewrite Hs.
  - intros i r Hr Hu. destruct (Hc i r Hr) as [[-> ->]|[_ ?]]; [congruence|done].
  - intros i r Hr Hne Hal. destruct (Hc i r Hr) as [[-> ->]|[Hu _]]; [done|]. unfold alive in Hal. rewrite Hu in Hal. naive_solver.
  - intros i r Hr Hl. destruct (Hc i r Hr) as [[-> ->]|[Hu _]]; [lia|by destruct Hl].
  - intros i j r t Hr Ht Hlr Hlt _. destruct (Hc i r Hr) as [[-> ->]|[Hu _]]; [|by destruct Hlr].
    destruct (Hc j t Ht) as [[-> ->]|[Hu _]]; [done|by destruct Hlt].
  - intros i r q Hr Hsl. destruct (Hc i r Hr) as [[-> ->]|[Hu _]]; congruence.
  - intros i r j z Hr Hsl. destruct (Hc i r Hr) as [[-> ->]|[Hu _]]; congruence.
  - intros i r Hr. destruct (Hc i r Hr) as [[-> ->]|[_ ->]]; [by rewrite Hpar|done].
Qed.

(** [userinit] on the zeroed table. *)
Record booting (i : nat) (s : kern S) : Prop := Booting {
  bg_len : length (procs s) = nproc;
  bg_slot : exists p, procs s !! i = Some p /\ p_state p = EMBRYO /\ p_parent p = None /\ p_pid p = 1;
  bg_free : forall j p, procs s !! j = Some p -> j <> i -> p_state p = UNUSED /\ p_parent p = None;
  bg_pid : nextpid s = 2
}.

Lemma booting_xio {A} (m : M (files S) A) i (Q : A -> kern S -> Prop) s :
  booting i s -> (forall a s', booting i s' -> initproc s' = initproc s -> Q a s') -> wlp (xio m) Q s.
Proof.
  intros [B1 (p & Hp & Hs & Hpar & Hpid) B3 B4] HQ. apply wlp_xio. intros a s' (E1 & E2 & E3) Hn. apply HQ; [|done].
  split; [rewrite <- B1; symmetry; by eapply Forall2_length| | |congruence].
  - destruct (nudged_fwd _ _ _ _ Hn Hp) as (p' & Hp' & [->|[Hsl _]]); [by exists p|congruence].
  - intros j r' Hr' Hj. destruct (nudged_back _ _ _ _ Hn Hr') as (r & Hr & N). destruct (B3 j r Hr Hj) as [Hu Hpr].
    destruct N as [->|[Hsl _]]; [done|congruence].
Qed.

Lemma booting_updp f i (Q : unit -> kern S -> Prop) s :
  harmless f -> booting i s -> (forall s', booting i s' -> initproc s' = initproc s -> Q tt s') -> wlp (updp i f) Q s.
Proof.
  intros Hf [B1 (p & Hp & Hs & Hpar & Hpid) B3 B4] HQ. apply wlp_modify, HQ; [|done]. destruct (Hf p) as (F1 & F2 & F3 & _).
  split; cbn [procs set_procs nextpid]; rewrite ?alter_case, ?Hp.
  - by rewrite length_insert.
  - exists (f p). rewrite list_lookup_insert_eq by (by eapply lookup_lt_Some). rewrite F1, F2, F3. done.
  - intros j r Hr Hj. rewrite list_lookup_insert_ne in Hr by done. by eapply B3.
  - done.
Qed.

Lemma userinit_booted s :
  procs s = replicate nproc proc0 -> nextpid s = 1 ->
  wlp (userinit dev_read kend kdata forkret_eip initcode) (fun _ s' => exists ini, booted ini s') s.
Proof.
  intros Hps Hn. unfold userinit. apply wlp_bind. unfold allocproc. apply wlp_bind, wlp_gets. rewrite Hps at 1.
  change (find_idx _ (replicate nproc proc0)) with (Some 0%nat).
  apply wlp_bind, wlp_modify, wlp_bind, wlp_gets, wlp_bind, wlp_modify, wlp_bind, wlp_modify. cbn [nextpid set_procs procs curp initproc k_x k_users k_ticks].
  set (s1 := Kern _ _ _ _ _ _ _). assert (H1 : booting 0 s1).
  { subst s1. rewrite Hps, Hn. split; cbn [procs nextpid]; [done|by eexists| |done]. intros j p Hp Hj. rewrite !list_lookup_alter_ne in Hp by done.
    apply lookup_replicate in Hp as [-> _]. done. }
  clearbody s1. clear s Hps Hn. apply wlp_bind. eapply booting_xio; [exact H1|]. intros ks s2 H2 _.
  apply wlp_bind. eapply booting_updp; [intros q; by repeat split|exact H2|]. intros s3 H3 _. destruct (ks =? 0).
  { apply wlp_bind, wlp_modify, wlp_ret. apply wlp_bind, wlp_modify, wlp_panic. }
  apply wlp_bind, wlp_gets, wlp_bind. eapply booting_updp; [intros q; by repeat split|exact H3|]. intros s4 H4 _.
  apply wlp_bind. eapply booting_updp; [intros q; by repeat split|exact H4|]. intros s5 H5 _. apply wlp_ret, wlp_bind, wlp_modify.
  set (s6 := Kern _ _ _ _ _ _ _). assert (H6 : booting 0 s6) by (by destruct H5). assert (I6 : initproc s6 = Some 0%nat) by done.
  clearbody s6. clear s1 s2 s3 s4 s5 H1 H2 H3 H4 H5. apply wlp_bind. eapply booting_xio; [exact H6|]. intros d s7 H7 I7.
  apply wlp_bind, wlp_gets, wlp_bind. eapply booting_updp; [intros q; by repeat split|exact H7|]. intros s8 H8 I8. destruct (d =? 0); [apply wlp_panic|].
  apply wlp_bind. eapply booting_xio; [exact H8|]. intros [] s9 H9 I9.
  do 3 (apply wlp_bind; eapply booting_updp; [intros q; by repeat split|eassumption|]; intros ?s ?H ?I).
  apply wlp_bind. eapply booting_xio; [eassumption|]. intros c s13 H13 I13.
  do 2 (apply wlp_bind; eapply booting_updp; [intros q; by repeat split|eassumption|]; intros ?s ?H ?I).
  apply wlp_modify. exists 0%nat. match goal with H : booting 0 ?x |- booted 0 (set_procs _ ?x) => destruct H as [B1 (p & Hp & Hs & Hpar & Hpid) B3 B4] end.
  split; cbn [procs set_procs nextpid initproc]; rewrite ?alter_case, ?Hp; [by rewrite length_insert| | |done|congruence].
  - exists (set_state RUNNABLE p). rewrite list_lookup_insert_eq by (by eapply lookup_lt_Some). done.
  - intros j r Hr Hj. rewrite list_lookup_insert_ne in Hr by done. by eapply B3.
Qed.

End Ops.
