(* ===== verification/Fork.v ===== *)
(** What [fork] makes: the child, its memory, its open files. *)
From stdpp Require Import base numbers list strings gmap.
From Stdlib Require Import ZArith Lia.
From S2P Require Import Prelude Params CString Users Namecache Bio Log Store Fs Inode Sample Kalloc Vm Walk Uvm Grow Pipe File Proc Ptable.

Local Open Scope list_scope.
Local Open Scope Z_scope.

Section Fork.
Context {S : Type} `{!BlockStore S}.
Context (kend kdata forkret_eip : Z).
Abbreviation K := (M (kern S)).

(** A call of a lower layer that wakes nobody leaves the table alone. *)
Definition with_x (x : files S) (s : kern S) : kern S :=
  Kern x (procs s) (curp s) (initproc s) (nextpid s) (k_users s) (k_ticks s).
Definition with_mem (k : kmem) (x : files S) : files S := Files (x_fs x) (ftab x) (pipes x) k (x_killed x) (woken x).
Definition with_ftab (t : list file) (x : files S) : files S := Files (x_fs x) t (pipes x) (x_mem x) (x_killed x) (woken x).

Lemma wp_xio {A} (m : M (files S) A) Q E s :
  wp m (fun a x => woken x = [] /\ Q a (with_x x s)) E (enter s) -> wp (xio m) Q E s.
Proof.
  unfold wp, xio. destruct (m (enter s)) as [a x| |]; [|done|done]. intros [Hw HQ]. unfold leave. rewrite Hw. exact HQ.
Qed.

Lemma wp_kio {A} (m : M kmem A) Q E s :
  wp m (fun a k => Q a (with_x (with_mem k (enter s)) s)) E (x_mem (k_x s)) -> wp (kio m) Q E s.
Proof. intros H. apply wp_xio, (wp_zoom x_mem). eapply wp_conseq; [exact H|]. intros a k HQ. done. Qed.

Lemma wp_getp {B} i p (h : proc -> K B) Q E s : procs s !! i = Some p -> wp (h p) Q E s -> wp (bind (getp i) h) Q E s.
Proof. intros Hp Hw. apply wp_bind, wp_gets. by rewrite (nthd_lookup _ _ _ _ Hp). Qed.

Lemma wp_updp i p f (Q : unit -> kern S -> Prop) E s :
  procs s !! i = Some p -> Q tt (set_procs (insert i (f p)) s) -> wp (updp i f) Q E s.
Proof. intros Hp HQ. apply wp_modify. unfold set_procs in *. by rewrite alter_case, Hp. Qed.

(** ** The open files *)

(** The array after the loop: the entries of [l] from index [k] on. *)
Fixpoint paste (k : nat) (l o : list (option nat)) : list (option nat) :=
  match l with
  | [] => o
  | Some f :: l' => paste (1 + k) l' (<[k := Some f]> o)
  | None :: l' => paste (1 + k) l' o
  end.
(** The file table after the loop. *)
Fixpoint bump (l : list (option nat)) (ft : list file) : list file :=
  match l with
  | [] => ft
  | Some f :: l' => bump l' (alter (fun x => set_fref (f_ref x + 1) x) f ft)
  | None :: l' => bump l' ft
  end.
Definition refs (f : nat) (l : list (option nat)) : nat := length (filter (fun o => o = Some f) l).

Lemma paste_empty l : forall k o, (forall j, (k <= j)%nat -> (j < k + length l)%nat -> o !! j = Some None) -> length o = (k + length l)%nat ->
  paste k l o = take k o ++ l.
Proof.
  induction l as [|[f|] l IH]; intros k o Ho Hlen; cbn [paste length] in *.
  - rewrite app_nil_r, take_ge; [done|lia].
  - rewrite IH.
    + rewrite (take_S_r _ k (Some f)) by (apply list_lookup_insert_eq; lia). rewrite take_insert_ge by lia. by rewrite <- app_assoc.
    + intros j H1 H2. rewrite list_lookup_insert_ne by lia. apply Ho; lia.
    + rewrite length_insert. lia.
  - rewrite IH; [|intros j H1 H2; apply Ho; lia|lia]. rewrite (take_S_r _ k None) by (apply Ho; lia). by rewrite <- app_assoc.
Qed.

Lemma bump_lookup l : forall ft f x, ft !! f = Some x -> bump l ft !! f = Some (set_fref (f_ref x + Z.of_nat (refs f l)) x).
Proof.
  induction l as [|[g|] l IH]; intros ft f x Hx; cbn [bump].
  - unfold refs. cbn. rewrite Hx, Z.add_0_r. by destruct x.
  - destruct (decide (g = f)) as [->|Hne].
    + rewrite (IH _ f (set_fref (f_ref x + 1) x)) by (by rewrite list_lookup_alter_eq, Hx). unfold refs. rewrite filter_cons_True by done.
      cbn [f_ref set_fref length]. f_equal. unfold set_fref. cbn. f_equal. lia.
    + rewrite (IH _ f x) by (by rewrite list_lookup_alter_ne). unfold refs. rewrite filter_cons_False by congruence. done.
  - rewrite (IH _ f x) by done. unfold refs. by rewrite filter_cons_False.
Qed.

(** The lower layers already have the running process's credentials. *)
Definition entered (s : kern S) : Prop := k_x s = enter s.

Lemma entered_x (x : files S) s p :
  procs s !! curp s = Some p -> cur (x_fs x) = cred_of p -> x_killed x = p_killed p -> woken x = [] -> entered (with_x x s).
Proof.
  intros Hp Hc Hk Hw. unfold entered, enter, with_x. cbn [k_x procs curp]. rewrite (nthd_lookup _ _ _ _ Hp).
  destruct x as [[t b ic nc me] ft ps km kl w]. cbn in *. by subst.
Qed.

Lemma entered_procs i f (s : kern S) : i <> curp s -> entered s -> entered (set_procs (alter f i) s).
Proof.
  intros Hi He. unfold entered, enter, set_procs in *. cbn [k_x procs curp]. unfold nthd in *. by rewrite list_lookup_alter_ne.
Qed.

Lemma entered_insert i f (s : kern S) : i <> curp s -> entered s -> entered (set_procs (insert i f) s).
Proof.
  intros Hi He. unfold entered, enter, set_procs in *. cbn [k_x procs curp]. unfold nthd in *. by rewrite list_lookup_insert_ne.
Qed.

Lemma filedup_wp f x Q E (y : files S) :
  ftab y !! f = Some x -> 1 <= f_ref x -> f_ref x + 1 < 2 ^ 31 ->
  Q f (with_ftab (alter (fun x => set_fref (f_ref x + 1) x) f (ftab y)) y) -> wp (filedup f) Q E y.
Proof.
  intros Hx H1 H2 HQ. unfold filedup. destruct y as [yf ft ps k kl w]. cbn in Hx. eapply wp_getf; [exact Hx|].
  rewrite (proj2 (Z.ltb_ge _ _)) by lia. apply wp_bind. eapply wp_updf; [exact Hx|]. apply wp_ret.
  rewrite i32_small by lia. unfold with_ftab in HQ. cbn in HQ. by rewrite (alter_insert_file _ _ _ _ Hx) in HQ.
Qed.

Lemma dup_files_wp np Q E l : forall k s c pc,
  procs s !! curp s = Some pc -> np <> curp s -> entered s -> procs s !! np = Some c ->
  (forall f, Some f ∈ l -> exists x, ftab (k_x s) !! f = Some x /\ 1 <= f_ref x /\ f_ref x + Z.of_nat (length l) < 2 ^ 31) ->
  (forall s', s' = set_procs (insert np (set_ofile (paste k l (p_ofile c)) c)) (with_x (with_ftab (bump l (ftab (k_x s))) (k_x s)) s) -> Q tt s') ->
  wp (each (zip (seq k (length l)) l) (fun '(fd, f) =>
    match f with
    | Some f => bind (xio (filedup f)) (fun f' => updp np (fun p => set_ofile (<[fd := Some f']> (p_ofile p)) p))
    | None => ret tt
    end)) Q E s.
Proof.
  induction l as [|[f|] l IH]; intros k s c pc Hpc Hne He Hc Hf HQ; cbn [length seq zip zip_with each].
  - apply wp_ret, HQ. cbn [paste bump]. destruct s as [x ps cu ini npid us tk]. unfold set_procs, with_x, with_ftab. cbn in *.
    rewrite list_insert_id by (rewrite Hc; by destruct c). by destruct x.
  - destruct (Hf f ltac:(left)) as (x & Hx & H1 & H2). cbn [length] in H2. apply wp_bind, wp_bind, wp_xio. rewrite <- He.
    eapply filedup_wp; [exact Hx|lia|lia|]. split; [by rewrite He|]. eapply wp_updp; [exact Hc|].
    pose proof (lookup_lt_Some _ _ _ Hc) as Hlt. set (s1 := set_procs _ _).
    assert (Hpc1 : procs s1 !! curp s1 = Some pc) by (subst s1; cbn; by rewrite list_lookup_insert_ne).
    assert (He1 : entered s1).
    { subst s1. apply entered_insert; [done|]. rewrite He. eapply entered_x; [exact Hpc| | |done]; cbn; by rewrite (nthd_lookup _ _ _ _ Hpc). }
    apply (IH (1 + k)%nat s1 (set_ofile (<[k := Some f]> (p_ofile c)) c) pc); [done|done|done|subst s1; cbn; by apply list_lookup_insert_eq| |].
    + intros g Hg. destruct (Hf g ltac:(by right)) as (y & Hy & G1 & G2). subst s1. cbn [k_x with_x set_procs ftab with_ftab]. cbn [length] in G2.
      destruct (decide (f = g)) as [->|Hfg].
      * assert (y = x) as -> by congruence. exists (set_fref (f_ref x + 1) x). rewrite list_lookup_alter_eq, Hx. cbn. split; [done|]. lia.
      * exists y. rewrite list_lookup_alter_ne by done. split; [done|]. lia.
    + intros s' ->. apply HQ. subst s1. unfold set_procs, with_x, with_ftab. cbn [k_x procs curp initproc nextpid k_users k_ticks x_fs ftab pipes x_mem x_killed woken].
      rewrite list_insert_insert_eq. done.
  - apply wp_bind, wp_ret. apply (IH (1 + k)%nat s c pc); [done|done|done|done| |].
    + intros g Hg. destruct (Hf g ltac:(by right)) as (y & Hy & G1 & G2). cbn [length] in G2. exists y. split; [done|]. lia.
    + intros s' ->. by apply HQ.
Qed.

(** ** The child *)

Lemma vm_wf_pop k t l pgdir :
  vm_wf kend k (t :: l) pgdir -> vm_wf kend (Kmem (pm k) (rd 4 0 (pm k t)) (use_lock k)) l pgdir.
Proof.
  intros [[Hch Hnd Hpp] (D1 & D2 & D3 & D4) Hw Ht Hi]. apply Forall_cons in Hpp as [_ Hpp]. apply NoDup_cons in Hnd as [_ Hnd].
  cbn [chain] in Hch. destruct Hch as (_ & _ & _ & Hch). apply not_elem_of_cons in D3 as [_ D3]. split; [by split|done|exact Hw| |exact Hi].
  intros d Hd Hp. destruct (Ht d Hd Hp) as (T1 & T2 & T3 & T4 & T5). apply not_elem_of_cons in T3 as [_ T3]. done.
Qed.

(** What [fork] may rely on. *)
Record can_fork (s : kern S) (p : proc) (np : nat) (c0 : proc) (ks : Z) (l : list Z) (w : nat) (i : inode) : Prop := CanFork {
  cf_cur : procs s !! curp s = Some p /\ p_state p <> UNUSED;
  cf_slot : find_idx (fun q => bool_decide (p_state q = UNUSED)) (procs s) = Some np /\ procs s !! np = Some c0;
  cf_fresh : p_ofile c0 = replicate nofile None;
  cf_mem : vm_wf kend (x_mem (k_x s)) (ks :: l) (p_pgdir p);
  cf_sz : 0 <= p_sz p <= KERNBASE;
  cf_pages : forall x, 0 <= x < p_sz p + PGSIZE -> x / PGSIZE * PGSIZE < p_sz p ->
    has (ent (x_mem (k_x s)) (p_pgdir p) x) PTE_P = true /\ (uaddr (x_mem (k_x s)) (p_pgdir p) x ∉ ks :: l) /\
    length (pm (x_mem (k_x s)) (uaddr (x_mem (k_x s)) (p_pgdir p) x)) = pgsize;
  cf_room : 129 + 2 * ((p_sz p + PGSIZE - 1) / PGSIZE) <= Z.of_nat (length l);
  cf_pid : 0 <= nextpid s < 2 ^ 31 - 1;
  cf_files : length (p_ofile p) = nofile /\ forall f, Some f ∈ p_ofile p ->
    exists x, ftab (k_x s) !! f = Some x /\ 1 <= f_ref x /\ f_ref x + NOFILE < 2 ^ 31;
  cf_cwd : p_cwd p = Some w /\ icache (x_fs (k_x s)) !! w = Some i /\ 1 <= i_ref i < 2 ^ 31 - 1
}.

(** The child [c] in slot [np], and what else [fork] changes. *)
Record forked (s : kern S) (p : proc) (np : nat) (c0 : proc) (ks : Z) (l : list Z) (w : nat) (i : inode) (s' : kern S) : Prop := Forked {
  fk_child : exists c, procs s' = <[np := c]> (procs s) /\
    p_state c = RUNNABLE /\ p_pid c = nextpid s /\ p_parent c = Some (curp s) /\ p_tf c = <[TF_EAX := 0]> (p_tf p) /\
    p_context c = [0; 0; 0; 0; forkret_eip] /\ p_kstack c = ks /\ p_ofile c = p_ofile p /\ p_cwd c = p_cwd p /\ p_sz c = p_sz p /\
    p_uid c = p_uid p /\ p_gid c = p_gid p /\ p_killed c = p_killed c0 /\
    (forall x, 0 <= x < p_sz p -> ubyte (x_mem (k_x s')) (p_pgdir c) x = ubyte (x_mem (k_x s)) (p_pgdir p) x /\
       uaddr (x_mem (k_x s')) (p_pgdir c) x ∈ l);
  fk_mem : forall b, b ∉ l -> pm (x_mem (k_x s')) b = pm (x_mem (k_x s)) b;
  fk_files : forall f x, ftab (k_x s) !! f = Some x -> ftab (k_x s') !! f = Some (set_fref (f_ref x + Z.of_nat (refs f (p_ofile p))) x);
  fk_cwd : icache (x_fs (k_x s')) = <[w := set_ref (i_ref i + 1) i]> (icache (x_fs (k_x s)));
  fk_pid : nextpid s' = nextpid s + 1
}.

Context (Hkm : kdata mod PGSIZE = 0) (Hkr : KERNLINK < kdata < KERNBASE + PHYSTOP).

(** The parts of the kernel [fork] works on. *)
Record view (s : kern S) (ps : list proc) (k : kmem) (ft : list file) (ic : list inode) (me : nat) (n : Z) : Prop := View {
  vi_procs : procs s = ps;
  vi_mem : x_mem (k_x s) = k;
  vi_ftab : ftab (k_x s) = ft;
  vi_icache : icache (x_fs (k_x s)) = ic;
  vi_cur : curp s = me;
  vi_pid : nextpid s = n;
  vi_ent : entered s
}.

Lemma view_updp s ps k ft ic me n np c f Q E :
  view s ps k ft ic me n -> ps !! np = Some c -> np <> me ->
  (forall s', view s' (<[np := f c]> ps) k ft ic me n -> Q tt s') -> wp (updp np f) Q E s.
Proof.
  intros [V1 V2 V3 V4 V5 V6 V7] Hc Hne HQ. eapply wp_updp; [by rewrite V1|]. apply HQ. split; cbn; try done; [by rewrite V1|].
  apply entered_insert; [congruence|done].
Qed.

Lemma view_kio {A} (m : M kmem A) s ps k ft ic me n Q E :
  view s ps k ft ic me n ->
  wp m (fun a k' => forall s', view s' ps k' ft ic me n -> Q a s') E k -> wp (kio m) Q E s.
Proof.
  intros [V1 V2 V3 V4 V5 V6 V7] Hm. apply wp_kio. rewrite V2. eapply wp_conseq; [exact Hm|]. intros a k' HQ. apply HQ.
  by split.
Qed.

Lemma view_idup s ps k ft ic me n w i Q E :
  view s ps k ft ic me n -> ic !! w = Some i -> 0 <= i_ref i < 2 ^ 31 - 1 ->
  (forall s', view s' ps k ft (<[w := set_ref (i_ref i + 1) i]> ic) me n -> Q w s') -> wp (nio (idup w)) Q E s.
Proof.
  intros [V1 V2 V3 V4 V5 V6 V7] Hi Hr HQ. apply wp_xio, (wp_zoom x_fs). unfold idup, enter. cbn [x_fs]. apply wp_bind.
  eapply wp_updi; [by rewrite V4|]. apply wp_ret. split; [done|]. apply HQ. rewrite V4. split; try done. cbn. by rewrite i32_small by lia.
Qed.

(** The slot [allocproc] returns. *)
Definition born (ks : Z) (tf : list Z) (pid : Z) (c0 : proc) : proc :=
  set_context [0; 0; 0; 0; forkret_eip] (set_tf tf (set_kstack ks (set_pid pid (set_state EMBRYO c0)))).

Lemma allocproc_wp s p np c0 ks l Q E :
  procs s !! curp s = Some p -> np <> curp s ->
  find_idx (fun q => bool_decide (p_state q = UNUSED)) (procs s) = Some np -> procs s !! np = Some c0 ->
  free_list kend (x_mem (k_x s)) (ks :: l) -> 0 <= nextpid s < 2 ^ 31 - 1 ->
  (forall s' tf, view s' (<[np := born ks tf (nextpid s) c0]> (procs s))
     (Kmem (pm (x_mem (k_x s))) (rd 4 0 (pm (x_mem (k_x s)) ks)) (use_lock (x_mem (k_x s))))
     (ftab (k_x s)) (icache (x_fs (k_x s))) (curp s) (nextpid s + 1) -> Q (Some np) s') ->
  wp (allocproc forkret_eip) Q E s.
Proof.
  intros Hp Hne Hfind Hc0 Hfl Hpid HQ. pose proof (lookup_lt_Some _ _ _ Hc0) as Hlt.
  destruct (kalloc_pop kend _ _ _ Hfl) as [Hks Ek]. set (k1 := Kmem _ _ _) in *. unfold allocproc. apply wp_bind, wp_gets. rewrite Hfind.
  apply wp_bind. eapply wp_updp; [exact Hc0|]. apply wp_bind, wp_gets, wp_bind. eapply wp_updp; [cbn; by apply list_lookup_insert_eq|].
  apply wp_bind, wp_modify. cbn [k_x procs curp initproc nextpid k_users k_ticks set_procs]. rewrite list_insert_insert_eq.
  apply wp_bind, wp_kio. unfold wp at 1. cbn [k_x]. rewrite Ek. set (c1 := set_pid (nextpid s) (set_state EMBRYO c0)) in *.
  set (s1 := with_x _ _). assert (V1 : view s1 (<[np := c1]> (procs s)) k1 (ftab (k_x s)) (icache (x_fs (k_x s))) (curp s) (nextpid s + 1)).
  { subst s1. split; cbn; [done|done|done|done|done|apply i32_small; lia|].
    eapply entered_x; cbn; [by rewrite list_lookup_insert_ne| | |done]; unfold nthd; by rewrite list_lookup_insert_ne, Hp. }
  clearbody s1. assert (L1 : forall c, <[np := c]> (procs s) !! np = Some c) by (intros c; by apply list_lookup_insert_eq).
  apply wp_bind. eapply view_updp; [exact V1|apply L1|done|]. rewrite list_insert_insert_eq. intros s2 V2.
  rewrite (proj2 (Z.eqb_neq _ _) Hks). apply wp_bind, wp_gets. set (tf := fmap _ (seq 0 tf_words)).
  apply wp_bind. eapply view_updp; [exact V2|apply L1|done|]. rewrite list_insert_insert_eq. intros s3 V3.
  apply wp_bind. eapply view_updp; [exact V3|apply L1|done|]. rewrite list_insert_insert_eq. intros s4 V4.
  apply wp_ret. by apply (HQ s4 tf).
Qed.

Lemma fork_wp s p np c0 ks l w i :
  can_fork s p np c0 ks l w i ->
  wp (fork kend kdata forkret_eip) (fun r s' => r = nextpid s /\ forked s p np c0 ks l w i s') (fun _ => False) s.
Proof.
  intros [[Hp Hpu] [Hfind Hc0] Hfresh Hmem Hsz Hpages Hroom Hpid [Hol Hof] (Hcwd & Hi & Hir)].
  pose proof Hfind as [(c0' & Hc0' & Hun) _]%find_idx_Some. assert (c0' = c0) as -> by congruence. apply bool_decide_eq_true in Hun.
  assert (Hne : np <> curp s) by (intros ->; congruence). pose proof (lookup_lt_Some _ _ _ Hc0) as Hlt.
  pose proof (vm_wf_pop _ _ _ _ Hmem) as Hmem1.
  assert (L1 : forall c, <[np := c]> (procs s) !! np = Some c) by (intros c; by apply list_lookup_insert_eq).
  assert (L2 : forall c, <[np := c]> (procs s) !! curp s = Some p) by (intros c; by rewrite list_lookup_insert_ne).
  unfold fork. apply wp_bind, wp_gets, wp_bind. eapply allocproc_wp; [exact Hp|exact Hne|exact Hfind|exact Hc0|apply Hmem|exact Hpid|].
  set (k1 := Kmem _ _ _) in *. intros s4 tf V4.
  apply wp_bind, wp_gets. rewrite (vi_procs _ _ _ _ _ _ _ V4), (nthd_lookup _ _ _ _ (L2 _)). apply wp_bind.
  eapply view_kio; [exact V4|]. eapply wp_conseq; [apply (copyuvm_wp kend kdata Hkm Hkr k1 l (p_pgdir p) (p_sz p)); [exact Hmem1|exact Hsz| |exact Hroom]|].
  { intros x H1 H2. destruct (Hpages x H1 H2) as (P1 & P2 & P3). apply not_elem_of_cons in P2 as [_ P2]. done. }
  intros d k5 (Hd & l5 & _ & Hbytes & _ & _ & Hpm) s5 V5. eapply wp_getp; [rewrite (vi_procs _ _ _ _ _ _ _ V5); apply L1|].
  apply wp_bind. eapply view_updp; [exact V5|apply L1|done|]. rewrite list_insert_insert_eq. intros s6 V6. rewrite (proj2 (Z.eqb_neq _ _) Hd).
  apply wp_bind. eapply view_updp; [exact V6|apply L1|done|]. rewrite list_insert_insert_eq. intros s7 V7.
  apply wp_bind. eapply view_updp; [exact V7|apply L1|done|]. rewrite list_insert_insert_eq. intros s8 V8.
  apply wp_bind. eapply view_updp; [exact V8|apply L1|done|]. rewrite list_insert_insert_eq. intros s9 V9.
  apply wp_bind. unfold dup_files. eapply dup_files_wp.
  { rewrite (vi_procs _ _ _ _ _ _ _ V9), (vi_cur _ _ _ _ _ _ _ V9). apply L2. }
  { by rewrite (vi_cur _ _ _ _ _ _ _ V9). } { apply V9. } { rewrite (vi_procs _ _ _ _ _ _ _ V9). apply L1. }
  { intros f Hf. destruct (Hof f Hf) as (x & Hx & R1 & R2). exists x. rewrite (vi_ftab _ _ _ _ _ _ _ V9), Hol. split; [done|]. split; [done|].
    unfold nofile. change NOFILE with 16 in *. lia. }
  intros s10 E10. set (c9 := set_tf (<[TF_EAX := 0]> (p_tf p)) _) in *.
  assert (Hpaste : paste 0 (p_ofile p) (p_ofile c9) = p_ofile p).
  { change (p_ofile c9) with (p_ofile c0). rewrite Hfresh, paste_empty; [by rewrite take_0| |by rewrite length_replicate].
    intros j _ Hj. apply lookup_replicate. split; [done|]. lia. }
  rewrite Hpaste in E10.
  assert (V10 : view s10 (<[np := set_ofile (p_ofile p) c9]> (procs s)) k5 (bump (p_ofile p) (ftab (k_x s))) (icache (x_fs (k_x s))) (curp s) (nextpid s + 1)).
  { destruct V9 as [W1 W2 W3 W4 W5 W6 W7]. subst s10. split; cbn; [by rewrite W1, list_insert_insert_eq|done|by rewrite W3|done|done|done|].
    apply entered_insert; [cbn; by rewrite W5|]. rewrite W7. eapply entered_x; cbn; [by rewrite W1, W5; apply L2| | |done];
      unfold nthd; by rewrite W1, W5, L2. }
  clear E10. apply wp_bind. rewrite Hcwd. change (default 0%nat (Some w)) with w. eapply view_idup; [exact V10|exact Hi|lia|]. intros s11 V11.
  apply wp_bind. eapply view_updp; [exact V11|apply L1|done|]. rewrite list_insert_insert_eq. intros s12 V12.
  apply wp_bind. eapply view_updp; [exact V12|apply L1|done|]. rewrite list_insert_insert_eq. intros s13 V13.
  eapply wp_getp; [rewrite (vi_procs _ _ _ _ _ _ _ V13); apply L1|].
  apply wp_bind. eapply view_updp; [exact V13|apply L1|done|]. rewrite list_insert_insert_eq. intros s14 V14.
  apply wp_bind. eapply view_updp; [exact V14|apply L1|done|]. rewrite list_insert_insert_eq. intros s15 [W1 W2 W3 W4 W5 W6 W7].
  apply wp_ret. split; [done|]. split.
  - eexists. split; [exact W1|]. rewrite W2. split_and!; try done. intros x Hx. cbn. destruct (Hbytes x Hx) as (Hb & _ & Hu). done.
  - intros b Hb. rewrite W2. by rewrite Hpm.
  - intros f x Hx. rewrite W3. by apply bump_lookup.
  - done.
  - done.
Qed.


(** Kill of process id 0.  The slots of the table that have never been
    used, and those of processes that have been waited for, have process id 0:
    [kill(0)] succeeds on such a slot, and since [fork] does not reset
    [killed], the next child to get the slot starts out killed. *)
Theorem kill_zero_dooms_child s p np c0 ks l w i (H : can_fork s p np c0 ks l w i) (H0 : p_pid c0 = 0)
    (Hother : forall j q, (j < np)%nat -> procs s !! j = Some q -> p_pid q <> 0) :
  wp (bind (kill 0) (fun k => bind (fork kend kdata forkret_eip) (fun r => ret (k, r))))
     (fun r s' => r = (0, nextpid s) /\ exists c, procs s' !! np = Some c /\ p_pid c = nextpid s /\ p_killed c = 1) (fun _ => False) s.
Proof.
  pose proof H as [[Hp Hpu] [Hfind Hc0] Hfresh Hmem Hsz Hpages Hroom Hpid [Hol Hof] (Hcwd & Hi & Hir)].
  pose proof Hfind as [(c0' & Hc0' & Hun) _]%find_idx_Some. assert (c0' = c0) as -> by congruence. apply bool_decide_eq_true in Hun.
  assert (Hne : np <> curp s) by (intros ->; congruence). pose proof (lookup_lt_Some _ _ _ Hc0) as Hlt.
  apply wp_bind. unfold kill. apply wp_bind, wp_gets.
  assert (Hk : find_idx (fun q => p_pid q =? 0) (procs s) = Some np).
  { apply find_idx_Some. split; [exists c0; by rewrite H0|]. intros j q Hj Hq. apply Z.eqb_neq. by apply (Hother j). }
  rewrite Hk. apply wp_bind. eapply wp_updp; [exact Hc0|]. eapply wp_getp; [by apply list_lookup_insert_eq|].
  cbn [set_killed p_state]. rewrite Hun, bool_decide_false by done. apply wp_bind, wp_ret, wp_ret, wp_bind. set (s1 := set_procs _ s).
  assert (H1 : can_fork s1 p np (set_killed 1 c0) ks l w i).
  { split; try done; subst s1; cbn [procs set_procs curp].
    - by rewrite list_lookup_insert_ne.
    - split; [|by apply list_lookup_insert_eq]. rewrite <- Hfind. apply find_idx_ext. intros j. destruct (decide (j = np)) as [->|Hj].
      + rewrite list_lookup_insert_eq, Hc0; [done|done].
      + by rewrite list_lookup_insert_ne. }
  eapply wp_conseq; [apply (fork_wp s1 p np (set_killed 1 c0) ks l w i H1)|].
  cbv beta. intros r s' [-> [(c & Ec & _ & C1 & _ & _ & _ & _ & _ & _ & _ & _ & _ & C2 & _) _ _ _ _]]. apply wp_ret. split; [done|].
  exists c. rewrite Ec, list_lookup_insert_eq; [done|]. subst s1. cbn. by rewrite length_insert.
Qed.
End Fork.

(** ** A sample: a process of user 1000 with two pages and an open file *)

Definition smp_proc : proc :=
  Proc 5000 smp_dir 0 RUNNING 1 None (replicate tf_words 7) (replicate 5 0) ChNull 0 (<[0%nat := Some 0%nat]> (replicate nofile None))
    (Some 0%nat) (replicate 16 0) 1000 1000.
Definition smp_kern (k : kmem) : kern lst :=
  Kern (Files (x_fs smp_files) smp_ftab ∅ k 0 []) (<[0%nat := smp_proc]> (replicate nproc proc0)) 0 (Some 0%nat) 2 utable0 0.

Lemma smp_can_fork : exists k ks l, can_fork smp_kend (smp_kern k) smp_proc 1 proc0 ks l 0 smp_root /\
  forall x, 0 <= x < 8192 -> user k smp_dir x = true /\ ubyte k smp_dir x = 0.
Proof.
  destruct (wp_total _ _ _ (smp_grow (fun r k => exists l', grown smp_kend smp_mem1 (tail smp_list) smp_dir 0 2 k l') (fun s' l' G => ex_intro _ l' G)))
    as (r & k & _ & l & G).
  pose proof G as [G1 G2 (kk & G3 & G3') G4 _ _].
  assert (Hl : (300 <= length l)%nat) by (pose proof smp_room as Hr; rewrite G3, length_app in Hr; cbn in G3'; lia).
  destruct l as [|ks l]; [cbn in Hl; lia|]. exists k, ks, l.
  assert (Hu : forall x, 0 <= x < 8192 -> user k smp_dir x = true /\ ubyte k smp_dir x = 0) by (intros x Hx; apply G4; unfold PGSIZE; lia).
  split; [|done]. split; [done|done|done|exact G1|done| | |done| |done].
  - change (p_sz smp_proc) with 5000. change (x_mem (k_x (smp_kern k))) with k. change (p_pgdir smp_proc) with smp_dir.
    intros x Hx Hpg. unfold PGSIZE in Hx. destruct (decide (x < 8192)) as [Hlt|Hge].
    + destruct (Hu x ltac:(lia)) as [U _]. destruct (pv_out _ _ _ G2 x ltac:(lia) U) as ((O1 & _) & O2 & _).
      apply andb_true_iff in U as [U _]. split_and!; [exact U|exact O1|exact O2].
    + exfalso. assert (2 <= x / PGSIZE) by (apply Z.div_le_lower_bound; unfold PGSIZE; lia). unfold PGSIZE in *. lia.
  - change ((p_sz smp_proc + PGSIZE - 1) / PGSIZE) with 2. cbn [length] in Hl. lia.
  - split; [done|]. intros f Hf. assert (f = 0%nat) as ->.
    { change (p_ofile smp_proc) with (Some 0%nat :: replicate 15 None) in Hf. apply elem_of_cons in Hf as [[= ->]|Hf]; [done|].
      apply elem_of_replicate in Hf as [? _]. done. }
    by exists (File FD_INODE 1 1 1 0 1 9).
Qed.


Lemma kill_zero_dooms_child_witness : exists k,
  wp (bind (kill 0) (fun k => bind (fork smp_kend (KERNLINK + 40960) 0) (fun r => ret (k, r))))
     (fun r s' => r = (0, 2) /\ exists c, procs s' !! 1%nat = Some c /\ p_pid c = 2 /\ p_killed c = 1) (fun _ => False) (smp_kern k).
Proof.
  destruct smp_can_fork as (k & ks & l & H & _). exists k.
  refine (kill_zero_dooms_child smp_kend (KERNLINK + 40960) 0 eq_refl _ (smp_kern k) smp_proc 1 proc0 ks l 0 smp_root H eq_refl _).
  - vm_compute. split; reflexivity.
  - intros j q Hj Hq. assert (j = 0%nat) as -> by lia. vm_compute in Hq. injection Hq as <-. discriminate.
Defined.

(** The state after boot, in which init is scheduled and gives up the processor. *)
Definition smp_boot (st : procstate) : kern lst :=
  Kern (k_x (smp_kern smp_mem)) (<[0%nat := set_state st smp_proc]> (replicate nproc proc0)) 0 (Some 0%nat) 2 utable0 0.

