(* ===== verification/Syscall.v ===== *)
(** System-call arguments, syscall.c.

    The kernel reads and writes user memory through the page table of the
    running process: [uread] and [uwrite] are what the memory management unit
    does for the loads and stores of the C code; an access to a page that is
    not mapped traps.  A string argument is returned as its bytes. *)
From stdpp Require Import base numbers list strings gmap.
From Stdlib Require Import ZArith Lia.
From S2P Require Import Prelude Params CString Users Bio Log Store Fs Kalloc Vm Walk Uvm Pipe File Proc Sample Grow Fork.

Local Open Scope list_scope.
Local Open Scope Z_scope.

Section Code.
Context {S : Type} `{!BlockStore S}.
Local Open Scope kernel_scope.
Abbreviation K := (M (kern S)).

Definition mem_of (s : kern S) : kmem := x_mem (k_x s).
Definition set_kmem (k : kmem) (s : kern S) : kern S :=
  let x := k_x s in
  Kern (Files (x_fs x) (ftab x) (pipes x) k (x_killed x) (woken x)) (procs s) (curp s) (initproc s) (nextpid s) (k_users s) (k_ticks s).
Definition curproc : K proc := me ← myproc; getp me.

(** A load of the byte at [va]. *)
Definition uread (va : Z) : K Z :=
  p ← curproc;
  k ← gets mem_of;
  if has (ent k (p_pgdir p) va) PTE_P then ret (ubyte k (p_pgdir p) va) else panic "trap".
Fixpoint uread_n (n : nat) (va : Z) : K (list Z) :=
  match n with
  | O => ret []
  | Datatypes.S n' => b ← uread va; bs ← uread_n n' (u32 (va + 1)); ret (b :: bs)
  end.
(** Stores, byte by byte. *)
Fixpoint uwrite (va : Z) (bs : list Z) : K unit :=
  match bs with
  | [] => ret tt
  | b :: bs' =>
      p ← curproc;
      k ← gets mem_of;
      let e := ent k (p_pgdir p) va in
      if has e PTE_P && has e PTE_W then
        modify (set_kmem (put_page (uaddr k (p_pgdir p) va) (<[ofs va := u8 b]> (pm k (uaddr k (p_pgdir p) va))) k));;
        uwrite (u32 (va + 1)) bs'
      else panic "trap"
  end.

(** [None]: the result -1. *)
Definition fetchint (addr : Z) : K (option Z) :=
  p ← curproc;
  if (p_sz p <=? addr) || (p_sz p <? u32 (addr + 4)) then ret None
  else bs ← uread_n 4 addr; ret (Some (i32 (le_dec bs))).

(** The loop of [fetchstr] from [s] up to [ep], [fuel] bytes away. *)
Fixpoint fetchstr_loop (fuel : nat) (s : Z) : K (option (list Z)) :=
  match fuel with
  | O => ret None
  | Datatypes.S fuel' =>
      c ← uread s;
      if c =? 0 then ret (Some [])
      else r ← fetchstr_loop fuel' (s + 1); ret ((fun bs => c :: bs) <$> r)
  end.
Definition fetchstr (addr : Z) : K (option (list Z)) :=
  p ← curproc;
  if p_sz p <=? addr then ret None else fetchstr_loop (Z.to_nat (p_sz p - addr)) addr.

Definition argint (n : Z) : K (option Z) :=
  p ← curproc; fetchint (u32 (nthd 0 (p_tf p) TF_ESP + 4 + 4 * n)).

(** The pointer, when it and the [size] bytes from it are in the process. *)
Definition argptr (n size : Z) : K (option Z) :=
  p ← curproc;
  r ← argint n;
  match r with
  | None => ret None
  | Some i =>
      if (size <? 0) || (p_sz p <=? u32 i) || (p_sz p <? u32 (u32 i + size)) then ret None
      else ret (Some (u32 i))
  end.

Definition argstr (n : Z) : K (option (list Z)) :=
  r ← argint n;
  match r with None => ret None | Some addr => fetchstr (u32 addr) end.
End Code.

(** ** Arguments are checked against the process's memory *)

Section Args.
Context {S : Type} `{!BlockStore S}.
Context (s : kern S) (p : proc) (Hp : procs s !! curp s = Some p).
(** The process's memory is mapped and below the kernel. *)
Context (Hsz : 0 <= p_sz p <= KERNBASE).
Context (Hmap : forall x, 0 <= x < p_sz p -> has (ent (mem_of s) (p_pgdir p) x) PTE_P = true).

(** The memory of the process, as bytes. *)
Definition umem (x : Z) : Z := ubyte (mem_of s) (p_pgdir p) x.
Definition ubytes (a : Z) (n : nat) : list Z := (fun k => umem (a + Z.of_nat k)) <$> seq 0 n.

Lemma wp_curproc {B} (h : proc -> M (kern S) B) Q E : wp (h p) Q E s -> wp (bind curproc h) Q E s.
Proof. intros H. apply wp_bind, wp_bind, wp_gets, wp_gets. by rewrite (nthd_lookup _ _ _ _ Hp). Qed.

Lemma uread_wp x Q E : 0 <= x < p_sz p -> Q (umem x) s -> wp (uread x) Q E s.
Proof. intros Hx HQ. unfold uread. apply wp_curproc, wp_bind, wp_gets. rewrite Hmap by done. by apply wp_ret. Qed.

Lemma ubytes_S a n : ubytes a (1 + n) = umem a :: ubytes (a + 1) n.
Proof.
  unfold ubytes. cbn [seq fmap list_fmap Nat.add]. rewrite Z.add_0_r. f_equal. rewrite <- seq_shift, <- list_fmap_compose.
  apply list_fmap_ext. intros i k _. cbn. f_equal. lia.
Qed.

Lemma uread_n_wp n : forall a Q E, 0 <= a -> a + Z.of_nat n <= p_sz p -> Q (ubytes a n) s -> wp (uread_n n a) Q E s.
Proof.
  induction n as [|n IH]; intros a Q E Ha Hn HQ; cbn [uread_n]; [by apply wp_ret|].
  apply wp_bind, uread_wp; [lia|]. apply wp_bind. unfold KERNBASE in Hsz. rewrite u32_small by lia. apply IH; [lia|lia|]. apply wp_ret. by rewrite ubytes_S in HQ.
Qed.

(** The word at [a], if it is in the process. *)
Definition uword (a : Z) : option Z := if decide (0 <= a /\ a + 4 <= p_sz p) then Some (i32 (le_dec (ubytes a 4))) else None.

Lemma fetchint_wp a Q E : 0 <= a < 2 ^ 32 -> Q (uword a) s -> wp (fetchint a) Q E s.
Proof.
  intros Ha HQ. unfold fetchint. apply wp_curproc. unfold uword in HQ. destruct (decide (0 <= a /\ a + 4 <= p_sz p)) as [[_ Hin]|Hout].
  - unfold KERNBASE in Hsz. rewrite u32_small by lia. rewrite (proj2 (Z.leb_gt _ _)), (proj2 (Z.ltb_ge _ _)) by lia. cbn [orb].
    apply wp_bind, uread_n_wp; [lia|lia|]. by apply wp_ret.
  - assert (Hg : (p_sz p <=? a) || (p_sz p <? u32 (a + 4)) = true).
    { unfold KERNBASE in Hsz. destruct (p_sz p <=? a) eqn:E1; [done|]. b2p. rewrite u32_small by lia. cbn. apply Z.ltb_lt. lia. }
    rewrite Hg. by apply wp_ret.
Qed.

(** The string at [a]: the bytes up to the first null, if there is one before the end of the process. *)
Fixpoint ustr (fuel : nat) (a : Z) : option (list Z) :=
  match fuel with
  | O => None
  | Datatypes.S fuel' => if umem a =? 0 then Some [] else (fun bs => umem a :: bs) <$> ustr fuel' (a + 1)
  end.

Lemma fetchstr_loop_wp fuel : forall a Q E, 0 <= a -> a + Z.of_nat fuel <= p_sz p -> Q (ustr fuel a) s -> wp (fetchstr_loop fuel a) Q E s.
Proof.
  induction fuel as [|fuel IH]; intros a Q E Ha Hn HQ; cbn [fetchstr_loop ustr] in *; [by apply wp_ret|].
  apply wp_bind, uread_wp; [lia|]. destruct (umem a =? 0); [by apply wp_ret|]. apply wp_bind, IH; [lia|lia|]. by apply wp_ret.
Qed.

Lemma ustr_spec fuel : forall a bs, ustr fuel a = Some bs ->
  (length bs < fuel)%nat /\ bs = ubytes a (length bs) /\ umem (a + Z.of_nat (length bs)) = 0 /\ Forall (fun b => b <> 0) bs.
Proof.
  induction fuel as [|fuel IH]; intros a bs; cbn [ustr]; [done|]. destruct (umem a =? 0) eqn:E; b2p.
  - intros [= <-]. cbn. rewrite Z.add_0_r. split; [lia|]. done.
  - destruct (ustr fuel (a + 1)) as [bs'|] eqn:Eb; [|done]. intros [= <-]. destruct (IH _ _ Eb) as (H1 & H2 & H3 & H4).
    cbn [length]. split; [lia|]. rewrite ubytes_S. split; [by rewrite <- H2|]. split; [|by constructor].
    rewrite <- H3. f_equal. lia.
Qed.

Lemma ustr_None fuel : forall a, ustr fuel a = None -> forall x, a <= x < a + Z.of_nat fuel -> umem x <> 0.
Proof.
  induction fuel as [|fuel IH]; intros a; cbn [ustr]; [lia|]. destruct (umem a =? 0) eqn:E; b2p; [done|].
  destruct (ustr fuel (a + 1)) as [bs'|] eqn:Eb; [done|]. intros _ x Hx. destruct (decide (x = a)) as [->|Hne]; [done|]. apply (IH _ Eb). lia.
Qed.

Definition arg_addr (n : Z) : Z := u32 (nthd 0 (p_tf p) TF_ESP + 4 + 4 * n).

Lemma argint_wp n Q E : Q (uword (arg_addr n)) s -> wp (argint n) Q E s.
Proof. intros HQ. unfold argint. apply wp_curproc. apply fetchint_wp; [apply u32_range|done]. Qed.

(** C13: no argument of a system call reaches outside the calling process.
    [argptr] and [argstr] never trap, change nothing, and accept an argument
    exactly when the argument word is in the process's memory and what it
    points to lies below the process's size, although the sum of pointer and
    size is computed modulo 2^32: the buffer of [size] bytes, or the string
    with its terminating null. *)
Theorem args_in_bounds n size (Hs : - 2 ^ 31 <= size < 2 ^ 31) :
  wp (argptr n size)
     (fun r s' => s' = s /\ r = match uword (arg_addr n) with
        | Some a => if decide (0 <= size /\ u32 a < p_sz p /\ u32 a + size <= p_sz p) then Some (u32 a) else None
        | None => None
        end) (fun _ => False) s /\
  wp (argstr n)
     (fun r s' => s' = s /\ match r with
        | Some bs => exists a, uword (arg_addr n) = Some a /\ u32 a + Z.of_nat (length bs) < p_sz p /\ bs = ubytes (u32 a) (length bs) /\
            umem (u32 a + Z.of_nat (length bs)) = 0 /\ Forall (fun b => b <> 0) bs
        | None => forall a, uword (arg_addr n) = Some a -> forall x, u32 a <= x < p_sz p -> umem x <> 0
        end) (fun _ => False) s.
Proof.
  unfold KERNBASE in Hsz. split.
  - unfold argptr. apply wp_curproc, wp_bind, argint_wp. destruct (uword (arg_addr n)) as [a|]; [|by apply wp_ret].
    pose proof (u32_range a) as Hr. destruct (decide _) as [(H1 & H2 & H3)|Hn].
    + rewrite (proj2 (Z.ltb_ge _ _)), (proj2 (Z.leb_gt _ _)), u32_small, (proj2 (Z.ltb_ge _ _)) by lia. by apply wp_ret.
    + assert (Hg : (size <? 0) || (p_sz p <=? u32 a) || (p_sz p <? u32 (u32 a + size)) = true).
      { destruct (size <? 0) eqn:E1; [done|]. destruct (p_sz p <=? u32 a) eqn:E2; [done|]. b2p. rewrite u32_small by lia. cbn. apply Z.ltb_lt. lia. }
      rewrite Hg. by apply wp_ret.
  - unfold argstr. apply wp_bind, argint_wp. destruct (uword (arg_addr n)) as [a|]; [|by apply wp_ret]. pose proof (u32_range a) as Hr.
    unfold fetchstr. apply wp_curproc. destruct (p_sz p <=? u32 a) eqn:E; b2p.
    { apply wp_ret. split; [done|]. intros a' [= <-] x Hx. lia. }
    apply fetchstr_loop_wp; [lia|lia|]. split; [done|]. destruct (ustr _ (u32 a)) as [bs|] eqn:Eb.
    2: { intros a' [= <-] x Hx. apply (ustr_None _ _ Eb). lia. }
    destruct (ustr_spec _ _ _ Eb) as (H1 & H2). exists a. split; [done|]. split; [lia|done].
Qed.
End Args.

(** A process whose memory is mapped, with 0 as its first argument. *)
Lemma smp_uword : exists k, (forall x, 0 <= x < 5000 -> has (ent k smp_dir x) PTE_P = true) /\
  uword (smp_kern k) smp_proc (arg_addr smp_proc 0) = Some 0.
Proof.
  destruct smp_can_fork as (k & ks & l & _ & Hu). exists k. split.
  - intros x Hx. destruct (Hu x ltac:(lia)) as [U _]. by apply andb_true_iff in U as [U _].
  - unfold uword. rewrite decide_True by (by vm_compute). unfold ubytes, umem. cbn [seq fmap list_fmap].
    change (mem_of (smp_kern k)) with k. change (p_pgdir smp_proc) with smp_dir. change (arg_addr smp_proc 0) with 11.
    by rewrite !(fun x H => proj2 (Hu x H)) by (cbn; lia).
Qed.

Lemma args_in_bounds_witness : exists k,
  wp (argptr 0 100) (fun r s' => s' = smp_kern k /\ r = Some 0) (fun _ => False) (smp_kern k).
Proof.
  destruct smp_uword as (k & Hmap & Hw). exists k.
  eapply wp_conseq; [refine (proj1 (args_in_bounds (smp_kern k) smp_proc eq_refl _ Hmap 0 100 _))|]; [by vm_compute|lia|].
  cbv beta. rewrite Hw. intros r s' [-> ->]. split; reflexivity.
Defined.
