(* ===== verification/Sysfile.v ===== *)
(** The file system calls, sysfile.c.

    Each system call fetches its arguments and runs its body; the bodies that
    work on the file system alone are definitions of their own on that
    layer.  A result of -1 that the C code reaches by [goto bad] is the
    corresponding [_bad] definition. *)
From stdpp Require Import base numbers list strings gmap.
From Stdlib Require Import ZArith Lia.
From S2P Require Import Prelude Params CString Users Namecache Bio Log Store Fs Kalloc Vm Pipe File Proc Fork Syscall.

Local Open Scope list_scope.
Local Open Scope Z_scope.

Section Code.
Context {S : Type} `{!BlockStore S}.
Context (dev_read : Z -> option (nat -> Z -> M (fs S) (Z * list Z))).
Context (dev_write : Z -> option (nat -> list Z -> Z -> M (fs S) Z)).
Context (kend : Z).
Local Open Scope kernel_scope.
Abbreviation K := (M (kern S)).
Abbreviation F := (M (fs S)).

(** ** Descriptors *)

Definition argfd (n : Z) : K (option (Z * nat)) :=
  r ← argint n;
  match r with
  | None => ret None
  | Some fd =>
      p ← curproc;
      if (fd <? 0) || (NOFILE <=? fd) then ret None
      else match nthd None (p_ofile p) (Z.to_nat fd) with
      | None => ret None
      | Some f => ret (Some (fd, f))
      end
  end.

Definition fdalloc (f : nat) : K Z :=
  me ← myproc;
  p ← getp me;
  match find_idx (fun o => bool_decide (o = None)) (p_ofile p) with
  | Some fd => updp me (fun p => set_ofile (<[fd := Some f]> (p_ofile p)) p);; ret (Z.of_nat fd)
  | None => ret (-1)
  end.

Definition sys_dup : K Z :=
  a ← argfd 0;
  match a with
  | None => ret (-1)
  | Some (_, f) =>
      fd ← fdalloc f;
      if fd <? 0 then ret (-1) else xio (filedup f);; ret fd
  end.

Definition sys_read : K Z :=
  a ← argfd 0;
  match a with
  | None => ret (-1)
  | Some (_, f) =>
      n ← argint 2;
      match n with
      | None => ret (-1)
      | Some n =>
          p ← argptr 1 n;
          match p with
          | None => ret (-1)
          | Some p => '(r, bs) ← xio (fileread dev_read f n); uwrite p bs;; ret r
          end
      end
  end.

Definition sys_write : K Z :=
  a ← argfd 0;
  match a with
  | None => ret (-1)
  | Some (_, f) =>
      n ← argint 2;
      match n with
      | None => ret (-1)
      | Some n =>
          p ← argptr 1 n;
          match p with
          | None => ret (-1)
          | Some p => bs ← uread_n (Z.to_nat n) p; xio (filewrite dev_write f bs n)
          end
      end
  end.

Definition sys_close : K Z :=
  a ← argfd 0;
  match a with
  | None => ret (-1)
  | Some (fd, f) =>
      me ← myproc;
      updp me (fun p => set_ofile (<[Z.to_nat fd := None]> (p_ofile p)) p);;
      xio (fileclose kend f);; ret 0
  end.

(** [sizeof(struct stat)], and the stores of [stati] through [st]. *)
Definition STATSIZE : Z := 28.
Definition put_stat (a : Z) (st : stat) : K unit :=
  uwrite (u32 (a + 4)) (le_enc 4 (st_dev st));;
  uwrite (u32 (a + 8)) (le_enc 4 (st_ino st));;
  uwrite a (le_enc 2 (st_type st));;
  uwrite (u32 (a + 12)) (le_enc 2 (st_nlink st));;
  uwrite (u32 (a + 16)) (le_enc 4 (st_size st));;
  uwrite (u32 (a + 20)) (le_enc 2 (st_uid st));;
  uwrite (u32 (a + 22)) (le_enc 2 (st_gid st));;
  uwrite (u32 (a + 24)) (le_enc 2 (st_mode st)).

Definition sys_fstat : K Z :=
  a ← argfd 0;
  match a with
  | None => ret (-1)
  | Some (_, f) =>
      p ← argptr 1 STATSIZE;
      match p with
      | None => ret (-1)
      | Some p =>
          '(r, st) ← xio (filestat f);
          match st with Some st => put_stat p st | None => ret tt end;; ret r
      end
  end.

(** ** Links *)

Definition fbegin : F unit := sio bs_begin_op.
Definition fend : F unit := sio bs_end_op.

Definition link_bad (ip : nat) : F Z :=
  ilock ip;;
  updi ip (fun i => set_nlink (i16 (i_nlink i - 1)) i);;
  iupdate ip;;
  iunlockput ip;;
  fend;;
  ret (-1).

Definition link (old new : list Z) : F Z :=
  fbegin;;
  r ← namei dev_read old;
  match r with
  | None => fend;; ret (-1)
  | Some ip =>
      ilock ip;;
      i ← geti ip;
      if i_type i =? T_DIR then iunlockput ip;; fend;; ret (-1)
      else
        updi ip (fun i => set_nlink (i16 (i_nlink i + 1)) i);;
        iupdate ip;;
        iunlock ip;;
        d ← nameiparent dev_read new name0;
        match d with
        | None => link_bad ip
        | Some (dp, name) =>
            ilock dp;;
            di ← geti dp;
            i ← geti ip;
            bad ← (if negb (i_dev di =? i_dev i) then ret true
                   else r ← dirlink dev_read dev_write dp name (i_inum i); ret (r <? 0));
            if bad : bool then iunlockput dp;; link_bad ip
            else iunlockput dp;; iput ip;; fend;; ret 0
        end
  end.

Definition sys_link : K Z :=
  old ← argstr 0;
  match old with
  | None => ret (-1)
  | Some old =>
      new ← argstr 1;
      match new with None => ret (-1) | Some new => nio (link old new) end
  end.

(** [off] from the third entry on. *)
Definition isdirempty (dp : nat) : F bool :=
  i ← geti dp;
  r ← for_loop (Z.to_nat ((i_size i - 2 * DE + DE - 1) / DE)) 2 (fun k =>
    '(r, bs) ← readi dev_read dp (k * DE) DE;
    if negb (r =? DE) then panic "isdirempty: readi"
    else if negb (de_inum (dec_dirent bs) =? 0) then ret (Some tt) else ret None);
  ret (match r with Some _ => false | None => true end).

Definition unlink_bad (dp : nat) : F Z := iunlockput dp;; fend;; ret (-1).

Definition unlink (path : list Z) : F Z :=
  fbegin;;
  d ← nameiparent dev_read path name0;
  match d with
  | None => fend;; ret (-1)
  | Some (dp, name) =>
      ilock dp;;
      if (namecmp name (lit ".") =? 0) || (namecmp name (lit "..") =? 0) then unlink_bad dp
      else
        r ← dirlookup dev_read dp name;
        match r with
        | None => unlink_bad dp
        | Some (ip, off) =>
            ilock ip;;
            i ← geti ip;
            if i_nlink i <? 1 then panic "unlink: nlink < 1"
            else
              e ← (if i_type i =? T_DIR then isdirempty ip else ret true);
              if negb e then iunlockput ip;; unlink_bad dp
              else
                di ← geti dp;
                ncio (fun nc => (tt, namecache_invalidate (i_dev i) (i_inum i) nc));;
                ncio (fun nc => (tt, namecache_invalidate (i_dev di) (i_inum di) nc));;
                r ← writei dev_write dp (replicate (Z.to_nat DE) 0) off DE;
                if negb (r =? DE) then panic "unlink: writei"
                else
                  (if i_type i =? T_DIR then updi dp (fun i => set_nlink (i16 (i_nlink i - 1)) i);; iupdate dp else ret tt);;
                  iunlockput dp;;
                  updi ip (fun i => set_nlink (i16 (i_nlink i - 1)) i);;
                  iupdate ip;;
                  iunlockput ip;;
                  fend;;
                  ret 0
        end
  end.

Definition sys_unlink : K Z :=
  path ← argstr 0;
  match path with None => ret (-1) | Some path => nio (unlink path) end.

(** ** Creating and opening *)

(** The new inode, locked. *)
Definition create (path : list Z) (type major minor : Z) : F (option nat) :=
  d ← nameiparent dev_read path name0;
  match d with
  | None => ret None
  | Some (dp, name) =>
      ilock dp;;
      r ← dirlookup dev_read dp name;
      match r with
      | Some (ip, _) =>
          iunlockput dp;;
          ilock ip;;
          i ← geti ip;
          if (type =? T_FILE) && (i_type i =? T_FILE) then ret (Some ip)
          else iunlockput ip;; ret None
      | None =>
          di ← geti dp;
          ip ← ialloc (i_dev di) type;
          ilock ip;;
          updi ip (fun i => set_nlink 1 (set_dev major minor i));;
          iupdate ip;;
          i ← geti ip;
          (if type =? T_DIR then
             updi dp (fun i => set_nlink (i16 (i_nlink i + 1)) i);;
             iupdate dp;;
             r1 ← dirlink dev_read dev_write ip (lit ".") (i_inum i);
             if r1 <? 0 then panic "create dots"
             else
               r2 ← dirlink dev_read dev_write ip (lit "..") (i_inum di);
               if r2 <? 0 then panic "create dots" else ret tt
           else ret tt);;
          r3 ← dirlink dev_read dev_write dp name (i_inum i);
          if r3 <? 0 then panic "create: dirlink"
          else iunlockput dp;; ret (Some ip)
      end
  end.

(** The permission checks of [sys_open], for a file that is not created. *)
Definition may_open (uid omode : Z) (i : inode) : bool :=
  let other := negb (uid =? 0) && negb (uid =? i_uid i) in
  negb (((omode =? O_RDONLY) || (omode =? O_RDWR)) && other && (Z.land (i_mode i) S_IROTH =? 0)) &&
  negb (((omode =? O_WRONLY) || (omode =? O_RDWR)) && other && (Z.land (i_mode i) S_IWOTH =? 0)).

(** The first part of [sys_open]: the inode, locked, inside the transaction. *)
Definition open_inode (path : list Z) (omode : Z) : F (option nat) :=
  fbegin;;
  if truth (Z.land omode O_CREATE) then
    r ← create path T_FILE 0 0;
    match r with None => fend;; ret None | Some ip => ret (Some ip) end
  else
    r ← namei dev_read path;
    match r with
    | None => fend;; ret None
    | Some ip =>
        ilock ip;;
        i ← geti ip;
        me ← gets cur;
        if (i_type i =? T_DIR) && negb (omode =? O_RDONLY) then iunlockput ip;; fend;; ret None
        else if negb (may_open (c_uid me) omode i) then iunlockput ip;; fend;; ret None
        else ret (Some ip)
    end.

Definition f_readable_of (omode : Z) : Z := b2z (negb (truth (Z.land omode O_WRONLY))).
Definition f_writable_of (omode : Z) : Z := b2z (truth (Z.land omode O_WRONLY) || truth (Z.land omode O_RDWR)).

Definition sys_open : K Z :=
  path ← argstr 0;
  match path with
  | None => ret (-1)
  | Some path =>
      omode ← argint 1;
      match omode with
      | None => ret (-1)
      | Some omode =>
          r ← nio (open_inode path omode);
          match r with
          | None => ret (-1)
          | Some ip =>
              f ← xio filealloc;
              fd ← match f with Some f => fdalloc f | None => ret (-1) end;
              if fd <? 0 then
                match f with Some f => xio (fileclose kend f) | None => ret tt end;;
                nio (iunlockput ip);;
                nio fend;;
                ret (-1)
              else
                nio (iunlock ip);;
                nio fend;;
                match f with
                | Some f => xio (updf f (fun x => File FD_INODE (f_ref x) (f_readable_of omode) (f_writable_of omode) (f_pipe x) ip 0))
                | None => ret tt
                end;;
                ret fd
          end
      end
  end.

Definition mkfile (r : option nat) : F Z :=
  match r with
  | None => fend;; ret (-1)
  | Some ip => iunlockput ip;; fend;; ret 0
  end.

Definition sys_mkdir : K Z :=
  nio fbegin;;
  path ← argstr 0;
  match path with
  | None => nio fend;; ret (-1)
  | Some path => nio (bind (create path T_DIR 0 0) mkfile)
  end.

Definition sys_mknod : K Z :=
  nio fbegin;;
  path ← argstr 0;
  match path with
  | None => nio fend;; ret (-1)
  | Some path =>
      major ← argint 1;
      match major with
      | None => nio fend;; ret (-1)
      | Some major =>
          minor ← argint 2;
          match minor with
          | None => nio fend;; ret (-1)
          | Some minor => nio (bind (create path T_DEV (i16 major) (i16 minor)) mkfile)
          end
      end
  end.

(** [Some ip]: the new directory, unlocked, with the old one released. *)
Definition chdir (path : list Z) : F (option nat) :=
  r ← namei dev_read path;
  match r with
  | None => fend;; ret None
  | Some ip =>
      ilock ip;;
      i ← geti ip;
      if negb (i_type i =? T_DIR) then iunlockput ip;; fend;; ret None
      else
        iunlock ip;;
        me ← gets cur;
        iput (c_cwd me);;
        fend;;
        ret (Some ip)
  end.

Definition sys_chdir : K Z :=
  nio fbegin;;
  path ← argstr 0;
  match path with
  | None => nio fend;; ret (-1)
  | Some path =>
      r ← nio (chdir path);
      match r with
      | None => ret (-1)
      | Some ip => me ← myproc; updp me (set_cwd (Some ip));; ret 0
      end
  end.

Definition sys_pipe : K Z :=
  a ← argptr 0 8;
  match a with
  | None => ret (-1)
  | Some a =>
      r ← xio (pipealloc kend);
      match r with
      | None => ret (-1)
      | Some (rf, wf) =>
          me ← myproc;
          fd0 ← fdalloc rf;
          fd1 ← (if fd0 <? 0 then ret (-1) else fdalloc wf);
          if (fd0 <? 0) || (fd1 <? 0) then
            (if 0 <=? fd0 then updp me (fun p => set_ofile (<[Z.to_nat fd0 := None]> (p_ofile p)) p) else ret tt);;
            xio (fileclose kend rf);;
            xio (fileclose kend wf);;
            ret (-1)
          else
            uwrite a (le_enc 4 fd0);;
            uwrite (u32 (a + 4)) (le_enc 4 fd1);;
            ret 0
      end
  end.

(** ** Permissions *)

Definition chmod (uid : Z) (path : list Z) (mode : Z) : F Z :=
  fbegin;;
  r ← namei dev_read path;
  match r with
  | None => fend;; ret (-1)
  | Some ip =>
      ilock ip;;
      i ← geti ip;
      if negb (uid =? 0) && negb (uid =? i_uid i) then iunlockput ip;; fend;; ret (-1)
      else
        updi ip (set_mode (Z.land mode 511));;
        iupdate ip;;
        iunlockput ip;;
        fend;;
        ret 0
  end.

Definition sys_chmod : K Z :=
  p ← curproc;
  path ← argstr 0;
  match path with
  | None => ret (-1)
  | Some path =>
      mode ← argint 1;
      match mode with None => ret (-1) | Some mode => nio (chmod (p_uid p) path mode) end
  end.

Definition chown (path : list Z) (uid : Z) : F Z :=
  fbegin;;
  r ← namei dev_read path;
  match r with
  | None => fend;; ret (-1)
  | Some ip =>
      ilock ip;;
      updi ip (fun i => set_owner (u16 uid) (i_gid i) i);;
      iupdate ip;;
      iunlockput ip;;
      fend;;
      ret 0
  end.

Definition sys_chown : K Z :=
  p ← curproc;
  path ← argstr 0;
  match path with
  | None => ret (-1)
  | Some path =>
      uid ← argint 1;
      match uid with
      | None => ret (-1)
      | Some uid => if negb (p_uid p =? 0) then ret (-1) else nio (chown path uid)
      end
  end.
End Code.
