(* ===== verification/Exec.v ===== *)
(** [exec], exec.c, and [sys_exec] of sysfile.c. *)
From stdpp Require Import base numbers list strings gmap.
From Stdlib Require Import ZArith Lia.
From S2P Require Import Prelude Params CString Users Namecache Bio Log Store Fs Kalloc Vm Pipe File Proc Fork Syscall Sysfile.

Local Open Scope list_scope.
Local Open Scope Z_scope.

Definition ELF_MAGIC : Z := 1179403647.
Definition ELF_PROG_LOAD : Z := 1.

(** The fields of [struct elfhdr] that [exec] reads, and its size. *)
Record elfhdr := Elfhdr { e_magic : Z; e_entry : Z; e_phoff : Z; e_phnum : Z }.
Definition ELFHDRSIZE : Z := 52.
Definition dec_elfhdr (bs : list Z) : elfhdr := Elfhdr (rd 4 0 bs) (rd 4 24 bs) (rd 4 28 bs) (rd 2 44 bs).

Record proghdr := Proghdr { ph_type : Z; ph_off : Z; ph_vaddr : Z; ph_filesz : Z; ph_memsz : Z }.
Definition PROGHDRSIZE : Z := 32.
Definition dec_proghdr (bs : list Z) : proghdr := Proghdr (rd 4 0 bs) (rd 4 4 bs) (rd 4 8 bs) (rd 4 16 bs) (rd 4 20 bs).

(** The last element of a path: what follows the last slash. *)
Fixpoint last_elem (last s : list Z) : list Z :=
  match s with
  | [] => last
  | c :: s' => last_elem (if c =? SLASH then s' else last) s'
  end.

Section Code.
Context {S : Type} `{!BlockStore S}.
Context (dev_read : Z -> option (nat -> Z -> M (fs S) (Z * list Z))).
Context (kend kdata : Z).
Local Open Scope kernel_scope.
Abbreviation K := (M (kern S)).

(** [bad:] with the page table built so far, or 0, and the inode if it is still locked. *)
Definition exec_bad (pgdir : Z) (ip : option nat) : K Z :=
  (if truth pgdir then kio (freevm kend pgdir) else ret tt);;
  match ip with
  | Some ip => nio (iunlockput ip);; nio fend
  | None => ret tt
  end;;
  ret (-1).

(** The loop over the program headers: the size of the image, [None] for [goto bad]. *)
Fixpoint load_segments (n : nat) (pgdir : Z) (ip : nat) (off sz : Z) : K (option Z) :=
  match n with
  | O => ret (Some sz)
  | Datatypes.S n' =>
      '(r, bs) ← nio (readi dev_read ip off PROGHDRSIZE);
      if negb (r =? PROGHDRSIZE) then ret None
      else
        let ph := dec_proghdr bs in
        if negb (ph_type ph =? ELF_PROG_LOAD) then load_segments n' pgdir ip (u32 (off + PROGHDRSIZE)) sz
        else if ph_memsz ph <? ph_filesz ph then ret None
        else if u32 (ph_vaddr ph + ph_memsz ph) <? ph_vaddr ph then ret None
        else
          sz' ← kio (allocuvm kend pgdir sz (u32 (ph_vaddr ph + ph_memsz ph)));
          if sz' =? 0 then ret None
          else if truth (ph_vaddr ph mod PGSIZE) then ret None
          else
            l ← loaduvm (fun A (m : M kmem A) => kio m) (fun o n => nio (readi dev_read ip o n)) pgdir (ph_vaddr ph) (ph_off ph) (ph_filesz ph);
            if l <? 0 then ret None
            else load_segments n' pgdir ip (u32 (off + PROGHDRSIZE)) sz'
  end.

(** The loop over the arguments: the stack pointer and the words [ustack[3..]]. *)
Fixpoint push_args (pgdir argc sp : Z) (argv : list (list Z)) (ustack : list Z) : K (option (Z * Z * list Z)) :=
  match argv with
  | [] => ret (Some (argc, sp, ustack ++ [0]))
  | a :: argv' =>
      if MAXARG <=? argc then ret None
      else
        let len := Z.of_nat (length a) + 1 in
        let sp' := Z.land (u32 (sp - len)) (u32 (Z.lnot 3)) in
        r ← kio (copyout pgdir sp' (a ++ [0]) len);
        if r <? 0 then ret None else push_args pgdir (argc + 1) sp' argv' (ustack ++ [sp'])
  end.

Definition exec (path : list Z) (argv : list (list Z)) : K Z :=
  nio fbegin;;
  r ← nio (namei dev_read path);
  match r with
  | None => nio fend;; ret (-1)
  | Some ip =>
      nio (ilock ip);;
      '(r, bs) ← nio (readi dev_read ip 0 ELFHDRSIZE);
      let elf := dec_elfhdr bs in
      if negb (r =? ELFHDRSIZE) then exec_bad 0 (Some ip)
      else if negb (e_magic elf =? ELF_MAGIC) then exec_bad 0 (Some ip)
      else
        pgdir ← kio (setupkvm kend kdata);
        if pgdir =? 0 then exec_bad 0 (Some ip)
        else
          r ← load_segments (Z.to_nat (e_phnum elf)) pgdir ip (e_phoff elf) 0;
          match r with
          | None => exec_bad pgdir (Some ip)
          | Some sz =>
              nio (iunlockput ip);;
              nio fend;;
              let sz1 := PGROUNDUP sz in
              sz2 ← kio (allocuvm kend pgdir sz1 (u32 (sz1 + 2 * PGSIZE)));
              if sz2 =? 0 then exec_bad pgdir None
              else
                kio (clearpteu pgdir (u32 (sz2 - 2 * PGSIZE)));;
                r ← push_args pgdir 0 sz2 argv [];
                match r with
                | None => exec_bad pgdir None
                | Some (argc, sp, words) =>
                    let ustack := [4294967295; argc; u32 (sp - (argc + 1) * 4)] ++ words in
                    let sp' := u32 (sp - (3 + argc + 1) * 4) in
                    r ← kio (copyout pgdir sp' (concat (le_enc 4 <$> ustack)) ((3 + argc + 1) * 4));
                    if r <? 0 then exec_bad pgdir None
                    else
                      me ← myproc;
                      updp me (fun p => set_name (safestrcpy 16 (p_name p) (last_elem path path)) p);;
                      p ← getp me;
                      updp me (set_mem sz2 pgdir);;
                      updp me (fun p => set_tf (<[TF_EIP := e_entry elf]> (p_tf p)) p);;
                      updp me (fun p => set_tf (<[TF_ESP := sp']> (p_tf p)) p);;
                      kio (freevm kend (p_pgdir p));;
                      ret 0
                end
          end
  end.

(** The loop of [sys_exec]: the strings of [argv], [None] for the result -1. *)
Fixpoint fetch_args (n : nat) (uargv : Z) : K (option (list (list Z))) :=
  match n with
  | O => ret None
  | Datatypes.S n' =>
      r ← fetchint uargv;
      match r with
      | None => ret None
      | Some uarg =>
          if u32 uarg =? 0 then ret (Some [])
          else
            s ← fetchstr (u32 uarg);
            match s with
            | None => ret None
            | Some s => r ← fetch_args n' (u32 (uargv + 4)); ret ((fun l => s :: l) <$> r)
            end
      end
  end.

Definition sys_exec : K Z :=
  path ← argstr 0;
  match path with
  | None => ret (-1)
  | Some path =>
      uargv ← argint 1;
      match uargv with
      | None => ret (-1)
      | Some uargv =>
          argv ← fetch_args (Z.to_nat MAXARG) (u32 uargv);
          match argv with None => ret (-1) | Some argv => exec path argv end
      end
  end.
End Code.
