(* ===== verification/Sysproc.v ===== *)
(** The process and user system calls of sysproc.c, the system-call table of
    syscall.c, and the system call and the exceptions of trap.c. *)
From stdpp Require Import base numbers list strings gmap.
From Stdlib Require Import ZArith Lia.
From S2P Require Import Prelude Params CString Users Namecache Bio Log Store Fs Kalloc Vm Pipe File Proc Fork Syscall Sysfile Exec.

Local Open Scope list_scope.
Local Open Scope Z_scope.

Section Code.
Context {S : Type} `{!BlockStore S}.
Context (dev_read : Z -> option (nat -> Z -> M (fs S) (Z * list Z))).
Context (dev_write : Z -> option (nat -> list Z -> Z -> M (fs S) Z)).
Context (kend kdata forkret_eip : Z).
Local Open Scope kernel_scope.
Abbreviation K := (M (kern S)).

Definition set_users (t : utable) (s : kern S) : kern S :=
  Kern (k_x s) (procs s) (curp s) (initproc s) (nextpid s) t (k_ticks s).

Definition sys_fork : K Z := fork kend kdata forkret_eip.
Definition sys_wait : K Z := wait kend.

Definition sys_kill : K Z :=
  pid ← argint 0;
  match pid with None => ret (-1) | Some pid => kill pid end.

Definition sys_getpid : K Z := p ← curproc; ret (p_pid p).

Definition sys_sbrk : K Z :=
  n ← argint 0;
  match n with
  | None => ret (-1)
  | Some n =>
      p ← curproc;
      r ← growproc kend n;
      if r <? 0 then ret (-1) else ret (i32 (p_sz p))
  end.

(** The first test of the loop: [ticks] has not moved. *)
Definition sys_sleep : K Z :=
  n ← argint 0;
  match n with
  | None => ret (-1)
  | Some n =>
      t0 ← gets k_ticks;
      t ← gets k_ticks;
      if u32 (t - t0) <? u32 n then
        p ← curproc;
        if truth (p_killed p) then ret (-1) else blocked "sleep"
      else ret 0
  end.

Definition sys_uptime : K Z := t ← gets k_ticks; ret (i32 t).
Definition sys_getuid : K Z := p ← curproc; ret (p_uid p).
Definition sys_getgid : K Z := p ← curproc; ret (p_gid p).

Definition sys_setuid : K Z :=
  uid ← argint 0;
  match uid with
  | None => ret (-1)
  | Some uid =>
      p ← curproc;
      if negb (p_uid p =? 0) then ret (-1)
      else me ← myproc; updp me (fun p => set_ids uid (p_gid p) p);; ret 0
  end.

Definition sys_login : K Z :=
  name ← argstr 0;
  match name with
  | None => ret (-1)
  | Some name =>
      pw ← argstr 1;
      match pw with
      | None => ret (-1)
      | Some pw =>
          t ← gets k_users;
          let uid := users_checkpassword t name pw in
          if uid <? 0 then ret (-1)
          else me ← myproc; updp me (set_ids uid uid);; ret 0
      end
  end.

(** [users_getname] copies the name and its null into the user's buffer. *)
Definition sys_whoami : K Z :=
  size ← argint 1;
  match size with
  | None => ret (-1)
  | Some size =>
      buf ← argptr 0 size;
      match buf with
      | None => ret (-1)
      | Some buf =>
          p ← curproc;
          t ← gets k_users;
          let name := users_getname t (p_uid p) (replicate (Z.to_nat size) 0) size in
          (if 0 <? size then uwrite buf (take (1 + length (cstr (length name) name)) name) else ret tt);;
          ret 0
      end
  end.

Definition sys_cansudo : K Z := p ← curproc; t ← gets k_users; ret (users_can_sudo t (p_uid p)).

Definition sys_addsudoer : K Z :=
  p ← curproc;
  if negb (p_uid p =? 0) then ret (-1)
  else
    uid ← argint 0;
    match uid with
    | None => ret (-1)
    | Some uid => t ← gets k_users; let '(r, t') := users_add_sudoer t uid in modify (set_users t');; ret r
    end.

Definition sys_removesudoer : K Z :=
  p ← curproc;
  if negb (p_uid p =? 0) then ret (-1)
  else
    uid ← argint 0;
    match uid with
    | None => ret (-1)
    | Some uid => t ← gets k_users; let '(r, t') := users_remove_sudoer t uid in modify (set_users t');; ret r
    end.

Definition sys_setsuid : K Z :=
  uid ← argint 0;
  match uid with
  | None => ret (-1)
  | Some uid =>
      p ← curproc;
      t ← gets k_users;
      if users_can_sudo t (p_uid p) =? 0 then ret (-1)
      else if negb (uid =? 0) && negb (uid =? p_uid p) then ret (-1)
      else me ← myproc; updp me (fun p => set_ids uid (p_gid p) p);; ret 0
  end.

(** The table [syscalls], but for [SYS_exit] (2), which does not return. *)
Definition syscalls (num : Z) : option (K Z) :=
  match num with
  | 1 => Some sys_fork
  | 3 => Some sys_wait
  | 4 => Some (sys_pipe kend)
  | 5 => Some (sys_read dev_read)
  | 6 => Some sys_kill
  | 7 => Some (sys_exec dev_read kend kdata)
  | 8 => Some sys_fstat
  | 9 => Some (sys_chdir dev_read)
  | 10 => Some sys_dup
  | 11 => Some sys_getpid
  | 12 => Some sys_sbrk
  | 13 => Some sys_sleep
  | 14 => Some sys_uptime
  | 15 => Some (sys_open dev_read dev_write kend)
  | 16 => Some (sys_write dev_write)
  | 17 => Some (sys_mknod dev_read dev_write)
  | 18 => Some (sys_unlink dev_read dev_write)
  | 19 => Some (sys_link dev_read dev_write)
  | 20 => Some (sys_mkdir dev_read dev_write)
  | 21 => Some (sys_close kend)
  | 22 => Some sys_getuid
  | 23 => Some sys_getgid
  | 24 => Some sys_setuid
  | 25 => Some sys_login
  | 26 => Some sys_whoami
  | 27 => Some (sys_chmod dev_read)
  | 28 => Some (sys_chown dev_read)
  | 29 => Some sys_cansudo
  | 30 => Some sys_addsudoer
  | 31 => Some sys_removesudoer
  | 32 => Some sys_setsuid
  | _ => None
  end.
Definition SYS_exit : Z := 2.

Definition set_eax (v : Z) : K unit := me ← myproc; updp me (fun p => set_tf (<[TF_EAX := u32 v]> (p_tf p)) p).

(** [false]: the process has exited and does not return to user space. *)
Definition syscall : K bool :=
  p ← curproc;
  let num := i32 (nthd 0 (p_tf p) TF_EAX) in
  if num =? SYS_exit then exit kend;; ret false
  else
    match syscalls num with
    | Some h => r ← h; set_eax r;; ret true
    | None => set_eax (-1);; ret true
    end.

(** ** Traps *)

Definition TF_TRAPNO : nat := 12.

Definition set_ticks (t : Z) (s : kern S) : kern S :=
  Kern (k_x s) (procs s) (curp s) (initproc s) (nextpid s) (k_users s) t.

(** [if(myproc()->killed) exit();]: [true] when the process goes on. *)
Definition exit_if_killed : K bool :=
  p ← curproc;
  if truth (p_killed p) then exit kend;; ret false else ret true.

(** What [trap] does for an interrupt or an exception that is no system call.
    A disk request is served where it is made, as by memide.c, so that the
    disk's handler finds nothing to do; the handler of ide.c and the requests
    that wait for it are in Ide.v.  [line] says that the keyboard's or the serial
    line's handler has completed a line of console input, which wakes the
    readers of the console. *)
Definition trap_irq (trapno : Z) (line : bool) : K unit :=
  if trapno =? T_IRQ0 + IRQ_TIMER then
    modify (fun s => set_ticks (u32 (k_ticks s + 1)) s);; wakeup ChTicks
  else if trapno =? T_IRQ0 + IRQ_IDE then ret tt
  else if trapno =? T_IRQ0 + IRQ_IDE + 1 then ret tt
  else if (trapno =? T_IRQ0 + IRQ_KBD) || (trapno =? T_IRQ0 + IRQ_COM1) then
    if line then wakeup ChInput else ret tt
  else if (trapno =? T_IRQ0 + 7) || (trapno =? T_IRQ0 + IRQ_SPURIOUS) then ret tt
  else me ← myproc; updp me (set_killed 1).

(** A trap from user space, on processor 0, with frame [tf].  [true]: back to
    user space, a process that yields after testing [killed] once more. *)
Definition trap_user (tf : list Z) (line : bool) : K bool :=
  let trapno := nthd 0 tf TF_TRAPNO in
  if trapno =? T_SYSCALL then
    go ← exit_if_killed;
    if go : bool then
      me ← myproc;
      updp me (set_tf tf);;
      go ← syscall;
      if go : bool then exit_if_killed else ret false
    else ret false
  else
    trap_irq trapno line;;
    go ← exit_if_killed;
    if go : bool then
      p ← curproc;
      (if bool_decide (p_state p = RUNNING) && (trapno =? T_IRQ0 + IRQ_TIMER) then yield else ret tt);;
      ret true
    else ret false.
End Code.
