(* ===== verification/Priv.v ===== *)
(** Who can become root: what the system calls do to the user ids of the
    processes and to the user database. *)
From stdpp Require Import base numbers list strings gmap.
From Stdlib Require Import ZArith Lia.
From S2P Require Import Prelude Params CString Users Namecache Bio Log Store Fs Kalloc Vm Pipe File Proc Ptable Fork Syscall Sysfile Exec Sysproc Sample Grow.

Local Open Scope list_scope.
Local Open Scope Z_scope.

Create HintDb quiet.

Section Priv.
Context {S : Type} `{!BlockStore S}.
Abbreviation K := (M (kern S)).

Definition uids (s : kern S) : list Z := p_uid <$> procs s.

(** Nobody's user id, nor the user database, changes. *)
Record ukeep (s s' : kern S) : Prop := Ukeep {
  uk_cur : curp s' = curp s;
  uk_users : k_users s' = k_users s;
  uk_uids : uids s' = uids s
}.

#[local] Instance ukeep_preorder : PreOrder ukeep.
Proof.
  split; [by intros s|]. intros a b c [A1 A2 A3] [B1 B2 B3]. split; congruence.
Qed.

(** Operations after which that is the case. *)
Definition quiet {A} (m : K A) : Prop := always ukeep m.

Lemma quiet_ret {A} (a : A) : quiet (ret a).
Proof. apply always_ret, _. Qed.
Lemma quiet_panic {A} msg : quiet (panic msg : K A).
Proof. apply always_panic. Qed.
Lemma quiet_blocked {A} c : quiet (blocked c : K A).
Proof. apply always_blocked. Qed.
Lemma quiet_gets {A} (f : kern S -> A) : quiet (gets f).
Proof. apply always_gets, _. Qed.
Lemma quiet_bind {A B} (m : K A) (k : A -> K B) : quiet m -> (forall a, quiet (k a)) -> quiet (bind m k).
Proof. apply always_bind, _. Qed.
Lemma quiet_modify f : (forall s, ukeep s (f s)) -> quiet (modify f).
Proof. apply always_modify. Qed.
Lemma quiet_each {A} (xs : list A) (f : A -> K unit) : (forall x, quiet (f x)) -> quiet (each xs f).
Proof. apply always_each, _. Qed.
Lemma quiet_for {A} n i (f : Z -> K (option A)) : (forall k, quiet (f k)) -> quiet (for_loop n i f).
Proof. apply always_for, _. Qed.

Lemma uids_nudged ps ps' : nudged ps ps' -> p_uid <$> ps' = p_uid <$> ps.
Proof. induction 1 as [|p p' ps ps' [->|[_ ->]] _ IH]; cbn; [done|by f_equal|by f_equal]. Qed.

Lemma uids_alter f i (ps : list proc) : (forall p, p_uid (f p) = p_uid p) -> p_uid <$> alter f i ps = p_uid <$> ps.
Proof.
  intros Hf. apply list_eq. intros j. rewrite !list_lookup_fmap. destruct (decide (i = j)) as [->|Hne].
  - rewrite list_lookup_alter_eq. destruct (ps !! j); cbn; by rewrite ?Hf.
  - by rewrite list_lookup_alter_ne.
Qed.

Lemma quiet_xio {A} (m : M (files S) A) : quiet (xio m).
Proof.
  intros s. unfold wlp, xio. destruct (m (enter s)) as [a x| |]; [|done|done]. split; [done|done|]. apply uids_nudged, wake_all_nudged.
Qed.
Lemma quiet_updp i f : (forall p, p_uid (f p) = p_uid p) -> quiet (updp i f).
Proof. intros Hf. apply quiet_modify. intros s. split; [done|done|]. by apply uids_alter. Qed.
Lemma quiet_wakeup c : quiet (wakeup1 c).
Proof. apply quiet_modify. intros s. split; [done|done|]. apply uids_nudged, wake_nudged. Qed.

(** Goes through the code. *)
Ltac quiet_step :=
  lazymatch goal with
  | |- forall _, quiet _ => intro
  | |- quiet (bind _ _) => apply quiet_bind
  | |- quiet (ret _) => apply quiet_ret
  | |- quiet (panic _) => apply quiet_panic
  | |- quiet (blocked _) => apply quiet_blocked
  | |- quiet (gets _) => apply quiet_gets
  | |- quiet (xio _) => apply quiet_xio
  | |- quiet (kio _) => apply quiet_xio
  | |- quiet (nio _) => apply quiet_xio
  | |- quiet (updp _ _) => apply quiet_updp; by intros []
  | |- quiet (wakeup1 _) => apply quiet_wakeup
  | |- quiet (each _ _) => apply quiet_each
  | |- quiet (for_loop _ _ _) => apply quiet_for
  | |- quiet myproc => apply quiet_gets
  | |- quiet (getp _) => apply quiet_gets
  | |- quiet curproc => apply quiet_bind; [apply quiet_gets|intro; apply quiet_gets]
  | |- quiet (if ?b then _ else _) => destruct b
  | |- quiet (match ?x with _ => _ end) => destruct x
  | |- quiet (let '_ := ?x in _) => destruct x
  end.
Ltac quiet := repeat (quiet_step || (solve [eauto with quiet])).

(** ** Quiet operations *)

Lemma quiet_uread a : quiet (uread a).
Proof. unfold uread. quiet. Qed.
#[local] Hint Resolve quiet_uread : quiet.
Lemma quiet_uread_n n : forall a, quiet (uread_n n a).
Proof. induction n as [|n IH]; intros a; cbn [uread_n]; quiet. Qed.
Lemma quiet_uwrite bs : forall a, quiet (uwrite a bs).
Proof.
  induction bs as [|b bs IH]; intros a; cbn [uwrite]; quiet. apply quiet_modify. by intros s.
Qed.
#[local] Hint Resolve quiet_uread_n quiet_uwrite : quiet.
Lemma quiet_fetchint a : quiet (fetchint a).
Proof. unfold fetchint. quiet. Qed.
Lemma quiet_fetchstr_loop n : forall a, quiet (fetchstr_loop n a).
Proof. induction n as [|n IH]; intros a; cbn [fetchstr_loop]; quiet. Qed.
#[local] Hint Resolve quiet_fetchint quiet_fetchstr_loop : quiet.
Lemma quiet_fetchstr a : quiet (fetchstr a).
Proof. unfold fetchstr. quiet. Qed.
Lemma quiet_argint n : quiet (argint n).
Proof. unfold argint. quiet. Qed.
#[local] Hint Resolve quiet_fetchstr quiet_argint : quiet.
Lemma quiet_argptr n size : quiet (argptr n size).
Proof. unfold argptr. quiet. Qed.
Lemma quiet_argstr n : quiet (argstr n).
Proof. unfold argstr. quiet. Qed.
Lemma quiet_argfd n : quiet (argfd n).
Proof. unfold argfd. quiet. Qed.
Lemma quiet_fdalloc f : quiet (fdalloc f).
Proof. unfold fdalloc. quiet. Qed.
#[local] Hint Resolve quiet_argptr quiet_argstr quiet_argfd quiet_fdalloc : quiet.
Lemma quiet_put_stat a st : quiet (put_stat a st).
Proof. unfold put_stat. quiet. Qed.
#[local] Hint Resolve quiet_put_stat : quiet.

Context (dev_read : Z -> option (nat -> Z -> M (fs S) (Z * list Z))).
Context (dev_write : Z -> option (nat -> list Z -> Z -> M (fs S) Z)).
Context (kend kdata forkret_eip : Z).

Lemma quiet_push_args pgdir argv : forall argc sp us, quiet (push_args pgdir argc sp argv us).
Proof. induction argv as [|a argv IH]; intros argc sp us; cbn [push_args]; quiet. Qed.
Lemma quiet_load n : forall pgdir ip off sz, quiet (load_segments dev_read kend n pgdir ip off sz).
Proof. induction n as [|n IH]; intros pgdir ip off sz; cbn [load_segments]; unfold loaduvm; quiet. Qed.
Lemma quiet_fetch_args n : forall a, quiet (fetch_args n a).
Proof. induction n as [|n IH]; intros a; cbn [fetch_args]; quiet. Qed.
#[local] Hint Resolve quiet_push_args quiet_load quiet_fetch_args : quiet.
Lemma quiet_exec path argv : quiet (exec dev_read kend kdata path argv).
Proof. unfold exec, exec_bad. quiet. Qed.
#[local] Hint Resolve quiet_exec : quiet.
Lemma quiet_growproc n : quiet (growproc kend n).
Proof. unfold growproc. quiet. Qed.
Lemma quiet_wait_scan : quiet (wait_scan kend).
Proof. unfold wait_scan. quiet. Qed.
Lemma quiet_allocproc : quiet (allocproc forkret_eip).
Proof. unfold allocproc. quiet. apply quiet_modify. by intros s. Qed.
Lemma quiet_dup_files np l : quiet (dup_files np l).
Proof. unfold dup_files. quiet. Qed.
Lemma quiet_kill pid : quiet (kill pid).
Proof. unfold kill. quiet. Qed.
Lemma quiet_exit : quiet (exit kend).
Proof. unfold exit, sched. quiet. Qed.
#[local] Hint Resolve quiet_growproc quiet_wait_scan quiet_allocproc quiet_dup_files quiet_kill quiet_exit : quiet.

(** The calls that may change user ids or the user database. *)
Definition loud (num : Z) : bool := existsb (Z.eqb num) [1; 24; 25; 30; 31; 32].

Lemma quiet_syscalls num h :
  syscalls dev_read dev_write kend kdata forkret_eip num = Some h -> loud num = false -> quiet h.
Proof.
  unfold syscalls. intros Hh Hn.
  repeat match goal with H : match ?x with _ => _ end = Some _ |- _ => is_var x; destruct x end; try discriminate Hh; try discriminate Hn;
    injection Hh as <-; clear Hn;
    unfold sys_pipe, sys_read, sys_kill, sys_exec, sys_fstat, sys_chdir, sys_dup, sys_getpid, sys_sbrk, sys_sleep, sys_uptime,
      sys_open, sys_write, sys_mknod, sys_unlink, sys_link, sys_mkdir, sys_close, sys_getuid, sys_getgid, sys_whoami, sys_chmod, sys_chown,
      sys_cansudo, sys_wait, wait; quiet.
Qed.

(** How process [i] can be root after a system call of process [p] in state [s]. *)
Inductive root_by (s : kern S) (p : proc) (i : nat) : Prop :=
| RootBefore q : procs s !! i = Some q -> p_uid q = 0 -> root_by s p i
| RootCaller : p_uid p = 0 -> root_by s p i
| RootLogin name pw s1 s2 : i = curp s -> argstr 0 s = Ok (Some name) s1 -> argstr 1 s1 = Ok (Some pw) s2 ->
    users_checkpassword (k_users s) name pw = 0 -> root_by s p i
| RootSudo : i = curp s -> users_can_sudo (k_users s) (p_uid p) <> 0 -> root_by s p i.

(** The outcome, in terms of the user ids. *)
Record gain (s : kern S) (p : proc) (s' : kern S) : Prop := Gain {
  gn_users : k_users s' = k_users s \/ p_uid p = 0;
  gn_root : forall i, uids s' !! i = Some 0 -> root_by s p i
}.

Lemma gain_keep s p s' : ukeep s s' -> gain s p s'.
Proof.
  intros [_ E1 E2]. split; [by left|]. intros i. rewrite E2. unfold uids. rewrite list_lookup_fmap. intros H.
  destruct (procs s !! i) as [q|] eqn:Hq; [|done]. injection H as H. by eapply RootBefore.
Qed.

Lemma gain_then s p s1 s2 : gain s p s1 -> ukeep s1 s2 -> gain s p s2.
Proof. intros [G1 G2] [_ E1 E2]. split; [by rewrite E1|]. intros i. rewrite E2. apply G2. Qed.

(** A change of one process's user id. *)
Lemma gain_set s p s1 i u f :
  ukeep s s1 -> (forall q, p_uid (f q) = u) -> (u = 0 -> root_by s p i) -> gain s p (set_procs (alter f i) s1).
Proof.
  intros Hk Hf Hu. pose proof (gain_keep s p s1 Hk) as [G1 G2]. split; [done|]. intros j. unfold uids. cbn [procs set_procs].
  rewrite list_lookup_fmap. destruct (decide (j = i)) as [->|Hne].
  - rewrite list_lookup_alter_eq. destruct (procs s1 !! i); [|done]. cbn. rewrite Hf. intros [= H]. by apply Hu.
  - rewrite list_lookup_alter_ne by done. intros H. apply G2. unfold uids. by rewrite list_lookup_fmap.
Qed.

Lemma cur_uid s p s1 : procs s !! curp s = Some p -> ukeep s s1 -> p_uid (nthd proc0 (procs s1) (curp s1)) = p_uid p.
Proof.
  intros Hp [E0 _ E2]. apply (f_equal (fun l => l !! curp s)) in E2. unfold uids in E2. rewrite !list_lookup_fmap, Hp in E2.
  unfold nthd. rewrite E0. destruct (procs s1 !! curp s) as [q|]; [|done]. by injection E2.
Qed.

Lemma wlp_quiet {A B} (m : K A) (k : A -> K B) Q s0 s :
  ukeep s0 s -> quiet m -> (forall a s1, ukeep s0 s1 -> wlp (k a) Q s1) -> wlp (bind m k) Q s.
Proof.
  intros Hk Hm HQ. apply wlp_bind. eapply wlp_conseq; [apply Hm|]. cbv beta. intros a s1 H1. apply HQ. by etransitivity.
Qed.

Lemma wlp_bind_eq {A B} (m : K A) (k : A -> K B) Q s : (forall a s1, m s = Ok a s1 -> wlp (k a) Q s1) -> wlp (bind m k) Q s.
Proof. intros H. apply wlp_bind. unfold wlp at 1. destruct (m s) as [a s1| |] eqn:E; [by apply H|done|done]. Qed.

(** The call ends with something quiet. *)
Lemma wlp_quiet_end {A} (m : K A) s0 p s : gain s0 p s -> quiet m -> wlp m (fun _ => gain s0 p) s.
Proof. intros Hg Hm. eapply wlp_conseq; [apply Hm|]. cbv beta. intros a s1 H1. by eapply gain_then. Qed.

Section Calls.
Context (s0 : kern S) (p : proc) (Hp : procs s0 !! curp s0 = Some p).

Lemma quiet_gain {A} (m : K A) s : ukeep s0 s -> quiet m -> wlp m (fun _ => gain s0 p) s.
Proof. intros Hk. apply wlp_quiet_end. by apply gain_keep. Qed.

Ltac quietly := eapply (wlp_quiet _ _ _ s0); [done|quiet|].

Lemma fork_gain : wlp (fork kend kdata forkret_eip) (fun _ => gain s0 p) s0.
Proof.
  unfold fork. apply wlp_bind, wlp_gets. quietly. intros [np|] s1 H1; [|apply quiet_gain; [done|quiet]].
  apply wlp_bind, wlp_gets. pose proof (cur_uid s0 p s1 Hp H1) as Hu. rewrite (uk_cur _ _ H1) in Hu. set (q := nthd proc0 _ _) in *. clearbody q.
  quietly. intros d s2 H2. quietly. intros c s3 H3. quietly. intros [] s4 H4. destruct (d =? 0); [apply quiet_gain; [done|quiet]|].
  quietly. intros [] s5 H5. quietly. intros [] s6 H6. quietly. intros [] s7 H7. quietly. intros [] s8 H8. quietly. intros cwd s9 H9.
  quietly. intros [] s10 H10. quietly. intros [] s11 H11. quietly. intros c' s12 H12. apply wlp_bind, wlp_modify.
  apply wlp_quiet_end; [|quiet]. apply (gain_set _ _ _ _ (p_uid q)); [done|done|]. intros E. apply RootCaller. congruence.
Qed.

Lemma setuid_gain : wlp sys_setuid (fun _ => gain s0 p) s0.
Proof.
  unfold sys_setuid. quietly. intros [uid|] s1 H1; [|apply quiet_gain; [done|quiet]].
  apply wlp_bind, wlp_bind, wlp_gets, wlp_gets. destruct (negb _) eqn:E; [apply quiet_gain; [done|quiet]|].
  apply negb_false_iff, Z.eqb_eq in E. rewrite (cur_uid s0 p s1 Hp H1) in E.
  apply wlp_bind, wlp_gets, wlp_bind, wlp_modify, wlp_ret. apply (gain_set _ _ _ _ uid); [done|done|]. intros _. by apply RootCaller.
Qed.

Lemma setsuid_gain : wlp sys_setsuid (fun _ => gain s0 p) s0.
Proof.
  unfold sys_setsuid. quietly. intros [uid|] s1 H1; [|apply quiet_gain; [done|quiet]].
  apply wlp_bind, wlp_bind, wlp_gets, wlp_gets, wlp_bind, wlp_gets. rewrite (cur_uid s0 p s1 Hp H1), (uk_users _ _ H1).
  destruct (users_can_sudo (k_users s0) (p_uid p) =? 0) eqn:E; [apply quiet_gain; [done|quiet]|]. apply Z.eqb_neq in E.
  destruct (_ && _); [apply quiet_gain; [done|quiet]|]. apply wlp_bind, wlp_gets, wlp_bind, wlp_modify, wlp_ret. rewrite (uk_cur _ _ H1).
  apply (gain_set _ _ _ _ uid); [done|done|]. intros _. by apply RootSudo.
Qed.

Lemma login_gain : wlp sys_login (fun _ => gain s0 p) s0.
Proof.
  unfold sys_login. apply wlp_bind_eq. intros r0 s1 E0. pose proof (wlp_Ok _ _ _ _ _ (quiet_argstr 0 s0) E0) as H1.
  destruct r0 as [name|]; [|apply quiet_gain; [done|quiet]]. apply wlp_bind_eq. intros r1 s2 E1.
  pose proof (wlp_Ok _ _ _ _ _ (quiet_argstr 1 s1) E1) as H12. assert (H2 : ukeep s0 s2) by (by etransitivity).
  destruct r1 as [pw|]; [|apply quiet_gain; [done|quiet]].
  apply wlp_bind, wlp_gets. rewrite (uk_users _ _ H2). destruct (_ <? 0); [apply quiet_gain; [done|quiet]|].
  apply wlp_bind, wlp_gets, wlp_bind, wlp_modify, wlp_ret. rewrite (uk_cur _ _ H2). apply (gain_set _ _ _ _ (users_checkpassword (k_users s0) name pw)); [done|done|].
  intros E. by eapply RootLogin.
Qed.

(** The calls that change the sudoers are for root. *)
Lemma sudoers_gain (f : utable -> Z -> Z * utable) :
  wlp (bind curproc (fun p => if negb (p_uid p =? 0) then ret (-1) else bind (argint 0) (fun uid => match uid with
        | None => ret (-1)
        | Some uid => bind (gets k_users) (fun t => let '(r, t') := f t uid in bind (modify (set_users t')) (fun _ => ret r))
        end))) (fun _ => gain s0 p) s0.
Proof.
  apply wlp_bind, wlp_bind, wlp_gets, wlp_gets. rewrite (nthd_lookup _ _ _ _ Hp). destruct (negb _) eqn:E; [apply quiet_gain; [done|quiet]|].
  apply negb_false_iff, Z.eqb_eq in E. quietly. intros [uid|] s1 H1; [|apply quiet_gain; [done|quiet]].
  apply wlp_bind, wlp_gets. destruct (f (k_users s1) uid) as [r t']. apply wlp_bind, wlp_modify, wlp_ret. split; [by right|].
  intros i _. by apply RootCaller.
Qed.
End Calls.

(** ** Killed and faulting processes *)

Abbreviation cur_proc s := (nthd proc0 (procs s) (curp s)).

(** The last step of [exit] is [sched], which a running process does not pass. *)
Lemma wlp_exit (s : kern S) : wlp (exit kend) (fun _ s' => p_state (cur_proc s') <> RUNNING) s.
Proof.
  unfold exit. do 2 (apply wlp_last; intros ? ?). destruct (bool_decide _); [by apply wlp_panic|].
  do 9 (apply wlp_last; intros ? ?). unfold sched. apply wlp_bind, wlp_gets, wlp_bind, wlp_gets.
  destruct (bool_decide _) eqn:E; [by apply wlp_panic|apply wlp_ret]. by apply bool_decide_eq_false in E.
Qed.

(** How a trap ends: back in user space only if not killed, else not running. *)
Definition trap_end (back : bool) (s : kern S) : Prop :=
  if back then p_killed (cur_proc s) = 0 else p_state (cur_proc s) <> RUNNING.

Lemma wlp_exit_false (s : kern S) : wlp (bind (exit kend) (fun _ => ret false)) trap_end s.
Proof. apply wlp_bind. eapply wlp_conseq; [apply wlp_exit|]. intros [] s' H. by apply wlp_ret. Qed.

Lemma wlp_exit_if_killed (s : kern S) : wlp (exit_if_killed kend) trap_end s.
Proof.
  unfold exit_if_killed, curproc. apply wlp_bind, wlp_bind, wlp_gets, wlp_gets. destruct (truth _) eqn:E; [apply wlp_exit_false|].
  apply wlp_ret. unfold truth in E. cbn. by apply negb_false_iff, Z.eqb_eq in E.
Qed.

(** Exceptions: traps that are neither the system call nor an interrupt. *)
Definition is_exception (trapno : Z) : bool :=
  negb (existsb (Z.eqb trapno) [T_SYSCALL; T_IRQ0 + IRQ_TIMER; T_IRQ0 + IRQ_IDE; T_IRQ0 + IRQ_IDE + 1; T_IRQ0 + IRQ_KBD;
                                T_IRQ0 + IRQ_COM1; T_IRQ0 + 7; T_IRQ0 + IRQ_SPURIOUS]).

Lemma wlp_syscall (s : kern S) :
  wlp (syscall dev_read dev_write kend kdata forkret_eip) (fun go s' => go = false -> p_state (cur_proc s') <> RUNNING) s.
Proof.
  unfold syscall. apply wlp_last. intros p t. destruct (_ =? SYS_exit).
  - apply wlp_bind. eapply wlp_conseq; [apply wlp_exit|]. intros [] s' H. by apply wlp_ret.
  - destruct (syscalls _ _ _ _ _ _); [do 2 (apply wlp_last; intros ? ?)|apply wlp_last; intros ? ?]; by apply wlp_ret.
Qed.

Lemma wlp_yield_killed (s : kern S) : p_killed (cur_proc s) = 0 -> wlp yield (fun _ => trap_end true) s.
Proof.
  intros Hk. unfold yield. apply wlp_bind, wlp_gets, wlp_bind, wlp_modify. unfold sched. apply wlp_bind, wlp_gets, wlp_bind, wlp_gets.
  destruct (bool_decide _); [by apply wlp_panic|]. apply wlp_ret. cbn. unfold nthd in *. cbn.
  rewrite list_lookup_alter_eq. by destruct (procs s !! curp s).
Qed.

(** An exception marks the process killed. *)
Lemma wlp_trap_irq trapno line (s : kern S) p :
  procs s !! curp s = Some p -> is_exception trapno = true -> wlp (trap_irq trapno line) (fun _ s' => p_killed (cur_proc s') = 1) s.
Proof.
  intros Hp He. unfold is_exception in He. cbn [existsb] in He. apply negb_true_iff in He. rewrite !orb_false_iff in He.
  destruct He as (H1 & H2 & H3 & H4 & H5 & H6 & H7 & H8 & _). unfold trap_irq. rewrite H2, H3, H4, H5, H6, H7, H8. cbn [orb].
  apply wlp_bind, wlp_gets, wlp_modify. cbn. unfold nthd. cbn. by rewrite list_lookup_alter_eq, Hp.
Qed.

End Priv.

(** A process of user 1000 calls getuid. *)
Definition smp_getuid : kern lst :=
  set_procs (alter (set_tf (<[TF_EAX := 22]> (p_tf smp_proc))) 0%nat) (smp_kern smp_mem).
Definition smp_getuid' : kern lst :=
  set_procs (alter (set_tf (<[TF_EAX := 1000]> (p_tf smp_proc))) 0%nat) smp_getuid.


(** The process takes a page fault (trap 14). *)
Definition smp_fault : list Z := <[TF_TRAPNO := 14]> (p_tf smp_proc).

