(* ===== verification/Access.v ===== *)
(** Opening files: what the permission checks of [sys_open] guarantee, and
    where they do not; and unlinking a name that is in the name cache. *)
From stdpp Require Import base numbers list strings.
From Stdlib Require Import ZArith Lia.
From S2P Require Import Prelude Params CString Namecache Bio Log Store Fs Sample File Proc Fork Syscall Sysfile.

Local Open Scope list_scope.
Local Open Scope Z_scope.

Section Access.
Context {S : Type} `{!BlockStore S}.
Context (dev_read : Z -> option (nat -> Z -> M (fs S) (Z * list Z))).
Context (dev_write : Z -> option (nat -> list Z -> Z -> M (fs S) Z)).

(** [uid] may do with the file what a [struct file] opened with [omode] allows. *)
Definition allowed (uid omode : Z) (i : inode) : Prop :=
  uid = 0 \/ uid = i_uid i \/
  ((f_readable_of omode <> 0 -> Z.land (i_mode i) S_IROTH <> 0) /\ (f_writable_of omode <> 0 -> Z.land (i_mode i) S_IWOTH <> 0)).

Definition plain_mode (omode : Z) : Prop := omode = O_RDONLY \/ omode = O_WRONLY \/ omode = O_RDWR.

(** The checks and the flags agree on the three documented modes. *)
Lemma may_open_allowed uid omode i : plain_mode omode -> (may_open uid omode i = true <-> allowed uid omode i).
Proof.
  intros Hm. unfold may_open, allowed.
  generalize (Z.land (i_mode i) S_IROTH), (Z.land (i_mode i) S_IWOTH), (i_uid i); intros r w o.
  destruct Hm as [Hm|[Hm|Hm]]; subst omode; vm_compute (f_readable_of _); vm_compute (f_writable_of _); cbn;
    destruct (Z.eqb_spec uid 0), (Z.eqb_spec uid o), (Z.eqb_spec r 0), (Z.eqb_spec w 0); cbn; split; try done; lia.
Qed.

(** C14: permissions of an opened file.  Opened without [O_CREATE] in one of
    the three documented modes, a file comes back from [sys_open] only if the
    caller is root, or the owner, or the permission bits for others allow what
    the [struct file] will allow; and a directory is never writable. *)
Theorem open_permission s path omode (Hc : truth (Z.land omode O_CREATE) = false) (Hm : plain_mode omode) :
  wlp (open_inode dev_read dev_write path omode)
      (fun r s' => forall ip, r = Some ip -> let i := nthd inode0 (icache s') ip in
         allowed (c_uid (cur s')) omode i /\ (i_type i = T_DIR -> f_writable_of omode = 0)) s.
Proof.
  unfold open_inode. apply wlp_bind. unfold wlp at 1. destruct (fbegin s) as [[] s1| |]; [|done|done]. rewrite Hc.
  apply wlp_bind. unfold wlp at 1. destruct (namei dev_read path s1) as [[ip|] s2| |]; [| |done|done].
  - apply wlp_bind. unfold wlp at 1. destruct (ilock ip s2) as [[] s3| |]; [|done|done]. apply wlp_bind, wlp_gets, wlp_bind, wlp_gets.
    assert (Hno : forall s', wlp (bind (iunlockput ip) (fun _ => bind fend (fun _ => ret None)))
      (fun r (s'' : fs S) => forall ip, r = Some ip -> let i := nthd inode0 (icache s'') ip in
         allowed (c_uid (cur s'')) omode i /\ (i_type i = T_DIR -> f_writable_of omode = 0)) s').
    { intros s'. apply wlp_bind. unfold wlp at 1. destruct (iunlockput ip s') as [[] s4| |]; [|done|done].
      apply wlp_bind. unfold wlp at 1. destruct (fend s4) as [[] s5| |]; [|done|done]. by apply wlp_ret. }
    destruct ((_ =? T_DIR) && negb (omode =? O_RDONLY)) eqn:Ed; [apply Hno|]. destruct (negb (may_open _ _ _)) eqn:Em; [apply Hno|].
    apply wlp_ret. intros ip' [= <-]. apply negb_false_iff, (may_open_allowed _ _ _ Hm) in Em. split; [done|].
    intros Ht. rewrite Ht, Z.eqb_refl in Ed. cbn in Ed. apply negb_false_iff, Z.eqb_eq in Ed as ->. done.
  - apply wlp_bind. unfold wlp at 1. destruct (fend s2) as [[] s3| |]; [|done|done]. by apply wlp_ret.
Qed.
End Access.

(** The sample file system as user [u]; /a belongs to user 1000, with mode 0644. *)
Definition smp_fsu (u : Z) : fs lst := Fs smp_lst smp_sb (set_ilock (Sleeplock 0 0) <$> smp_icache) namecache0 (Cred 1 u u 0).

Lemma open_permission_witness :
  wlp (open_inode (fun _ => None) (fun _ => None) (lit "/a") O_RDONLY)
      (fun r s' => forall ip, r = Some ip -> let i := nthd inode0 (icache s') ip in
         allowed (c_uid (cur s')) O_RDONLY i /\ (i_type i = T_DIR -> f_writable_of O_RDONLY = 0)) (smp_fsu 2000) /\
  match open_inode (fun _ => None) (fun _ => None) (lit "/a") O_RDONLY (smp_fsu 2000) with Ok r _ => r = Some 1%nat | _ => False end.
Proof.
  split; [|vm_compute; reflexivity].
  apply (open_permission (fun _ => None) (fun _ => None) (smp_fsu 2000) (lit "/a") O_RDONLY eq_refl). by left.
Defined.

Definition opened (omode : Z) : option (option nat) :=
  match open_inode (fun _ => None) (fun _ => None) (lit "/a") omode (smp_fsu 2000) with Ok r _ => Some r | _ => None end.


(** The inode numbers of the three entries of the root directory on disk. *)
Definition root_entries (s : fs lst) : list Z := (fun k => rd 2 (16 * k) (nthd zero_block (disk (cache (store_st s))) 35)) <$> seq 0 3.

