(* ===== verification/Image.v ===== *)
(** What [exec] does to the process that calls it: all of the new image, or
    nothing. *)
From stdpp Require Import base numbers list strings gmap.
From Stdlib Require Import ZArith Lia.
From S2P Require Import Prelude Params CString Users Namecache Bio Log Store Fs Kalloc Vm Pipe File Proc Ptable Fork Syscall Sysfile Exec Sample Grow Access.

Local Open Scope list_scope.
Local Open Scope Z_scope.

Section Image.
Context {S : Type} `{!BlockStore S}.
Abbreviation K := (M (kern S)).

(** The process table is as before, but for processes woken up. *)
Record kept (s s' : kern S) : Prop := Kept {
  kp_same : ksame s s';
  kp_users : k_users s' = k_users s;
  kp_procs : nudged (procs s) (procs s')
}.
#[local] Instance kept_preorder : PreOrder kept.
Proof.
  split; [by intros s|]. intros a b c [(A1 & A2 & A3) A4 A5] [(B1 & B2 & B3) B4 B5]. split; [by repeat split; congruence|congruence|by etransitivity].
Qed.

Lemma kept_xio {A} (m : M (files S) A) : always kept (xio m).
Proof. intros s. unfold wlp, xio. destruct (m (enter s)) as [a x| |]; [|done|done]. split; [done|done|]. apply wake_all_nudged. Qed.

Ltac kept_step :=
  lazymatch goal with
  | |- forall _, always _ _ => intro
  | |- always _ (bind _ _) => apply (always_bind kept)
  | |- always _ (ret _) => apply (always_ret kept)
  | |- always _ (panic _) => apply always_panic
  | |- always _ (xio _) => apply kept_xio
  | |- always _ (kio _) => apply kept_xio
  | |- always _ (nio _) => apply kept_xio
  | |- always _ (for_loop _ _ _) => apply (always_for kept)
  | |- always _ (if ?b then _ else _) => destruct b
  | |- always _ (match ?x with _ => _ end) => destruct x
  end.
Ltac keep := repeat kept_step.

Context (dev_read : Z -> option (nat -> Z -> M (fs S) (Z * list Z))).
Context (kend kdata : Z).

Lemma kept_loaduvm pgdir addr ip off n :
  always kept (loaduvm (fun A (m : M kmem A) => kio m) (fun o n => nio (readi dev_read ip o n)) pgdir addr off n).
Proof. unfold loaduvm. keep. Qed.

Lemma kept_load_segments n pgdir ip : forall off sz, always kept (load_segments dev_read kend n pgdir ip off sz).
Proof. induction n as [|n IH]; intros off sz; cbn [load_segments]; keep; try apply IH. apply kept_loaduvm. Qed.

Lemma kept_push_args pgdir argv : forall argc sp us, always kept (push_args pgdir argc sp argv us).
Proof. induction argv as [|a argv IH]; intros argc sp us; cbn [push_args]; keep; try apply IH. Qed.

(** How [exec] ends: with -1 and the process as it was; or with 0 and the new
    image in the one process [me]. *)
Definition exec_end (s : kern S) (p : proc) (r : Z) (s' : kern S) : Prop :=
  curp s' = curp s /\
  ((r = -1 /\ kept s s' /\ procs s' !! curp s = Some p) \/
   (r = 0 /\ exists q name sz pgdir entry sp, procs s' !! curp s = Some q /\
      q = set_tf (<[TF_ESP := sp]> (<[TF_EIP := entry]> (p_tf p))) (set_mem sz pgdir (set_name name p)) /\ pgdir <> 0 /\ sz <> 0 /\
      forall i x, i <> curp s -> procs s' !! i = Some x -> exists y, procs s !! i = Some y /\ nudge1 y x)).

Lemma kept_running s s' p : kept s s' -> procs s !! curp s = Some p -> p_state p = RUNNING -> procs s' !! curp s' = Some p.
Proof.
  intros [(E1 & _ & _) _ Hn] Hp Hr. rewrite E1. destruct (nudged_fwd _ _ _ _ Hn Hp) as (p' & Hp' & [->|[Hs _]]); [done|congruence].
Qed.

Section Call.
Context (s : kern S) (p : proc) (Hp : procs s !! curp s = Some p) (Hr : p_state p = RUNNING).

Lemma wlp_kept {A B} (m : K A) (k : A -> K B) Q t :
  kept s t -> always kept m -> (forall a t', kept s t' -> wlp (k a) Q t') -> wlp (bind m k) Q t.
Proof. intros Ht Hm Hk. apply wlp_bind. eapply wlp_conseq; [apply Hm|]. cbv beta. intros a t' Ht'. apply Hk. by etransitivity. Qed.

Lemma fail_end t : kept s t -> exec_end s p (-1) t.
Proof.
  intros Ht. pose proof (kept_running s t p Ht Hp Hr) as H. pose proof (proj1 (kp_same s t Ht)) as Ec. split; [done|]. left.
  rewrite Ec in H. done.
Qed.

Lemma wlp_exec_bad pgdir ip t : kept s t -> wlp (exec_bad kend pgdir ip) (exec_end s p) t.
Proof.
  intros Ht. unfold exec_bad. apply (wlp_kept _ _ _ _ Ht); [keep|]. intros [] t1 Ht1. apply (wlp_kept _ _ _ _ Ht1); [keep|].
  intros [] t2 Ht2. apply wlp_ret. by apply fail_end.
Qed.

(** The steps that commit to the new image. *)
Lemma wlp_commit path sz pgdir entry sp t : kept s t -> pgdir <> 0 -> sz <> 0 ->
  wlp (bind myproc (fun me =>
       bind (updp me (fun p => set_name (safestrcpy 16 (p_name p) (last_elem path path)) p)) (fun _ =>
       bind (getp me) (fun q =>
       bind (updp me (set_mem sz pgdir)) (fun _ =>
       bind (updp me (fun p => set_tf (<[TF_EIP := entry]> (p_tf p)) p)) (fun _ =>
       bind (updp me (fun p => set_tf (<[TF_ESP := sp]> (p_tf p)) p)) (fun _ =>
       bind (kio (freevm kend (p_pgdir q))) (fun _ => ret 0)))))))) (exec_end s p) t.
Proof.
  intros Ht Hd Hz. pose proof (kept_running s t p Ht Hp Hr) as Hpt. destruct Ht as [(Ec & Ei & En) Eu Hn].
  apply wlp_bind, wlp_gets, wlp_bind, wlp_modify, wlp_bind, wlp_gets, wlp_bind, wlp_modify, wlp_bind, wlp_modify, wlp_bind, wlp_modify, wlp_bind.
  eapply wlp_conseq; [apply (kept_xio (mio (freevm kend _)))|]. cbv beta. intros [] t' [(Ec' & _ & _) _ Hn']. apply wlp_ret. cbn in Ec', Hn'.
  split; [congruence|]. right. split; [done|]. rewrite <- Ec in *.
  match type of Hn' with nudged ?ps _ =>
    assert (Hq : ps !! curp t = Some (set_tf (<[TF_ESP := sp]> (<[TF_EIP := entry]> (p_tf p))) (set_mem sz pgdir (set_name (safestrcpy 16 (p_name p) (last_elem path path)) p))))
      by (rewrite !list_lookup_alter_eq, Hpt; by destruct p);
    assert (Ho : forall i, i <> curp t -> ps !! i = procs t !! i) by (intros i Hi; by rewrite !list_lookup_alter_ne)
  end.
  destruct (nudged_fwd _ _ _ _ Hn' Hq) as (q & Eq & [->|[Hs _]]); [|exfalso; destruct p; cbn in *; congruence].
  eexists _, _, sz, pgdir, entry, sp. split; [exact Eq|]. split; [done|]. split; [done|]. split; [done|].
  intros i x Hi Hx. destruct (nudged_back _ _ _ _ Hn' Hx) as (y & Hy & N1). rewrite Ho in Hy by done.
  destruct (nudged_back _ _ _ _ Hn Hy) as (z & Hz' & N2). exists z. split; [done|].
  destruct N1 as [->|[S1 ->]]; [done|]. destruct N2 as [->|[S2 ->]]; [by right|]. cbn in S1. destruct z; done.
Qed.

Lemma wlp_exec path argv : wlp (exec dev_read kend kdata path argv) (exec_end s p) s.
Proof.
  unfold exec. assert (H0 : kept s s) by done. apply (wlp_kept _ _ _ _ H0); [keep|]. intros [] t1 H1.
  apply (wlp_kept _ _ _ _ H1); [keep|]. intros [ip|] t2 H2.
  2:{ apply (wlp_kept _ _ _ _ H2); [keep|]. intros [] t3 H3. apply wlp_ret. by apply fail_end. }
  apply (wlp_kept _ _ _ _ H2); [keep|]. intros [] t3 H3. apply (wlp_kept _ _ _ _ H3); [keep|]. intros [r bs] t4 H4.
  destruct (negb (r =? ELFHDRSIZE)); [by apply wlp_exec_bad|]. destruct (negb (_ =? ELF_MAGIC)); [by apply wlp_exec_bad|].
  apply (wlp_kept _ _ _ _ H4); [keep|]. intros pgdir t5 H5. destruct (Z.eqb_spec pgdir 0) as [|Hd]; [by apply wlp_exec_bad|].
  apply (wlp_kept _ _ _ _ H5); [apply kept_load_segments|]. intros [sz|] t6 H6; [|by apply wlp_exec_bad].
  apply (wlp_kept _ _ _ _ H6); [keep|]. intros [] t7 H7. apply (wlp_kept _ _ _ _ H7); [keep|]. intros [] t8 H8.
  apply (wlp_kept _ _ _ _ H8); [keep|]. intros sz2 t9 H9. destruct (Z.eqb_spec sz2 0) as [|Hz]; [by apply wlp_exec_bad|].
  apply (wlp_kept _ _ _ _ H9); [keep|]. intros [] t10 H10. apply (wlp_kept _ _ _ _ H10); [apply kept_push_args|].
  intros [[[argc sp] words]|] t11 H11; [|by apply wlp_exec_bad]. apply (wlp_kept _ _ _ _ H11); [keep|]. intros r' t12 H12.
  destruct (r' <? 0); [by apply wlp_exec_bad|]. by apply wlp_commit.
Qed.
End Call.

End Image.

(** The process of the sample, with no inode locked; there is no such file. *)
Definition smp_idle_kern : kern lst :=
  Kern (Files (smp_fsu 1000) smp_ftab ∅ smp_mem 0 []) (procs (smp_kern smp_mem)) 0 (Some 0%nat) 2 utable0 0.

