(* ===== verification/Spinlock.v ===== *)
(** Spin locks (spinlock.c): the nesting of [pushcli] and [popcli], and the
    processors that contend for the locks, interleaved at their memory
    accesses. *)
From stdpp Require Import base numbers list strings gmap sets.
From Stdlib Require Import ZArith Lia.
From S2P Require Import Prelude.

Local Open Scope Z_scope.
Local Open Scope kernel_scope.

(** What spinlock.c uses of [struct cpu], with the interrupt flag of the
    processor; and [struct spinlock] without the name and the call stack, which
    serve debugging only. *)
Record cpu := Cpu { ncli : Z; intena : bool; iflag : bool }.
Record spinlock := Spinlock { lk_locked : Z; lk_cpu : option nat }.
Record machine := Machine { m_cpu : nat -> cpu; m_lock : nat -> spinlock }.

Definition upd {A} (i : nat) (x : A) (f : nat -> A) : nat -> A := fun j => if Nat.eqb j i then x else f j.

Abbreviation P := (M machine).
Definition getcpu (c : nat) : P cpu := gets (fun m => m_cpu m c).
Definition setcpu (c : nat) (x : cpu) : P unit := modify (fun m => Machine (upd c x (m_cpu m)) (m_lock m)).
Definition getlock (l : nat) : P spinlock := gets (fun m => m_lock m l).
Definition setlock (l : nat) (x : spinlock) : P unit := modify (fun m => Machine (m_cpu m) (upd l x (m_lock m))).

(** ** The operations, on processor [c] *)

Definition initlock (l : nat) : P unit := setlock l (Spinlock 0 None).

Definition pushcli (c : nat) : P unit :=
  x ← getcpu c;
  let eflags := iflag x in
  setcpu c (Cpu (ncli x) (intena x) false);;
  x ← getcpu c;
  (if ncli x =? 0 then setcpu c (Cpu (ncli x) eflags (iflag x)) else ret tt);;
  x ← getcpu c;
  setcpu c (Cpu (ncli x + 1) (intena x) (iflag x)).

Definition popcli (c : nat) : P unit :=
  x ← getcpu c;
  if iflag x then panic "popcli - interruptible"
  else
    setcpu c (Cpu (ncli x - 1) (intena x) (iflag x));;
    x ← getcpu c;
    if ncli x <? 0 then panic "popcli"
    else if (ncli x =? 0) && intena x then setcpu c (Cpu (ncli x) (intena x) true)
    else ret tt.

Definition holding (c l : nat) : P bool :=
  pushcli c;;
  k ← getlock l;
  popcli c;;
  ret (negb (lk_locked k =? 0) && bool_decide (lk_cpu k = Some c)).

(** [acquire] up to the loop; one turn of the loop; and the rest. *)
Definition acquire_enter (c l : nat) : P unit :=
  pushcli c;;
  h ← holding c l;
  if h : bool then panic "acquire" else ret tt.
Definition xchg (l : nat) (v : Z) : P Z :=
  k ← getlock l;
  setlock l (Spinlock v (lk_cpu k));;
  ret (lk_locked k).
Definition acquire_exit (c l : nat) : P unit :=
  k ← getlock l;
  setlock l (Spinlock (lk_locked k) (Some c)).

(** [release] up to the store that frees the lock, and the rest. *)
Definition release_enter (c l : nat) : P unit :=
  h ← holding c l;
  if h : bool then k ← getlock l; setlock l (Spinlock (lk_locked k) None)
  else panic "release".
Definition release_exit (c l : nat) : P unit :=
  k ← getlock l;
  setlock l (Spinlock 0 (lk_cpu k));;
  popcli c.

(** The two functions on one processor: the loop of [acquire] does not end
    while the lock is taken. *)
Definition acquire (c l : nat) : P unit :=
  acquire_enter c l;;
  r ← xchg l 1;
  if r =? 0 then acquire_exit c l else blocked "spin".
Definition release (c l : nat) : P unit := release_enter c l;; release_exit c l.

(** ** Lemmas on the operations *)

Lemma upd_eq {A} i (x : A) f : upd i x f i = x.
Proof. unfold upd. by rewrite Nat.eqb_refl. Qed.
Lemma upd_ne {A} i j (x : A) f : j <> i -> upd i x f j = f j.
Proof. intros H. unfold upd. by apply Nat.eqb_neq in H as ->. Qed.

(** [m'] is [m] but for processor [c], which is [x]. *)
Definition at_cpu (m m' : machine) (c : nat) (x : cpu) : Prop :=
  m_cpu m' c = x /\ (forall d, d <> c -> m_cpu m' d = m_cpu m d) /\ m_lock m' = m_lock m.

Lemma pushcli_spec c m :
  let x := m_cpu m c in
  exists m', pushcli c m = Ok tt m' /\ at_cpu m m' c (Cpu (ncli x + 1) (if ncli x =? 0 then iflag x else intena x) false).
Proof.
  intros x. unfold pushcli, getcpu, setcpu, bind, gets, modify, ret. fold x. cbn. rewrite upd_eq. cbn.
  destruct (ncli x =? 0); cbn; eexists; (split; [reflexivity|]); repeat split; cbn; rewrite ?upd_eq; cbn; try done;
    intros d Hd; by rewrite ?upd_ne.
Qed.

(** With interrupts off and something to undo. *)
Lemma popcli_spec c m :
  let x := m_cpu m c in
  iflag x = false -> 1 <= ncli x ->
  exists m', popcli c m = Ok tt m' /\ at_cpu m m' c (Cpu (ncli x - 1) (intena x) ((ncli x =? 1) && intena x)).
Proof.
  intros x Hi Hn. unfold popcli, getcpu, setcpu, bind, gets, modify, ret. fold x. rewrite Hi. cbn. rewrite upd_eq. cbn.
  destruct (Z.ltb_spec (ncli x - 1) 0); [lia|]. replace (ncli x - 1 =? 0) with (ncli x =? 1) by (destruct (Z.eqb_spec (ncli x) 1), (Z.eqb_spec (ncli x - 1) 0); done || lia).
  destruct ((ncli x =? 1) && intena x); cbn; eexists; (split; [reflexivity|]); repeat split; cbn; rewrite ?upd_eq; cbn; try done;
    intros d Hd; by rewrite ?upd_ne.
Qed.

Definition holds (m : machine) (c l : nat) : bool :=
  negb (lk_locked (m_lock m l) =? 0) && bool_decide (lk_cpu (m_lock m l) = Some c).

(** [holding] answers without a trace but in [intena], which means nothing outside. *)
Lemma holding_spec c l m :
  let x := m_cpu m c in
  0 <= ncli x -> (0 < ncli x -> iflag x = false) ->
  exists m', holding c l m = Ok (holds m c l) m' /\ at_cpu m m' c (Cpu (ncli x) (if ncli x =? 0 then iflag x else intena x) (iflag x)).
Proof.
  intros x Hn Hi. destruct (pushcli_spec c m) as (m1 & E1 & C1 & O1 & L1). fold x in C1.
  destruct (popcli_spec c m1) as (m2 & E2 & C2 & O2 & L2); [by rewrite C1|rewrite C1; cbn; lia|].
  exists m2. unfold holding, bind, getlock, gets. rewrite E1, E2, L1. split; [done|]. rewrite C1 in C2. cbn in C2.
  repeat split; [|intros d Hd; by rewrite O2, O1|by rewrite L2].
  rewrite C2. replace (ncli x + 1 - 1) with (ncli x) by lia.
  destruct (Z.eqb_spec (ncli x) 0) as [E0|E0]; destruct (Z.eqb_spec (ncli x + 1) 1); try lia; cbn; [done|]. by rewrite Hi by lia.
Qed.

Lemma acquire_enter_spec c l m :
  let x := m_cpu m c in
  0 <= ncli x -> (0 < ncli x -> iflag x = false) ->
  if holds m c l then acquire_enter c l m = Panic "acquire"
  else exists m', acquire_enter c l m = Ok tt m' /\ at_cpu m m' c (Cpu (ncli x + 1) (if ncli x =? 0 then iflag x else intena x) false).
Proof.
  intros x Hn Hi. destruct (pushcli_spec c m) as (m1 & E1 & C1 & O1 & L1). fold x in C1.
  destruct (holding_spec c l m1) as (m2 & E2 & C2 & O2 & L2); [rewrite C1; cbn; lia|by rewrite C1|].
  unfold acquire_enter, bind. rewrite E1, E2. assert (Eh : holds m1 c l = holds m c l) by (unfold holds; by rewrite L1).
  rewrite Eh. destruct (holds m c l); [done|]. exists m2. split; [done|]. rewrite C1 in C2. cbn in C2.
  destruct (Z.eqb_spec (ncli x + 1) 0); [lia|]. repeat split; [done| |by rewrite L2]. intros d Hd. by rewrite O2, O1.
Qed.

Lemma release_enter_spec c l m :
  let x := m_cpu m c in
  0 <= ncli x -> (0 < ncli x -> iflag x = false) ->
  if holds m c l then
    exists m', release_enter c l m = Ok tt m' /\ (forall d, d <> c -> m_cpu m' d = m_cpu m d) /\
      m_cpu m' c = Cpu (ncli x) (if ncli x =? 0 then iflag x else intena x) (iflag x) /\
      m_lock m' = upd l (Spinlock (lk_locked (m_lock m l)) None) (m_lock m)
  else release_enter c l m = Panic "release".
Proof.
  intros x Hn Hi. destruct (holding_spec c l m Hn Hi) as (m1 & E1 & C1 & O1 & L1). fold x in C1.
  unfold release_enter, bind. rewrite E1. destruct (holds m c l); [|done]. cbn. eexists. split; [reflexivity|]. cbn. by rewrite L1.
Qed.

Lemma release_exit_spec c l m :
  let x := m_cpu m c in
  iflag x = false -> 1 <= ncli x ->
  exists m', release_exit c l m = Ok tt m' /\ (forall d, d <> c -> m_cpu m' d = m_cpu m d) /\
    m_cpu m' c = Cpu (ncli x - 1) (intena x) ((ncli x =? 1) && intena x) /\
    m_lock m' = upd l (Spinlock 0 (lk_cpu (m_lock m l))) (m_lock m).
Proof.
  intros x Hi Hn. unfold release_exit, bind, getlock, setlock, gets, modify.
  destruct (popcli_spec c (Machine (m_cpu m) (upd l (Spinlock 0 (lk_cpu (m_lock m l))) (m_lock m))) Hi Hn) as (m1 & E1 & C1 & O1 & L1).
  rewrite E1. by exists m1.
Qed.

(** ** Processors contending for the locks *)

(** Where a processor is: in other code, in the loop of [acquire], past it,
    or between the two halves of [release]. *)
Inductive pc := Other | Spin (l : nat) | Got (l : nat) | Freeing (l : nat).
Record sys := Sys { mach : machine; pcs : nat -> pc; held : nat -> gset nat }.

(** A step of processor [c].  Code that holds no lock may set the interrupt
    flag as it likes. *)
Inductive sstep (s : sys) : sys -> Prop :=
  | s_enter c l m' : pcs s c = Other -> acquire_enter c l (mach s) = Ok tt m' ->
      sstep s (Sys m' (upd c (Spin l) (pcs s)) (held s))
  | s_spin c l r m' : pcs s c = Spin l -> xchg l 1 (mach s) = Ok r m' ->
      sstep s (Sys m' (if r =? 0 then upd c (Got l) (pcs s) else pcs s) (held s))
  | s_got c l m' : pcs s c = Got l -> acquire_exit c l (mach s) = Ok tt m' ->
      sstep s (Sys m' (upd c Other (pcs s)) (upd c ({[ l ]} ∪ held s c) (held s)))
  | s_release c l m' : pcs s c = Other -> release_enter c l (mach s) = Ok tt m' ->
      sstep s (Sys m' (upd c (Freeing l) (pcs s)) (upd c (held s c ∖ {[ l ]}) (held s)))
  | s_freed c l m' : pcs s c = Freeing l -> release_exit c l (mach s) = Ok tt m' ->
      sstep s (Sys m' (upd c Other (pcs s)) (held s))
  | s_flag c b : pcs s c = Other -> ncli (m_cpu (mach s) c) = 0 ->
      let x := m_cpu (mach s) c in
      sstep s (Sys (Machine (upd c (Cpu (ncli x) (intena x) b) (m_cpu (mach s))) (m_lock (mach s))) (pcs s) (held s)).

Definition sys_init (s : sys) : Prop :=
  forall i, pcs s i = Other /\ held s i = ∅ /\ ncli (m_cpu (mach s) i) = 0 /\ m_lock (mach s) i = Spinlock 0 None.

Definition owns (s : sys) (c l : nat) : Prop := l ∈ held s c \/ pcs s c = Got l \/ pcs s c = Freeing l.
Definition depth (s : sys) (c : nat) : Z := Z.of_nat (size (held s c)) + (match pcs s c with Other => 0 | _ => 1 end).

Record sinv (s : sys) : Prop := SInv {
  si_locked : forall l, lk_locked (m_lock (mach s) l) <> 0 <-> exists c, owns s c l;
  si_one : forall c d l, owns s c l -> owns s d l -> c = d;
  si_cpu : forall c l, lk_cpu (m_lock (mach s) l) = Some c <-> l ∈ held s c;
  si_out : forall c l, pcs s c = Spin l \/ pcs s c = Got l \/ pcs s c = Freeing l -> l ∉ held s c;
  si_depth : forall c, ncli (m_cpu (mach s) c) = depth s c;
  si_off : forall c, 0 < depth s c -> iflag (m_cpu (mach s) c) = false
}.

Lemma depth_nonneg s c : 0 <= depth s c.
Proof. unfold depth. destruct (pcs s c); lia. Qed.

Lemma sinv_holds s c l : sinv s -> (holds (mach s) c l = true <-> l ∈ held s c).
Proof.
  intros [L1 _ L3 _ _ _]. unfold holds. rewrite andb_true_iff, bool_decide_eq_true, negb_true_iff, Z.eqb_neq, L3.
  split; [by intros [_ H]|]. intros H. split; [|done]. apply L1. exists c. by left.
Qed.

Lemma sinv_init s : sys_init s -> sinv s.
Proof.
  intros H. split.
  - intros l. destruct (H l) as (_ & _ & _ & ->). cbn. split; [done|]. intros (c & Ho). destruct (H c) as (Hp & Hh & _).
    unfold owns in Ho. rewrite Hp, Hh in Ho. set_solver.
  - intros c d l Ho. destruct (H c) as (Hp & Hh & _). unfold owns in Ho. rewrite Hp, Hh in Ho. set_solver.
  - intros c l. destruct (H l) as (_ & _ & _ & ->). destruct (H c) as (_ & -> & _). cbn. set_solver.
  - intros c l. destruct (H c) as (_ & -> & _). set_solver.
  - intros c. unfold depth. destruct (H c) as (-> & -> & -> & _). by rewrite size_empty.
  - intros c. unfold depth. destruct (H c) as (-> & -> & _ & _). rewrite size_empty. cbn. lia.
Qed.

Ltac other c d := destruct (decide (d = c)) as [->|?]; rewrite ?upd_eq, ?upd_ne in * by done.

(** The counter of a processor and its flag, after [pushcli] or not. *)
Lemma sinv_cli s c : sinv s -> 0 <= ncli (m_cpu (mach s) c) /\ (0 < ncli (m_cpu (mach s) c) -> iflag (m_cpu (mach s) c) = false).
Proof. intros [_ _ _ _ D O]. rewrite D. split; [apply depth_nonneg|apply O]. Qed.

Lemma step_enter s c l m' : sinv s -> pcs s c = Other -> acquire_enter c l (mach s) = Ok tt m' ->
  sinv (Sys m' (upd c (Spin l) (pcs s)) (held s)).
Proof.
  intros Hs Hp E. destruct (sinv_cli s c Hs) as [Hn Hi]. pose proof (acquire_enter_spec c l (mach s) Hn Hi) as H.
  pose proof (sinv_holds s c l Hs) as Hh. destruct (holds (mach s) c l); [congruence|]. destruct H as (m1 & E1 & C1 & O1 & L1).
  rewrite E in E1. injection E1 as <-. destruct Hs as [I1 I2 I3 I4 I5 I6].
  assert (Ho : forall d k, owns (Sys m' (upd c (Spin l) (pcs s)) (held s)) d k <-> owns s d k).
  { intros d k. unfold owns. cbn. other c d; [|done]. rewrite Hp. intuition congruence. }
  split; cbn.
  - intros k. rewrite L1, I1. by setoid_rewrite Ho.
  - intros d e k. rewrite !Ho. apply I2.
  - intros d k. rewrite L1. apply I3.
  - intros d k. other c d; [|apply I4]. intros [[= ->]|[|]]; [|done|done]. intros Hin. apply Hh in Hin. done.
  - intros d. unfold depth. cbn. other c d; [|rewrite O1 by done; apply I5]. rewrite C1. cbn. rewrite I5. unfold depth. rewrite Hp. lia.
  - intros d. unfold depth. cbn. other c d; [by rewrite C1|]. rewrite O1 by done. apply I6.
Qed.

Lemma step_spin s c l r m' : sinv s -> pcs s c = Spin l -> xchg l 1 (mach s) = Ok r m' ->
  sinv (Sys m' (if r =? 0 then upd c (Got l) (pcs s) else pcs s) (held s)).
Proof.
  intros [I1 I2 I3 I4 I5 I6] Hp [= <- <-]. destruct (Z.eqb_spec (lk_locked (m_lock (mach s) l)) 0) as [E|E].
  - assert (Ho : forall d, ~ owns s d l) by (intros d Hd; by apply (proj2 (I1 l)); [exists d|]).
    split; cbn.
    + intros k. other l k; cbn.
      * split; [|done]. intros _. exists c. unfold owns. cbn. rewrite upd_eq. auto.
      * rewrite I1. apply exist_proper. intros d. unfold owns. cbn. other c d; [|done]. rewrite Hp. intuition congruence.
    + intros d e k. unfold owns. cbn. other c d; other c e; try done.
      * intros [H1|[[= ->]|]]; [|intros H; by destruct (Ho e)|done]. intros H. apply (I2 c e k); [by left|done].
      * intros H [H1|[[= ->]|]]; [|by destruct (Ho d)|done]. apply (I2 d c k); [done|by left].
      * apply I2.
    + intros d k. other l k; cbn; apply I3.
    + intros d k. other c d; [|apply I4]. intros [|[[= ->]|]]; [done| |done]. apply I4. by left.
    + intros d. rewrite I5. unfold depth. cbn. other c d; [by rewrite Hp|done].
    + intros d. specialize (I6 d). unfold depth in *. cbn. other c d; [by rewrite Hp in I6|done].
  - split; cbn; try done.
    + intros k. other l k; cbn; [|apply I1]. split; [intros _; by apply I1|done].
    + intros d k. other l k; cbn; apply I3.
Qed.

Lemma step_got s c l m' : sinv s -> pcs s c = Got l -> acquire_exit c l (mach s) = Ok tt m' ->
  sinv (Sys m' (upd c Other (pcs s)) (upd c ({[ l ]} ∪ held s c) (held s))).
Proof.
  intros [I1 I2 I3 I4 I5 I6] Hp [= <-]. assert (Hl : l ∉ held s c) by (apply I4; auto).
  assert (Hown : owns s c l) by (unfold owns; auto).
  assert (Ho : forall d k, owns (Sys (Machine (m_cpu (mach s)) (upd l (Spinlock (lk_locked (m_lock (mach s) l)) (Some c)) (m_lock (mach s))))
                                   (upd c Other (pcs s)) (upd c ({[ l ]} ∪ held s c) (held s))) d k <-> owns s d k).
  { intros d k. unfold owns. cbn. other c d; [|done]. rewrite Hp, elem_of_union, elem_of_singleton. intuition congruence. }
  split; cbn.
  - intros k. setoid_rewrite Ho. other l k; apply I1.
  - intros d e k. rewrite !Ho. apply I2.
  - intros d k. other l k; cbn.
    + split; [intros [= ->]; rewrite upd_eq; set_solver|]. intros H. f_equal. apply (I2 c d l Hown). apply Ho. by left.
    + rewrite I3. other c d; [|done]. set_solver.
  - intros d k. other c d; [|apply I4]. intros [|[|]]; done.
  - intros d. rewrite I5. unfold depth. cbn. other c d; [|done]. rewrite Hp, size_union, size_singleton by set_solver. lia.
  - intros d. specialize (I6 d). unfold depth in *. cbn. other c d; [|done]. rewrite Hp in I6. intros _. apply I6. lia.
Qed.

Lemma step_release s c l m' : sinv s -> pcs s c = Other -> release_enter c l (mach s) = Ok tt m' ->
  sinv (Sys m' (upd c (Freeing l) (pcs s)) (upd c (held s c ∖ {[ l ]}) (held s))).
Proof.
  intros Hs Hp E. destruct (sinv_cli s c Hs) as [Hn Hi]. pose proof (release_enter_spec c l (mach s) Hn Hi) as H.
  pose proof (sinv_holds s c l Hs) as Hh. destruct (holds (mach s) c l); [|congruence]. destruct H as (m1 & E1 & O1 & C1 & L1).
  rewrite E in E1. injection E1 as <-. assert (Hl : l ∈ held s c) by (by apply Hh). destruct Hs as [I1 I2 I3 I4 I5 I6].
  assert (Ho : forall d k, owns (Sys m' (upd c (Freeing l) (pcs s)) (upd c (held s c ∖ {[ l ]}) (held s))) d k <-> owns s d k).
  { intros d k. unfold owns. cbn. other c d; [|done]. rewrite Hp, elem_of_difference, elem_of_singleton.
    destruct (decide (k = l)) as [->|]; intuition congruence. }
  assert (Hsz : Z.of_nat (size (held s c)) = Z.of_nat (size (held s c ∖ {[ l ]})) + 1).
  { rewrite size_difference by set_solver. rewrite size_singleton. assert (size (held s c) <> 0%nat) by (intros H0; apply size_empty_inv in H0; set_solver). lia. }
  split; cbn.
  - intros k. setoid_rewrite Ho. rewrite L1. other l k; apply I1.
  - intros d e k. rewrite !Ho. apply I2.
  - intros d k. rewrite L1. other l k; cbn.
    + split; [done|]. other c d; [set_solver|]. intros Hd. assert (c = d) as ->; [|done]. apply (I2 c d l); by left.
    + rewrite I3. other c d; [|done]. set_solver.
  - intros d k. other c d; [|apply I4]. intros [|[|[= ->]]]; [done|done|set_solver].
  - intros d. unfold depth. cbn. other c d; [|rewrite O1 by done; apply I5]. rewrite C1. cbn. rewrite I5. unfold depth. rewrite Hp. lia.
  - intros d. specialize (I6 d). unfold depth in *. cbn. other c d; [|by rewrite O1]. rewrite C1. cbn. intros _. apply I6. rewrite Hp. lia.
Qed.

Lemma step_freed s c l m' : sinv s -> pcs s c = Freeing l -> release_exit c l (mach s) = Ok tt m' ->
  sinv (Sys m' (upd c Other (pcs s)) (held s)).
Proof.
  intros Hs Hp E. destruct Hs as [I1 I2 I3 I4 I5 I6].
  assert (Hd : depth s c = Z.of_nat (size (held s c)) + 1) by (unfold depth; by rewrite Hp).
  destruct (release_exit_spec c l (mach s)) as (m1 & E1 & O1 & C1 & L1); [apply I6; lia|rewrite I5; lia|].
  rewrite E in E1. injection E1 as <-. assert (Hl : l ∉ held s c) by (apply I4; auto).
  assert (Hown : owns s c l) by (unfold owns; auto).
  assert (Ho : forall d k, owns (Sys m' (upd c Other (pcs s)) (held s)) d k <-> owns s d k /\ k <> l).
  { intros d k. unfold owns. cbn. other c d.
    - rewrite Hp. split; [intros [H|[|]]; [|done|done]; split; [by left|]; congruence|]. intuition congruence.
    - split; [|tauto]. intros H. split; [done|]. intros ->. assert (c = d) as ->; [|done]. by apply (I2 c d l). }
  split; cbn.
  - intros k. setoid_rewrite Ho. rewrite L1. other l k; cbn; [split; [done|]; by intros (? & _ & ?)|]. rewrite I1.
    split; intros (d & H); exists d; tauto.
  - intros d e k. rewrite !Ho. intros [H _] [H' _]. by apply (I2 d e k).
  - intros d k. rewrite L1. other l k; apply I3.
  - intros d k. other c d; [|apply I4]. intros [|[|]]; done.
  - intros d. unfold depth. cbn. other c d; [|rewrite O1 by done; apply I5]. rewrite C1. cbn. rewrite I5, Hd. lia.
  - intros d. specialize (I6 d). unfold depth in *. cbn. other c d; [|by rewrite O1]. rewrite C1. cbn. rewrite I5. unfold depth. rewrite Hp.
    intros H. destruct (Z.eqb_spec (Z.of_nat (size (held s c)) + 1) 1); [lia|done].
Qed.

Lemma sinv_step s s' : sinv s -> sstep s s' -> sinv s'.
Proof.
  intros Hs [c l m' Hp E|c l r m' Hp E|c l m' Hp E|c l m' Hp E|c l m' Hp E|c b Hp Hn x].
  - by apply step_enter. - by apply step_spin. - by apply step_got. - by apply step_release. - by eapply step_freed.
  - destruct Hs as [I1 I2 I3 I4 I5 I6]. split; cbn; try done.
    + intros d. unfold depth. cbn. other c d; [|apply I5]. cbn. apply I5.
    + intros d Hd. unfold depth in Hd. cbn in Hd. other c d; [|by apply I6]. exfalso. fold (depth s c) in Hd. rewrite <- I5 in Hd. lia.
Qed.

(** C25: spin locks give mutual exclusion.  Whatever the order in which any
    number of processors run the steps of [acquire] and [release], starting
    with all locks free: no two processors are inside the same lock; a
    processor inside a lock has its interrupts off, and keeps them off until
    it has left its last one; [acquire] of a lock panics exactly when the
    same processor holds it, and [release] exactly when it does not. *)
Theorem spinlock_mutex s0 s (H0 : sys_init s0) (Hs : rtc sstep s0 s) :
  (forall c d l, owns s c l -> owns s d l -> c = d) /\
  (forall c l, owns s c l -> iflag (m_cpu (mach s) c) = false) /\
  (forall c l, (l ∈ held s c -> acquire_enter c l (mach s) = Panic "acquire") /\
               (l ∉ held s c -> exists m', acquire_enter c l (mach s) = Ok tt m' /\ iflag (m_cpu m' c) = false)) /\
  (forall c l, (l ∈ held s c -> exists m', release_enter c l (mach s) = Ok tt m') /\
               (l ∉ held s c -> release_enter c l (mach s) = Panic "release")) /\
  (forall c l, pcs s c = Freeing l -> exists m', release_exit c l (mach s) = Ok tt m').
Proof.
  assert (Hi : sinv s).
  { apply sinv_init in H0. induction Hs as [|x y z Hst _ IH]; [done|]. apply IH. by eapply sinv_step. }
  pose proof (sinv_holds s) as Hh. split; [apply (si_one s Hi)|]. split.
  { intros c l Ho. apply (si_off s Hi). unfold depth. destruct Ho as [H|[->| ->]]; [|lia|lia].
    assert (size (held s c) <> 0%nat) by (intros E; apply size_empty_inv in E; set_solver). destruct (pcs s c); lia. }
  split; [|split].
  - intros c l. destruct (sinv_cli s c Hi) as [Hn Hf]. pose proof (acquire_enter_spec c l (mach s) Hn Hf) as H. specialize (Hh c l Hi).
    destruct (holds (mach s) c l); split; intros Hl; [done|by destruct Hl; apply Hh|by apply Hh in Hl|].
    destruct H as (m' & E & C & _). exists m'. split; [done|]. by rewrite C.
  - intros c l. destruct (sinv_cli s c Hi) as [Hn Hf]. pose proof (release_enter_spec c l (mach s) Hn Hf) as H. specialize (Hh c l Hi).
    destruct (holds (mach s) c l); split; intros Hl; [|by destruct Hl; apply Hh|by apply Hh in Hl|done].
    destruct H as (m' & E & _). by exists m'.
  - intros c l Hp. destruct (release_exit_spec c l (mach s)) as (m' & E & _); [| |by exists m'];
      [apply (si_off s Hi)|rewrite (si_depth s Hi)]; unfold depth; rewrite Hp; lia.
Qed.

(** Processor 0 is in lock 5 and processor 1 spins for it. *)
Definition smp_locks : sys := Sys (Machine (fun _ => Cpu 0 false true) (fun _ => Spinlock 0 None)) (fun _ => Other) (fun _ => ∅).
Definition smp_run {A} (m : P A) (s : sys) : machine := match m (mach s) with Ok _ m' => m' | _ => mach s end.
Definition smp_locks1 : sys := Sys (smp_run (acquire_enter 0 5) smp_locks) (upd 0 (Spin 5) (pcs smp_locks)) (held smp_locks).
Definition smp_locks2 : sys := Sys (smp_run (acquire_enter 1 5) smp_locks1) (upd 1 (Spin 5) (pcs smp_locks1)) (held smp_locks1).
Definition smp_locks3 : sys := Sys (smp_run (xchg 5 1) smp_locks2) (upd 0 (Got 5) (pcs smp_locks2)) (held smp_locks2).
Definition smp_locks4 : sys := Sys (smp_run (xchg 5 1) smp_locks3) (pcs smp_locks3) (held smp_locks3).

Lemma spinlock_mutex_witness : owns smp_locks4 0 5 /\ iflag (m_cpu (mach smp_locks4) 0%nat) = false.
Proof.
  assert (H : owns smp_locks4 0 5) by (right; by left). split; [exact H|].
  apply (proj1 (proj2 (spinlock_mutex smp_locks smp_locks4 (fun i => conj eq_refl (conj eq_refl (conj eq_refl eq_refl)))
    ltac:(eapply rtc_l; [by apply (s_enter smp_locks 0 5 (mach smp_locks1))|];
          eapply rtc_l; [by apply (s_enter smp_locks1 1 5 (mach smp_locks2))|];
          eapply rtc_l; [by apply (s_spin smp_locks2 0 5 0 (mach smp_locks3))|];
          eapply rtc_l; [by apply (s_spin smp_locks3 1 5 1 (mach smp_locks4))|]; apply rtc_refl))) 0%nat 5%nat H).
Defined.

(** ** Nesting *)

Fixpoint times (n : nat) (m : P unit) : P unit := match n with O => ret tt | S n' => m;; times n' m end.

Lemma push_times c n : forall m, 0 < ncli (m_cpu m c) -> iflag (m_cpu m c) = false ->
  exists m', times n (pushcli c) m = Ok tt m' /\ at_cpu m m' c (Cpu (ncli (m_cpu m c) + Z.of_nat n) (intena (m_cpu m c)) false).
Proof.
  induction n as [|n IH]; intros m Hn Hi.
  { exists m. split; [done|]. split; [|done]. destruct (m_cpu m c); cbn in *. subst. f_equal. lia. }
  destruct (pushcli_spec c m) as (m1 & E1 & C1 & O1 & L1). destruct (Z.eqb_spec (ncli (m_cpu m c)) 0); [lia|].
  destruct (IH m1) as (m2 & E2 & C2 & O2 & L2); [rewrite C1; cbn; lia|by rewrite C1|].
  exists m2. cbn [times]. unfold bind. rewrite E1, E2. split; [done|]. rewrite C1 in C2. cbn in C2.
  split; [rewrite C2; f_equal; lia|]. split; [intros d Hd; by rewrite O2, O1|by rewrite L2].
Qed.

Lemma pop_times c n : forall m, Z.of_nat n < ncli (m_cpu m c) -> iflag (m_cpu m c) = false ->
  exists m', times n (popcli c) m = Ok tt m' /\ at_cpu m m' c (Cpu (ncli (m_cpu m c) - Z.of_nat n) (intena (m_cpu m c)) false).
Proof.
  induction n as [|n IH]; intros m Hn Hi.
  { exists m. split; [done|]. split; [|done]. destruct (m_cpu m c); cbn in *. subst. f_equal. lia. }
  destruct (popcli_spec c m) as (m1 & E1 & C1 & O1 & L1); [done|lia|]. destruct (Z.eqb_spec (ncli (m_cpu m c)) 1); [lia|].
  cbn in C1. destruct (IH m1) as (m2 & E2 & C2 & O2 & L2); [rewrite C1; cbn; lia|by rewrite C1|].
  exists m2. cbn [times]. unfold bind. rewrite E1, E2. split; [done|]. rewrite C1 in C2. cbn in C2.
  split; [rewrite C2; f_equal; lia|]. split; [intros d Hd; by rewrite O2, O1|by rewrite L2].
Qed.

(** [pushcli] and [popcli] are matched.  It takes as many [popcli] as
    there were [pushcli] to undo them: until the last one interrupts stay off,
    and the last one restores the flag they found, also when that was off. *)
Theorem pushcli_popcli c n m (Hn : ncli (m_cpu m c) = 0) :
  exists m1 m2,
    times (S n) (pushcli c) m = Ok tt m1 /\ iflag (m_cpu m1 c) = false /\
    times n (popcli c) m1 = Ok tt m2 /\ iflag (m_cpu m2 c) = false /\
    (exists m3, popcli c m2 = Ok tt m3 /\ ncli (m_cpu m3 c) = 0 /\ iflag (m_cpu m3 c) = iflag (m_cpu m c)).
Proof.
  destruct (pushcli_spec c m) as (m0 & E0 & C0 & _). rewrite Hn in C0. cbn in C0.
  destruct (push_times c n m0) as (m1 & E1 & C1 & _); [rewrite C0; cbn; lia|by rewrite C0|]. rewrite C0 in C1. cbn in C1.
  destruct (pop_times c n m1) as (m2 & E2 & C2 & _); [rewrite C1; cbn; lia|by rewrite C1|]. rewrite C1 in C2. cbn in C2.
  replace (1 + Z.of_nat n - Z.of_nat n) with 1 in C2 by lia.
  destruct (popcli_spec c m2) as (m3 & E3 & C3 & _); [by rewrite C2|rewrite C2; cbn; lia|]. rewrite C2 in C3. cbn in C3.
  exists m1, m2. cbn [times]. unfold bind. rewrite E0, C1, C2. repeat split; try done.
  exists m3. rewrite C3. cbn [ncli iflag]. replace (0 + 1 + Z.of_nat n - Z.of_nat n) with 1 by lia. done.
Qed.

Lemma pushcli_popcli_witness :
  exists m1 m2,
    times 3 (pushcli 0) (mach smp_locks) = Ok tt m1 /\ iflag (m_cpu m1 0%nat) = false /\
    times 2 (popcli 0) m1 = Ok tt m2 /\ iflag (m_cpu m2 0%nat) = false /\
    (exists m3, popcli 0 m2 = Ok tt m3 /\ ncli (m_cpu m3 0%nat) = 0 /\ iflag (m_cpu m3 0%nat) = true).
Proof. apply (pushcli_popcli 0 2 (mach smp_locks)). reflexivity. Defined.
