(* ===== verification/Grep.v ===== *)
(** The program grep: the matcher of grep.c against the language its patterns
    denote, and the loop that reads a file in pieces against its lines. *)
From stdpp Require Import base numbers list strings.
From Stdlib Require Import ZArith Lia.
From S2P Require Import Prelude CString.

Local Open Scope list_scope.
Local Open Scope Z_scope.

Definition CARET : Z := 94.
Definition DOLLAR : Z := 36.
Definition DOT : Z := 46.
Definition STAR : Z := 42.
Definition NL : Z := 10.

(** The characters of a literal. *)
Definition lit0 (s : string) : list Z := (fun a => Z.of_N (Ascii.N_of_ascii a)) <$> String.list_ascii_of_string s.

(** ** The matcher *)

(** [here] is [matchhere] of the rest of the pattern. *)
Fixpoint matchstar (here : list Z -> bool) (c : Z) (text : list Z) : bool :=
  if here text then true
  else match text with
       | [] => false
       | t :: text' => if (t =? c) || (c =? DOT) then matchstar here c text' else false
       end.

Fixpoint matchhere (re text : list Z) : bool :=
  match re with
  | [] => true
  | c :: re1 =>
      let rest :=
        if (c =? DOLLAR) && bool_decide (re1 = []) then bool_decide (text = [])
        else match text with
             | [] => false
             | t :: text' => if (c =? DOT) || (c =? t) then matchhere re1 text' else false
             end in
      match re1 with
      | c1 :: re2 => if c1 =? STAR then matchstar (matchhere re2) c text else rest
      | [] => rest
      end
  end.

Fixpoint match_any (re text : list Z) : bool :=
  if matchhere re text then true
  else match text with [] => false | _ :: text' => match_any re text' end.

(** [match] is a keyword. *)
Definition match_ (re text : list Z) : bool :=
  match re with
  | c :: re' => if c =? CARET then matchhere re' text else match_any re text
  | [] => match_any re text
  end.

(** ** The language of a pattern *)

(** One character or any number of characters, each equal to [c] or any. *)
Inductive item := One (c : Z) | Many (c : Z).

Definition fits_char (c t : Z) : Prop := c = DOT \/ c = t.

Inductive words : list item -> list Z -> Prop :=
  | words_nil : words [] []
  | words_one c its t w : fits_char c t -> words its w -> words (One c :: its) (t :: w)
  | words_many c its u w : Forall (fits_char c) u -> words its w -> words (Many c :: its) (u ++ w).

(** The items of a pattern, and whether it ends with the anchor [$]. *)
Fixpoint items (re : list Z) : list item * bool :=
  match re with
  | [] => ([], false)
  | c :: re1 =>
      let rest := if (c =? DOLLAR) && bool_decide (re1 = []) then ([], true)
                  else (One c :: (items re1).1, (items re1).2) in
      match re1 with
      | c1 :: re2 => if c1 =? STAR then (Many c :: (items re2).1, (items re2).2) else rest
      | [] => rest
      end
  end.

(** [text] begins with a word of the pattern [re]. *)
Definition starts (re text : list Z) : Prop :=
  exists w post, text = w ++ post /\ words (items re).1 w /\ ((items re).2 = true -> post = []).

Lemma matchstar_spec here c text :
  matchstar here c text = true <-> exists u v, text = u ++ v /\ Forall (fits_char c) u /\ here v = true.
Proof.
  induction text as [|t text IH]; cbn.
  - destruct (here []) eqn:E; split; try done.
    + intros _. by exists [], [].
    + intros (u & v & Ht & _ & Hv). symmetry in Ht. apply app_nil in Ht as [-> ->]. congruence.
  - destruct (here (t :: text)) eqn:E; [split; [|done]; intros _; by exists [], (t :: text)|].
    destruct ((t =? c) || (c =? DOT)) eqn:Ec.
    + rewrite IH. split.
      * intros (u & v & -> & Hu & Hv). exists (t :: u), v. split; [done|]. split; [|done]. constructor; [|done].
        apply orb_true_iff in Ec as [Ec|Ec]; apply Z.eqb_eq in Ec; [right|left]; congruence.
      * intros (u & v & Ht & Hu & Hv). destruct u as [|t' u]; cbn in Ht; [subst v; congruence|].
        injection Ht as <- ->. inversion Hu. by exists u, v.
    + split; [done|]. intros (u & v & Ht & Hu & Hv). exfalso. destruct u as [|t' u]; cbn in Ht; [subst v; congruence|].
      injection Ht as <- ->. inversion Hu as [|? ? [Hc|Hc]]; subst; by rewrite Z.eqb_refl, ?orb_true_r in Ec.
Qed.

Lemma matchhere_spec_n n : forall re text, (length re <= n)%nat -> matchhere re text = true <-> starts re text.
Proof.
  unfold starts. induction n as [|n IH]; intros re text Hn.
  { destruct re; [|cbn in Hn; lia]. split; [|done]. intros _. exists [], text. repeat split; [constructor|done]. }
  destruct re as [|c re1]; [split; [|done]; intros _; exists [], text; repeat split; [constructor|done]|].
  cbn [length] in Hn. assert (Hone : forall b,
    b = (if (c =? DOLLAR) && bool_decide (re1 = []) then bool_decide (text = [])
         else match text with [] => false | t :: text' => if (c =? DOT) || (c =? t) then matchhere re1 text' else false end) ->
    b = true <->
    exists w post, text = w ++ post /\
      words (if (c =? DOLLAR) && bool_decide (re1 = []) then ([], true) else (One c :: (items re1).1, (items re1).2)).1 w /\
      ((if (c =? DOLLAR) && bool_decide (re1 = []) then ([], true) else (One c :: (items re1).1, (items re1).2)).2 = true -> post = [])).
  { intros b ->. destruct ((c =? DOLLAR) && bool_decide (re1 = [])) eqn:Ed; cbn.
    - rewrite bool_decide_eq_true. split; [intros ->; exists [], []; repeat split; constructor|].
      intros (w & post & -> & Hw & Hp). inversion Hw. by rewrite Hp.
    - destruct text as [|t text].
      { split; [done|]. intros (w & post & Ht & Hw & _). symmetry in Ht. apply app_nil in Ht as [-> _]. inversion Hw. }
      destruct ((c =? DOT) || (c =? t)) eqn:Ec.
      + rewrite (IH re1 text ltac:(lia)). split.
        * intros (w & post & -> & Hw & Hp). exists (t :: w), post. repeat split; [|done]. constructor; [|done].
          apply orb_true_iff in Ec as [Ec|Ec]; apply Z.eqb_eq in Ec; [left|right]; congruence.
        * intros (w & post & Ht & Hw & Hp). inversion Hw as [|? ? t' w' Hc Hw'|]; subst. injection Ht as -> ->. by exists w', post.
      + split; [done|]. intros (w & post & Ht & Hw & Hp). exfalso. inversion Hw as [|? ? t' w' Hc Hw'|]; subst. injection Ht as -> ->.
        destruct Hc as [->| ->]; by rewrite Z.eqb_refl, ?orb_true_r in Ec. }
  destruct re1 as [|c1 re2]; [by apply Hone|]. cbn [matchhere items]. destruct (c1 =? STAR) eqn:Es; [|by apply Hone].
  cbn [fst snd]. rewrite matchstar_spec. cbn [length] in Hn. split.
  - intros (u & v & -> & Hu & Hv). apply IH in Hv as (w & post & -> & Hw & Hp); [|lia].
    exists (u ++ w), post. rewrite app_assoc. repeat split; [by constructor|done].
  - intros (w & post & -> & Hw & Hp). inversion Hw as [| |? ? u w' Hu Hw']; subst. exists u, (w' ++ post). rewrite app_assoc.
    repeat split; [done|]. apply IH; [lia|]. by exists w', post.
Qed.

Lemma matchhere_spec re text : matchhere re text = true <-> starts re text.
Proof. by apply (matchhere_spec_n (length re)). Qed.

Lemma match_any_spec re text : match_any re text = true <-> exists pre rest, text = pre ++ rest /\ starts re rest.
Proof.
  induction text as [|t text IH]; cbn.
  - destruct (matchhere re []) eqn:E; split; try done.
    + intros _. exists [], []. split; [done|]. by apply matchhere_spec.
    + intros (pre & rest & Ht & Hs). symmetry in Ht. apply app_nil in Ht as [-> ->]. apply matchhere_spec in Hs. congruence.
  - destruct (matchhere re (t :: text)) eqn:E.
    + split; [|done]. intros _. exists [], (t :: text). split; [done|]. by apply matchhere_spec.
    + rewrite IH. split.
      * intros (pre & rest & -> & Hs). by exists (t :: pre), rest.
      * intros (pre & rest & Ht & Hs). destruct pre as [|t' pre]; cbn in Ht; [subst rest; apply matchhere_spec in Hs; congruence|].
        injection Ht as -> ->. by exists pre, rest.
Qed.

(** C37: the matcher decides the language of its patterns.  [match re text]
    answers yes exactly when some part of the text is a word of the pattern:
    the part starts the text if the pattern begins with [^], and ends it if
    the pattern ends with [$]. *)
Theorem match_language re text :
  match_ re text = true <->
  let anchored := bool_decide (head re = Some CARET) in
  let re' := if anchored then tail re else re in
  exists pre w post, text = pre ++ w ++ post /\ words (items re').1 w /\
    (anchored = true -> pre = []) /\ ((items re').2 = true -> post = []).
Proof.
  assert (Hany : forall r, match_any r text = true <-> exists pre w post, text = pre ++ w ++ post /\ words (items r).1 w /\
    (false = true -> pre = []) /\ ((items r).2 = true -> post = [])).
  { intros r. rewrite match_any_spec. unfold starts. split.
    - intros (pre & rest & -> & w & post & -> & Hw & Hp). by exists pre, w, post.
    - intros (pre & w & post & -> & Hw & _ & Hp). exists pre, (w ++ post). split; [done|]. by exists w, post. }
  destruct re as [|c re]; cbn [head tail]; [by apply Hany|]. unfold match_. destruct (Z.eqb_spec c CARET) as [->|Hc].
  - rewrite bool_decide_true by done. cbn. rewrite matchhere_spec. unfold starts. split.
    + intros (w & post & -> & Hw & Hp). by exists [], w, post.
    + intros (pre & w & post & -> & Hw & Ha & Hp). rewrite (Ha eq_refl). by exists w, post.
  - rewrite bool_decide_false by congruence. apply Hany.
Qed.

(** ** Reading the file *)

(** The bytes of [buf], its last one kept for the terminating NUL. *)
Definition bufsize : nat := 1024.

(** The inner loop: [p] holds the bytes from the pointer [p] to the end of what
    has been read. The lines written, and what is left. *)
Fixpoint grep_lines (fuel : nat) (pattern p : list Z) : list (list Z) * list Z :=
  match fuel with
  | O => ([], p)
  | S f =>
      match strchr p NL with
      | None => ([], p)
      | Some q =>
          let line := take (length p - length q) p in
          let r := grep_lines f pattern (tail q) in
          (if match_ pattern line then (line ++ [NL]) :: r.1 else r.1, r.2)
      end
  end.

Section Read.
(** The file descriptor: [read i n] gives at most [n] bytes. *)
Context {I : Type} (read : I -> nat -> list Z * I).

(** [m]: the bytes kept in [buf]. *)
Fixpoint grep_loop (fuel : nat) (pattern : list Z) (i : I) (m : list Z) : option (list (list Z)) :=
  match fuel with
  | O => None
  | S f =>
      let r := read i (bufsize - length m - 1) in
      if bool_decide (r.1 = []) then Some []
      else
        let b := m ++ r.1 in
        let g := grep_lines (S (length b)) pattern b in
        let m' := if bool_decide (length g.2 = length b) then [] else g.2 in
        out ← grep_loop f pattern r.2 m';
        Some (g.1 ++ out)
  end%stdpp.
End Read.

(** A regular file, with its remaining bytes as state. *)
Definition read_file (i : list Z) (n : nat) : list Z * list Z := (take n i, drop n i).
Definition grep (fuel : nat) (pattern i : list Z) : option (list (list Z)) := grep_loop read_file fuel pattern i [].

Definition nl (l : list Z) : list Z := l ++ [NL].
Definition is_line (l : list Z) : Prop := Forall (fun c => c <> 0 /\ c <> NL) l.
Definition matching (pattern : list Z) (ls : list (list Z)) : list (list Z) :=
  nl <$> filter (fun l => match_ pattern l = true) ls.

Lemma strchr_nl l rest : is_line l -> strchr (l ++ NL :: rest) NL = Some (NL :: rest).
Proof.
  induction 1 as [|c l [H0 H1] _ IH]; [done|]. cbn. destruct (Z.eqb_spec c 0); [done|]. by destruct (Z.eqb_spec c NL).
Qed.
Lemma strchr_none l : is_line l -> strchr l NL = None.
Proof.
  induction 1 as [|c l [H0 H1] _ IH]; [done|]. cbn. destruct (Z.eqb_spec c 0); [done|]. by destruct (Z.eqb_spec c NL).
Qed.

Lemma concat_nl l ls r : concat (nl <$> l :: ls) ++ r = l ++ NL :: concat (nl <$> ls) ++ r.
Proof. cbn. unfold nl at 1. by rewrite <- !app_assoc. Qed.

(** The lines in the buffer are all treated, and a partial one is left. *)
Lemma grep_lines_all pattern ls r fuel :
  Forall is_line ls -> is_line r -> (length ls < fuel)%nat ->
  grep_lines fuel pattern (concat (nl <$> ls) ++ r) = (matching pattern ls, r).
Proof.
  intros Hls Hr. revert fuel. induction Hls as [|l ls Hl Hls IH]; intros fuel Hf; (destruct fuel as [|fuel]; [lia|]); cbn [grep_lines].
  { cbn. by rewrite strchr_none. }
  cbn [length] in Hf. rewrite concat_nl.
  rewrite strchr_nl by done. cbn [tail]. rewrite IH by lia. cbn [fst snd].
  rewrite length_app, Nat.add_sub, take_app_length.
  unfold matching. rewrite filter_cons. destruct (match_ pattern l); [by rewrite decide_True by done|by rewrite decide_False by done].
Qed.

(** The lines that end within the first [k] bytes. *)
Lemma split_lines k ls tl :
  Forall is_line ls -> is_line tl ->
  exists ls1 ls2 r, ls = ls1 ++ ls2 /\ take k (concat (nl <$> ls) ++ tl) = concat (nl <$> ls1) ++ r /\ is_line r /\
    r ++ drop k (concat (nl <$> ls) ++ tl) = concat (nl <$> ls2) ++ tl /\
    (forall l, head ls = Some l -> (length l < k)%nat -> ls1 <> []).
Proof.
  intros Hls Htl. revert k. induction Hls as [|l ls Hl Hls IH]; intros k.
  { exists [], [], (take k tl). cbn. rewrite take_drop. repeat split; [|done]. by apply Forall_take. }
  rewrite concat_nl. destruct (decide (k <= length l)%nat) as [Hk|Hk].
  - exists [], (l :: ls), (take k l). rewrite concat_nl. rewrite take_app_le, drop_app_le by lia.
    rewrite app_assoc, take_drop. repeat split; [by apply Forall_take|]. intros ? [= <-]. lia.
  - destruct (IH (k - length l - 1)%nat) as (ls1 & ls2 & r & -> & E1 & Hr & E2 & _). exists (l :: ls1), ls2, r.
    rewrite concat_nl. rewrite take_app_ge, drop_app_ge by lia. replace (k - length l)%nat with (S (k - length l - 1)) by lia.
    cbn [firstn skipn]. rewrite E1. by repeat split.
Qed.

(** A line without its newline at the end of the file is never matched. *)
Lemma grep_loop_tail pattern fuel : forall m i,
  is_line (m ++ i) -> (length i < fuel)%nat -> grep_loop read_file fuel pattern i m = Some [].
Proof.
  induction fuel as [|fuel IH]; intros m i Hl Hf; [lia|]. cbn [grep_loop read_file fst snd]. set (n := (bufsize - length m - 1)%nat).
  destruct (bool_decide_reflect (take n i = [])) as [|Hne]; [done|].
  assert (Hb : is_line (m ++ take n i)). { apply Forall_app in Hl as [H1 H2]. apply Forall_app. split; [done|]. by apply Forall_take. }
  pose proof (grep_lines_all pattern [] (m ++ take n i) (S (length (m ++ take n i))) ltac:(constructor) Hb ltac:(cbn; lia)) as E.
  cbn [fmap list_fmap concat app] in E. rewrite E. cbn [fst snd]. rewrite bool_decide_true by done. rewrite IH; [done| |].
  - apply Forall_app in Hl as [_ H2]. by apply Forall_drop.
  - assert (0 < length (take n i))%nat by (destruct (take n i); [done|cbn; lia]). rewrite length_take in *. rewrite length_drop. lia.
Qed.

Lemma grep_loop_lines pattern fuel : forall m i ls tl,
  Forall is_line ls -> Forall (fun l => (length l < bufsize - 1)%nat) ls -> is_line tl ->
  m ++ i = concat (nl <$> ls) ++ tl -> is_line m -> (length i < fuel)%nat ->
  grep_loop read_file fuel pattern i m = Some (matching pattern ls).
Proof.
  induction fuel as [|fuel IH]; intros m i ls tl Hls Hlen Htl Hmi Hm Hf; [lia|].
  destruct ls as [|l ls]; [rewrite (grep_loop_tail pattern (S fuel)); [done|by rewrite Hmi|done]|].
  assert (Hml : (length m <= length l)%nat).
  { apply Forall_cons in Hls as [Hl _]. destruct (decide (length m <= length l)%nat); [done|exfalso].
    assert (Hin : m !! length l = Some NL).
    { rewrite <- (lookup_app_l m i) by lia. rewrite Hmi, concat_nl.
      rewrite lookup_app_r, Nat.sub_diag by lia. done. }
    unfold is_line in Hm. rewrite Forall_lookup in Hm. by destruct (Hm _ _ Hin). }
  pose proof (proj1 (proj1 (Forall_cons _ _ _) Hlen)) as Hl.
  set (n := (bufsize - length m - 1)%nat). assert (Hn : (length m + n = bufsize - 1)%nat) by (unfold n; lia).
  assert (Hb : m ++ take n i = take (bufsize - 1) (concat (nl <$> l :: ls) ++ tl)).
  { rewrite <- Hmi, <- Hn, take_app_add by done. done. }
  assert (Hd : drop n i = drop (bufsize - 1) (concat (nl <$> l :: ls) ++ tl)).
  { rewrite <- Hmi, <- Hn, drop_app_add by done. done. }
  destruct (split_lines (bufsize - 1) (l :: ls) tl Hls Htl) as (ls1 & ls2 & r & Els & E1 & Hr & E2 & Hne).
  specialize (Hne l eq_refl Hl). cbn [grep_loop read_file fst snd]. fold n. rewrite Hb, Hd, E1.
  rewrite Els in Hls, Hlen. apply Forall_app in Hls as [Hls1 Hls2]. apply Forall_app in Hlen as [_ Hlen2].
  assert (Hlong : (length ls1 + length r <= length (concat (nl <$> ls1) ++ r))%nat).
  { rewrite length_app. clear. induction ls1 as [|x ls1 IH]; cbn; [lia|]. unfold nl at 1. rewrite !length_app. cbn. lia. }
  assert (Hi : (0 < length (take n i))%nat).
  { destruct (take n i) eqn:Et; [exfalso|cbn; lia]. rewrite app_nil_r in Hb. rewrite E1 in Hb.
    destruct ls1 as [|x ls1]; [done|]. rewrite Hb, concat_nl in Hm. apply Forall_app in Hm as [_ Hm]. inversion Hm as [|? ? [_ ?]]. done. }
  rewrite bool_decide_false by (intros E; rewrite E in Hi; cbn in Hi; lia).
  rewrite grep_lines_all by (done || lia). cbn [fst snd].
  rewrite bool_decide_false by (destruct ls1; [done|]; cbn in Hlong |- *; lia).
  rewrite (IH r (drop (bufsize - 1) (concat (nl <$> l :: ls) ++ tl)) ls2 tl); try done.
  - unfold matching. rewrite Els, filter_app, fmap_app. done.
  - rewrite <- Hd, length_drop. rewrite length_take in Hi. lia.
Qed.

(** Grep prints the matching lines of a file.  On a regular file whose
    lines have at most 1022 characters, none of them NUL, grep ends, having
    written exactly the lines that match, in order; a last line that lacks its
    newline is not looked at. *)
Theorem grep_prints_matching pattern ls tl
    (Hls : Forall is_line ls) (Hlen : Forall (fun l => (length l <= 1022)%nat) ls) (Htl : is_line tl) :
  let file := concat (nl <$> ls) ++ tl in
  grep (S (length file)) pattern file = Some (nl <$> filter (fun l => match_ pattern l = true) ls).
Proof.
  intros file. unfold grep. rewrite (grep_loop_lines pattern _ [] file ls tl); try done.
  - eapply Forall_impl; [exact Hlen|]. intros l Hl. unfold bufsize. cbv beta in Hl. lia.
  - constructor.
  - lia.
Qed.

Lemma grep_prints_matching_witness :
  grep 12 (lit0 "^a.*c$") (concat (nl <$> [lit0 "abc"; lit0 "bc"]) ++ lit0 "ac") = Some [nl (lit0 "abc")].
Proof.
  refine (grep_prints_matching (lit0 "^a.*c$") [lit0 "abc"; lit0 "bc"] (lit0 "ac") _ _ _);
    repeat constructor; vm_compute; try discriminate; lia.
Defined.

(** A descriptor that delivers its bytes in pieces, as a pipe or the console
    does: the part of a line read before its newline is thrown away, so the
    line [abb] is not found by the pattern [ab]. *)
Lemma grep_short_read_drops :
  let read_pieces (i : list (list Z)) (_ : nat) := (hd [] i, tail i) in
  grep_loop read_pieces 9 (lit0 "ab") [lit0 "ab"; nl (lit0 "b")] [] = Some [] /\
  match_ (lit0 "ab") (lit0 "abb") = true.
Proof. by vm_compute. Qed.
