(* ===== verification/Sh.v ===== *)
(** The shell's parser (sh.c): from the command line to a tree of commands.

    A [char *] into the line is the suffix of the line from there on; [*ps] is
    the state of the parser's monad, [es] is the end of the line, [panic] is
    the shell's. *)
From stdpp Require Import base numbers list strings.
From Stdlib Require Import ZArith Lia.
From S2P Require Import Prelude Params CString.

Local Open Scope list_scope.
Local Open Scope Z_scope.
Local Open Scope kernel_scope.

(** ** Commands *)

Inductive cmd {W : Type} :=
  | EXEC (argv : list W)
  | REDIR (c : cmd) (file : W) (mode fd : Z)
  | PIPE (left right : cmd)
  | LIST (left right : cmd)
  | BACK (c : cmd).
Arguments cmd : clear implicits.

(** A counted string: the pointers [q] and [eq]. *)
Record word := Word { w_q : list Z; w_eq : list Z }.
Definition text (w : word) : list Z := take (length (w_q w) - length (w_eq w)) (w_q w).

Fixpoint cmd_map {V W} (f : V -> W) (c : cmd V) : cmd W :=
  match c with
  | EXEC a => EXEC (f <$> a)
  | REDIR c w m fd => REDIR (cmd_map f c) (f w) m fd
  | PIPE l r => PIPE (cmd_map f l) (cmd_map f r)
  | LIST l r => LIST (cmd_map f l) (cmd_map f r)
  | BACK c => BACK (cmd_map f c)
  end.

Definition MAXARGS : nat := 10.

(** ** Tokens *)

Definition whitespace : list Z := [32; 9; 13; 10; 11].
Definition symbols : list Z := [60; 124; 62; 38; 59; 40; 41].
Definition isin (set : list Z) (c : Z) : bool := match strchr set c with Some _ => true | None => false end.

(** [while(s < es && strchr(whitespace, *s)) s++;] *)
Fixpoint skip_ws (s : list Z) : list Z :=
  match s with
  | c :: s' => if isin whitespace c then skip_ws s' else s
  | [] => []
  end.
Fixpoint skip_word (s : list Z) : list Z :=
  match s with
  | c :: s' => if negb (isin whitespace c) && negb (isin symbols c) then skip_word s' else s
  | [] => []
  end.

Definition LT : Z := 60.
Definition BAR : Z := 124.
Definition GT : Z := 62.
Definition AMP : Z := 38.
Definition SEMI : Z := 59.
Definition LPAR : Z := 40.
Definition RPAR : Z := 41.
Definition APPEND : Z := 43.
Definition WORD : Z := 97.

(** The kind of the token at [s], and where it ends. *)
Definition token (s : list Z) : Z * list Z :=
  match s with
  | [] => (0, s)
  | c :: s1 =>
      if existsb (Z.eqb c) [BAR; LPAR; RPAR; SEMI; AMP; LT] then (c, s1)
      else if c =? GT then
        match s1 with
        | d :: s2 => if d =? GT then (APPEND, s2) else (GT, s1)
        | [] => (GT, s1)
        end
      else (WORD, skip_word s)
  end.

Abbreviation R := (M (list Z)).

Definition gettoken : R (Z * word) :=
  s ← gets id;
  let q := skip_ws s in
  let t := token q in
  modify (fun _ => skip_ws t.2);;
  ret (t.1, Word q t.2).

Definition peek (toks : list Z) : R bool :=
  modify skip_ws;;
  s ← gets id;
  ret (match s with [] => false | c :: _ => isin toks c end).

(** ** The parser *)

Fixpoint parseredirs_loop (k : nat) (c : cmd word) : R (cmd word) :=
  match k with
  | O => blocked "loop"
  | S k' =>
      b ← peek [LT; GT];
      if b : bool then
        t ← gettoken;
        f ← gettoken;
        if negb (fst f =? WORD) then panic "missing file for redirection"
        else
          if fst t =? LT then parseredirs_loop k' (REDIR c (snd f) O_RDONLY 0)
          else if fst t =? GT then parseredirs_loop k' (REDIR c (snd f) (Z.lor O_WRONLY O_CREATE) 1)
          else if fst t =? APPEND then parseredirs_loop k' (REDIR c (snd f) (Z.lor O_WRONLY O_CREATE) 1)
          else parseredirs_loop k' c
      else ret c
  end.
Definition parseredirs (c : cmd word) : R (cmd word) :=
  n ← gets (@length Z);
  parseredirs_loop (S n) c.

(** [cmd->argv[argc] = q; cmd->eargv[argc] = eq;]: [cmd] points to the command
    below the redirections of [ret]. *)
Fixpoint add_arg (w : word) (c : cmd word) : cmd word :=
  match c with
  | EXEC a => EXEC (a ++ [w])
  | REDIR c f m fd => REDIR (add_arg w c) f m fd
  | c => c
  end.

Fixpoint parseexec_loop (k argc : nat) (c : cmd word) : R (cmd word) :=
  match k with
  | O => blocked "loop"
  | S k' =>
      b ← peek [BAR; RPAR; AMP; SEMI];
      if b : bool then ret c
      else
        t ← gettoken;
        if fst t =? 0 then ret c
        else if negb (fst t =? WORD) then panic "syntax"
        else if Nat.leb MAXARGS (S argc) then panic "too many args"
        else c ← parseredirs (add_arg (snd t) c); parseexec_loop k' (S argc) c
  end.

Fixpoint back_loop (k : nat) (c : cmd word) : R (cmd word) :=
  match k with
  | O => blocked "loop"
  | S k' =>
      b ← peek [AMP];
      if b : bool then gettoken;; back_loop k' (BACK c) else ret c
  end.

Fixpoint parseline (n : nat) : R (cmd word) :=
  match n with
  | O => blocked "depth"
  | S n' =>
      c ← parsepipe n';
      k ← gets (@length Z);
      c ← back_loop (S k) c;
      b ← peek [SEMI];
      if b : bool then
        gettoken;;
        r ← parseline n';
        ret (LIST c r)
      else ret c
  end
with parsepipe (n : nat) : R (cmd word) :=
  match n with
  | O => blocked "depth"
  | S n' =>
      c ← parseexec n';
      b ← peek [BAR];
      if b : bool then
        gettoken;;
        r ← parsepipe n';
        ret (PIPE c r)
      else ret c
  end
with parseexec (n : nat) : R (cmd word) :=
  match n with
  | O => blocked "depth"
  | S n' =>
      b ← peek [LPAR];
      if b : bool then parseblock n'
      else
        k ← gets (@length Z);
        c ← parseredirs (EXEC []);
        parseexec_loop (S k) 0 c
  end
with parseblock (n : nat) : R (cmd word) :=
  match n with
  | O => blocked "depth"
  | S n' =>
      b ← peek [LPAR];
      if negb b then panic "parseblock"
      else
        gettoken;;
        c ← parseline n';
        b ← peek [RPAR];
        if negb b then panic "syntax - missing )"
        else gettoken;; parseredirs c
  end.

(** The line [s], without its terminating NUL; the recursion is no deeper than
    four calls for each character. *)
Definition parse (s : list Z) : outcome (list Z) (cmd word) :=
  (c ← parseline (4 * length s + 4);
   peek [];;
   s ← gets id;
   if bool_decide (s = []) then ret c else panic "syntax") s.

(** *** [nulterminate]: on the line with its NUL *)

(** [*eq = 0]; [n] is the length of the line. *)
Definition put_nul (n : nat) (w : word) (b : list Z) : list Z := <[(n - length (w_eq w))%nat := 0]> b.
Fixpoint nulterminate (n : nat) (c : cmd word) (b : list Z) : list Z :=
  match c with
  | EXEC a => foldl (fun b w => put_nul n w b) b a
  | REDIR c w _ _ => put_nul n w (nulterminate n c b)
  | PIPE l r => nulterminate n r (nulterminate n l b)
  | LIST l r => nulterminate n r (nulterminate n l b)
  | BACK c => nulterminate n c b
  end.

(** The whole of [parsecmd]: the tree and the line it points into. *)
Definition parsecmd (s : list Z) : outcome (list Z) (cmd word * list Z) :=
  match parse s with
  | Ok c t => Ok (c, nulterminate (length s) c (s ++ [0])) t
  | Panic msg => Panic msg
  | Blocked w => Blocked w
  end.

(** ** Termination, and what the words of a tree are *)

Definition blank (c : Z) : bool := isin whitespace c.
Definition wordchar (c : Z) : bool := negb (isin whitespace c) && negb (isin symbols c).
Definition stops (s : list Z) : Prop := match s with [] => True | c :: _ => wordchar c = false end.

Lemma skip_ws_suffix s : suffix (skip_ws s) s.
Proof. induction s as [|c s IH]; cbn; [done|]. destruct (isin whitespace c); [|done]. by apply suffix_cons_r. Qed.
Lemma skip_word_split s : exists t, s = t ++ skip_word s /\ Forall (fun c => wordchar c = true) t /\ stops (skip_word s).
Proof.
  induction s as [|c s IH]; cbn; [by exists []|]. destruct IH as (t & E & Ht & Hs).
  destruct (negb (isin whitespace c) && negb (isin symbols c)) eqn:Ec.
  - exists (c :: t). split; [cbn; by f_equal|]. by split; [constructor|].
  - exists []. by repeat split.
Qed.
Lemma skip_ws_head s c r : skip_ws s = c :: r -> isin whitespace c = false.
Proof. induction s as [|d s IH]; cbn; [done|]. destruct (isin whitespace d) eqn:E; [done|]. by intros [= -> ->]. Qed.

Lemma skip_ws_idem s : skip_ws (skip_ws s) = skip_ws s.
Proof. induction s as [|c s IH]; cbn; [done|]. destruct (isin whitespace c) eqn:E; [done|]. cbn. by rewrite E. Qed.

(** A counted string of the line [b]. *)
Record word_ok (b : list Z) (w : word) : Prop := WordOk {
  wo_text : w_q w = text w ++ w_eq w;
  wo_char : Forall (fun c => wordchar c = true) (text w);
  wo_some : text w <> [];
  wo_stop : stops (w_eq w);
  wo_in : suffix (w_q w) b
}.

Fixpoint cmd_all {W} (P : W -> Prop) (c : cmd W) : Prop :=
  match c with
  | EXEC a => Forall P a
  | REDIR c w _ _ => cmd_all P c /\ P w
  | PIPE l r => cmd_all P l /\ cmd_all P r
  | LIST l r => cmd_all P l /\ cmd_all P r
  | BACK c => cmd_all P c
  end.

Lemma add_arg_all P w c : P w -> cmd_all P c -> cmd_all P (add_arg w c).
Proof. intros Hw. induction c; cbn; try tauto. intros H. apply Forall_app. by repeat constructor. Qed.

Lemma isin_existsb set c : Forall (fun x => x <> 0) set -> isin set c = existsb (Z.eqb c) set.
Proof.
  unfold isin. induction 1 as [|x set Hx _ IH]; [done|]. cbn. apply Z.eqb_neq in Hx as ->. rewrite (Z.eqb_sym c x). by destruct (x =? c).
Qed.

(** A token that is there takes at least a character. *)
Lemma token_split c r : isin whitespace c = false ->
  exists t, c :: r = t ++ (token (c :: r)).2 /\ t <> [] /\ (token (c :: r)).1 <> 0 /\
    ((token (c :: r)).1 = WORD -> Forall (fun c => wordchar c = true) t /\ stops (token (c :: r)).2).
Proof.
  intros Hw. unfold token. destruct (existsb (Z.eqb c) _) eqn:Es.
  { exists [c]. cbn [fst snd]. split; [done|]. split; [done|]. split; [by intros ->|]. by intros ->. }
  destruct (Z.eqb_spec c GT) as [->|Hg].
  { destruct r as [|d r]; [by exists [GT]|]. cbn [fst snd]. destruct (Z.eqb_spec d GT) as [->|]; [by exists [GT; GT]|by exists [GT]]. }
  cbn [fst snd]. destruct (skip_word_split (c :: r)) as (t & E & Ht & Hs). exists t. repeat split; [done| |done|done|done].
  intros ->. cbn [app] in E. rewrite <- E in Hs. cbn in Hs. unfold wordchar in Hs. rewrite Hw in Hs. cbn in Hs.
  apply negb_false_iff in Hs. rewrite isin_existsb in Hs by (by repeat constructor). cbn [existsb symbols] in Es, Hs.
  apply Z.eqb_neq in Hg. change 60 with LT in Hs. change 124 with BAR in Hs. change 62 with GT in Hs. change 38 with AMP in Hs.
  change 59 with SEMI in Hs. change 40 with LPAR in Hs. change 41 with RPAR in Hs.
  rewrite !orb_false_iff in Es. destruct Es as (E1 & E2 & E3 & E4 & E5 & E6 & _). by rewrite E1, E2, E3, E4, E5, E6, Hg in Hs.
Qed.

(** Chains of suffixes. *)
Ltac suf := first [done | apply skip_ws_suffix | eassumption
  | multimatch goal with H : suffix ?x ?y |- suffix ?x _ => transitivity y; [exact H|]; suf end ].

Section Line.
Context (b : list Z).

Abbreviation E := (fun _ : string => True).

Lemma wp_peek toks {B} (k : bool -> R B) Q s :
  (forall b s', s' = skip_ws s -> (b = true -> exists c r, s' = c :: r /\ isin toks c = true) ->
     (b = false -> match s' with [] => True | c :: _ => isin toks c = false end) -> wp (k b) Q E s') ->
  wp (bind (peek toks) k) Q E s.
Proof.
  intros H. unfold peek. apply wp_bind, wp_bind, wp_modify, wp_bind, wp_gets, wp_ret. apply H; [done| |].
  - unfold id. destruct (skip_ws s) as [|c r]; [done|]. intros Hc. by exists c, r.
  - unfold id. by destruct (skip_ws s).
Qed.

Lemma wp_gettoken {B} (k : Z * word -> R B) Q s :
  suffix s b ->
  (forall t w s', suffix s' s -> (skip_ws s <> [] -> (length s' < length s)%nat /\ t <> 0) -> (skip_ws s = [] -> t = 0) ->
     (t = WORD -> word_ok b w) -> wp (k (t, w)) Q E s') ->
  wp (bind gettoken k) Q E s.
Proof.
  intros Hs H. unfold gettoken. apply wp_bind, wp_bind, wp_gets, wp_bind, wp_modify, wp_ret. cbv beta.
  pose proof (skip_ws_suffix s) as Hq. unfold id. destruct (skip_ws s) as [|c r] eqn:Eq.
  { by apply H. }
  destruct (token_split c r (skip_ws_head s c r Eq)) as (t & Et & Ht & H0 & Hw).
  assert (Hsuf : suffix (token (c :: r)).2 (c :: r)) by (by exists t).
  assert (Hlen : (length (token (c :: r)).2 < length (c :: r))%nat).
  { rewrite Et at 2. rewrite length_app. destruct t; [done|]. cbn. lia. }
  apply H.
  - transitivity (token (c :: r)).2; [suf|]. suf.
  - intros _. split; [|done]. pose proof (suffix_length _ _ (skip_ws_suffix (token (c :: r)).2)). apply suffix_length in Hq. lia.
  - done.
  - intros Ew. destruct (Hw Ew) as [Hc Hst]. assert (Htx : text (Word (c :: r) (token (c :: r)).2) = t).
    { unfold text. cbn [w_q w_eq]. rewrite Et at 1 3. rewrite length_app, Nat.add_sub. by rewrite take_app_length. }
    split; rewrite ?Htx; try done. cbn. suf.
Qed.

Definition ends (s : list Z) (c : cmd word) (s' : list Z) : Prop := suffix s' s /\ cmd_all (word_ok b) c.

Lemma ends_trans s s1 c s' : suffix s1 s -> ends s1 c s' -> ends s c s'.
Proof. intros H [H1 H2]. split; [suf|done]. Qed.

Lemma parseredirs_loop_wp k : forall c s, suffix s b -> cmd_all (word_ok b) c -> (length s < k)%nat ->
  wp (parseredirs_loop k c) (ends s) E s.
Proof.
  induction k as [|k IH]; intros c s Hs Hc Hk; [lia|]. cbn [parseredirs_loop]. apply wp_peek. intros p s1 -> Hp _.
  pose proof (skip_ws_suffix s) as H1. assert (Hb1 : suffix (skip_ws s) b) by suf.
  destruct p; [|by apply wp_ret]. destruct (Hp eq_refl) as (x & r & Ex & _).
  apply wp_gettoken; [done|]. intros t w s2 H2 Ht _ _. destruct Ht as [Ht _]; [by rewrite skip_ws_idem, Ex|].
  assert (Hb2 : suffix s2 b) by suf. pose proof (suffix_length _ _ H1).
  apply wp_gettoken; [done|]. intros t' w' s3 H3 _ _ Hw. cbn [fst snd]. destruct (Z.eqb_spec t' WORD) as [->|]; [|by apply wp_panic].
  cbn [negb]. assert (Hb3 : suffix s3 b) by suf. assert (H13 : suffix s3 s) by suf.
  apply suffix_length in H3 as L3.
  assert (Hgo : forall c', cmd_all (word_ok b) c' -> wp (parseredirs_loop k c') (ends s) E s3).
  { intros c' Hc'. eapply wp_conseq; [apply IH; [done|done|lia]|]. intros a s4. by apply ends_trans. }
  specialize (Hw eq_refl). destruct (t =? LT); [by apply Hgo|]. destruct (t =? GT); [by apply Hgo|]. destruct (t =? APPEND); by apply Hgo.
Qed.

Lemma parseredirs_wp c s : suffix s b -> cmd_all (word_ok b) c -> wp (parseredirs c) (ends s) E s.
Proof. intros Hs Hc. unfold parseredirs. apply wp_bind, wp_gets, parseredirs_loop_wp; [done|done|lia]. Qed.

Lemma parseexec_loop_wp k : forall n c s, suffix s b -> cmd_all (word_ok b) c -> (length s < k)%nat ->
  wp (parseexec_loop k n c) (ends s) E s.
Proof.
  induction k as [|k IH]; intros n c s Hs Hc Hk; [lia|]. cbn [parseexec_loop]. apply wp_peek. intros p s1 -> _ _.
  pose proof (skip_ws_suffix s) as H1. assert (Hb1 : suffix (skip_ws s) b) by suf.
  destruct p; [by apply wp_ret|]. apply wp_gettoken; [done|]. intros t w s2 H2 Ht Ht0 Hw. cbn [fst snd].
  assert (H12 : suffix s2 s) by suf.
  destruct (Z.eqb_spec t 0) as [|Hne]; [apply wp_ret; by split|]. destruct (Z.eqb_spec t WORD) as [->|]; [|by apply wp_panic].
  cbn [negb]. destruct (Nat.leb MAXARGS (S n)); [by apply wp_panic|].
  assert (Hx : skip_ws (skip_ws s) <> []) by (intros Ex; by apply Hne, Ht0).
  destruct (Ht Hx) as [Hl _]. pose proof (suffix_length _ _ H1). specialize (Hw eq_refl).
  apply wp_bind. eapply wp_conseq; [apply parseredirs_wp; [suf|by apply add_arg_all]|].
  cbv beta. intros c' s3 [H3 Hc']. pose proof (suffix_length _ _ H3). assert (H13 : suffix s3 s) by suf.
  eapply wp_conseq; [apply IH; [suf|done|lia]|]. intros a s4. by apply ends_trans.
Qed.

Lemma back_loop_wp k : forall c s, suffix s b -> cmd_all (word_ok b) c -> (length s < k)%nat -> wp (back_loop k c) (ends s) E s.
Proof.
  induction k as [|k IH]; intros c s Hs Hc Hk; [lia|]. cbn [back_loop]. apply wp_peek. intros p s1 -> Hp _.
  pose proof (skip_ws_suffix s) as H1. assert (Hb1 : suffix (skip_ws s) b) by suf.
  destruct p; [|by apply wp_ret]. destruct (Hp eq_refl) as (x & r & Ex & _).
  apply wp_gettoken; [done|]. intros t w s2 H2 Ht _ _. destruct Ht as [Ht _]; [by rewrite skip_ws_idem, Ex|].
  pose proof (suffix_length _ _ H1). assert (H12 : suffix s2 s) by suf.
  eapply wp_conseq; [apply IH; [suf|done|lia]|]. intros a s4. by apply ends_trans.
Qed.

(** [peek] says a token is there, and [gettoken] takes it. *)
Lemma wp_peek_take toks {B} (k : R B) (k' : R B) Q s :
  suffix s b ->
  (forall s', suffix s' s -> (length s' < length s)%nat -> wp k Q E s') ->
  (forall s', suffix s' s -> wp k' Q E s') ->
  wp (bind (peek toks) (fun p : bool => if p then bind gettoken (fun _ => k) else k')) Q E s.
Proof.
  intros Hs Hk Hk'. apply wp_peek. intros p s1 -> Hp _. pose proof (skip_ws_suffix s) as H1. destruct p; [|by apply Hk'].
  destruct (Hp eq_refl) as (x & r & Ex & _). apply wp_gettoken; [suf|]. intros t w s2 H2 Ht _ _.
  destruct Ht as [Ht _]; [by rewrite skip_ws_idem, Ex|]. pose proof (suffix_length _ _ H1).
  apply Hk; [suf|lia].
Qed.

Lemma parse_wp n : forall s, suffix s b ->
  ((4 * length s + 4 <= n)%nat -> wp (parseline n) (ends s) E s) /\
  ((4 * length s + 3 <= n)%nat -> wp (parsepipe n) (ends s) E s) /\
  ((4 * length s + 2 <= n)%nat -> wp (parseexec n) (ends s) E s) /\
  ((4 * length s + 1 <= n)%nat -> wp (parseblock n) (ends s) E s).
Proof.
  induction n as [|n IH]; intros s Hs; [lia|]. split; [|split; [|split]]; intros Hn.
  - cbn [parseline]. apply wp_bind. eapply wp_conseq; [apply (IH s Hs); lia|]. cbv beta. intros c s1 [H1 Hc].
    assert (Hb1 : suffix s1 b) by suf. pose proof (suffix_length _ _ H1).
    apply wp_bind, wp_gets, wp_bind. eapply wp_conseq; [apply back_loop_wp; [done|done|lia]|]. cbv beta. intros c2 s2 [H2 Hc2].
    assert (H12 : suffix s2 s) by suf. pose proof (suffix_length _ _ H2).
    apply wp_peek_take; [suf| |].
    + intros s3 H3 L3. assert (H13 : suffix s3 s) by suf. apply wp_bind.
      eapply wp_conseq; [apply (IH s3); [suf|lia]|]. cbv beta. intros r s4 [H4 Hr]. apply wp_ret.
      split; [suf|done].
    + intros s3 H3. apply wp_ret. split; [suf|done].
  - cbn [parsepipe]. apply wp_bind. eapply wp_conseq; [apply (IH s Hs); lia|]. cbv beta. intros c s1 [H1 Hc].
    assert (Hb1 : suffix s1 b) by suf. pose proof (suffix_length _ _ H1).
    apply wp_peek_take; [done| |].
    + intros s3 H3 L3. assert (H13 : suffix s3 s) by suf. apply wp_bind.
      eapply wp_conseq; [apply (IH s3); [suf|lia]|]. cbv beta. intros r s4 [H4 Hr]. apply wp_ret.
      split; [suf|done].
    + intros s3 H3. apply wp_ret. split; [suf|done].
  - cbn [parseexec]. apply wp_peek. intros p s1 -> _ _. pose proof (skip_ws_suffix s) as H1.
    assert (Hb1 : suffix (skip_ws s) b) by suf. pose proof (suffix_length _ _ H1). destruct p.
    + eapply wp_conseq; [apply (IH _ Hb1); lia|]. intros c s2. by apply ends_trans.
    + apply wp_bind, wp_gets, wp_bind. eapply wp_conseq; [by apply parseredirs_wp; [|constructor]|]. cbv beta. intros c s2 [H2 Hc].
      assert (H12 : suffix s2 s) by suf. pose proof (suffix_length _ _ H2).
      eapply wp_conseq; [apply parseexec_loop_wp; [suf|done|lia]|]. intros c' s3. by apply ends_trans.
  - cbn [parseblock]. apply wp_peek. intros p s1 -> Hp _. pose proof (skip_ws_suffix s) as H1.
    assert (Hb1 : suffix (skip_ws s) b) by suf. pose proof (suffix_length _ _ H1).
    destruct p; [|by apply wp_panic]. cbn [negb]. destruct (Hp eq_refl) as (x & r & Ex & _).
    apply wp_gettoken; [done|]. intros t w s2 H2 Ht _ _. destruct Ht as [Ht _]; [by rewrite skip_ws_idem, Ex|].
    assert (H12 : suffix s2 s) by suf. apply wp_bind.
    eapply wp_conseq; [apply (IH s2); [suf|lia]|]. cbv beta. intros c s3 [H3 Hc].
    assert (H13 : suffix s3 s) by suf.
    apply wp_peek. intros p s4 -> _ _. destruct p; [|by apply wp_panic]. cbn [negb].
    pose proof (skip_ws_suffix s3). assert (H14 : suffix (skip_ws s3) s) by suf.
    apply wp_gettoken; [suf|]. intros t' w' s5 H5 _ _ _. assert (H15 : suffix s5 s) by suf.
    eapply wp_conseq; [apply parseredirs_wp; [suf|done]|]. intros c' s6. by apply ends_trans.
Qed.
End Line.

Lemma parse_total s :
  match parse s with Ok c t => t = [] /\ cmd_all (word_ok s) c | Panic _ => True | Blocked _ => False end.
Proof.
  change (wp (c ← parseline (4 * length s + 4); peek [];; s ← gets id; if bool_decide (s = []) then ret c else panic "syntax")
    (fun c t => t = [] /\ cmd_all (word_ok s) c) (fun _ => True) s).
  apply wp_bind. eapply wp_conseq; [apply (parse_wp s); [done|lia]|]. cbv beta. intros c t [Ht Hc].
  apply wp_peek. intros p t1 -> _ _. apply wp_bind, wp_gets. unfold id.
  destruct (bool_decide_reflect (skip_ws t = [])) as [E|]; [|by apply wp_panic]. apply wp_ret. by rewrite E.
Qed.

(** ** [nulterminate] *)

Fixpoint cmd_words {W} (c : cmd W) : list W :=
  match c with
  | EXEC a => a
  | REDIR c w _ _ => cmd_words c ++ [w]
  | PIPE l r => cmd_words l ++ cmd_words r
  | LIST l r => cmd_words l ++ cmd_words r
  | BACK c => cmd_words c
  end.

Lemma cmd_map_ext {V W} (f g : V -> W) c : (forall w, w ∈ cmd_words c -> f w = g w) -> cmd_map f c = cmd_map g c.
Proof.
  induction c as [a|c IH w m fd|l IHl r IHr|l IHl r IHr|c IH]; cbn; intros H.
  - f_equal. apply list_fmap_ext. intros i x Hx. apply H. by eapply list_elem_of_lookup_2.
  - rewrite IH by (intros; apply H, elem_of_app; by left). rewrite (H w) by (apply elem_of_app; right; by apply list_elem_of_singleton). done.
  - rewrite IHl by (intros; apply H, elem_of_app; by left). rewrite IHr by (intros; apply H, elem_of_app; by right). done.
  - rewrite IHl by (intros; apply H, elem_of_app; by left). rewrite IHr by (intros; apply H, elem_of_app; by right). done.
  - by rewrite IH.
Qed.

Lemma cmd_all_words {W} (P : W -> Prop) c : cmd_all P c <-> Forall P (cmd_words c).
Proof.
  induction c; cbn; [done|..]; rewrite ?Forall_app, ?Forall_singleton; tauto.
Qed.

Lemma nulterminate_words_eq n c : forall b, nulterminate n c b = foldl (fun b w => put_nul n w b) b (cmd_words c).
Proof. induction c as [a|c IH w m fd|l IHl r IHr|l IHl r IHr|c IH]; intros b; cbn; rewrite ?foldl_app, ?IH, ?IHl, ?IHr; done. Qed.

Lemma put_nuls_length n ws : forall b, length (foldl (fun b w => put_nul n w b) b ws) = length b.
Proof. induction ws as [|w ws IH]; intros b; cbn; [done|]. rewrite IH. unfold put_nul. by rewrite length_insert. Qed.

Lemma put_nuls_keep n ws i : forall b, Forall (fun w => (n - length (w_eq w))%nat <> i) ws ->
  foldl (fun b w => put_nul n w b) b ws !! i = b !! i.
Proof.
  induction ws as [|w ws IH]; intros b H; cbn; [done|]. inversion H; subst. rewrite IH by done. unfold put_nul. by rewrite list_lookup_insert_ne.
Qed.

Lemma put_nuls_zero n ws i : forall b, Exists (fun w => (n - length (w_eq w))%nat = i) ws -> (i < length b)%nat ->
  foldl (fun b w => put_nul n w b) b ws !! i = Some 0.
Proof.
  induction ws as [|x ws IH]; intros b Hw Hn; [inversion Hw|]. cbn.
  destruct (decide (Exists (fun w => (n - length (w_eq w))%nat = i) ws)) as [He|He].
  - apply IH; [done|]. unfold put_nul. by rewrite length_insert.
  - rewrite put_nuls_keep by (by apply Forall_Exists_neg). apply Exists_cons in Hw as [<-|]; [|done].
    unfold put_nul. by rewrite list_lookup_insert_eq.
Qed.

#[local] Transparent cstr.
Lemma cstr_word t r : forall n, Forall (fun c => c <> 0) t -> (length t < n)%nat -> cstr n (t ++ 0 :: r) = t.
Proof.
  induction t as [|c t IH]; intros n Ht Hn; (destruct n as [|n]; [cbn in Hn; lia|]); cbn; [done|]. inversion Ht; subst.
  destruct (Z.eqb_spec c 0); [done|]. f_equal. apply IH; [done|cbn in Hn; lia].
Qed.

(** The string the shell finds at the address [q] in the line. *)
Definition str_at (n : nat) (b : list Z) (w : word) : list Z := cstr (length b) (drop (n - length (w_q w)) b).

Lemma word_read s c w :
  Forall (fun c => c <> 0) s -> Forall (word_ok s) (cmd_words c) -> w ∈ cmd_words c ->
  str_at (length s) (nulterminate (length s) c (s ++ [0])) w = text w.
Proof.
  intros Hz Hall Hw. rewrite nulterminate_words_eq. set (b := foldl _ _ _).
  rewrite Forall_forall in Hall. destruct (Hall w Hw) as [Et Ec _ _ [pre Epre]].
  assert (Hlb : length b = S (length s)) by (unfold b; rewrite put_nuls_length, length_app; cbn; lia).
  assert (Hls : (length s = length pre + length (text w) + length (w_eq w))%nat) by (rewrite Epre, Et, !length_app; lia).
  assert (Hq : (length s - length (w_q w) = length pre)%nat) by (rewrite Et, length_app; lia).
  unfold str_at. rewrite Hq. assert (Hd : drop (length pre) b = text w ++ 0 :: drop (length pre + length (text w) + 1) b).
  { apply list_eq. intros i. rewrite lookup_drop. destruct (decide (i < length (text w))%nat) as [Hi|Hi].
    - rewrite lookup_app_l by done. unfold b. rewrite put_nuls_keep.
      + rewrite lookup_app_l by lia. rewrite Epre, lookup_app_r by lia. rewrite Et, lookup_app_l by lia. f_equal. lia.
      + rewrite Forall_forall. intros w' Hw' He. destruct (Hall w' Hw') as [Et' _ _ Hst' [pre' Epre']].
        destruct (lookup_lt_is_Some_2 (text w) i Hi) as [x Hx].
        assert (Hx1 : s !! (length pre + i)%nat = Some x).
        { rewrite Epre, lookup_app_r by lia. rewrite Et, lookup_app_l by lia. rewrite <- Hx. f_equal. lia. }
        assert (Hls' : (length s = length pre' + length (text w') + length (w_eq w'))%nat) by (rewrite Epre', Et', !length_app; lia).
        rewrite Epre', Et', lookup_app_r, lookup_app_r in Hx1 by lia.
        replace (length pre + i - length pre' - length (text w'))%nat with 0%nat in Hx1 by lia.
        destruct (w_eq w') as [|y r]; [done|]. injection Hx1 as ->. cbn in Hst'.
        rewrite Forall_lookup in Ec. specialize (Ec _ _ Hx). congruence.
    - rewrite lookup_app_r by lia. destruct (i - length (text w))%nat as [|j] eqn:Ej.
      + replace (length pre + i)%nat with (length s - length (w_eq w))%nat by lia. apply put_nuls_zero; [|rewrite length_app; cbn; lia].
        apply Exists_exists. by exists w.
      + rewrite lookup_cons_ne_0 by done. cbn [pred]. rewrite lookup_drop. f_equal. lia. }
  rewrite Hd. apply cstr_word; [|lia]. rewrite Epre, Et in Hz. apply Forall_app in Hz as [_ Hz]. by apply Forall_app in Hz as [Hz _].
Qed.

(** ** Printing and parsing back *)

Fixpoint spaced (a : list (list Z)) : list Z := match a with [] => [] | w :: a' => 32 :: w ++ spaced a' end.

(** Commands as the shell's grammar writes them, with parentheses where the
    level asks for them: 0 a line, 1 a command that may go to the background,
    2 a pipeline, 3 one command with its redirections. *)
Fixpoint show (lvl : nat) (c : cmd (list Z)) : list Z :=
  let paren k x := if Nat.leb lvl k then x else LPAR :: x ++ [RPAR] in
  match c with
  | EXEC a => spaced a
  | REDIR c f m fd => show 3 c ++ (if fd =? 0 then LT else GT) :: f
  | PIPE l r => paren 2%nat (show 3 l ++ BAR :: show 2 r)
  | LIST l r => paren 0%nat (show 1 l ++ SEMI :: show 0 r)
  | BACK c => paren 1%nat (show 1 c ++ [AMP])
  end.

Definition legal (w : list Z) : Prop := w <> [] /\ Forall (fun c => wordchar c = true) w.

(** The trees that have a command line. *)
Fixpoint printable (c : cmd (list Z)) : Prop :=
  match c with
  | EXEC a => (length a < MAXARGS)%nat /\ Forall legal a
  | REDIR c f m fd => printable c /\ legal f /\ ((fd = 0 /\ m = O_RDONLY) \/ (fd = 1 /\ m = Z.lor O_WRONLY O_CREATE))
  | PIPE l r => printable l /\ printable r
  | LIST l r => printable l /\ printable r
  | BACK c => printable c
  end.

(** What follows a command: nothing, or a symbol of the set. *)
Definition next (set k : list Z) : Prop := match k with [] => True | c :: _ => existsb (Z.eqb c) set = true end.
Definition next3 : list Z -> Prop := next [BAR; RPAR; AMP; SEMI; LT; GT].

Lemma next_sub set set' k : (forall c, existsb (Z.eqb c) set = true -> existsb (Z.eqb c) set' = true) -> next set k -> next set' k.
Proof. intros H. destruct k; [done|]. apply H. Qed.
Ltac next_weaken := apply next_sub; intros ?; cbn [existsb]; rewrite !orb_true_iff; tauto.

Lemma next3_cases c k : next3 (c :: k) -> c = BAR \/ c = RPAR \/ c = AMP \/ c = SEMI \/ c = LT \/ c = GT.
Proof. unfold next3, next. cbn [existsb]. rewrite !orb_true_iff, !Z.eqb_eq. intuition discriminate. Qed.

Lemma next3_skip k : next3 k -> skip_ws k = k.
Proof. destruct k as [|c k]; [done|]. intros H. apply next3_cases in H as [->|[->|[->|[->|[->| ->]]]]]; done. Qed.
Lemma next3_stops k : next3 k -> stops k.
Proof. destruct k as [|c k]; [done|]. intros H. apply next3_cases in H as [->|[->|[->|[->|[->| ->]]]]]; done. Qed.

Lemma wordchar_notin c : wordchar c = true ->
  isin whitespace c = false /\ existsb (Z.eqb c) [BAR; RPAR; AMP; SEMI; LT; GT; LPAR] = false.
Proof.
  unfold wordchar. rewrite andb_true_iff, !negb_true_iff. intros [H1 H2]. split; [done|].
  rewrite isin_existsb in H2 by (by repeat constructor). cbn [existsb symbols] in *.
  rewrite !orb_false_iff in *. tauto.
Qed.

Lemma skip_word_app w k : Forall (fun c => wordchar c = true) w -> stops k -> skip_word (w ++ k) = k.
Proof.
  intros Hw Hk. induction Hw as [|c w Hc _ IH]; cbn.
  - destruct k as [|c k]; [done|]. cbn in Hk. unfold wordchar in Hk. cbn. by rewrite Hk.
  - unfold wordchar in Hc. by rewrite Hc.
Qed.

Lemma skip_legal w k : legal w -> skip_ws (w ++ k) = w ++ k.
Proof. intros [Hw Hc]. destruct Hc as [|c w Hc _]; [done|]. cbn. by rewrite (proj1 (wordchar_notin c Hc)). Qed.

Lemma gettoken_word w k s : legal w -> stops k -> skip_ws s = w ++ k ->
  gettoken s = Ok (WORD, Word (w ++ k) k) (skip_ws k) /\ text (Word (w ++ k) k) = w.
Proof.
  intros [Hw Hc] Hk Hs. split; [|unfold text; cbn; rewrite length_app, Nat.add_sub; apply take_app_length].
  unfold gettoken, bind, gets, modify, ret, id. rewrite Hs. pose proof (skip_word_app w k Hc Hk) as Hsk.
  destruct Hc as [|c w Hc Hw']; [done|]. destruct (wordchar_notin c Hc) as [_ Hn]. cbn [app] in *. unfold token.
  cbn [existsb] in *. rewrite !orb_false_iff in Hn. destruct Hn as (H1 & H2 & H3 & H4 & H5 & H6 & H7 & _).
  rewrite H1, H2, H3, H4, H5, H6, H7. cbn [orb fst snd]. by rewrite Hsk.
Qed.

Lemma gettoken_sym c k : existsb (Z.eqb c) [BAR; LPAR; RPAR; SEMI; AMP; LT] = true ->
  gettoken (c :: k) = Ok (c, Word (c :: k) k) (skip_ws k).
Proof.
  intros H. unfold gettoken, bind, gets, modify, ret, id. assert (Hs : skip_ws (c :: k) = c :: k).
  { cbn [existsb] in H. rewrite !orb_true_iff, !Z.eqb_eq in H. destruct H as [->|[->|[->|[->|[->|[->|?]]]]]]; done. }
  rewrite Hs. unfold token. by rewrite H.
Qed.

Lemma peek_eq toks s : peek toks s = Ok (match skip_ws s with [] => false | c :: _ => isin toks c end) (skip_ws s).
Proof. done. Qed.

(** [peek] of the parser's sets on what follows. *)
Lemma peek_no toks set k : next set k -> next3 k -> forallb (fun c => negb (existsb (Z.eqb c) toks)) set = true -> Forall (fun x => x <> 0) toks ->
  peek toks k = Ok false k.
Proof.
  intros Hk H3 Hd Ht. rewrite peek_eq, next3_skip by done. destruct k as [|c k]; [done|]. f_equal. rewrite isin_existsb by done.
  unfold next in Hk. apply existsb_exists in Hk as (x & Hx & He). apply Z.eqb_eq in He as ->.
  rewrite forallb_forall in Hd. specialize (Hd x Hx). by apply negb_true_iff in Hd.
Qed.

Lemma peek_yes toks c k : isin whitespace c = false -> isin toks c = true -> peek toks (c :: k) = Ok true (c :: k).
Proof. intros Hb Hc. rewrite peek_eq. cbn. by rewrite Hb, Hc. Qed.

Lemma bind_Ok {A B} (m : R A) (k : A -> R B) s a s' : m s = Ok a s' -> bind m k s = k a s'.
Proof. unfold bind. by intros ->. Qed.

(** The parsers begin by skipping blanks. *)
Lemma bind_skip {A B} (m : R A) (k : A -> R B) s : m (skip_ws s) = m s -> bind m k (skip_ws s) = bind m k s.
Proof. unfold bind. by intros ->. Qed.
Lemma peek_skip toks s : peek toks (skip_ws s) = peek toks s.
Proof. by rewrite !peek_eq, skip_ws_idem. Qed.
Lemma parseexec_skip n s : parseexec n (skip_ws s) = parseexec n s.
Proof. destruct n; [done|]. cbn [parseexec]. apply bind_skip, peek_skip. Qed.
Lemma parsepipe_skip n s : parsepipe n (skip_ws s) = parsepipe n s.
Proof. destruct n; [done|]. cbn [parsepipe]. apply bind_skip, parseexec_skip. Qed.
Lemma parseline_skip n s : parseline n (skip_ws s) = parseline n s.
Proof. destruct n; [done|]. cbn [parseline]. apply bind_skip, parsepipe_skip. Qed.
Lemma redirs_loop_skip m c s : parseredirs_loop m c (skip_ws s) = parseredirs_loop m c s.
Proof. destruct m; [done|]. cbn [parseredirs_loop]. apply bind_skip, peek_skip. Qed.
Lemma skip_ws_length s : (length (skip_ws s) <= length s)%nat.
Proof. apply suffix_length, skip_ws_suffix. Qed.

(** *** Each level parses what it printed *)

Abbreviation F3 := [BAR; RPAR; AMP; SEMI].
Abbreviation F2 := [RPAR; AMP; SEMI].

Lemma redirs_end m c k : next F3 k -> parseredirs_loop (S m) c k = Ok c k.
Proof.
  intros Hk. cbn [parseredirs_loop]. unfold bind. rewrite (peek_no [LT; GT] F3 k); [done|done| |done|by repeat constructor].
  revert Hk. next_weaken.
Qed.

Lemma exec_end m argc c k : next F3 k -> parseexec_loop (S m) argc c k = Ok c k.
Proof.
  intros Hk. assert (H3 : next3 k) by (revert Hk; next_weaken). cbn [parseexec_loop]. unfold bind. rewrite peek_eq, next3_skip by done.
  destruct k as [|x k]; [done|]. rewrite isin_existsb by (by repeat constructor). unfold next in Hk. by rewrite Hk.
Qed.

Lemma redirs_step m c f op mode fd k :
  legal f -> next3 k -> (op = LT /\ fd = 0 /\ mode = O_RDONLY) \/ (op = GT /\ fd = 1 /\ mode = Z.lor O_WRONLY O_CREATE) ->
  parseredirs_loop (S m) c (op :: f ++ k) = parseredirs_loop m (REDIR c (Word (f ++ k) k) mode fd) k.
Proof.
  intros Hf Hk Hop. cbn [parseredirs_loop]. unfold bind. rewrite peek_eq.
  destruct (gettoken_word f k (f ++ k) Hf (next3_stops k Hk) (skip_legal f k Hf)) as [Eg _].
  assert (Et : gettoken (op :: f ++ k) = Ok (op, Word (op :: f ++ k) (f ++ k)) (f ++ k)).
  { destruct Hop as [[-> _]|[-> _]]; [rewrite gettoken_sym by done; by rewrite skip_legal|].
    unfold gettoken, bind, gets, modify, ret, id. cbn [skip_ws]. replace (isin whitespace GT) with false by done.
    destruct Hf as [Hf Hc]. destruct Hc as [|x f Hx Hc]; [done|]. destruct (wordchar_notin x Hx) as [Hb Hn].
    cbn [existsb] in Hn. rewrite !orb_false_iff in Hn. destruct Hn as (_ & _ & _ & _ & _ & Hg & _).
    unfold token. cbn [app existsb]. rewrite Hg. cbn. by rewrite Hb. }
  assert (Es : skip_ws (op :: f ++ k) = op :: f ++ k) by (by destruct Hop as [[-> _]|[-> _]]).
  assert (Ei : isin [LT; GT] op = true) by (by destruct Hop as [[-> _]|[-> _]]).
  rewrite Es, Ei, Et, Eg. cbn [fst snd]. rewrite next3_skip by done. by destruct Hop as [(-> & -> & ->)|(-> & -> & ->)].
Qed.

Lemma stops_args (a : list (list Z)) k : stops k -> stops (spaced a ++ k).
Proof. by destruct a. Qed.

Lemma args_parse rest : forall done m m2 k,
  Forall legal rest -> (length done + length rest < MAXARGS)%nat -> next3 k ->
  (length (skip_ws (spaced rest ++ k)) < m)%nat -> (length (skip_ws (spaced rest ++ k)) < m2)%nat ->
  exists ws m' m2', text <$> ws = rest /\ (length k < m')%nat /\ (length k < m2')%nat /\
    bind (parseredirs_loop m (EXEC done)) (parseexec_loop m2 (length done)) (spaced rest ++ k) =
    bind (parseredirs_loop m' (EXEC (done ++ ws))) (parseexec_loop m2' (length (done ++ ws))) k.
Proof.
  induction rest as [|w rest IH]; intros dn m m2 k Hl Hn Hk Hm Hm2.
  { cbn [spaced app] in *. rewrite next3_skip in Hm, Hm2 by done. exists [], m, m2. rewrite app_nil_r. by repeat split. }
  inversion Hl as [|? ? Hw Hl']; subst. cbn [spaced app] in *. rewrite <- app_assoc in *.
  set (s' := spaced rest ++ k) in *. assert (Hs' : stops s') by (apply stops_args, next3_stops, Hk).
  destruct m as [|m]; [lia|]. destruct m2 as [|m2]; [lia|]. cbn [length] in Hn.
  assert (Hhd : skip_ws (32 :: w ++ s') = w ++ s') by (cbn; by apply skip_legal). rewrite Hhd, length_app in Hm2.
  pose proof (skip_ws_length s') as Hsk. assert (0 < length w)%nat by (destruct Hw; destruct w; [done|cbn; lia]).
  assert (Hno : forall toks, Forall (fun x => x <> 0) toks -> forallb (fun c => existsb (Z.eqb c) [BAR; RPAR; AMP; SEMI; LT; GT; LPAR]) toks = true ->
    forall s, skip_ws s = w ++ s' -> peek toks s = Ok false (w ++ s')).
  { intros toks Ht Hsub s Hs. rewrite peek_eq, Hs. destruct Hw as [Hw Hc]. destruct Hc as [|x w Hx Hc]; [done|]. cbn [app]. f_equal.
    rewrite isin_existsb by done. destruct (wordchar_notin x Hx) as [_ Hx2]. apply not_true_is_false. intros He.
    apply existsb_exists in He as (y & Hy & Ey). apply Z.eqb_eq in Ey as <-. rewrite forallb_forall in Hsub. rewrite (Hsub _ Hy) in Hx2. done. }
  destruct (gettoken_word w s' (w ++ s') Hw Hs' (skip_legal w s' Hw)) as [Eg Etx].
  destruct (IH (dn ++ [Word (w ++ s') s']) (S (length (skip_ws s'))) m2 k) as (ws & m' & m2' & Ews & Hm' & Hm2' & E);
    [done|rewrite length_app; cbn; lia|done|fold s'; lia|fold s'; lia|].
  exists (Word (w ++ s') s' :: ws), m', m2'. split; [by rewrite fmap_cons, Etx, Ews|]. split; [done|]. split; [done|].
  rewrite (app_assoc dn [_] ws : dn ++ _ :: ws = _). rewrite <- E. fold s'. cbn [parseredirs_loop parseexec_loop]. unfold bind at 1 2.
  rewrite Hno; [|by repeat constructor|done|done]. unfold ret at 1. unfold bind at 1 2.
  rewrite Hno; [|by repeat constructor|done|by apply skip_legal]. unfold bind at 1. rewrite Eg. cbn [fst snd].
  change (WORD =? 0) with false. change (WORD =? WORD) with true. cbn [negb].
  destruct (Nat.leb_spec MAXARGS (S (length dn))); [lia|]. unfold parseredirs. cbn [add_arg].
  rewrite length_app, Nat.add_1_r. unfold bind at 1 2, gets. by rewrite redirs_loop_skip.
Qed.

(** One command: its redirections may go on in what follows. *)
Definition P3 (c : cmd (list Z)) : Prop := forall n k, next3 k -> (4 * length (show 3 c ++ k) + 2 <= n)%nat ->
  exists c' m g, cmd_map text c' = c /\ (length k < m)%nat /\
    parseexec n (show 3 c ++ k) = bind (parseredirs_loop m c') g k /\
    (forall d k', (length k' <= length k)%nat -> next F3 k' -> g d k' = Ok d k').
Definition P2 (c : cmd (list Z)) : Prop := forall n k, next F2 k -> (4 * length (show 2 c ++ k) + 3 <= n)%nat ->
  exists c', cmd_map text c' = c /\ parsepipe n (show 2 c ++ k) = Ok c' k.
Definition backs (c : cmd word) : R (cmd word) := k ← gets (@length Z); back_loop (S k) c.
Definition P1 (c : cmd (list Z)) : Prop := forall n k, next F2 k -> (4 * length (show 1 c ++ k) + 3 <= n)%nat ->
  exists c' m, cmd_map text c' = c /\ (length k < m)%nat /\ bind (parsepipe n) backs (show 1 c ++ k) = back_loop m c' k.
Definition P0 (c : cmd (list Z)) : Prop := forall n k, next [RPAR] k -> (4 * length (show 0 c ++ k) + 4 <= n)%nat ->
  exists c', cmd_map text c' = c /\ parseline n (show 0 c ++ k) = Ok c' k.

Lemma P3_ends c n k : P3 c -> next F3 k -> (4 * length (show 3 c ++ k) + 2 <= n)%nat ->
  exists c', cmd_map text c' = c /\ parseexec n (show 3 c ++ k) = Ok c' k.
Proof.
  intros H Hk Hn. destruct (H n k) as (c' & m & g & Ec & Hm & E & Hg); [revert Hk; next_weaken|done|]. exists c'. split; [done|].
  rewrite E. unfold bind. destruct m as [|m]; [lia|]. rewrite redirs_end by done. by apply Hg.
Qed.

Lemma P3_exec a : (length a < MAXARGS)%nat -> Forall legal a -> P3 (EXEC a).
Proof.
  intros Ha Hl n k Hk Hn. cbn [show] in *. destruct n as [|n]; [lia|]. set (s := spaced a ++ k) in *.
  assert (Hp : peek [LPAR] s = Ok false (skip_ws s)).
  { rewrite peek_eq. f_equal. unfold s. destruct a as [|w a]; cbn [spaced app].
    - rewrite next3_skip by done. destruct k as [|x k]; [done|]. by apply next3_cases in Hk as [->|[->|[->|[->|[->| ->]]]]].
    - inversion Hl as [|? ? Hw _]; subst. rewrite <- app_assoc. change (skip_ws (32 :: ?t)) with (skip_ws t). rewrite skip_legal by done.
      destruct Hw as [Hw Hc]. destruct Hc as [|x w Hx Hc]; [done|]. cbn [app]. rewrite isin_existsb by (by repeat constructor).
      destruct (wordchar_notin x Hx) as [_ Hx2]. cbn [existsb] in *. rewrite !orb_false_iff in *. tauto. }
  destruct (args_parse a [] (S (length (skip_ws s))) (S (length (skip_ws s))) k Hl ltac:(cbn; lia) Hk ltac:(fold s; lia) ltac:(fold s; lia))
    as (ws & m & m2 & Ews & Hm & Hm2 & E). fold s in E. cbn [app length] in E.
  exists (EXEC ws), m, (parseexec_loop m2 (length ws)). split; [cbn; by rewrite Ews|]. split; [done|]. split.
  - cbn [parseexec]. unfold bind at 1. rewrite Hp. rewrite <- E. unfold parseredirs, bind, gets. by rewrite redirs_loop_skip.
  - intros d k' Hk' Hn'. destruct m2 as [|m2]; [lia|]. by apply exec_end.
Qed.

Lemma P3_redir c f m fd : P3 c -> legal f -> ((fd = 0 /\ m = O_RDONLY) \/ (fd = 1 /\ m = Z.lor O_WRONLY O_CREATE)) -> P3 (REDIR c f m fd).
Proof.
  intros Hc Hf Hfd n k Hk Hn. cbn [show] in *. rewrite <- app_assoc in *. cbn [app] in *.
  destruct (Hc n ((if fd =? 0 then LT else GT) :: f ++ k)) as (c' & mm & g & Ec & Hm & E & Hg); [|done|].
  { by destruct Hfd as [[-> _]|[-> _]]. }
  destruct mm as [|mm]; [lia|]. exists (REDIR c' (Word (f ++ k) k) m fd), mm, g. cbn [length] in Hm. rewrite length_app in Hm.
  split; [|split; [lia|split]].
  - cbn. rewrite Ec. unfold text. cbn. by rewrite length_app, Nat.add_sub, take_app_length.
  - rewrite E. unfold bind. rewrite (redirs_step mm c' f _ m fd k Hf Hk); [done|].
    by destruct Hfd as [[-> ->]|[-> ->]]; [left|right].
  - intros d k' Hk' Hn'. apply Hg; [cbn; rewrite length_app; lia|done].
Qed.

Lemma P3_paren c : show 3 c = LPAR :: show 0 c ++ [RPAR] -> P0 c -> P3 c.
Proof.
  intros Es Hc n k Hk Hn. rewrite Es in *. cbn [app] in *. rewrite <- app_assoc in *. cbn [app length] in *.
  destruct n as [|[|n]]; [lia|lia|]. destruct (Hc n (RPAR :: k)) as (c' & Ec & E); [done|lia|].
  exists c', (S (length k)), ret. split; [done|]. split; [lia|]. split; [|done].
  cbn [parseexec parseblock]. do 2 rewrite (bind_Ok _ _ _ _ _ (peek_yes [LPAR] LPAR _ eq_refl eq_refl)). cbn [negb].
  rewrite (bind_Ok _ _ _ _ _ (gettoken_sym LPAR _ eq_refl)). rewrite <- (parseline_skip n) in E. rewrite (bind_Ok _ _ _ _ _ E).
  rewrite (bind_Ok _ _ _ _ _ (peek_yes [RPAR] RPAR _ eq_refl eq_refl)). cbn [negb].
  rewrite (bind_Ok _ _ _ _ _ (gettoken_sym RPAR _ eq_refl)), next3_skip by done.
  unfold parseredirs, bind, gets. by destruct (parseredirs_loop _ c' k).
Qed.

Lemma P2_of_P3 c : show 2 c = show 3 c -> P3 c -> P2 c.
Proof.
  intros Es Hc n k Hk Hn. rewrite Es in *. destruct n as [|n]; [lia|].
  assert (H3 : next F3 k) by (revert Hk; next_weaken). destruct (P3_ends c n k Hc H3) as (c' & Ec & E); [lia|].
  exists c'. split; [done|]. cbn [parsepipe]. unfold bind at 1. rewrite E. unfold bind.
  rewrite (peek_no [BAR] F2 k); [done|done|revert Hk; next_weaken|done|by repeat constructor].
Qed.

Lemma P2_pipe l r : P3 l -> P2 r -> P2 (PIPE l r).
Proof.
  intros Hl Hr n k Hk Hn. cbn [show Nat.leb] in *. rewrite <- app_assoc in *. cbn [app] in *. destruct n as [|n]; [lia|].
  rewrite length_app in Hn. cbn [length] in Hn.
  destruct (P3_ends l n (BAR :: show 2 r ++ k) Hl) as (l' & El & E1); [done|rewrite length_app; cbn [length]; lia|].
  destruct (Hr n k Hk) as (r' & Er & E2); [lia|]. exists (PIPE l' r'). split; [cbn; by rewrite El, Er|].
  cbn [parsepipe]. rewrite (bind_Ok _ _ _ _ _ E1), (bind_Ok _ _ _ _ _ (peek_yes [BAR] BAR _ eq_refl eq_refl)).
  rewrite (bind_Ok _ _ _ _ _ (gettoken_sym BAR _ eq_refl)). unfold bind. by rewrite parsepipe_skip, E2.
Qed.

Lemma P1_of_P2 c : show 1 c = show 2 c -> P2 c -> P1 c.
Proof.
  intros Es Hc n k Hk Hn. rewrite Es in *. destruct (Hc n k Hk Hn) as (c' & Ec & E). exists c', (S (length k)).
  split; [done|]. split; [lia|]. unfold bind. by rewrite E.
Qed.

Lemma P1_back c : P1 c -> P1 (BACK c).
Proof.
  intros Hc n k Hk Hn. cbn [show Nat.leb] in *. rewrite <- app_assoc in *. cbn [app] in *.
  destruct (Hc n (AMP :: k)) as (c' & m & Ec & Hm & E); [done|done|]. destruct m as [|m]; [lia|]. cbn [length] in Hm.
  exists (BACK c'), m. split; [cbn; by rewrite Ec|]. split; [lia|]. rewrite E. cbn [back_loop].
  rewrite (bind_Ok _ _ _ _ _ (peek_yes [AMP] AMP _ eq_refl eq_refl)), (bind_Ok _ _ _ _ _ (gettoken_sym AMP _ eq_refl)).
  rewrite next3_skip; [done|]. revert Hk. next_weaken.
Qed.

(** [parseline] after its pipeline and the [&]s. *)
Lemma parseline_eq n s c m k :
  bind (parsepipe n) backs s = back_loop (S m) c k -> next [RPAR; SEMI] k ->
  parseline (S n) s = (b ← peek [SEMI]; if b : bool then gettoken;; r ← parseline n; ret (LIST c r) else ret c) k.
Proof.
  intros E Hk. assert (Eb : back_loop (S m) c k = Ok c k).
  { cbn [back_loop]. unfold bind at 1. rewrite (peek_no [AMP] [RPAR; SEMI] k); [done|done|revert Hk; next_weaken|done|by repeat constructor]. }
  rewrite Eb in E. cbn [parseline]. unfold backs, bind, gets in *. destruct (parsepipe n s) as [c1 s1| |]; [|done|done].
  destruct (back_loop (S (length s1)) c1 s1) as [c2 s2| |]; [|done|done]. by injection E as -> ->.
Qed.

Lemma P0_of_P1 c : show 0 c = show 1 c -> P1 c -> P0 c.
Proof.
  intros Es Hc n k Hk Hn. rewrite Es in *. destruct n as [|n]; [lia|].
  destruct (Hc n k) as (c' & m & Ec & Hm & E); [revert Hk; next_weaken|lia|]. destruct m as [|m]; [lia|]. exists c'. split; [done|].
  rewrite (parseline_eq n _ c' m k E) by (revert Hk; next_weaken). unfold bind at 1.
  rewrite (peek_no [SEMI] [RPAR] k); [done|done|revert Hk; next_weaken|done|by repeat constructor].
Qed.

Lemma P0_list l r : P1 l -> P0 r -> P0 (LIST l r).
Proof.
  intros Hl Hr n k Hk Hn. cbn [show Nat.leb] in *. rewrite <- app_assoc in *. cbn [app] in *. destruct n as [|n]; [lia|].
  rewrite length_app in Hn. cbn [length] in Hn.
  destruct (Hl n (SEMI :: show 0 r ++ k)) as (l' & m & El & Hm & E1); [done|rewrite length_app; cbn [length]; lia|]. destruct m as [|m]; [lia|].
  destruct (Hr n k Hk) as (r' & Er & E2); [lia|]. exists (LIST l' r'). split; [cbn; by rewrite El, Er|].
  rewrite (parseline_eq n _ l' m _ E1) by done. rewrite (bind_Ok _ _ _ _ _ (peek_yes [SEMI] SEMI _ eq_refl eq_refl)).
  rewrite (bind_Ok _ _ _ _ _ (gettoken_sym SEMI _ eq_refl)). unfold bind. by rewrite parseline_skip, E2.
Qed.

Lemma show_parses c : printable c -> P0 c /\ P1 c /\ P2 c /\ P3 c.
Proof.
  induction c as [a|c IH f m fd|l IHl r IHr|l IHl r IHr|c IH]; cbn [printable].
  - intros [Ha Hl]. pose proof (P3_exec a Ha Hl). auto 12 using P2_of_P3, P1_of_P2, P0_of_P1.
  - intros (Hc & Hf & Hm). pose proof (P3_redir c f m fd (proj2 (proj2 (proj2 (IH Hc)))) Hf Hm). auto 12 using P2_of_P3, P1_of_P2, P0_of_P1.
  - intros [Hl Hr]. assert (H2 : P2 (PIPE l r)) by (apply P2_pipe; [apply IHl|apply IHr]; done).
    auto 12 using P3_paren, P1_of_P2, P0_of_P1.
  - intros [Hl Hr]. assert (H0 : P0 (LIST l r)) by (apply P0_list; [apply IHl|apply IHr]; done).
    auto 12 using P3_paren, P2_of_P3, P1_of_P2.
  - intros Hc. assert (H1 : P1 (BACK c)) by (apply P1_back, IH, Hc). auto 12 using P3_paren, P2_of_P3, P0_of_P1.
Qed.

(** ** Theorems *)

(** C38: the shell's parser ends on every line.  It returns a tree or stops
    with a syntax error; and in the line as [nulterminate] leaves it, the
    string at the address of each word of the tree is the word the parser
    saw: a nonempty piece of the line without blanks and symbols. *)
Theorem parsecmd_total s (Hz : Forall (fun c => c <> 0) s) :
  match parsecmd s with
  | Ok (c, b) t => t = [] /\ Forall (fun w => str_at (length s) b w = text w /\ legal (text w) /\
                                              exists pre post, s = pre ++ text w ++ post) (cmd_words c)
  | Panic _ => True
  | Blocked _ => False
  end.
Proof.
  unfold parsecmd. pose proof (parse_total s) as H. destruct (parse s) as [c t| |]; [|done|done]. destruct H as [-> Hc].
  split; [done|]. apply cmd_all_words in Hc as Hw. apply Forall_forall. intros w Hin.
  split; [by apply word_read|]. rewrite Forall_forall in Hw. destruct (Hw w Hin) as [Et Hch Hne _ [pre Epre]].
  split; [done|]. exists pre, (w_eq w). by rewrite <- Et.
Qed.

Lemma parsecmd_total_witness :
  match parsecmd (removelast (lit "(a;b)>c|d&")) with
  | Ok (c, b) t => t = [] /\ Forall (fun w => str_at 10 b w = text w /\ legal (text w) /\
                                              exists pre post, removelast (lit "(a;b)>c|d&") = pre ++ text w ++ post) (cmd_words c)
  | Panic _ => True
  | Blocked _ => False
  end.
Proof. apply (parsecmd_total (removelast (lit "(a;b)>c|d&"))). repeat constructor; vm_compute; discriminate. Defined.

(** C23: the parser reads back what a printer writes.  Every command tree
    with legal words, fewer than 10 arguments to a command and the shell's
    two kinds of redirection has a command line, and from it [parsecmd] builds
    that tree, with exactly these strings at its pointers. *)
Theorem parse_print c (Hp : printable c) (Hz : Forall (fun x => x <> 0) (show 0 c)) :
  exists c' b, parsecmd (show 0 c) = Ok (c', b) [] /\ cmd_map (str_at (length (show 0 c)) b) c' = c.
Proof.
  destruct (show_parses c Hp) as (H0 & _). set (s := show 0 c) in *.
  destruct (H0 (4 * length s + 4)%nat []) as (c' & Ec & E); [done|rewrite app_nil_r; fold s; lia|]. rewrite app_nil_r in E. fold s in E.
  assert (Ep : parse s = Ok c' []) by (unfold parse; by rewrite (bind_Ok _ _ _ _ _ E)).
  exists c', (nulterminate (length s) c' (s ++ [0])). unfold parsecmd. rewrite Ep. split; [done|].
  pose proof (parse_total s) as Ht. rewrite Ep in Ht. destruct Ht as [_ Ht]. apply cmd_all_words in Ht. rewrite <- Ec.
  apply cmd_map_ext. intros w Hw. by apply word_read.
Qed.

Lemma parse_print_witness :
  let c := PIPE (REDIR (EXEC [removelast (lit "cat"); removelast (lit "f")]) (removelast (lit "in")) O_RDONLY 0)
                (BACK (LIST (EXEC [removelast (lit "wc")]) (EXEC []))) in
  exists c' b, parsecmd (show 0 c) = Ok (c', b) [] /\ cmd_map (str_at (length (show 0 c)) b) c' = c.
Proof.
  intros c. apply (parse_print c).
  - repeat (split || constructor); vm_compute; try discriminate; try reflexivity; auto.
  - repeat constructor; vm_compute; discriminate.
Defined.

(** The shell cannot append: [>>] opens its file as [>] does. *)
Lemma append_is_overwrite :
  let tree s := match parse s with Ok c _ => Some (cmd_map text c) | _ => None end in
  tree (removelast (lit "a >> b")) = tree (removelast (lit "a > b")).
Proof. by vm_compute. Qed.

(** ** Running a command: the descriptors its programs get *)

Inductive fobj := FRead (p : nat) | FWrite (p : nat) | FFile (path : list Z) (mode : Z) | FOther (n : nat).
#[export] Instance fobj_eq_dec : EqDecision fobj.
Proof. solve_decision. Defined.

(** The descriptors of a process; a program started with its arguments. *)
Abbreviation fdtab := (list (option fobj)).
Abbreviation launch := (list (list Z) * fdtab)%type.

(** The system calls on descriptors: the lowest free one is taken. *)
Definition fd_new (o : fobj) (t : fdtab) : option (nat * fdtab) :=
  match list_find (fun x => x = None) t with Some r => Some (r.1, <[r.1 := Some o]> t) | None => None end.
Definition fd_close (fd : nat) (t : fdtab) : fdtab := <[fd := None]> t.
Definition fd_dup (fd : nat) (t : fdtab) : fdtab :=
  match t !! fd with
  | Some (Some o) => match fd_new o t with Some r => r.2 | None => t end
  | _ => t
  end.

Section Run.
Context (can_open : list Z -> Z -> bool).

(** The programs a command starts, when its forks succeed; [np] numbers the
    pipes. Each branch of [runcmd] is the sequence of its system calls. *)
Fixpoint runcmd (c : cmd (list Z)) (t : fdtab) (np : nat) : list launch * nat :=
  match c with
  | EXEC [] => ([], np)
  | EXEC argv => ([(argv, t)], np)
  | REDIR c file mode fd =>
      let t1 := fd_close (Z.to_nat fd) t in
      if can_open file mode then
        match fd_new (FFile file mode) t1 with
        | Some r => runcmd c r.2 np
        | None => ([], np)
        end
      else ([], np)
  | LIST l r =>
      let x := runcmd l t np in
      let y := runcmd r t x.2 in
      (x.1 ++ y.1, y.2)
  | PIPE l r =>
      match fd_new (FRead np) t with
      | None => ([], np)
      | Some (p0, t1) =>
          match fd_new (FWrite np) t1 with
          | None => ([], np)
          | Some (p1, t2) =>
              let x := runcmd l (fd_close p1 (fd_close p0 (fd_dup p1 (fd_close 1 t2)))) (S np) in
              let y := runcmd r (fd_close p1 (fd_close p0 (fd_dup p0 (fd_close 0 t2)))) x.2 in
              (x.1 ++ y.1, y.2)
          end
      end
  | BACK c => runcmd c t np
  end.

(** What the command means: a redirection replaces a descriptor, a pipe the
    output of its left side and the input of its right side. *)
Fixpoint meaning (c : cmd (list Z)) (t : fdtab) (np : nat) : list launch * nat :=
  match c with
  | EXEC [] => ([], np)
  | EXEC argv => ([(argv, t)], np)
  | REDIR c file mode fd => if can_open file mode then meaning c (<[Z.to_nat fd := Some (FFile file mode)]> t) np else ([], np)
  | LIST l r => let x := meaning l t np in let y := meaning r t x.2 in (x.1 ++ y.1, y.2)
  | PIPE l r =>
      let x := meaning l (<[1%nat := Some (FWrite np)]> t) (S np) in
      let y := meaning r (<[0%nat := Some (FRead np)]> t) x.2 in
      (x.1 ++ y.1, y.2)
  | BACK c => meaning c t np
  end.

(** Standard input and output are open, and two descriptors are free. *)
Definition std (t : fdtab) : Prop :=
  exists o0 o1 r i j, t = Some o0 :: Some o1 :: r /\ (i < j)%nat /\ r !! i = Some None /\ r !! j = Some None.

Lemma fd_new_at o t i : t !! i = Some None -> (forall j, (j < i)%nat -> exists x, t !! j = Some (Some x)) -> fd_new o t = Some (i, <[i := Some o]> t).
Proof.
  intros Hi Hlt. unfold fd_new. assert (list_find (fun x => x = None) t = Some (i, None)) as ->; [|done].
  apply list_find_Some. repeat split; [done|]. intros j y Hy Hj. destruct (Hlt j Hj) as [x Hx]. congruence.
Qed.

Lemma first_free (r : fdtab) i : r !! i = Some None ->
  exists k, (k <= i)%nat /\ r !! k = Some None /\ forall j, (j < k)%nat -> exists x, r !! j = Some (Some x).
Proof.
  intros Hi. destruct (list_find (fun x : option fobj => x = None) r) as [[k x]|] eqn:E.
  - apply list_find_Some in E as (Hk & -> & Hlt). exists k. repeat split; [|done|].
    + destruct (decide (k <= i)%nat); [done|]. by destruct (Hlt i None Hi ltac:(lia)).
    + intros j Hj. destruct (r !! j) as [[y|]|] eqn:Ej; [by exists y|by destruct (Hlt j None Ej Hj)|].
      apply lookup_ge_None in Ej. apply lookup_lt_Some in Hk. lia.
  - apply list_find_None in E. rewrite Forall_lookup in E. by destruct (E i None Hi).
Qed.

Lemma std_cons o0 o1 r t : std (Some o0 :: Some o1 :: r) -> forall o0' o1', t = Some o0' :: Some o1' :: r -> std t.
Proof. intros (? & ? & ? & i & j & [= _ _ <-] & H) o0' o1' ->. by exists o0', o1', r, i, j. Qed.

(** The descriptors of the two sides of a pipe. *)
Lemma pipe_plumbing t np : std t ->
  exists p0 p1 t1 t2, fd_new (FRead np) t = Some (p0, t1) /\ fd_new (FWrite np) t1 = Some (p1, t2) /\
    fd_close p1 (fd_close p0 (fd_dup p1 (fd_close 1 t2))) = <[1%nat := Some (FWrite np)]> t /\
    fd_close p1 (fd_close p0 (fd_dup p0 (fd_close 0 t2))) = <[0%nat := Some (FRead np)]> t.
Proof.
  intros (o0 & o1 & r & i & j & -> & Hij & Hi & Hj). destruct (first_free r i Hi) as (a & Hai & Ha & Hlt).
  destruct (first_free (<[a := Some (FRead np)]> r) j) as (b & Hbj & Hb & Hlt2); [rewrite list_lookup_insert_ne by lia; done|].
  assert (Hab : a <> b). { intros ->. rewrite list_lookup_insert_eq in Hb; [done|]. by eapply lookup_lt_Some. }
  assert (Hb' : r !! b = Some None) by (rewrite list_lookup_insert_ne in Hb by done; done).
  set (r2 := <[b := Some (FWrite np)]> (<[a := Some (FRead np)]> r)). pose proof (lookup_lt_Some _ _ _ Ha). pose proof (lookup_lt_Some _ _ _ Hb').
  assert (E2a : r2 !! a = Some (Some (FRead np))) by (unfold r2; by rewrite list_lookup_insert_ne, list_lookup_insert_eq).
  assert (E2b : r2 !! b = Some (Some (FWrite np))) by (unfold r2; by rewrite list_lookup_insert_eq by (by rewrite length_insert)).
  assert (Hback : <[b := None]> (<[a := None]> r2) = r).
  { unfold r2. rewrite (list_insert_insert_ne _ a b) by done. rewrite !list_insert_insert_eq.
    by rewrite !list_insert_id by (rewrite ?list_lookup_insert_ne; done). }
  exists (2 + a)%nat, (2 + b)%nat, (Some o0 :: Some o1 :: <[a := Some (FRead np)]> r), (Some o0 :: Some o1 :: r2).
  split; [|split; [|split]].
  - rewrite (fd_new_at _ _ (2 + a)); [done|done|]. intros [|[|k]] Hk; cbn; [by eexists..|]. apply Hlt. lia.
  - rewrite (fd_new_at _ _ (2 + b)); [done|done|]. intros [|[|k]] Hk; cbn; [by eexists..|]. apply Hlt2. lia.
  - unfold fd_dup, fd_close. change (<[1%nat := None]> (Some o0 :: Some o1 :: r2)) with (Some o0 :: None :: r2).
    assert ((Some o0 :: None :: r2) !! (2 + b)%nat = Some (Some (FWrite np))) as -> by exact E2b.
    rewrite (fd_new_at _ _ 1); [by rewrite <- Hback|done|]. intros [|k] Hk; [by eexists|lia].
  - unfold fd_dup, fd_close. change (<[0%nat := None]> (Some o0 :: Some o1 :: r2)) with (None :: Some o1 :: r2).
    assert ((None :: Some o1 :: r2) !! (2 + a)%nat = Some (Some (FRead np))) as -> by exact E2a.
    rewrite (fd_new_at _ _ 0); [by rewrite <- Hback|done|]. lia.
Qed.

Fixpoint redirs_std (c : cmd (list Z)) : Prop :=
  match c with
  | EXEC _ => True
  | REDIR c _ _ fd => (fd = 0 \/ fd = 1) /\ redirs_std c
  | PIPE l r => redirs_std l /\ redirs_std r
  | LIST l r => redirs_std l /\ redirs_std r
  | BACK c => redirs_std c
  end.

Lemma std_insert t i o : std t -> (i < 2)%nat -> std (<[i := Some o]> t).
Proof.
  intros (o0 & o1 & r & a & b & -> & H) Hi. destruct i as [|[|i]]; [| |lia]; [exists o, o1|exists o0, o]; by exists r, a, b.
Qed.

Lemma runcmd_meaning_eq c : redirs_std c -> forall t np, std t -> runcmd c t np = meaning c t np.
Proof.
  induction c as [[|w a]|c IH f m fd|l IHl r IHr|l IHl r IHr|c IH]; cbn [runcmd meaning redirs_std]; [done|done|..].
  - intros [Hfd Hc] t np Ht. destruct (can_open f m); [|done].
    assert (E : fd_new (FFile f m) (fd_close (Z.to_nat fd) t) = Some (Z.to_nat fd, <[Z.to_nat fd := Some (FFile f m)]> t)).
    { destruct Ht as (o0 & o1 & r & a & b & -> & _). destruct Hfd as [-> | ->].
      - change (Z.to_nat 0) with 0%nat. by rewrite (fd_new_at _ _ 0); [|done|lia].
      - change (Z.to_nat 1) with 1%nat. rewrite (fd_new_at _ _ 1); [done|done|]. intros [|k] Hk; [by eexists|lia]. }
    rewrite E. cbn. apply IH; [done|]. apply std_insert; [done|]. destruct Hfd as [-> | ->]; cbn; lia.
  - intros [Hl Hr] t np Ht. destruct (pipe_plumbing t np Ht) as (p0 & p1 & t1 & t2 & -> & -> & -> & ->).
    rewrite IHl, IHr by (done || by apply std_insert; [|lia]). done.
  - intros [Hl Hr] t np Ht. by rewrite IHl, IHr.
  - intros Hc t np Ht. by apply IH.
Qed.

(** C26: a command runs as it reads.  With standard input and output open and
    two descriptors free, the closes, opens, pipes and dups of [runcmd] give
    every program of the command exactly the descriptors the command means:
    those of the shell, with a redirected one replaced by its file, and in a
    pipeline output and input replaced by the two ends of a fresh pipe; no
    other descriptor is left behind. *)
Theorem runcmd_meaning c t np (Hc : redirs_std c) (Ht : std t) : runcmd c t np = meaning c t np.
Proof. by apply runcmd_meaning_eq. Qed.
End Run.

(** [a < f | b] with the console on 0, 1 and 2. *)
Lemma runcmd_meaning_witness :
  let a := [removelast (lit "a")] in let b := [removelast (lit "b")] in let f := removelast (lit "f") in
  let t := [Some (FOther 0); Some (FOther 0); Some (FOther 0)] ++ replicate 13 None in
  runcmd (fun _ _ => true) (PIPE (REDIR (EXEC a) f O_RDONLY 0) (EXEC b)) t 7 =
  ([(a, [Some (FFile f O_RDONLY); Some (FWrite 7); Some (FOther 0)] ++ replicate 13 None);
    (b, [Some (FRead 7); Some (FOther 0); Some (FOther 0)] ++ replicate 13 None)], 8%nat).
Proof.
  intros a b f t. refine (runcmd_meaning (fun _ _ => true) (PIPE (REDIR (EXEC a) f O_RDONLY 0) (EXEC b)) t 7 _ _).
  - repeat split. by left.
  - exists (FOther 0), (FOther 0), (Some (FOther 0) :: replicate 13 None), 1%nat, 2%nat. repeat split. lia.
Defined.
