(* ===== verification/Console.v ===== *)
(** The console, console.c: the line editor behind [consoleintr] and
    [consoleread], the screen of [cgaputc], and the output of [cprintf].

    Every function here runs under the console's lock, which [consoleread]
    gives up only while it sleeps: [consoleread_run] goes from its entry, or
    from a wakeup, to its return or to the next [sleep]. *)
From stdpp Require Import base numbers list strings.
From Stdlib Require Import ZArith Lia.
From S2P Require Import Prelude CString.

Local Open Scope list_scope.
Local Open Scope Z_scope.

(** ** Input *)

Definition INPUT_BUF : Z := 128.
Definition BACKSPACE : Z := 256.
(** [C('P')], [C('U')], [C('H')], [C('D')]. *)
Definition CtrlP : Z := 16.
Definition CtrlU : Z := 21.
Definition CtrlH : Z := 8.
Definition CtrlD : Z := 4.
Definition DEL : Z := 127.
Definition CR : Z := 13.
Definition LF : Z := 10.

Record input := Input { in_buf : list Z; in_r : Z; in_w : Z; in_e : Z }.
Definition input0 : input := Input (replicate 128 0) 0 0 0.

Definition slot_of (k : Z) : nat := Z.to_nat (k mod INPUT_BUF).
Definition peek_at (i : input) (k : Z) : Z := nthd 0 (in_buf i) (slot_of k).

(** What a call puts on the screen, and whether it wakes the readers. *)
Record reply := Reply { echo : list Z; wakes : bool }.

(** Kill line: at most the whole buffer. *)
Fixpoint kill_line (fuel : nat) (i : input) : list Z * input :=
  match fuel with
  | O => ([], i)
  | S f =>
      if negb (in_e i =? in_w i) && negb (peek_at i (u32 (in_e i - 1)) =? LF) then
        let r := kill_line f (Input (in_buf i) (in_r i) (in_w i) (u32 (in_e i - 1))) in
        (BACKSPACE :: r.1, r.2)
      else ([], i)
  end.

(** One character of the loop of [consoleintr]. *)
Definition consoleintr (c : Z) (i : input) : reply * input :=
  if c =? CtrlP then (Reply [] false, i)
  else if c =? CtrlU then let r := kill_line 128 i in (Reply r.1 false, r.2)
  else if (c =? CtrlH) || (c =? DEL) then
    if negb (in_e i =? in_w i) then (Reply [BACKSPACE] false, Input (in_buf i) (in_r i) (in_w i) (u32 (in_e i - 1)))
    else (Reply [] false, i)
  else if negb (c =? 0) && (u32 (in_e i - in_r i) <? INPUT_BUF) then
    let c := if c =? CR then LF else c in
    let i1 := Input (<[slot_of (in_e i) := u8 c]> (in_buf i)) (in_r i) (in_w i) (u32 (in_e i + 1)) in
    if (c =? LF) || (c =? CtrlD) || (in_e i1 =? u32 (in_r i1 + INPUT_BUF))
    then (Reply [c] true, Input (in_buf i1) (in_r i1) (in_e i1) (in_e i1))
    else (Reply [c] false, i1)
  else (Reply [] false, i).

(** A segment of [consoleread] with [n] bytes still to read and [dst] read. *)
Inductive cres := CSleep (n : Z) (dst : list Z) | CDone (r : Z) (dst : list Z).
Fixpoint consoleread_loop (fuel : nat) (killed : bool) (target n : Z) (dst : list Z) (i : input) : cres * input :=
  match fuel with
  | O => (CDone (target - n) dst, i)
  | S f =>
      if 0 <? n then
        if in_r i =? in_w i then (if killed then CDone (-1) dst else CSleep n dst, i)
        else
          let c := peek_at i (in_r i) in
          let i1 := Input (in_buf i) (u32 (in_r i + 1)) (in_w i) (in_e i) in
          if c =? CtrlD then
            (CDone (target - n) dst, if n <? target then Input (in_buf i) (u32 (in_r i1 - 1)) (in_w i) (in_e i) else i1)
          else if c =? LF then (CDone (target - (n - 1)) (dst ++ [c]), i1)
          else consoleread_loop f killed target (n - 1) (dst ++ [c]) i1
      else (CDone (target - n) dst, i)
  end.
Definition consoleread_run (killed : bool) (target n : Z) (dst : list Z) (i : input) : cres * input :=
  consoleread_loop (S (Z.to_nat n)) killed target n dst i.

(** ** The line editor it implements *)

(** The lines entered and not yet read, and the line being typed. *)
Record line := Line { entered : list Z; typed : list Z }.

Definition key (c : Z) (l : line) : reply * line :=
  if c =? CtrlP then (Reply [] false, l)
  else if c =? CtrlU then (Reply (replicate (length (typed l)) BACKSPACE) false, Line (entered l) [])
  else if (c =? CtrlH) || (c =? DEL) then
    if bool_decide (typed l = []) then (Reply [] false, l) else (Reply [BACKSPACE] false, Line (entered l) (removelast (typed l)))
  else if negb (c =? 0) && Nat.ltb (length (entered l ++ typed l)) 128 then
    let c := if c =? CR then LF else c in
    if (c =? LF) || (c =? CtrlD) || Nat.eqb (length (entered l ++ typed l)) 127
    then (Reply [c] true, Line (entered l ++ typed l ++ [c]) [])
    else (Reply [c] false, Line (entered l) (typed l ++ [c]))
  else (Reply [] false, l).

Fixpoint take_line (killed : bool) (target n : Z) (dst q : list Z) : cres * list Z :=
  if 0 <? n then
    match q with
    | [] => (if killed then CDone (-1) dst else CSleep n dst, [])
    | c :: q' =>
        if c =? CtrlD then (CDone (target - n) dst, if n <? target then q else q')
        else if c =? LF then (CDone (target - (n - 1)) (dst ++ [c]), q')
        else take_line killed target (n - 1) (dst ++ [c]) q'
    end
  else (CDone (target - n) dst, q).

(** ** The ring buffer *)

(** The buffer holds the bytes [q] from [in_r] on, the first [n] entered. *)
Record ring (i : input) (n : nat) (q : list Z) : Prop := Ring {
  rg_len : length (in_buf i) = 128%nat;
  rg_r : 0 <= in_r i < 2 ^ 32;
  rg_w : in_w i = u32 (in_r i + Z.of_nat n);
  rg_e : in_e i = u32 (in_r i + Z.of_nat (length q));
  rg_n : (n <= length q <= 128)%nat;
  rg_at : forall k x, q !! k = Some x -> in_buf i !! slot_of (in_r i + Z.of_nat k) = Some x
}.

Lemma u32_slot k : slot_of (u32 k) = slot_of k.
Proof.
  unfold slot_of, u32, INPUT_BUF. f_equal. apply Z.mod_mod_divide. by exists (2 ^ 25).
Qed.
Lemma slot_lt k : (slot_of k < 128)%nat.
Proof. unfold slot_of, INPUT_BUF. pose proof (Z.mod_pos_bound k 128). lia. Qed.

Lemma slot_ne r a b : 0 <= a < 128 -> 0 <= b < 128 -> a <> b -> slot_of (r + a) <> slot_of (r + b).
Proof.
  unfold slot_of, INPUT_BUF. intros Ha Hb Hne H. pose proof (Z.mod_pos_bound (r + a) 128). pose proof (Z.mod_pos_bound (r + b) 128).
  apply Z2Nat.inj in H; [|lia|lia]. pose proof (Z.div_mod (r + a) 128). pose proof (Z.div_mod (r + b) 128). nia.
Qed.

Lemma u32_diff r a b : 0 <= a <= 128 -> 0 <= b <= 128 -> u32 (r + a) = u32 (r + b) -> a = b.
Proof.
  unfold u32. intros Ha Hb H. pose proof (Z.div_mod (r + a) (2 ^ 32)). pose proof (Z.div_mod (r + b) (2 ^ 32)).
  pose proof (Z.mod_pos_bound (r + a) (2 ^ 32)). nia.
Qed.

Lemma u32_eqb r a b : 0 <= a <= 128 -> 0 <= b <= 128 -> (u32 (r + a) =? u32 (r + b)) = (a =? b).
Proof.
  intros Ha Hb. destruct (Z.eqb_spec a b) as [->|Hne]; [apply Z.eqb_refl|]. apply Z.eqb_neq. intros H. by apply Hne, (u32_diff r).
Qed.

Lemma ring_append i n q x : ring i n q -> (length q < 128)%nat ->
  ring (Input (<[slot_of (in_e i) := x]> (in_buf i)) (in_r i) (in_w i) (u32 (in_e i + 1))) n (q ++ [x]).
Proof.
  intros [L R W E N A] Hq. split; cbn; try done.
  - by rewrite length_insert.
  - rewrite E, u32_add_l, length_app. cbn. f_equal. lia.
  - rewrite length_app. cbn. lia.
  - intros k y Hk. rewrite E, u32_slot. destruct (decide (k = length q)) as [->|Hne].
    + rewrite lookup_app_r, Nat.sub_diag in Hk by lia. injection Hk as ->. apply list_lookup_insert_eq. rewrite L. apply slot_lt.
    + pose proof (lookup_lt_Some _ _ _ Hk) as Hlt. rewrite length_app in Hlt. cbn in Hlt. rewrite lookup_app_l in Hk by lia.
      rewrite list_lookup_insert_ne; [by apply A|]. apply slot_ne; lia.
Qed.

Lemma ring_unappend i n q x : ring i n (q ++ [x]) -> (n <= length q)%nat ->
  ring (Input (in_buf i) (in_r i) (in_w i) (u32 (in_e i - 1))) n q.
Proof.
  intros [L R W E N A] Hn. rewrite length_app in E, N. cbn in E, N. split; cbn; try done; [|lia|].
  - rewrite E. change (u32 (?a) - 1) with (u32 a + -1). rewrite u32_add_l. f_equal. lia.
  - intros k y Hk. apply A. by apply lookup_app_l_Some.
Qed.

Lemma ring_last i n q x : ring i n (q ++ [x]) -> peek_at i (u32 (in_e i - 1)) = x.
Proof.
  intros [L R W E N A]. rewrite length_app in E. cbn in E. unfold peek_at, nthd. rewrite u32_slot, E.
  change (u32 ?a - 1) with (u32 a + -1). rewrite <- u32_slot, u32_add_l, u32_slot.
  replace (in_r i + Z.of_nat (length q + 1) + -1) with (in_r i + Z.of_nat (length q)) by lia.
  rewrite (A (length q) x); [done|]. by rewrite lookup_app_r, Nat.sub_diag by lia.
Qed.

Lemma ring_commit i n q : ring i n q -> ring (Input (in_buf i) (in_r i) (in_e i) (in_e i)) (length q) q.
Proof. intros [L R W E N A]. split; cbn; try done. lia. Qed.

Lemma ring_next i n c q : ring i (S n) (c :: q) ->
  peek_at i (in_r i) = c /\ ring (Input (in_buf i) (u32 (in_r i + 1)) (in_w i) (in_e i)) n q.
Proof.
  intros [L R W E N A]. cbn in E, N. split.
  - unfold peek_at, nthd. specialize (A 0%nat c eq_refl). rewrite Z.add_0_r in A. by rewrite A.
  - split; cbn; try done; [apply u32_range| | |lia|].
    + rewrite W, u32_add_l. f_equal. lia.
    + rewrite E, u32_add_l. f_equal. lia.
    + intros k x Hk. rewrite <- u32_slot, u32_add_l, u32_slot. rewrite <- (A (S k) x Hk). do 2 f_equal. lia.
Qed.

Lemma ring_empty i n q : ring i n q -> (in_r i =? in_w i) = Nat.eqb n 0.
Proof.
  intros [L R W E N A]. rewrite W. pose proof (u32_eqb (in_r i) 0 (Z.of_nat n)) as H. rewrite Z.add_0_r, (u32_small (in_r i)) in H by lia.
  rewrite H by lia. destruct (Z.eqb_spec 0 (Z.of_nat n)), (Nat.eqb_spec n 0); try done; lia.
Qed.

Lemma ring_clean i n q : ring i n q -> (in_e i =? in_w i) = Nat.eqb (length q) n.
Proof.
  intros [L R W E N A]. rewrite W, E, u32_eqb by lia. destruct (Z.eqb_spec (Z.of_nat (length q)) (Z.of_nat n)), (Nat.eqb_spec (length q) n); try done; lia.
Qed.

(** ** The implementation refines the editor *)

Definition edits (i : input) (l : line) : Prop :=
  ring i (length (entered l)) (entered l ++ typed l) /\ LF ∉ typed l.

Lemma kill_line_spec fuel : forall i a t, ring i (length a) (a ++ t) -> LF ∉ t -> (length t <= fuel)%nat ->
  (kill_line fuel i).1 = replicate (length t) BACKSPACE /\ ring (kill_line fuel i).2 (length a) a.
Proof.
  induction fuel as [|f IH]; intros i a t Hr Hl Hf.
  { destruct t; [|cbn in Hf; lia]. rewrite app_nil_r in Hr. done. }
  cbn [kill_line]. rewrite (ring_clean _ _ _ Hr), length_app. destruct t as [|x t _] using rev_ind.
  { rewrite app_nil_r in Hr. rewrite (proj2 (Nat.eqb_eq _ _)) by (cbn; lia). done. }
  rewrite length_app in *. cbn [length] in *. rewrite (proj2 (Nat.eqb_neq _ _)) by lia. rewrite app_assoc in Hr.
  rewrite (ring_last _ _ _ _ Hr). destruct (Z.eqb_spec x LF) as [->|_]; [destruct Hl; apply elem_of_app; right; by left|]. cbn [negb andb].
  destruct (IH _ a t (ring_unappend _ _ _ _ Hr ltac:(rewrite length_app; lia))) as [E1 E2]; [|lia|].
  { intros H. apply Hl, elem_of_app. by left. }
  rewrite E1, Nat.add_1_r. done.
Qed.

Lemma ring_room i n q : ring i n q -> (u32 (in_e i - in_r i) <? INPUT_BUF) = Nat.ltb (length q) 128.
Proof.
  intros [_ R _ E N _]. rewrite E. unfold Z.sub. rewrite u32_add_l.
  replace (in_r i + Z.of_nat (length q) + - in_r i) with (Z.of_nat (length q)) by lia. rewrite u32_small by lia.
  unfold INPUT_BUF. destruct (Z.ltb_spec (Z.of_nat (length q)) 128), (Nat.ltb_spec (length q) 128); try done; lia.
Qed.

Lemma ring_full i n q : ring i n q -> (length q < 128)%nat -> (u32 (in_e i + 1) =? u32 (in_r i + INPUT_BUF)) = Nat.eqb (length q) 127.
Proof.
  intros [_ R _ E N _] Hq. rewrite E, u32_add_l, <- Z.add_assoc, u32_eqb by (unfold INPUT_BUF; lia). unfold INPUT_BUF.
  destruct (Z.eqb_spec (Z.of_nat (length q) + 1) 128), (Nat.eqb_spec (length q) 127); try done; lia.
Qed.

(** The four kinds of keys. *)
Lemma sim_kill i a t : edits i (Line a t) ->
  (kill_line 128 i).1 = replicate (length t) BACKSPACE /\ edits (kill_line 128 i).2 (Line a []).
Proof.
  intros [Hr Hl]. cbn [entered typed] in *. destruct (kill_line_spec 128 i a t Hr Hl) as [E1 E2].
  { destruct Hr as [_ _ _ _ N _]. rewrite length_app in N. lia. }
  split; [done|]. split; cbn [entered typed]; [by rewrite app_nil_r|apply not_elem_of_nil].
Qed.

Lemma sim_back i a x t : edits i (Line a (t ++ [x])) ->
  (in_e i =? in_w i) = false /\ edits (Input (in_buf i) (in_r i) (in_w i) (u32 (in_e i - 1))) (Line a t).
Proof.
  intros [Hr Hl]. cbn [entered typed] in *. rewrite (ring_clean _ _ _ Hr). rewrite app_assoc in Hr. split.
  - rewrite !length_app. cbn [length]. apply Nat.eqb_neq. lia.
  - split; cbn [entered typed]; [|intros H; apply Hl, elem_of_app; by left]. eapply ring_unappend; [done|]. rewrite length_app. lia.
Qed.

Lemma sim_char i a t d : edits i (Line a t) -> (length (a ++ t) < 128)%nat ->
  let i1 := Input (<[slot_of (in_e i) := d]> (in_buf i)) (in_r i) (in_w i) (u32 (in_e i + 1)) in
  (d <> LF -> edits i1 (Line a (t ++ [d]))) /\
  edits (Input (in_buf i1) (in_r i1) (in_e i1) (in_e i1)) (Line (a ++ t ++ [d]) []).
Proof.
  intros [Hr Hl] Hroom i1. cbn [entered typed] in *. pose proof (ring_append _ _ _ d Hr Hroom) as Hr1. fold i1 in Hr1.
  rewrite <- app_assoc in Hr1. split.
  - intros Hd. split; cbn [entered typed]; [done|]. intros [H|H]%elem_of_app; [done|]. by apply list_elem_of_singleton in H.
  - split; cbn [entered typed]; [|apply not_elem_of_nil]. apply ring_commit in Hr1. by rewrite app_nil_r.
Qed.

Lemma key_sim c i l : 0 <= c < 256 -> edits i l -> (consoleintr c i).1 = (key c l).1 /\ edits (consoleintr c i).2 (key c l).2.
Proof.
  intros Hc H. destruct l as [a t]. pose proof H as [Hr _]. cbn [entered typed] in Hr. unfold consoleintr, key. cbn [entered typed].
  destruct (c =? CtrlP); [done|]. destruct (c =? CtrlU).
  { destruct (sim_kill i a t H) as [E1 E2]. destruct (kill_line 128 i) as [e i']. cbn [fst snd] in *. by subst e. }
  destruct ((c =? CtrlH) || (c =? DEL)).
  { destruct t as [|x t _] using rev_ind.
    - rewrite bool_decide_true by done. rewrite (ring_clean _ _ _ Hr). rewrite app_nil_r, Nat.eqb_refl. done.
    - destruct (sim_back i a x t H) as [-> H']. rewrite bool_decide_false by (by destruct t). by rewrite removelast_last. }
  rewrite (ring_room _ _ _ Hr). destruct (c =? 0); [done|]. cbn [negb andb].
  destruct (Nat.ltb_spec (length (a ++ t)) 128) as [Hroom|]; [|done].
  set (d := if c =? CR then LF else c). assert (Hd : u8 d = d) by (unfold d, u8; destruct (c =? CR); [done|]; apply Z.mod_small; lia).
  rewrite Hd. destruct (sim_char i a t d H Hroom) as [H1 H2]. cbn [in_e in_r in_buf] in *. rewrite (ring_full _ _ _ Hr Hroom).
  destruct (Z.eqb_spec d LF) as [|Hne]; [by cbn|]. cbn [orb]. destruct ((d =? CtrlD) || _); [by cbn|]. cbn. split; [done|]. by apply H1.
Qed.

Lemma read_sim killed target fuel : forall n dst i a t,
  ring i (length a) (a ++ t) -> (Z.to_nat n < fuel)%nat ->
  let c := consoleread_loop fuel killed target n dst i in let r := take_line killed target n dst a in
  c.1 = r.1 /\ ring c.2 (length r.2) (r.2 ++ t).
Proof.
  induction fuel as [|f IH]; intros n dst i a t Hr Hf; [lia|]. cbn [consoleread_loop]. rewrite (ring_empty _ _ _ Hr).
  destruct a as [|c a]; cbn [take_line]; (destruct (Z.ltb_spec 0 n); [|done]).
  { cbn [length Nat.eqb fst snd]. done. }
  cbn [length Nat.eqb]. cbn [app length] in Hr. destruct (ring_next _ _ _ _ Hr) as [Ec Hr1]. rewrite Ec.
  destruct (c =? CtrlD).
  { cbn [fst snd in_r]. split; [done|]. destruct (n <? target); [|done].
    assert (u32 (u32 (in_r i + 1) - 1) = in_r i) as ->; [|by destruct i].
    unfold Z.sub. rewrite u32_add_l, <- Z.add_assoc, Z.add_0_r. apply u32_small. by destruct Hr. }
  destruct (c =? LF); [done|]. apply IH; [done|lia].
Qed.

(** Keys typed and segments of reads, in any order. *)
Inductive event := Key (c : Z) | Read (killed : bool) (target n : Z) (dst : list Z).
Inductive answer := AKey (r : reply) | ARead (r : cres).

Definition console_step (e : event) (i : input) : answer * input :=
  match e with
  | Key c => let r := consoleintr c i in (AKey r.1, r.2)
  | Read killed target n dst => let r := consoleread_run killed target n dst i in (ARead r.1, r.2)
  end.
Definition line_step (e : event) (l : line) : answer * line :=
  match e with
  | Key c => let r := key c l in (AKey r.1, r.2)
  | Read killed target n dst => let r := take_line killed target n dst (entered l) in (ARead r.1, Line r.2 (typed l))
  end.
Fixpoint run {T} (step : event -> T -> answer * T) (es : list event) (x : T) : list answer * T :=
  match es with
  | [] => ([], x)
  | e :: es' => let r := step e x in let q := run step es' r.2 in (r.1 :: q.1, q.2)
  end.

Definition is_byte_key (e : event) : Prop := match e with Key c => 0 <= c < 256 | Read _ _ _ _ => True end.

Lemma step_sim e i l : is_byte_key e -> edits i l ->
  (console_step e i).1 = (line_step e l).1 /\ edits (console_step e i).2 (line_step e l).2.
Proof.
  destruct e as [c|killed target n dst]; cbn [console_step line_step is_byte_key]; intros Hc H.
  - destruct (key_sim c i l Hc H) as [E1 E2]. destruct (consoleintr c i), (key c l). cbn [fst snd] in *. by subst.
  - destruct H as [Hr Hl]. destruct (read_sim killed target (S (Z.to_nat n)) n dst i (entered l) (typed l) Hr ltac:(lia)) as [E1 E2].
    unfold consoleread_run. cbn [fst snd]. split; [by rewrite E1|]. by split.
Qed.

Lemma edits_init : edits input0 (Line [] []).
Proof. split; [|apply not_elem_of_nil]. split; cbn; try done; lia. Qed.

Lemma run_sim es : forall i l, Forall is_byte_key es -> edits i l ->
  (run console_step es i).1 = (run line_step es l).1 /\ edits (run console_step es i).2 (run line_step es l).2.
Proof.
  induction es as [|e es IH]; intros i l Hb H; cbn [run]; [done|]. inversion Hb as [|? ? He Hes]; subst.
  destruct (step_sim e i l He H) as [E1 E2]. destruct (IH _ _ Hes E2) as [F1 F2]. cbn [fst snd]. by rewrite E1, F1.
Qed.

(** C30: the console is a line editor.  Whatever is typed and read, in any
    order, the 128-byte ring with its three wrapping indices shows the same
    echo, wakes readers at the same keys and gives them the same bytes as an
    editor that keeps the entered lines and the line being typed as two lists:
    backspace and kill-line never reach back into an entered line, a reader
    never sees an unfinished one, and no key is stored over an unread byte. *)
Theorem console_line_editor es (Hb : Forall is_byte_key es) :
  (run console_step es input0).1 = (run line_step es (Line [] [])).1 /\
  edits (run console_step es input0).2 (run line_step es (Line [] [])).2.
Proof. apply run_sim; [done|apply edits_init]. Qed.

(** "ab", backspace, "c", return; then a read of ten bytes. *)
Lemma console_line_editor_witness :
  let es := [Key 97; Key 98; Key 8; Key 99; Key 13; Read false 10 10 []] in
  (run console_step es input0).1 =
    [AKey (Reply [97] false); AKey (Reply [98] false); AKey (Reply [BACKSPACE] false); AKey (Reply [99] false); AKey (Reply [10] true);
     ARead (CDone 3 [97; 99; 10])].
Proof.
  intros es. refine (eq_trans (proj1 (console_line_editor es _)) _); [|vm_compute; reflexivity].
  repeat constructor; vm_compute; discriminate || reflexivity.
Defined.

(** ** The screen *)

Definition ROWS : Z := 24.
Definition CRTSIZE : nat := 2000.
Definition cell (c : Z) : Z := Z.lor (Z.land c 255) 1792.
Definition blank_cell : Z := Z.lor 32 1792.

(** CGA memory, 25 rows of 80 cells, and the cursor register. *)
Record screen := Screen { crt : list Z; cursor : Z }.

Local Open Scope kernel_scope.
Abbreviation V := (M screen).

(** A store outside the memory of the screen. *)
Definition crt_set (i x : Z) : V unit :=
  if (0 <=? i) && (i <? Z.of_nat CRTSIZE) then modify (fun s => Screen (<[Z.to_nat i := x]> (crt s)) (cursor s)) else panic "wild store".

Definition cgaputc (c : Z) : V unit :=
  pos ← gets cursor;
  pos ← (if c =? LF then ret (pos + (80 - pos mod 80))
         else if c =? BACKSPACE then ret (if 0 <? pos then pos - 1 else pos)
         else crt_set pos (cell c);; ret (pos + 1));
  if (pos <? 0) || (25 * 80 <? pos) then panic "pos under/overflow"
  else
    pos ← (if ROWS <=? pos / 80 then
             modify (fun s => Screen (take (23 * 80) (drop 80 (crt s)) ++ drop (23 * 80) (crt s)) (cursor s));;
             let pos := pos - 80 in
             modify (fun s => Screen (take (Z.to_nat pos) (crt s) ++ replicate (Z.to_nat (24 * 80 - pos)) 0 ++ drop (24 * 80) (crt s)) (cursor s));;
             ret pos
           else ret pos);
    modify (fun s => Screen (crt s) (u16 pos));;
    crt_set pos blank_cell.

Definition on_screen (s : screen) : Prop := length (crt s) = CRTSIZE /\ 0 <= cursor s < 1920.

(** Where the cursor goes, and the cells before scrolling. *)
Definition moved (c p : Z) : Z :=
  if c =? LF then p + (80 - p mod 80) else if c =? BACKSPACE then (if 0 <? p then p - 1 else p) else p + 1.
Definition typed_cells (c : Z) (s : screen) : list Z :=
  if (c =? LF) || (c =? BACKSPACE) then crt s else <[Z.to_nat (cursor s) := cell c]> (crt s).

Lemma moved_range c p : 0 <= p < 1920 -> 0 <= moved c p <= 1920.
Proof.
  intros Hp. unfold moved. destruct (c =? LF).
  - pose proof (Z.div_mod p 80 ltac:(lia)). pose proof (Z.mod_pos_bound p 80 ltac:(lia)). assert (p / 80 < 24) by (apply Z.div_lt_upper_bound; lia). lia.
  - destruct (c =? BACKSPACE); [destruct (Z.ltb_spec 0 p); lia|lia].
Qed.

Lemma crt_set_ok i x s : 0 <= i < 2000 -> crt_set i x s = Ok tt (Screen (<[Z.to_nat i := x]> (crt s)) (cursor s)).
Proof.
  intros Hi. unfold crt_set. change (Z.of_nat CRTSIZE) with 2000. destruct (Z.leb_spec 0 i), (Z.ltb_spec i 2000); try lia. done.
Qed.

(** The first step of [cgaputc]. *)
Lemma cga_type c s : on_screen s ->
  (if c =? LF then ret (cursor s + (80 - cursor s mod 80))
   else if c =? BACKSPACE then ret (if 0 <? cursor s then cursor s - 1 else cursor s)
   else crt_set (cursor s) (cell c);; ret (cursor s + 1)) s = Ok (moved c (cursor s)) (Screen (typed_cells c s) (cursor s)).
Proof.
  intros [Hl Hc]. unfold moved, typed_cells. destruct (c =? LF); [by destruct s|]. destruct (c =? BACKSPACE); [by destruct s|].
  unfold bind. by rewrite crt_set_ok by lia.
Qed.

Lemma typed_length c s : on_screen s -> length (typed_cells c s) = CRTSIZE.
Proof. intros [Hl _]. unfold typed_cells. destruct (_ || _); [done|]. by rewrite length_insert. Qed.

(** One row up. *)
Definition scrolled (cs : list Z) : list Z :=
  let l := take (23 * 80) (drop 80 cs) ++ drop (23 * 80) cs in take (Z.to_nat 1840) l ++ replicate (Z.to_nat (24 * 80 - 1840)) 0 ++ drop (24 * 80) l.

Lemma scrolled_spec cs : length cs = CRTSIZE ->
  length (scrolled cs) = CRTSIZE /\ forall j, (j < 1920)%nat -> scrolled cs !! j = if Nat.leb 1840 j then Some 0 else cs !! (j + 80)%nat.
Proof.
  intros Hl. unfold scrolled. set (l := take (23 * 80) (drop 80 cs) ++ drop (23 * 80) cs). unfold CRTSIZE in *.
  change (Z.to_nat (24 * 80 - 1840)) with 80%nat. change (Z.to_nat 1840) with 1840%nat. change (24 * 80)%nat with 1920%nat.
  assert (Hll : length l = 2000%nat) by (unfold l; rewrite length_app, length_take, !length_drop; lia).
  assert (Ht : length (take 1840 l) = 1840%nat) by (rewrite length_take; lia).
  split; [rewrite !length_app, Ht, length_replicate, length_drop; lia|]. intros j Hj. destruct (Nat.leb_spec 1840 j).
  - rewrite lookup_app_r, Ht, lookup_app_l by (rewrite ?length_replicate; lia). apply lookup_replicate_2. lia.
  - rewrite lookup_app_l, lookup_take_lt by lia. unfold l. rewrite lookup_app_l by (rewrite length_take, length_drop; lia).
    rewrite lookup_take_lt, lookup_drop by lia. f_equal. lia.
Qed.

Lemma cgaputc_run c s : on_screen s ->
  exists s', cgaputc c s = Ok tt s' /\ on_screen s' /\
    let p := moved c (cursor s) in
    let k := if 1920 <=? p then 80%nat else 0%nat in
    cursor s' = p - Z.of_nat k /\
    forall j, (j < 1920)%nat ->
      crt s' !! j = if Z.of_nat j =? cursor s' then Some blank_cell
                    else if (1920 <=? p) && (cursor s' <=? Z.of_nat j) then Some 0
                    else typed_cells c s !! (j + k)%nat.
Proof.
  intros Hs. pose proof Hs as [Hl Hc]. pose proof (moved_range c (cursor s) Hc) as Hm. pose proof (typed_length c s Hs) as Ht.
  unfold cgaputc. unfold bind at 1, gets at 1. unfold bind at 1. rewrite cga_type by done. set (p := moved c (cursor s)) in *.
  set (cs := typed_cells c s) in *. clearbody cs p. destruct (Z.ltb_spec p 0); [lia|]. destruct (Z.ltb_spec (25 * 80) p); [lia|]. cbn [orb].
  destruct (Z.leb_spec 1920 p) as [Hp|Hp].
  - assert (p = 1920) as -> by lia. change (ROWS <=? 1920 / 80) with true. destruct (scrolled_spec cs Ht) as [L A].
    exists (Screen (<[1840%nat := blank_cell]> (scrolled cs)) 1840). split; [|split; [split; cbn [crt cursor]; [by rewrite length_insert|lia]|split; [done|]]].
    { unfold bind, modify, ret. cbn [crt cursor]. fold (scrolled cs). change (u16 (1920 - 80)) with 1840. by rewrite crt_set_ok by lia. }
    intros j Hj. cbn [crt cursor andb]. destruct (Z.eqb_spec (Z.of_nat j) 1840) as [Ej|Ej].
    + assert (j = 1840%nat) as -> by lia. apply list_lookup_insert_eq. rewrite L. unfold CRTSIZE. lia.
    + rewrite list_lookup_insert_ne, A by lia. destruct (Nat.leb_spec 1840 j), (Z.leb_spec 1840 (Z.of_nat j)); done || lia.
  - assert ((ROWS <=? p / 80) = false) as ->. { apply Z.leb_gt. apply Z.div_lt_upper_bound; unfold ROWS; lia. }
    exists (Screen (<[Z.to_nat p := blank_cell]> cs) p). cbn [andb].
    split; [|split; [split; cbn [crt cursor]; [by rewrite length_insert|lia]|split; [cbn; lia|]]].
    { unfold bind, modify, ret. cbn [crt cursor]. rewrite crt_set_ok by lia. unfold u16. by rewrite Z.mod_small by lia. }
    intros j Hj. cbn [crt cursor]. destruct (Z.eqb_spec (Z.of_nat j) p) as [Ej|Ej].
    + assert (j = Z.to_nat p) as -> by lia. apply list_lookup_insert_eq. rewrite Ht. unfold CRTSIZE. lia.
    + rewrite list_lookup_insert_ne by lia. by rewrite Nat.add_0_r.
Qed.

Lemma cgaputc_total c s : on_screen s -> exists s', cgaputc c s = Ok tt s' /\ on_screen s'.
Proof. intros Hs. destruct (cgaputc_run c s Hs) as (s' & E & H & _). by exists s'. Qed.

(** C39: the screen.  With the cursor in the first 24 rows, [cgaputc] of any
    character returns: it does not panic and stores only into the memory of the
    screen.  The cursor moves on by a character, back by one, or to the next
    row; past the 24th row every row moves up by one and the last is cleared;
    no other cell changes, but for the blank under the cursor. *)
Theorem cgaputc_screen c s (Hs : on_screen s) :
  exists s', cgaputc c s = Ok tt s' /\ on_screen s' /\
    let p := moved c (cursor s) in
    let k := if 1920 <=? p then 80%nat else 0%nat in
    cursor s' = p - Z.of_nat k /\
    forall j, (j < 1920)%nat ->
      crt s' !! j = if Z.of_nat j =? cursor s' then Some blank_cell
                    else if (1920 <=? p) && (cursor s' <=? Z.of_nat j) then Some 0
                    else typed_cells c s !! (j + k)%nat.
Proof. by apply cgaputc_run. Qed.

(** A character in the last cell of the 24th row. *)
Definition smp_screen : screen := Screen (replicate CRTSIZE 0) 1919.
Lemma cgaputc_screen_witness : exists s', cgaputc 65 smp_screen = Ok tt s' /\ on_screen s' /\ cursor s' = 1840.
Proof.
  destruct (cgaputc_screen 65 smp_screen) as (s' & E & H & Hc & _); [split; [reflexivity|split; [discriminate|reflexivity]]|].
  exists s'. split; [exact E|]. split; [exact H|exact Hc].
Defined.

(** ** Output *)

(** The screen, the characters passed to [uartputc], and [panicked]. *)
Record output := Output { o_screen : screen; o_serial : list Z; panicked : bool }.

Definition send_uart (c : Z) : M output unit := modify (fun o => Output (o_screen o) (o_serial o ++ [c]) (panicked o)).

(** After a panic the processor stops here. *)
Definition consputc (c : Z) : M output unit :=
  p ← gets panicked;
  if p then blocked "panicked"
  else
    (if c =? BACKSPACE then send_uart 8;; send_uart 32;; send_uart 8 else send_uart c);;
    zoom o_screen (fun s o => Output s (o_serial o) (panicked o)) (cgaputc c).

(** The [n] bytes of [buf]; the lock of the inode is given up meanwhile. *)
Definition consolewrite (buf : list Z) (n : Z) : M output Z :=
  each (take (Z.to_nat n) buf) (fun c => consputc (Z.land c 255));;
  ret n.

(** What is passed to [uartputc] for a character. *)
Definition serial (c : Z) : list Z := if c =? BACKSPACE then [8; 32; 8] else [c].

Lemma consputc_wp c o : on_screen (o_screen o) -> panicked o = false ->
  wp (consputc c) (fun _ o' => on_screen (o_screen o') /\ o_serial o' = o_serial o ++ serial c /\ panicked o' = false) (fun _ => False) o.
Proof.
  intros Hs Hp. unfold consputc. apply wp_bind, wp_gets. rewrite Hp. apply wp_bind. unfold serial.
  destruct (cgaputc_total c (o_screen o) Hs) as (s' & E & Hs').
  destruct (c =? BACKSPACE); unfold wp, bind, send_uart, modify, zoom; cbn [o_screen o_serial panicked]; rewrite E; cbn [o_screen o_serial panicked];
    rewrite <- ?app_assoc; done.
Qed.

(** A write to the console returns [n]: every byte goes to the serial port, in
    order, and the screen. *)
Lemma consolewrite_wp buf n o : on_screen (o_screen o) -> panicked o = false -> 0 <= n <= Z.of_nat (length buf) ->
  wp (consolewrite buf n) (fun r o' => r = n /\ on_screen (o_screen o') /\ panicked o' = false /\
    o_serial o' = o_serial o ++ ((fun c => Z.land c 255) <$> take (Z.to_nat n) buf)) (fun _ => False) o.
Proof.
  intros Hs Hp Hn. unfold consolewrite. apply wp_bind. set (xs := take (Z.to_nat n) buf). clearbody xs.
  eapply wp_conseq.
  - apply (wp_each _ (fun ys o' => exists zs, xs = zs ++ ys /\ on_screen (o_screen o') /\ panicked o' = false /\
      o_serial o' = o_serial o ++ ((fun c => Z.land c 255) <$> zs))).
    + exists []. by rewrite app_nil_r.
    + intros x ys o' (zs & -> & H1 & H2 & H3). eapply wp_conseq; [by apply consputc_wp|]. cbv beta. intros _ o2 (G1 & G2 & G3).
      exists (zs ++ [x]). rewrite <- app_assoc. split; [done|]. split; [done|]. split; [done|]. rewrite G2, H3, fmap_app, <- app_assoc. f_equal. f_equal.
      unfold serial, BACKSPACE. destruct (Z.eqb_spec (Z.land x 255) 256) as [E|_]; [|done].
      change 255 with (Z.ones 8) in E. rewrite Z.land_ones in E by lia. pose proof (Z.mod_pos_bound x (2 ^ 8)). lia.
  - cbv beta. intros _ o' (zs & -> & H1 & H2 & H3). apply wp_ret. by rewrite app_nil_r.
Qed.
