(* ===== verification/Kbd.v ===== *)
(** The keyboard, kbd.c and kbd.h: from scan codes to the characters the
    console gets.

    The state is the variable [shift] of [kbdgetc]; the status and data
    bytes are what the two ports return. *)
From stdpp Require Import base numbers list strings.
From Stdlib Require Import ZArith Lia.
From S2P Require Import Prelude CString Console.

Local Open Scope list_scope.
Local Open Scope Z_scope.

Definition KBS_DIB : Z := 1.
Definition NO : Z := 0.
Definition SHIFT : Z := 1.
Definition CTL : Z := 2.
Definition ALT : Z := 4.
Definition CAPSLOCK : Z := 8.
Definition NUMLOCK : Z := 16.
Definition SCROLLLOCK : Z := 32.
Definition E0ESC : Z := 64.
Definition KEY_HOME : Z := 224.
Definition KEY_END : Z := 225.
Definition KEY_UP : Z := 226.
Definition KEY_DN : Z := 227.
Definition KEY_LF : Z := 228.
Definition KEY_RT : Z := 229.
Definition KEY_PGUP : Z := 230.
Definition KEY_PGDN : Z := 231.
Definition KEY_INS : Z := 232.
Definition KEY_DEL : Z := 233.

(** An array of 256 bytes: its first elements, and others by index. *)
Definition table (first : list Z) (at_ : list (Z * Z)) : list Z :=
  foldl (fun t p => <[Z.to_nat p.1 := u8 p.2]> t) (u8 <$> first ++ replicate (256 - length first) 0) at_.

Definition shiftcode : list Z := table
  []
  [(29, CTL); (42, SHIFT); (54, SHIFT); (56, ALT); (157, CTL); (184, ALT)].
Definition togglecode : list Z := table
  []
  [(58, CAPSLOCK); (69, NUMLOCK); (70, SCROLLLOCK)].
Definition normalmap : list Z := table
  [NO; 27; 49; 50; 51; 52; 53; 54;
   55; 56; 57; 48; 45; 61; 8; 9;
   113; 119; 101; 114; 116; 121; 117; 105;
   111; 112; 91; 93; 10; NO; 97; 115;
   100; 102; 103; 104; 106; 107; 108; 59;
   39; 96; NO; 92; 122; 120; 99; 118;
   98; 110; 109; 44; 46; 47; NO; 42;
   NO; 32; NO; NO; NO; NO; NO; NO;
   NO; NO; NO; NO; NO; NO; NO; 55;
   56; 57; 45; 52; 53; 54; 43; 49;
   50; 51; 48; 46; NO; NO; NO; NO]
  [(156, 10); (181, 47); (200, KEY_UP); (208, KEY_DN); (201, KEY_PGUP); (209, KEY_PGDN);
   (203, KEY_LF); (205, KEY_RT); (151, KEY_HOME); (207, KEY_END); (210, KEY_INS); (211, KEY_DEL)].
Definition shiftmap : list Z := table
  [NO; 27; 33; 64; 35; 36; 37; 94;
   38; 42; 40; 41; 95; 43; 8; 9;
   81; 87; 69; 82; 84; 89; 85; 73;
   79; 80; 123; 125; 10; NO; 65; 83;
   68; 70; 71; 72; 74; 75; 76; 58;
   34; 126; NO; 124; 90; 88; 67; 86;
   66; 78; 77; 60; 62; 63; NO; 42;
   NO; 32; NO; NO; NO; NO; NO; NO;
   NO; NO; NO; NO; NO; NO; NO; 55;
   56; 57; 45; 52; 53; 54; 43; 49;
   50; 51; 48; 46; NO; NO; NO; NO]
  [(156, 10); (181, 47); (200, KEY_UP); (208, KEY_DN); (201, KEY_PGUP); (209, KEY_PGDN);
   (203, KEY_LF); (205, KEY_RT); (151, KEY_HOME); (207, KEY_END); (210, KEY_INS); (211, KEY_DEL)].
(** [C('/')] is negative: it is stored as 239. *)
Definition ctlmap : list Z := table
  [NO; NO; NO; NO; NO; NO; NO; NO;
   NO; NO; NO; NO; NO; NO; NO; NO;
   17; 23; 5; 18; 20; 25; 21; 9;
   15; 16; NO; NO; 13; NO; 1; 19;
   4; 6; 7; 8; 10; 11; 12; NO;
   NO; NO; NO; 28; 26; 24; 3; 22;
   2; 14; 13; NO; NO; 47 - 64; NO; NO]
  [(156, 13); (181, 47 - 64); (200, KEY_UP); (208, KEY_DN); (201, KEY_PGUP); (209, KEY_PGDN);
   (203, KEY_LF); (205, KEY_RT); (151, KEY_HOME); (207, KEY_END); (210, KEY_INS); (211, KEY_DEL)].

Definition charcode (k : Z) : list Z := if k =? 0 then normalmap else if k =? 1 then shiftmap else ctlmap.
(** An element of an array, [None] outside of it. *)
Definition code_at (t : list Z) (i : Z) : option Z := t !! Z.to_nat i.
Definition no_bit (x b : Z) : Z := Z.land x (Z.lnot b).

(** [kbdgetc] with the status [st], the data [data] and the variable [shift]:
    what it returns and the new [shift].  [None] is an access outside of an
    array. *)
Definition kbdgetc (st data shift : Z) : option (Z * Z) :=
  if Z.land st KBS_DIB =? 0 then Some (-1, shift)
  else if data =? 224 then Some (0, Z.lor shift E0ESC)
  else if negb (Z.land data 128 =? 0) then
    let data := if negb (Z.land shift E0ESC =? 0) then data else Z.land data 127 in
    s ← code_at shiftcode data;
    Some (0, no_bit shift (Z.lor s E0ESC))
  else
    let esc := negb (Z.land shift E0ESC =? 0) in
    let data := if esc then Z.lor data 128 else data in
    let shift := if esc then no_bit shift E0ESC else shift in
    s ← code_at shiftcode data;
    let shift := Z.lor shift s in
    t ← code_at togglecode data;
    let shift := Z.lxor shift t in
    c ← code_at (charcode (Z.land shift (Z.lor CTL SHIFT))) data;
    let c :=
      if negb (Z.land shift CAPSLOCK =? 0) then
        if (97 <=? c) && (c <=? 122) then c + (65 - 97)
        else if (65 <=? c) && (c <=? 90) then c + (97 - 65)
        else c
      else c in
    Some (c, shift).

(** The loop of [consoleintr] over the scan codes waiting in the controller. *)
Fixpoint kbdintr (codes : list Z) (shift : Z) (i : input) : option (list reply * Z * input) :=
  match codes with
  | [] => Some ([], shift, i)
  | data :: codes' =>
      '(c, shift) ← kbdgetc KBS_DIB data shift;
      let r := consoleintr c i in
      '(rs, shift, i) ← kbdintr codes' shift r.2;
      Some (r.1 :: rs, shift, i)
  end.

(** ** What it means *)

Definition held (shift b : Z) : bool := negb (Z.land shift b =? 0).

(** The scan codes of the letters. *)
Definition letters : list (Z * Z) :=
  [(16, 113); (17, 119); (18, 101); (19, 114); (20, 116); (21, 121); (22, 117); (23, 105); (24, 111); (25, 112);
   (30, 97); (31, 115); (32, 100); (33, 102); (34, 103); (35, 104); (36, 106); (37, 107); (38, 108);
   (44, 122); (45, 120); (46, 99); (47, 118); (48, 98); (49, 110); (50, 109)].

(** The character of a letter key: its control code with Ctrl, whatever the
    other keys; else the capital when just one of Shift and Caps Lock is on. *)
Definition letter (shift l : Z) : Z :=
  if held shift CTL then l - 96 else if xorb (held shift SHIFT) (held shift CAPSLOCK) then l - 32 else l.

(** What one scan code does. *)
Definition decodes (shift data : Z) (r : Z * Z) : Prop :=
  (0 <= r.1 < 256 /\ 0 <= r.2 < 128) /\
  (held shift E0ESC = false -> Forall (fun kl => data = kl.1 -> r = (letter shift kl.2, shift)) letters) /\
  (held shift E0ESC = false -> data = 42 \/ data = 54 -> r = (NO, Z.lor shift SHIFT)) /\
  (held shift E0ESC = false -> data = 42 + 128 \/ data = 54 + 128 -> r = (NO, no_bit shift SHIFT)) /\
  (data = 29 -> r = (NO, Z.lor (no_bit shift E0ESC) CTL)) /\
  (data = 29 + 128 -> r = (NO, no_bit (no_bit shift E0ESC) CTL)) /\
  (held shift E0ESC = false -> data = 58 -> r = (NO, Z.lxor shift CAPSLOCK)).

#[local] Instance decodes_dec shift data r : Decision (decodes shift data r).
Proof. unfold decodes. apply _. Defined.

Definition decoded (shift data : Z) : bool :=
  match kbdgetc KBS_DIB data shift with Some r => bool_decide (decodes shift data r) | None => false end.

Lemma decoded_all : forallb (fun shift => forallb (fun data => decoded shift data) (seqZ 0 256)) (seqZ 0 128) = true.
Proof. vm_compute. reflexivity. Qed.

Lemma kbdgetc_ok shift data : 0 <= shift < 128 -> 0 <= data < 256 -> exists r, kbdgetc KBS_DIB data shift = Some r /\ decodes shift data r.
Proof.
  intros Hs Hd. pose proof decoded_all as H. rewrite forallb_forall in H.
  specialize (H shift ltac:(apply list_elem_of_In, elem_of_seqZ; lia)). rewrite forallb_forall in H.
  specialize (H data ltac:(apply list_elem_of_In, elem_of_seqZ; lia)). unfold decoded in H.
  destruct (kbdgetc KBS_DIB data shift) as [r|]; [|done]. exists r. split; [done|]. by apply bool_decide_eq_true in H.
Qed.

(** The characters [cs] of the scan codes [ds], from one state of the shift
    keys to the next. *)
Inductive decoding : Z -> list Z -> list Z -> Z -> Prop :=
| dec_nil s : decoding s [] [] s
| dec_cons s d ds c s1 cs s2 : decodes s d (c, s1) -> decoding s1 ds cs s2 -> decoding s (d :: ds) (c :: cs) s2.

Lemma kbdintr_run codes : forall shift i l, 0 <= shift < 128 -> Forall (fun d => 0 <= d < 256) codes -> edits i l ->
  exists cs s rs i', kbdintr codes shift i = Some (rs, s, i') /\ decoding shift codes cs s /\
    AKey <$> rs = (run line_step (Key <$> cs) l).1 /\ edits i' (run line_step (Key <$> cs) l).2.
Proof.
  induction codes as [|d codes IH]; intros shift i l Hs Hd He.
  { exists [], shift, [], i. split; [done|]. split; [constructor|]. done. }
  inversion Hd as [|? ? Hd1 Hd2]; subst. destruct (kbdgetc_ok shift d Hs Hd1) as ([c s1] & E & Hdec). pose proof Hdec as [[Hc Hs1] _]. cbn [fst snd] in Hc, Hs1.
  destruct (key_sim c i l Hc He) as [E1 E2]. destruct (IH s1 (consoleintr c i).2 (key c l).2 Hs1 Hd2 E2) as (cs & s & rs & i' & R & D & A & F).
  exists (c :: cs), s, ((consoleintr c i).1 :: rs), i'. cbn [kbdintr]. rewrite E. cbn [mbind option_bind]. rewrite R. split; [done|].
  split; [by apply (dec_cons shift d codes c s1)|]. cbn [fmap list_fmap run line_step fst snd]. rewrite E1. split; [f_equal; exact A|exact F].
Qed.

(** C40: every scan code, in every state of the shift keys, is decoded
    within the five tables; the character is a byte.  A letter key gives its
    control code with Ctrl, and else the capital when exactly one of Shift and
    Caps Lock is on; Shift and Ctrl hold from press to release, on both sides of
    the keyboard, and Caps Lock changes at every press. *)
Theorem kbdgetc_decodes shift data (Hs : 0 <= shift < 128) (Hd : 0 <= data < 256) :
  exists r, kbdgetc KBS_DIB data shift = Some r /\ decodes shift data r.
Proof. by apply kbdgetc_ok. Qed.

(** From the keyboard to the line.  Whatever scan codes arrive, the
    keyboard interrupt decodes each of them and the console answers as the line
    editor does on the characters, with the line being typed in its buffer. *)
Theorem kbdintr_edits codes (Hd : Forall (fun d => 0 <= d < 256) codes) :
  exists cs s rs i, kbdintr codes 0 input0 = Some (rs, s, i) /\ decoding 0 codes cs s /\
    AKey <$> rs = (run line_step (Key <$> cs) (Line [] [])).1 /\ edits i (run line_step (Key <$> cs) (Line [] [])).2.
Proof. apply kbdintr_run; [lia|done|apply edits_init]. Qed.

(** [C('/')] does not fit the control characters. *)
Lemma ctl_slash : kbdgetc KBS_DIB 53 CTL = Some (239, CTL).
Proof. vm_compute. reflexivity. Qed.

Lemma kbdgetc_decodes_witness : exists r, kbdgetc KBS_DIB 30 (CAPSLOCK + SHIFT) = Some r /\ r = (97, CAPSLOCK + SHIFT).
Proof.
  destruct (kbdgetc_decodes (CAPSLOCK + SHIFT) 30) as (r & E & _ & H & _); [split; [discriminate|reflexivity]..|].
  exists r. split; [exact E|]. specialize (H eq_refl). rewrite Forall_forall in H.
  exact (H (30, 97) ltac:(apply (list_elem_of_lookup_2 _ 10); reflexivity) eq_refl).
Defined.

(** Shift, "a", release Shift, "b", Return. *)
Lemma kbdintr_edits_witness : exists cs s rs i, kbdintr [42; 30; 170; 48; 28] 0 input0 = Some (rs, s, i) /\ decoding 0 [42; 30; 170; 48; 28] cs s.
Proof.
  destruct (kbdintr_edits [42; 30; 170; 48; 28]) as (cs & s & rs & i & E & D & _).
  - repeat constructor; (discriminate || reflexivity).
  - exists cs, s, rs, i. exact (conj E D).
Defined.
