(* ===== verification/Printf.v ===== *)
(** Formatted output: [printint] and [cprintf] of console.c, [printint] and
    [printf] of printf.c.

    The output is the list of the characters passed to [consputc] or [putc].
    The arguments after the format are the words on the stack, [args k] being
    the [k]-th; [str a] is the string at the address [a]. *)
From stdpp Require Import base numbers list strings.
From Stdlib Require Import ZArith Lia.
From S2P Require Import Prelude CString.

Local Open Scope list_scope.
Local Open Scope Z_scope.

Definition MINUS : Z := 45.
Definition PERCENT : Z := 37.

(** ** Numbers *)

(** [digits[d]] of console.c ([upper] false) and of printf.c ([upper] true). *)
Definition digit (upper : bool) (d : Z) : Z := if d <? 10 then 48 + d else (if upper then 55 else 87) + d.

(** The bytes of [buf], least significant digit first; 32 turns are enough for
    every 32-bit number. *)
Fixpoint digits_loop (fuel : nat) (upper : bool) (base x : Z) : list Z :=
  match fuel with
  | O => []
  | S f => digit upper (x mod base) :: (if x / base =? 0 then [] else digits_loop f upper base (x / base))
  end.

Definition printint (upper : bool) (xx base : Z) (sign : bool) : list Z :=
  let neg := sign && (xx <? 0) in
  let x := if neg then u32 (- xx) else u32 xx in
  let buf := digits_loop 32 upper base x ++ (if neg then [MINUS] else []) in
  rev buf.

(** ** Formats *)

Section Print.
Context (args : nat -> Z) (str : Z -> list Z).

Definition string_arg (a : Z) : list Z := if a =? 0 then (fun c => Z.of_N (Ascii.N_of_ascii c)) <$> String.list_ascii_of_string "(null)" else str a.

(** [cprintf], from [fmt[i]] with the argument pointer at [ap]. *)
Fixpoint cprintf_loop (fmt : list Z) (ap : nat) : list Z :=
  match fmt with
  | [] => []
  | c :: f1 =>
      if negb (c =? PERCENT) then c :: cprintf_loop f1 ap
      else
        match f1 with
        | [] => []
        | c :: f2 =>
            if c =? 100 then printint false (i32 (args ap)) 10 true ++ cprintf_loop f2 (S ap)
            else if (c =? 120) || (c =? 112) then printint false (i32 (args ap)) 16 false ++ cprintf_loop f2 (S ap)
            else if c =? 115 then string_arg (args ap) ++ cprintf_loop f2 (S ap)
            else if c =? PERCENT then PERCENT :: cprintf_loop f2 ap
            else PERCENT :: c :: cprintf_loop f2 ap
        end
  end.
Definition cprintf (fmt : list Z) : list Z := cprintf_loop fmt 0.

(** [printf]: its [state] is 0 ([false]) or ['%'] ([true]). *)
Fixpoint printf_loop (fmt : list Z) (state : bool) (ap : nat) : list Z :=
  match fmt with
  | [] => []
  | c :: f1 =>
      if negb state then
        if c =? PERCENT then printf_loop f1 true ap else c :: printf_loop f1 false ap
      else
        if c =? 100 then printint true (i32 (args ap)) 10 true ++ printf_loop f1 false (S ap)
        else if (c =? 120) || (c =? 112) then printint true (i32 (args ap)) 16 false ++ printf_loop f1 false (S ap)
        else if c =? 115 then string_arg (args ap) ++ printf_loop f1 false (S ap)
        else if c =? 99 then u8 (args ap) :: printf_loop f1 false (S ap)
        else if c =? PERCENT then c :: printf_loop f1 false ap
        else PERCENT :: c :: printf_loop f1 false ap
  end.
Definition printf (fmt : list Z) : list Z := printf_loop fmt false 0.
End Print.

(** ** The value of printed digits *)

Definition value_of (c : Z) : Z := if c <? 65 then c - 48 else if c <? 97 then c - 55 else c - 87.
Definition number (base : Z) (ds : list Z) : Z := foldl (fun n c => n * base + value_of c) 0 ds.

Lemma digit_value upper d : 0 <= d < 16 -> value_of (digit upper d) = d.
Proof.
  intros Hd. unfold digit, value_of. destruct (Z.ltb_spec d 10).
  - destruct (Z.ltb_spec (48 + d) 65); lia.
  - destruct upper; [destruct (Z.ltb_spec (55 + d) 65), (Z.ltb_spec (55 + d) 97)|destruct (Z.ltb_spec (87 + d) 65), (Z.ltb_spec (87 + d) 97)]; lia.
Qed.

Lemma number_snoc base ds c : number base (ds ++ [c]) = number base ds * base + value_of c.
Proof. unfold number. by rewrite foldl_app. Qed.

(** Enough turns: the digits denote the number, and there are no more than its size needs. *)
Lemma digits_loop_value upper base fuel : 2 <= base <= 16 -> forall x, 0 <= x < base ^ Z.of_nat fuel -> (0 < fuel)%nat ->
  number base (rev (digits_loop fuel upper base x)) = x.
Proof.
  intros Hb. induction fuel as [|f IH]; intros x Hx Hf; [lia|]. cbn [digits_loop rev]. rewrite number_snoc.
  pose proof (Z.mod_pos_bound x base ltac:(lia)). rewrite digit_value by lia. pose proof (Z.div_mod x base ltac:(lia)).
  destruct (Z.eqb_spec (x / base) 0) as [E|E]; [cbn; lia|]. rewrite Nat2Z.inj_succ, Z.pow_succ_r in Hx by lia.
  assert (0 <= x / base < base ^ Z.of_nat f) by (split; [apply Z.div_pos; lia|apply Z.div_lt_upper_bound; lia]).
  destruct f as [|f]; [cbn in *; lia|]. rewrite IH by lia. lia.
Qed.

Lemma digits_loop_length upper base n : 2 <= base -> forall fuel x, 0 <= x < base ^ Z.of_nat n -> (0 < n)%nat ->
  (length (digits_loop fuel upper base x) <= n)%nat.
Proof.
  intros Hb. induction n as [|n IH]; intros fuel x Hx Hn; [lia|]. destruct fuel as [|f]; cbn [digits_loop length]; [lia|].
  destruct (Z.eqb_spec (x / base) 0) as [E|E]; [cbn; lia|]. rewrite Nat2Z.inj_succ, Z.pow_succ_r in Hx by lia.
  assert (0 <= x / base < base ^ Z.of_nat n) by (split; [apply Z.div_pos; lia|apply Z.div_lt_upper_bound; lia]).
  destruct n as [|n]; [cbn in *; lia|]. specialize (IH f (x / base) ltac:(lia) ltac:(lia)). lia.
Qed.

(** The sign of a printed number, and its digits. *)
Definition printed_value (out : list Z) : Z :=
  match out with
  | c :: ds => if c =? MINUS then - number 10 ds else number 10 out
  | [] => 0
  end.

Lemma digits_bound upper base fuel : 2 <= base <= 16 -> forall x, 0 <= x -> Forall (fun c => 48 <= c) (digits_loop fuel upper base x).
Proof.
  intros Hb. induction fuel as [|f IH]; intros x Hx; cbn [digits_loop]; [constructor|]. constructor.
  - pose proof (Z.mod_pos_bound x base ltac:(lia)). unfold digit. destruct (Z.ltb_spec (x mod base) 10); [lia|]. destruct upper; lia.
  - destruct (x / base =? 0); [constructor|]. apply IH, Z.div_pos; lia.
Qed.

(** For every 32-bit number the turns are enough, and so is the buffer. *)
Lemma below_pow base n x : 0 <= x < 2 ^ 32 -> (base = 10 \/ base = 16) -> (8 <= n)%nat -> (base = 10 -> (10 <= n)%nat) -> 0 <= x < base ^ Z.of_nat n.
Proof.
  intros Hx Hb Hn H10. split; [lia|]. destruct Hb as [-> | ->].
  - eapply Z.lt_le_trans; [|apply (Z.pow_le_mono_r 10 10); lia]. specialize (H10 eq_refl). change (10 ^ 10) with 10000000000. lia.
  - eapply Z.lt_le_trans; [|apply (Z.pow_le_mono_r 16 8); lia]. change (16 ^ 8) with 4294967296. lia.
Qed.

Lemma digits_value upper base x : (base = 10 \/ base = 16) -> 0 <= x < 2 ^ 32 ->
  number base (rev (digits_loop 32 upper base x)) = x /\ (0 < length (digits_loop 32 upper base x) <= if (base =? 10)%Z then 10 else 8)%nat.
Proof.
  intros Hb Hx. split; [apply digits_loop_value; [lia|apply below_pow; done || lia|lia]|].
  split; [cbn [digits_loop length]; lia|]. apply digits_loop_length; [lia| |destruct (base =? 10); lia].
  apply below_pow; [done|done|destruct (base =? 10); lia|]. by intros ->.
Qed.

Lemma printint_dec upper xx : - 2 ^ 31 <= xx < 2 ^ 31 ->
  exists ds, printint upper xx 10 true = (if xx <? 0 then [MINUS] else []) ++ ds /\ number 10 ds = Z.abs xx /\ (0 < length ds <= 10)%nat /\
    ds = rev (digits_loop 32 upper 10 (Z.abs xx)).
Proof.
  intros Hx. unfold printint. cbn [andb]. rewrite rev_app_distr. exists (rev (digits_loop 32 upper 10 (Z.abs xx))).
  assert (E : (if xx <? 0 then u32 (- xx) else u32 xx) = Z.abs xx).
  { unfold u32. destruct (Z.ltb_spec xx 0); rewrite Z.mod_small by lia; lia. }
  rewrite E. destruct (digits_value upper 10 (Z.abs xx)) as [Hv Hl]; [by left|lia|]. rewrite length_rev.
  split; [by destruct (xx <? 0)|done].
Qed.

(** Numbers are printed right.  For every 32-bit number, the smallest
    included, what [printint] prints in decimal denotes the number, and what it
    prints in hexadecimal its unsigned value; and it never takes more than 11
    bytes of its 16-byte buffer. *)
Theorem printint_prints upper xx (Hx : - 2 ^ 31 <= xx < 2 ^ 31) :
  printed_value (printint upper xx 10 true) = xx /\ (length (printint upper xx 10 true) <= 11)%nat /\
  number 16 (printint upper xx 16 false) = u32 xx /\ (length (printint upper xx 16 false) <= 8)%nat.
Proof.
  destruct (printint_dec upper xx Hx) as (ds & E & Hn & Hl & Eds). rewrite E. split; [|split].
  - destruct (Z.ltb_spec xx 0) as [Hneg|Hpos]; [change (- number 10 ds = xx); lia|]. cbn [app].
    assert (H48 : Forall (fun c => 48 <= c) ds) by (rewrite Eds; apply Forall_rev, digits_bound; lia).
    unfold printed_value. destruct ds as [|c ds]; [cbn in Hl; lia|]. inversion H48; subst.
    destruct (Z.eqb_spec c MINUS); [unfold MINUS in *; lia|]. lia.
  - rewrite length_app. destruct (xx <? 0); cbn; lia.
  - unfold printint. cbn [andb]. rewrite app_nil_r. destruct (digits_value upper 16 (u32 xx)) as [Hv Hl']; [by right|apply u32_range|].
    rewrite length_rev. split; [done|]. apply Hl'.
Qed.

Lemma printint_prints_witness :
  printed_value (printint true (- 2 ^ 31) 10 true) = - 2 ^ 31 /\ (length (printint true (- 2 ^ 31) 10 true) <= 11)%nat /\
  number 16 (printint true (- 2 ^ 31) 16 false) = 2147483648 /\ (length (printint true (- 2 ^ 31) 16 false) <= 8)%nat.
Proof. apply (printint_prints true (- 2 ^ 31)). lia. Defined.

(** ** Reading a number back *)

Lemma atoi_loop_number ds : forall n, Forall (fun c => 48 <= c <= 57) ds -> 0 <= n ->
  foldl (fun n c => n * 10 + value_of c) n ds < 2 ^ 31 -> atoi_loop n ds = foldl (fun n c => n * 10 + value_of c) n ds.
Proof.
  induction ds as [|c ds IH]; intros n Hd Hn Hlt; [done|]. inversion Hd as [|? ? Hc Hd']; subst. cbn [atoi_loop foldl] in *.
  assert (Hv : value_of c = c - 48) by (unfold value_of; destruct (Z.ltb_spec c 65); lia). rewrite Hv in *.
  assert (Hmono : n * 10 + (c - 48) <= foldl (fun n c => n * 10 + value_of c) (n * 10 + (c - 48)) ds).
  { clear Hlt IH Hd. assert (H0 : 0 <= n * 10 + (c - 48)) by lia. revert H0. generalize (n * 10 + (c - 48)). induction Hd' as [|d ds Hd' _ IH]; intros m Hm; cbn; [lia|].
    assert (value_of d = d - 48) as -> by (unfold value_of; destruct (Z.ltb_spec d 65); lia). specialize (IH (m * 10 + (d - 48)) ltac:(lia)). lia. }
  destruct (Z.leb_spec 48 c), (Z.leb_spec c 57); try lia. cbn [andb]. rewrite i32_small by lia.
  replace (n * 10 + c - 48) with (n * 10 + (c - 48)) by lia. apply IH; [done|lia|done].
Qed.

Lemma digits_dec upper fuel : forall x, 0 <= x -> Forall (fun c => 48 <= c <= 57) (digits_loop fuel upper 10 x).
Proof.
  induction fuel as [|f IH]; intros x Hx; cbn [digits_loop]; [constructor|]. constructor.
  - pose proof (Z.mod_pos_bound x 10 ltac:(lia)). unfold digit. destruct (Z.ltb_spec (x mod 10) 10); lia.
  - destruct (x / 10 =? 0); [constructor|]. apply IH, Z.div_pos; lia.
Qed.

(** [atoi] reads back what [printf] prints: for every number from 0 to
    the largest [int]. *)
Theorem atoi_printf args str n (Hn : 0 <= n < 2 ^ 31) (Ha : args 0%nat = n) :
  atoi (printf args str [PERCENT; 100]) = n.
Proof.
  change (printf args str [PERCENT; 100]) with (printint true (i32 (args 0%nat)) 10 true ++ []). rewrite app_nil_r, Ha, i32_small by lia.
  destruct (printint_dec true n ltac:(lia)) as (ds & -> & E & _ & Eds). destruct (Z.ltb_spec n 0); [lia|]. cbn [app].
  change (foldl (fun n c => n * 10 + value_of c) 0 ds = Z.abs n) in E. unfold atoi.
  rewrite atoi_loop_number; [rewrite E; lia| |done|rewrite E; lia]. rewrite Eds. apply Forall_rev, digits_dec. lia.
Qed.

Lemma atoi_printf_witness : atoi (printf (fun _ => 4096) (fun _ => []) [PERCENT; 100]) = 4096.
Proof. apply (atoi_printf (fun _ => 4096) (fun _ => []) 4096); [lia|reflexivity]. Defined.

(** ** The two printers *)

(** No conversion of the format is [%c], [%x] or [%p]; [state] as in [printf]. *)
Fixpoint shared_format (fmt : list Z) (state : bool) : bool :=
  match fmt with
  | [] => true
  | c :: f => if state then negb ((c =? 99) || (c =? 120) || (c =? 112)) && shared_format f false else shared_format f (c =? PERCENT)
  end.

Lemma digits_case fuel : forall x, digits_loop fuel true 10 x = digits_loop fuel false 10 x.
Proof.
  induction fuel as [|f IH]; intros x; cbn [digits_loop]; [done|]. rewrite IH. f_equal. unfold digit.
  pose proof (Z.mod_pos_bound x 10 ltac:(lia)). destruct (Z.ltb_spec (x mod 10) 10); [done|lia].
Qed.
Lemma printint_case xx sign : printint true xx 10 sign = printint false xx 10 sign.
Proof. unfold printint. by rewrite digits_case. Qed.

Lemma printf_cprintf_loop args str n : forall fmt ap, (length fmt <= n)%nat -> shared_format fmt false = true ->
  printf_loop args str fmt false ap = cprintf_loop args str fmt ap.
Proof.
  induction n as [|n IH]; intros fmt ap Hn Hf; (destruct fmt as [|c fmt]; [done|]); [cbn in Hn; lia|].
  cbn [length printf_loop cprintf_loop shared_format negb] in *. destruct (c =? PERCENT) eqn:Ec; cbn [negb].
  - destruct fmt as [|d fmt]; [done|]. cbn [length printf_loop shared_format negb] in *. apply andb_true_iff in Hf as [Hd Hf].
    apply negb_true_iff in Hd. rewrite !orb_false_iff in Hd. destruct Hd as [[H99 H120] H112]. rewrite H99, H120, H112, printint_case.
    cbn [orb]. rewrite !IH by (done || lia). destruct (d =? 100); [done|]. destruct (d =? 115); [done|].
    destruct (Z.eqb_spec d PERCENT) as [->|]; done.
  - by rewrite IH by (done || lia).
Qed.

(** The kernel's printer and the user library's agree: on every format
    without [%c], [%x] and [%p] (where the library prints capital letters),
    [printf] and [cprintf] print the same characters for the same arguments. *)
Theorem printf_cprintf args str fmt (Hf : shared_format fmt false = true) : printf args str fmt = cprintf args str fmt.
Proof. by apply (printf_cprintf_loop args str (length fmt)). Qed.

Lemma printf_cprintf_witness :
  let fmt := [37; 100; 32; 37; 115; 37; 37; 37; 113; 37] in
  printf (fun k => Z.of_nat k) (fun a => [a]) fmt = cprintf (fun k => Z.of_nat k) (fun a => [a]) fmt.
Proof. intros fmt. apply (printf_cprintf (fun k => Z.of_nat k) (fun a => [a]) fmt). reflexivity. Defined.

(** The format of [users_list]: [cprintf] knows no field widths, so it prints
    them as they are, takes no argument for them, and prints as the user's name
    the string at the address that the uid happens to be. *)
Lemma users_list_prints_uid_as_string uid gid name str : uid <> 0 ->
  cprintf (fun k => nthd 0 [uid; gid; name] k) str (removelast (lit "%-4d %-4d %s")) = removelast (lit "%-4d %-4d ") ++ str uid.
Proof.
  intros Hu. change (cprintf _ _ _) with (removelast (lit "%-4d %-4d ") ++ string_arg str uid ++ []). rewrite app_nil_r. f_equal.
  unfold string_arg. by destruct (Z.eqb_spec uid 0).
Qed.
