(* ===== verification/Umalloc.v ===== *)
(** The allocator of the user library, umalloc.c.

    Addresses are multiples of the size of a [Header], 8 bytes, and are counted
    in headers, so [p + p->s.size] is an addition.  [BASE] is the address of
    the static header [base].  The memory of the program is [hptr] and
    [hsize], the two fields of the header at every address: clients write over
    them in the blocks they own. *)
From stdpp Require Import base numbers list strings relations.
From Stdlib Require Import ZArith Lia Sorted.
From S2P Require Import Prelude.

Local Open Scope list_scope.
Local Open Scope Z_scope.
Local Open Scope kernel_scope.

Record heap := Heap { hptr : Z -> Z; hsize : Z -> Z; freep : Z; brk : Z }.

Definition put (a v : Z) (f : Z -> Z) : Z -> Z := fun x => if x =? a then v else f x.
Abbreviation H := (M heap).
Definition set_ptr (a v : Z) : H unit := modify (fun h => Heap (put a v (hptr h)) (hsize h) (freep h) (brk h)).
Definition set_size (a v : Z) : H unit := modify (fun h => Heap (hptr h) (put a v (hsize h)) (freep h) (brk h)).
Definition set_freep (a : Z) : H unit := modify (fun h => Heap (hptr h) (hsize h) a (brk h)).
Definition ptr (a : Z) : H Z := gets (fun h => hptr h a).
Definition size (a : Z) : H Z := gets (fun h => hsize h a).

Definition HEADER : Z := 8.

Section Code.
Context (BASE : Z).
(** Whether [sbrk(n)] succeeds with the break at a given place. *)
Context (sbrk_ok : Z -> Z -> bool).

(** The addresses up to the break: more than there are blocks. *)
Definition turns : H nat := gets (fun h => Z.to_nat (brk h - BASE)).

(** The loop of [free]. *)
Fixpoint find_slot (fuel : nat) (bp p : Z) : H Z :=
  match fuel with
  | O => blocked "loop"
  | S f =>
      q ← ptr p;
      if (p <? bp) && (bp <? q) then ret p
      else if (q <=? p) && ((p <? bp) || (bp <? q)) then ret p
      else find_slot f bp q
  end.

(** The two joins of [free]: the block [bp] with the one after it, and the
    one before, [p], with it. *)
Definition join_next (bp p : Z) : H unit :=
  sb ← size bp;
  q ← ptr p;
  if bp + sb =? q then
    sq ← size q;
    set_size bp (u32 (sb + sq));;
    r ← ptr q;
    set_ptr bp r
  else set_ptr bp q.
Definition join_prev (bp p : Z) : H unit :=
  sp ← size p;
  if p + sp =? bp then
    sb ← size bp;
    set_size p (u32 (sp + sb));;
    r ← ptr bp;
    set_ptr p r
  else set_ptr p bp.

Definition free (ap : Z) : H unit :=
  let bp := ap - 1 in
  n ← turns;
  p ← gets freep;
  p ← find_slot n bp p;
  join_next bp p;;
  join_prev bp p;;
  set_freep p.

(** [sbrk]: the old break, or -1. *)
Definition sbrk (n : Z) : H Z :=
  b ← gets brk;
  if sbrk_ok b n then modify (fun h => Heap (hptr h) (hsize h) (freep h) (brk h + n / HEADER));; ret b else ret (-1).

Definition morecore (nu : Z) : H Z :=
  let nu := if nu <? 4096 then 4096 else nu in
  p ← sbrk (i32 (u32 (nu * HEADER)));
  if p =? -1 then ret 0
  else
    set_size p nu;;
    free (p + 1);;
    gets freep.

Fixpoint malloc_loop (fuel : nat) (nunits prevp p : Z) : H Z :=
  match fuel with
  | O => blocked "loop"
  | S f =>
      s ← size p;
      if nunits <=? s then
        p ← (if s =? nunits then q ← ptr p; set_ptr prevp q;; ret p
             else set_size p (u32 (s - nunits));; s ← size p; set_size (p + s) nunits;; ret (p + s));
        set_freep prevp;;
        ret (p + 1)
      else
        fp ← gets freep;
        if p =? fp then
          r ← morecore nunits;
          if r =? 0 then ret 0 else q ← ptr r; malloc_loop f nunits r q
        else q ← ptr p; malloc_loop f nunits p q
  end.

(** The number of headers for [nbytes] bytes and the block's own. *)
Definition units (nbytes : Z) : Z := u32 (nbytes + HEADER - 1) / HEADER + 1.

Definition malloc (nbytes : Z) : H Z :=
  let nunits := units nbytes in
  fp ← gets freep;
  (if fp =? 0 then set_ptr BASE BASE;; set_freep BASE;; set_size BASE 0 else ret tt);;
  prevp ← gets freep;
  p ← ptr prevp;
  n ← turns;
  malloc_loop (2 * n + 2) nunits prevp p.
End Code.

(** ** Blocks *)

(** A block: its address, its size and whether it is free. *)
Record block := Block { b_at : Z; b_size : Z; b_free : bool }.

(** The blocks tile the memory from [lo] to [hi]. *)
Fixpoint tile (lo : Z) (T : list block) (hi : Z) : Prop :=
  match T with
  | [] => lo = hi
  | b :: T' => b_at b = lo /\ 1 <= b_size b /\ tile (lo + b_size b) T' hi
  end.

(** No two free blocks are neighbours. *)
Fixpoint coalesced (prev : bool) (T : list block) : Prop :=
  match T with
  | [] => True
  | b :: T' => (prev = true -> b_free b = false) /\ coalesced (b_free b) T'
  end.

Definition frees (T : list block) : list (Z * Z) := (fun b => (b_at b, b_size b)) <$> filter (fun b => b_free b = true) T.
Definition head_at (l : list (Z * Z)) (e : Z) : Z := match l with [] => e | x :: _ => x.1 end.

(** The headers in [l] are linked in that order, the last one to [e]. *)
Fixpoint seg (h : heap) (l : list (Z * Z)) (e : Z) : Prop :=
  match l with
  | [] => True
  | x :: l' => hsize h x.1 = x.2 /\ hptr h x.1 = head_at l' e /\ seg h l' e
  end.

Lemma tile_app lo T1 T2 hi : tile lo (T1 ++ T2) hi <-> exists m, tile lo T1 m /\ tile m T2 hi.
Proof.
  revert lo. induction T1 as [|b T1 IH]; intros lo; cbn.
  - split; [intros H; by exists lo|by intros (m & -> & H)].
  - rewrite IH. split; [intros (H1 & H2 & m & H3 & H4); by exists m|intros (m & (H1 & H2 & H3) & H4); eauto].
Qed.

Lemma tile_le lo T hi : tile lo T hi -> lo <= hi.
Proof. revert lo. induction T as [|b T IH]; intros lo; cbn; [lia|]. intros (_ & H1 & H2). apply IH in H2. lia. Qed.

Lemma tile_range lo T hi b : tile lo T hi -> b ∈ T -> lo <= b_at b /\ 1 <= b_size b /\ b_at b + b_size b <= hi.
Proof.
  revert lo. induction T as [|c T IH]; intros lo Ht Hb; [by apply not_elem_of_nil in Hb|]. destruct Ht as (H1 & H2 & H3).
  apply elem_of_cons in Hb as [->|Hb]; [apply tile_le in H3; lia|]. apply (IH _ H3) in Hb. lia.
Qed.

Lemma frees_app T1 T2 : frees (T1 ++ T2) = frees T1 ++ frees T2.
Proof. unfold frees. by rewrite filter_app, fmap_app. Qed.
Lemma frees_cons b T : frees (b :: T) = if b_free b then (b_at b, b_size b) :: frees T else frees T.
Proof. unfold frees. rewrite filter_cons. destruct b as [a s []]; cbn; done. Qed.
Lemma frees_range lo T hi x : tile lo T hi -> x ∈ frees T -> lo <= x.1 /\ 1 <= x.2 /\ x.1 + x.2 <= hi.
Proof.
  intros Ht Hx. unfold frees in Hx. apply list_elem_of_fmap in Hx as (b & -> & Hb). apply list_elem_of_filter in Hb as [_ Hb].
  by apply (tile_range lo T hi).
Qed.
Lemma frees_length lo T hi : tile lo T hi -> Z.of_nat (length (frees T)) <= hi - lo.
Proof.
  revert lo. induction T as [|b T IH]; intros lo; cbn [tile]; [intros ->; cbn; lia|]. intros (_ & H1 & H2). apply IH in H2. rewrite frees_cons.
  destruct (b_free b); cbn [length]; lia.
Qed.

Lemma seg_app h l1 l2 e : seg h (l1 ++ l2) e <-> seg h l1 (head_at l2 e) /\ seg h l2 e.
Proof.
  induction l1 as [|x l1 IH]; cbn; [tauto|]. rewrite IH.
  assert (head_at (l1 ++ l2) e = head_at l1 (head_at l2 e)) as -> by (by destruct l1). tauto.
Qed.

Lemma seg_frame h h' l e : Forall (fun x => hsize h' x.1 = hsize h x.1 /\ hptr h' x.1 = hptr h x.1) l -> seg h l e -> seg h' l e.
Proof. induction 1 as [|x l [E1 E2] _ IH]; cbn; [done|]. rewrite E1, E2. tauto. Qed.

Lemma put_eq a v f : put a v f a = v.
Proof. unfold put. by rewrite Z.eqb_refl. Qed.
Lemma put_ne a v f x : x <> a -> put a v f x = f x.
Proof. intros Hx. unfold put. by apply Z.eqb_neq in Hx as ->. Qed.

(** ** Going round the list *)

Definition adr (l : list (Z * Z)) (i : nat) : Z := (nthd (0, 0) l i).1.
Definition siz (l : list (Z * Z)) (i : nat) : Z := (nthd (0, 0) l i).2.
Definition nxt (l : list (Z * Z)) (i : nat) : nat := if Nat.eqb (S i) (length l) then 0%nat else S i.

Lemma pair_lookup (l : list (Z * Z)) i : (i < length l)%nat -> l !! i = Some (adr l i, siz l i).
Proof. intros Hi. unfold adr, siz, nthd. destruct (lookup_lt_is_Some_2 l i Hi) as [[a s] ->]. done. Qed.

Lemma nxt_lt l i : (i < length l)%nat -> (nxt l i < length l)%nat.
Proof. intros Hi. unfold nxt. destruct (Nat.eqb_spec (S i) (length l)); lia. Qed.

Lemma seg_lookup h l e i : seg h l e -> (i < length l)%nat ->
  hsize h (adr l i) = siz l i /\ hptr h (adr l i) = head_at (drop (S i) l) e.
Proof.
  revert i. induction l as [|x l IH]; intros i Hs Hi; [cbn in Hi; lia|]. destruct Hs as (H1 & H2 & H3).
  destruct i as [|i]; [unfold adr, siz, nthd; cbn; by rewrite drop_0|]. apply (IH i H3). cbn in Hi. lia.
Qed.

(** The list [l] is a ring in the memory. *)
Definition ring (h : heap) (l : list (Z * Z)) : Prop := seg h l (adr l 0).

Lemma ring_node h l i : ring h l -> (i < length l)%nat -> hsize h (adr l i) = siz l i /\ hptr h (adr l i) = adr l (nxt l i).
Proof.
  intros Hr Hi. destruct (seg_lookup h l _ i Hr Hi) as [H1 H2]. split; [done|]. rewrite H2. unfold nxt.
  destruct (Nat.eqb_spec (S i) (length l)) as [E|E]; [by rewrite drop_ge by lia|].
  destruct (drop (S i) l) as [|x r] eqn:Ed; [apply (f_equal length) in Ed; rewrite length_drop in Ed; cbn in Ed; lia|].
  cbn. unfold adr, nthd. assert (l !! S i = Some x) as ->; [|done].
  replace (l !! S i) with (drop (S i) l !! 0%nat) by (rewrite lookup_drop; f_equal; lia). by rewrite Ed.
Qed.

(** The steps from [i] to [k]. *)
Definition dist (l : list (Z * Z)) (i k : nat) : nat := if Nat.leb i k then (k - i)%nat else (length l - i + k)%nat.

Lemma dist_nxt l i k : (i < length l)%nat -> (k < length l)%nat -> i <> k -> dist l i k = S (dist l (nxt l i) k).
Proof.
  intros Hi Hk Hne. unfold dist, nxt. destruct (Nat.eqb_spec (S i) (length l)).
  - destruct (Nat.leb_spec i k), (Nat.leb_spec 0 k); lia.
  - destruct (Nat.leb_spec i k), (Nat.leb_spec (S i) k); lia.
Qed.
Lemma dist_lt l i k : (i < length l)%nat -> (k < length l)%nat -> (dist l i k < length l)%nat.
Proof. intros Hi Hk. unfold dist. destruct (Nat.leb_spec i k); lia. Qed.

(** The loop of [free] stops at the one block where it may. *)
Lemma find_slot_finds h l k bp : ring h l -> (k < length l)%nat ->
  (forall i, (i < length l)%nat ->
     let p := adr l i in let q := adr l (nxt l i) in
     ((p <? bp) && (bp <? q)) || ((q <=? p) && ((p <? bp) || (bp <? q))) = Nat.eqb i k) ->
  forall fuel i, (i < length l)%nat -> (dist l i k < fuel)%nat -> find_slot fuel bp (adr l i) h = Ok (adr l k) h.
Proof.
  intros Hr Hk Hstop. induction fuel as [|f IH]; intros i Hi Hd; [lia|]. cbn [find_slot].
  destruct (ring_node h l i Hr Hi) as [_ Hp]. specialize (Hstop i Hi). cbn zeta in Hstop. unfold bind at 1, ptr, gets. rewrite Hp.
  destruct (Nat.eqb_spec i k) as [E|Hne].
  - subst i. destruct ((adr l k <? bp) && (bp <? adr l (nxt l k))); [done|]. cbn [orb] in Hstop. by rewrite Hstop.
  - apply orb_false_iff in Hstop as [-> ->]. apply IH; [by apply nxt_lt|]. rewrite (dist_nxt l i k) in Hd by done. lia.
Qed.

(** ** Putting a block into the list *)

Definition same_but (xs : list Z) (h h' : heap) : Prop := forall x, x ∉ xs -> hptr h' x = hptr h x /\ hsize h' x = hsize h x.

Lemma seg_same xs h h' l e : same_but xs h h' -> Forall (fun x => x.1 ∉ xs) l -> seg h l e -> seg h' l e.
Proof.
  intros Hs Hl. apply seg_frame. eapply Forall_impl; [exact Hl|]. intros x Hx. destruct (Hs x.1 Hx) as [-> ->]. done.
Qed.

Lemma join_next_spec h e p F bp sz :
  hptr h p = head_at F e -> seg h F e -> hsize h bp = sz -> p <> bp -> Forall (fun x => bp < x.1) F -> bp + sz <> e ->
  let up := bp + sz =? head_at F e in
  let F' := if up then tail F else F in
  exists h', join_next bp p h = Ok tt h' /\ brk h' = brk h /\ same_but [bp] h h' /\
    hptr h' bp = head_at F' e /\ hsize h' bp = if up then u32 (sz + siz F 0) else sz.
Proof.
  intros Pp S3 Hsz Hp HF Hne up F'. unfold join_next, size, ptr. unfold bind at 1 2, gets. rewrite Hsz, Pp. fold up. unfold F'.
  destruct up eqn:Eu.
  - destruct F as [|x F]; [apply Z.eqb_eq in Eu; done|]. cbn [head_at] in *. inversion HF as [|? ? Hx _]; subst.
    destruct S3 as (E1 & E2 & _). unfold bind, set_size, set_ptr, modify. eexists. split; [reflexivity|]. cbn [hptr hsize brk].
    split; [done|]. rewrite E1, E2. split; [|by rewrite !put_eq].
    intros y Hy. cbn [hptr hsize]. by rewrite !put_ne by (intros ->; apply Hy; by left).
  - unfold set_ptr, modify. eexists. split; [reflexivity|]. cbn [hptr hsize brk]. split; [done|]. split; [|by rewrite put_eq].
    intros y Hy. cbn [hptr hsize]. by rewrite put_ne by (intros ->; apply Hy; by left).
Qed.

Lemma join_prev_spec h p bp : p <> bp ->
  let low := p + hsize h p =? bp in
  exists h', join_prev bp p h = Ok tt h' /\ brk h' = brk h /\ same_but [p] h h' /\
    hptr h' p = (if low then hptr h bp else bp) /\ hsize h' p = (if low then u32 (hsize h p + hsize h bp) else hsize h p).
Proof.
  intros Hp low. unfold join_prev, size, ptr. unfold bind at 1, gets. fold low.
  destruct low; unfold bind, set_size, set_ptr, modify; eexists; (split; [reflexivity|]); cbn [hptr hsize brk]; rewrite !put_eq;
    (split; [done|]); (split; [|done]); intros y Hy; cbn [hptr hsize]; by rewrite !put_ne by (intros ->; apply Hy; by left).
Qed.

(** Both joins: the list with the new block. *)
Lemma join_spec h e Lq p sp F bp sz :
  seg h (Lq ++ (p, sp) :: F) e -> hsize h bp = sz ->
  Forall (fun x => x.1 < p) Lq -> p < bp -> Forall (fun x => bp < x.1) F -> bp + sz <> e ->
  let up := bp + sz =? head_at F e in
  let F' := if up then tail F else F in
  let sz' := if up then u32 (sz + siz F 0) else sz in
  exists h', bind (join_next bp p) (fun _ => bind (join_prev bp p) (fun _ => set_freep p)) h = Ok tt h' /\
    freep h' = p /\ brk h' = brk h /\ same_but [p; bp] h h' /\
    seg h' (Lq ++ (if p + sp =? bp then [(p, u32 (sp + sz'))] else [(p, sp); (bp, sz')]) ++ F') e.
Proof.
  intros Hseg Hsz Hlq Hp HF Hne up F' sz'. apply seg_app in Hseg as [S1 S2]. cbn [seg head_at fst snd] in S1, S2. destruct S2 as (Sp & Pp & S3).
  destruct (join_next_spec h e p F bp sz Pp S3 Hsz ltac:(lia) HF Hne) as (h1 & R1 & B1 & K1 & P1 & Z1). fold up in P1, Z1. fold F' in P1. fold sz' in Z1.
  destruct (join_prev_spec h1 p bp ltac:(lia)) as (h2 & R2 & B2 & K2 & P2 & Z2).
  assert (Hpb : p ∉ [bp]) by (rewrite list_elem_of_singleton; lia). assert (Hbp : bp ∉ [p]) by (rewrite list_elem_of_singleton; lia).
  destruct (K1 p Hpb) as [_ E1]. rewrite E1, Sp in P2, Z2. destruct (K2 bp Hbp) as [E2 E3]. rewrite P1 in P2. rewrite Z1 in Z2.
  assert (K : same_but [p; bp] h h2).
  { intros x Hx. rewrite not_elem_of_cons in Hx. destruct Hx as [Hx1 Hx2]. destruct (K1 x Hx2) as [<- <-]. apply K2. by rewrite list_elem_of_singleton. }
  exists (Heap (hptr h2) (hsize h2) p (brk h2)). unfold bind. rewrite R1, R2. split; [done|]. split; [done|]. split; [cbn; congruence|].
  split; [exact K|]. assert (HF' : seg h F' e /\ Forall (fun x => bp < x.1) F').
  { unfold F'. destruct up; [|done]. destruct F; [done|]. inversion HF; subst. split; [apply S3|done]. }
  destruct HF' as [SF GF]. apply seg_app. set (h3 := Heap (hptr h2) (hsize h2) p (brk h2)). assert (K3 : same_but [p; bp] h h3) by exact K.
  assert (Tl : seg h3 F' e).
  { apply (seg_same _ _ _ _ _ K3); [|done]. eapply Forall_impl; [exact GF|]. cbv beta. intros x Hx. rewrite not_elem_of_cons, list_elem_of_singleton. lia. }
  split.
  - apply (seg_same _ _ _ _ _ K3); [|by destruct (p + sp =? bp)]. eapply Forall_impl; [exact Hlq|]. cbv beta. intros x Hx.
    rewrite not_elem_of_cons, list_elem_of_singleton. lia.
  - destruct (p + sp =? bp); cbn [app seg head_at fst snd hptr hsize h3]; [done|]. rewrite E2, E3, P1, Z1. done.
Qed.

(** ** Order *)

Abbreviation above := (fun x y : Z * Z => x.1 < y.1).

Lemma frees_sorted lo T hi : tile lo T hi -> StronglySorted above (frees T).
Proof.
  revert lo. induction T as [|b T IH]; intros lo Ht; [constructor|]. destruct Ht as (E & Hs & Ht). rewrite frees_cons.
  destruct (b_free b); [|by eapply IH]. constructor; [by eapply IH|]. apply Forall_forall. intros x Hx. cbn.
  apply (frees_range _ _ _ _ Ht) in Hx. lia.
Qed.

Lemma sorted_adr l : StronglySorted above l -> forall i j, (i < j < length l)%nat -> adr l i < adr l j.
Proof.
  induction 1 as [|x l Hl IH Hx]; intros i j Hij; [cbn in Hij; lia|]. destruct j as [|j]; [lia|]. cbn [length] in Hij.
  destruct i as [|i]; [|apply (IH i j); lia]. rewrite Forall_lookup in Hx. apply (Hx j (adr l j, siz l j)). apply pair_lookup. lia.
Qed.

(** Where the loop of [free] stops: at the last block below [bp]. *)
Lemma stop_at l k bp : StronglySorted above l -> (k < length l)%nat ->
  (forall i, (i <= k)%nat -> adr l i < bp) -> (forall i, (k < i < length l)%nat -> bp < adr l i) ->
  forall i, (i < length l)%nat -> let p := adr l i in let q := adr l (nxt l i) in
    ((p <? bp) && (bp <? q)) || ((q <=? p) && ((p <? bp) || (bp <? q))) = Nat.eqb i k.
Proof.
  intros Hs Hk Hlo Hhi i Hi p q. pose proof (Hlo 0%nat ltac:(lia)) as H0.
  assert (Hq : (S i = length l /\ q = adr l 0) \/ ((S i < length l)%nat /\ p < q /\ q = adr l (S i))).
  { unfold q, nxt. destruct (Nat.eqb_spec (S i) (length l)); [by left|right]. split; [lia|]. split; [|done]. apply sorted_adr; [done|lia]. }
  assert (Hp0 : adr l 0 <= p). { destruct i; [unfold p; lia|]. pose proof (sorted_adr l Hs 0 (S i)). unfold p. lia. }
  destruct (Nat.lt_trichotomy i k) as [Hik|[Hik|Hik]].
  - pose proof (Hlo i ltac:(lia)). assert (q < bp) by (destruct Hq as [[? ?]|(? & ? & ->)]; [lia|apply Hlo; lia]).
    rewrite (proj2 (Nat.eqb_neq i k)) by lia. fold p in H. destruct Hq as [[? ?]|(? & ? & _)]; [lia|].
    destruct (Z.ltb_spec p bp), (Z.ltb_spec bp q), (Z.leb_spec q p); try lia; done.
  - subst i. rewrite Nat.eqb_refl. pose proof (Hlo k ltac:(lia)). fold p in H. destruct Hq as [[? ->]|(? & ? & Eq)].
    + destruct (Z.ltb_spec p bp), (Z.leb_spec (adr l 0) p); try lia; cbn; by rewrite ?orb_true_r.
    + pose proof (Hhi (S k) ltac:(lia)). rewrite <- Eq in *. destruct (Z.ltb_spec p bp), (Z.ltb_spec bp q); try lia; done.
  - rewrite (proj2 (Nat.eqb_neq i k)) by lia. pose proof (Hhi i ltac:(lia)). fold p in H.
    destruct Hq as [[? ->]|(? & ? & _)].
    + destruct (Z.ltb_spec p bp), (Z.ltb_spec bp (adr l 0)); try lia; cbn; by rewrite ?andb_false_r.
    + destruct (Z.ltb_spec p bp), (Z.leb_spec q p); try lia; done.
Qed.

(** ** The invariant *)

Section Inv.
Context (BASE h0 : Z).

(** The list of the allocator for the blocks [T]. *)
Definition flist (T : list block) : list (Z * Z) := (BASE, 0) :: frees T.

Record hwf (h : heap) (T : list block) : Prop := HWf {
  hw_base : 0 < BASE < h0;
  hw_lim : brk h <= 2 ^ 28;
  hw_tile : tile h0 T (brk h);
  hw_coal : coalesced false T;
  hw_ring : seg h (flist T) BASE;
  hw_alloc : forall b, b ∈ T -> b_free b = false -> hsize h (b_at b) = b_size b;
  hw_freep : exists i, (i < length (flist T))%nat /\ freep h = adr (flist T) i
}.

Definition allocs (T : list block) : list (Z * Z) := (fun b => (b_at b, b_size b)) <$> filter (fun b => b_free b = false) T.
Lemma allocs_app T1 T2 : allocs (T1 ++ T2) = allocs T1 ++ allocs T2.
Proof. unfold allocs. by rewrite filter_app, fmap_app. Qed.
Lemma allocs_cons b T : allocs (b :: T) = if b_free b then allocs T else (b_at b, b_size b) :: allocs T.
Proof. unfold allocs. rewrite filter_cons. destruct b as [a s []]; cbn; done. Qed.

Lemma flist_sorted T hi : BASE < h0 -> tile h0 T hi -> StronglySorted above (flist T).
Proof.
  intros Hb Ht. constructor; [by eapply frees_sorted|]. apply Forall_forall. intros x Hx. apply (frees_range _ _ _ _ Ht) in Hx. cbn. lia.
Qed.

Lemma turns_enough h T : hwf h T -> (length (flist T) <= Z.to_nat (brk h - BASE))%nat.
Proof. intros [Hb _ Ht _ _ _ _]. apply frees_length in Ht as H. cbn [flist length]. apply tile_le in Ht. lia. Qed.

Lemma adr_elem (l : list (Z * Z)) x : x ∈ l -> exists i, (i < length l)%nat /\ x.1 = adr l i.
Proof.
  intros Hx. apply list_elem_of_lookup in Hx as [i Hi]. exists i. split; [by eapply lookup_lt_Some|]. unfold adr, nthd. by rewrite Hi.
Qed.

Definition lastfree (prev : bool) (T : list block) : bool := match last T with Some b => b_free b | None => prev end.

Lemma coalesced_app prev T1 T2 : coalesced prev (T1 ++ T2) <-> coalesced prev T1 /\ coalesced (lastfree prev T1) T2.
Proof.
  revert prev. induction T1 as [|b T1 IH]; intros prev; cbn [app coalesced]; [cbn; tauto|]. rewrite IH.
  assert (lastfree (b_free b) T1 = lastfree prev (b :: T1)) as -> by (unfold lastfree; rewrite last_cons; by destruct (last T1)). tauto.
Qed.

(** The block after an address is free just when the list goes on there. *)
Lemma up_spec lo T hi e : tile lo T hi -> e < lo -> (lo =? head_at (frees T) e) = match T with b :: _ => b_free b | [] => false end.
Proof.
  intros Ht He. destruct T as [|b T]; [cbn; apply Z.eqb_neq; lia|]. destruct Ht as (Eb & Hs & Ht). rewrite frees_cons.
  destruct (b_free b); [cbn; rewrite Eb; apply Z.eqb_refl|]. apply Z.eqb_neq. destruct (frees T) as [|x F] eqn:Ef; cbn; [lia|].
  assert (Hx : x ∈ frees T) by (rewrite Ef; by left). apply (frees_range _ _ _ _ Ht) in Hx. lia.
Qed.

(** The block before an address is free just when the last free one ends there. *)
Lemma low_spec T bp Lq p sp : tile h0 T bp -> BASE < h0 -> (BASE, 0) :: frees T = Lq ++ [(p, sp)] ->
  (p + sp =? bp) = lastfree false T /\
  (lastfree false T = true -> exists T', T = T' ++ [Block p sp true] /\ (BASE, 0) :: frees T' = Lq).
Proof.
  intros Ht Hb EL. destruct T as [|[a s f] T _] using rev_ind.
  { cbn in EL. symmetry in EL. apply app_singleton in EL as [[-> [= -> ->]]|[_ ?]]; [|done]. cbn in Ht. subst bp. split; [apply Z.eqb_neq; lia|done]. }
  unfold lastfree. rewrite last_snoc. cbn [b_free]. apply tile_app in Ht as (m & Ht & Em & Hs & Et). cbn in Em, Hs, Et.
  rewrite frees_app, frees_cons in EL. cbn [b_free b_at b_size] in EL. destruct f.
  - change (frees []) with (@nil (Z * Z)) in EL. rewrite app_comm_cons in EL. apply app_inj_tail in EL as [EL [= <- <-]].
    split; [apply Z.eqb_eq; lia|]. intros _. by exists T.
  - change (frees []) with (@nil (Z * Z)) in EL. rewrite app_nil_r in EL. split; [|done]. apply Z.eqb_neq.
    assert (Hx : (p, sp) ∈ (BASE, 0) :: frees T) by (rewrite EL; apply elem_of_app; right; by left).
    apply elem_of_cons in Hx as [[= -> ->]|Hx]; [apply tile_le in Ht; lia|]. apply (frees_range _ _ _ _ Ht) in Hx. cbn in Hx. lia.
Qed.

(** A free block does not start inside a block in use. *)
Lemma tile_not_free lo T hi b x : tile lo T hi -> b ∈ T -> b_free b = false -> x ∈ frees T -> ~ (b_at b <= x.1 < b_at b + b_size b).
Proof.
  intros Ht Hb Hf Hx E. unfold frees in Hx. apply list_elem_of_fmap in Hx as (c & -> & Hc). apply list_elem_of_filter in Hc as [Hcf Hc]. cbn in E.
  apply list_elem_of_split in Hb as (T1 & T2 & ->). apply tile_app in Ht as (m & Ht1 & Eb & Hs & Ht2).
  apply elem_of_app in Hc as [Hc|Hc]; [apply (tile_range _ _ _ _ Ht1) in Hc; lia|].
  apply elem_of_cons in Hc as [->|Hc]; [congruence|]. apply (tile_range _ _ _ _ Ht2) in Hc. lia.
Qed.

(** The blocks in [A] are as they were. *)
Definition kept (A : list (Z * Z)) (h h' : heap) : Prop :=
  forall a s x, (a, s) ∈ A -> a < x < a + s -> hptr h' x = hptr h x /\ hsize h' x = hsize h x.

Lemma kept_trans A h1 h2 h3 : kept A h1 h2 -> kept A h2 h3 -> kept A h1 h3.
Proof. intros H1 H2 a s x Ha Hx. destruct (H1 a s x Ha Hx) as [<- <-]. by eapply H2. Qed.

Lemma allocs_elem T a s : (a, s) ∈ allocs T <-> Block a s false ∈ T.
Proof.
  unfold allocs. rewrite list_elem_of_fmap. split.
  - intros (b & [= -> ->] & Hb). apply list_elem_of_filter in Hb as [Hf Hb]. destruct b as [a s f]. cbn in Hf. by subst f.
  - intros Hb. exists (Block a s false). split; [done|]. by apply list_elem_of_filter.
Qed.

(** The free block made of [bp] and what follows it, if that is free. *)
Lemma join_up T2 bp sz hi : tile (bp + sz) T2 hi -> BASE < bp -> 1 <= sz -> hi <= 2 ^ 28 -> 0 < bp ->
  let up := bp + sz =? head_at (frees T2) BASE in
  let sz' := if up then u32 (sz + siz (frees T2) 0) else sz in
  let T2' := if up then tail T2 else T2 in
  sz <= sz' /\ tile (bp + sz') T2' hi /\ frees T2' = (if up then tail (frees T2) else frees T2) /\ allocs T2' = allocs T2 /\
  (coalesced false T2 -> coalesced true T2') /\ (forall b, b ∈ T2' -> b ∈ T2).
Proof.
  intros Ht Hb Hs Hhi H0. cbn zeta. rewrite (up_spec _ _ _ _ Ht) by lia. destruct T2 as [|b T2]; [by repeat split|].
  pose proof Ht as (Eb & Hsb & Ht'). destruct (b_free b) eqn:Ef.
  - rewrite frees_cons, allocs_cons, Ef. change (siz ((b_at b, b_size b) :: frees T2) 0) with (b_size b). apply tile_le in Ht' as Hle.
    unfold u32. rewrite Z.mod_small by lia. cbn [tail]. split; [lia|]. split; [by rewrite Z.add_assoc|]. split; [done|]. split; [done|].
    split; [intros [_ H]; by rewrite Ef in H|]. intros c Hc. by right.
  - split; [lia|]. split; [done|]. split; [done|]. split; [done|]. split; [|done]. cbn. rewrite Ef. tauto.
Qed.

(** The loop of [free] finds the last free block below [bp]. *)
Lemma find_spec h T1 bp sz T2 : hwf h (T1 ++ Block bp sz false :: T2) ->
  exists Lq p sp, (BASE, 0) :: frees T1 = Lq ++ [(p, sp)] /\ find_slot (Z.to_nat (brk h - BASE)) bp (freep h) h = Ok p h /\
    p < bp /\ Forall (fun x => x.1 < p) Lq /\ Forall (fun x => bp < x.1) (frees T2).
Proof.
  set (T := T1 ++ Block bp sz false :: T2). intros Hw. pose proof (turns_enough h T Hw) as Htn. pose proof Hw as [Hb _ Ht _ Hr _ (fi & Hfi & Efp)].
  pose proof Ht as Ht'. unfold T in Ht'. apply tile_app in Ht' as (m & Ht1 & Em & Hsz & Ht2). cbn in Em, Hsz, Ht2. subst m.
  assert (EL : flist T = ((BASE, 0) :: frees T1) ++ frees T2) by (unfold flist, T; by rewrite frees_app, frees_cons).
  destruct (exists_last (l := (BASE, 0) :: frees T1) ltac:(done)) as (Lq & [p sp] & Ep).
  assert (Hb1 : h0 <= bp) by (by apply tile_le in Ht1).
  assert (Hlo : forall x, x ∈ (BASE, 0) :: frees T1 -> x.1 < bp).
  { intros x Hx. apply elem_of_cons in Hx as [->|Hx]; [cbn; lia|]. apply (frees_range _ _ _ _ Ht1) in Hx. lia. }
  assert (Hhi : Forall (fun x => bp < x.1) (frees T2)).
  { apply Forall_forall. intros x Hx. apply (frees_range _ _ _ _ Ht2) in Hx. lia. }
  pose proof (flist_sorted T _ (proj2 Hb) Ht) as Hsort. set (k := length Lq).
  assert (Hk : length ((BASE, 0) :: frees T1) = S k) by (rewrite Ep, length_app; cbn; unfold k; lia).
  assert (Hkl : (k < length (flist T))%nat) by (rewrite EL, length_app, Hk; lia).
  assert (Hadk : adr (flist T) k = p).
  { unfold adr, nthd. rewrite EL, Ep, lookup_app_l by (rewrite length_app; cbn; unfold k; lia). by rewrite lookup_app_r, Nat.sub_diag by (unfold k; lia). }
  exists Lq, p, sp. split; [done|]. split; [|split; [|split; [|done]]].
  - rewrite Efp, <- Hadk. apply (find_slot_finds h (flist T) k bp); [exact Hr|done| |done|pose proof (dist_lt (flist T) fi k Hfi Hkl); lia].
    apply stop_at; [done|done| |].
    + intros i Hi. apply (Hlo (adr (flist T) i, siz (flist T) i)). apply (list_elem_of_lookup_2 _ i).
      rewrite <- pair_lookup by lia. rewrite EL, lookup_app_l by lia. done.
    + intros i [Hi Hil]. rewrite Forall_lookup in Hhi. apply (Hhi (i - S k)%nat (adr (flist T) i, siz (flist T) i)).
      rewrite <- pair_lookup by done. rewrite EL, lookup_app_r by lia. by rewrite Hk.
  - apply (Hlo (p, sp)). rewrite Ep. apply elem_of_app. right. by left.
  - apply Forall_lookup. intros i x Hi. pose proof (lookup_lt_Some _ _ _ Hi) as Hlt. rewrite <- Hadk.
    assert (x.1 = adr (flist T) i) as ->; [|apply sorted_adr; [done|unfold k; lia]].
    unfold adr, nthd. rewrite EL, Ep, <- app_assoc, lookup_app_l by done. by rewrite Hi.
Qed.

(** No header of the list is inside a block in use. *)
Lemma node_outside h T x b : hwf h T -> x ∈ flist T -> b ∈ T -> b_free b = false -> ~ (b_at b <= x.1 < b_at b + b_size b).
Proof.
  intros [Hb _ Ht _ _ _ _] Hx Hbt Hf. pose proof (tile_range _ _ _ _ Ht Hbt).
  apply elem_of_cons in Hx as [->|Hx]; [cbn; lia|]. by apply (tile_not_free _ _ _ _ _ Ht).
Qed.

(** The blocks other than [bp] that are in use are as they were. *)
Lemma freed_keep h h' T1 bp sz T2 Lq p sp : hwf h (T1 ++ Block bp sz false :: T2) -> (BASE, 0) :: frees T1 = Lq ++ [(p, sp)] ->
  same_but [p; bp] h h' -> forall b, b ∈ T1 ++ T2 -> b_free b = false ->
  forall x, b_at b <= x < b_at b + b_size b -> hptr h' x = hptr h x /\ hsize h' x = hsize h x.
Proof.
  intros Hw Ep Ks b Hb' Hf x Hx. assert (Hbt : b ∈ T1 ++ Block bp sz false :: T2) by set_solver.
  apply Ks. rewrite not_elem_of_cons, list_elem_of_singleton. split.
  - intros ->. apply (node_outside h _ (p, sp) b Hw); [|done..]. unfold flist. rewrite frees_app, app_comm_cons, Ep. set_solver.
  - pose proof (hw_tile _ _ Hw) as Ht. apply tile_app in Ht as (m & Ht1 & Em & Hsz & Ht2). cbn in Em, Hsz, Ht2.
    apply elem_of_app in Hb' as [Hb'|Hb']; [apply (tile_range _ _ _ _ Ht1) in Hb'|apply (tile_range _ _ _ _ Ht2) in Hb']; lia.
Qed.

(** A heap with one free block between [Ta] and [Tb]. *)
Lemma freed_hwf h' Ta a s Tb x : 0 < BASE < h0 -> brk h' <= 2 ^ 28 -> tile h0 Ta a -> 1 <= s -> tile (a + s) Tb (brk h') ->
  coalesced false Ta -> lastfree false Ta = false -> coalesced true Tb -> seg h' (((BASE, 0) :: frees Ta) ++ (a, s) :: frees Tb) BASE ->
  (forall b, b ∈ Ta ++ Tb -> b_free b = false -> hsize h' (b_at b) = b_size b) ->
  x ∈ ((BASE, 0) :: frees Ta) ++ [(a, s)] -> freep h' = x.1 -> hwf h' (Ta ++ Block a s true :: Tb).
Proof.
  intros Hb Hlim Hta Hs Htb Hca Hla Hcb Hsg Hal Hx Efp. split; [done|done| | | | |].
  - apply tile_app. exists a. by split.
  - apply coalesced_app. rewrite Hla. cbn. done.
  - unfold flist. rewrite frees_app, frees_cons. exact Hsg.
  - intros b Hb' Hf. apply Hal; [|done]. apply elem_of_app in Hb' as [Hb'|Hb']; [set_solver|].
    apply elem_of_cons in Hb' as [->|Hb']; [done|]. set_solver.
  - rewrite Efp. apply adr_elem. unfold flist. rewrite frees_app, frees_cons. cbn [b_free b_at b_size]. set_solver.
Qed.

Lemma free_spec h T1 bp sz T2 : hwf h (T1 ++ Block bp sz false :: T2) ->
  exists h' T', free BASE (bp + 1) h = Ok tt h' /\ hwf h' T' /\ brk h' = brk h /\ allocs T' = allocs (T1 ++ T2) /\
    kept (allocs (T1 ++ T2)) h h' /\ (length (frees T') <= S (length (frees (T1 ++ T2))))%nat /\
    exists b, b ∈ T' /\ b_free b = true /\ sz <= b_size b.
Proof.
  intros Hw. destruct (find_spec h T1 bp sz T2 Hw) as (Lq & p & sp & Ep & Hfind & Hpb & Hlq & HF).
  pose proof (fun h' => freed_keep h h' T1 bp sz T2 Lq p sp Hw Ep) as Hkeep.
  destruct Hw as [Hb Hlim Ht Hco Hr Hal _]. pose proof Ht as Ht'. apply tile_app in Ht' as (m & Ht1 & Em & Hsz & Ht2). cbn in Em, Hsz, Ht2. subst m.
  apply tile_le in Ht1 as Hb1. apply tile_le in Ht2 as Hb2.
  assert (Hszb : hsize h bp = sz) by (apply (Hal (Block bp sz false)); [apply elem_of_app; right; by left|done]).
  assert (Hr' : seg h (Lq ++ (p, sp) :: frees T2) BASE).
  { unfold flist in Hr. rewrite frees_app, frees_cons in Hr. cbn [b_free] in Hr. rewrite app_comm_cons, Ep, <- app_assoc in Hr. exact Hr. }
  destruct (join_spec h BASE Lq p sp (frees T2) bp sz Hr' Hszb Hlq Hpb HF ltac:(lia)) as (h' & Rj & Efp & Eb & Ks & Sg).
  destruct (join_up T2 bp sz (brk h) Ht2 ltac:(lia) Hsz Hlim ltac:(lia)) as (Hge & Ht2' & EF & EA & Hco2 & Hin2).
  rewrite <- EF in Sg. set (up := bp + sz =? head_at (frees T2) BASE) in *.
  set (sz' := if up then u32 (sz + siz (frees T2) 0) else sz) in *. set (T2' := if up then tail T2 else T2) in *.
  destruct (low_spec T1 bp Lq p sp Ht1 (proj2 Hb) Ep) as [Elow Hlow]. rewrite Elow in Sg.
  apply coalesced_app in Hco as [Hco1 Hco']. cbn [coalesced b_free] in Hco'. destruct Hco' as [_ Hco']. specialize (Hco2 Hco').
  assert (Hlen : (length (frees T2') <= length (frees T2))%nat) by (rewrite EF; destruct up, (frees T2); cbn; lia).
  clearbody sz' T2'. clear EF up HF Hr'.
  assert (Hrun : free BASE (bp + 1) h = Ok tt h').
  { unfold free, turns. cbn zeta. replace (bp + 1 - 1) with bp by lia. unfold bind at 1 2, gets. unfold bind at 1. by rewrite Hfind. }
  specialize (Hkeep h' Ks). assert (Hkeep' : forall b, b ∈ T1 ++ T2' -> b_free b = false -> hsize h' (b_at b) = b_size b).
  { intros b Hb' Hf. assert (Hb4 : b ∈ T1 ++ T2) by (apply elem_of_app in Hb' as [Hb'|Hb']; [set_solver|apply Hin2 in Hb'; set_solver]).
    assert (Hb3 : b ∈ T1 ++ Block bp sz false :: T2) by set_solver. pose proof (tile_range _ _ _ _ Ht Hb3).
    destruct (Hkeep b Hb4 Hf (b_at b) ltac:(lia)) as [_ ->]. by apply Hal. }
  assert (Hk : kept (allocs (T1 ++ T2)) h h').
  { intros a s x Ha Hx. apply allocs_elem in Ha. apply (Hkeep _ Ha eq_refl). cbn. lia. }
  rewrite <- Eb in Ht2'. exists h'. destruct (lastfree false T1) eqn:El.
  - destruct (Hlow eq_refl) as (T1' & -> & ELq). apply tile_app in Ht1 as (m & Ht1 & Em & Hsp & Esp). cbn in Em, Hsp, Esp. subst m.
    apply coalesced_app in Hco1 as [Hco1 [Hnf _]]. apply tile_le in Ht2' as Hle. apply tile_le in Ht1 as Hle1.
    unfold u32 in Sg. rewrite Z.mod_small in Sg by lia.
    exists (T1' ++ Block p (sp + sz') true :: T2'). split; [done|]. split; [|split; [done|split; [|split; [done|split]]]].
    + apply (freed_hwf h' T1' p (sp + sz') T2' (p, sp + sz')); try done; [lia|lia| | | | |].
      * by rewrite Z.add_assoc, Esp.
      * destruct (lastfree false T1'); [by specialize (Hnf eq_refl)|done].
      * by rewrite ELq.
      * intros b Hb'. apply Hkeep'. set_solver.
      * set_solver.
    + rewrite !allocs_app, !allocs_cons. cbn. by rewrite EA, app_nil_r.
    + rewrite !frees_app, !frees_cons, !length_app. cbn. lia.
    + exists (Block p (sp + sz') true). split; [set_solver|]. cbn. split; [done|lia].
  - exists (T1 ++ Block bp sz' true :: T2'). split; [done|]. split; [|split; [done|split; [|split; [done|split]]]].
    + apply (freed_hwf h' T1 bp sz' T2' (p, sp)); try done; [lia|lia| |].
      * rewrite Ep, <- app_assoc. exact Sg.
      * rewrite Ep. set_solver.
    + rewrite !allocs_app, allocs_cons. cbn. by rewrite EA.
    + rewrite !frees_app, !frees_cons, !length_app. cbn. lia.
    + exists (Block bp sz' true). split; [set_solver|]. done.
Qed.

(** ** More memory *)

(** What [sbrk] grants ends below the kernel, KERNBASE = 2 ^ 31. *)
Context (sbrk_ok : Z -> Z -> bool).
Hypothesis sbrk_below : forall b n, 0 <= n -> sbrk_ok b n = true -> b + n / HEADER <= 2 ^ 28.

Definition grab (nu : Z) : Z := if nu <? 4096 then 4096 else nu.

(** Growing the heap: a block in use at its end. *)
Lemma grow_hwf h T nu : hwf h T -> 1 <= nu -> brk h + nu <= 2 ^ 28 ->
  hwf (Heap (hptr h) (put (brk h) nu (hsize h)) (freep h) (brk h + nu)) (T ++ [Block (brk h) nu false]).
Proof.
  intros [Hb Hlim Ht Hco Hr Hal Hfp] Hn Hl. apply tile_le in Ht as Hle.
  assert (Hne : forall b, b ∈ T -> b_at b <> brk h) by (intros b Hbt; apply (tile_range _ _ _ _ Ht) in Hbt; lia).
  split; cbn [brk hsize hptr freep]; [done|done| | | | |].
  - apply tile_app. exists (brk h). split; [done|]. cbn. lia.
  - apply coalesced_app. split; [done|]. by split.
  - unfold flist in *. rewrite frees_app, app_nil_r. revert Hr. apply seg_frame. cbn [hptr hsize]. apply Forall_forall. intros x Hx.
    split; [|done]. apply put_ne. apply elem_of_cons in Hx as [->|Hx]; [cbn; lia|]. apply (frees_range _ _ _ _ Ht) in Hx. lia.
  - intros b Hbt Hf. apply elem_of_app in Hbt as [Hbt|Hbt]; [rewrite put_ne by auto; auto|].
    apply list_elem_of_singleton in Hbt as ->. apply put_eq.
  - unfold flist in *. by rewrite frees_app, app_nil_r.
Qed.

Lemma hwf_freep h T : hwf h T -> 0 < freep h.
Proof.
  intros [Hb _ Ht _ _ _ (i & Hi & ->)]. assert (Hx := pair_lookup _ _ Hi). apply list_elem_of_lookup_2 in Hx.
  apply elem_of_cons in Hx as [[= -> _]|Hx]; [lia|]. apply (frees_range _ _ _ _ Ht) in Hx. cbn in Hx. lia.
Qed.

Lemma morecore_spec h T n : hwf h T -> 1 <= n -> n < 2 ^ 28 ->
  (sbrk_ok (brk h) (grab n * HEADER) = false /\ morecore BASE sbrk_ok n h = Ok 0 h) \/
  (exists h' T', morecore BASE sbrk_ok n h = Ok (freep h') h' /\ hwf h' T' /\ brk h' = brk h + grab n /\ allocs T' = allocs T /\
     kept (allocs T) h h' /\ (length (frees T') <= S (length (frees T)))%nat /\ exists b, b ∈ T' /\ b_free b = true /\ n <= b_size b).
Proof.
  intros Hw Hn Hlim. pose proof (hw_base _ _ Hw) as Hb. pose proof (tile_le _ _ _ (hw_tile _ _ Hw)) as Hle.
  assert (Hg : n <= grab n < 2 ^ 28) by (unfold grab; destruct (Z.ltb_spec n 4096); lia).
  assert (Ei : i32 (u32 (grab n * HEADER)) = grab n * HEADER).
  { unfold u32. rewrite Z.mod_small by (unfold HEADER; lia). apply i32_small. unfold HEADER; lia. }
  assert (Hs : sbrk sbrk_ok (grab n * HEADER) h =
    if sbrk_ok (brk h) (grab n * HEADER) then Ok (brk h) (Heap (hptr h) (hsize h) (freep h) (brk h + grab n)) else Ok (-1) h).
  { unfold sbrk, bind, gets, modify. rewrite Z.div_mul by done. by destruct sbrk_ok. }
  unfold morecore. fold (grab n). rewrite Ei.
  destruct (sbrk_ok (brk h) (grab n * HEADER)) eqn:Es; [right|left; split; [done|]; unfold bind at 1; by rewrite Hs].
  apply sbrk_below in Es; [|unfold HEADER; lia]. rewrite Z.div_mul in Es by done.
  destruct (free_spec _ T (brk h) (grab n) [] (grow_hwf h T (grab n) Hw ltac:(lia) Es)) as (h' & T' & Rf & Hw' & Eb & EA & Kp & Hl & b & Hbt & Hbf & Hbs).
  rewrite app_nil_r in EA, Kp, Hl. exists h', T'. split; [|split; [done|split; [done|split; [done|split; [|split; [done|]]]]]].
  - unfold bind at 1. rewrite Hs. rewrite (proj2 (Z.eqb_neq _ _)) by lia. unfold bind, set_size, modify. cbn [hptr hsize freep brk]. by rewrite Rf.
  - eapply kept_trans; [|exact Kp]. intros a s x Ha Hx. cbn [hptr hsize]. split; [done|]. apply put_ne.
    apply allocs_elem in Ha. apply (tile_range _ _ _ _ (hw_tile _ _ Hw)) in Ha. cbn in Ha. lia.
  - exists b. split; [done|]. split; [done|]. lia.
Qed.

(** ** Taking a block *)

(** The part of [malloc] that takes the block [p] after [prevp]. *)
Definition take_block (nunits prevp p : Z) : H Z :=
  s ← size p;
  p ← (if s =? nunits then q ← ptr p; set_ptr prevp q;; ret p
       else set_size p (u32 (s - nunits));; s ← size p; set_size (p + s) nunits;; ret (p + s));
  set_freep prevp;;
  ret (p + 1).

Lemma frees_split T F1 x F2 : frees T = F1 ++ x :: F2 ->
  exists T1 T2, T = T1 ++ Block x.1 x.2 true :: T2 /\ frees T1 = F1 /\ frees T2 = F2.
Proof.
  revert F1. induction T as [|b T IH]; intros F1 E; [by destruct F1|]. rewrite frees_cons in E. destruct (b_free b) eqn:Ef.
  - destruct F1 as [|y F1]; cbn in E.
    + injection E as <- <-. exists [], T. destruct b as [a s f]. cbn in Ef. by subst f.
    + injection E as <- E. apply IH in E as (T1 & T2 & -> & E1 & E2). exists (b :: T1), T2. rewrite frees_cons, Ef, E1. done.
  - apply IH in E as (T1 & T2 & -> & E1 & E2). exists (b :: T1), T2. by rewrite frees_cons, Ef.
Qed.

Lemma sorted_mid (L : list (Z * Z)) x R : StronglySorted above (L ++ x :: R) ->
  Forall (fun y => y.1 < x.1) L /\ Forall (fun y => x.1 < y.1) R.
Proof.
  induction L as [|y L IH]; cbn; intros Hs; inversion Hs as [|? ? Hs' Hy]; subst; [by split|]. apply IH in Hs' as [H1 H2].
  split; [|done]. constructor; [|done]. rewrite Forall_forall in Hy. apply (Hy x). set_solver.
Qed.

Lemma coalesced_weak T : coalesced true T -> coalesced false T.
Proof. destruct T; cbn; tauto. Qed.

(** What holds around the block [p] of the list and [pv], the one before. *)
Lemma take_around h T1 p s T2 Lq pv sv : hwf h (T1 ++ Block p s true :: T2) -> (BASE, 0) :: frees T1 = Lq ++ [(pv, sv)] ->
  (0 < p /\ p + s <= 2 ^ 28 /\ tile h0 T1 p /\ 1 <= s /\ tile (p + s) T2 (brk h)) /\
  (pv < p /\ Forall (fun y => y.1 < pv) Lq /\ Forall (fun y => p + s <= y.1) (frees T2)) /\
  seg h Lq pv /\ hsize h pv = sv /\ hptr h pv = p /\ hsize h p = s /\ hptr h p = head_at (frees T2) BASE /\ seg h (frees T2) BASE.
Proof.
  intros [Hb Hlim Ht Hco Hr Hal _] Ep. pose proof (flist_sorted _ _ (proj2 Hb) Ht) as Hs.
  apply tile_app in Ht as (m & Ht1 & Em & Hsz & Ht2). cbn in Em, Hsz, Ht2. subst m. apply tile_le in Ht1 as Hb1. apply tile_le in Ht2 as Hb2.
  unfold flist in Hr, Hs. rewrite frees_app, frees_cons in Hr, Hs. cbn [b_free b_at b_size] in Hr, Hs. rewrite app_comm_cons, Ep, <- app_assoc in Hr, Hs.
  apply sorted_mid in Hs as [Hs1 Hs2]. inversion Hs2 as [|? ? Hpv _]; subst. cbn in Hpv.
  apply seg_app in Hr as [S1 (Ev & Pv & Es & Pp & S3)]. cbn in S1, Ev, Pv, Es, Pp. repeat split; try done; [lia|lia|].
  apply Forall_forall. intros x Hx. apply (frees_range _ _ _ _ Ht2) in Hx. lia.
Qed.

Lemma take_exact h T1 p s T2 Lq pv sv : hwf h (T1 ++ Block p s true :: T2) -> (BASE, 0) :: frees T1 = Lq ++ [(pv, sv)] ->
  let h' := Heap (put pv (head_at (frees T2) BASE) (hptr h)) (hsize h) pv (brk h) in
  hwf h' (T1 ++ Block p s false :: T2) /\ kept (allocs (T1 ++ T2)) h h'.
Proof.
  intros Hw Ep. destruct (take_around h T1 p s T2 Lq pv sv Hw Ep) as ((_ & _ & Ht1 & Hs & Ht2) & (Hpv & HL & HR) & S1 & Ev & Pv & Es & Pp & S3).
  pose proof Hw as [Hb Hlim Ht Hco Hr Hal Hfp]. split.
  - split; cbn [brk hsize hptr freep]; [done|done| | | | |].
    + apply tile_app in Ht as (m & H1 & H2). apply tile_app. exists m. exact (conj H1 H2).
    + apply coalesced_app in Hco as [H1 [H2 H3]]. apply coalesced_app. split; [done|]. split; [done|]. by apply coalesced_weak.
    + unfold flist. rewrite frees_app, frees_cons. cbn [b_free]. rewrite app_comm_cons, Ep, <- app_assoc. apply seg_app. cbn [app head_at fst seg snd hptr hsize].
      rewrite put_eq. split; [|split; [done|split; [done|]]].
      * revert S1. apply seg_frame. eapply Forall_impl; [exact HL|]. cbn. intros x Hx. rewrite put_ne by lia. done.
      * revert S3. apply seg_frame. eapply Forall_impl; [exact HR|]. cbn. intros x Hx. rewrite put_ne by lia. done.
    + intros b Hbt Hf. apply elem_of_app in Hbt as [Hbt|Hbt]; [apply Hal; set_solver|].
      apply elem_of_cons in Hbt as [->|Hbt]; [done|]. apply Hal; set_solver.
    + apply (adr_elem _ (pv, sv)). unfold flist. rewrite frees_app, app_comm_cons, Ep. set_solver.
  - intros a s' x Ha Hx. cbn [hptr hsize]. split; [|done]. apply put_ne. intros ->. apply allocs_elem in Ha.
    apply (node_outside h _ (pv, sv) (Block a s' false) Hw); [|set_solver|done|cbn; lia]. unfold flist. rewrite frees_app, app_comm_cons, Ep. set_solver.
Qed.

Lemma take_split h T1 p s T2 Lq pv sv n : hwf h (T1 ++ Block p s true :: T2) -> (BASE, 0) :: frees T1 = Lq ++ [(pv, sv)] -> 1 <= n < s ->
  let h' := Heap (hptr h) (put (p + (s - n)) n (put p (s - n) (hsize h))) pv (brk h) in
  hwf h' (T1 ++ Block p (s - n) true :: Block (p + (s - n)) n false :: T2) /\ kept (allocs (T1 ++ T2)) h h'.
Proof.
  intros Hw Ep Hn. destruct (take_around h T1 p s T2 Lq pv sv Hw Ep) as ((_ & _ & Ht1 & Hs & Ht2) & (Hpv & HL & HR) & S1 & Ev & Pv & Es & Pp & S3).
  assert (Hout : forall b x, b ∈ T1 ++ T2 -> b_at b <= x < b_at b + b_size b -> x <> p /\ x <> p + (s - n)).
  { intros b x Hb Hx. apply elem_of_app in Hb as [Hb|Hb]; [apply (tile_range _ _ _ _ Ht1) in Hb|apply (tile_range _ _ _ _ Ht2) in Hb]; lia. }
  pose proof Hw as [Hb Hlim Ht Hco Hr Hal Hfp]. split.
  - split; cbn [brk hsize hptr freep]; [done|done| | | | |].
    + apply tile_app. exists p. split; [done|]. cbn. replace (p + (s - n) + n) with (p + s) by lia. repeat split; try done; lia.
    + apply coalesced_app in Hco as [H1 [H2 H3]]. apply coalesced_app. split; [done|]. split; [done|]. split; [done|]. by apply coalesced_weak.
    + unfold flist. rewrite frees_app, !frees_cons. cbn [b_free b_at b_size]. rewrite app_comm_cons, Ep, <- app_assoc. apply seg_app. cbn [app head_at fst seg snd hptr hsize].
      split; [|split; [|split; [done|split; [|split; [done|]]]]].
      * revert S1. apply seg_frame. eapply Forall_impl; [exact HL|]. cbn. intros x Hx. rewrite !put_ne by lia. done.
      * rewrite !put_ne by lia. done.
      * rewrite put_ne by lia. apply put_eq.
      * revert S3. apply seg_frame. eapply Forall_impl; [exact HR|]. cbn. intros x Hx. rewrite !put_ne by lia. done.
    + intros b Hbt Hf. assert (Hcase : b = Block (p + (s - n)) n false \/ b ∈ T1 ++ T2).
      { apply elem_of_app in Hbt as [Hbt|Hbt]; [right; set_solver|]. apply elem_of_cons in Hbt as [->|Hbt]; [done|].
        apply elem_of_cons in Hbt as [->|Hbt]; [by left|right; set_solver]. }
      destruct Hcase as [->|Hc]; [apply put_eq|]. assert (Hbt' : b ∈ T1 ++ Block p s true :: T2) by set_solver.
      pose proof (tile_range _ _ _ _ Ht Hbt'). destruct (Hout b (b_at b) Hc ltac:(lia)). rewrite !put_ne by done. by apply Hal.
    + apply (adr_elem _ (pv, sv)). unfold flist. rewrite frees_app, app_comm_cons, Ep. set_solver.
  - intros a s' x Ha Hx. cbn [hptr hsize]. split; [done|]. apply allocs_elem in Ha. destruct (Hout _ x Ha ltac:(cbn; lia)). by rewrite !put_ne.
Qed.

Lemma take_spec h T1 p s T2 Lq pv sv n : hwf h (T1 ++ Block p s true :: T2) -> (BASE, 0) :: frees T1 = Lq ++ [(pv, sv)] -> 1 <= n <= s ->
  exists h' a T', take_block n pv p h = Ok (a + 1) h' /\ hwf h' T' /\ brk h' = brk h /\ 0 < a /\
    allocs T' = allocs T1 ++ (a, n) :: allocs T2 /\ kept (allocs (T1 ++ T2)) h h'.
Proof.
  intros Hw Ep Hn. destruct (take_around h T1 p s T2 Lq pv sv Hw Ep) as ((Hp & Hl & Ht1 & Hs & Ht2) & _ & _ & _ & _ & Es & Pp & _).
  unfold take_block, size, ptr. unfold bind at 1, gets at 1. rewrite Es. destruct (Z.eqb_spec s n) as [->|Hne].
  - destruct (take_exact h T1 p n T2 Lq pv sv Hw Ep) as [Hw' Hk]. eexists _, p, _. split; [|split; [exact Hw'|]].
    + unfold bind, gets, set_ptr, modify. rewrite Pp. reflexivity.
    + split; [done|]. split; [done|]. split; [|done]. by rewrite allocs_app, allocs_cons.
  - destruct (take_split h T1 p s T2 Lq pv sv n Hw Ep ltac:(lia)) as [Hw' Hk]. eexists _, (p + (s - n)), _. split; [|split; [exact Hw'|]].
    + unfold bind, gets, set_size, modify. cbn [hptr hsize freep brk]. unfold u32. rewrite Z.mod_small, put_eq by lia. reflexivity.
    + split; [done|]. split; [lia|]. split; [|done]. by rewrite allocs_app, !allocs_cons.
Qed.

(** ** The search of [malloc] *)

Definition retry (f : nat) (n : Z) : H Z :=
  r ← morecore BASE sbrk_ok n;
  if r =? 0 then ret 0 else q ← ptr r; malloc_loop BASE sbrk_ok f n r q.

Lemma malloc_loop_step f n prevp p h : malloc_loop BASE sbrk_ok (S f) n prevp p h =
  if n <=? hsize h p then take_block n prevp p h
  else if p =? freep h then retry f n h else malloc_loop BASE sbrk_ok f n p (hptr h p) h.
Proof.
  cbn [malloc_loop]. unfold take_block, size, ptr. unfold bind at 1, gets at 1. destruct (n <=? hsize h p); [done|].
  unfold bind at 1, gets at 1. by destruct (p =? freep h).
Qed.

Lemma adr_inj T hi i j : BASE < h0 -> tile h0 T hi -> (i < length (flist T))%nat -> (j < length (flist T))%nat ->
  adr (flist T) i = adr (flist T) j -> i = j.
Proof.
  intros Hb Ht Hi Hj E. pose proof (flist_sorted T hi Hb Ht) as Hs. destruct (Nat.lt_trichotomy i j) as [?|[?|?]]; [|done|].
  - pose proof (sorted_adr _ Hs i j ltac:(lia)). lia.
  - pose proof (sorted_adr _ Hs j i ltac:(lia)). lia.
Qed.

Lemma scan h T fi n : hwf h T -> (fi < length (flist T))%nat -> freep h = adr (flist T) fi ->
  let l := flist T in forall d i fuel, (i < length l)%nat -> dist l (nxt l i) fi = d -> (d < fuel)%nat ->
  (exists j, (j < length l)%nat /\ n <= siz l (nxt l j) /\
     malloc_loop BASE sbrk_ok fuel n (adr l i) (adr l (nxt l i)) h = take_block n (adr l j) (adr l (nxt l j)) h) \/
  ((forall k, (k < length l)%nat -> (dist l (nxt l i) k <= d)%nat -> siz l k < n) /\
   malloc_loop BASE sbrk_ok fuel n (adr l i) (adr l (nxt l i)) h = retry (fuel - S d) n h).
Proof.
  intros Hw Hfi Efp l. fold l in Hfi, Efp. induction d as [d IH] using lt_wf_ind. intros i fuel Hi Ed Hd. destruct fuel as [|f]; [lia|]. rewrite malloc_loop_step.
  pose proof (nxt_lt l i Hi) as Hn. destruct (ring_node h l (nxt l i) (hw_ring _ _ Hw) Hn) as [-> Hnx].
  destruct (Z.leb_spec n (siz l (nxt l i))) as [Hle|Hgt]; [left; by exists i|]. destruct (Nat.eq_dec (nxt l i) fi) as [E|Hne].
  - assert (Ez : d = 0%nat) by (rewrite <- Ed, E; unfold dist; rewrite Nat.leb_refl; lia). clear IH Ed. subst d. right. split.
    + intros k Hk Hdk. destruct (Nat.eq_dec (nxt l i) k) as [<-|Hnk]; [done|]. rewrite (dist_nxt l (nxt l i) k) in Hdk by done. lia.
    + rewrite E, <- Efp, Z.eqb_refl. by rewrite Nat.sub_succ, Nat.sub_0_r.
  - assert (Hna : adr l (nxt l i) <> freep h).
    { rewrite Efp. intros Ha. apply Hne. by eapply (adr_inj T _ _ _ (proj2 (hw_base _ _ Hw)) (hw_tile _ _ Hw)). }
    apply Z.eqb_neq in Hna as ->. rewrite Hnx. rewrite (dist_nxt l (nxt l i) fi) in Ed by done.
    destruct (IH (dist l (nxt l (nxt l i)) fi) ltac:(lia) (nxt l i) f Hn eq_refl ltac:(lia)) as [Hl|[Hall Hr]]; [by left|right]. split.
    + intros k Hk Hdk. destruct (Nat.eq_dec (nxt l i) k) as [<-|Hnk]; [done|]. rewrite (dist_nxt l (nxt l i) k) in Hdk by done. apply Hall; [done|lia].
    + rewrite Hr. f_equal. lia.
Qed.

Lemma slot T j : (S j < length (flist T))%nat ->
  exists T1 T2 Lq, T = T1 ++ Block (adr (flist T) (S j)) (siz (flist T) (S j)) true :: T2 /\
    (BASE, 0) :: frees T1 = Lq ++ [(adr (flist T) j, siz (flist T) j)].
Proof.
  intros Hj. pose proof (pair_lookup (flist T) (S j) Hj) as E1. pose proof (pair_lookup (flist T) j ltac:(lia)) as E2.
  cbn [flist lookup list_lookup] in E1. apply list_elem_of_split_length in E1 as (F1 & F2 & EF & EL).
  assert (ET : exists T1 T2, T = T1 ++ Block (adr (flist T) (S j)) (siz (flist T) (S j)) true :: T2 /\ frees T1 = F1 /\ frees T2 = F2) by by apply frees_split in EF.
  destruct ET as (T1 & T2 & ET & Ef1 & _). exists T1, T2, (take j (flist T)). split; [exact ET|].
  rewrite <- (take_S_r _ _ _ E2), Ef1. unfold flist. cbn [take]. by rewrite EF, take_app_length'.
Qed.

(** A search that ends with a block. *)
Lemma found h T j n : hwf h T -> (j < length (flist T))%nat -> 1 <= n <= siz (flist T) (nxt (flist T) j) ->
  exists h' a T', take_block n (adr (flist T) j) (adr (flist T) (nxt (flist T) j)) h = Ok (a + 1) h' /\ hwf h' T' /\ brk h' = brk h /\ 0 < a /\
    allocs T' ≡ₚ (a, n) :: allocs T /\ kept (allocs T) h h'.
Proof.
  intros Hw Hj Hn. assert (Hnx : nxt (flist T) j = S j).
  { unfold nxt in *. destruct (Nat.eqb_spec (S j) (length (flist T))); [cbn in Hn; lia|done]. }
  pose proof (nxt_lt _ _ Hj) as Hlt. rewrite Hnx in *. destruct (slot T j Hlt) as (T1 & T2 & Lq & ET & Ep).
  set (p := adr (flist T) (S j)) in *. set (s := siz (flist T) (S j)) in *. set (pv := adr (flist T) j) in *. set (sv := siz (flist T) j) in *. clearbody p s pv sv.
  rewrite ET in Hw. destruct (take_spec h T1 p s T2 Lq pv sv n Hw Ep Hn) as (h' & a & T' & R & Hw' & Eb & Ha & EA & Hk).
  exists h', a, T'. rewrite ET. rewrite allocs_app in *. rewrite allocs_cons. cbn [b_free]. do 4 (split; [done|]). split; [|done].
  rewrite EA. symmetry. apply Permutation_middle.
Qed.

(** The sizes met on a whole turn. *)
Lemma all_small T fi n : let l := flist T in (fi < length l)%nat ->
  (forall k, (k < length l)%nat -> (dist l (nxt l fi) k <= dist l (nxt l fi) fi)%nat -> siz l k < n) ->
  forall b, b ∈ T -> b_free b = true -> b_size b < n.
Proof.
  intros l Hfi Hall b Hb Hf. assert (Hx : (b_at b, b_size b) ∈ l).
  { right. unfold frees. apply list_elem_of_fmap. exists b. split; [done|]. by apply list_elem_of_filter. }
  apply list_elem_of_lookup in Hx as [k Hk]. pose proof (lookup_lt_Some _ _ _ Hk) as Hlt.
  assert (E : siz l k = b_size b) by (unfold siz, nthd; by rewrite Hk). rewrite <- E. apply Hall; [done|].
  pose proof (dist_lt l (nxt l fi) k (nxt_lt l fi Hfi) Hlt). unfold dist, nxt in *.
  destruct (Nat.eqb_spec (S fi) (length l)); destruct (Nat.leb_spec 0 fi), (Nat.leb_spec (S fi) fi), (Nat.leb_spec 0 k), (Nat.leb_spec (S fi) k); lia.
Qed.

(** [malloc] once the list has been set up. *)
Definition malloc_run (n : Z) : H Z :=
  prevp ← gets freep;
  p ← ptr prevp;
  k ← turns BASE;
  malloc_loop BASE sbrk_ok (2 * k + 2) n prevp p.

Lemma malloc_run_spec h T n : hwf h T -> 1 <= n -> n < 2 ^ 28 ->
  (malloc_run n h = Ok 0 h /\ sbrk_ok (brk h) (grab n * HEADER) = false /\ (forall b, b ∈ T -> b_free b = true -> b_size b < n)) \/
  (exists h' a T', malloc_run n h = Ok (a + 1) h' /\ hwf h' T' /\ 0 < a /\ allocs T' ≡ₚ (a, n) :: allocs T /\ kept (allocs T) h h' /\
     (brk h' = brk h \/ (brk h' = brk h + grab n /\ forall b, b ∈ T -> b_free b = true -> b_size b < n))).
Proof.
  intros Hw Hn Hlim. pose proof (turns_enough h T Hw) as Htn. destruct (hw_freep _ _ Hw) as (fi & Hfi & Efp).
  destruct (ring_node h (flist T) fi (hw_ring _ _ Hw) Hfi) as [_ Hnx]. pose proof (dist_lt _ _ _ (nxt_lt _ _ Hfi) Hfi) as Hd.
  unfold malloc_run, ptr, turns. unfold bind, gets. rewrite Efp, Hnx. set (k := Z.to_nat (brk h - BASE)) in *.
  destruct (scan h T fi n Hw Hfi Efp _ fi (2 * k + 2)%nat Hfi eq_refl ltac:(lia)) as [(j & Hj & Hs & R)|[Hall R]]; rewrite R.
  - right. destruct (found h T j n Hw Hj ltac:(lia)) as (h' & a & T' & R' & Hw' & Eb & Ha & EA & Hk). exists h', a, T'. eauto 10.
  - pose proof (all_small T fi n Hfi Hall) as Hsm. clear Hall. set (f := (2 * k + 2 - _)%nat). assert (Hf : (S (length (flist T)) < f)%nat) by (unfold f; lia). clearbody f. clear R.
    unfold retry. destruct (morecore_spec h T n Hw Hn Hlim) as [[Hno R]|(h1 & T1 & R & Hw1 & Eb1 & EA1 & Hk1 & Hl1 & b & Hb & Hbf & Hbs)];
      [left; unfold bind at 1; by rewrite R|right].
    unfold bind at 1. rewrite R. pose proof (hwf_freep _ _ Hw1) as Hp. rewrite (proj2 (Z.eqb_neq _ _)) by lia. destruct (hw_freep _ _ Hw1) as (gi & Hgi & Egp).
    destruct (ring_node h1 (flist T1) gi (hw_ring _ _ Hw1) Hgi) as [_ Hnx1]. pose proof (dist_lt _ _ _ (nxt_lt _ _ Hgi) Hgi) as Hd1.
    unfold bind, ptr, gets. rewrite Egp, Hnx1. assert (Hlf : (length (flist T1) < f)%nat) by (cbn in *; lia).
    destruct (scan h1 T1 gi n Hw1 Hgi Egp _ gi f Hgi eq_refl ltac:(lia)) as [(j & Hj & Hs & R')|[Hall1 _]].
    + rewrite R'. destruct (found h1 T1 j n Hw1 Hj ltac:(lia)) as (h' & a & T' & R2 & Hw' & Eb & Ha & EA & Hk).
      exists h', a, T'. rewrite EA1 in EA, Hk. split; [done|]. split; [done|]. split; [done|]. split; [done|].
      split; [by eapply kept_trans|]. right. split; [congruence|done].
    + pose proof (all_small T1 gi n Hgi Hall1 b Hb Hbf). lia.
Qed.

(** ** The program's view *)

(** The states a program reaches with the blocks [A] in its hands: it calls
    [malloc] and [free] and writes what it likes inside its blocks. *)
Inductive uses : list (Z * Z) -> heap -> Prop :=
| u_start h : freep h = 0 -> brk h = h0 -> uses [] h
| u_malloc A h nbytes r h' : uses A h -> 0 <= nbytes <= 2 ^ 31 - 16 -> malloc BASE sbrk_ok nbytes h = Ok r h' ->
    uses (if r =? 0 then A else (r - 1, units nbytes) :: A) h'
| u_free A1 a s A2 h h' : uses (A1 ++ (a, s) :: A2) h -> free BASE (a + 1) h = Ok tt h' -> uses (A1 ++ A2) h'
| u_write A h a s x v w : uses A h -> (a, s) ∈ A -> a < x < a + s ->
    uses A (Heap (put x v (hptr h)) (put x w (hsize h)) (freep h) (brk h)).

Definition inv (A : list (Z * Z)) (h : heap) : Prop :=
  (freep h = 0 /\ A = [] /\ brk h = h0) \/ exists T, hwf h T /\ A ≡ₚ allocs T.

Hypothesis base_below : 0 < BASE < h0.
Hypothesis start_below : h0 <= 2 ^ 28.

Definition ready (h : heap) : heap :=
  if freep h =? 0 then Heap (put BASE BASE (hptr h)) (put BASE 0 (hsize h)) BASE (brk h) else h.

Lemma malloc_ready nbytes h : malloc BASE sbrk_ok nbytes h = malloc_run (units nbytes) (ready h).
Proof. unfold malloc, ready. unfold bind at 1, gets at 1. destruct (freep h =? 0); reflexivity. Qed.

Lemma inv_ready A h : inv A h -> exists T, hwf (ready h) T /\ A ≡ₚ allocs T /\ kept A h (ready h) /\ brk (ready h) = brk h.
Proof.
  intros [(Ef & -> & Eb)|(T & Hw & HA)]; unfold ready.
  - rewrite Ef. exists []. split; [|split; [done|split; [|done]]].
    + split; cbn [Z.eqb brk hsize hptr freep]; [done|lia|done|done| |intros b Hb; by apply not_elem_of_nil in Hb|].
      * cbn. by rewrite !put_eq.
      * exists 0%nat. cbn. split; [lia|done].
    + intros a s x Ha. by apply not_elem_of_nil in Ha.
  - apply hwf_freep in Hw as Hf. rewrite (proj2 (Z.eqb_neq _ _)) by lia. exists T. by repeat (split; [done|]).
Qed.

Lemma units_range nbytes : 0 <= nbytes <= 2 ^ 31 - 16 ->
  1 <= units nbytes < 2 ^ 28 /\ nbytes <= HEADER * (units nbytes - 1) < nbytes + HEADER.
Proof.
  intros Hn. unfold units, u32, HEADER. rewrite Z.mod_small by lia. pose proof (Z.div_mod (nbytes + 8 - 1) 8 ltac:(lia)).
  pose proof (Z.mod_pos_bound (nbytes + 8 - 1) 8 ltac:(lia)). lia.
Qed.

(** A write inside a block in use. *)
Lemma hwf_write h T b x v w : hwf h T -> b ∈ T -> b_free b = false -> b_at b < x < b_at b + b_size b ->
  hwf (Heap (put x v (hptr h)) (put x w (hsize h)) (freep h) (brk h)) T.
Proof.
  intros Hw Hb Hf Hx. pose proof (node_outside h T) as Hout. pose proof Hw as [Hbs Hlim Ht Hco Hr Hal Hfp].
  split; cbn [brk hsize hptr freep]; [done..| | |done].
  - revert Hr. apply seg_frame. cbn. apply Forall_forall. intros y Hy. specialize (Hout y b Hw Hy Hb Hf). by rewrite !put_ne by lia.
  - intros c Hc Hcf. rewrite put_ne; [by apply Hal|]. intros E. apply list_elem_of_split in Hb as (T1 & T2 & ->).
    apply tile_app in Ht as (m & Ht1 & Em & Hs & Ht2). apply elem_of_app in Hc as [Hc|Hc]; [apply (tile_range _ _ _ _ Ht1) in Hc; lia|].
    apply elem_of_cons in Hc as [->|Hc]; [lia|]. apply (tile_range _ _ _ _ Ht2) in Hc. lia.
Qed.

Lemma inv_malloc A h nbytes : inv A h -> 0 <= nbytes <= 2 ^ 31 - 16 ->
  (malloc BASE sbrk_ok nbytes h = Ok 0 (ready h) /\ inv A (ready h) /\ kept A h (ready h) /\
     sbrk_ok (brk h) (grab (units nbytes) * HEADER) = false /\
     exists T, hwf (ready h) T /\ A ≡ₚ allocs T /\ forall b, b ∈ T -> b_free b = true -> b_size b < units nbytes) \/
  (exists h' a, malloc BASE sbrk_ok nbytes h = Ok (a + 1) h' /\ 0 < a /\ inv ((a, units nbytes) :: A) h' /\ kept A h h' /\
     (brk h' = brk h \/
      exists T, hwf (ready h) T /\ A ≡ₚ allocs T /\ forall b, b ∈ T -> b_free b = true -> b_size b < units nbytes)).
Proof.
  intros Hi Hn. destruct (units_range nbytes Hn) as [Hu _]. destruct (inv_ready A h Hi) as (T & Hw & HA & Hk & Eb). rewrite malloc_ready.
  destruct (malloc_run_spec (ready h) T (units nbytes) Hw (proj1 Hu) (proj2 Hu)) as [(R & Hno & Hsm)|(h' & a & T' & R & Hw' & Ha & EA & Hk' & Hbrk)].
  - left. rewrite Eb in Hno. split; [done|]. split; [right; eauto|]. eauto 10.
  - right. exists h', a. split; [done|]. split; [done|]. split; [|split].
    + right. exists T'. by rewrite EA, HA.
    + eapply kept_trans; [exact Hk|]. intros b s x Hb. apply Hk'. by rewrite <- HA.
    + destruct Hbrk as [->|[_ Hsm]]; [by left|right; eauto].
Qed.

Lemma inv_free A1 a s A2 h : inv (A1 ++ (a, s) :: A2) h ->
  exists h', free BASE (a + 1) h = Ok tt h' /\ inv (A1 ++ A2) h' /\ kept (A1 ++ A2) h h' /\ brk h' = brk h.
Proof.
  intros [(_ & E & _)|(T & Hw & HA)]; [by destruct A1|]. assert (Ha : (a, s) ∈ allocs T) by (rewrite <- HA; set_solver).
  apply allocs_elem, list_elem_of_split in Ha as (T1 & T2 & ->). rewrite allocs_app, allocs_cons in HA. cbn in HA.
  apply Permutation_app_inv in HA. rewrite <- allocs_app in HA.
  destruct (free_spec h T1 a s T2 Hw) as (h' & T' & R & Hw' & Eb & EA & Hk & _). exists h'. split; [done|]. split; [|split; [|done]].
  - right. exists T'. by rewrite EA.
  - intros b t x Hb. apply Hk. by rewrite <- HA.
Qed.

Lemma uses_inv A h : uses A h -> inv A h.
Proof.
  induction 1 as [h Hf Hb|A h nbytes r h' _ IH Hn R|A1 a s A2 h h' _ IH R|A h a s x v w _ IH Ha Hx].
  - by left.
  - destruct (inv_malloc A h nbytes IH Hn) as [(R' & Hi & _)|(h2 & a & R' & Ha & Hi & _)]; rewrite R' in R; injection R as <- <-; [done|].
    rewrite (proj2 (Z.eqb_neq _ _)) by lia. by replace (a + 1 - 1) with a by lia.
  - destruct (inv_free A1 a s A2 h IH) as (h2 & R' & Hi & _). rewrite R' in R. by injection R as <-.
  - destruct IH as [(_ & -> & _)|(T & Hw & HA)]; [by apply not_elem_of_nil in Ha|]. right. exists T. split; [|done].
    rewrite HA in Ha. apply allocs_elem in Ha. by apply (hwf_write h T (Block a s false)).
Qed.

(** The blocks of [A] are inside the heap and do not overlap. *)
Definition placed (A : list (Z * Z)) (h : heap) : Prop :=
  NoDup A.*1 /\ (forall a s, (a, s) ∈ A -> h0 <= a /\ 1 <= s /\ a + s <= brk h) /\
  (forall a s b t, (a, s) ∈ A -> (b, t) ∈ A -> a < b -> a + s <= b).

Lemma tile_apart lo T hi b c : tile lo T hi -> b ∈ T -> c ∈ T -> b_at b < b_at c -> b_at b + b_size b <= b_at c.
Proof.
  intros Ht Hb Hc Hlt. apply list_elem_of_split in Hb as (T1 & T2 & ->). apply tile_app in Ht as (m & Ht1 & Em & Hs & Ht2).
  apply elem_of_app in Hc as [Hc|Hc]; [apply (tile_range _ _ _ _ Ht1) in Hc; lia|].
  apply elem_of_cons in Hc as [->|Hc]; [lia|]. apply (tile_range _ _ _ _ Ht2) in Hc. lia.
Qed.

Lemma allocs_nodup lo T hi : tile lo T hi -> NoDup (allocs T).*1.
Proof.
  revert lo. induction T as [|b T IH]; intros lo Ht; [constructor|]. destruct Ht as (Eb & Hs & Ht). rewrite allocs_cons.
  destruct (b_free b); [by eapply IH|]. cbn. constructor; [|by eapply IH]. intros Hx. apply list_elem_of_fmap in Hx as ([a s] & E & Hx).
  apply allocs_elem in Hx. apply (tile_range _ _ _ _ Ht) in Hx. cbn in *. lia.
Qed.

Lemma inv_placed A h : inv A h -> placed A h.
Proof.
  intros [(_ & -> & _)|(T & Hw & HA)].
  - split; [constructor|]. split; intros a s; [intros Ha|intros b t Ha]; by apply not_elem_of_nil in Ha.
  - pose proof (hw_tile _ _ Hw) as Ht. split; [rewrite HA; by eapply allocs_nodup|]. split.
    + intros a s Ha. rewrite HA in Ha. apply allocs_elem in Ha. apply (tile_range _ _ _ _ Ht Ha).
    + intros a s b t Ha Hb Hlt. rewrite HA in Ha, Hb. apply allocs_elem in Ha, Hb. apply (tile_apart _ _ _ _ _ Ht Ha Hb Hlt).
Qed.

(** In a coalesced tiling a gap lies in one free block. *)
Lemma gap_block T lo hi prev g n : tile lo T hi -> coalesced prev T -> lo <= g -> 1 <= n -> g + n <= hi ->
  (forall a s, (a, s) ∈ allocs T -> g + n <= a \/ a + s <= g) -> exists b, b ∈ T /\ b_free b = true /\ n <= b_size b.
Proof.
  revert lo prev. induction T as [|b T IH]; intros lo prev Ht Hco Hg Hn Hhi Hgap; [cbn in Ht; lia|]. destruct Ht as (Eb & Hs & Ht). destruct Hco as [_ Hco].
  assert (Hgap' : forall a s, (a, s) ∈ allocs T -> g + n <= a \/ a + s <= g).
  { intros a s Ha. apply Hgap. rewrite allocs_cons. destruct (b_free b); [done|by right]. }
  destruct (Z.le_gt_cases (lo + b_size b) g) as [Hge|Hlt].
  { destruct (IH _ _ Ht Hco Hge Hn Hhi Hgap') as (c & Hc & Hr). exists c. split; [by right|done]. }
  destruct (b_free b) eqn:Ef; [|rewrite allocs_cons, Ef in Hgap; destruct (Hgap (b_at b) (b_size b) ltac:(by left)); lia].
  destruct (Z.le_gt_cases n (b_size b)) as [Hle|Hgt]; [exists b; split; [by left|done]|].
  destruct T as [|c T]; [cbn in Ht; lia|]. destruct Ht as (Ec & Hsc & _). destruct Hco as [Hcf _]. specialize (Hcf eq_refl).
  rewrite allocs_cons, Hcf in Hgap'. destruct (Hgap' (b_at c) (b_size c) ltac:(by left)); lia.
Qed.
End Inv.

(** ** Properties *)

(** C29: in every state a program reaches with [malloc], [free] and writes
    inside its blocks, its blocks lie in the heap and do not overlap; [malloc]
    returns, with 0 only when the system refuses memory and otherwise with
    another such block, of at least the size asked for; [free] of any block
    returns; and neither changes what is stored in the blocks that are kept. *)
Theorem umalloc_safe BASE h0 sbrk_ok A h :
  0 < BASE < h0 -> h0 <= 2 ^ 28 -> (forall b n, 0 <= n -> sbrk_ok b n = true -> b + n / HEADER <= 2 ^ 28) ->
  uses BASE h0 sbrk_ok A h ->
  placed h0 A h /\
  (forall nbytes, 0 <= nbytes <= 2 ^ 31 - 16 ->
     exists r h', malloc BASE sbrk_ok nbytes h = Ok r h' /\ kept A h h' /\
       if r =? 0 then sbrk_ok (brk h) (grab (units nbytes) * HEADER) = false
       else placed h0 ((r - 1, units nbytes) :: A) h' /\ nbytes <= HEADER * (units nbytes - 1)) /\
  (forall A1 a s A2, A = A1 ++ (a, s) :: A2 ->
     exists h', free BASE (a + 1) h = Ok tt h' /\ kept (A1 ++ A2) h h' /\ brk h' = brk h).
Proof.
  intros Hb Hl Hs Hu. apply (uses_inv BASE h0 sbrk_ok Hs Hb Hl) in Hu as Hi. split; [by apply (inv_placed BASE)|]. split.
  - intros nbytes Hn. destruct (inv_malloc BASE h0 sbrk_ok Hs Hb Hl A h nbytes Hi Hn) as [(R & _ & Hk & Hno & _)|(h' & a & R & Ha & Hi' & Hk & _)].
    + by exists 0, (ready BASE h).
    + exists (a + 1), h'. split; [done|]. split; [done|]. rewrite (proj2 (Z.eqb_neq _ _)) by lia. replace (a + 1 - 1) with a by lia.
      split; [by apply (inv_placed BASE)|]. by apply units_range.
  - intros A1 a s A2 ->. destruct (inv_free BASE h0 sbrk_ok Hs Hb Hl A1 a s A2 h Hi) as (h' & R & _ & Hk & Eb). by exists h'.
Qed.

(** Memory that is given back is used again: when some stretch of the
    heap that is long enough overlaps no block in use, [malloc] succeeds
    without growing the heap, however the stretch was freed. *)
Theorem malloc_reuses BASE h0 sbrk_ok A h nbytes g :
  0 < BASE < h0 -> h0 <= 2 ^ 28 -> (forall b n, 0 <= n -> sbrk_ok b n = true -> b + n / HEADER <= 2 ^ 28) ->
  uses BASE h0 sbrk_ok A h -> 0 <= nbytes <= 2 ^ 31 - 16 ->
  h0 <= g -> g + units nbytes <= brk h -> (forall a s, (a, s) ∈ A -> g + units nbytes <= a \/ a + s <= g) ->
  exists r h', malloc BASE sbrk_ok nbytes h = Ok r h' /\ r <> 0 /\ brk h' = brk h.
Proof.
  intros Hb Hl Hs Hu Hn Hg Hge Hgap. apply (uses_inv BASE h0 sbrk_ok Hs Hb Hl) in Hu as Hi. destruct (units_range nbytes Hn) as [Hun _].
  assert (Hbig : forall T, hwf BASE h0 (ready BASE h) T -> A ≡ₚ allocs T -> ~ (forall b, b ∈ T -> b_free b = true -> b_size b < units nbytes)).
  { intros T Hw HA Hsm. destruct (gap_block T h0 (brk (ready BASE h)) false g (units nbytes)) as (b & Hbt & Hbf & Hbs); [apply Hw|apply Hw|lia|lia| | |].
    - unfold ready. by destruct (freep h =? 0).
    - intros a s Ha. apply Hgap. by rewrite HA.
    - specialize (Hsm b Hbt Hbf). lia. }
  destruct (inv_malloc BASE h0 sbrk_ok Hs Hb Hl A h nbytes Hi Hn) as [(_ & _ & _ & _ & T & Hw & HA & Hsm)|(h' & a & R & Ha & _ & _ & [Eb|(T & Hw & HA & Hsm)])].
  - by destruct (Hbig T Hw HA).
  - exists (a + 1), h'. split; [done|]. split; [lia|done].
  - by destruct (Hbig T Hw HA).
Qed.

(** The size computation overflows: the largest request gets one header and
    no byte. *)
Lemma malloc_overflow : units (2 ^ 32 - 1) = 1.
Proof. reflexivity. Qed.

(** ** Witnesses *)

Definition smp_sbrk (b n : Z) : bool := b + n / HEADER <=? 2 ^ 28.
Definition smp_start : heap := Heap (fun _ => 0) (fun _ => 0) 0 1024.
Definition smp_after {A} (o : outcome heap A) : heap := match o with Ok _ h => h | _ => smp_start end.
(** Three blocks, the first one written and the second given back. *)
Definition smp_h1 : heap := smp_after (malloc 8 smp_sbrk 100 smp_start).
Definition smp_h2 : heap := smp_after (malloc 8 smp_sbrk 20000 smp_h1).
Definition smp_h3 : heap := smp_after (malloc 8 smp_sbrk 40 smp_h2).
Definition smp_h4 : heap := Heap (put 5110 7 (hptr smp_h3)) (put 5110 9 (hsize smp_h3)) (freep smp_h3) (brk smp_h3).
Definition smp_h5 : heap := smp_after (free 8 2606 smp_h4).

Lemma smp_sbrk_below b n : 0 <= n -> smp_sbrk b n = true -> b + n / HEADER <= 2 ^ 28.
Proof. intros _ H. by apply Z.leb_le. Qed.

Lemma smp_ok {A} (o : outcome heap A) r : (match o with Ok x _ => Some x | _ => None end) = Some r -> o = Ok r (smp_after o).
Proof. destruct o; cbn; congruence. Qed.

Lemma smp_uses : uses 8 1024 smp_sbrk [(2599, 6); (5106, 14)] smp_h5.
Proof.
  apply (u_free _ _ _ [(2599, 6)] 2605 2501 [(5106, 14)] smp_h4); [|by apply smp_ok; vm_compute].
  apply (u_write _ _ _ _ smp_h3 5106 14); [|set_solver|lia].
  apply (u_malloc _ _ _ [(2605, 2501); (5106, 14)] smp_h2 40 2600); [|lia|by apply smp_ok; vm_compute].
  apply (u_malloc _ _ _ [(5106, 14)] smp_h1 20000 2606); [|lia|by apply smp_ok; vm_compute].
  apply (u_malloc _ _ _ [] smp_start 100 5107); [|lia|by apply smp_ok; vm_compute].
  by apply u_start.
Qed.

Lemma umalloc_safe_witness : placed 1024 [(2599, 6); (5106, 14)] smp_h5 /\
  (exists r h', malloc 8 smp_sbrk 64 smp_h5 = Ok r h' /\ kept [(2599, 6); (5106, 14)] smp_h5 h') /\
  (exists h', free 8 5107 smp_h5 = Ok tt h').
Proof.
  destruct (umalloc_safe 8 1024 smp_sbrk [(2599, 6); (5106, 14)] smp_h5 ltac:(lia) ltac:(lia) smp_sbrk_below smp_uses) as (H1 & H2 & H3).
  split; [exact H1|]. split.
  - destruct (H2 64 ltac:(lia)) as (r & h' & R & Hk & _). exists r, h'. exact (conj R Hk).
  - destruct (H3 [(2599, 6)] 5106 14 [] eq_refl) as (h' & R & _). exists h'. exact R.
Defined.

Lemma malloc_reuses_witness : exists r h', malloc 8 smp_sbrk 20000 smp_h5 = Ok r h' /\ r <> 0 /\ brk h' = brk smp_h5.
Proof.
  apply (malloc_reuses 8 1024 smp_sbrk [(2599, 6); (5106, 14)] smp_h5 20000 2605);
    [lia|lia|exact smp_sbrk_below|exact smp_uses|lia|lia|by vm_compute|].
  intros a s Ha. change (units 20000) with 2501. apply elem_of_cons in Ha as [[= -> ->]|Ha]; [lia|].
  apply list_elem_of_singleton in Ha as [= -> ->]. lia.
Defined.
