(* ===== verification/Mkfs.v ===== *)
(** mkfs.c, the program that builds the disk image on the host, and the image
    it builds.

    The image file is a list of sectors.  A [struct dinode] in memory is its
    128 bytes and a [struct dirent] its 16, on a little-endian host, where
    [xint] and [xshort] change nothing.  A failed assertion or host call ends
    the program ([Panic]).  A file to copy is its name and the pieces in which
    the host's [read] returns it. *)
From stdpp Require Import base numbers list strings.
From Stdlib Require Import ZArith Lia.
From S2P Require Import Prelude Params CString Users Namecache Bio Log Store Fs Balloc Inode Content Writei Dir.

Local Open Scope list_scope.
Local Open Scope Z_scope.
Local Open Scope kernel_scope.

Definition NINODES : Z := 200.
Definition nbitmap : Z := FSSIZE / (BSIZE * 8) + 1.
Definition ninodeblocks : Z := NINODES / IPB + 1.
Definition nlog : Z := LOGSIZE.
Definition nmeta : Z := 2 + nlog + ninodeblocks + nbitmap.
Definition mk_sb : superblock :=
  Superblock FSSIZE (FSSIZE - nmeta) NINODES nlog 2 (2 + nlog) (2 + nlog + ninodeblocks).

Lemma nmeta_val : nmeta = 40.
Proof. done. Qed.

Record mkst := Mkst { img : list block; freeinode : Z; freeblock : Z }.
Abbreviation K := (M mkst).
Definition set_img (l : list block) (s : mkst) : mkst := Mkst l (freeinode s) (freeblock s).

(** The sector [k] of a file; writing past its end extends it. *)
Definition sect (l : list block) (b : Z) : block := nthd zero_block l (Z.to_nat b).
Definition put_sect (k : nat) (d : block) (l : list block) : list block :=
  if Nat.ltb k (length l) then <[k := d]> l else l ++ replicate (k - length l) zero_block ++ [d].

Definition wsect (sec : Z) (buf : block) : K unit := modify (fun s => set_img (put_sect (Z.to_nat sec) buf (img s)) s).
Definition rsect (sec : Z) : K block :=
  n ← gets (fun s => Z.of_nat (length (img s)));
  if sec <? n then gets (fun s => sect (img s) sec) else panic "read".

Definition disz : nat := 128.
Definition winode (inum : Z) (ip : list Z) : K unit :=
  let bn := IBLOCK inum mk_sb in
  buf ← rsect bn;
  wsect bn (splice (dip_off inum) ip buf).
Definition rinode (inum : Z) : K (list Z) :=
  let bn := IBLOCK inum mk_sb in
  buf ← rsect bn;
  ret (slice (dip_off inum) disz buf).

(** [din.size] and [din.addrs[k]]. *)
Definition din_size (din : list Z) : Z := rd 4 8 din.
Definition din_addr (din : list Z) (k : nat) : Z := rd 4 (addr_off 0 k) din.

Definition mk_ialloc (type : Z) : K Z :=
  inum ← gets freeinode;
  modify (fun s => Mkst (img s) (u32 (freeinode s + 1)) (freeblock s));;
  let din := wr 4 8 0 (wr 2 6 1 (wr 2 0 type (replicate disz 0))) in
  winode inum din;;
  ret inum.

Definition mk_balloc (used : Z) : K unit :=
  if BSIZE * 8 <=? used then panic "assert"
  else wsect (sb_bmapstart mk_sb) (foldl (fun buf i => put_byte buf i (Z.lor (data_byte buf i) (bit_mask i))) zero_block (seqZ 0 used)).

(** [freeblock++] *)
Definition fresh : K Z :=
  b ← gets freeblock;
  modify (fun s => Mkst (img s) (freeinode s) (u32 (b + 1)));;
  ret b.

(** The block [fbn] of the file, with its inode. *)
Definition find_block (din : list Z) (fbn : Z) : K (list Z * Z) :=
  if fbn <? NDIRECT then
    let k := Z.to_nat fbn in
    din ← (if din_addr din k =? 0 then b ← fresh; ret (wr 4 (addr_off 0 k) b din) else ret din);
    ret (din, din_addr din k)
  else
    let k := Z.to_nat NDIRECT in
    din ← (if din_addr din k =? 0 then b ← fresh; ret (wr 4 (addr_off 0 k) b din) else ret din);
    indirect ← rsect (din_addr din k);
    let e := (4 * Z.to_nat (fbn - NDIRECT))%nat in
    indirect ← (if rd 4 e indirect =? 0 then
                  b ← fresh;
                  let indirect := wr 4 e b indirect in
                  wsect (din_addr din k) indirect;;
                  ret indirect
                else ret indirect);
    ret (din, rd 4 e indirect).

Fixpoint iappend_loop (fuel : nat) (din : list Z) (off : Z) (p : list Z) (n : Z) : K (list Z * Z) :=
  match fuel with
  | O => blocked "loop"
  | S f =>
      if n <=? 0 then ret (din, off)
      else
        let fbn := off / BSIZE in
        if MAXFILE <=? fbn then panic "assert"
        else
          '(din, x) ← find_block din fbn;
          let n1 := Z.min n ((fbn + 1) * BSIZE - off) in
          buf ← rsect x;
          wsect x (splice (Z.to_nat (off - fbn * BSIZE)) (take (Z.to_nat n1) p) buf);;
          iappend_loop f din (off + n1) (drop (Z.to_nat n1) p) (n - n1)
  end.

Definition iappend (inum : Z) (p : list Z) (n : Z) : K unit :=
  din ← rinode inum;
  '(din, off) ← iappend_loop (S (Z.to_nat n)) din (din_size din) p n;
  winode inum (wr 4 8 off din).

Definition de_of (inum : Z) (name : list Z) : list Z := enc_dirent (Dirent (u16 inum) name).
Definition DOTCH : Z := 46.
Definition UNDERSCORE : Z := 95.
Definition noname : list Z := replicate (Z.to_nat DIRSIZ) 0.

(** One turn of the loop over the files: the name on the command line, and
    the pieces [read] returns, if the file can be opened. *)
Definition short_name (arg : list Z) : list Z := match arg with c :: a => if c =? UNDERSCORE then a else arg | [] => [] end.
Definition add_file (rootino : Z) (f : list Z * option (list (list Z))) : K unit :=
  let '(arg, file) := f in
  if existsb (fun c => c =? SLASH) arg then panic "assert"
  else
    match file with
    | None => panic "open"
    | Some pieces =>
        inum ← mk_ialloc T_FILE;
        iappend rootino (de_of inum (strncpy (Z.to_nat DIRSIZ) noname (short_name arg))) DIRENTSIZE;;
        each pieces (fun buf => iappend inum buf (Z.of_nat (length buf)))
    end.

Definition enc_sb (sb : superblock) : list Z :=
  concat (le_enc 4 <$> [sb_size sb; sb_nblocks sb; sb_ninodes sb; sb_nlog sb; sb_logstart sb; sb_inodestart sb; sb_bmapstart sb]).

Definition mkfs (files : list (list Z * option (list (list Z)))) : K unit :=
  modify (fun s => Mkst (img s) (freeinode s) nmeta);;
  each (seqZ 0 FSSIZE) (fun i => wsect i zero_block);;
  wsect 1 (splice 0 (enc_sb mk_sb) zero_block);;
  rootino ← mk_ialloc T_DIR;
  if negb (rootino =? ROOTINO) then panic "assert"
  else
    iappend rootino (de_of rootino (<[0%nat := DOTCH]> noname)) DIRENTSIZE;;
    iappend rootino (de_of rootino (<[1%nat := DOTCH]> (<[0%nat := DOTCH]> noname))) DIRENTSIZE;;
    each files (add_file rootino);;
    din ← rinode rootino;
    let off := (din_size din / BSIZE + 1) * BSIZE in
    winode rootino (wr 4 8 off din);;
    used ← gets freeblock;
    mk_balloc used.

(** The image file is opened empty. *)
Definition mkst0 : mkst := Mkst [] 1 0.

(** ** Sectors *)

Lemma sect_put l k d b : (k < length l)%nat -> 0 <= b ->
  sect (put_sect k d l) b = if decide (b = Z.of_nat k) then d else sect l b.
Proof.
  intros Hk Hb. unfold put_sect, sect, nthd. destruct (Nat.ltb_spec k (length l)); [|lia]. case_decide as Hd.
  - subst b. by rewrite Nat2Z.id, list_lookup_insert_eq.
  - by rewrite list_lookup_insert_ne by lia.
Qed.

Lemma length_put_sect l k d : (k < length l)%nat -> length (put_sect k d l) = length l.
Proof. intros Hk. unfold put_sect. destruct (Nat.ltb_spec k (length l)); [|lia]. apply length_insert. Qed.

(** An image of the right size. *)
Record shaped (s : mkst) : Prop := Shaped {
  sh_len : length (img s) = Z.to_nat FSSIZE;
  sh_blk : forall b, 0 <= b < FSSIZE -> length (sect (img s) b) = bsize
}.

Section Wp.
Context (E : string -> Prop).

Lemma rsect_wp {A} s b (k : block -> K A) Q : shaped s -> 0 <= b < FSSIZE ->
  wp (k (sect (img s) b)) Q E s -> wp (bind (rsect b) k) Q E s.
Proof.
  intros Hs Hb Hk. apply wp_bind. unfold rsect. apply wp_bind, wp_gets. rewrite (sh_len _ Hs).
  destruct (Z.ltb_spec b (Z.of_nat (Z.to_nat FSSIZE))); [|lia]. by apply wp_gets.
Qed.

Lemma wsect_wp s b d Q : shaped s -> 0 <= b < FSSIZE -> length d = bsize ->
  (forall s', shaped s' -> freeinode s' = freeinode s -> freeblock s' = freeblock s ->
     (forall b', 0 <= b' -> sect (img s') b' = if decide (b' = b) then d else sect (img s) b') -> Q tt s') ->
  wp (wsect b d) Q E s.
Proof.
  intros [Hl Hlb] Hb Hd HQ. apply wp_modify. assert (Hk : (Z.to_nat b < length (img s))%nat) by lia.
  assert (Hsec : forall b', 0 <= b' -> sect (put_sect (Z.to_nat b) d (img s)) b' = if decide (b' = b) then d else sect (img s) b').
  { intros b' Hb'. rewrite sect_put, Z2Nat.id by lia. done. }
  apply HQ; cbn [set_img img freeinode freeblock]; [|done|done|done]. split; cbn [set_img img]; [by rewrite length_put_sect|].
  intros b' Hb'. rewrite Hsec by lia. case_decide; [done|by apply Hlb].
Qed.

Lemma fresh_wp {A} s (k : Z -> K A) Q : 0 <= freeblock s < FSSIZE ->
  wp (k (freeblock s)) Q E (Mkst (img s) (freeinode s) (freeblock s + 1)) -> wp (bind fresh k) Q E s.
Proof.
  intros Hb Hk. apply wp_bind. unfold fresh. apply wp_bind, wp_gets, wp_bind, wp_modify, wp_ret.
  rewrite u32_small by (unfold FSSIZE in *; lia). exact Hk.
Qed.
End Wp.

(** ** Inodes *)

(** The bytes of an inode in the image, and the inode they are. *)
Definition raw (s : mkst) (inum : Z) : list Z := slice (dip_off inum) disz (sect (img s) (IBLOCK inum mk_sb)).
Definition di (din : list Z) : inode := dec_dinode 0 din inode0.

Lemma iblock_ok inum : 0 <= inum < NINODES -> 32 <= IBLOCK inum mk_sb < 39.
Proof.
  intros H. unfold IBLOCK. change (sb_inodestart mk_sb) with 32. change IPB with 32. unfold NINODES in H.
  pose proof (Z.div_pos inum 32). assert (inum / 32 < 7) by (apply Z.div_lt_upper_bound; lia). lia.
Qed.

Lemma length_raw s inum : shaped s -> 0 <= inum < NINODES -> length (raw s inum) = disz.
Proof.
  intros Hs Hi. unfold raw. apply length_slice. rewrite (sh_blk _ Hs) by (apply iblock_ok in Hi; unfold FSSIZE; lia). apply dip_off_fit.
Qed.

Lemma rd_slice n o off m d : (o + n <= m)%nat -> rd n o (slice off m d) = rd n (off + o) d.
Proof.
  intros H. unfold rd. f_equal. unfold slice. rewrite skipn_firstn_comm, take_take, drop_drop. f_equal. lia.
Qed.

Lemma dinode_raw s inum : dinode_at mk_sb (sect (img s)) inum = disk_part (di (raw s inum)).
Proof.
  unfold dinode_at, di, raw, disk_part, dec_dinode. cbn [i_type i_major i_minor i_nlink i_size i_uid i_gid i_mode i_addrs].
  rewrite !rd_slice by (unfold disz; lia). rewrite !Nat.add_0_l, !Nat.add_0_r. f_equal. apply list_fmap_ext. intros k x Hx.
  apply lookup_seq in Hx as [-> Hk]. rewrite naddrs_val in Hk. unfold addr_off. rewrite rd_slice by (unfold disz; lia). f_equal. lia.
Qed.

Lemma rinode_wp {A} E s inum (k : list Z -> K A) Q : shaped s -> 0 <= inum < NINODES ->
  wp (k (raw s inum)) Q E s -> wp (bind (rinode inum) k) Q E s.
Proof.
  intros Hs Hi Hk. apply wp_bind. unfold rinode. apply rsect_wp; [done|apply iblock_ok in Hi; unfold FSSIZE; lia|]. by apply wp_ret.
Qed.

Lemma winode_wp E s inum din Q : shaped s -> 0 <= inum < NINODES -> length din = disz ->
  (forall s', shaped s' -> freeinode s' = freeinode s -> freeblock s' = freeblock s ->
     (forall j, 0 <= j < NINODES -> raw s' j = if decide (j = inum) then din else raw s j) ->
     (forall b, 0 <= b -> b <> IBLOCK inum mk_sb -> sect (img s') b = sect (img s) b) -> Q tt s') ->
  wp (winode inum din) Q E s.
Proof.
  intros Hs Hi Hd HQ. pose proof (iblock_ok inum Hi) as Hb. unfold winode. apply rsect_wp; [done|unfold FSSIZE; lia|].
  pose proof (dip_off_fit inum) as Hf. pose proof (sh_blk _ Hs (IBLOCK inum mk_sb) ltac:(unfold FSSIZE; lia)) as Hl.
  apply wsect_wp; [done|unfold FSSIZE; lia|apply length_splice_block; unfold disz in *; lia|].
  intros s' Hs' E1 E2 Hsec. apply HQ; [done..| |].
  - intros j Hj. pose proof (iblock_ok j Hj). unfold raw. rewrite Hsec by lia. case_decide as Hd1; case_decide as Hd2.
    + subst j. rewrite <- Hd at 1. apply slice_splice_same. unfold disz in *. lia.
    + rewrite Hd1. rewrite slice_splice_disj; [done|unfold disz in *; lia|].
      assert (Hm : inum mod IPB <> j mod IPB) by (intros Hm; apply Hd2; symmetry; by apply (IBLOCK_mod _ _ mk_sb)).
      destruct (dip_off_disj inum j Hm); unfold disz in *; lia.
    + subst j. done.
    + done.
  - intros b Hb0 Hne. rewrite Hsec by done. by rewrite decide_False.
Qed.

Section Fields.
Context (din : list Z) (Hd : length din = disz).

Lemma din_addr_di k : (k < naddrs)%nat -> din_addr din k = nthd 0 (i_addrs (di din)) k.
Proof. intros Hk. unfold di, dec_dinode, nthd. cbn [i_addrs]. by rewrite list_lookup_fmap, lookup_seq_lt. Qed.

Lemma di_addr k b : (k < naddrs)%nat -> 0 <= b < 2 ^ 32 -> di (wr 4 (addr_off 0 k) b din) = set_addr k b (di din).
Proof.
  intros Hk Hb. rewrite naddrs_val in Hk. unfold di, set_addr, set_addrs, dec_dinode, disz, addr_off in *.
  cbn [i_dev i_inum i_ref i_lock i_valid i_type i_major i_minor i_nlink i_size i_uid i_gid i_mode i_addrs].
  rewrite !rd_wr_disj by lia. f_equal. apply list_eq. intros j. rewrite list_lookup_fmap.
  destruct (decide (j < naddrs)%nat) as [Hj|Hj]; rewrite naddrs_val in *.
  - rewrite lookup_seq_lt by done. cbn [fmap option_fmap option_map]. rewrite Nat.add_0_l. destruct (decide (j = k)) as [->|Hne].
    + rewrite rd_wr_same, list_lookup_insert_eq by (rewrite ?length_fmap, ?length_seq; lia). f_equal. by apply Z.mod_small.
    + rewrite rd_wr_disj, list_lookup_insert_ne, list_lookup_fmap, lookup_seq_lt by lia. done.
  - rewrite lookup_seq_ge by lia. symmetry. apply lookup_ge_None_2. rewrite length_insert, length_fmap, length_seq. lia.
Qed.

Lemma di_size n : 0 <= n < 2 ^ 32 -> di (wr 4 8 n din) = Fs.set_size n (di din).
Proof.
  intros Hn. unfold di, Fs.set_size, dec_dinode, disz in *.
  cbn [i_dev i_inum i_ref i_lock i_valid i_type i_major i_minor i_nlink i_size i_uid i_gid i_mode i_addrs].
  rewrite (rd_wr_same 4 8) by lia. rewrite !rd_wr_disj by lia. f_equal; [by apply Z.mod_small|].
  apply list_fmap_ext. intros k x Hx. apply lookup_seq in Hx as [-> Hk]. rewrite naddrs_val in Hk. unfold addr_off. by rewrite rd_wr_disj by lia.
Qed.
End Fields.

(** ** The blocks of a file *)

(** The file block a slot serves; the indirect block comes with the first one
    behind it. *)
Definition lev (k : nat) : Z := if decide (k <= nd)%nat then Z.of_nat k else Z.of_nat k - 1.

Lemma lev_bslot bn : 0 <= bn -> lev (bslot bn) = bn.
Proof. intros H. unfold lev, bslot, nd, NDIRECT. repeat case_decide; lia. Qed.
Lemma bslot_lev k : k <> nd -> bslot (lev k) = k.
Proof. intros H. unfold lev, bslot, nd, NDIRECT in *. repeat case_decide; lia. Qed.
Lemma lev_bound k : (k < nslots)%nat -> 0 <= lev k < MAXFILE.
Proof. rewrite nslots_val. change MAXFILE with 1036. unfold lev, nd. case_decide; lia. Qed.

(** The inode [i] holds the bytes [c], followed by zeros, in its blocks, which
    are those of the slots in [P], all below [fb]. *)
Record part (v : Z -> block) (fb : Z) (i : inode) (c : list Z) (P : nat -> Prop) : Prop := Part {
  pt_len : length (i_addrs i) = naddrs;
  pt_nz : forall k, (k < nslots)%nat -> slot v i k <> 0 <-> P k;
  pt_pos : forall k, (k < nslots)%nat -> slot v i k <> 0 -> nmeta <= slot v i k < fb;
  pt_inj : forall k k', (k < nslots)%nat -> (k' < nslots)%nat -> slot v i k <> 0 -> slot v i k = slot v i k' -> k = k';
  pt_bytes : forall x, 0 <= x -> x / BSIZE < MAXFILE -> addr v i (x / BSIZE) <> 0 -> fbyte v i x = nthd 0 c (Z.to_nat x)
}.
Definition needed (L : Z) (k : nat) : Prop := lev k * BSIZE < L.
Definition filed (v : Z -> block) (fb : Z) (i : inode) (c : list Z) : Prop :=
  part v fb i c (needed (Z.of_nat (length c))) /\ Z.of_nat (length c) <= MAXFILE * BSIZE.

Lemma slot_pos v fb i c P k : part v fb i c P -> (k < nslots)%nat -> 0 <= slot v i k.
Proof. intros H Hk. destruct (decide (slot v i k = 0)) as [->|Hn]; [lia|]. apply (pt_pos _ _ _ _ _ H) in Hn; [|done]. pose proof nmeta_val. lia. Qed.

(** One more slot, with the block [b]. *)
Record slot_up (v : Z -> block) (i : inode) (v' : Z -> block) (i' : inode) (k : nat) (b : Z) : Prop := SlotUp {
  su_len : length (i_addrs i') = naddrs;
  su_slot : forall k', (k' < nslots)%nat -> slot v' i' k' = if decide (k' = k) then b else slot v i k';
  su_data : forall k', (k' < nslots)%nat -> k' <> nd -> slot v i k' <> 0 -> v' (slot v i k') = v (slot v i k');
  su_zero : k <> nd -> v' b = zero_block
}.

Lemma nthd_zero_block x : nthd 0 zero_block x = 0.
Proof.
  pose proof (rd_zero 1 x) as H. unfold rd, slice in H. unfold nthd. replace (zero_block !! x) with (drop x zero_block !! 0%nat) by (by rewrite lookup_drop, Nat.add_0_r).
  destruct (drop x zero_block) as [|y l]; [done|]. cbn [firstn le_dec] in H. rewrite take_0 in H. cbn [le_dec] in H. change (y = 0). lia.
Qed.

Lemma part_up v fb i c P v' i' k : part v fb i c P -> nmeta <= fb -> (k < nslots)%nat -> slot v i k = 0 ->
  (k <> nd -> Z.of_nat (length c) <= lev k * BSIZE) -> slot_up v i v' i' k fb ->
  part v' (fb + 1) i' c (fun k' => k' = k \/ P k').
Proof.
  intros Hp Hfb Hk H0 Hc [U1 U2 U3 U4]. pose proof Hp as [P1 P2 P3 P4 P5]. pose proof nmeta_val. split; [done| | | |].
  - intros k' Hk'. rewrite U2 by done. case_decide as Hd; [split; [by left|intros _; lia]|]. rewrite P2 by done. split; [by right|by intros [|]].
  - intros k' Hk'. rewrite U2 by done. case_decide; [lia|]. intros Hn. pose proof (P3 k' Hk' Hn). lia.
  - intros k1 k2 H1 H2. rewrite !U2 by done. case_decide; case_decide; subst; [done| | |by apply P4].
    + intros _ E. destruct (decide (slot v i k2 = 0)); [lia|]. pose proof (P3 k2 H2 ltac:(done)). lia.
    + intros Hn E. pose proof (P3 k1 H1 Hn). lia.
  - intros x Hx Hm. assert (Hbn : 0 <= x / BSIZE) by (apply Z.div_pos; unfold BSIZE; lia).
    destruct (bslot_lt (x / BSIZE) ltac:(lia)) as [Hb Hnd]. unfold fbyte, addr. rewrite U2 by done. case_decide as Hd.
    + intros _. rewrite U4 by congruence. rewrite nthd_zero_block. symmetry. unfold nthd. rewrite lookup_ge_None_2; [done|].
      rewrite <- Hd in Hc. specialize (Hc Hnd). rewrite lev_bslot in Hc by done. pose proof (block_index x Hx). lia.
    + intros Hn. rewrite U3 by done. by apply P5.
Qed.

Lemma up_direct v fb i k : length (i_addrs i) = naddrs -> (k <= nd)%nat -> slot v i k = 0 -> v fb = zero_block -> fb <> 0 ->
  slot_up v i v (set_addr k fb i) k fb.
Proof.
  intros Hl Hk H0 Hz Hf. assert (Hn : forall k', nthd 0 (<[k := fb]> (i_addrs i)) k' = if decide (k' = k) then fb else nthd 0 (i_addrs i) k').
  { intros k'. case_decide; [subst; apply nthd_insert_eq; rewrite Hl, naddrs_val; unfold nd in *; lia|by apply nthd_insert_ne]. }
  split; [unfold set_addr, set_addrs; cbn; by rewrite length_insert| |done|done].
  intros k' Hk'. unfold slot, ind, set_addr, set_addrs. cbn [i_addrs]. rewrite !Hn. case_decide as H1; [done|].
  rewrite (decide_False (P := k' = k)) by (unfold nd in *; lia). destruct (decide (nd = k)) as [<-|Hne].
  - unfold slot in H0. rewrite decide_True in H0 by done. rewrite (decide_True (P := nthd 0 (i_addrs i) nd = 0)) by done.
    rewrite (decide_False (P := fb = 0)) by done. rewrite Hz. apply rd_zero.
  - done.
Qed.

Lemma up_entry v fb i c P k v' : part v fb i c P -> (nd < k < nslots)%nat -> ind i <> 0 -> length (v (ind i)) = bsize -> 0 <= fb < 2 ^ 32 ->
  v fb = zero_block -> (forall b, 0 <= b -> v' b = if decide (b = ind i) then wr 4 (4 * (k - 13)) fb (v (ind i)) else v b) ->
  slot_up v i v' i k fb.
Proof.
  intros Hp Hk Hi Hl Hf Hz Hv. pose proof Hp as [P1 P2 P3 P4 P5]. unfold nd in *. rewrite nslots_val in Hk.
  assert (Hnd : (12 < nslots)%nat) by (rewrite nslots_val; lia). change (ind i) with (slot v i nd) in *. unfold nd in *.
  pose proof (P3 12%nat Hnd Hi) as Hip. pose proof nmeta_val. split; [done| | |].
  - intros k' Hk'. rewrite nslots_val in Hk'. case_decide as Hd.
    + subst k'. unfold slot at 1. unfold nd. rewrite decide_False by lia. change (ind i) with (slot v i 12). rewrite decide_False by done.
      unfold entry. rewrite Hv, decide_True by (done || lia). rewrite rd_wr_same by (rewrite bsize_nat in *; lia). by apply Z.mod_small.
    + unfold slot at 1 2. unfold nd. case_decide as H1; [done|]. change (ind i) with (slot v i 12). rewrite !decide_False by done.
      unfold entry. rewrite Hv, decide_True by (done || lia). rewrite rd_wr_disj; [done| |]; rewrite ?bsize_nat in *; lia.
  - intros k' Hk' Hne Hs. rewrite Hv, decide_False; [done| |by eapply slot_pos]. intros E. apply Hne. by apply (P4 k' 12%nat).
  - intros _. rewrite Hv, decide_False by lia. done.
Qed.

Lemma part_iff v fb i c (P Q : nat -> Prop) : (forall k, (k < nslots)%nat -> P k <-> Q k) -> part v fb i c P -> part v fb i c Q.
Proof. intros H [P1 P2 P3 P4 P5]. split; try done. intros k Hk. rewrite P2 by done. by apply H. Qed.

(** A write into a block of the file, right behind its bytes. *)
Lemma part_write v fb i c P v' d : part v fb i c P ->
  let off := Z.of_nat (length c) in let x := addr v i (off / BSIZE) in
  off / BSIZE < MAXFILE -> x <> 0 -> length (v x) = bsize -> off mod BSIZE + Z.of_nat (length d) <= BSIZE ->
  (forall b, 0 <= b -> v' b = if decide (b = x) then splice (Z.to_nat (off mod BSIZE)) d (v x) else v b) ->
  part v' fb i (c ++ d) P.
Proof.
  intros Hp off x Hm Hx Hl Hd Hv. pose proof Hp as [P1 P2 P3 P4 P5]. assert (Hoff : 0 <= off) by lia.
  pose proof (block_index off Hoff) as Hbi. destruct (bslot_lt (off / BSIZE) ltac:(lia)) as [Hb Hnd]. pose proof bsize_Z as Hbz.
  pose proof (Z.mod_pos_bound off BSIZE ltac:(done)) as Hmod. pose proof (Z.div_mod off BSIZE ltac:(done)) as Hdm.
  assert (Hin : (12 < nslots)%nat) by (rewrite nslots_val; lia).
  assert (Hs : forall k, slot v' i k = slot v i k).
  { intros k. apply slot_ext. intros Hi. rewrite Hv by (by apply (slot_pos v fb i c P 12 Hp)). rewrite decide_False; [done|].
    intros E. apply Hnd. symmetry. by apply (P4 nd (bslot (off / BSIZE))). }
  split; [done| | | |].
  - intros k Hk. rewrite Hs. by apply P2.
  - intros k Hk. rewrite Hs. by apply P3.
  - intros k k' Hk Hk'. rewrite !Hs. by apply P4.
  - intros y Hy Hym. unfold addr. rewrite Hs. intros Hn. fold (addr v i (y / BSIZE)) in Hn. pose proof (block_index y Hy) as Hyi.
    destruct (bslot_lt (y / BSIZE) ltac:(lia)) as [Hyb _]. pose proof (P5 y Hy Hym Hn) as Hold. unfold fbyte, addr in *. rewrite Hs, Hv by (by apply (slot_pos v fb i c P _ Hp)).
    pose proof (Z.div_mod y BSIZE ltac:(done)) as Hydm. pose proof (Z.mod_pos_bound y BSIZE ltac:(done)) as Hymd. case_decide as Hc.
    + apply P4, bslot_inj in Hc; [|lia|lia|done|done|done]. rewrite Hc in *. fold x in Hold.
      destruct (decide (off <= y < off + Z.of_nat (length d))) as [Hr|Hr].
      * rewrite nthd_splice_in by lia. unfold nthd. rewrite lookup_app_r by lia. do 2 f_equal. lia.
      * rewrite nthd_splice_out by lia. rewrite Hold. unfold nthd. destruct (decide (y < off)); [by rewrite lookup_app_l by lia|].
        rewrite !lookup_ge_None_2; [done| |]; rewrite ?length_app; lia.
    + rewrite Hold. unfold nthd. destruct (decide (y < off)); [by rewrite lookup_app_l by lia|].
      assert (y / BSIZE <> off / BSIZE) by (intros E; apply Hc; unfold x, addr; by rewrite E).
      assert (off / BSIZE <= y / BSIZE) by (apply Z.div_le_mono; [done|lia]).
      rewrite !lookup_ge_None_2; [done| |]; rewrite ?length_app; unfold BSIZE in *; lia.
Qed.

(** ** The state while a file grows *)

(** From [s0], where the inode was [i0], to [s], where it is [i]: only blocks
    of the file and new ones were written. *)
Record prog (s0 s : mkst) (i0 i : inode) (c : list Z) (P : nat -> Prop) : Prop := Prog {
  pg_shaped : shaped s;
  pg_ino : freeinode s = freeinode s0;
  pg_fb : nmeta <= freeblock s0 <= freeblock s /\ freeblock s <= FSSIZE;
  pg_zero : forall b, freeblock s <= b < FSSIZE -> sect (img s) b = zero_block;
  pg_part : part (sect (img s)) (freeblock s) i c P;
  pg_frame : forall b, 0 <= b < freeblock s0 -> (forall k, (k < nslots)%nat -> slot (sect (img s0)) i0 k <> b) -> sect (img s) b = sect (img s0) b;
  pg_new : forall k, (k < nslots)%nat -> slot (sect (img s)) i k <> 0 ->
    slot (sect (img s)) i k = slot (sect (img s0)) i0 k \/ freeblock s0 <= slot (sect (img s)) i k;
  pg_same : i = set_addrs (i_addrs i) i0
}.

Lemma nd_lt : (nd < nslots)%nat.
Proof. rewrite nslots_val. unfold nd. lia. Qed.

Lemma prog_up s0 s i0 i c P s' i' k : prog s0 s i0 i c P -> (k < nslots)%nat -> slot (sect (img s)) i k = 0 ->
  (k <> nd -> Z.of_nat (length c) <= lev k * BSIZE) -> freeblock s < FSSIZE ->
  shaped s' -> freeinode s' = freeinode s -> freeblock s' = freeblock s + 1 ->
  slot_up (sect (img s)) i (sect (img s')) i' k (freeblock s) ->
  (forall b, 0 <= b -> (ind i <> 0 -> b <> ind i) -> sect (img s') b = sect (img s) b) -> i' = set_addrs (i_addrs i') i ->
  prog s0 s' i0 i' c (fun k' => k' = k \/ P k').
Proof.
  intros [G1 G2 G3 G4 G5 G6 G7 G8] Hk H0 Hc Hlt Hs' E1 E2 Hup Hv Hi'. pose proof nmeta_val as Hnm.
  assert (Hind : ind i <> 0 -> nmeta <= ind i < freeblock s) by (apply (pt_pos _ _ _ _ _ G5 nd nd_lt)).
  split; [done|congruence|lia| | | | |].
  - intros b Hb. rewrite Hv by lia. apply G4. lia.
  - rewrite E2. apply (part_up _ _ _ _ _ _ _ _ G5); [lia|done..].
  - intros b Hb Hns. rewrite Hv; [by apply G6|lia|]. intros Hi ->. destruct (G7 nd nd_lt Hi) as [E|E]; [|rewrite ind_slot in E; lia].
    apply (Hns nd nd_lt). by rewrite <- E.
  - intros k' Hk'. rewrite (su_slot _ _ _ _ _ _ Hup) by done. case_decide; [intros _; right; lia|by apply G7].
  - rewrite Hi', G8. done.
Qed.

Lemma prog_iff s0 s i0 i c (P Q : nat -> Prop) : (forall k, (k < nslots)%nat -> P k <-> Q k) -> prog s0 s i0 i c P -> prog s0 s i0 i c Q.
Proof. intros H [G1 G2 G3 G4 G5 G6 G7 G8]. split; try done. by eapply part_iff. Qed.

Lemma prog_slot s0 s i0 i c P k : prog s0 s i0 i c P -> (k < nslots)%nat -> slot (sect (img s)) i k <> 0 ->
  nmeta <= slot (sect (img s)) i k < FSSIZE.
Proof. intros [_ _ G3 _ G5 _ _ _] Hk Hn. pose proof (pt_pos _ _ _ _ _ G5 k Hk Hn). lia. Qed.

Definition zeroes_at (z : Z) : Z := if z =? 0 then 1 else 0.

(** The step that makes sure of a slot of the inode itself. *)
Lemma ensure_direct {A} E s0 s i0 din c P k (cont : list Z -> K A) Q : (k <= nd)%nat -> length din = disz -> prog s0 s i0 (di din) c P ->
  let z := slot (sect (img s)) (di din) k in
  (z = 0 -> freeblock s < FSSIZE /\ (k <> nd -> Z.of_nat (length c) <= lev k * BSIZE)) ->
  (forall s' din', length din' = disz -> prog s0 s' i0 (di din') c (fun k' => k' = k \/ P k') ->
     slot (sect (img s')) (di din') k <> 0 -> freeblock s' = freeblock s + zeroes_at z ->
     (forall k', (k' < nslots)%nat -> k' <> k -> slot (sect (img s')) (di din') k' = slot (sect (img s)) (di din) k') ->
     wp (cont din') Q E s') ->
  wp (bind (if din_addr din k =? 0 then b ← fresh; ret (wr 4 (addr_off 0 k) b din) else ret din) cont) Q E s.
Proof.
  intros Hk Hd Hp z Hz Hcont. assert (Hkn : (k < naddrs)%nat) by (rewrite naddrs_val; unfold nd in Hk; lia).
  assert (Hks : (k < nslots)%nat) by (pose proof nd_lt; lia). pose proof Hp as [G1 G2 G3 G4 G5 G6 G7 G8]. pose proof nmeta_val as Hnm.
  assert (Ez : din_addr din k = z) by (rewrite din_addr_di by done; unfold z, slot; by rewrite decide_True). rewrite Ez.
  apply wp_bind. destruct (Z.eqb_spec z 0) as [E0|E0].
  - destruct (Hz E0) as [Hlt Hc]. apply fresh_wp; [lia|]. apply wp_ret. assert (H32 : 0 <= freeblock s < 2 ^ 32) by (unfold FSSIZE in Hlt; lia).
    assert (Hup : slot_up (sect (img s)) (di din) (sect (img s)) (set_addr k (freeblock s) (di din)) k (freeblock s))
      by (apply up_direct; [apply G5|done|done|apply G4; lia|lia]).
    apply Hcont; rewrite ?di_addr by done.
    + rewrite length_wr; [done|]. unfold addr_off, disz in *. rewrite naddrs_val in Hkn. lia.
    + apply (prog_up _ _ _ _ _ _ _ _ _ Hp Hks E0 Hc Hlt); [by destruct G1; split|done..].
    + cbn [img]. rewrite (su_slot _ _ _ _ _ _ Hup) by done. rewrite decide_True by done. lia.
    + cbn [freeblock]. unfold zeroes_at. by rewrite E0.
    + intros k' Hk' Hne. cbn [img]. rewrite (su_slot _ _ _ _ _ _ Hup) by done. by rewrite decide_False.
  - apply wp_ret, Hcont; [done| |done|unfold zeroes_at; apply Z.eqb_neq in E0 as ->; lia|done].
    apply (prog_iff _ _ _ _ _ P); [|done]. intros k' Hk'. split; [by right|]. intros [->|H]; [|done]. by apply (pt_nz _ _ _ _ _ G5).
Qed.

(** The step that makes sure of an entry of the indirect block. *)
Lemma ensure_entry {A} E s0 s i0 din c P k (cont : block -> K A) Q : (nd < k < nslots)%nat -> prog s0 s i0 (di din) c P ->
  ind (di din) <> 0 -> let z := slot (sect (img s)) (di din) k in let e := (4 * (k - 13))%nat in
  (z = 0 -> freeblock s < FSSIZE /\ Z.of_nat (length c) <= lev k * BSIZE) ->
  (forall s', prog s0 s' i0 (di din) c (fun k' => k' = k \/ P k') -> slot (sect (img s')) (di din) k <> 0 ->
     freeblock s' = freeblock s + zeroes_at z -> wp (cont (sect (img s') (ind (di din)))) Q E s') ->
  wp (indirect ← rsect (ind (di din));
      indirect ← (if rd 4 e indirect =? 0 then
                    b ← fresh; let indirect := wr 4 e b indirect in wsect (ind (di din)) indirect;; ret indirect
                  else ret indirect);
      cont indirect) Q E s.
Proof.
  intros Hk Hp Hi z e Hz Hcont. pose proof Hp as [G1 G2 G3 G4 G5 G6 G7 G8]. pose proof nmeta_val as Hnm.
  pose proof (prog_slot _ _ _ _ _ _ nd Hp nd_lt Hi) as Hir. rewrite ind_slot in Hir.
  apply rsect_wp; [done|lia|]. set (x := ind (di din)) in *. pose proof (sh_blk _ G1 x ltac:(lia)) as Hl.
  assert (Ez : rd 4 e (sect (img s) x) = z) by (unfold z, slot, entry, e; rewrite decide_False by lia; rewrite decide_False by done; done). rewrite Ez.
  apply wp_bind. destruct (Z.eqb_spec z 0) as [E0|E0].
  - destruct (Hz E0) as [Hlt Hc]. apply fresh_wp; [lia|]. cbn zeta. assert (He : (e + 4 <= bsize)%nat) by (unfold e; rewrite bsize_nat, nslots_val in *; lia).
    apply wp_bind. apply wsect_wp; [by destruct G1; split|lia|by apply length_wr_block|].
    intros s' Hs' E1 E2 Hsec. cbn [img freeinode freeblock] in *. apply wp_ret.
    assert (Hup : slot_up (sect (img s)) (di din) (sect (img s')) (di din) k (freeblock s)).
    { apply (up_entry _ _ _ c P); try done; [unfold FSSIZE in Hlt; lia|apply G4; lia]. }
    specialize (Hcont s'). rewrite (Hsec x), decide_True in Hcont by (done || lia). apply Hcont.
    + apply (prog_up s0 s i0 (di din) c P s' (di din) k Hp (proj2 Hk) E0 (fun _ => Hc) Hlt Hs' E1 E2 Hup); [|by rewrite G8].
      intros b Hb Hne. rewrite Hsec by done. by rewrite decide_False by auto.
    + rewrite (su_slot _ _ _ _ _ _ Hup) by lia. rewrite decide_True by done. lia.
    + rewrite E2. unfold zeroes_at. by rewrite E0.
  - apply wp_ret, Hcont; [|done|unfold zeroes_at; apply Z.eqb_neq in E0 as ->; lia].
    apply (prog_iff _ _ _ _ _ P); [|done]. intros k' Hk'. split; [by right|]. intros [->|H]; [|done]. by apply (pt_nz _ _ _ _ _ G5).
Qed.

(** How many blocks the next byte behind [L] bytes takes. *)
Definition extra (L : Z) : Z := if L mod BSIZE =? 0 then (if L / BSIZE =? NDIRECT then 2 else 1) else 0.

Lemma needed_slot L k : 0 <= L -> (k < nslots)%nat -> needed L k <-> lev k < L / BSIZE \/ (lev k = L / BSIZE /\ L mod BSIZE <> 0).
Proof.
  intros HL Hk. unfold needed. pose proof (Z.div_mod L BSIZE ltac:(done)). pose proof (Z.mod_pos_bound L BSIZE ltac:(done)).
  pose proof (lev_bound k Hk). unfold BSIZE in *. lia.
Qed.

Section FindBlock.
Context (E : string -> Prop) (s0 s : mkst) (i0 : inode) (din c : list Z) (Q : list Z * Z -> mkst -> Prop).
Context (Hd : length din = disz).
Let L := Z.of_nat (length c).
Let fbn := L / BSIZE.
Let sl := slot (sect (img s)) (di din).
Hypothesis Hp : prog s0 s i0 (di din) c (needed L).
Hypothesis Hm : fbn < MAXFILE.

Lemma fbn_pos : 0 <= fbn.
Proof. apply Z.div_pos; unfold L, BSIZE; lia. Qed.

(** The slots for the next block are empty at a block boundary, the others
    below are there. *)
Lemma sl_last k : (k < nslots)%nat -> lev k = fbn -> sl k = 0 <-> L mod BSIZE = 0.
Proof.
  intros Hk Hlv. pose proof (pt_nz _ _ _ _ _ (pg_part _ _ _ _ _ _ Hp) k Hk) as Hnz. rewrite needed_slot in Hnz by (done || unfold L; lia).
  fold sl in Hnz. fold fbn in Hnz. split; intros E1.
  - destruct (decide (L mod BSIZE = 0)); [done|]. destruct (proj2 Hnz); [by right|done].
  - destruct (decide (sl k = 0)) as [|Hn]; [done|]. apply Hnz in Hn. lia.
Qed.
Lemma sl_below k : (k < nslots)%nat -> lev k < fbn -> sl k <> 0.
Proof.
  intros Hk Hlv. apply (pt_nz _ _ _ _ _ (pg_part _ _ _ _ _ _ Hp) k Hk). apply needed_slot; [unfold L; lia|done|by left].
Qed.
Lemma sl_zero k : (k < nslots)%nat -> lev k = fbn -> sl k = 0 -> L <= lev k * BSIZE.
Proof.
  intros Hk Hlv E0. apply sl_last in E0; [|done..]. rewrite Hlv. pose proof (Z.div_mod L BSIZE ltac:(done)) as H. fold fbn in H. lia.
Qed.

Lemma zeroes_last k : (k < nslots)%nat -> lev k = fbn -> zeroes_at (sl k) = if L mod BSIZE =? 0 then 1 else 0.
Proof.
  intros Hk Hlv. unfold zeroes_at. destruct (Z.eqb_spec (sl k) 0) as [H|H]; rewrite (sl_last k Hk Hlv) in H; by destruct (Z.eqb_spec (L mod BSIZE) 0).
Qed.
Lemma zeroes_below k : (k < nslots)%nat -> lev k < fbn -> zeroes_at (sl k) = 0.
Proof. intros Hk Hlv. unfold zeroes_at. by rewrite (proj2 (Z.eqb_neq _ _) (sl_below k Hk Hlv)). Qed.
Lemma zeroes_pos z : 0 <= zeroes_at z.
Proof. unfold zeroes_at. case_match; lia. Qed.

Hypothesis Hcap : freeblock s + extra L <= FSSIZE.
Hypothesis HQ : forall s' din' P, length din' = disz -> prog s0 s' i0 (di din') c P -> (forall k, (k < nslots)%nat -> P k <-> lev k <= fbn) ->
  freeblock s' = freeblock s + extra L -> Q (din', addr (sect (img s')) (di din') fbn) s'.

Lemma find_direct : fbn < NDIRECT -> wp (find_block din fbn) Q E s.
Proof.
  intros Hdir. pose proof fbn_pos as Hf0. destruct (bslot_lt fbn ltac:(lia)) as [Hk Hnd]. unfold find_block.
  destruct (Z.ltb_spec fbn NDIRECT); [|lia]. assert (Ek : Z.to_nat fbn = bslot fbn) by (unfold bslot; by rewrite decide_True). rewrite Ek. cbn zeta.
  assert (Hnn : (bslot fbn <= nd)%nat) by (rewrite <- Ek; unfold nd, NDIRECT in *; lia). pose proof (lev_bslot fbn Hf0) as Hlv.
  assert (Hext : extra L = zeroes_at (sl (bslot fbn))).
  { rewrite zeroes_last by done. unfold extra. fold fbn. by rewrite (proj2 (Z.eqb_neq fbn NDIRECT)) by lia. }
  apply (ensure_direct E s0 s i0 din c (needed L) (bslot fbn) _ _ Hnn Hd Hp); fold sl.
  - intros E0. rewrite Hext, E0 in Hcap. split; [cbn in Hcap; lia|]. intros _. by apply sl_zero.
  - intros s' din' Hd' Hp' Hn' Ef _. apply wp_ret.
    replace (din_addr din' (bslot fbn)) with (addr (sect (img s')) (di din') fbn)
      by (rewrite din_addr_di by (rewrite naddrs_val; unfold nd in Hnn; lia); unfold addr, slot; by rewrite decide_True).
    eapply HQ; [done|exact Hp'| |congruence]. intros k Hks. cbv beta. rewrite needed_slot by (done || unfold L; lia). fold fbn. split.
    + intros [->|H1]; [rewrite lev_bslot by done|]; lia.
    + intros H1. destruct (decide (lev k = fbn)) as [E1|]; [|right; lia]. destruct (decide (k = nd)) as [->|Hne].
      { change (lev nd) with NDIRECT in E1. lia. } left. by rewrite <- E1, bslot_lev.
Qed.

Lemma extra_indirect : 12 <= fbn -> extra L = zeroes_at (sl nd) + zeroes_at (sl (bslot fbn)).
Proof.
  intros Hdir. pose proof fbn_pos as Hf0. destruct (bslot_lt fbn ltac:(lia)) as [Hk Hnd]. rewrite (zeroes_last (bslot fbn) Hk (lev_bslot fbn Hf0)).
  unfold extra. fold fbn. change NDIRECT with 12. destruct (Z.eqb_spec fbn 12) as [E12|].
  - rewrite (zeroes_last nd nd_lt) by (by change (lev nd) with 12). by destruct (L mod BSIZE =? 0).
  - rewrite (zeroes_below nd nd_lt) by (change (lev nd) with 12; lia). by destruct (L mod BSIZE =? 0).
Qed.

Lemma find_indirect : 12 <= fbn -> wp (find_block din fbn) Q E s.
Proof.
  intros Hdir. pose proof fbn_pos as Hf0. destruct (bslot_lt fbn ltac:(lia)) as [Hk Hnd]. unfold find_block. change NDIRECT with 12.
  destruct (Z.ltb_spec fbn 12); [lia|]. pose proof (extra_indirect Hdir) as Hext. pose proof (lev_bslot fbn Hf0) as Hlv. set (k2 := bslot fbn) in *.
  assert (Ek : k2 = Z.to_nat (fbn + 1)) by (unfold k2, bslot, NDIRECT; by rewrite decide_False by lia). change (Z.to_nat 12) with nd. cbn zeta.
  apply (ensure_direct E s0 s i0 din c (needed L) nd _ _ (le_n _) Hd Hp); fold sl.
  - intros E0. pose proof (zeroes_pos (sl k2)). rewrite Hext, E0 in Hcap. unfold zeroes_at at 1 in Hcap. cbn in Hcap. split; [lia|done].
  - intros s1 din1 Hd1 Hp1 Hn1 Ef1 Hsame. fold sl in Ef1, Hsame. specialize (Hsame k2 Hk Hnd).
    assert (Ei : din_addr din1 nd = ind (di din1)) by (apply din_addr_di; rewrite naddrs_val; unfold nd; lia). rewrite Ei.
    replace (Z.to_nat (fbn - 12)) with (k2 - 13)%nat by lia.
    apply (ensure_entry E s0 s1 i0 din1 c (fun k' => k' = nd \/ needed L k') k2 (fun indirect => ret (din1, rd 4 (4 * (k2 - 13)) indirect)));
      [split; [unfold nd; lia|done]|done|done| |]; rewrite Hsame.
    + intros E0. rewrite Hext, E0 in Hcap. unfold zeroes_at at 2 in Hcap. cbn in Hcap. split; [lia|]. by apply sl_zero.
    + intros s2 Hp2 Hn2 Ef2. apply wp_ret.
      replace (rd 4 (4 * (k2 - 13)) (sect (img s2) (ind (di din1)))) with (addr (sect (img s2)) (di din1) fbn)
        by (unfold addr; fold k2; unfold slot, nd; rewrite decide_False by lia; rewrite decide_False by exact Hn1; done).
      eapply HQ; [done|exact Hp2| |lia]. intros k Hks. cbv beta. rewrite needed_slot by (done || unfold L; lia). fold fbn. split.
      * intros [->|[->|H1]]; [lia|change (lev nd) with 12|]; lia.
      * intros H1. destruct (decide (lev k = fbn)) as [E1|]; [|right; right; lia]. destruct (decide (k = nd)) as [->|Hne]; [by right; left|].
        left. unfold k2. by rewrite <- E1, bslot_lev.
Qed.

Lemma find_block_wp : wp (find_block din fbn) Q E s.
Proof. destruct (Z.lt_ge_cases fbn 12); [by apply find_direct|by apply find_indirect]. Qed.
End FindBlock.

(** The blocks of a file of [L] bytes, the indirect block included. *)
Definition blocks_for (L : Z) : Z := (L + BSIZE - 1) / BSIZE + (if NDIRECT * BSIZE <? L then 1 else 0).

Lemma blocks_step L n : 0 <= L -> 0 < n <= (L / BSIZE + 1) * BSIZE - L -> blocks_for (L + n) = blocks_for L + extra L.
Proof.
  intros HL Hn. unfold blocks_for, extra, NDIRECT, BSIZE in *. pose proof (Z.div_mod L 4096 ltac:(lia)) as Hdm. pose proof (Z.mod_pos_bound L 4096 ltac:(lia)) as Hmd.
  assert (Hd2 : (L + n + 4096 - 1) / 4096 = L / 4096 + 1) by (symmetry; apply Z.div_unique with (r := L + n + 4096 - 1 - 4096 * (L / 4096 + 1)); lia).
  rewrite Hd2. destruct (Z.eqb_spec (L mod 4096) 0) as [E|E].
  - assert (Hd1 : (L + 4096 - 1) / 4096 = L / 4096) by (symmetry; apply Z.div_unique with (r := 4095); lia). rewrite Hd1.
    destruct (Z.eqb_spec (L / 4096) 12), (Z.ltb_spec (12 * 4096) (L + n)), (Z.ltb_spec (12 * 4096) L); lia.
  - assert (Hd1 : (L + 4096 - 1) / 4096 = L / 4096 + 1) by (symmetry; apply Z.div_unique with (r := L mod 4096 - 1); lia). rewrite Hd1.
    destruct (Z.ltb_spec (12 * 4096) (L + n)), (Z.ltb_spec (12 * 4096) L); lia.
Qed.

Lemma blocks_mono L L' : L <= L' -> blocks_for L <= blocks_for L'.
Proof.
  intros H. unfold blocks_for, NDIRECT, BSIZE. assert ((L + 4096 - 1) / 4096 <= (L' + 4096 - 1) / 4096) by (apply Z.div_le_mono; lia).
  destruct (Z.ltb_spec (12 * 4096) L), (Z.ltb_spec (12 * 4096) L'); lia.
Qed.

(** The write of [iappend]. *)
Lemma prog_write s0 s i0 i c P d s' : prog s0 s i0 i c P -> let off := Z.of_nat (length c) in let x := addr (sect (img s)) i (off / BSIZE) in
  off / BSIZE < MAXFILE -> x <> 0 -> off mod BSIZE + Z.of_nat (length d) <= BSIZE -> shaped s' -> freeinode s' = freeinode s -> freeblock s' = freeblock s ->
  (forall b, 0 <= b -> sect (img s') b = if decide (b = x) then splice (Z.to_nat (off mod BSIZE)) d (sect (img s) x) else sect (img s) b) ->
  prog s0 s' i0 i (c ++ d) P.
Proof.
  intros Hp off x Hm Hx Hd Hs' E1 E2 Hsec. pose proof Hp as [G1 G2 G3 G4 G5 G6 G7 G8]. pose proof nmeta_val as Hnm.
  assert (Hf0 : 0 <= off / BSIZE) by (apply Z.div_pos; unfold off, BSIZE; lia). destruct (bslot_lt (off / BSIZE) ltac:(lia)) as [Hk Hnd].
  pose proof (pt_pos _ _ _ _ _ G5 _ Hk Hx) as Hxr. fold (addr (sect (img s)) i (off / BSIZE)) in Hxr. fold x in Hxr.
  pose proof (part_write _ _ _ _ _ (sect (img s')) d G5 Hm Hx (sh_blk _ G1 x ltac:(lia)) Hd Hsec) as Hw.
  assert (Hs : forall k, slot (sect (img s')) i k = slot (sect (img s)) i k).
  { intros k. apply slot_ext. intros Hi. rewrite Hsec by (by apply (slot_pos _ _ _ _ _ _ G5 nd_lt)). rewrite decide_False; [done|].
    intros E0. apply Hnd. symmetry. by apply (pt_inj _ _ _ _ _ G5 nd (bslot (off / BSIZE)) nd_lt Hk). }
  split; [done|congruence|lia| |by rewrite E2| | |done].
  - intros b Hb. rewrite Hsec, decide_False by lia. apply G4. lia.
  - intros b Hb Hns. rewrite Hsec by lia. case_decide as Hc; [|by apply G6]. destruct (G7 _ Hk Hx) as [E0|E0]; [by destruct (Hns _ Hk); rewrite <- E0|].
    fold (addr (sect (img s)) i (off / BSIZE)) in E0. fold x in E0. lia.
  - intros k Hks. rewrite Hs. by apply G7.
Qed.

Lemma iappend_loop_wp E s0 i0 Q fuel : forall s din c p, length din = disz -> let L := Z.of_nat (length c) in let n := Z.of_nat (length p) in
  prog s0 s i0 (di din) c (needed L) -> (length p < fuel)%nat -> L + n <= MAXFILE * BSIZE ->
  freeblock s + (blocks_for (L + n) - blocks_for L) <= FSSIZE ->
  (forall s' din', length din' = disz -> prog s0 s' i0 (di din') (c ++ p) (needed (L + n)) ->
     freeblock s' = freeblock s + (blocks_for (L + n) - blocks_for L) -> Q (din', L + n) s') ->
  wp (iappend_loop fuel din L p n) Q E s.
Proof.
  induction fuel as [|f IH]; intros s din c p Hd L n Hp Hf Hmax Hcap HQ; [lia|]. cbn [iappend_loop]. destruct (Z.leb_spec n 0) as [H0|H0].
  { assert (Ep : p = []) by (apply length_zero_iff_nil; unfold n in H0; lia). subst p. assert (En : L + n = L) by (unfold n; cbn; lia).
    rewrite En, app_nil_r in HQ. apply wp_ret, HQ; [done|done|lia]. }
  pose proof (Z.div_mod L BSIZE ltac:(done)) as Hdm. pose proof (Z.mod_pos_bound L BSIZE ltac:(done)) as Hmd. cbn zeta.
  assert (Hm : L / BSIZE < MAXFILE) by (apply Z.div_lt_upper_bound; [done|lia]). destruct (Z.leb_spec MAXFILE (L / BSIZE)); [lia|].
  set (n1 := Z.min n ((L / BSIZE + 1) * BSIZE - L)). assert (Hn1 : 0 < n1 <= n /\ n1 <= (L / BSIZE + 1) * BSIZE - L) by (unfold n1; lia).
  pose proof (blocks_step L n1 ltac:(lia) ltac:(lia)) as Hb1. pose proof (blocks_mono (L + n1) (L + n) ltac:(lia)) as Hb2.
  apply wp_bind. apply (find_block_wp E s0 s i0 din c _ Hd Hp Hm); [fold L; lia|]. fold L. intros s1 din1 P Hd1 Hp1 HP Ef1.
  set (x := addr (sect (img s1)) (di din1) (L / BSIZE)). assert (Hl0 : 0 <= L / BSIZE) by (apply Z.div_pos; unfold BSIZE; lia).
  destruct (bslot_lt (L / BSIZE) ltac:(lia)) as [Hk Hnd].
  assert (Hx : x <> 0) by (apply (proj2 (pt_nz _ _ _ _ _ (pg_part _ _ _ _ _ _ Hp1) _ Hk)), (proj2 (HP _ Hk)); rewrite lev_bslot by done; lia).
  pose proof (prog_slot _ _ _ _ _ _ _ Hp1 Hk Hx) as Hxr. fold (addr (sect (img s1)) (di din1) (L / BSIZE)) in Hxr. fold x in Hxr. pose proof nmeta_val as Hnm. cbv beta iota.
  pose proof (pg_shaped _ _ _ _ _ _ Hp1) as Hs1. apply rsect_wp; [done|lia|]. apply wp_bind.
  assert (Ht : length (take (Z.to_nat n1) p) = Z.to_nat n1) by (rewrite length_take; lia). replace (L - L / BSIZE * BSIZE) with (L mod BSIZE) by lia.
  apply wsect_wp; [done|lia|apply length_splice_block; [rewrite Ht; pose proof bsize_Z; lia|apply (sh_blk _ Hs1); lia]|]. intros s2 Hs2 E1 E2 Hsec.
  set (d := take (Z.to_nat n1) p) in *. pose proof (prog_write s0 s1 i0 (di din1) c P d s2 Hp1 Hm Hx ltac:(fold L; lia) Hs2 E1 E2 Hsec) as Hp2.
  assert (EL : L + n1 = Z.of_nat (length (c ++ d))) by (rewrite length_app; lia).
  assert (En : n - n1 = Z.of_nat (length (drop (Z.to_nat n1) p))) by (rewrite length_drop; lia). rewrite EL, En.
  apply IH; rewrite <- ?EL, <- ?En; [done| |rewrite length_drop; lia|lia|replace (L + n1 + (n - n1)) with (L + n) by lia; lia|].
  - apply (prog_iff _ _ _ _ _ P); [|done]. intros k Hks. rewrite HP by done. unfold needed. pose proof (lev_bound k Hks). unfold BSIZE in *. lia.
  - intros s3 din3 Hd3. replace (L + n1 + (n - n1)) with (L + n) by lia. rewrite <- app_assoc. unfold d. rewrite take_drop. intros Hp3 Ef3.
    apply HQ; [done|done|lia].
Qed.

(** ** The image while it is built *)

Definition ino (s : mkst) (j : nat) : inode := di (raw s (Z.of_nat j + 1)).
Definition mk_inode (t n : Z) (a : list Z) : inode := set_addrs a (Fs.set_size n (set_nlink 1 (set_type t inode0))).

(** The inodes made so far, with their types and contents. *)
Record image (s : mkst) (D : list (Z * list Z)) : Prop := Image {
  im_shaped : shaped s;
  im_ino : freeinode s = Z.of_nat (length D) + 1;
  im_max : Z.of_nat (length D) < NINODES;
  im_fb : nmeta <= freeblock s <= FSSIZE;
  im_zero : forall b, freeblock s <= b < FSSIZE -> sect (img s) b = zero_block;
  im_sb : sect (img s) 1 = splice 0 (enc_sb mk_sb) zero_block;
  im_log : forall b, 2 <= b < 32 -> sect (img s) b = zero_block;
  im_file : forall j t c, D !! j = Some (t, c) ->
    ino s j = mk_inode t (Z.of_nat (length c)) (i_addrs (ino s j)) /\ filed (sect (img s)) (freeblock s) (ino s j) c;
  im_apart : forall j j', (j < length D)%nat -> (j' < length D)%nat -> j <> j' -> apart (sect (img s)) (ino s j) (ino s j');
  im_free : forall inum, inum = 0 \/ Z.of_nat (length D) < inum < NINODES -> raw s inum = replicate disz 0
}.

(** A file does not notice writes outside its blocks. *)
Lemma part_ext v v' fb fb' i c P : part v fb i c P -> fb <= fb' ->
  (forall k, (k < nslots)%nat -> slot v i k <> 0 -> v' (slot v i k) = v (slot v i k)) ->
  part v' fb' i c P /\ forall k, slot v' i k = slot v i k.
Proof.
  intros [P1 P2 P3 P4 P5] Hfb Hv. assert (Hs : forall k, slot v' i k = slot v i k) by (intros k; apply slot_ext; by apply (Hv nd nd_lt)).
  split; [|done]. split; [done| | | |].
  - intros k Hk. rewrite Hs. by apply P2.
  - intros k Hk. rewrite Hs. intros Hn. pose proof (P3 k Hk Hn). lia.
  - intros k k' Hk Hk'. rewrite !Hs. by apply P4.
  - intros x Hx Hm. unfold addr. rewrite Hs. intros Hn. rewrite <- (P5 x Hx Hm Hn). unfold fbyte, addr. rewrite Hs, Hv; [done| |done].
    apply bslot_lt. split; [apply Z.div_pos; unfold BSIZE; lia|done].
Qed.

Lemma raw_ext s s' inum : 0 <= inum < NINODES -> (forall b, 32 <= b < 39 -> sect (img s') b = sect (img s) b) -> raw s' inum = raw s inum.
Proof. intros Hi H. unfold raw. rewrite H; [done|]. by apply iblock_ok. Qed.

Lemma prog_refl s D j t c : image s D -> D !! j = Some (t, c) -> prog s s (ino s j) (ino s j) c (needed (Z.of_nat (length c))).
Proof.
  intros [] Hj. destruct (im_file0 j t c Hj) as [_ [Hp _]]. split; try done; [lia|]. by left.
Qed.

(** The size of an inode is written back. *)
Lemma set_size_part n v fb i c P : part v fb i c P -> part v fb (Fs.set_size n i) c P.
Proof. intros [P1 P2 P3 P4 P5]. by split. Qed.

Section Append.
Context (s : mkst) (D : list (Z * list Z)) (j : nat) (t : Z) (c p : list Z).
Context (Him : image s D) (Hj : D !! j = Some (t, c)).
Let inum := Z.of_nat j + 1.
Let n := Z.of_nat (length p).
Let L := Z.of_nat (length c).

Lemma inum_ok j' : (j' < length D)%nat -> 0 <= Z.of_nat j' + 1 < NINODES.
Proof. intros H. pose proof (im_max _ _ Him). lia. Qed.

(** After the loop and the write of the inode. *)
Section Done.
Context (s1 s2 : mkst) (din : list Z) (Hd : length din = disz).
Hypothesis Hp : prog s s1 (ino s j) (di din) (c ++ p) (needed (L + n)).
Hypothesis Hmax : L + n <= MAXFILE * BSIZE.
Hypothesis Hs2 : shaped s2.
Hypothesis Ei : freeinode s2 = freeinode s1.
Hypothesis Eb : freeblock s2 = freeblock s1.
Hypothesis Hraw : forall k, 0 <= k < NINODES -> raw s2 k = if decide (k = inum) then wr 4 8 (L + n) din else raw s1 k.
Hypothesis Hsec : forall b, 0 <= b -> b <> IBLOCK inum mk_sb -> sect (img s2) b = sect (img s1) b.

Lemma jlt : (j < length D)%nat.
Proof. by eapply lookup_lt_Some. Qed.
Lemma inum_block : 32 <= IBLOCK inum mk_sb < 39.
Proof. apply iblock_ok, inum_ok, jlt. Qed.

Lemma slot_range j' k : (j' < length D)%nat -> (k < nslots)%nat -> slot (sect (img s)) (ino s j') k <> 0 ->
  40 <= slot (sect (img s)) (ino s j') k < freeblock s.
Proof.
  intros Hj' Hk Hn. destruct (lookup_lt_is_Some_2 D j' Hj') as [[t' c'] E]. destruct (im_file _ _ Him j' t' c' E) as [_ [Hf _]].
  pose proof (pt_pos _ _ _ _ _ Hf k Hk Hn). pose proof nmeta_val. lia.
Qed.

(** What [s2] shares with [s]. *)
Lemma same_meta b : 1 <= b < 40 -> sect (img s1) b = sect (img s) b.
Proof.
  intros Hb. pose proof nmeta_val. apply (pg_frame _ _ _ _ _ _ Hp); [pose proof (im_fb _ _ Him); lia|]. intros k Hk E.
  destruct (decide (slot (sect (img s)) (ino s j) k = 0)) as [E0|E0]; [lia|]. apply slot_range in E0; [lia|apply jlt|done].
Qed.
Lemma same_raw k : 0 <= k < NINODES -> k <> inum -> raw s2 k = raw s k.
Proof. intros Hk Hne. rewrite Hraw, decide_False by done. apply raw_ext; [done|]. intros b Hb. apply same_meta. lia. Qed.
Lemma same_slot j' k : (j' < length D)%nat -> j' <> j -> (k < nslots)%nat -> let b := slot (sect (img s)) (ino s j') k in b <> 0 ->
  sect (img s2) b = sect (img s) b.
Proof.
  intros Hj' Hne Hk b Hb. pose proof (slot_range j' k Hj' Hk Hb) as Hr. fold b in Hr. pose proof inum_block.
  rewrite Hsec by lia. apply (pg_frame _ _ _ _ _ _ Hp); [lia|]. intros k' Hk'. by apply (im_apart _ _ Him j j' jlt Hj').
Qed.
Lemma other_part j' t' c' : D !! j' = Some (t', c') -> j' <> j ->
  part (sect (img s2)) (freeblock s2) (ino s j') c' (needed (Z.of_nat (length c'))) /\ forall k, slot (sect (img s2)) (ino s j') k = slot (sect (img s)) (ino s j') k.
Proof.
  intros E Hne. pose proof (lookup_lt_Some _ _ _ E) as Hlt. destruct (im_file _ _ Him j' t' c' E) as [_ [Hf _]].
  apply (part_ext _ _ _ _ _ _ _ Hf); [pose proof (pg_fb _ _ _ _ _ _ Hp); lia|]. intros k Hk. by apply same_slot.
Qed.

Lemma ino_other j' : (j' < length D)%nat -> j' <> j -> ino s2 j' = ino s j'.
Proof. intros Hlt Hne. unfold ino. rewrite same_raw; [done|by apply inum_ok|unfold inum; lia]. Qed.
Lemma ino_self : ino s2 j = Fs.set_size (L + n) (di din).
Proof.
  unfold ino. rewrite Hraw by apply inum_ok, jlt. rewrite decide_True by done. apply di_size; [done|].
  change (MAXFILE * BSIZE) with 4243456 in Hmax. unfold L, n in *. lia.
Qed.
Lemma self_part : part (sect (img s2)) (freeblock s2) (ino s2 j) (c ++ p) (needed (L + n)) /\
  forall k, slot (sect (img s2)) (ino s2 j) k = slot (sect (img s1)) (di din) k.
Proof.
  rewrite ino_self. pose proof (pg_part _ _ _ _ _ _ Hp) as Hpt. destruct (part_ext _ (sect (img s2)) _ (freeblock s2) _ _ _ Hpt) as [H1 H2]; [lia| |].
  - intros k Hk Hn. pose proof (pt_pos _ _ _ _ _ Hpt k Hk Hn). pose proof nmeta_val. pose proof inum_block. apply Hsec; lia.
  - split; [by apply set_size_part|exact H2].
Qed.

Lemma append_apart j1 j2 : (j1 < length D)%nat -> (j2 < length D)%nat -> j1 <> j2 -> apart (sect (img s2)) (ino s2 j1) (ino s2 j2).
Proof.
  intros H1 H2 Hne k k' Hk Hk'. assert (Hold : forall j', (j' < length D)%nat -> j' <> j -> forall k, slot (sect (img s2)) (ino s2 j') k = slot (sect (img s)) (ino s j') k).
  { intros j' Hj' Hn. destruct (lookup_lt_is_Some_2 D j' Hj') as [[t' c'] E]. rewrite ino_other by done. by apply (other_part j' t' c'). }
  destruct self_part as [_ Hself]. pose proof (pg_new _ _ _ _ _ _ Hp) as Hnew.
  destruct (decide (j1 = j)) as [->|N1], (decide (j2 = j)) as [->|N2]; [done| | |].
  - rewrite Hself, (Hold j2) by done. intros Hn E. pose proof (slot_range j2 k' H2 Hk' Hn). rewrite <- E in Hn.
    destruct (Hnew k Hk Hn) as [E2|E2]; [|lia]. rewrite E2 in *. by apply (im_apart _ _ Him j j2 H1 H2 Hne k k' Hk Hk' ltac:(congruence)).
  - rewrite Hself, (Hold j1) by done. intros Hn E. destruct (Hnew k' Hk' Hn) as [E2|E2].
    + rewrite E2 in *. by apply (im_apart _ _ Him j1 j H1 H2 Hne k k' Hk Hk').
    + rewrite <- E in Hn. pose proof (slot_range j1 k H1 Hk Hn). lia.
  - rewrite (Hold j1), (Hold j2) by done. by apply (im_apart _ _ Him).
Qed.

Lemma append_image : image s2 (<[j := (t, c ++ p)]> D).
Proof.
  pose proof Him as [I1 I2 I3 I4 I5 I6 I7 I8 I9 I10]. pose proof Hp as [G1 G2 G3 G4 G5 G6 G7 G8]. pose proof nmeta_val as Hnm. pose proof inum_block as Hib.
  pose proof jlt as Hlt. split; rewrite ?length_insert; [done|congruence|done|lia| | | | |exact append_apart|].
  - intros b Hb. rewrite Hsec by lia. apply G4. lia.
  - rewrite Hsec, same_meta by lia. done.
  - intros b Hb. rewrite Hsec, same_meta by lia. by apply I7.
  - intros j' t' c' E. destruct (decide (j' = j)) as [->|Hne].
    + rewrite list_lookup_insert_eq in E by done. injection E as <- <-. destruct self_part as [Hsp _]. rewrite length_app, Nat2Z.inj_add. fold L n.
      split; [|split; [rewrite length_app, Nat2Z.inj_add; exact Hsp|rewrite length_app, Nat2Z.inj_add; exact Hmax]].
      rewrite ino_self. destruct (I8 j t c Hj) as [Ej _]. rewrite G8, Ej. done.
    + rewrite list_lookup_insert_ne in E by done. pose proof (lookup_lt_Some _ _ _ E) as Hlt'. rewrite ino_other by done.
      destruct (I8 j' t' c' E) as [Ej [_ Hmx]]. split; [done|]. split; [|done]. by apply (other_part j' t' c').
  - intros k Hk. rewrite same_raw; [by apply I10| |]; unfold NINODES, inum in *; lia.
Qed.
End Done.

Lemma iappend_wp E Q : L + n <= MAXFILE * BSIZE -> freeblock s + (blocks_for (L + n) - blocks_for L) <= FSSIZE ->
  (forall s', image s' (<[j := (t, c ++ p)]> D) -> freeblock s' = freeblock s + (blocks_for (L + n) - blocks_for L) -> Q tt s') ->
  wp (iappend inum p n) Q E s.
Proof.
  intros Hmax Hcap HQ. pose proof jlt as Hlt. pose proof (inum_ok j Hlt) as Hi. fold inum in Hi. pose proof (im_shaped _ _ Him) as Hs.
  unfold iappend. apply rinode_wp; [done|done|]. apply wp_bind. destruct (im_file _ _ Him j t c Hj) as [Ej _].
  replace (din_size (raw s inum)) with L by (change (din_size (raw s inum)) with (i_size (ino s j)); by rewrite Ej).
  replace (S (Z.to_nat n)) with (S (length p)) by (unfold n; lia).
  apply (iappend_loop_wp E s (ino s j) _ _ s (raw s inum) c p); [by apply length_raw|by apply (prog_refl s D j t c)|lia|done|done|].
  intros s1 din Hd Hp Ef. cbv beta iota. apply winode_wp; [apply Hp|done| |].
  - rewrite length_wr; [done|]. unfold disz in Hd. lia.
  - intros s2 Hs2 E1 E2 Hraw Hsec. apply HQ; [by apply (append_image s1 s2 din)|]. fold L n in Ef. lia.
Qed.
End Append.

(** ** A new inode *)

Definition new_din (type : Z) : list Z := wr 4 8 0 (wr 2 6 1 (wr 2 0 type (replicate disz 0))).

Lemma di_new type : type = T_DIR \/ type = T_FILE -> di (new_din type) = mk_inode type 0 (replicate naddrs 0) /\ length (new_din type) = disz.
Proof. intros [->| ->]; split; vm_compute; reflexivity. Qed.

Lemma slot_new v t n k : slot v (mk_inode t n (replicate naddrs 0)) k = 0.
Proof.
  assert (H : forall k, nthd 0 (replicate naddrs 0) k = 0).
  { intros j. unfold nthd. destruct (replicate naddrs 0 !! j) as [y|] eqn:E; [|done]. by apply lookup_replicate in E as [-> _]. }
  unfold slot, ind. cbn [mk_inode set_addrs i_addrs]. rewrite !H. by repeat case_decide.
Qed.

Lemma ialloc_wp E s D t Q : image s D -> t = T_DIR \/ t = T_FILE -> Z.of_nat (length D) + 1 < NINODES ->
  (forall s', image s' (D ++ [(t, [])]) -> freeblock s' = freeblock s -> Q (Z.of_nat (length D) + 1) s') ->
  wp (mk_ialloc t) Q E s.
Proof.
  intros Him Ht Hn HQ. pose proof Him as [I1 I2 I3 I4 I5 I6 I7 I8 I9 I10]. destruct (di_new t Ht) as [En Hl]. pose proof nmeta_val as Hnm.
  unfold mk_ialloc. apply wp_bind, wp_gets, wp_bind, wp_modify. cbn zeta. fold (new_din t). set (inum := freeinode s). assert (Ei : inum = Z.of_nat (length D) + 1) by done.
  assert (Hin : 0 <= inum < NINODES) by lia. pose proof (iblock_ok inum Hin) as Hib. rewrite u32_small by (unfold NINODES in Hn; lia).
  apply wp_bind. apply winode_wp; [by destruct I1; split|done|done|]. intros s' Hs' E1 E2 Hraw Hsec. apply wp_ret. rewrite Ei. cbn [img freeinode freeblock] in *.
  assert (Hino : forall j, (j < length D)%nat -> ino s' j = ino s j) by (intros j Hj; unfold ino; rewrite Hraw, decide_False by lia; done).
  assert (Hnew : ino s' (length D) = mk_inode t 0 (replicate naddrs 0)) by (unfold ino; rewrite Hraw, decide_True by lia; done).
  assert (Hpt : forall j t c, D !! j = Some (t, c) -> part (sect (img s')) (freeblock s') (ino s j) c (needed (Z.of_nat (length c))) /\
                  forall k, slot (sect (img s')) (ino s j) k = slot (sect (img s)) (ino s j) k).
  { intros j t' c' Hj. destruct (I8 j t' c' Hj) as [_ [Hp _]]. apply (part_ext _ _ _ _ _ _ _ Hp); [lia|]. intros k Hk Hs. pose proof (pt_pos _ _ _ _ _ Hp k Hk Hs).
    apply Hsec; lia. }
  assert (Hcase : forall j, (j < length (D ++ [(t, [] : list Z)]))%nat -> (j < length D)%nat \/ j = length D) by (intros j; rewrite length_app; cbn; lia).
  apply HQ; [|done]. split; [done|rewrite length_app; cbn; lia|rewrite length_app; cbn; lia|lia| | | | | |].
  - intros b Hb. rewrite Hsec by lia. apply I5. lia.
  - rewrite Hsec by lia. done.
  - intros b Hb. rewrite Hsec by lia. by apply I7.
  - intros j t' c' Hj. destruct (Hcase j (lookup_lt_Some _ _ _ Hj)) as [Hlt| ->].
    + rewrite lookup_app_l in Hj by done. rewrite Hino by done. destruct (I8 j t' c' Hj) as [Ej [_ Hm]]. split; [done|]. split; [|done]. by apply (Hpt j t' c').
    + rewrite lookup_app_r, Nat.sub_diag in Hj by lia. injection Hj as <- <-. rewrite Hnew. split; [done|]. split; [|done].
      split; intros; rewrite ?slot_new in *; unfold addr in *; rewrite ?slot_new in *; try done.
      split; [done|]. unfold needed. pose proof (lev_bound k ltac:(done)). unfold BSIZE. cbn. lia.
  - intros j j' Hj Hj' Hne k k' Hk Hk'. destruct (Hcase j' Hj') as [Hlt'| ->]; [|rewrite Hnew, slot_new; done]. rewrite (Hino j') by done.
    destruct (lookup_lt_is_Some_2 D j' Hlt') as [[t' c'] E']. rewrite (proj2 (Hpt j' t' c' E')). intros Hs.
    destruct (Hcase j Hj) as [Hlt| ->]; [|rewrite Hnew, slot_new; congruence]. rewrite Hino by done. destruct (lookup_lt_is_Some_2 D j Hlt) as [[t1 c1] E1'].
    rewrite (proj2 (Hpt j t1 c1 E1')). by apply I9.
  - intros k Hk. rewrite length_app in Hk. cbn in Hk. rewrite Hraw, decide_False by (unfold NINODES in *; lia). apply I10. lia.
Qed.

(** ** Starting *)

Lemma lookup_zero_block x : (x < bsize)%nat -> zero_block !! x = Some 0.
Proof. intros H. rewrite (lookup_nthd 0) by (rewrite length_zero_block; done). by rewrite nthd_zero_block. Qed.

Lemma slice_zero off n : (off + n <= bsize)%nat -> slice off n zero_block = replicate n 0.
Proof.
  intros H. apply list_eq. intros k. destruct (decide (k < n)%nat) as [Hk|Hk].
  - rewrite lookup_slice by done. rewrite lookup_zero_block by lia. symmetry. apply lookup_replicate_2. done.
  - rewrite !lookup_ge_None_2; [done|rewrite length_replicate; lia|unfold slice; rewrite length_take; lia].
Qed.

Lemma zero_all (n : nat) (E : string -> Prop) (Q : unit -> mkst -> Prop) s : img s = [] -> Q tt (set_img (replicate n zero_block) s) ->
  wp (each (seqZ 0 (Z.of_nat n)) (fun i => wsect i zero_block)) Q E s.
Proof.
  intros Hi HQ. eapply wp_conseq.
  - apply (wp_each _ (fun xs s' => exists k, (k <= n)%nat /\ xs = seqZ (Z.of_nat k) (Z.of_nat (n - k)) /\ s' = set_img (replicate k zero_block) s)).
    + exists 0%nat. split; [lia|]. split; [by rewrite Nat.sub_0_r|]. destruct s. cbn in *. by subst.
    + intros x xs s' (k & Hk & Hx & ->). destruct (decide (k = n)) as [->|Hne]; [by rewrite Nat.sub_diag in Hx|].
      rewrite seqZ_cons in Hx by lia. injection Hx as -> ->. apply wp_modify. exists (S k). split; [lia|]. split; [f_equal; lia|].
      unfold set_img, put_sect. cbn [img freeinode freeblock]. rewrite length_replicate, Nat2Z.id, Nat.ltb_irrefl, Nat.sub_diag. f_equal.
      cbn [replicate app]. symmetry. apply replicate_cons_app.
  - cbv beta. intros [] s' (k & Hk & Hx & ->). assert (k = n) as ->; [|done]. destruct (decide (k = n)); [done|]. by rewrite seqZ_cons in Hx by lia.
Qed.

Lemma sect_replicate n b : sect (replicate n zero_block) b = zero_block.
Proof.
  unfold sect, nthd. destruct (replicate n zero_block !! Z.to_nat b) as [y|] eqn:E; [|done]. by apply lookup_replicate in E as [-> _].
Qed.

Lemma length_enc_sb : length (enc_sb mk_sb) = 28%nat.
Proof. done. Qed.

Lemma image_start s : shaped s -> freeinode s = 1 -> freeblock s = nmeta ->
  (forall b, 0 <= b -> sect (img s) b = if decide (b = 1) then splice 0 (enc_sb mk_sb) zero_block else zero_block) -> image s [].
Proof.
  intros Hs Hi Hb Hsec. pose proof nmeta_val as Hnm. split; try done; [rewrite Hb; unfold FSSIZE; lia| | | | |].
  - intros b Hr. rewrite Hsec, decide_False by lia. done.
  - rewrite Hsec by lia. done.
  - intros b Hr. rewrite Hsec, decide_False by lia. done.
  - intros j j' Hj. cbn in Hj. lia.
  - intros inum Hr. unfold raw. pose proof (iblock_ok inum ltac:(unfold NINODES in *; lia)) as Hib. rewrite Hsec, decide_False by lia.
    apply slice_zero. apply dip_off_fit.
Qed.

(** ** Copying files *)

Lemma pieces_wp E D j t ps : forall s c Q, image s (<[j := (t, c)]> D) -> (j < length D)%nat ->
  let L := Z.of_nat (length c) in let L' := Z.of_nat (length (c ++ concat ps)) in
  L' <= MAXFILE * BSIZE -> freeblock s + (blocks_for L' - blocks_for L) <= FSSIZE ->
  (forall s', image s' (<[j := (t, c ++ concat ps)]> D) -> freeblock s' = freeblock s + (blocks_for L' - blocks_for L) -> Q tt s') ->
  wp (each ps (fun buf => iappend (Z.of_nat j + 1) buf (Z.of_nat (length buf)))) Q E s.
Proof.
  induction ps as [|p ps IH]; intros s c Q Him Hj L L' Hmax Hcap HQ; cbn [each].
  { apply wp_ret. unfold L' in *. cbn [concat] in *. rewrite app_nil_r in *. apply HQ; [done|unfold L; lia]. }
  cbn [concat] in *. assert (EL : L' = Z.of_nat (length ((c ++ p) ++ concat ps))) by (unfold L'; by rewrite <- app_assoc).
  assert (Hle : L <= L + Z.of_nat (length p) <= L') by (rewrite EL, !length_app; unfold L; lia).
  pose proof (blocks_mono _ _ (proj2 Hle)) as Hb. pose proof (blocks_mono _ _ (proj1 Hle)) as Hb'. apply wp_bind.
  apply (iappend_wp s (<[j := (t, c)]> D) j t c p Him); [by apply list_lookup_insert_eq|fold L; lia|fold L; lia|].
  fold L. rewrite list_insert_insert_eq. intros s1 Him1 Ef1. apply (IH s1 (c ++ p)); [done|done|rewrite <- EL; done| |].
  - rewrite <- EL, length_app, Nat2Z.inj_add. fold L. lia.
  - intros s2 Him2 Ef2. rewrite <- app_assoc in Him2. apply HQ; [done|]. rewrite <- EL, length_app, Nat2Z.inj_add in Ef2. fold L in Ef2. lia.
Qed.

(** The files on the command line, all of which can be opened. *)
Abbreviation source := (list Z * list (list Z))%type.
Definition opened (f : source) : list Z * option (list (list Z)) := (f.1, Some f.2).
Definition file_name (f : source) : list Z := strncpy (Z.to_nat DIRSIZ) noname (short_name f.1).
Definition bytes_of (f : source) : list Z := concat f.2.
Definition dot : list Z := <[0%nat := DOTCH]> noname.
Definition dotdot : list Z := <[1%nat := DOTCH]> dot.

(** The root directory and the inodes for the files [fs], and the first block
    they leave free. *)
Definition root_dents (fs : list source) : list dirent :=
  Dirent 1 dot :: Dirent 1 dotdot :: imap (fun k f => Dirent (Z.of_nat k + 2) (file_name f)) fs.
Definition root_bytes (fs : list source) : list Z := concat (enc_dirent <$> root_dents fs).
Definition inodes (fs : list source) : list (Z * list Z) := (T_DIR, root_bytes fs) :: ((fun f => (T_FILE, bytes_of f)) <$> fs).
Definition space (fs : list source) : Z := nmeta + 1 + foldr (fun f n => blocks_for (Z.of_nat (length (bytes_of f))) + n) 0 fs.

Lemma space_snoc fs f : space (fs ++ [f]) = space fs + blocks_for (Z.of_nat (length (bytes_of f))).
Proof.
  unfold space. rewrite foldr_app. cbn [foldr]. rewrite Z.add_0_r. induction fs as [|g fs IH]; cbn [foldr]; lia.
Qed.
Lemma blocks_pos L : 0 <= L -> 0 <= blocks_for L.
Proof. intros H. unfold blocks_for. pose proof (Z.div_pos (L + BSIZE - 1) BSIZE ltac:(unfold BSIZE; lia) ltac:(done)). case_match; lia. Qed.
Lemma space_app fs fs' : space fs <= space (fs ++ fs').
Proof.
  induction fs' as [|f fs' IH] using rev_ind; [by rewrite app_nil_r|]. rewrite app_assoc, space_snoc.
  pose proof (blocks_pos (Z.of_nat (length (bytes_of f))) ltac:(lia)). lia.
Qed.

Lemma root_bytes_snoc fs f : root_bytes (fs ++ [f]) = root_bytes fs ++ enc_dirent (Dirent (Z.of_nat (length fs) + 2) (file_name f)).
Proof.
  unfold root_bytes, root_dents. rewrite imap_app. cbn [imap]. rewrite !app_comm_cons, fmap_app, concat_app. cbn [fmap list_fmap concat].
  rewrite app_nil_r. unfold compose. by rewrite Nat.add_0_r.
Qed.

Lemma length_file_name f : length (file_name f) = 14%nat.
Proof. unfold file_name. rewrite length_strncpy; done. Qed.
Lemma dent_len inum f : length (enc_dirent (Dirent inum (file_name f))) = 16%nat.
Proof. unfold enc_dirent. rewrite length_app, length_le_enc. cbn [de_name]. by rewrite length_file_name. Qed.
Lemma length_root_bytes fs : length (root_bytes fs) = (16 * (length fs + 2))%nat.
Proof.
  induction fs as [|f fs IH] using rev_ind; [done|]. rewrite root_bytes_snoc, !length_app, IH, dent_len. cbn. lia.
Qed.

Lemma root_blocks n : 0 < n <= 4096 -> blocks_for n = 1.
Proof.
  intros Hn. unfold blocks_for, NDIRECT, BSIZE. destruct (Z.ltb_spec (12 * 4096) n); [lia|].
  assert ((n + 4096 - 1) / 4096 = 1) as ->; [|done]. symmetry. apply Z.div_unique with (r := n - 1); lia.
Qed.

Lemma add_file_wp E s fs f Q : image s (inodes fs) -> freeblock s = space fs -> (length fs < 198)%nat ->
  existsb (fun c => c =? SLASH) f.1 = false -> Z.of_nat (length (bytes_of f)) <= MAXFILE * BSIZE -> space (fs ++ [f]) <= FSSIZE ->
  (forall s', image s' (inodes (fs ++ [f])) -> freeblock s' = space (fs ++ [f]) -> Q tt s') ->
  wp (add_file ROOTINO (opened f)) Q E s.
Proof.
  intros Him Hfb Hlen Hsl Hmax Hcap HQ. unfold add_file, opened. rewrite Hsl. rewrite space_snoc in Hcap. set (D := inodes fs) in *.
  assert (HD : length D = S (length fs)) by (unfold D, inodes; cbn; by rewrite length_fmap).
  pose proof (blocks_pos (Z.of_nat (length (bytes_of f))) ltac:(lia)) as Hb0.
  apply wp_bind. apply (ialloc_wp E s D T_FILE); [done|by right|rewrite HD; unfold NINODES; lia|]. intros s1 Him1 Ef1. rewrite HD.
  replace (Z.of_nat (S (length fs)) + 1) with (Z.of_nat (length fs) + 2) by lia. set (inum := Z.of_nat (length fs) + 2).
  set (de := enc_dirent (Dirent inum (file_name f))).
  assert (Ede : de_of inum (strncpy (Z.to_nat DIRSIZ) noname (short_name f.1)) = de) by (unfold de_of, u16; rewrite Z.mod_small by lia; done). rewrite Ede.
  pose proof (dent_len inum f) as Hde. fold de in Hde. pose proof (length_root_bytes fs) as Hrb.
  assert (Hr16 : blocks_for (Z.of_nat (length (root_bytes fs)) + Z.of_nat (length de)) - blocks_for (Z.of_nat (length (root_bytes fs))) = 0)
    by (rewrite !root_blocks by lia; lia).
  apply wp_bind. change ROOTINO with (Z.of_nat 0 + 1). replace DIRENTSIZE with (Z.of_nat (length de)) by (by rewrite Hde).
  apply (iappend_wp s1 (D ++ [(T_FILE, [])]) 0 T_DIR (root_bytes fs) de Him1 eq_refl);
    [change (MAXFILE * BSIZE) with 4243456; lia|rewrite Hr16; lia|]. intros s2 Him2 Ef2. rewrite Hr16 in Ef2.
  set (D2 := <[0%nat := (T_DIR, root_bytes fs ++ de)]> (D ++ [(T_FILE, [])])) in *.
  assert (ED2 : D2 = (T_DIR, root_bytes (fs ++ [f])) :: ((fun f => (T_FILE, bytes_of f)) <$> fs) ++ [(T_FILE, [])]) by (rewrite root_bytes_snoc; done).
  assert (HD2 : length D2 = S (S (length fs))) by (unfold D2; rewrite length_insert, length_app, HD; cbn; lia).
  assert (Hid : <[S (length fs) := (T_FILE, [])]> D2 = D2).
  { apply list_insert_id. rewrite ED2, app_comm_cons, lookup_app_r; cbn [length]; rewrite length_fmap; [by rewrite Nat.sub_diag|lia]. }
  replace inum with (Z.of_nat (S (length fs)) + 1) by (unfold inum; lia).
  apply (pieces_wp E D2 (S (length fs)) T_FILE f.2 s2 []); [by rewrite Hid|lia|done|cbn [app length]; fold (bytes_of f); change (blocks_for (Z.of_nat 0)) with 0; lia|].
  cbn [app]. fold (bytes_of f). change (blocks_for (Z.of_nat (length []))) with 0. intros s3 Him3 Ef3. apply HQ; [|rewrite space_snoc; lia].
  assert (<[S (length fs) := (T_FILE, bytes_of f)]> D2 = inodes (fs ++ [f])) as <-; [|done]. rewrite ED2. unfold inodes. rewrite fmap_app, app_comm_cons, insert_app_r_alt;
    cbn [length]; rewrite length_fmap; [by rewrite Nat.sub_diag|lia].
Qed.

(** What must hold of the files for the image to take them. *)
Record fits_image (fs : list source) : Prop := FitsImage {
  fi_count : (length fs <= 198)%nat;
  fi_slash : Forall (fun f => existsb (fun c => c =? SLASH) f.1 = false) fs;
  fi_size : Forall (fun f => Z.of_nat (length (bytes_of f)) <= MAXFILE * BSIZE) fs;
  fi_space : space fs <= FSSIZE
}.

Lemma files_wp E rest : forall s fs Q, image s (inodes fs) -> freeblock s = space fs -> fits_image (fs ++ rest) ->
  (forall s', image s' (inodes (fs ++ rest)) -> freeblock s' = space (fs ++ rest) -> Q tt s') ->
  wp (each (opened <$> rest) (add_file ROOTINO)) Q E s.
Proof.
  induction rest as [|f rest IH]; intros s fs Q Him Hfb Hfit HQ; cbn [fmap list_fmap each].
  { apply wp_ret. rewrite app_nil_r in HQ. by apply HQ. }
  pose proof Hfit as [F1 F2 F3 F4]. rewrite length_app in F1. cbn in F1. apply Forall_app in F2 as [_ F2]. apply Forall_app in F3 as [_ F3].
  inversion F2; inversion F3; subst. replace (fs ++ f :: rest) with ((fs ++ [f]) ++ rest) in * by (by rewrite <- app_assoc).
  apply wp_bind. apply (add_file_wp E s fs f); [done|done|lia|done|done|pose proof (space_app (fs ++ [f]) rest); lia|].
  intros s' Him' Hfb'. by apply (IH s' (fs ++ [f])).
Qed.

(** ** The bitmap *)

Definition bits (used : Z) : block := foldl (fun buf i => put_byte buf i (Z.lor (data_byte buf i) (bit_mask i))) zero_block (seqZ 0 used).

Lemma bits_spec (n : nat) : (n <= 4096 * 8)%nat -> length (bits (Z.of_nat n)) = bsize /\
  forall b, 0 <= b < BPB -> bit_in (bits (Z.of_nat n)) b = (b <? Z.of_nat n).
Proof.
  unfold bits. induction n as [|n IH]; intros Hn.
  - cbn. split; [apply length_zero_block|]. intros b Hb. unfold bit_in, data_byte. rewrite nthd_zero_block, Z.land_0_l. cbn. symmetry. apply Z.ltb_ge. lia.
  - destruct IH as [Hl Hb]; [lia|]. rewrite seqZ_S, foldl_app. cbn [foldl]. rewrite Z.add_0_l. set (d := foldl _ _ _) in *.
    fold (set_bit d (Z.of_nat n)). split; [unfold set_bit; by rewrite length_put_byte|]. intros b Hr.
    rewrite bit_in_set by (done || (change BPB with 32768; lia)). case_decide as Hd; [subst b; symmetry; apply Z.ltb_lt; lia|].
    rewrite Hb by done. destruct (Z.ltb_spec b (Z.of_nat n)), (Z.ltb_spec b (Z.of_nat (S n))); lia || done.
Qed.

(** ** The finished image *)

Record finished (s s' : mkst) : Prop := Finished {
  fn_shaped : shaped s';
  fn_fb : freeblock s' = freeblock s;
  fn_sect : forall b, 1 <= b < 32 \/ 40 <= b -> sect (img s') b = sect (img s) b;
  fn_root : raw s' 1 = wr 4 8 BSIZE (raw s 1);
  fn_raw : forall k, 0 <= k < NINODES -> k <> 1 -> raw s' k = raw s k;
  fn_bits : sect (img s') 39 = bits (freeblock s)
}.

Lemma finish_wp E s fs Q : image s (inodes fs) -> (length fs <= 198)%nat -> (forall s', finished s s' -> Q tt s') ->
  wp (din ← rinode ROOTINO;
      let off := (din_size din / BSIZE + 1) * BSIZE in
      winode ROOTINO (wr 4 8 off din);;
      used ← gets freeblock;
      mk_balloc used) Q E s.
Proof.
  intros Him Hlen HQ. pose proof Him as [I1 I2 I3 I4 I5 I6 I7 I8 I9 I10]. pose proof nmeta_val as Hnm. change ROOTINO with 1.
  apply rinode_wp; [done|unfold NINODES; lia|]. destruct (I8 0%nat T_DIR (root_bytes fs) eq_refl) as [Er _]. pose proof (length_root_bytes fs) as Hrb.
  assert (Esz : din_size (raw s 1) = Z.of_nat (length (root_bytes fs))) by (change (din_size (raw s 1)) with (i_size (ino s 0)); by rewrite Er).
  rewrite Esz. cbn zeta. rewrite (Z.div_small (Z.of_nat (length (root_bytes fs))) BSIZE) by (unfold BSIZE; lia). change ((0 + 1) * BSIZE) with BSIZE.
  pose proof (length_raw s 1 I1 ltac:(unfold NINODES; lia)) as Hl. apply wp_bind. apply winode_wp; [done|unfold NINODES; lia|rewrite length_wr; [done|unfold disz in Hl; lia]|].
  intros s1 Hs1 E1 E2 Hraw Hsec. apply wp_bind, wp_gets. unfold mk_balloc. rewrite E2. destruct (Z.leb_spec (BSIZE * 8) (freeblock s)) as [Hbig|_].
  { exfalso. unfold BSIZE, FSSIZE in *. lia. }
  change (IBLOCK 1 mk_sb) with 32 in Hsec. fold (bits (freeblock s)). change (sb_bmapstart mk_sb) with 39.
  assert (Hb : length (bits (freeblock s)) = bsize).
  { replace (freeblock s) with (Z.of_nat (Z.to_nat (freeblock s))) by lia. apply bits_spec. unfold FSSIZE in *. lia. }
  apply wsect_wp; [done|unfold FSSIZE; lia|done|]. intros s2 Hs2 E3 E4 Hsec2. apply HQ.
  assert (Hr2 : forall k, 0 <= k < NINODES -> raw s2 k = raw s1 k).
  { intros k Hk. apply raw_ext; [done|]. intros b Hbr. rewrite Hsec2, decide_False by lia. done. }
  split; [done|congruence| | | |].
  - intros b Hbr. rewrite Hsec2, decide_False by lia. apply Hsec; lia.
  - rewrite Hr2, Hraw, decide_True by (done || unfold NINODES; lia). done.
  - intros k Hk Hne. rewrite Hr2, Hraw, decide_False by done. done.
  - rewrite Hsec2, decide_True by lia. done.
Qed.

Lemma mkfs_wp E fs Q : fits_image fs ->
  (forall s s', image s (inodes fs) -> freeblock s = space fs -> finished s s' -> Q tt s') -> wp (mkfs (opened <$> fs)) Q E mkst0.
Proof.
  intros Hfit HQ. pose proof nmeta_val as Hnm. unfold mkfs. apply wp_bind, wp_modify, wp_bind. apply (zero_all 1000); [done|]. unfold set_img. cbn [freeinode freeblock mkst0].
  apply wp_bind. assert (Hs0 : shaped (Mkst (replicate 1000 zero_block) 1 nmeta)).
  { split; cbn [img]; [apply length_replicate|]. intros b Hb. rewrite sect_replicate. apply length_zero_block. }
  apply wsect_wp; [done|unfold FSSIZE; lia|apply length_splice_block; [rewrite length_enc_sb, bsize_nat; lia|apply length_zero_block]|].
  intros s1 Hs1 E1 E2 Hsec. cbn [freeinode freeblock img] in *.
  assert (Him1 : image s1 []).
  { apply image_start; [done|done|done|]. intros b Hb. rewrite Hsec by done. by rewrite sect_replicate. }
  apply wp_bind. apply (ialloc_wp E s1 [] T_DIR); [done|by left|cbn; unfold NINODES; lia|]. cbn [app length]. intros s2 Him2 Ef2.
  change (negb (Z.of_nat 0 + 1 =? ROOTINO)) with false. cbv iota. change (Z.of_nat 0 + 1) with 1.
  change (de_of 1 (<[0%nat:=DOTCH]> noname)) with (enc_dirent (Dirent 1 dot)).
  change (de_of 1 (<[1%nat:=DOTCH]> (<[0%nat:=DOTCH]> noname))) with (enc_dirent (Dirent 1 dotdot)).
  change DIRENTSIZE with (Z.of_nat (length (enc_dirent (Dirent 1 dot)))) at 1. apply wp_bind.
  apply (iappend_wp s2 [(T_DIR, [])] 0 T_DIR [] (enc_dirent (Dirent 1 dot)) Him2 eq_refl); [done| |].
  { change (freeblock s2 + 1 <= FSSIZE). rewrite Ef2, E2. unfold FSSIZE. lia. }
  intros s3 Him3 Ef3. change (freeblock s3 = freeblock s2 + 1) in Ef3. apply wp_bind.
  change DIRENTSIZE with (Z.of_nat (length (enc_dirent (Dirent 1 dotdot)))) at 1.
  apply (iappend_wp s3 _ 0 T_DIR (enc_dirent (Dirent 1 dot)) (enc_dirent (Dirent 1 dotdot)) Him3 eq_refl); [done| |].
  { change (freeblock s3 + 0 <= FSSIZE). rewrite Ef3, Ef2, E2. unfold FSSIZE. lia. }
  intros s4 Him4 Ef4. change (freeblock s4 = freeblock s3 + 0) in Ef4. change (image s4 (inodes [])) in Him4. apply wp_bind. change 1 with ROOTINO.
  apply (files_wp E fs s4 []); [done|change (space []) with (nmeta + 1 + 0); lia|done|]. cbn [app]. intros s5 Him5 Ef5.
  apply (finish_wp E s5 fs); [done|apply Hfit|]. intros s6 Hfin. by apply (HQ s5).
Qed.

(** ** The image as the kernel sees it *)

(** The inode [inum] as [ilock] loads it. *)
Definition ilocked (v : Z -> block) (inum : Z) : inode :=
  loaded mk_sb v (Inode ROOTDEV inum 1 initsleeplock 0 0 0 0 0 0 0 0 0 []).

Lemma ilocked_disk v inum : disk_part (ilocked v inum) = dinode_at mk_sb v inum.
Proof. reflexivity. Qed.

Lemma slot_addrs v i i' k : i_addrs i = i_addrs i' -> slot v i k = slot v i' k.
Proof. intros E. unfold slot, ind. by rewrite E. Qed.
Lemma part_addrs v fb i i' c P : i_addrs i = i_addrs i' -> part v fb i' c P -> part v fb i c P.
Proof.
  intros E [P1 P2 P3 P4 P5]. assert (Hs : forall k, slot v i k = slot v i' k) by (intros k; by apply slot_addrs).
  split; [congruence| | | |]; intros *; unfold fbyte, addr; rewrite ?Hs; auto; apply P2 || apply P5.
Qed.

Lemma datastart_mk : datastart mk_sb = nmeta.
Proof. done. Qed.

(** An inode with its blocks marked is what the kernel's theorems ask for. *)
Lemma part_wf v fb i c n : part v fb i c (needed n) -> i_size i = n -> 0 <= n <= MAXFILE * BSIZE -> fb <= FSSIZE ->
  (forall b, nmeta <= b < fb -> in_use mk_sb v b = true) ->
  inode_wf mk_sb v i /\ file_ok v i /\ content v i = (fun k => nthd 0 c k) <$> seq 0 (Z.to_nat n) /\ Forall (fun a => 0 <= a < 2 ^ 32) (i_addrs i).
Proof.
  intros Hp Hsz Hn Hfb Huse. pose proof Hp as [P1 P2 P3 P4 P5]. pose proof nmeta_val as Hnm.
  assert (Hmx : forall x, 0 <= x < n -> 0 <= x / BSIZE < MAXFILE /\ addr v i (x / BSIZE) <> 0).
  { intros x Hx. pose proof (block_index x ltac:(lia)) as Hbi. assert (Hlt : x / BSIZE < MAXFILE) by (apply Z.div_lt_upper_bound; [done|lia]).
    split; [lia|]. destruct (bslot_lt (x / BSIZE) ltac:(lia)) as [Hk _]. apply P2; [done|]. unfold needed. rewrite lev_bslot by lia. lia. }
  split; [|split; [|split]].
  - split; [done| |done]. intros k Hk Hs. pose proof (P3 k Hk Hs). split; [|by apply Huse]. unfold is_data. rewrite datastart_mk. change (sb_size mk_sb) with FSSIZE. lia.
  - split; [by rewrite Hsz|]. intros bn Hbn. rewrite Hsz. intros Hlt. destruct (Hmx (bn * BSIZE) ltac:(unfold BSIZE in *; lia)) as [_ H].
    by rewrite Z.div_mul in H by done.
  - apply list_eq. intros k. rewrite list_lookup_fmap. destruct (decide (k < Z.to_nat n)%nat) as [Hk|Hk].
    + rewrite lookup_content by (rewrite Hsz; done). rewrite lookup_seq_lt by done. cbn [fmap option_fmap option_map]. rewrite Nat.add_0_l. f_equal.
      destruct (Hmx (Z.of_nat k) ltac:(lia)) as [H1 H2]. rewrite P5 by (done || lia). by rewrite Nat2Z.id.
    + rewrite lookup_seq_ge by lia. apply lookup_ge_None_2. rewrite length_content, Hsz. lia.
  - apply Forall_lookup. intros k a Ha. pose proof (lookup_lt_Some _ _ _ Ha) as Hk. rewrite P1, naddrs_val in Hk.
    assert (Es : slot v i k = a) by (unfold slot, nthd, nd; rewrite decide_True by lia; by rewrite Ha).
    destruct (decide (a = 0)) as [->|Hne]; [lia|]. assert (Hks : (k < nslots)%nat) by (rewrite nslots_val; lia).
    pose proof (P3 k Hks ltac:(congruence)) as H. rewrite Es in H. unfold FSSIZE in Hfb. lia.
Qed.

Section Final.
Context (fs : list source) (s s' : mkst) (Hfit : fits_image fs).
Context (Him : image s (inodes fs)) (Hsp : freeblock s = space fs) (Hfin : finished s s').
Let v := sect (img s').

Lemma final_bits b : 0 <= b < FSSIZE -> in_use mk_sb v b = (b <? space fs).
Proof.
  intros Hb. unfold in_use, v. assert (EB : BBLOCK b mk_sb = 39).
  { unfold BBLOCK. change (sb_bmapstart mk_sb) with 39. rewrite Z.div_small; [done|]. change BPB with 32768. unfold FSSIZE in Hb. lia. }
  rewrite EB, (fn_bits _ _ Hfin). rewrite Z.mod_small by (change BPB with 32768; unfold FSSIZE in Hb; lia). pose proof (im_fb _ _ Him). pose proof nmeta_val.
  replace (freeblock s) with (Z.of_nat (Z.to_nat (freeblock s))) by lia. rewrite (proj2 (bits_spec (Z.to_nat (freeblock s)) ltac:(unfold FSSIZE in *; lia)) b).
  - rewrite Z2Nat.id by lia. by rewrite Hsp.
  - change BPB with 32768. unfold FSSIZE in Hb. lia.
Qed.

Lemma final_part j t c : inodes fs !! j = Some (t, c) -> part v (space fs) (ilocked v (Z.of_nat j + 1)) c (needed (Z.of_nat (length c))) /\
  disk_part (ilocked v (Z.of_nat j + 1)) = disk_part (mk_inode t (if decide (j = 0)%nat then BSIZE else Z.of_nat (length c)) (i_addrs (ino s j))) /\
  forall k, slot v (ilocked v (Z.of_nat j + 1)) k = slot (sect (img s)) (ino s j) k.
Proof.
  intros Hj. pose proof (lookup_lt_Some _ _ _ Hj) as Hlt. destruct (im_file _ _ Him j t c Hj) as [Ej [Hp _]]. pose proof nmeta_val as Hnm.
  assert (Hd : disk_part (ilocked v (Z.of_nat j + 1)) = disk_part (mk_inode t (if decide (j = 0)%nat then BSIZE else Z.of_nat (length c)) (i_addrs (ino s j)))).
  { rewrite ilocked_disk. unfold v. rewrite dinode_raw. pose proof (im_max _ _ Him) as Hmax. case_decide as Hj0.
    - subst j. rewrite (fn_root _ _ Hfin : raw s' (Z.of_nat 0 + 1) = _). rewrite di_size; [|apply length_raw; [apply Him|unfold NINODES; lia]|done].
      change (di (raw s 1)) with (ino s 0). rewrite Ej. done.
    - rewrite (fn_raw _ _ Hfin) by lia. fold (ino s j). by rewrite Ej at 1. }
  assert (Ea : i_addrs (ilocked v (Z.of_nat j + 1)) = i_addrs (ino s j)) by (apply (f_equal i_addrs) in Hd; exact Hd).
  destruct (part_ext _ v _ (space fs) _ _ _ Hp) as [Hp' Hs]; [lia| |].
  - intros k Hk Hn. pose proof (pt_pos _ _ _ _ _ Hp k Hk Hn). apply (fn_sect _ _ Hfin). lia.
  - split; [by apply (part_addrs _ _ _ (ino s j))|]. split; [done|]. intros k. rewrite (slot_addrs _ _ (ino s j)) by done. apply Hs.
Qed.

Definition size_of (j : nat) (c : list Z) : Z := if decide (j = 0)%nat then BSIZE else Z.of_nat (length c).

Lemma inodes_types j t c : inodes fs !! j = Some (t, c) -> (t = if decide (j = 0)%nat then T_DIR else T_FILE) /\ 0 <= size_of j c <= MAXFILE * BSIZE /\
  forall k, (k < nslots)%nat -> needed (Z.of_nat (length c)) k <-> needed (size_of j c) k.
Proof.
  unfold size_of. intros Hj. destruct j as [|j].
  - injection Hj as <- <-. split; [done|]. split; [done|]. intros k Hk. rewrite decide_True by done. unfold needed. rewrite length_root_bytes.
    pose proof (lev_bound k Hk). pose proof (fi_count _ Hfit). unfold BSIZE. lia.
  - rewrite !decide_False by done. cbn in Hj. apply list_lookup_fmap_Some in Hj as (f & E & Hf). injection E as -> ->.
    pose proof (Forall_lookup_1 _ _ _ _ (fi_size _ Hfit) Hf) as Hm. cbv beta in Hm. split; [done|]. split; [lia|done].
Qed.

(** Every inode of the image is a well-formed file. *)
Lemma final_file j t c : inodes fs !! j = Some (t, c) -> let i := ilocked v (Z.of_nat j + 1) in
  file_wf mk_sb v i /\ i_type i = t /\ i_nlink i = 1 /\ i_size i = size_of j c /\ i_uid i = 0 /\ i_mode i = 0 /\
  content v i = (fun k => nthd 0 c k) <$> seq 0 (Z.to_nat (size_of j c)).
Proof.
  intros Hj i. destruct (final_part j t c Hj) as (Hp & Hd & _). fold i in Hp, Hd. fold (size_of j c) in Hd. destruct (inodes_types j t c Hj) as (Ht & Hn & Hnd).
  pose proof (lookup_lt_Some _ _ _ Hj) as Hlt. pose proof (im_max _ _ Him) as Hmax. apply (part_iff _ _ _ _ _ _ Hnd) in Hp.
  pose proof (f_equal i_type Hd : i_type i = t) as E1. pose proof (f_equal i_nlink Hd : i_nlink i = 1) as E2. pose proof (f_equal i_size Hd : i_size i = size_of j c) as E3.
  pose proof (f_equal i_uid Hd : i_uid i = 0) as E4. pose proof (f_equal i_mode Hd : i_mode i = 0) as E5. pose proof (f_equal i_gid Hd : i_gid i = 0) as E6.
  pose proof (f_equal i_major Hd : i_major i = 0) as E7. pose proof (f_equal i_minor Hd : i_minor i = 0) as E8.
  destruct (part_wf v (space fs) i c (size_of j c) Hp E3 Hn (fi_space _ Hfit)) as (W1 & W2 & W3 & W4).
  { intros b Hb. pose proof nmeta_val. pose proof (fi_space _ Hfit). rewrite final_bits by lia. apply Z.ltb_lt. lia. }
  change (MAXFILE * BSIZE) with 4243456 in Hn.
  split; [|by repeat (split; [done|])]. split; [done|cbn; lia|rewrite E1, Ht; by case_decide| |done|done|done].
  split; rewrite ?E1, ?E2, ?E3, ?E4, ?E5, ?E6, ?E7, ?E8; try (cbn; lia); [rewrite Ht; by case_decide|apply Hp|done].
Qed.

Lemma final_apart j j' : (j < length (inodes fs))%nat -> (j' < length (inodes fs))%nat -> j <> j' ->
  apart v (ilocked v (Z.of_nat j + 1)) (ilocked v (Z.of_nat j' + 1)).
Proof.
  intros Hj Hj' Hne k k' Hk Hk'. destruct (lookup_lt_is_Some_2 _ _ Hj) as [[t c] E]. destruct (lookup_lt_is_Some_2 _ _ Hj') as [[t' c'] E'].
  destruct (final_part j t c E) as (_ & _ & Hs). destruct (final_part j' t' c' E') as (_ & _ & Hs'). rewrite Hs, Hs'. by apply (im_apart _ _ Him).
Qed.
End Final.

(** ** The root directory *)

Lemma dents_of_concat es : Forall (fun de => 0 <= de_inum de < 2 ^ 16 /\ length (de_name de) = 14%nat) es -> dents_of (concat (enc_dirent <$> es)) = es.
Proof.
  intros He. assert (Hl : length (concat (enc_dirent <$> es)) = (desz * length es)%nat).
  { induction He as [|de es [_ H] _ IH]; cbn [fmap list_fmap concat length]; [done|]. rewrite length_app, IH. unfold enc_dirent. rewrite length_app, length_le_enc, H. unfold desz. lia. }
  apply list_eq. intros k. destruct (decide (k < length es)%nat) as [Hk|Hk].
  2:{ rewrite !lookup_ge_None_2; [done|lia|]. rewrite length_dents_of, Hl, Nat.mul_comm, Nat.div_mul by done. lia. }
  rewrite lookup_dents_of by (rewrite Hl, Nat.mul_comm, Nat.div_mul by done; done). clear Hl. revert k Hk.
  induction He as [|de es [Hi H] _ IH]; intros k Hk; cbn [length] in Hk; [lia|]. cbn [fmap list_fmap concat].
  assert (He : length (enc_dirent de) = desz) by (unfold enc_dirent; rewrite length_app, length_le_enc, H; done). destruct k as [|k].
  - unfold slice. rewrite Nat.mul_0_r, drop_0, take_app_length' by done. change ((de :: es) !! 0%nat) with (Some de). f_equal. unfold dec_dirent, enc_dirent.
    rewrite take_app_length', drop_app_length' by (by rewrite length_le_enc). rewrite le_dec_enc, Z.mod_small by done. by destruct de.
  - unfold slice. replace (desz * S k)%nat with (length (enc_dirent de) + desz * k)%nat by (rewrite He; lia). rewrite drop_app_add' by done. apply IH. lia.
Qed.

Definition no_dent : dirent := Dirent 0 noname.
(** All 256 entries of the block of the root directory. *)
Definition root_block (fs : list source) : list dirent := root_dents fs ++ replicate (254 - length fs) no_dent.

Lemma root_padded fs : (length fs <= 198)%nat ->
  (fun k => nthd 0 (root_bytes fs) k) <$> seq 0 4096 = concat (enc_dirent <$> root_block fs).
Proof.
  intros Hn. unfold root_block. rewrite fmap_app, concat_app. fold (root_bytes fs). pose proof (length_root_bytes fs) as Hl.
  assert (Hz : forall m, concat (enc_dirent <$> replicate m no_dent) = replicate (16 * m) 0).
  { induction m as [|m IH]; [done|]. cbn [replicate fmap list_fmap concat]. rewrite IH. change (enc_dirent no_dent) with (replicate 16 0).
    rewrite <- replicate_add. f_equal. lia. }
  rewrite Hz. apply list_eq. intros k. rewrite list_lookup_fmap. destruct (decide (k < 4096)%nat) as [Hk|Hk].
  - rewrite lookup_seq_lt by done. cbn [fmap option_fmap option_map]. rewrite Nat.add_0_l. destruct (decide (k < length (root_bytes fs))%nat) as [Hr|Hr].
    + rewrite lookup_app_l by done. symmetry. by apply lookup_nthd.
    + rewrite lookup_app_r by lia. unfold nthd. rewrite (lookup_ge_None_2 (root_bytes fs)) by lia. symmetry. apply lookup_replicate_2. lia.
  - rewrite lookup_seq_ge by lia. symmetry. apply lookup_ge_None_2. rewrite length_app, length_replicate. lia.
Qed.

Lemma root_block_ok fs : (length fs <= 198)%nat -> Forall (fun de => 0 <= de_inum de < 2 ^ 16 /\ length (de_name de) = 14%nat) (root_block fs).
Proof.
  intros Hn. apply Forall_app. split.
  - unfold root_dents. do 2 (constructor; [split; [cbn; lia|done]|]). apply Forall_lookup. intros k de Hk. apply list_lookup_imap_Some in Hk as (f & Hf & ->). cbn [de_inum de_name].
    apply lookup_lt_Some in Hf. split; [lia|apply length_file_name].
  - apply Forall_replicate. cbn. split; [lia|done].
Qed.

(** The entry of a file. *)
Lemma root_get fs k f : NoDup ((fun f => name_of (short_name f.1)) <$> fs) -> fs !! k = Some f ->
  name_of (short_name f.1) <> [DOTCH] -> name_of (short_name f.1) <> [DOTCH; DOTCH] ->
  dir_get (name_of (short_name f.1)) (root_block fs) = Some (Z.of_nat k + 2).
Proof.
  intros Hnd Hk H1 H2. set (nm := name_of (short_name f.1)) in *.
  assert (Hname : forall g, cstr (Z.to_nat DIRSIZ) (file_name g) = name_of (short_name g.1)) by (intros g; apply cstr_strncpy).
  assert (Hat : forall j g, fs !! j = Some g -> root_block fs !! S (S j) = Some (Dirent (Z.of_nat j + 2) (file_name g))).
  { intros j g Hj. unfold root_block, root_dents. pose proof (lookup_lt_Some _ _ _ Hj). rewrite lookup_app_l by (cbn; rewrite length_imap; lia).
    change (imap (fun k f => Dirent (Z.of_nat k + 2) (file_name f)) fs !! j = Some (Dirent (Z.of_nat j + 2) (file_name g))). by rewrite list_lookup_imap, Hj. }
  assert (Hf : dir_find nm (root_block fs) = Some (S (S k))).
  { unfold dir_find. apply find_idx_Some. split.
    - eexists. split; [by apply Hat|]. unfold dmatch. cbn [de_inum de_name]. rewrite Hname, bool_decide_eq_true_2 by done.
      by rewrite (proj2 (Z.eqb_neq _ _)) by lia.
    - intros j y Hj Hy. destruct j as [|[|j]].
      + injection Hy as <-. unfold dmatch. cbn [de_inum de_name]. apply andb_false_iff. right. apply bool_decide_eq_false_2. intros E. by apply H1.
      + injection Hy as <-. unfold dmatch. cbn [de_inum de_name]. apply andb_false_iff. right. apply bool_decide_eq_false_2. intros E. by apply H2.
      + assert (Hjl : (j < length fs)%nat) by (apply lookup_lt_Some in Hk; lia). destruct (lookup_lt_is_Some_2 fs j Hjl) as [g Hg]. rewrite (Hat j g Hg) in Hy. injection Hy as <-.
        unfold dmatch. cbn [de_inum de_name]. apply andb_false_iff. right. apply bool_decide_eq_false_2. rewrite Hname. intros E.
        assert (j = k); [|lia]. apply (NoDup_lookup _ _ _ nm Hnd); rewrite list_lookup_fmap; [rewrite Hg; cbn; by rewrite E|by rewrite Hk]. }
  unfold dir_get. rewrite Hf. cbn [fmap option_fmap option_map]. f_equal. unfold nthd. rewrite (Hat k f Hk). done.
Qed.

(** ** Properties *)

Definition mk_geo : geo := Geo FSSIZE 2 nlog.

Lemma mk_layout : layout mk_geo mk_sb.
Proof. split; vm_compute; try split; (discriminate || reflexivity). Qed.

Lemma content_id (c : list Z) : (fun k => nthd 0 c k) <$> seq 0 (length c) = c.
Proof.
  apply list_eq. intros k. rewrite list_lookup_fmap. destruct (decide (k < length c)%nat) as [Hk|Hk].
  - rewrite lookup_seq_lt by done. cbn [fmap option_fmap option_map]. rewrite Nat.add_0_l. symmetry. by apply lookup_nthd.
  - rewrite lookup_seq_ge by lia. symmetry. apply lookup_ge_None_2. lia.
Qed.

Section Image.
Context (fs : list source) (s s' : mkst) (Hfit : fits_image fs).
Context (Him : image s (inodes fs)) (Hsp : freeblock s = space fs) (Hfin : finished s s').
Let v := sect (img s').

Lemma image_root : dir_wf mk_sb v (ilocked v ROOTINO) /\ dents v (ilocked v ROOTINO) = root_block fs.
Proof.
  destruct (final_file fs s s' Hfit Him Hsp Hfin 0 T_DIR (root_bytes fs) eq_refl) as (W & T & _ & Sz & _ & _ & C). pose proof (fi_count _ Hfit) as Hn.
  change (Z.of_nat 0 + 1) with ROOTINO in *. fold v in W, T, Sz, C. split.
  - split; [done|done|]. rewrite Sz. done.
  - unfold dents. rewrite C. change (Z.to_nat (size_of 0 (root_bytes fs))) with 4096%nat. rewrite root_padded by done. by apply dents_of_concat, root_block_ok.
Qed.

Lemma image_file k f : fs !! k = Some f -> let i := ilocked v (Z.of_nat k + 2) in
  file_wf mk_sb v i /\ i_type i = T_FILE /\ i_nlink i = 1 /\ i_size i = Z.of_nat (length (bytes_of f)) /\ content v i = bytes_of f.
Proof.
  intros Hk. assert (Hj : inodes fs !! S k = Some (T_FILE, bytes_of f)) by (change (((fun f => (T_FILE, bytes_of f)) <$> fs) !! k = Some (T_FILE, bytes_of f)); by rewrite list_lookup_fmap, Hk).
  replace (Z.of_nat k + 2) with (Z.of_nat (S k) + 1) by lia. destruct (final_file fs s s' Hfit Him Hsp Hfin (S k) _ _ Hj) as (W & T & N & Sz & _ & _ & C). fold v in W, T, N, Sz, C.
  unfold size_of in *. rewrite decide_False in * by done. rewrite Nat2Z.id, content_id in C. done.
Qed.

Lemma image_free inum : Z.of_nat (length fs) + 1 < inum < NINODES -> i_type (ilocked v inum) = 0.
Proof.
  intros Hi. change (i_type (ilocked v inum)) with (i_type (disk_part (ilocked v inum))). rewrite ilocked_disk. unfold v. rewrite dinode_raw.
  rewrite (fn_raw _ _ Hfin) by lia. rewrite (im_free _ _ Him); [done|]. right. unfold inodes. cbn [length]. rewrite length_fmap. lia.
Qed.

Lemma image_blocks : Forall (fun d => length d = bsize) (img s').
Proof.
  destruct (fn_shaped _ _ Hfin) as [Hl Hb]. apply Forall_lookup. intros k d Hk.
  assert (Hlt : (k < Z.to_nat FSSIZE)%nat) by (rewrite <- Hl; exact (lookup_lt_Some _ _ _ Hk)). specialize (Hb (Z.of_nat k) ltac:(lia)). unfold sect in Hb. rewrite Nat2Z.id in Hb.
  rewrite <- (nthd_lookup zero_block (img s') k d Hk). exact Hb.
Qed.

(** The kernel boots from it. *)
Lemma image_boots pid : exists r, initlog 1 (boot pid (img s')) = Ok tt r /\ log_store mk_geo v [] [] false r.
Proof.
  destruct (fn_shaped _ _ Hfin) as [Hl _]. set (l := Log 2 nlog 0 0 1 0 (replicate (Z.to_nat LOGSIZE) 0)).
  assert (Hhead : nthd zero_block (img s') (Z.to_nat (l_start l)) = zero_block).
  { change (v 2 = zero_block). unfold v. rewrite (fn_sect _ _ Hfin) by lia. apply (im_log _ _ Him). lia. }
  assert (Hsb : forall o, (o + 4 <= 28)%nat -> rd 4 o (nthd zero_block (img s') 1) = rd 4 o (enc_sb mk_sb)).
  { intros o Ho. change (nthd zero_block (img s') 1) with (v 1). unfold v. rewrite (fn_sect _ _ Hfin) by lia. rewrite (im_sb _ _ Him).
    rewrite rd_splice_in; [by rewrite Nat.sub_0_r|lia|rewrite length_enc_sb; lia|rewrite length_enc_sb, length_zero_block, bsize_nat; lia]. }
  assert (Hn0 : dec_n zero_block = 0) by (unfold dec_n; by rewrite rd_zero).
  assert (Hrec : recoverable l (img s')).
  { split; rewrite ?Hhead; [split; rewrite ?Hl; done|apply image_blocks|split; rewrite Hsb by lia; vm_compute; reflexivity|rewrite Hn0; done| |];
      unfold dec_blocks; rewrite Hn0; constructor. }
  destruct (initlog_spec l pid (img s') Hrec) as (r & Er & Hrel & Hnb & (G1 & G2 & G3 & G4) & Hv). exists r. split; [done|].
  split; [done|rewrite Hnb, G1, G2, Hl; done| |intros i b c Hin; by apply not_elem_of_nil in Hin|constructor|done|done].
  intros b [Hb Hnl]. rewrite Hv; [|rewrite Hl; exact Hb|exact Hnl]. rewrite Hhead. unfold dec_blocks. rewrite Hn0. done.
Qed.
End Image.

(** C20: mkfs builds a correct file system.  For any files that fit, with
    any splitting of their contents by the host's [read], it ends, and in the
    image: exactly the blocks below the first free one are marked in use; inode
    1 is a well-formed directory with the entries ".", ".." and one for each
    file, in order, and nothing else, so that each name, if no other file has it,
    leads to its inode; inode k + 2 is a well-formed file with the contents of
    the k-th file; no two inodes share a block; and every other inode is free. *)
Theorem mkfs_image fs (Hfit : fits_image fs) :
  exists s', mkfs (opened <$> fs) mkst0 = Ok tt s' /\
    let v := sect (img s') in
    length (img s') = Z.to_nat FSSIZE /\
    (forall b, 0 <= b < FSSIZE -> in_use mk_sb v b = (b <? space fs)) /\
    (dir_wf mk_sb v (ilocked v ROOTINO) /\ dents v (ilocked v ROOTINO) = root_block fs) /\
    (forall k f, fs !! k = Some f ->
       let i := ilocked v (Z.of_nat k + 2) in
       file_wf mk_sb v i /\ i_type i = T_FILE /\ i_nlink i = 1 /\ content v i = bytes_of f /\
       let name := name_of (short_name f.1) in
       (NoDup ((fun f => name_of (short_name f.1)) <$> fs) -> name <> [DOTCH] -> name <> [DOTCH; DOTCH] ->
        dir_get name (dents v (ilocked v ROOTINO)) = Some (Z.of_nat k + 2))) /\
    (forall j j' : nat, (j <= length fs)%nat -> (j' <= length fs)%nat -> j <> j' ->
       apart v (ilocked v (Z.of_nat j + 1)) (ilocked v (Z.of_nat j' + 1))) /\
    (forall inum, Z.of_nat (length fs) + 1 < inum < NINODES -> i_type (ilocked v inum) = 0).
Proof.
  assert (Hwp : wp (mkfs (opened <$> fs)) (fun _ s' => exists s, image s (inodes fs) /\ freeblock s = space fs /\ finished s s') (fun _ => False) mkst0)
    by (apply mkfs_wp; [done|]; intros s s' H1 H2 H3; by exists s).
  apply wp_total in Hwp as ([] & s' & E & s & Him & Hsp & Hfin). exists s'. split; [done|]. cbn zeta.
  destruct (image_root fs s s' Hfit Him Hsp Hfin) as [R1 R2].
  split; [apply Hfin|]. split; [by apply (final_bits fs s s' Him Hsp Hfin)|]. split; [exact (conj R1 R2)|]. split; [|split].
  - intros k f Hk. destruct (image_file fs s s' Hfit Him Hsp Hfin k f Hk) as (W & T & N & _ & C).
    split; [exact W|]. split; [exact T|]. split; [exact N|]. split; [exact C|]. cbn zeta. rewrite R2. intros. by apply root_get.
  - intros j j' Hj Hj'. apply (final_apart fs s s' Him Hsp Hfin); unfold inodes; cbn [length]; rewrite length_fmap; lia.
  - by apply (image_free fs s s').
Qed.

(** C28: the kernel reads what mkfs wrote.  Booted from the image with an
    empty cache, [initlog] returns, the log and the buffer cache are the block
    store the file system relies on, and [readi] of the inode of a file returns
    its contents. *)
Theorem mkfs_kernel_reads dev_read pid fs (Hfit : fits_image fs) :
  exists s' r, mkfs (opened <$> fs) mkst0 = Ok tt s' /\ initlog 1 (boot pid (img s')) = Ok tt r /\
    store mk_geo (sect (img s')) [] [] false r /\
    forall k f (ic : list inode) nc me (ip : nat), fs !! k = Some f -> ic !! ip = Some (ilocked (sect (img s')) (Z.of_nat k + 2)) ->
      let n := Z.of_nat (length (bytes_of f)) in
      exists r', readi dev_read ip 0 n (Fs r mk_sb ic nc me) = Ok (n, bytes_of f) (Fs r' mk_sb ic nc me) /\
        store mk_geo (sect (img s')) [] [] false r'.
Proof.
  assert (Hwp : wp (mkfs (opened <$> fs)) (fun _ s' => exists s, image s (inodes fs) /\ freeblock s = space fs /\ finished s s') (fun _ => False) mkst0)
    by (apply mkfs_wp; [done|]; intros s s' H1 H2 H3; by exists s).
  apply wp_total in Hwp as ([] & s' & E & s & Him & Hsp & Hfin). destruct (image_boots fs s s' Him Hfin pid) as (r & Er & Hst).
  exists s', r. split; [exact E|]. split; [exact Er|]. split; [exact Hst|]. intros k f ic nc me ip Hk Hip n. destruct (image_file fs s s' Hfit Him Hsp Hfin k f Hk) as (W & T & _ & Sz & C).
  pose proof (Forall_lookup_1 _ _ _ _ (fi_size _ Hfit) Hk) as Hm. cbv beta in Hm. change (MAXFILE * BSIZE) with 4243456 in Hm.
  set (v := sect (img s')) in *. set (i := ilocked v (Z.of_nat k + 2)) in *.
  assert (Hr : wp (readi dev_read ip 0 n) (fun a s1 => exists r', a = (n, bytes_of f) /\ s1 = Fs r' mk_sb ic nc me /\ store mk_geo v [] [] false r') (fun _ => False) (Fs r mk_sb ic nc me)).
  { apply (readi_wp dev_read mk_geo mk_sb mk_layout v [] false _ _ r ic nc me ip i); [done|apply W|apply W|apply W|apply W|done|exact Hst|lia|unfold n; lia| |].
    - intros _ _ m t' Ht'. exists t'. split; [|exact (conj eq_refl Ht')]. assert (Em : m = n) by (unfold m; rewrite Sz; fold n; lia).
      rewrite Em, <- C. unfold content. rewrite Sz. reflexivity.
    - intros [H|H]; unfold n in *; lia. }
  apply wp_total in Hr as (a & s1 & Ea & r' & -> & -> & Hst'). exists r'. exact (conj Ea Hst').
Qed.

(** mkfs does not know the permission bits: every inode of the image, the root
    directory too, has mode 0 and belongs to root, where [ialloc] of the kernel
    gives 0755 and 0644. *)
Lemma mkfs_mode_zero fs s s' j t c : fits_image fs -> image s (inodes fs) -> freeblock s = space fs -> finished s s' ->
  inodes fs !! j = Some (t, c) -> let i := ilocked (sect (img s')) (Z.of_nat j + 1) in
  i_uid i = 0 /\ i_mode i = 0.
Proof.
  intros Hfit Him Hsp Hfin Hj. destruct (final_file fs s s' Hfit Him Hsp Hfin j t c Hj) as (_ & _ & _ & _ & U & Md & _).
  exact (conj U Md).
Qed.

(** ** Witnesses *)

(** "_cat" in two pieces, and "README". *)
Definition smp_src : list source := [([95; 99; 97; 116], [[127; 69]; [76; 70]]); ([82; 69; 65; 68; 77; 69], [[104; 105]])].

Lemma smp_src_fits : fits_image smp_src.
Proof. split; [cbn; lia|repeat constructor|repeat constructor; vm_compute; discriminate|vm_compute; discriminate]. Qed.

Lemma mkfs_image_witness : exists s', mkfs (opened <$> smp_src) mkst0 = Ok tt s' /\
  let v := sect (img s') in content v (ilocked v 2) = [127; 69; 76; 70] /\ dents v (ilocked v ROOTINO) = root_block smp_src.
Proof.
  destruct (mkfs_image smp_src smp_src_fits) as (s' & E & _ & _ & [_ R] & F & _). exists s'. split; [exact E|]. cbn zeta. split; [|exact R].
  destruct (F 0%nat _ eq_refl) as (_ & _ & _ & C & _). exact C.
Defined.

Lemma mkfs_kernel_reads_witness : exists s' r, mkfs (opened <$> smp_src) mkst0 = Ok tt s' /\ initlog 1 (boot 1 (img s')) = Ok tt r /\
  exists r', readi (fun _ => None) 0 0 2 (Fs r mk_sb [ilocked (sect (img s')) 3] namecache0 (Cred 1 0 0 0)) =
             Ok (2, [104; 105]) (Fs r' mk_sb [ilocked (sect (img s')) 3] namecache0 (Cred 1 0 0 0)).
Proof.
  destruct (mkfs_kernel_reads (fun _ => None) 1 smp_src smp_src_fits) as (s' & r & E & Er & _ & H). exists s', r. split; [exact E|]. split; [exact Er|].
  destruct (H 1%nat _ [ilocked (sect (img s')) 3] namecache0 (Cred 1 0 0 0) 0%nat eq_refl eq_refl) as (r' & R & _). exists r'. exact R.
Defined.
