(* ===== verification/Tools.v ===== *)
(** Programs that run in user space: [gets] of ulib.c, and sudo.c, su.c,
    visudo.c, whoami.c, chmod.c, chown.c, echo.c, wc.c, cat.c and the permission
    strings of ls_perm.c.

    A program sees the ids of its process and the user database through system
    calls, reads its standard input and writes to its descriptors; it ends by
    [exit], or becomes another program by [exec].  What a system call does to
    the ids and the database is what sysproc.c does once it has fetched the
    arguments.  A string is its characters, without the NUL. *)
From stdpp Require Import base numbers list strings.
From Stdlib Require Import ZArith Lia.
From S2P Require Import Prelude CString Params Users Printf.

Local Open Scope list_scope.
Local Open Scope Z_scope.

(** ** Programs *)

(** The calls on files and other processes; their results are a parameter below.
    [ForkRun line]: a child that runs a command line, and the wait for it. *)
Inductive fcall :=
| Chmod (path : list Z) (mode : Z)
| Chown (path : list Z) (uid : Z)
| Unlink (path : list Z)
| Mkdir (path : list Z)
| Link (old new : list Z)
| Kill (pid : Z)
| Chdir (path : list Z)
| ForkRun (line : list Z).

Record env := Env {
  e_uid : Z; e_gid : Z; e_db : utable; e_in : list Z; e_out : list (Z * list Z); e_calls : list fcall
}.
Definition set_ids (u g : Z) (e : env) : env := Env u g (e_db e) (e_in e) (e_out e) (e_calls e).
Definition set_db (t : utable) (e : env) : env := Env (e_uid e) (e_gid e) t (e_in e) (e_out e) (e_calls e).
Definition set_in (l : list Z) (e : env) : env := Env (e_uid e) (e_gid e) (e_db e) l (e_out e) (e_calls e).
Definition put_out (o : Z * list Z) (e : env) : env := Env (e_uid e) (e_gid e) (e_db e) (e_in e) (e_out e ++ [o]) (e_calls e).
Definition put_call (c : fcall) (e : env) : env := Env (e_uid e) (e_gid e) (e_db e) (e_in e) (e_out e) (e_calls e ++ [c]).

(** How a piece of a program ends. *)
Inductive result (A : Type) :=
| Go (a : A) (e : env)
| Exit (e : env)
| Exec (path : list Z) (argv : list (list Z)) (e : env).
Arguments Go {A} a e.
Arguments Exit {A} e.
Arguments Exec {A} path argv e.

Definition P (A : Type) : Type := env -> result A.
Definition pret {A} (a : A) : P A := fun e => Go a e.
Definition pbind {A B} (m : P A) (k : A -> P B) : P B :=
  fun e => match m e with Go a e' => k a e' | Exit e' => Exit e' | Exec p v e' => Exec p v e' end.
Definition pexit {A} : P A := fun e => Exit e.
Fixpoint peach {A} (l : list A) (f : A -> P unit) : P unit :=
  match l with [] => pret tt | x :: l' => pbind (f x) (fun _ => peach l' f) end.

Declare Scope prog_scope.
Notation "x <~ m ; k" := (pbind m (fun x => k)) (at level 20, m at level 100, k at level 200, only parsing) : prog_scope.
Notation "m ;; k" := (pbind m (fun _ => k)) (at level 100, k at level 200, right associativity, only parsing) : prog_scope.
Local Open Scope prog_scope.

(** The characters of a literal. *)
Definition txt (s : string) : list Z := (fun a => Z.of_N (Ascii.N_of_ascii a)) <$> String.list_ascii_of_string s.
Definition NLC : Z := 10.

(** The arguments of a call of [printf]; the string in place [i] is at the
    address [i + 1]. *)
Inductive parg := PInt (z : Z) | PStr (s : list Z).
Definition arg_word (args : list parg) (i : nat) : Z :=
  match args !! i with Some (PInt z) => z | Some (PStr _) => Z.of_nat i + 1 | None => 0 end.
Definition arg_str (args : list parg) (a : Z) : list Z :=
  match args !! Z.to_nat (a - 1) with Some (PStr s) => s | _ => [] end.
Definition text (fmt : list Z) (args : list parg) : list Z := printf (arg_word args) (arg_str args) fmt.
(** [printf] of a format that ends in a newline, and of one that does not. *)
Definition sayln (fd : Z) (fmt : string) (args : list parg) : P unit := fun e => Go tt (put_out (fd, text (txt fmt ++ [NLC]) args) e).
Definition say (fd : Z) (fmt : string) (args : list parg) : P unit := fun e => Go tt (put_out (fd, text (txt fmt) args) e).

(** ** System calls on the ids *)

Definition getuid : P Z := fun e => Go (e_uid e) e.
Definition cansudo : P Z := fun e => Go (users_can_sudo (e_db e) (e_uid e)) e.
(** The string in [buf], an array of 16 bytes, afterwards. *)
Definition whoami (buf : list Z) : P (list Z) := fun e => Go (cstr 16 (users_getname (e_db e) (e_uid e) buf 16)) e.
Definition login (name pw : list Z) : P Z :=
  fun e => let uid := users_checkpassword (e_db e) name pw in
           if uid <? 0 then Go (-1) e else Go 0 (set_ids uid uid e).
Definition setsuid (uid : Z) : P Z :=
  fun e => if users_can_sudo (e_db e) (e_uid e) =? 0 then Go (-1) e
           else if negb (uid =? 0) && negb (uid =? e_uid e) then Go (-1) e
           else Go 0 (set_ids uid (e_gid e) e).
Definition addsudoer (uid : Z) : P Z :=
  fun e => if negb (e_uid e =? 0) then Go (-1) e
           else let r := users_add_sudoer (e_db e) uid in Go r.1 (set_db r.2 e).
Definition removesudoer (uid : Z) : P Z :=
  fun e => if negb (e_uid e =? 0) then Go (-1) e
           else let r := users_remove_sudoer (e_db e) uid in Go r.1 (set_db r.2 e).

(** ** ulib.c *)

(** The loop of [gets] with room for [k] more characters: the line, and what
    is left of the input. *)
Fixpoint gets_loop (k : nat) (input : list Z) : list Z * list Z :=
  match k, input with
  | S k', c :: input' =>
      if (c =? 10) || (c =? 13) then ([c], input')
      else let r := gets_loop k' input' in (c :: r.1, r.2)
  | _, _ => ([], input)
  end.
Definition gets (max : Z) : P (list Z) :=
  fun e => let r := gets_loop (Z.to_nat (max - 1)) (e_in e) in Go r.1 (set_in r.2 e).

(** ** sudo.c, su.c, visudo.c, whoami.c *)

(** The loop that ends the password at its newline. *)
Fixpoint cut_newline (s : list Z) : list Z :=
  match s with
  | [] => []
  | c :: s' => if c =? 0 then [] else if c =? 10 then [] else c :: cut_newline s'
  end.

Definition arg (argv : list (list Z)) (i : nat) : list Z := nthd [] argv i.

Section Programs.
(** Whether [exec] finds a program it can run; what [chmod] and [chown]
    return. *)
Context (exec_ok : list Z -> bool) (fcall_result : fcall -> Z).

Definition exec_prog (path : list Z) (argv : list (list Z)) : P Z :=
  fun e => if exec_ok path then Exec path argv e else Go (-1) e.
Definition fcall_ (c : fcall) : P Z := fun e => Go (fcall_result c) (put_call c e).

(** [buf] is what the array [username] holds at the start. *)
Definition sudo (buf : list Z) (argv : list (list Z)) : P unit :=
  if Nat.ltb (length argv) 2 then
    sayln 2 "Usage: sudo <command> [args...]" [];;
    sayln 2 "Example: sudo cat /secret.txt" [];;
    pexit
  else
    c <~ cansudo;
    if c =? 0 then
      username <~ whoami buf;
      sayln 2 "%s is not in the sudoers file. This incident will be reported." [PStr username];;
      pexit
    else
      username <~ whoami buf;
      say 1 "[sudo] password for %s: " [PStr username];;
      password <~ gets 32;
      let password := cut_newline password in
      original_uid <~ getuid;
      r <~ login username password;
      if r <? 0 then sayln 2 "sudo: authentication failure" [];; pexit
      else
        r <~ setsuid 0;
        if r <? 0 then sayln 2 "sudo: failed to set uid" [];; pexit
        else
          sayln 1 "[sudo] executing as root..." [];;
          let exec_argv := take 15 (drop 1 argv) in
          r <~ exec_prog (arg argv 1) exec_argv;
          if r <? 0 then
            sayln 2 "sudo: %s: command not found" [PStr (arg argv 1)];;
            setsuid original_uid;;
            pexit
          else pexit.

Definition su (argv : list (list Z)) : P unit :=
  if Nat.ltb (length argv) 2 then sayln 2 "Usage: su <username>" [];; pexit
  else
    say 1 "Password: " [];;
    password <~ gets 32;
    let password := cut_newline password in
    r <~ login (arg argv 1) password;
    if r <? 0 then sayln 2 "su: authentication failure" [];; pexit
    else
      sayln 1 "Switched to user: %s" [PStr (arg argv 1)];;
      exec_prog (txt "sh") [txt "sh"];;
      sayln 2 "su: exec sh failed" [];;
      pexit.

Definition visudo (argv : list (list Z)) : P unit :=
  u <~ getuid;
  if negb (u =? 0) then sayln 2 "visudo: only root can modify sudoers" [];; pexit
  else if Nat.ltb (length argv) 3 then
    sayln 2 "Usage: visudo <add|remove> <uid>" [];;
    sayln 2 "Examples:" [];;
    sayln 2 "  visudo add 1000      # add user to sudoers" [];;
    sayln 2 "  visudo remove 1000   # remove user from sudoers" [];;
    pexit
  else
    let uid := atoi (arg argv 2) in
    (if strcmp (arg argv 1) (txt "add") =? 0 then
       r <~ addsudoer uid;
       if r =? 0 then sayln 1 "Added uid %d to sudoers" [PInt uid]
       else sayln 2 "Failed to add uid %d to sudoers" [PInt uid]
     else if strcmp (arg argv 1) (txt "remove") =? 0 then
       r <~ removesudoer uid;
       if r =? 0 then sayln 1 "Removed uid %d from sudoers" [PInt uid]
       else sayln 2 "Failed to remove uid %d from sudoers" [PInt uid]
     else
       sayln 2 "visudo: unknown command '%s'" [PStr (arg argv 1)];;
       sayln 2 "Use 'add' or 'remove'" []);;
    pexit.

Definition whoami_main (buf : list Z) : P unit :=
  username <~ whoami buf;
  u <~ getuid;
  sayln 1 "%s (uid=%d)" [PStr username; PInt u];;
  pexit.

(** ** chmod.c, chown.c, echo.c *)

(** The loop of [parse_mode] from [str[i]]. *)
Fixpoint parse_mode_loop (mode : Z) (str : list Z) : Z :=
  match str with
  | [] => mode
  | c :: str' => if (c <? 48) || (55 <? c) then -1 else parse_mode_loop (i32 (i32 (mode * 8) + (c - 48))) str'
  end.
Definition parse_mode (str : list Z) : Z := parse_mode_loop 0 str.

Definition chmod_main (argv : list (list Z)) : P unit :=
  if Nat.ltb (length argv) 3 then
    sayln 2 "Usage: chmod <mode> <file...>" [];;
    sayln 2 "Example: chmod 755 myfile" [];;
    sayln 2 "         chmod 644 file1 file2" [];;
    pexit
  else
    let mode := parse_mode (arg argv 1) in
    if (mode <? 0) || (511 <? mode) then sayln 2 "chmod: invalid mode '%s'" [PStr (arg argv 1)];; pexit
    else
      peach (drop 2 argv) (fun f =>
        r <~ fcall_ (Chmod f mode);
        if r <? 0 then sayln 2 "chmod: cannot change '%s': Permission denied" [PStr f]
        else sayln 1 "Changed permissions of '%s' to %o" [PStr f; PInt mode]);;
      pexit.

Definition chown_main (argv : list (list Z)) : P unit :=
  if Nat.ltb (length argv) 3 then
    sayln 2 "Usage: chown <uid> <file...>" [];;
    sayln 2 "Example: chown 1000 myfile" [];;
    pexit
  else
    let uid := atoi (arg argv 1) in
    peach (drop 2 argv) (fun f =>
      r <~ fcall_ (Chown f uid);
      if r <? 0 then sayln 2 "chown: cannot change '%s': Permission denied" [PStr f]
      else sayln 1 "Changed owner of '%s' to uid %d" [PStr f; PInt uid]);;
    pexit.

Fixpoint echo_loop (args : list (list Z)) : P unit :=
  match args with
  | [] => pexit
  | a :: args' => say 1 "%s%s" [PStr a; PStr (match args' with [] => [NLC] | _ => txt " " end)];; echo_loop args'
  end.
Definition echo (argv : list (list Z)) : P unit := echo_loop (drop 1 argv).

(** ** ls_perm.c: mode_to_string *)

Definition mode_to_string (mode : Z) : list Z :=
  [if Z.land mode 256 =? 0 then 45 else 114; if Z.land mode 128 =? 0 then 45 else 119; if Z.land mode 64 =? 0 then 45 else 120;
   if Z.land mode 32 =? 0 then 45 else 114; if Z.land mode 16 =? 0 then 45 else 119; if Z.land mode 8 =? 0 then 45 else 120;
   if Z.land mode 4 =? 0 then 45 else 114; if Z.land mode 2 =? 0 then 45 else 119; if Z.land mode 1 =? 0 then 45 else 120].

(** ** wc.c and cat.c *)

(** What the reads of a descriptor return: bytes, none at the end, or an
    error. *)
Definition reads : Type := list (option (list Z)).

Record counts := Counts { wc_l : Z; wc_w : Z; wc_c : Z; wc_inword : bool }.
Definition spaces : list Z := [32; 13; 9; 10; 11].
Definition wc_byte (k : counts) (b : Z) : counts :=
  let c := i32 (wc_c k + 1) in
  let l := if b =? 10 then i32 (wc_l k + 1) else wc_l k in
  if strchr spaces b is Some _ then Counts l (wc_w k) c false
  else if negb (wc_inword k) then Counts l (i32 (wc_w k + 1)) c true
  else Counts l (wc_w k) c (wc_inword k).
Fixpoint wc_loop (rs : reads) (k : counts) : option counts :=
  match rs with
  | Some (b :: buf) :: rs' => wc_loop rs' (foldl wc_byte k (b :: buf))
  | Some [] :: _ | [] => Some k
  | None :: _ => None
  end.
Definition wc (rs : reads) (name : list Z) : P unit :=
  match wc_loop rs (Counts 0 0 0 false) with
  | None => sayln 1 "wc: read error" [];; pexit
  | Some k => sayln 1 "%d %d %d %s" [PInt (wc_l k); PInt (wc_w k); PInt (wc_c k); PStr name]
  end.

(** [cat] with what its reads and its writes return. *)
Fixpoint cat (turns : list (option (list Z) * Z)) : P unit :=
  match turns with
  | (Some (b :: buf), r) :: turns' =>
      (fun e => Go tt (put_out (1, take (Z.to_nat r) (b :: buf)) e));;
      if r =? Z.of_nat (length (b :: buf)) then cat turns' else sayln 1 "cat: write error" [];; pexit
  | (Some [], _) :: _ | [] => pret tt
  | (None, _) :: _ => sayln 1 "cat: read error" [];; pexit
  end.

(** The programs: [open_ f] is what opening [f] and reading it gives. *)
Definition wc_main (open_ : list Z -> option reads) (stdin : reads) (argv : list (list Z)) : P unit :=
  if Nat.leb (length argv) 1 then wc stdin [];; pexit
  else
    peach (drop 1 argv) (fun f =>
      match open_ f with
      | None => sayln 1 "wc: cannot open %s" [PStr f];; pexit
      | Some rs => wc rs f
      end);;
    pexit.

Definition cat_main (open_ : list Z -> option (list (option (list Z) * Z))) (stdin : list (option (list Z) * Z)) (argv : list (list Z)) : P unit :=
  if Nat.leb (length argv) 1 then cat stdin;; pexit
  else
    peach (drop 1 argv) (fun f =>
      match open_ f with
      | None => sayln 1 "cat: cannot open %s" [PStr f];; pexit
      | Some turns => cat turns
      end);;
    pexit.
End Programs.

(** ** sudo *)

#[local] Opaque text gets_loop.

(** Names end inside their field, and no two accounts in use share one. *)
Record names_ok (t : utable) : Prop := NamesOk {
  no_nul : forall i u, users t !! i = Some u -> cstr 15 (username u) = cstr 16 (username u);
  no_dup : forall i j u w, users t !! i = Some u -> users t !! j = Some w -> truth (active u) = true -> truth (active w) = true ->
    cstr 16 (username u) = cstr 16 (username w) -> i = j
}.

(** The password typed at the prompt. *)
Definition typed (e : env) : list Z := cut_newline (gets_loop 31 (e_in e)).1.

(** The caller has an account with the sudo flag and typed its password. *)
Definition may_sudo (e : env) : Prop :=
  exists i u f, find_idx (has_uid (e_uid e)) (users (e_db e)) = Some i /\ users (e_db e) !! i = Some u /\
    sudoers (e_db e) !! i = Some f /\ f <> 0 /\ cstr 32 (password u) = cstr 32 (typed e) /\ 0 <= e_uid e.

Lemma has_uid_slot id t i : find_idx (has_uid id) (users t) = Some i ->
  exists u, users t !! i = Some u /\ truth (active u) = true /\ uid u = id.
Proof.
  intros [(u & Hu & Hf) _]%find_idx_Some. exists u. unfold has_uid in Hf. apply andb_true_iff in Hf as [H1 H2]. by apply Z.eqb_eq in H2.
Qed.

(** The name [whoami] gives leads back to the account. *)
Lemma whoami_named t id i buf : names_ok t -> length buf = 16%nat -> find_idx (has_uid id) (users t) = Some i ->
  find_idx (named (cstr 16 (users_getname t id buf 16))) (users t) = Some i.
Proof.
  intros [Hnul Hdup] Hb Hi. destruct (has_uid_slot id t i Hi) as (u & Hu & Ha & _).
  assert (Hn : cstr 16 (users_getname t id buf 16) = cstr 16 (username u)).
  { unfold users_getname. rewrite Hi, (nthd_lookup _ _ _ _ Hu). destruct (safestrcpy_spec 16 buf (username u)) as [H _]; [lia|].
    change (Z.to_nat 16) with 16%nat in H. rewrite H. exact (Hnul i u Hu). }
  rewrite Hn. apply (find_idx_unique _ _ _ u Hu).
  - unfold named. rewrite Ha. apply Z.eqb_eq, strncmp_zero_iff. by rewrite cstr_cstr.
  - intros j w Hj Hw. unfold named. destruct (truth (active w)) eqn:Ea; [|done]. apply Z.eqb_neq. intros H%strncmp_zero_iff.
    rewrite cstr_cstr in H. by apply Hj, (Hdup j i w u).
Qed.

(** [login] under the name of the caller. *)
Lemma login_self t id i u buf pw : names_ok t -> length buf = 16%nat -> find_idx (has_uid id) (users t) = Some i -> users t !! i = Some u ->
  users_checkpassword t (cstr 16 (users_getname t id buf 16)) pw = if decide (cstr 32 (password u) = cstr 32 pw) then id else -1.
Proof.
  intros Hn Hb Hi Hu. unfold users_checkpassword. rewrite (whoami_named t id i buf Hn Hb Hi), (nthd_lookup _ _ _ _ Hu).
  destruct (has_uid_slot id t i Hi) as (u' & Hu' & _ & Hid). simplify_eq. destruct (decide _) as [E|E].
  - apply strncmp_zero_iff in E. by rewrite E.
  - destruct (strncmp 32 _ pw =? 0) eqn:E'; [|done]. apply Z.eqb_eq, strncmp_zero_iff in E'. done.
Qed.

Lemma can_sudo_none t id : find_idx (has_uid id) (users t) = None -> users_can_sudo t id = 0.
Proof. unfold users_can_sudo. by intros ->. Qed.

Lemma can_sudo_slot t id i : utable_wf t -> find_idx (has_uid id) (users t) = Some i ->
  exists f, sudoers t !! i = Some f /\ users_can_sudo t id = f.
Proof.
  intros (Hl1 & Hl2 & _) Hi. eexists. split; [|unfold users_can_sudo; rewrite Hi; reflexivity].
  apply lookup_nthd. rewrite Hl2, <- Hl1. by eapply find_idx_lt.
Qed.

Lemma setsuid_root e : users_can_sudo (e_db e) (e_uid e) <> 0 -> setsuid 0 e = Go 0 (set_ids 0 (e_gid e) e).
Proof. intros H%Z.eqb_neq. unfold setsuid. by rewrite H. Qed.

(** The first half of the program, up to the change of ids. *)
Lemma sudo_cases exec_ok buf argv e : utable_wf (e_db e) -> names_ok (e_db e) -> length buf = 16%nat -> (2 <= length argv)%nat ->
  (may_sudo e /\ exists e', e_uid e' = 0 /\ e_gid e' = e_uid e /\ e_db e' = e_db e /\
     sudo exec_ok buf argv e = if exec_ok (arg argv 1) then Exec (arg argv 1) (take 15 (drop 1 argv)) e'
                               else pbind (sayln 2 "sudo: %s: command not found" [PStr (arg argv 1)]) (fun _ => pbind (setsuid (e_uid e)) (fun _ => pexit)) e') \/
  (~ may_sudo e /\ exists e', sudo exec_ok buf argv e = Exit e' /\ e_uid e' = e_uid e /\ e_gid e' = e_gid e /\ e_db e' = e_db e).
Proof.
  intros Hwf Hn Hb Ha. unfold sudo. replace (Nat.ltb (length argv) 2) with false by (symmetry; apply Nat.ltb_ge; lia).
  unfold cansudo, whoami, gets, getuid, login, say, sayln, pbind. cbn [e_uid e_gid e_db e_in put_out set_in set_ids].
  destruct (find_idx (has_uid (e_uid e)) (users (e_db e))) as [i|] eqn:Hi.
  2:{ rewrite (can_sudo_none _ _ Hi). right. split; [intros (i & u & f & H & _); congruence|]. by eexists. }
  destruct (has_uid_slot _ _ _ Hi) as (u & Hu & _ & _). destruct (can_sudo_slot _ _ _ Hwf Hi) as (f & Hf & Hc). rewrite Hc.
  destruct (f =? 0) eqn:Ef; b2p.
  { right. split; [intros (i' & u' & f' & H & _ & H' & ? & _); simplify_eq; congruence|]. by eexists. }
  rewrite (login_self _ _ i u buf _ Hn Hb Hi Hu). change (Z.to_nat (32 - 1)) with 31%nat. fold (typed e).
  destruct (decide _) as [Ep|Ep]; [destruct (e_uid e <? 0) eqn:Eu; b2p|].
  - right. split; [intros (? & ? & ? & _ & _ & _ & _ & _ & ?); lia|]. by eexists.
  - left. split; [by exists i, u, f|]. cbv beta iota zeta. change (0 <? 0) with false. cbv beta iota.
    rewrite setsuid_root by (cbn [e_uid e_db set_ids set_in put_out]; by rewrite Hc). cbv beta iota. change (0 <? 0) with false. cbv beta iota.
    unfold exec_prog. eexists (put_out _ (set_ids 0 (e_uid e) _)).
    split; [reflexivity|]. split; [reflexivity|]. split; [|destruct (exec_ok (arg argv 1)); reflexivity]. reflexivity.
  - right. split; [intros (? & ? & ? & ? & ? & _ & _ & ? & _); simplify_eq; done|]. by eexists.
Qed.


(** The way back from root that sudo.c tries when the command is not found is
    refused: the process stays root until it exits. *)
Lemma sudo_not_restored exec_ok buf argv e : utable_wf (e_db e) -> names_ok (e_db e) -> length buf = 16%nat -> may_sudo e ->
  (2 <= length argv)%nat -> exec_ok (arg argv 1) = false -> exists e', sudo exec_ok buf argv e = Exit e' /\ e_uid e' = 0.
Proof.
  intros Hwf Hn Hb Hm Ha Hx. destruct (sudo_cases exec_ok buf argv e Hwf Hn Hb Ha) as [(_ & e1 & U & _ & _ & E)|(? & _)]; [|done].
  rewrite E, Hx. unfold pbind, sayln, setsuid. cbn [e_uid e_gid e_db put_out]. rewrite U.
  destruct (users_can_sudo _ 0 =? 0); [by eexists|]. destruct (e_uid e =? 0) eqn:E0; cbn [negb andb]; b2p; [|by eexists].
  eexists. split; [reflexivity|]. cbn. done.
Qed.

(** su runs a shell exactly for the password of the named account, under the
    ids of that account. *)
Lemma su_authenticates exec_ok argv e path args e' : su exec_ok argv e = Exec path args e' ->
  let id := users_checkpassword (e_db e) (arg argv 1) (typed e) in
  (2 <= length argv)%nat /\ 0 <= id /\ path = txt "sh" /\ e_uid e' = id /\ e_gid e' = id /\ e_db e' = e_db e.
Proof.
  unfold su. destruct (Nat.ltb (length argv) 2) eqn:El; [done|]. apply Nat.ltb_ge in El.
  unfold pbind, gets, login, say, sayln, exec_prog. cbn [e_uid e_gid e_db e_in put_out set_in set_ids]. change (Z.to_nat (32 - 1)) with 31%nat. fold (typed e).
  destruct (users_checkpassword _ _ _ <? 0) eqn:E; b2p; [done|]. change (0 <? 0) with false. cbv beta iota.
  destruct (exec_ok (txt "sh")); [|done]. intros [= <- _ <-]. by split; [|split].
Qed.

(** visudo changes nothing for anyone but root. *)
Lemma visudo_root argv e : e_uid e <> 0 -> exists e', visudo argv e = Exit e' /\ e_db e' = e_db e.
Proof. intros H%Z.eqb_neq. unfold visudo, pbind, getuid. rewrite H. by eexists. Qed.

(** ** chmod and ls *)

(** The three letters of an octal digit. *)
Definition rwx (d : Z) : list Z := [if Z.testbit d 2 then 114 else 45; if Z.testbit d 1 then 119 else 45; if Z.testbit d 0 then 120 else 45].

Definition three_ok (a b c : Z) : bool :=
  let m := 64 * a + 8 * b + c in
  (parse_mode [48 + a; 48 + b; 48 + c] =? m) && bool_decide (mode_to_string m = rwx a ++ rwx b ++ rwx c).

Lemma three_all : forallb (fun a => forallb (fun b => forallb (three_ok a b) (seqZ 0 8)) (seqZ 0 8)) (seqZ 0 8) = true.
Proof. vm_compute. reflexivity. Qed.

Lemma three_digits a b c : 0 <= a < 8 -> 0 <= b < 8 -> 0 <= c < 8 ->
  parse_mode [48 + a; 48 + b; 48 + c] = 64 * a + 8 * b + c /\ mode_to_string (64 * a + 8 * b + c) = rwx a ++ rwx b ++ rwx c.
Proof.
  intros Ha Hb Hc. pose proof three_all as H. rewrite forallb_forall in H. specialize (H a ltac:(apply list_elem_of_In, elem_of_seqZ; lia)).
  rewrite forallb_forall in H. specialize (H b ltac:(apply list_elem_of_In, elem_of_seqZ; lia)).
  rewrite forallb_forall in H. specialize (H c ltac:(apply list_elem_of_In, elem_of_seqZ; lia)).
  apply andb_true_iff in H as [H1 H2]. apply Z.eqb_eq in H1. by apply bool_decide_eq_true in H2.
Qed.

Lemma parse_mode_bad s : Exists (fun c => c < 48 \/ 55 < c) s -> forall m, parse_mode_loop m s = -1.
Proof.
  induction 1 as [c s Hc|c s _ IH]; intros m; cbn [parse_mode_loop].
  - destruct (c <? 48) eqn:E1, (55 <? c) eqn:E2; cbn [orb]; b2p; try done; lia.
  - by destruct ((c <? 48) || (55 <? c)).
Qed.

(** A loop of calls, each followed by a message. *)
Lemma peach_calls fr (mk : list Z -> fcall) (msg : Z -> list Z -> P unit) fs :
  (forall r f e, exists o, msg r f e = Go tt (put_out o e)) ->
  forall e, exists e', peach fs (fun f => pbind (fcall_ fr (mk f)) (fun r => msg r f)) e = Go tt e' /\ e_calls e' = e_calls e ++ (mk <$> fs).
Proof.
  intros Hm. induction fs as [|f fs IH]; intros e; cbn [peach fmap list_fmap].
  { exists e. by rewrite app_nil_r. }
  unfold pbind at 1 2. cbn [fcall_]. unfold fcall_ at 1. destruct (Hm (fr (mk f)) f (put_call (mk f) e)) as [o Ho]. rewrite Ho.
  destruct (IH (put_out o (put_call (mk f) e))) as (e' & E & H). exists e'. split; [exact E|]. rewrite H. cbn. by rewrite <- app_assoc.
Qed.

Lemma chmod_run fr s f fs p e : exists e', chmod_main fr (p :: s :: f :: fs) e = Exit e' /\
  e_calls e' = e_calls e ++ (let m := parse_mode s in if (m <? 0) || (511 <? m) then [] else (fun f => Chmod f m) <$> (f :: fs)).
Proof.
  unfold chmod_main. change (Nat.ltb _ 3) with false. cbv iota. change (arg _ 1) with s. change (drop 2 _) with (f :: fs).
  cbv zeta. destruct ((parse_mode s <? 0) || (511 <? parse_mode s)).
  { eexists. split; [reflexivity|]. cbn. by rewrite app_nil_r. }
  unfold pbind at 1.
  destruct (peach_calls fr (fun f => Chmod f (parse_mode s)) (fun r f => if r <? 0 then sayln 2 "chmod: cannot change '%s': Permission denied" [PStr f]
        else sayln 1 "Changed permissions of '%s' to %o" [PStr f; PInt (parse_mode s)]) (f :: fs)) with (e := e) as (e' & E & H).
  { intros r g e0. destruct (r <? 0); by eexists. }
  rewrite E. by exists e'.
Qed.

(** Chmod and ls agree.  chmod with three octal digits sets this mode on
    each of its files, in order, and ls shows the mode as the three letters of
    each digit; a mode with another character is refused without a call. *)
Theorem chmod_ls fr p f fs e :
  (forall a b c, 0 <= a < 8 -> 0 <= b < 8 -> 0 <= c < 8 ->
     exists m e', chmod_main fr (p :: [48 + a; 48 + b; 48 + c] :: f :: fs) e = Exit e' /\
       e_calls e' = e_calls e ++ ((fun f => Chmod f m) <$> (f :: fs)) /\
       mode_to_string m = rwx a ++ rwx b ++ rwx c) /\
  (forall s, Exists (fun c => c < 48 \/ 55 < c) s ->
     exists e', chmod_main fr (p :: s :: f :: fs) e = Exit e' /\ e_calls e' = e_calls e).
Proof.
  split.
  - intros a b c Ha Hb Hc. destruct (three_digits a b c Ha Hb Hc) as [Hp Hs]. exists (64 * a + 8 * b + c).
    destruct (chmod_run fr [48 + a; 48 + b; 48 + c] f fs p e) as (e' & E & H). exists e'. split; [exact E|]. rewrite Hp in H. cbv zeta in H.
    replace ((64 * a + 8 * b + c <? 0) || (511 <? 64 * a + 8 * b + c)) with false in H by (symmetry; apply orb_false_iff; split; apply Z.ltb_ge; lia).
    exact (conj H Hs).
  - intros s Hs. destruct (chmod_run fr s f fs p e) as (e' & E & H). exists e'. split; [exact E|]. unfold parse_mode in H.
    rewrite (parse_mode_bad s Hs) in H. by rewrite app_nil_r in H.
Qed.

(** The value of [parse_mode] wraps around, so a mode far above 0777 can pass
    for a small one. *)
Lemma chmod_wraps : parse_mode (txt "40000000755") = 493.
Proof. vm_compute. reflexivity. Qed.

#[local] Transparent text.
(** [printf] has no [%o]: chmod prints these two characters. *)
Lemma chmod_message : text (txt "Changed permissions of '%s' to %o") [PStr (txt "f"); PInt 493] = txt "Changed permissions of 'f' to %o".
Proof. vm_compute. reflexivity. Qed.

(** ** wc *)

Definition is_space (b : Z) : bool := if strchr spaces b is Some _ then true else false.
(** The places in [s] where a word starts. *)
Definition starts_word (s : list Z) (i : nat) : bool :=
  negb (is_space (nthd 0 s i)) && (Nat.eqb i 0 || is_space (nthd 0 s (i - 1))).
Definition word_starts (s : list Z) : list nat := List.filter (starts_word s) (seq 0 (length s)).
Definition lines_in (s : list Z) : list Z := List.filter (fun b => b =? 10) s.

Record counted (s : list Z) (k : counts) : Prop := Counted {
  ct_l : wc_l k = Z.of_nat (length (lines_in s));
  ct_w : wc_w k = Z.of_nat (length (word_starts s));
  ct_c : wc_c k = Z.of_nat (length s);
  ct_in : wc_inword k = match last s with Some b => negb (is_space b) | None => false end
}.

(** No word is open at the end of [s]. *)
Definition outside (s : list Z) : bool := match last s with Some b => is_space b | None => true end.

Lemma word_starts_snoc s b : word_starts (s ++ [b]) = word_starts s ++ (if negb (is_space b) && outside s then [length s] else []).
Proof.
  unfold word_starts. rewrite length_app, seq_app, List.filter_app. cbn [length seq plus]. f_equal.
  - apply List.filter_ext_in. intros i Hi%list_elem_of_In%elem_of_seq. unfold starts_word, nthd. by rewrite !lookup_app_l by lia.
  - cbn [List.filter]. unfold starts_word, nthd, outside. rewrite list_lookup_middle by done. cbn [default]. rewrite last_lookup.
    destruct s as [|c s]; [by cbn|]. cbn [length Nat.eqb orb pred]. replace (S (length s) - 1)%nat with (length s) by lia.
    rewrite lookup_app_l by (cbn; lia). destruct ((c :: s) !! length s) eqn:E; [done|]. apply lookup_ge_None in E. cbn in E. lia.
Qed.

Lemma starts_le s : (length (word_starts s) <= length s)%nat.
Proof. unfold word_starts. rewrite <- (length_seq (length s) 0) at 2. apply List.filter_length_le. Qed.
Lemma lines_le s : (length (lines_in s) <= length s)%nat.
Proof. apply List.filter_length_le. Qed.

Lemma wc_byte_counted s k b : counted s k -> Z.of_nat (length s) + 1 < 2 ^ 31 -> counted (s ++ [b]) (wc_byte k b).
Proof.
  intros [Hl Hw Hc Hi] Hn. pose proof (starts_le s). pose proof (lines_le s).
  assert (Ho : wc_inword k = negb (outside s)) by (rewrite Hi; unfold outside; by destruct (last s)).
  unfold wc_byte. rewrite Hl, Hw, Hc, Ho, !i32_small by lia. 
  assert (Hli : length (lines_in (s ++ [b])) = (length (lines_in s) + if (b =? 10)%Z then 1 else 0)%nat)
    by (unfold lines_in; rewrite List.filter_app, length_app; cbn; by destruct (b =? 10)).
  pose proof (f_equal length (word_starts_snoc s b)) as Hst. rewrite length_app in Hst. unfold is_space in Hst.
  split; rewrite ?last_snoc, ?Hli, ?Hst, ?length_app; unfold is_space; destruct (strchr spaces b), (outside s), (b =? 10); cbn; lia || done.
Qed.

Lemma wc_bytes_counted buf : forall s k, counted s k -> Z.of_nat (length (s ++ buf)) < 2 ^ 31 -> counted (s ++ buf) (foldl wc_byte k buf).
Proof.
  induction buf as [|b buf IH]; intros s k Hk Hn; cbn [foldl]; [by rewrite app_nil_r|].
  replace (s ++ b :: buf) with ((s ++ [b]) ++ buf) in * by (by rewrite <- app_assoc). apply IH; [|done].
  apply wc_byte_counted; [done|]. rewrite !length_app in Hn. cbn in Hn. lia.
Qed.

Lemma wc_loop_counted bufs rest : forall s k, Forall (fun b => b <> []) bufs -> counted s k -> Z.of_nat (length (s ++ concat bufs)) < 2 ^ 31 ->
  exists k', wc_loop ((Some <$> bufs) ++ Some [] :: rest) k = Some k' /\ counted (s ++ concat bufs) k'.
Proof.
  induction bufs as [|buf bufs IH]; intros s k Hne Hk Hn; cbn [fmap list_fmap app concat] in *.
  { exists k. split; [done|]. by rewrite app_nil_r. }
  inversion Hne; subst. destruct buf as [|b buf]; [done|]. rewrite app_assoc in *. cbn [wc_loop]. apply IH; [done| |done].
  apply wc_bytes_counted; [done|]. rewrite length_app in Hn. lia.
Qed.

(** Wc counts.  However the reads cut the input into pieces, wc prints
    the number of newlines, of places where a word starts, and of bytes. *)
Theorem wc_counts bufs rest name e (Hne : Forall (fun b => b <> []) bufs) (Hn : Z.of_nat (length (concat bufs)) < 2 ^ 31) :
  let s := concat bufs in
  wc ((Some <$> bufs) ++ Some [] :: rest) name e =
  sayln 1 "%d %d %d %s" [PInt (Z.of_nat (length (lines_in s))); PInt (Z.of_nat (length (word_starts s))); PInt (Z.of_nat (length s)); PStr name] e.
Proof.
  intros s. unfold wc. destruct (wc_loop_counted bufs rest [] (Counts 0 0 0 false)) as (k & -> & [-> -> -> _]); [done|by split|done|]. reflexivity.
Qed.

(** ** echo and cat *)

(** What was written to a descriptor. *)
Definition written (fd : Z) (e : env) : list Z := concat (snd <$> List.filter (fun o => o.1 =? fd) (e_out e)).
Definition spaced (args : list (list Z)) : list Z := concat (List.map (fun a => txt " " ++ a) args).

Lemma written_put fd o e : written fd (put_out o e) = written fd e ++ (if o.1 =? fd then o.2 else []).
Proof.
  unfold written. cbn [put_out e_out]. rewrite List.filter_app, fmap_app, concat_app. f_equal. cbn [List.filter].
  destruct (o.1 =? fd); cbn; [by rewrite app_nil_r|done].
Qed.

Lemma text_two a b : text (txt "%s%s") [PStr a; PStr b] = a ++ b.
Proof.
  change (txt "%s%s") with [37; 115; 37; 115]. unfold text, printf. cbn -[arg_str]. rewrite !app_nil_r.
  unfold arg_str. reflexivity.
Qed.
#[local] Opaque text.

(** echo prints its arguments with a space between them, and a newline. *)
Lemma echo_prints a args p e : exists e', echo (p :: a :: args) e = Exit e' /\ written 1 e' = written 1 e ++ a ++ spaced args ++ [NLC].
Proof.
  unfold echo. change (drop 1 _) with (a :: args). revert a e. induction args as [|b args IH]; intros a e.
  - eexists. split; [reflexivity|]. rewrite written_put, text_two. reflexivity.
  - remember (b :: args) as l eqn:El. cbn [echo_loop]. unfold pbind, say. subst l.
    destruct (IH b (put_out (1, text (txt "%s%s") [PStr a; PStr (txt " ")]) e)) as (e' & E & H). exists e'. split; [exact E|].
    rewrite H, written_put, text_two. cbn [fst snd]. change (1 =? 1) with true. cbv iota. unfold spaced. cbn [List.map concat].
    by rewrite <- !app_assoc.
Qed.

(** cat copies its input, as long as the writes are complete. *)
Lemma cat_copies bufs rest : forall e, Forall (fun b => b <> []) bufs ->
  exists e', cat (((fun b => (Some b, Z.of_nat (length b))) <$> bufs) ++ (Some [], 0) :: rest) e = Go tt e' /\
    written 1 e' = written 1 e ++ concat bufs.
Proof.
  induction bufs as [|buf bufs IH]; intros e Hne; [exists e; by rewrite app_nil_r|].
  inversion Hne; subst. destruct buf as [|b buf]; [done|]. cbn [fmap list_fmap app cat]. unfold pbind at 1. rewrite Z.eqb_refl.
  destruct (IH (put_out (1, take (Z.to_nat (Z.of_nat (length (b :: buf)))) (b :: buf)) e)) as (e' & E & H); [done|]. exists e'. split; [exact E|].
  rewrite H, written_put, Nat2Z.id, firstn_all. cbn [fst snd concat]. by rewrite <- app_assoc.
Qed.

(** ** Witnesses *)

Lemma init_names_ok : names_ok (users_init utable0).
Proof.
  split.
  - intros i u. do 10 (destruct i as [|i]; [intros H; vm_compute in H; injection H as <-; vm_compute; reflexivity|]). done.
  - assert (Ha : forall i u, users (users_init utable0) !! i = Some u -> truth (active u) = true -> (i < 2)%nat).
    { intros i u. do 10 (destruct i as [|i]; [intros H Ht; vm_compute in H; injection H as <-; vm_compute in Ht; (lia || discriminate)|]). done. }
    intros i j u w Hi Hj Hu Hw H. pose proof (Ha i u Hi Hu). pose proof (Ha j w Hj Hw).
    destruct i as [|[|i]], j as [|[|j]]; try lia; vm_compute in Hi, Hj; injection Hi as <-; injection Hj as <-; vm_compute in H; discriminate.
Qed.

(** The account "user" types its password. *)
Definition smp_env : env := Env 1000 1000 (users_init utable0) (txt "user" ++ [NLC]) [] [].

Lemma smp_may_sudo : may_sudo smp_env.
Proof. exists 1%nat. eexists. exists 1. split; [vm_compute; reflexivity|]. split; [vm_compute; reflexivity|]. split; [vm_compute; reflexivity|]. split; [lia|]. split; [vm_compute; reflexivity|]. cbn. lia. Qed.


Lemma chmod_ls_witness : exists m e', chmod_main (fun _ => 0) [txt "chmod"; txt "754"; txt "f"; txt "g"] smp_env = Exit e' /\
  e_calls e' = [Chmod (txt "f") m; Chmod (txt "g") m] /\ mode_to_string m = txt "rwxr-xr--".
Proof.
  destruct (chmod_ls (fun _ => 0) (txt "chmod") (txt "f") [txt "g"] smp_env) as [H _].
  destruct (H 7 5 4) as (m & e' & E & C & S); [lia..|]. exists m, e'. exact (conj E (conj C S)).
Defined.

Lemma wc_counts_witness : wc [Some (txt "a b"); Some (txt "c" ++ [NLC]); Some []] (txt "x") smp_env = Go tt (put_out (1, txt "1 2 5 x" ++ [NLC]) smp_env).
Proof.
  refine (eq_trans (wc_counts [txt "a b"; txt "c" ++ [NLC]] [] (txt "x") smp_env _ _) _).
  - repeat constructor; discriminate.
  - vm_compute. reflexivity.
  - vm_compute. reflexivity.
Defined.
