(* ===== verification/Calls.v ===== *)
(** The system calls on ids that the programs of Tools.v make are those of
    sysproc.c: what Sysproc.v does to the calling process and to the user
    database, once the arguments are fetched, is what Tools.v says. *)
From stdpp Require Import base numbers list strings gmap.
From Stdlib Require Import ZArith Lia.
From S2P Require Import Tools.
From S2P Require Import Prelude Params CString Users Namecache Bio Log Store Fs Kalloc Vm Pipe File Proc Fork Syscall Sysfile Exec Sysproc.

Local Open Scope list_scope.
Local Open Scope Z_scope.

Section Calls.
Context {S : Type} `{!BlockStore S}.

(** The kernel state in which the calling process has the ids of [e], and the
    database is that of [e]. *)
Definition agrees (s : kern S) (e : env) : Prop :=
  exists p, procs s !! curp s = Some p /\ p_uid p = e_uid e /\ p_gid p = e_gid e /\ k_users s = e_db e.

(** From such states, the system call and the step of the program return the
    same value and end in such states. *)
Definition implements (m : M (kern S) Z) (c : P Z) (s : kern S) (e : env) : Prop :=
  exists r s' e', m s = Ok r s' /\ c e = Go r e' /\ agrees s' e'.

Lemma implements_same m c s e r : agrees s e -> m s = Ok r s -> c e = Go r e -> implements m c s e.
Proof. intros Ha Hm Hc. by exists r, s, e. Qed.

Lemma agrees_ids s e p u g : procs s !! curp s = Some p -> agrees s e ->
  agrees (set_procs (alter (fun q => Proc.set_ids u g q) (curp s)) s) (Tools.set_ids u g e).
Proof.
  intros Hp (q & Hq & _ & _ & Hd). exists (Proc.set_ids u g p). cbn [procs curp set_procs k_users]. split; [|done].
  by rewrite list_lookup_alter_eq, Hp.
Qed.

Lemma agrees_db s e t : agrees s e -> agrees (set_users t s) (set_db t e).
Proof. intros (p & Hp & Hu & Hg & _). by exists p. Qed.

Section From.
Context (s : kern S) (e : env) (Ha : agrees s e).

Lemma curproc_ids : exists p, curproc s = Ok p s /\ procs s !! curp s = Some p /\ p_uid p = e_uid e /\ p_gid p = e_gid e /\ k_users s = e_db e.
Proof. destruct Ha as (p & Hp & H). exists p. split; [|done]. unfold curproc, getp, myproc, bind, gets. by rewrite (nthd_lookup _ _ _ _ Hp). Qed.

Lemma getuid_ids : implements sys_getuid getuid s e.
Proof. destruct curproc_ids as (p & Ec & _ & Hu & _). apply (implements_same _ _ _ _ (e_uid e) Ha); [|done]. unfold sys_getuid, bind. by rewrite Ec, <- Hu. Qed.

Lemma cansudo_ids : implements sys_cansudo cansudo s e.
Proof.
  destruct curproc_ids as (p & Ec & _ & Hu & _ & Hd). apply (implements_same _ _ _ _ (users_can_sudo (e_db e) (e_uid e)) Ha); [|done].
  unfold sys_cansudo, bind, gets. by rewrite Ec, <- Hu, <- Hd.
Qed.

Lemma setsuid_ids u : argint 0 s = Ok (Some u) s -> implements sys_setsuid (setsuid u) s e.
Proof.
  intros Hi. destruct curproc_ids as (p & Ec & Hp & Hu & Hg & Hd). unfold implements, sys_setsuid, setsuid, bind at 1. rewrite Hi.
  unfold bind at 1 2. rewrite Ec. unfold gets at 1. rewrite Hu, Hd. destruct (_ =? 0); [by exists (-1), s, e|].
  destruct (_ && _); [by exists (-1), s, e|]. eexists 0, _, _. split; [reflexivity|]. split; [reflexivity|]. rewrite <- Hg.
  pose proof (agrees_ids s e p u (p_gid p) Hp Ha) as H. destruct H as (q & Hq & H). exists q. split; [|exact H].
  rewrite <- Hq. cbn [procs curp set_procs]. by rewrite !list_lookup_alter_eq, Hp.
Qed.

Lemma login_ids n pw : argstr 0 s = Ok (Some n) s -> argstr 1 s = Ok (Some pw) s -> implements sys_login (login n pw) s e.
Proof.
  intros H0 H1. destruct curproc_ids as (p & _ & Hp & _ & _ & Hd). unfold implements, sys_login, login, bind at 1. rewrite H0.
  unfold bind at 1. rewrite H1. unfold bind at 1, gets at 1. rewrite Hd. cbv zeta. destruct (_ <? 0); [by exists (-1), s, e|].
  eexists 0, _, _. split; [reflexivity|]. split; [reflexivity|]. by apply (agrees_ids s e p).
Qed.

(** The two calls on the sudoers are one shape. *)
Lemma sudoers_ids (f : utable -> Z -> Z * utable) u : argint 0 s = Ok (Some u) s ->
  implements (bind curproc (fun p => if negb (p_uid p =? 0) then ret (-1) else bind (argint 0) (fun uid => match uid with
        | None => ret (-1)
        | Some uid => bind (gets k_users) (fun t => let '(r, t') := f t uid in bind (modify (set_users t')) (fun _ => ret r))
        end)))
    (fun e => if negb (e_uid e =? 0) then Go (-1) e else let r := f (e_db e) u in Go r.1 (set_db r.2 e)) s e.
Proof.
  intros Hi. destruct curproc_ids as (p & Ec & _ & Hu & _ & Hd). unfold implements, bind at 1. rewrite Ec, Hu.
  destruct (negb _); [by exists (-1), s, e|]. unfold bind at 1. rewrite Hi. unfold bind at 1, gets at 1. rewrite Hd.
  destruct (f (e_db e) u) as [r t'] eqn:Ef. eexists r, _, _. split; [reflexivity|]. split; [reflexivity|]. by apply agrees_db.
Qed.
End From.

End Calls.

(** ** A witness: a process without the sudo right asks to be root *)

Lemma smp_argint : exists k, argint 0 (smp_kern k) = Ok (Some 0) (smp_kern k).
Proof.
  destruct smp_uword as (k & Hmap & Hw). exists k.
  destruct (wp_total (argint 0) (fun r s' => r = Some 0 /\ s' = smp_kern k) (smp_kern k)) as (r & s' & E & -> & ->); [|exact E].
  apply (argint_wp (smp_kern k) smp_proc eq_refl); [by vm_compute|exact Hmap|]. by rewrite Hw.
Qed.

