(* ===== verification/Ports.v ===== *)
(** The ports of the machine and the disk behind them.

    [PortIO] is what the instructions [inb], [outb], [insl] and [outsl] of x86.h
    do to the devices, as functions of the state of the devices.  [AtaDisk]
    states what the driver ide.c and the boot loader rely on: the behaviour of
    an ATA disk in PIO mode as its standard documents it, in terms of a few
    observations of the device's state.  [sim_disk] is a disk that has it. *)
From stdpp Require Import base numbers list strings.
From Stdlib Require Import ZArith Lia.
From S2P Require Import Prelude Params.

Local Open Scope list_scope.
Local Open Scope Z_scope.

(** ** Port instructions *)

Class PortIO (D : Type) := {
  p_in : Z -> D -> Z * D;
  p_out : Z -> Z -> D -> D;
  (** [insl] and [outsl] on the data port 0x1f0; a count is in words. *)
  p_insl : nat -> D -> list Z * D;
  p_outsl : list Z -> D -> D
}.

Section Instructions.
Context {D : Type} `{!PortIO D}.

Definition inb (port : Z) : M D Z := fun d => let r := p_in port d in Ok r.1 r.2.
(** The data register is a byte. *)
Definition outb (port data : Z) : M D unit := fun d => Ok tt (p_out port (u8 data) d).
Definition insl (cnt : Z) : M D (list Z) := fun d => let r := p_insl (Z.to_nat cnt) d in Ok r.1 r.2.
Definition outsl (bytes : list Z) (cnt : Z) : M D unit := fun d => Ok tt (p_outsl (take (Z.to_nat (4 * cnt)) bytes) d).
End Instructions.

(** ** The disk *)

Definition SECTOR_SIZE : Z := 512.

(** The registers 0x1f2 to 0x1f6. *)
Record taskfile := Taskfile { t_count : Z; t_lba0 : Z; t_lba1 : Z; t_lba2 : Z; t_device : Z }.
Definition task0 : taskfile := Taskfile 0 0 0 0 0.
Definition set_task (port v : Z) (t : taskfile) : taskfile :=
  if port =? 498 then Taskfile v (t_lba0 t) (t_lba1 t) (t_lba2 t) (t_device t)
  else if port =? 499 then Taskfile (t_count t) v (t_lba1 t) (t_lba2 t) (t_device t)
  else if port =? 500 then Taskfile (t_count t) (t_lba0 t) v (t_lba2 t) (t_device t)
  else if port =? 501 then Taskfile (t_count t) (t_lba0 t) (t_lba1 t) v (t_device t)
  else if port =? 502 then Taskfile (t_count t) (t_lba0 t) (t_lba1 t) (t_lba2 t) v
  else t.
(** The drive and the first sector they name, in LBA mode. *)
Definition t_drive (t : taskfile) : Z := Z.land (Z.shiftr (t_device t) 4) 1.
Definition t_lba (t : taskfile) : Z := t_lba0 t + 2 ^ 8 * t_lba1 t + 2 ^ 16 * t_lba2 t + 2 ^ 24 * Z.land (t_device t) 15.

(** A command in the drive: none; sectors to be read; a write that waits for
    its data; a write with its data. *)
Inductive command :=
| NoCommand
| Reading (drive lba n : Z)
| Writing (drive lba n : Z)
| Written (drive lba : Z) (data : list Z).

(** The commands READ SECTORS, READ MULTIPLE and WRITE MULTIPLE. *)
Definition issue (c : Z) (t : taskfile) (old : command) : command :=
  if (c =? 32) || (c =? 196) then Reading (t_drive t) (t_lba t) (t_count t)
  else if c =? 197 then Writing (t_drive t) (t_lba t) (t_count t)
  else old.

(** The sectors of a drive after a write. *)
Definition store_sectors (lba : Z) (data : list Z) (f : Z -> list Z) (l : Z) : list Z :=
  if (lba <=? l) && (l <? lba + Z.of_nat (length data) / SECTOR_SIZE)
  then take 512 (drop (Z.to_nat (512 * (l - lba))) data) else f l.

Section Range.
(** [n] sectors from [l] on. *)
Context (f : Z -> list Z).
Definition sectors_from (l n : Z) : list Z := concat (f <$> seqZ l n).
End Range.

(** What an ATA disk does.  [ata_busy] is the number of status reads during
    which the drive still is busy; [ata_finish] is the end of a command, at
    which the drive stores the data of a write and raises its interrupt.  The
    registers may be written, and data moved, when the drive is not busy. *)
Class AtaDisk (D : Type) `{!PortIO D} := {
  ata_sector : D -> Z -> Z -> list Z;
  ata_task : D -> taskfile;
  ata_command : D -> command;
  ata_busy : D -> nat;
  ata_failed : D -> bool;
  ata_finish : D -> D;
  ata_slow : nat;

  ata_patient : forall d, (ata_busy d <= ata_slow)%nat;
  ata_length : forall d v l, length (ata_sector d v l) = 512%nat;
  ata_status : forall d, let '(r, d') := p_in 503 d in
    (ata_sector d' = ata_sector d /\ ata_task d' = ata_task d /\ ata_command d' = ata_command d /\ ata_failed d' = ata_failed d) /\
    match ata_busy d with
    | O => Z.land r 192 = 64 /\ ata_busy d' = O /\ (Z.land r 33 = 0 <-> ata_failed d = false)
    | S k => Z.land r 192 <> 64 /\ ata_busy d' = k
    end;
  ata_register : forall d port v, 498 <= port <= 502 \/ port = 1014 -> ata_busy d = O -> let d' := p_out port v d in
    ata_sector d' = ata_sector d /\ ata_task d' = set_task port v (ata_task d) /\ ata_busy d' = O /\ ata_command d' = ata_command d;
  ata_issue : forall d c, ata_busy d = O -> let d' := p_out 503 c d in
    ata_sector d' = ata_sector d /\ ata_command d' = issue c (ata_task d) (ata_command d);
  ata_outsl : forall d v l n data, ata_command d = Writing v l n -> Z.of_nat (length data) = 512 * n -> let d' := p_outsl data d in
    ata_sector d' = ata_sector d /\ ata_command d' = Written v l data;
  ata_insl : forall d v l n, ata_command d = Reading v l n -> ata_busy d = O -> ata_failed d = false ->
    let '(data, d') := p_insl (Z.to_nat (128 * n)) d in
    data = sectors_from (ata_sector d v) l n /\ ata_sector d' = ata_sector d;
  ata_finished : forall d, let d' := ata_finish d in
    ata_command d' = ata_command d /\
    match ata_command d with
    | Written v l data => forall v' l', ata_sector d' v' l' = if v' =? v then store_sectors l data (ata_sector d v') l' else ata_sector d v' l'
    | _ => ata_sector d' = ata_sector d
    end
}.

(** ** Waiting for the drive *)

Section Wait.
Context {D : Type} `{AtaDisk D}.
Local Open Scope kernel_scope.

(** The loops of [idewait] and [waitdisk]: read the status until the drive
    is ready. *)
Fixpoint poll (fuel : nat) : M D Z :=
  match fuel with
  | O => blocked "poll"
  | S f => r ← inb 503; if negb (Z.land r 192 =? 64) then poll f else ret r
  end.
Definition wait_status : M D Z := poll (S ata_slow).

(** The drive is the same but for its being ready. *)
Definition same_disk (d d' : D) : Prop :=
  ata_sector d' = ata_sector d /\ ata_task d' = ata_task d /\ ata_command d' = ata_command d /\ ata_failed d' = ata_failed d.

Lemma same_disk_trans d d1 d2 : same_disk d d1 -> same_disk d1 d2 -> same_disk d d2.
Proof. unfold same_disk. intuition congruence. Qed.

Lemma poll_wp fuel : forall d Q E, (ata_busy d < fuel)%nat ->
  (forall r d', same_disk d d' -> ata_busy d' = O -> (Z.land r 33 = 0 <-> ata_failed d = false) -> Q r d') -> wp (poll fuel) Q E d.
Proof.
  induction fuel as [|fuel IH]; intros d Q E Hf HQ; [lia|]. cbn [poll]. apply wp_bind. pose proof (ata_status d) as Hs.
  unfold wp at 1, inb. destruct (p_in 503 d) as [r d'] eqn:Ep. cbn [fst snd]. destruct Hs as [Hsame Hb]. destruct (ata_busy d) as [|k] eqn:Ek.
  - destruct Hb as (H1 & H2 & H3). rewrite H1. cbn. by apply wp_ret, HQ.
  - destruct Hb as [H1 H2]. apply Z.eqb_neq in H1. rewrite H1. cbn [negb]. apply IH; [lia|]. intros r' d2 Hd2 Hb2 Hr2. apply HQ; [|done|].
    + by apply (same_disk_trans d d').
    + rewrite Hr2. by destruct Hsame as (_ & _ & _ & ->).
Qed.

Lemma wait_wp d Q E : (forall r d', same_disk d d' -> ata_busy d' = O -> (Z.land r 33 = 0 <-> ata_failed d = false) -> Q r d') -> wp wait_status Q E d.
Proof. apply poll_wp. pose proof (ata_patient d). lia. Qed.

Lemma outb_wp port v d (Q : unit -> D -> Prop) E : 498 <= port <= 502 \/ port = 1014 -> ata_busy d = O ->
  (forall d', ata_sector d' = ata_sector d -> ata_task d' = set_task port (u8 v) (ata_task d) -> ata_busy d' = O -> Q tt d') -> wp (outb port v) Q E d.
Proof. intros Hp Hb HQ. destruct (ata_register d port (u8 v) Hp Hb) as (H1 & H2 & H3 & _). unfold wp, outb. by apply HQ. Qed.
End Wait.

(** ** Addressing sectors *)

Lemma land_255 x : Z.land x 255 = x mod 2 ^ 8.
Proof. apply (Z.land_ones x 8). lia. Qed.
Lemma u8_mod x : u8 x = x mod 2 ^ 8.
Proof. reflexivity. Qed.

(** The device byte names drive [v] and the top bits [x] of the address. *)
Lemma device_all : forallb (fun v => forallb (fun x =>
  let b := u8 (Z.lor (Z.lor 224 (Z.shiftl v 4)) x) in (Z.land (Z.shiftr b 4) 1 =? v) && (Z.land b 15 =? x)) (seqZ 0 16)) (seqZ 0 2) = true.
Proof. vm_compute. reflexivity. Qed.

Lemma device_byte v x : 0 <= v < 2 -> 0 <= x < 16 ->
  let b := u8 (Z.lor (Z.lor 224 (Z.shiftl v 4)) x) in Z.land (Z.shiftr b 4) 1 = v /\ Z.land b 15 = x.
Proof.
  intros Hv Hx. pose proof device_all as H. rewrite forallb_forall in H. specialize (H v ltac:(apply list_elem_of_In, elem_of_seqZ; lia)).
  rewrite forallb_forall in H. specialize (H x ltac:(apply list_elem_of_In, elem_of_seqZ; lia)).
  apply andb_true_iff in H as [H1 H2]. by split; apply Z.eqb_eq.
Qed.

(** The bytes of a sector number are the sector number again. *)
Lemma lba_bytes s : 0 <= s < 2 ^ 28 ->
  s mod 2 ^ 8 + 2 ^ 8 * ((s / 2 ^ 8) mod 2 ^ 8) + 2 ^ 16 * ((s / 2 ^ 16) mod 2 ^ 8) + 2 ^ 24 * ((s / 2 ^ 24) mod 2 ^ 4) = s.
Proof.
  intros Hs. rewrite (Z.mod_small (s / 2 ^ 24)) by (split; [apply Z.div_pos; lia|apply Z.div_lt_upper_bound; lia]).
  replace (s / 2 ^ 24) with (s / 2 ^ 16 / 2 ^ 8) by (by rewrite Z.div_div). replace (s / 2 ^ 16) with (s / 2 ^ 8 / 2 ^ 8) by (by rewrite Z.div_div).
  pose proof (Z.div_mod s (2 ^ 8) ltac:(lia)). pose proof (Z.div_mod (s / 2 ^ 8) (2 ^ 8) ltac:(lia)).
  pose proof (Z.div_mod (s / 2 ^ 8 / 2 ^ 8) (2 ^ 8) ltac:(lia)). lia.
Qed.

(** ** A disk *)

(** Two drives of sectors; after a command the first status read finds the
    drive busy. *)
Record sim := Sim { sim_sect : Z -> Z -> list Z; sim_task : taskfile; sim_command : command; sim_busy : bool }.
Definition sim_pad (bs : list Z) : list Z := take 512 (bs ++ replicate 512 0).
Definition sim_read (d : sim) (v l : Z) : list Z := sim_pad (sim_sect d v l).

#[export] Instance sim_io : PortIO sim := {|
  p_in port d := if port =? 503 then (if sim_busy d then 128 else 64, Sim (sim_sect d) (sim_task d) (sim_command d) false) else (0, d);
  p_out port v d :=
    if port =? 503 then Sim (sim_sect d) (sim_task d) (issue v (sim_task d) (sim_command d)) true
    else Sim (sim_sect d) (set_task port v (sim_task d)) (sim_command d) (sim_busy d);
  p_insl cnt d := match sim_command d with Reading v l n => (sectors_from (sim_read d v) l n, d) | _ => ([], d) end;
  p_outsl data d := match sim_command d with Writing v l n => Sim (sim_sect d) (sim_task d) (Written v l data) (sim_busy d) | _ => d end
|}.

Definition sim_finish (d : sim) : sim :=
  match sim_command d with
  | Written v l data => Sim (fun v' l' => if v' =? v then store_sectors l data (sim_sect d v') l' else sim_sect d v' l') (sim_task d) (sim_command d) false
  | _ => d
  end.

Lemma sim_pad_len bs : length (sim_pad bs) = 512%nat.
Proof. unfold sim_pad. rewrite length_take, length_app, length_replicate. lia. Qed.
Lemma sim_pad_id bs : length bs = 512%nat -> sim_pad bs = bs.
Proof. intros H. unfold sim_pad. by rewrite take_app_length'. Qed.

Lemma sim_pad_store l data f l' : sim_pad (store_sectors l data f l') = store_sectors l data (fun x => sim_pad (f x)) l'.
Proof.
  unfold store_sectors. destruct (_ && _) eqn:E; [|done]. apply andb_true_iff in E as [E1 E2]. b2p. apply sim_pad_id. rewrite length_take, length_drop.
  unfold SECTOR_SIZE in E2. pose proof (Z.mul_div_le (Z.of_nat (length data)) 512 ltac:(lia)). lia.
Qed.

#[export] Program Instance sim_disk : AtaDisk sim := {|
  ata_sector := sim_read; ata_task := sim_task; ata_command := sim_command; ata_busy d := if sim_busy d then 1%nat else 0%nat;
  ata_failed _ := false; ata_finish := sim_finish; ata_slow := 1%nat
|}.
Next Obligation. intros d. cbn. destruct (sim_busy d); [done|repeat constructor]. Qed.
Next Obligation. intros d v l. apply sim_pad_len. Qed.
Next Obligation. intros d. cbn. destruct (sim_busy d); repeat split; discriminate || done. Qed.
Next Obligation.
  intros d port v Hp Hb. cbn. destruct (port =? 503) eqn:E; b2p; [lia|]. repeat split. cbn. done.
Qed.
Next Obligation. intros d c _. by cbn. Qed.
Next Obligation. intros d v l n data Hc _. cbn. rewrite Hc. by split. Qed.
Next Obligation. intros d v l n Hc _ _. cbn. rewrite Hc. by split. Qed.
Next Obligation.
  intros d. cbv zeta. unfold sim_finish. destruct (sim_command d) as [|v l n|v l n|v l data] eqn:E; cbn [sim_command]; try by split; [|try rewrite E].
  split; [done|]. intros v' l'. unfold sim_read. cbn [sim_sect]. destruct (v' =? v); [|done]. apply sim_pad_store.
Qed.

Lemma sim_never_fails (d : sim) : ata_failed d = false.
Proof. reflexivity. Qed.
