(* ===== verification/Mp.v ===== *)
(** The tables of a multiprocessor machine: mp.c and mp.h.

    The memory is what the firmware left in it, a byte for each virtual address;
    a pointer that is moved along an object does not wrap.  The state is what [mpinit] sets: the processors' APIC ids
    [cpus] with [ncpu], [ioapicid] and the address [lapic]; and the ports. *)
From stdpp Require Import base numbers list strings.
From Stdlib Require Import ZArith Lia.
From S2P Require Import Prelude Params CString Kalloc Ports.

Local Open Scope list_scope.
Local Open Scope Z_scope.
Local Open Scope kernel_scope.

Definition MPPROC : Z := 0.
Definition MPBUS : Z := 1.
Definition MPIOAPIC : Z := 2.
Definition MPIOINTR : Z := 3.
Definition MPLINTR : Z := 4.
(** The sizes of struct mp, mpconf, mpproc and mpioapic. *)
Definition MPSIZE : Z := 16.
Definition MPCONFSIZE : Z := 44.
Definition MPPROCSIZE : Z := 20.
Definition MPIOAPICSIZE : Z := 8.

Record mpst (D : Type) := Mpst { cpus : list Z; ncpu : Z; ioapicid : Z; lapic : Z; mp_dev : D }.
Arguments Mpst {D}.
Arguments cpus {D} _.
Arguments ncpu {D} _.
Arguments ioapicid {D} _.
Arguments lapic {D} _.
Arguments mp_dev {D} _.

Section Search.
Context (m : Z -> Z).

Definition bytes_at (a n : Z) : list Z := (fun k => m (a + k)) <$> seqZ 0 n.

Definition sum (addr len : Z) : Z := u8 (foldl (fun s b => i32 (s + b)) 0 (bytes_at addr len)).

(** [memcmp] with the four bytes of a signature. *)
Definition has_sig (a : Z) (s : string) : bool := memcmp 4 (bytes_at a 4) (lit s) =? 0.

Fixpoint mpsearch1_loop (n : nat) (p e : Z) : option Z :=
  match n with
  | O => None
  | S n' =>
      if p <? e then
        if has_sig p "_MP_" && (sum p MPSIZE =? 0) then Some p else mpsearch1_loop n' (p + MPSIZE) e
      else None
  end.
Definition mpsearch1 (a len : Z) : option Z := mpsearch1_loop (Z.to_nat (len / MPSIZE + 1)) (P2V a) (P2V a + len).

Definition BDA : Z := P2V 1024.
Definition mpsearch : option Z :=
  let p := Z.shiftl (Z.lor (Z.shiftl (m (BDA + 15)) 8) (m (BDA + 14))) 4 in
  let first := if negb (p =? 0) then mpsearch1 p 1024
               else mpsearch1 (u32 (Z.lor (Z.shiftl (m (BDA + 20)) 8) (m (BDA + 19)) * 1024 - 1024)) 1024 in
  match first with
  | Some mp => Some mp
  | None => mpsearch1 983040 65536
  end.

Definition conf_length (conf : Z) : Z := rd 2 4 (bytes_at conf MPCONFSIZE).
Definition conf_version (conf : Z) : Z := m (conf + 6).
Definition conf_lapicaddr (conf : Z) : Z := rd 4 36 (bytes_at conf MPCONFSIZE).
Definition mp_physaddr (mp : Z) : Z := rd 4 4 (bytes_at mp MPSIZE).
Definition mp_imcrp (mp : Z) : Z := m (mp + 12).

(** The floating pointer and the configuration table. *)
Definition mpconfig : option (Z * Z) :=
  match mpsearch with
  | None => None
  | Some mp =>
      if mp_physaddr mp =? 0 then None
      else
        let conf := P2V (mp_physaddr mp) in
        if negb (has_sig conf "PCMP") then None
        else if negb (conf_version conf =? 1) && negb (conf_version conf =? 4) then None
        else if negb (sum conf (conf_length conf) =? 0) then None
        else Some (mp, conf)
  end.
End Search.

Section Init.
Context {D : Type} `{!PortIO D} (m : Z -> Z).
Abbreviation K := (M (mpst D)).

Definition add_cpu (apicid : Z) (s : mpst D) : mpst D :=
  if ncpu s <? NCPU then Mpst (<[Z.to_nat (ncpu s) := apicid]> (cpus s)) (ncpu s + 1) (ioapicid s) (lapic s) (mp_dev s) else s.
Definition set_ioapicid (v : Z) (s : mpst D) : mpst D := Mpst (cpus s) (ncpu s) v (lapic s) (mp_dev s).
Definition set_lapic (v : Z) (s : mpst D) : mpst D := Mpst (cpus s) (ncpu s) (ioapicid s) v (mp_dev s).
Definition mport {A} (x : M D A) : K A := zoom mp_dev (fun d s => Mpst (cpus s) (ncpu s) (ioapicid s) (lapic s) d) x.

(** The loop over the entries; in the default case [break] leaves only the
    [switch]. *)
Fixpoint mpinit_loop (fuel : nat) (p e : Z) (ismp : bool) : K bool :=
  match fuel with
  | O => blocked "mpinit"
  | S f =>
      if p <? e then
        let t := m p in
        if t =? MPPROC then modify (add_cpu (m (p + 1)));; mpinit_loop f (p + MPPROCSIZE) e ismp
        else if t =? MPIOAPIC then modify (set_ioapicid (m (p + 1)));; mpinit_loop f (p + MPIOAPICSIZE) e ismp
        else if (t =? MPBUS) || (t =? MPIOINTR) || (t =? MPLINTR) then mpinit_loop f (p + 8) e ismp
        else mpinit_loop f p e false
      else ret ismp
  end.

Definition mpinit : K unit :=
  match mpconfig m with
  | None => panic "Expect to run on an SMP"
  | Some (mp, conf) =>
      modify (set_lapic (conf_lapicaddr m conf));;
      ismp ← mpinit_loop (S (Z.to_nat (conf_length m conf))) (conf + MPCONFSIZE) (conf + conf_length m conf) true;
      if negb ismp then panic "Didn't find a suitable machine"
      else if truth (mp_imcrp m mp) then
        mport (outb 34 112);;
        r ← mport (inb 35);
        mport (outb 35 (Z.lor r 1))
      else ret tt
  end.
End Init.

(** ** What the search finds *)

Section SearchSpec.
Context (m : Z -> Z).

Definition is_mp (p : Z) : bool := has_sig m p "_MP_" && (sum m p MPSIZE =? 0).

Lemma mpsearch1_loop_spec n p e :
  e <= p + MPSIZE * Z.of_nat n ->
  match mpsearch1_loop m n p e with
  | Some q => exists k, 0 <= k /\ q = p + MPSIZE * k /\ q < e /\ is_mp q = true /\
                (forall j, 0 <= j < k -> is_mp (p + MPSIZE * j) = false)
  | None => forall j, 0 <= j -> p + MPSIZE * j < e -> is_mp (p + MPSIZE * j) = false
  end.
Proof.
  revert p. unfold MPSIZE. induction n as [|n IH]; intros p Hn; cbn [mpsearch1_loop]; [intros j Hj; lia|].
  destruct (p <? e) eqn:Hp; b2p; [|intros j Hj; lia].
  fold (is_mp p). destruct (is_mp p) eqn:Hm.
  { exists 0. rewrite Z.mul_0_r, Z.add_0_r. repeat split; try done; lia. }
  specialize (IH (p + MPSIZE)). unfold MPSIZE in *.
  assert (Hj : forall j, 0 <= j -> (0 < j -> is_mp (p + 16 + 16 * (j - 1)) = false) -> is_mp (p + 16 * j) = false).
  { intros j Hj H. destruct (decide (j = 0)) as [->|]; [by rewrite Z.mul_0_r, Z.add_0_r|].
    replace (p + 16 * j) with (p + 16 + 16 * (j - 1)) by lia. apply H. lia. }
  destruct (mpsearch1_loop m n (p + 16) e) as [q|].
  - destruct IH as (k & Hk & -> & Hq & Hqm & Hf); [lia|]. exists (k + 1).
    repeat split; try done; try lia. intros j Hj'. apply Hj; [lia|]. intros. apply Hf. lia.
  - intros j Hj0 Hje. apply Hj; [done|]. intros. apply IH; lia.
Qed.

(** The first structure on the 16-byte grid of an area, if there is one. *)
Lemma mpsearch1_spec a len :
  0 <= len ->
  match mpsearch1 m a len with
  | Some q => exists k, 0 <= k /\ q = P2V a + MPSIZE * k /\ q < P2V a + len /\ is_mp q = true /\
                (forall j, 0 <= j < k -> is_mp (P2V a + MPSIZE * j) = false)
  | None => forall j, 0 <= j -> MPSIZE * j < len -> is_mp (P2V a + MPSIZE * j) = false
  end.
Proof.
  intros Hl. unfold mpsearch1.
  pose proof (mpsearch1_loop_spec (Z.to_nat (len / MPSIZE + 1)) (P2V a) (P2V a + len)) as H.
  destruct mpsearch1_loop; [apply H|intros; apply H]; unfold MPSIZE in *; Z.to_euclidean_division_equations; lia.
Qed.

Lemma mpsearch_is_mp p : mpsearch m = Some p -> is_mp p = true.
Proof.
  assert (H1 : forall a len q, 0 <= len -> mpsearch1 m a len = Some q -> is_mp q = true).
  { intros a len q Hl E. pose proof (mpsearch1_spec a len Hl) as H. rewrite E in H. by destruct H as (k & _ & _ & _ & H & _). }
  unfold mpsearch. destruct (negb _).
  - destruct (mpsearch1 m _ 1024) eqn:E; [intros [= <-]; by eapply H1; [|exact E]|]. intros E'. by eapply H1; [|exact E'].
  - destruct (mpsearch1 m (u32 _) 1024) eqn:E; [intros [= <-]; by eapply H1; [|exact E]|]. intros E'. by eapply H1; [|exact E'].
Qed.

Lemma mpconfig_spec mp conf :
  mpconfig m = Some (mp, conf) <->
  mpsearch m = Some mp /\ mp_physaddr m mp <> 0 /\ conf = P2V (mp_physaddr m mp) /\
  has_sig m conf "PCMP" = true /\ (conf_version m conf = 1 \/ conf_version m conf = 4) /\
  sum m conf (conf_length m conf) = 0.
Proof.
  unfold mpconfig. split.
  - destruct (mpsearch m) as [q|]; [|done]. destruct (mp_physaddr m q =? 0) eqn:E1; [done|].
    destruct (has_sig _ _ _) eqn:E2; cbn [negb]; [|done].
    destruct (negb _ && negb _) eqn:E3; [done|]. destruct (sum _ _ _ =? 0) eqn:E4; cbn [negb]; [|done].
    intros [= -> <-]. b2p. apply andb_false_iff in E3. rewrite !negb_false_iff, !Z.eqb_eq in E3. naive_solver.
  - intros (-> & H1 & -> & -> & H2 & ->). rewrite (proj2 (Z.eqb_neq _ _) H1). cbn [negb].
    destruct H2 as [->| ->]; done.
Qed.
End SearchSpec.

(** ** What the table says *)

(** The entries of a table, as the MP specification has them. *)
Inductive entry :=
| EProc (apicid : Z)
| EIoapic (apicno : Z)
| EOther (type : Z).

Definition entry_size (x : entry) : Z :=
  match x with EProc _ => MPPROCSIZE | EIoapic _ => MPIOAPICSIZE | EOther _ => 8 end.
Definition entry_at (m : Z -> Z) (p : Z) (x : entry) : Prop :=
  match x with
  | EProc a => m p = MPPROC /\ m (p + 1) = a
  | EIoapic a => m p = MPIOAPIC /\ m (p + 1) = a
  | EOther t => m p = t /\ (t = MPBUS \/ t = MPIOINTR \/ t = MPLINTR)
  end.
(** The entries from [p], all of which start below [e], and that end at [q]. *)
Fixpoint entries_at (m : Z -> Z) (p e : Z) (es : list entry) (q : Z) : Prop :=
  match es with
  | [] => q = p
  | x :: r => p < e /\ entry_at m p x /\ entries_at m (p + entry_size x) e r q
  end.
Definition procs (es : list entry) : list Z := omap (fun x => match x with EProc a => Some a | _ => None end) es.
Definition ioapics (es : list entry) : list Z := omap (fun x => match x with EIoapic a => Some a | _ => None end) es.

Lemma entries_le m p e es q :
  entries_at m p e es q -> p + 8 * Z.of_nat (length es) <= q /\ Z.of_nat (length es) <= Z.max 0 (e - p).
Proof.
  revert p. induction es as [|x es IH]; intros p; cbn [entries_at length]; [lia|].
  intros (Hp & _ & H%IH). assert (8 <= entry_size x) by (by destruct x). lia.
Qed.

Section InitSpec.
Context {D : Type} `{!PortIO D} (m : Z -> Z).

Definition take_entry (s : mpst D) (x : entry) : mpst D :=
  match x with EProc a => add_cpu a s | EIoapic a => set_ioapicid a s | EOther _ => s end.

(** Entries that can be read are taken one after the other. *)
Lemma mpinit_loop_app es k p e q ismp (s : mpst D) :
  entries_at m p e es q ->
  mpinit_loop m (length es + k) p e ismp s = mpinit_loop m k q e ismp (foldl take_entry s es).
Proof.
  revert p s. induction es as [|x es IH]; intros p s; cbn [entries_at]; [by intros ->|].
  intros (Hp & Hx & H). cbn [length Nat.add mpinit_loop foldl].
  rewrite (proj2 (Z.ltb_lt _ _) Hp). destruct x as [a|a|t]; cbn [entry_at entry_size take_entry] in *.
  - destruct Hx as [-> <-]. by rewrite <- (IH _ _ H).
  - destruct Hx as [-> <-]. by rewrite <- (IH _ _ H).
  - destruct Hx as [-> Ht]. rewrite <- (IH _ _ H). by destruct Ht as [->|[->| ->]].
Qed.

Lemma mpinit_loop_end k p e ismp (s : mpst D) : e <= p -> mpinit_loop m (S k) p e ismp s = Ok ismp s.
Proof. intros H. cbn [mpinit_loop]. by rewrite (proj2 (Z.ltb_ge _ _) H). Qed.

(** At an entry of another type the loop stays. *)
Lemma mpinit_loop_stuck k p e ismp (s : mpst D) :
  p < e -> m p < 0 \/ 4 < m p -> mpinit_loop m k p e ismp s = Blocked "mpinit".
Proof.
  intros Hp Ht. revert ismp. induction k as [|k IH]; intros ismp; cbn [mpinit_loop]; [done|].
  rewrite (proj2 (Z.ltb_lt _ _) Hp). unfold MPPROC, MPIOAPIC, MPBUS, MPIOINTR, MPLINTR.
  rewrite !(proj2 (Z.eqb_neq _ _)) by lia. cbn [orb]. apply IH.
Qed.

(** A table with an entry of an unknown type keeps [mpinit] in its loop for
    any number of turns: the panic after the loop is not reached. *)
Lemma unknown_entry_hangs k es e p q (s : mpst D) :
  entries_at m p e es q -> q < e -> m q < 0 \/ 4 < m q -> mpinit_loop m k p e true s = Blocked "mpinit".
Proof.
  intros He Hq Ht. destruct (decide (length es <= k)%nat) as [Hk|Hk].
  - replace k with (length es + (k - length es))%nat by lia. rewrite (mpinit_loop_app _ _ _ _ _ _ _ He).
    by apply mpinit_loop_stuck.
  - revert k p s He Hk. induction es as [|x es IH]; intros k p s He Hk; cbn [length entries_at] in *; [lia|].
    destruct k as [|k]; [done|]. destruct He as (Hp & Hx & H). cbn [mpinit_loop].
    rewrite (proj2 (Z.ltb_lt _ _) Hp). destruct x as [a|a|t]; cbn [entry_at entry_size] in *.
    + destruct Hx as [-> _]. apply (IH k); [done|lia].
    + destruct Hx as [-> _]. apply (IH k); [done|lia].
    + destruct Hx as [-> Ht']. destruct Ht' as [->|[->| ->]]; (apply (IH k); [done|lia]).
Qed.

Lemma take_entries es (s : mpst D) :
  0 <= ncpu s <= NCPU -> length (cpus s) = Z.to_nat NCPU ->
  let s' := foldl take_entry s es in
  ncpu s' = Z.min NCPU (ncpu s + Z.of_nat (length (procs es))) /\ length (cpus s') = Z.to_nat NCPU /\
  take (Z.to_nat (ncpu s')) (cpus s') = take (Z.to_nat NCPU) (take (Z.to_nat (ncpu s)) (cpus s) ++ procs es) /\
  ioapicid s' = default (ioapicid s) (last (ioapics es)) /\ lapic s' = lapic s /\ mp_dev s' = mp_dev s.
Proof.
  revert s. unfold NCPU. induction es as [|x es IH]; intros s Hn Hl; cbn [foldl].
  { cbn. rewrite app_nil_r, take_take. repeat split; try done; [lia|f_equal; lia]. }
  assert (Hx : 0 <= ncpu (take_entry s x) <= NCPU /\ length (cpus (take_entry s x)) = Z.to_nat NCPU).
  { destruct x; cbn; [|done..]. unfold add_cpu, NCPU. destruct (ncpu s <? 8) eqn:E; b2p; cbn; [|lia].
    rewrite length_insert. lia. }
  destruct Hx as [Hx1 Hx2]. destruct (IH _ Hx1 Hx2) as (E1 & E2 & E3 & E4 & E5 & E6).
  cbv zeta. rewrite E1, E2, E4, E5, E6. rewrite E1 in E3. clear IH E1 E2 E4 E5 E6.
  destruct x as [a|a|t].
  - cbn [take_entry] in *. unfold add_cpu, NCPU in *.
    change (procs (EProc a :: es)) with (a :: procs es). change (ioapics (EProc a :: es)) with (ioapics es).
    destruct (ncpu s <? 8) eqn:E; b2p; cbn [ncpu cpus ioapicid lapic mp_dev] in *.
    + repeat split; try done; [cbn [length]; lia|]. rewrite E3. f_equal.
      replace (Z.to_nat (ncpu s + 1)) with (S (Z.to_nat (ncpu s))) by lia.
      rewrite (take_S_r _ _ a) by (apply list_lookup_insert_eq; lia).
      rewrite take_insert_ge by lia. by rewrite <- app_assoc.
    + repeat split; try done; [cbn [length]; lia|]. rewrite E3.
      rewrite !take_app_le by (rewrite length_take; lia). done.
  - repeat split; try done. change (ioapics (EIoapic a :: es)) with (a :: ioapics es). rewrite last_cons. by destruct (last (ioapics es)).
  - done.
Qed.

(** The port writes that mask the interrupts of the machine's own controller. *)
Definition imcr (mp : Z) (d : D) : D :=
  if truth (mp_imcrp m mp) then let r := p_in 35 (p_out 34 112 d) in p_out 35 (u8 (Z.lor r.1 1)) r.2 else d.

(** [mpinit] reads what the firmware says.  When the search finds a
    floating pointer [mp] with a table [conf] whose entries, from the end of the
    header to the length the table states, are [es], then [mpinit] returns; the
    pointer lies on the 16-byte grid with its signature and a checksum of zero,
    and the table has its signature, a known version and a checksum of zero;
    [ncpu] is the number of processor entries, at most [NCPU], [cpus] has the
    APIC ids of the first of them in order, [ioapicid] is the last I/O APIC's,
    [lapic] the address in the header, and of the ports only the IMCR is
    written, when [mp] says there is one.  Without a table it panics. *)
Theorem mpinit_finds (s : mpst D) :
  ncpu s = 0 -> length (cpus s) = Z.to_nat NCPU ->
  (forall mp conf es q,
    mpconfig m = Some (mp, conf) ->
    entries_at m (conf + MPCONFSIZE) (conf + conf_length m conf) es q -> conf + conf_length m conf <= q ->
    is_mp m mp = true /\ conf = P2V (mp_physaddr m mp) /\
    has_sig m conf "PCMP" = true /\ (conf_version m conf = 1 \/ conf_version m conf = 4) /\
    sum m conf (conf_length m conf) = 0 /\
    exists s', mpinit m s = Ok tt s' /\
      ncpu s' = Z.min NCPU (Z.of_nat (length (procs es))) /\
      take (Z.to_nat (ncpu s')) (cpus s') = take (Z.to_nat NCPU) (procs es) /\
      ioapicid s' = default (ioapicid s) (last (ioapics es)) /\
      lapic s' = conf_lapicaddr m conf /\ mp_dev s' = imcr mp (mp_dev s)) /\
  (mpconfig m = None -> mpinit m s = Panic "Expect to run on an SMP").
Proof.
  intros Hn Hl. split.
  - intros mp conf es q Hc He Hq. pose proof Hc as (Hs & _ & -> & Hg & Hv & Hsum)%mpconfig_spec.
    split; [by apply mpsearch_is_mp|]. do 4 (split; [done|]).
    set (conf := P2V (mp_physaddr m mp)) in *.
    set (s1 := set_lapic (conf_lapicaddr m conf) s).
    destruct (take_entries es s1) as (E1 & E2 & E3 & E4 & E5 & E6); [cbn [s1 set_lapic ncpu]; by rewrite Hn|done|].
    set (s2 := foldl take_entry s1 es) in *.
    exists (Mpst (cpus s2) (ncpu s2) (ioapicid s2) (lapic s2) (imcr mp (mp_dev s))).
    cbn [cpus ncpu ioapicid lapic mp_dev].
    replace (ncpu s1) with 0 in E1, E3 by (symmetry; exact Hn).
    split; [|by rewrite E3, E4, E5, E1].
    unfold mpinit. rewrite Hc. unfold bind, modify. fold conf. fold s1.
    pose proof (entries_le _ _ _ _ _ He) as [_ Hle]. unfold MPCONFSIZE in Hle.
    replace (S (Z.to_nat (conf_length m conf))) with (length es + S (Z.to_nat (conf_length m conf) - length es))%nat by lia.
    rewrite (mpinit_loop_app _ _ _ _ _ _ _ He), mpinit_loop_end by done. fold s2. cbn [negb].
    unfold imcr. destruct (truth _); [|destruct s2; cbn in *; by subst].
    cbn. by rewrite E6.
  - intros Hc. unfold mpinit. by rewrite Hc.
Qed.
End InitSpec.

(** ** A machine with two processors *)

(** The extended BIOS data area at 0x9fc00: the pointer in its second line, the
    table at 0x9fc40 with two processors, a bus, an I/O APIC and an interrupt. *)
Definition sample_area : list Z :=
  [0; 0; 0; 0; 0; 0; 0; 0; 0; 0; 0; 0; 0; 0; 0; 0;
   95; 77; 80; 95; 64; 252; 9; 0; 1; 4; 91; 0; 0; 0; 0; 0;
   0; 0; 0; 0; 0; 0; 0; 0; 0; 0; 0; 0; 0; 0; 0; 0;
   0; 0; 0; 0; 0; 0; 0; 0; 0; 0; 0; 0; 0; 0; 0; 0;
   80; 67; 77; 80; 108; 0; 4; 43; 0; 0; 0; 0; 0; 0; 0; 0;
   0; 0; 0; 0; 0; 0; 0; 0; 0; 0; 0; 0; 0; 0; 0; 0;
   0; 0; 5; 0; 0; 0; 224; 254; 0; 0; 0; 0; 0; 0; 20; 1;
   0; 0; 0; 0; 0; 0; 0; 0; 0; 0; 0; 0; 0; 0; 0; 0;
   0; 5; 20; 1; 0; 0; 0; 0; 0; 0; 0; 0; 0; 0; 0; 0;
   0; 0; 0; 0; 1; 0; 73; 83; 65; 32; 32; 32; 2; 7; 17; 1;
   0; 0; 192; 254; 3; 0; 0; 0; 0; 0; 7; 2].
Definition sample_mem (a : Z) : Z :=
  if a =? BDA + 15 then 159 else if a =? BDA + 14 then 192
  else if a <? P2V 654336 then 0 else nthd 0 sample_area (Z.to_nat (a - P2V 654336)).
Definition sample_entries : list entry := [EProc 0; EProc 5; EOther MPBUS; EIoapic 7; EOther MPIOINTR].
Definition sample_mpst (d : sim) : mpst sim := Mpst (replicate 8 0) 0 0 0 d.
Definition idle_sim : sim := Sim (fun _ _ => []) task0 NoCommand false.

Lemma mpinit_finds_witness :
  exists s', mpinit sample_mem (sample_mpst idle_sim) = Ok tt s' /\ ncpu s' = 2 /\
    take (Z.to_nat (ncpu s')) (cpus s') = [0; 5] /\ ioapicid s' = 7 /\ lapic s' = 4276092928.
Proof.
  destruct (mpinit_finds sample_mem (sample_mpst idle_sim)) as [H _]; [done..|].
  destruct (H (P2V 654352) (P2V 654400) sample_entries (P2V 654400 + 108)) as (_ & _ & _ & _ & _ & s' & H1 & H2 & H3 & H4 & H5 & _).
  - vm_compute. reflexivity.
  - vm_compute. tauto.
  - vm_compute. discriminate.
  - exists s'. split; [exact H1|]. rewrite H3. clear H1 H3.
    split; [rewrite H2; reflexivity|]. split; [reflexivity|]. split; [rewrite H4; reflexivity|rewrite H5; vm_compute; reflexivity].
Defined.
