(* ===== verification/Apic.v ===== *)
(** The interrupt controllers: ioapic.c, picirq.c and lapic.c up to its clock,
    and the identity of a processor, [mycpu] and [cpuid] of proc.c.

    The controllers are memory-mapped: [Mmio] is what a load or a store of a
    register does to the devices.  [Ioapic] and [Lapic] state the documented
    behaviour of the two controllers in terms of a few observations. *)
From stdpp Require Import base numbers list strings.
From Stdlib Require Import ZArith Lia.
From S2P Require Import Prelude Params CString Kalloc Ports Mp.

Local Open Scope list_scope.
Local Open Scope Z_scope.
Local Open Scope kernel_scope.

(** ** Registers in memory *)

Class Mmio (D : Type) := {
  mm_read : Z -> D -> Z * D;
  mm_write : Z -> Z -> D -> D
}.

Section Access.
Context {D : Type} `{!Mmio D}.
Definition load32 (a : Z) : M D Z := fun d => let r := mm_read a d in Ok r.1 r.2.
Definition store32 (a v : Z) : M D unit := fun d => Ok tt (mm_write a (u32 v) d).
End Access.

(** ** The I/O APIC *)

Definition IOAPIC : Z := 4273995776.
Definition REG_ID : Z := 0.
Definition REG_VER : Z := 1.
Definition REG_TABLE : Z := 16.
Definition INT_DISABLED : Z := 65536.
Definition INT_LEVEL : Z := 32768.
Definition INT_ACTIVELOW : Z := 8192.
Definition INT_LOGICAL : Z := 2048.
(** The offset of [data] in struct ioapic. *)
Definition IOWIN : Z := IOAPIC + 16.

Section IoapicCode.
Context {D : Type} `{!Mmio D}.

Definition ioapicread (reg : Z) : M D Z := store32 IOAPIC reg;; load32 IOWIN.
Definition ioapicwrite (reg data : Z) : M D unit := store32 IOAPIC reg;; store32 IOWIN data.

(** [n] turns of the loop, from line [i]. *)
Fixpoint ioapicinit_loop (n : nat) (i : Z) : M D unit :=
  match n with
  | O => ret tt
  | S n' =>
      ioapicwrite (REG_TABLE + 2 * i) (Z.lor INT_DISABLED (T_IRQ0 + i));;
      ioapicwrite (REG_TABLE + 2 * i + 1) 0;;
      ioapicinit_loop n' (i + 1)
  end.

(** The value is what it prints. *)
Definition ioapicinit (ioapicid : Z) : M D (list Z) :=
  v ← ioapicread REG_VER;
  let maxintr := Z.land (Z.shiftr v 16) 255 in
  r ← ioapicread REG_ID;
  let id := Z.shiftr r 24 in
  let out := if negb (id =? ioapicid) then removelast (lit "ioapicinit: id isn't equal to ioapicid; not a MP") ++ [10] else [] in
  ioapicinit_loop (Z.to_nat (maxintr + 1)) 0;;
  ret out.

Definition ioapicenable (irq cpunum : Z) : M D unit :=
  ioapicwrite (REG_TABLE + 2 * irq) (T_IRQ0 + irq);;
  ioapicwrite (REG_TABLE + 2 * irq + 1) (Z.shiftl cpunum 24).
End IoapicCode.

(** ** The 8259A controllers *)

Definition IO_PIC1 : Z := 32.
Definition IO_PIC2 : Z := 160.
Definition picinit {D : Type} `{!PortIO D} : M D unit := outb (IO_PIC1 + 1) 255;; outb (IO_PIC2 + 1) 255.

(** ** The local APIC *)

Definition ID : Z := 32 / 4.
Definition VER : Z := 48 / 4.
Definition TPR : Z := 128 / 4.
Definition EOI : Z := 176 / 4.
Definition SVR : Z := 240 / 4.
Definition ENABLE : Z := 256.
Definition ESR : Z := 640 / 4.
Definition ICRLO : Z := 768 / 4.
Definition INIT : Z := 1280.
Definition STARTUP : Z := 1536.
Definition DELIVS : Z := 4096.
Definition ASSERT : Z := 16384.
Definition LEVEL : Z := 32768.
Definition BCAST : Z := 524288.
Definition ICRHI : Z := 784 / 4.
Definition TIMER : Z := 800 / 4.
Definition X1 : Z := 11.
Definition PERIODIC : Z := 131072.
Definition PCINT : Z := 832 / 4.
Definition LINT0 : Z := 848 / 4.
Definition LINT1 : Z := 864 / 4.
Definition ERROR : Z := 880 / 4.
Definition MASKED : Z := 65536.
Definition TICR : Z := 896 / 4.
Definition TDCR : Z := 992 / 4.

Definition CMOS_PORT : Z := 112.
Definition CMOS_RETURN : Z := 113.

Section LapicCode.
(** [lapic] is the variable [mpinit] sets; [slow] bounds the turns of the loop
    that waits for an interrupt command to be delivered. *)
Context {D : Type} `{!Mmio D} (lapic : Z) (slow : nat).

Definition lapicr (index : Z) : M D Z := load32 (lapic + 4 * index).
Definition lapicw (index value : Z) : M D unit := store32 (lapic + 4 * index) value;; lapicr ID;; ret tt.

Fixpoint deliver_wait (fuel : nat) : M D unit :=
  match fuel with
  | O => blocked "lapicinit"
  | S f => r ← lapicr ICRLO; if truth (Z.land r DELIVS) then deliver_wait f else ret tt
  end.

Definition lapicinit : M D unit :=
  if negb (truth lapic) then ret tt
  else
    lapicw SVR (Z.lor ENABLE (T_IRQ0 + IRQ_SPURIOUS));;
    lapicw TDCR X1;;
    lapicw TIMER (Z.lor PERIODIC (T_IRQ0 + IRQ_TIMER));;
    lapicw TICR 10000000;;
    lapicw LINT0 MASKED;;
    lapicw LINT1 MASKED;;
    v ← lapicr VER;
    (if 4 <=? Z.land (Z.shiftr v 16) 255 then lapicw PCINT MASKED else ret tt);;
    lapicw ERROR (T_IRQ0 + IRQ_ERROR);;
    lapicw ESR 0;;
    lapicw ESR 0;;
    lapicw EOI 0;;
    lapicw ICRHI 0;;
    lapicw ICRLO (Z.lor (Z.lor BCAST INIT) LEVEL);;
    deliver_wait (S slow);;
    lapicw TPR 0.

Definition lapicid : M D Z :=
  if negb (truth lapic) then ret 0 else r ← lapicr ID; ret (Z.shiftr r 24).

Definition lapiceoi : M D unit := if truth lapic then lapicw EOI 0 else ret tt.
End LapicCode.

(** The memory and the devices. *)
Record hw (D : Type) := Hw { hw_mem : Z -> Z; hw_dev : D }.
Arguments Hw {D}.
Arguments hw_mem {D} _.
Arguments hw_dev {D} _.

Section StartCode.
Context {D : Type} `{!PortIO D, !Mmio D} (lapic : Z).
Definition hdev {A} (x : M D A) : M (hw D) A := zoom hw_dev (fun d s => Hw (hw_mem s) d) x.
(** A store of a ushort. *)
Definition store16 (a v : Z) : M (hw D) unit :=
  modify (fun s => Hw (fun x => if x =? a then u8 v else if x =? a + 1 then u8 (Z.shiftr v 8) else hw_mem s x) (hw_dev s)).

Fixpoint startup_ipis (n : nat) (apicid addr : Z) : M (hw D) unit :=
  match n with
  | O => ret tt
  | S n' =>
      hdev (lapicw lapic ICRHI (Z.shiftl apicid 24));;
      hdev (lapicw lapic ICRLO (Z.lor STARTUP (Z.shiftr addr 12)));;
      startup_ipis n' apicid addr
  end.

(** [microdelay] does nothing. *)
Definition lapicstartap (apicid addr : Z) : M (hw D) unit :=
  hdev (outb CMOS_PORT 15);;
  hdev (outb (CMOS_PORT + 1) 10);;
  let wrv := P2V (Z.lor (Z.shiftl 64 4) 103) in
  store16 wrv 0;;
  store16 (wrv + 2) (Z.shiftr addr 4);;
  hdev (lapicw lapic ICRHI (Z.shiftl apicid 24));;
  hdev (lapicw lapic ICRLO (Z.lor (Z.lor INIT LEVEL) ASSERT));;
  hdev (lapicw lapic ICRLO (Z.lor INIT LEVEL));;
  startup_ipis 2 apicid addr.
End StartCode.

(** ** Which processor this is *)

Section MycpuCode.
Context {D : Type} `{!Mmio D}.
Abbreviation K := (M (mpst D)).

(** The loop of [mycpu] over the entries of [cpus] from [i]. *)
Fixpoint find_cpu (apicid : Z) (l : list Z) (i : Z) : option Z :=
  match l with
  | [] => None
  | a :: r => if a =? apicid then Some i else find_cpu apicid r (i + 1)
  end.

(** The index in [cpus], which is [cpuid]. *)
Definition mycpu (eflags : Z) : K Z :=
  if truth (Z.land eflags FL_IF) then panic "mycpu called with interrupts enabled\n"
  else
    l ← gets lapic;
    apicid ← zoom mp_dev (fun d s => Mpst (cpus s) (ncpu s) (ioapicid s) (Mp.lapic s) d) (lapicid l);
    n ← gets ncpu;
    c ← gets cpus;
    match find_cpu apicid (take (Z.to_nat n) c) 0 with
    | Some i => ret i
    | None => panic "unknown apicid\n"
    end.
Definition cpuid (eflags : Z) : K Z := mycpu eflags.
End MycpuCode.

Lemma seq_step {S A B C} (m : M S A) (k : M S B) (r : M S C) s b s' : (m;; k) s = Ok b s' -> (m;; k;; r) s = r s'.
Proof. unfold bind. destruct (m s); [|done..]. by intros ->. Qed.

(** ** What the I/O APIC does *)

(** The bits of a redirection register that software sets: in the low one the
    vector, the modes, the polarity, the trigger and the mask (not the delivery
    status and the remote IRR), in the high one the destination. *)
Definition rw_bit (reg b : Z) : bool :=
  if Z.even reg then (0 <=? b) && (b <=? 16) && negb (b =? 12) && negb (b =? 14) else (24 <=? b) && (b <? 32).

(** The documented behaviour: a store to the first address selects a register,
    the second address is the register selected. *)
Class Ioapic (D : Type) `{!Mmio D} := {
  ioa_sel : D -> Z;
  ioa_reg : D -> Z -> Z;
  ioa_max : D -> Z;
  ioa_select d r : 0 <= r < 256 ->
    let d' := mm_write IOAPIC r d in ioa_sel d' = r /\ ioa_reg d' = ioa_reg d /\ ioa_max d' = ioa_max d;
  ioa_load d :
    let p := mm_read IOWIN d in
    p.1 = ioa_reg d (ioa_sel d) /\ ioa_reg p.2 = ioa_reg d /\ ioa_max p.2 = ioa_max d;
  ioa_store d v : REG_TABLE <= ioa_sel d < REG_TABLE + 2 * (ioa_max d + 1) ->
    let d' := mm_write IOWIN v d in
    (forall b, rw_bit (ioa_sel d) b = true -> Z.testbit (ioa_reg d' (ioa_sel d)) b = Z.testbit v b) /\
    (forall i, i <> ioa_sel d -> ioa_reg d' i = ioa_reg d i) /\ ioa_max d' = ioa_max d;
  ioa_lines d : 0 <= ioa_max d < 120 /\ Z.land (Z.shiftr (ioa_reg d REG_VER) 16) 255 = ioa_max d
}.

Section IoapicSpec.
Context {D : Type} `{Ioapic D}.

(** What the table says about line [i]. *)
Definition low_bit (d : D) (i b : Z) : bool := Z.testbit (ioa_reg d (REG_TABLE + 2 * i)) b.
Definition high_bit (d : D) (i b : Z) : bool := Z.testbit (ioa_reg d (REG_TABLE + 2 * i + 1)) b.
(** Masked. *)
Definition line_off (d : D) (i : Z) : Prop := low_bit d i 16 = true.
(** Unmasked, edge-triggered, active high, in fixed mode to the processor with
    APIC id [c], with vector [T_IRQ0 + i]. *)
Definition line_to (d : D) (i c : Z) : Prop :=
  low_bit d i 16 = false /\ low_bit d i 15 = false /\ low_bit d i 13 = false /\ low_bit d i 11 = false /\
  (forall b, 8 <= b <= 10 -> low_bit d i b = false) /\
  (forall b, 0 <= b < 8 -> low_bit d i b = Z.testbit (T_IRQ0 + i) b) /\
  (forall b, 0 <= b < 8 -> high_bit d i (24 + b) = Z.testbit c b).

(** Only the registers of line [i] change. *)
Definition only_line (i : Z) (d d' : D) : Prop :=
  ioa_max d' = ioa_max d /\ (forall j, j <> REG_TABLE + 2 * i -> j <> REG_TABLE + 2 * i + 1 -> ioa_reg d' j = ioa_reg d j).

Lemma u32_testbit v b : 0 <= b < 32 -> Z.testbit (u32 v) b = Z.testbit v b.
Proof. intros Hb. unfold u32. rewrite Z.mod_pow2_bits_low by lia. done. Qed.

Lemma ioapicread_spec r d : 0 <= r < 256 ->
  exists d', ioapicread r d = Ok (ioa_reg d r) d' /\ ioa_reg d' = ioa_reg d /\ ioa_max d' = ioa_max d.
Proof.
  intros Hr. unfold ioapicread, store32, load32, bind. rewrite u32_small by lia.
  destruct (ioa_select d r Hr) as (E1 & E2 & E3). destruct (ioa_load (mm_write IOAPIC r d)) as (F1 & F2 & F3).
  eexists. split; [by rewrite F1, E1, E2|]. by rewrite F2, F3.
Qed.

Lemma rw_bit_range r b : rw_bit r b = true -> 0 <= b < 32.
Proof. unfold rw_bit. destruct (Z.even r); intros; b2p; lia. Qed.

Lemma ioapicwrite_spec r v d : REG_TABLE <= r < REG_TABLE + 2 * (ioa_max d + 1) ->
  exists d', ioapicwrite r v d = Ok tt d' /\
    (forall b, rw_bit r b = true -> Z.testbit (ioa_reg d' r) b = Z.testbit v b) /\
    (forall i, i <> r -> ioa_reg d' i = ioa_reg d i) /\ ioa_max d' = ioa_max d.
Proof.
  intros Hr. pose proof (ioa_lines d) as [Hm _]. unfold REG_TABLE in Hr.
  unfold ioapicwrite, store32, bind. rewrite (u32_small r) by lia.
  destruct (ioa_select d r ltac:(lia)) as (E1 & E2 & E3).
  destruct (ioa_store (mm_write IOAPIC r d) (u32 v)) as (F1 & F2 & F3); [rewrite E1, E3; exact Hr|].
  rewrite E1, E2, E3 in *. eexists. split; [reflexivity|]. split; [|done].
  intros b Hb. rewrite (F1 b Hb). apply u32_testbit. by eapply rw_bit_range.
Qed.

(** The two writes of a line. *)
Lemma write_line i lo hi d : 0 <= i <= ioa_max d ->
  exists d', (ioapicwrite (REG_TABLE + 2 * i) lo;; ioapicwrite (REG_TABLE + 2 * i + 1) hi) d = Ok tt d' /\ only_line i d d' /\
    (forall b, 0 <= b <= 16 -> b <> 12 -> b <> 14 -> low_bit d' i b = Z.testbit lo b) /\
    (forall b, 0 <= b < 8 -> high_bit d' i (24 + b) = Z.testbit hi (24 + b)).
Proof.
  intros Hi. destruct (ioapicwrite_spec (REG_TABLE + 2 * i) lo d) as (d1 & E1 & L1 & O1 & M1); [lia|].
  destruct (ioapicwrite_spec (REG_TABLE + 2 * i + 1) hi d1) as (d2 & E2 & L2 & O2 & M2); [lia|].
  exists d2. unfold bind at 1. rewrite E1. split; [done|]. unfold only_line, low_bit, high_bit. split_and!.
  - by rewrite M2.
  - intros j Hj1 Hj2. by rewrite O2, O1.
  - intros b Hb H12 H14. rewrite O2 by lia. apply L1. unfold rw_bit, REG_TABLE.
    rewrite Z.even_add, Z.even_mul. cbn [Z.even orb eqb]. rewrite !andb_true_iff, !negb_true_iff. lia.
  - intros b Hb. apply L2. unfold rw_bit, REG_TABLE.
    rewrite !Z.even_add, Z.even_mul. cbn [Z.even orb eqb]. rewrite !andb_true_iff. lia.
Qed.

Lemma line_off_other i j d d' : only_line i d d' -> i <> j -> line_off d j -> line_off d' j.
Proof. intros [_ Ho] Hij. unfold line_off, low_bit. rewrite Ho by lia. done. Qed.
Lemma line_to_other i j c d d' : only_line i d d' -> i <> j -> line_to d j c -> line_to d' j c.
Proof. intros [_ Ho] Hij. unfold line_to, low_bit, high_bit. rewrite !Ho by lia. done. Qed.

Lemma disabled_bit i : 0 <= i < 120 -> Z.testbit (Z.lor INT_DISABLED (T_IRQ0 + i)) 16 = true.
Proof. intros. by rewrite Z.lor_spec. Qed.

Lemma ioapicinit_loop_spec n i d : 0 <= i -> i + Z.of_nat n <= ioa_max d + 1 ->
  exists d', ioapicinit_loop n i d = Ok tt d' /\ ioa_max d' = ioa_max d /\
    (forall j, 0 <= j < i -> line_off d j -> line_off d' j) /\
    (forall j, i <= j < i + Z.of_nat n -> line_off d' j).
Proof.
  revert i d. induction n as [|n IH]; intros i d Hi Hn; cbn [ioapicinit_loop].
  { exists d. split_and!; try done. intros; lia. }
  pose proof (ioa_lines d) as [Hm _].
  destruct (write_line i (Z.lor INT_DISABLED (T_IRQ0 + i)) 0 d) as (d1 & E1 & O1 & L1 & _); [lia|].
  pose proof (proj1 O1) as M1. destruct (IH (i + 1) d1) as (d2 & E2 & M2 & K2 & L2); [lia..|].
  exists d2. split_and!.
  - rewrite <- E2. by apply (seq_step _ _ _ _ _ _ E1).
  - by rewrite M2.
  - intros j Hj Hd. apply K2; [lia|]. eapply line_off_other; [exact O1|lia|done].
  - intros j Hj. destruct (decide (j = i)) as [->|]; [|apply L2; lia].
    apply K2; [lia|]. unfold line_off. rewrite L1 by lia. apply disabled_bit. lia.
Qed.

Lemma vector_high i b : 0 <= i < 120 -> 8 <= b -> Z.testbit (T_IRQ0 + i) b = false.
Proof.
  intros Hi Hb. unfold T_IRQ0. apply Z.bits_above_log2; [lia|].
  apply Z.le_lt_trans with 7; [|lia]. change 7 with (Z.log2 255). apply Z.log2_le_mono. lia.
Qed.

Lemma ioapicenable_spec i c d : 0 <= i <= ioa_max d -> 0 <= c < 256 ->
  exists d', ioapicenable i c d = Ok tt d' /\ only_line i d d' /\ line_to d' i c.
Proof.
  intros Hi Hc. pose proof (ioa_lines d) as [Hm _].
  destruct (write_line i (T_IRQ0 + i) (Z.shiftl c 24) d Hi) as (d' & E & O & L & H').
  exists d'. split; [exact E|]. split; [exact O|]. unfold line_to. split_and!; try (rewrite L by lia; apply vector_high; lia).
  - intros b Hb. rewrite L by lia. apply vector_high; lia.
  - intros b Hb. apply L; lia.
  - intros b Hb. rewrite H' by lia. rewrite Z.shiftl_spec by lia. f_equal. lia.
Qed.

Fixpoint enable_all (l : list (Z * Z)) : M D unit :=
  match l with [] => ret tt | (irq, c) :: r => ioapicenable irq c;; enable_all r end.
(** The processor the last of the calls routes line [i] to. *)
Definition routed (l : list (Z * Z)) (i : Z) : option Z :=
  foldl (fun o p => if p.1 =? i then Some p.2 else o) None l.

(** One more call. *)
Lemma enable_all_spec l d (r : Z -> option Z) :
  Forall (fun p => 0 <= p.1 <= ioa_max d /\ 0 <= p.2 < 256) l ->
  (forall i, 0 <= i <= ioa_max d -> match r i with None => line_off d i | Some c => line_to d i c end) ->
  exists d', enable_all l d = Ok tt d' /\ ioa_max d' = ioa_max d /\
    forall i, 0 <= i <= ioa_max d ->
      match foldl (fun o p => if p.1 =? i then Some p.2 else o) (r i) l with None => line_off d' i | Some c => line_to d' i c end.
Proof.
  revert d r. induction l as [|[irq c] l IH]; intros d r Hl Hr; cbn [enable_all].
  { exists d. split_and!; done. }
  apply Forall_cons in Hl as [[Hi Hc] Hl]. cbn [fst snd] in *.
  destruct (ioapicenable_spec irq c d Hi Hc) as (d1 & E1 & O1 & L1). pose proof (proj1 O1) as M1.
  destruct (IH d1 (fun i => if irq =? i then Some c else r i)) as (d2 & E2 & M2 & H2).
  - by rewrite M1.
  - intros i Hi'. rewrite M1 in Hi'. destruct (irq =? i) eqn:E; b2p; [by subst|].
    specialize (Hr i Hi'). destruct (r i); [by eapply line_to_other|by eapply line_off_other].
  - exists d2. unfold bind at 1. rewrite E1. rewrite M2, M1 in *. split_and!; [done..|].
    intros i Hi'. cbn [foldl fst snd]. apply H2. exact Hi'.
Qed.

(** After [ioapicinit] and any calls [ioapicenable irq c] for lines of the
    controller, a line is unmasked exactly when some call enabled it; it is then
    edge-triggered, active high, in fixed mode to the processor of the last such
    call, with vector [T_IRQ0 + irq], the one [trap] tests.  Both functions
    return on every controller, and [ioapicinit] prints its warning exactly when
    the controller's id is not the one the MP table gave. *)
Theorem ioapic_routes (d : D) (id : Z) (l : list (Z * Z)) :
  Forall (fun p => 0 <= p.1 <= ioa_max d /\ 0 <= p.2 < 256) l ->
  exists out d', (o ← ioapicinit id; enable_all l;; ret o) d = Ok out d' /\ ioa_max d' = ioa_max d /\
    (out = [] <-> Z.shiftr (ioa_reg d REG_ID) 24 = id) /\
    forall i, 0 <= i <= ioa_max d ->
      match routed l i with None => line_off d' i | Some c => line_to d' i c end.
Proof.
  intros Hl. destruct (ioapicread_spec REG_VER d) as (d1 & E1 & R1 & M1); [unfold REG_VER; lia|].
  destruct (ioapicread_spec REG_ID d1) as (d2 & E2 & R2 & M2); [unfold REG_ID; lia|].
  pose proof (ioa_lines d) as [Hm Hv]. rewrite M1 in M2. rewrite R1 in E2.
  destruct (ioapicinit_loop_spec (Z.to_nat (ioa_max d + 1)) 0 d2) as (d3 & E3 & M3 & _ & O3); [lia..|]. rewrite M2 in M3.
  destruct (enable_all_spec l d3 (fun _ => None)) as (d4 & E4 & M4 & H4); [by rewrite M3|intros i Hi; apply O3; lia|].
  rewrite M3 in *. unfold ioapicinit, bind. rewrite E1, E2, Hv, E3. unfold ret. rewrite E4.
  do 2 eexists. split; [reflexivity|]. split_and!; [done| |exact H4].
  destruct (Z.shiftr (ioa_reg d REG_ID) 24 =? id) eqn:E; b2p; cbn [negb]; [done|]. split; [|done]. intros X. by apply app_nil in X as [_ X].
Qed.
End IoapicSpec.

(** ** What the local APIC does *)

(** Registers that keep what is stored in them. *)
Definition plain_regs : list Z := [ICRHI; SVR; TDCR; TIMER; TICR; LINT0; LINT1; PCINT; ERROR; TPR].

(** The documented behaviour of the controller at [base]: stores to the plain
    registers are kept; a store to ICRLO sends a command to the destination in
    ICRHI and raises the delivery status until the command is accepted, [la_busy]
    reads of ICRLO later, at most [slow]; a store to EOI acknowledges. *)
Class Lapic (D : Type) `{!Mmio D, !PortIO D} (base : Z) (slow : nat) := {
  la_reg : D -> Z -> Z;
  la_sent : D -> list (Z * Z);
  la_eois : D -> nat;
  la_id : D -> Z;
  la_version : D -> Z;
  la_busy : D -> nat;
  la_patient d : (la_busy d <= slow)%nat;
  la_write d i v : 0 <= i < 256 ->
    let d' := mm_write (base + 4 * i) v d in
    (forall j, j ∈ plain_regs -> la_reg d' j = if j =? i then v else la_reg d j) /\
    la_sent d' = (if i =? ICRLO then la_sent d ++ [(Z.shiftr (la_reg d ICRHI) 24, v)] else la_sent d) /\
    la_eois d' = (if i =? EOI then S (la_eois d) else la_eois d) /\
    la_id d' = la_id d /\ la_version d' = la_version d;
  la_read d i : 0 <= i < 256 ->
    let p := mm_read (base + 4 * i) d in
    (forall j, j ∈ plain_regs -> la_reg p.2 j = la_reg d j) /\
    la_sent p.2 = la_sent d /\ la_eois p.2 = la_eois d /\ la_id p.2 = la_id d /\ la_version p.2 = la_version d /\
    (i = ID -> p.1 = la_id d) /\ (i = VER -> p.1 = la_version d) /\
    (i = ICRLO -> truth (Z.land p.1 DELIVS) = negb (la_busy d =? 0)%nat /\ la_busy p.2 = pred (la_busy d));
  la_port d port v : let d' := p_out port v d in
    (forall j, j ∈ plain_regs -> la_reg d' j = la_reg d j) /\
    la_sent d' = la_sent d /\ la_eois d' = la_eois d /\ la_id d' = la_id d /\ la_version d' = la_version d
}.

Lemma startup_bytes : forallb (fun v => u32 (Z.lor STARTUP v) =? 1536 + v) (seqZ 0 256) = true.
Proof. vm_compute. reflexivity. Qed.
Lemma startup_all v : 0 <= v < 256 -> u32 (Z.lor STARTUP v) = 1536 + v.
Proof.
  intros Hv. pose proof startup_bytes as H. rewrite forallb_forall in H. apply Z.eqb_eq, H, list_elem_of_In, elem_of_seqZ. lia.
Qed.

Section LapicSpec.
Context {D : Type} (base : Z) (slow : nat) `{Lapic D base slow}.

(** The state of the controller as far as the code controls it. *)
Record lview := LView { lv_reg : Z -> Z; lv_sent : list (Z * Z); lv_eois : nat; lv_id : Z; lv_version : Z }.
Definition sees (d : D) (w : lview) : Prop :=
  (forall j, j ∈ plain_regs -> la_reg d j = lv_reg w j) /\ la_sent d = lv_sent w /\ la_eois d = lv_eois w /\
  la_id d = lv_id w /\ la_version d = lv_version w.
(** A store, on the view. *)
Definition lset (i v : Z) (w : lview) : lview :=
  LView (fun j => if j =? i then v else lv_reg w j)
    (if i =? ICRLO then lv_sent w ++ [(Z.shiftr (lv_reg w ICRHI) 24, v)] else lv_sent w)
    (if i =? EOI then S (lv_eois w) else lv_eois w) (lv_id w) (lv_version w).

Lemma sent_lo v w : lv_sent (lset ICRLO v w) = lv_sent w ++ [(Z.shiftr (lv_reg w ICRHI) 24, v)].
Proof. done. Qed.
Lemma sent_hi v w : lv_sent (lset ICRHI v w) = lv_sent w.
Proof. done. Qed.
Lemma hi_lo v w : lv_reg (lset ICRLO v w) ICRHI = lv_reg w ICRHI.
Proof. done. Qed.
Lemma hi_hi v w : lv_reg (lset ICRHI v w) ICRHI = v.
Proof. done. Qed.

Lemma icrhi_plain : ICRHI ∈ plain_regs.
Proof. left. Qed.

Lemma sees_write d w i v : 0 <= i < 256 -> sees d w -> sees (mm_write (base + 4 * i) v d) (lset i v w).
Proof.
  intros Hi (S1 & S2 & S3 & S4 & S5). destruct (la_write d i v Hi) as (W1 & W2 & W3 & W4 & W5).
  unfold sees, lset. cbn [lv_reg lv_sent lv_eois lv_id lv_version].
  rewrite W2, W3, W4, W5, S2, S3, S4, S5, (S1 ICRHI icrhi_plain). split; [|done]. intros j Hj. rewrite W1 by done. by rewrite S1.
Qed.
Lemma sees_read d w i : 0 <= i < 256 -> sees d w -> sees (mm_read (base + 4 * i) d).2 w.
Proof.
  intros Hi (S1 & S2 & S3 & S4 & S5). destruct (la_read d i Hi) as (W1 & W2 & W3 & W4 & W5 & _).
  unfold sees. rewrite W2, W3, W4, W5. split; [|done]. intros j Hj. rewrite W1 by done. by apply S1.
Qed.
Lemma sees_out d w port v : sees d w -> sees (p_out port v d) w.
Proof.
  intros (S1 & S2 & S3 & S4 & S5). destruct (la_port d port v) as (W1 & W2 & W3 & W4 & W5).
  unfold sees. rewrite W2, W3, W4, W5. split; [|done]. intros j Hj. rewrite W1 by done. by apply S1.
Qed.

(** Runs of the code: from a device that shows [w] to a device that shows [w']. *)
Definition runs {A} (m : M D A) (w : lview) (a : A) (w' : lview) : Prop :=
  forall d, sees d w -> exists d', m d = Ok a d' /\ sees d' w'.

Lemma runs_bind {A B} (m : M D A) (k : A -> M D B) w a w1 b w2 :
  runs m w a w1 -> runs (k a) w1 b w2 -> runs (bind m k) w b w2.
Proof.
  intros Hm Hk d Hd. destruct (Hm d Hd) as (d1 & E1 & S1). destruct (Hk d1 S1) as (d2 & E2 & S2).
  exists d2. unfold bind. by rewrite E1.
Qed.
Lemma runs_ret {A} (a : A) w : runs (ret a) w a w.
Proof. intros d Hd. by exists d. Qed.

Lemma runs_lapicw i v w : 0 <= i < 256 -> runs (lapicw base i v) w tt (lset i (u32 v) w).
Proof.
  intros Hi d Hd. eexists. split; [reflexivity|]. apply (sees_read _ _ ID); [done|]. by apply sees_write.
Qed.
Lemma runs_version w : runs (lapicr base VER) w (lv_version w) w.
Proof.
  intros d Hd. pose proof Hd as (_ & _ & _ & _ & <-). exists (mm_read (base + 4 * VER) d).2. split; [|by apply (sees_read d w VER)].
  unfold lapicr, load32. destruct (la_read d VER ltac:(done)) as (_ & _ & _ & _ & _ & _ & E & _). by rewrite E.
Qed.
Lemma runs_id w : runs (lapicr base ID) w (lv_id w) w.
Proof.
  intros d Hd. pose proof Hd as (_ & _ & _ & <- & _). exists (mm_read (base + 4 * ID) d).2. split; [|by apply (sees_read d w ID)].
  unfold lapicr, load32. destruct (la_read d ID ltac:(done)) as (_ & _ & _ & _ & _ & E & _). by rewrite E.
Qed.
Lemma deliver_wait_runs n w d : (la_busy d < n)%nat -> sees d w -> exists d', deliver_wait base n d = Ok tt d' /\ sees d' w.
Proof.
  revert d. induction n as [|n IH]; intros d Hn Hd; [lia|]. cbn [deliver_wait]. unfold bind, lapicr, load32.
  destruct (la_read d ICRLO ltac:(done)) as (_ & _ & _ & _ & _ & _ & _ & E). destruct (E eq_refl) as [-> Eb].
  pose proof (sees_read d w ICRLO ltac:(done) Hd) as Hd'. destruct (la_busy d =? 0)%nat eqn:Ez; cbn [negb].
  - eexists. split; [reflexivity|exact Hd'].
  - apply IH; [|exact Hd']. rewrite Eb. apply Nat.eqb_neq in Ez. lia.
Qed.
Lemma runs_wait w : runs (deliver_wait base (S slow)) w tt w.
Proof. intros d Hd. apply deliver_wait_runs; [|done]. pose proof (la_patient d). lia. Qed.

(** What [lapicinit] leaves: the unit enabled with the spurious vector, the timer
    periodic on [IRQ_TIMER], the external lines masked, errors on [IRQ_ERROR], no
    priority, one acknowledgement, and one INIT level de-assert to everyone. *)
Definition set_up (w : lview) : lview :=
  let w1 := lset LINT1 MASKED (lset LINT0 MASKED (lset TICR 10000000
              (lset TIMER (131072 + 32) (lset TDCR 11 (lset SVR (256 + 63) w))))) in
  let w2 := if 4 <=? Z.land (Z.shiftr (lv_version w) 16) 255 then lset PCINT MASKED w1 else w1 in
  lset TPR 0 (lset ICRLO (524288 + 1280 + 32768) (lset ICRHI 0 (lset EOI 0 (lset ESR 0 (lset ESR 0 (lset ERROR (32 + 19) w2)))))).

Lemma lapicinit_runs w : base <> 0 -> runs (lapicinit base slow) w tt (set_up w).
Proof.
  intros Hb. unfold lapicinit, truth. rewrite (proj2 (Z.eqb_neq _ _) Hb). cbn [negb].
  do 6 (eapply runs_bind; [apply runs_lapicw; done|]).
  eapply runs_bind; [apply runs_version|]. cbn [lset lv_version].
  eapply runs_bind.
  { instantiate (1 := if 4 <=? Z.land (Z.shiftr (lv_version w) 16) 255 then _ else _).
    destruct (4 <=? _); [apply runs_lapicw; done|apply runs_ret]. }
  do 6 (eapply runs_bind; [apply runs_lapicw; done|]).
  eapply runs_bind; [apply runs_wait|]. apply runs_lapicw. done.
Qed.

(** The same with the memory, byte by byte. *)
Definition hruns {A} (m : M (hw D) A) (f : Z -> Z) (w : lview) (a : A) (f' : Z -> Z) (w' : lview) : Prop :=
  forall s, (forall x, hw_mem s x = f x) -> sees (hw_dev s) w ->
  exists s', m s = Ok a s' /\ (forall x, hw_mem s' x = f' x) /\ sees (hw_dev s') w'.

Lemma hruns_bind {A B} (m : M (hw D) A) (k : A -> M (hw D) B) f w a f1 w1 b f2 w2 :
  hruns m f w a f1 w1 -> hruns (k a) f1 w1 b f2 w2 -> hruns (bind m k) f w b f2 w2.
Proof.
  intros Hm Hk s Hf Hd. destruct (Hm s Hf Hd) as (s1 & E1 & F1 & S1). destruct (Hk s1 F1 S1) as (s2 & E2 & F2 & S2).
  exists s2. unfold bind. by rewrite E1.
Qed.
Lemma hruns_dev {A} (m : M D A) f w a w' : runs m w a w' -> hruns (hdev m) f w a f w'.
Proof.
  intros Hm s Hf Hd. destruct (Hm _ Hd) as (d' & E & S'). exists (Hw (hw_mem s) d'). split; [|done].
  unfold hdev, zoom. by rewrite E.
Qed.
Lemma runs_outb port v w : runs (outb port v) w tt w.
Proof. intros d Hd. eexists. split; [reflexivity|]. by apply sees_out. Qed.
Definition put16 (a v : Z) (f : Z -> Z) : Z -> Z :=
  fun x => if x =? a then u8 v else if x =? a + 1 then u8 (Z.shiftr v 8) else f x.
Lemma hruns_store a v f w : hruns (store16 a v) f w tt (put16 a v f) w.
Proof.
  intros s Hf Hd. eexists. split; [reflexivity|]. cbn [hw_mem hw_dev]. split; [|done].
  intros x. unfold put16. by rewrite Hf.
Qed.

Definition WRV : Z := P2V 1127.

(** What [lapicstartap] sends. *)
Definition started (apicid addr : Z) (w : lview) : lview :=
  let hi := u32 (Z.shiftl apicid 24) in
  let ipi w := lset ICRLO (u32 (Z.lor STARTUP (Z.shiftr addr 12))) (lset ICRHI hi w) in
  ipi (ipi (lset ICRLO (1280 + 32768) (lset ICRLO (1280 + 32768 + 16384) (lset ICRHI hi w)))).

Lemma lapicstartap_runs apicid addr f w :
  hruns (lapicstartap base apicid addr) f w tt (put16 (WRV + 2) (Z.shiftr addr 4) (put16 WRV 0 f)) (started apicid addr w).
Proof.
  unfold lapicstartap. do 2 (eapply hruns_bind; [apply hruns_dev, runs_outb|]). cbv zeta.
  change (P2V (Z.lor (Z.shiftl 64 4) 103)) with WRV.
  do 2 (eapply hruns_bind; [apply hruns_store|]).
  do 3 (eapply hruns_bind; [apply hruns_dev, runs_lapicw; done|]).
  cbn [startup_ipis]. do 4 (eapply hruns_bind; [apply hruns_dev, runs_lapicw; done|]).
  intros s Hf Hd. by exists s.
Qed.

Lemma dest_byte apicid : 0 <= apicid < 256 -> Z.shiftr (u32 (Z.shiftl apicid 24)) 24 = apicid.
Proof.
  intros Ha. rewrite Z.shiftl_mul_pow2, Z.shiftr_div_pow2, u32_small by lia. by rewrite Z.div_mul.
Qed.

(** The vector of a startup command for a page of the first megabyte. *)
Lemma startup_vector addr : 0 <= addr < 2 ^ 20 -> u32 (Z.lor STARTUP (Z.shiftr addr 12)) = 1536 + addr / 4096.
Proof.
  intros Ha. rewrite Z.shiftr_div_pow2 by lia. change (2 ^ 12) with 4096.
  assert (0 <= addr / 4096 < 256) as Hv by (split; [apply Z.div_pos; lia|apply Z.div_lt_upper_bound; lia]).
  pose proof (startup_all (addr / 4096) Hv) as E. exact E.
Qed.


Lemma warm_reset f addr : 0 <= addr < 2 ^ 20 -> addr mod 4096 = 0 ->
  let m := put16 (WRV + 2) (Z.shiftr addr 4) (put16 WRV 0 f) in
  m WRV = 0 /\ m (WRV + 1) = 0 /\ 16 * (m (WRV + 2) + 256 * m (WRV + 3)) = addr /\ (forall x, ~ WRV <= x < WRV + 4 -> m x = f x).
Proof.
  intros Ha Hal m. unfold m, put16. change WRV with 2147484775. split_and!; [done..| |].
  - change (2147484775 + 3) with (2147484775 + 2 + 1). rewrite !Z.eqb_refl.
    replace (2147484775 + 2 + 1 =? 2147484775 + 2) with false by done.
    unfold u8. rewrite !Z.shiftr_div_pow2 by lia. change (2 ^ 4) with 16. change (2 ^ 8) with 256.
    apply Z.mod_divide in Hal as [k ->]; [|done].
    replace (k * 4096) with (k * 256 * 16) by lia. rewrite !Z.div_mul by done.
    rewrite Z.mod_mul, (Z.mod_small k) by lia. lia.
  - intros x Hx. rewrite !(proj2 (Z.eqb_neq _ _)) by lia. done.
Qed.

(** [lapicstartap] for a page of the first megabyte. *)
Lemma startap_spec (d : D) f apicid addr : 0 <= apicid < 256 -> 0 <= addr < 2 ^ 20 -> addr mod 4096 = 0 ->
  exists s', lapicstartap base apicid addr (Hw f d) = Ok tt s' /\
    la_sent (hw_dev s') = la_sent d ++ [(apicid, INIT + LEVEL + ASSERT); (apicid, INIT + LEVEL);
      (apicid, STARTUP + addr / 4096); (apicid, STARTUP + addr / 4096)] /\
    hw_mem s' WRV = 0 /\ hw_mem s' (WRV + 1) = 0 /\
    16 * (hw_mem s' (WRV + 2) + 256 * hw_mem s' (WRV + 3)) = addr /\
    (forall x, ~ WRV <= x < WRV + 4 -> hw_mem s' x = f x).
Proof.
  intros Ha Had Hal. set (w := LView (la_reg d) (la_sent d) (la_eois d) (la_id d) (la_version d)).
  assert (Hd : sees d w) by done.
  destruct (lapicstartap_runs apicid addr f w (Hw f d) ltac:(done) Hd) as (s' & E & F & _ & S2 & _).
  exists s'. split; [exact E|]. rewrite S2. split.
  2: { destruct (warm_reset f addr Had Hal) as (W1 & W2 & W3 & W4). rewrite !F.
       split_and!; [exact W1|exact W2|exact W3|]. intros x Hx. rewrite F. by apply W4. }
  unfold started. cbv zeta. rewrite startup_vector by done.
  repeat first [rewrite sent_lo | rewrite sent_hi | rewrite hi_lo | rewrite hi_hi].
  rewrite dest_byte by done. rewrite <- !app_assoc. done.
Qed.

(** The local APIC, on every controller that behaves as documented.
    [lapicinit] returns, with the unit enabled and its spurious vector
    [T_IRQ0 + IRQ_SPURIOUS], a periodic timer of ten million counts on
    [T_IRQ0 + IRQ_TIMER], both external lines masked, errors on
    [T_IRQ0 + IRQ_ERROR], task priority zero, one interrupt acknowledged and one
    INIT de-assert broadcast.  [lapicstartap apicid addr], for a page [addr] of
    the first megabyte, sends exactly INIT assert, INIT de-assert and twice
    STARTUP with the number of the page, all to [apicid], and leaves the warm
    reset vector pointing at [addr] and all other memory alone.  [lapiceoi]
    acknowledges once, and [lapicid] is the id in the controller's register. *)
Theorem lapic_starts (d : D) (f : Z -> Z) (apicid addr : Z) :
  base <> 0 -> 0 <= apicid < 256 -> 0 <= addr < 2 ^ 20 -> addr mod 4096 = 0 ->
  (exists d', lapicinit base slow d = Ok tt d' /\
    la_reg d' SVR = 256 + (T_IRQ0 + IRQ_SPURIOUS) /\ la_reg d' TIMER = PERIODIC + (T_IRQ0 + IRQ_TIMER) /\
    la_reg d' TICR = 10000000 /\ la_reg d' LINT0 = MASKED /\ la_reg d' LINT1 = MASKED /\
    la_reg d' ERROR = T_IRQ0 + IRQ_ERROR /\ la_reg d' TPR = 0 /\ la_eois d' = S (la_eois d) /\
    la_sent d' = la_sent d ++ [(0, BCAST + INIT + LEVEL)]) /\
  (exists s', lapicstartap base apicid addr (Hw f d) = Ok tt s' /\
    la_sent (hw_dev s') = la_sent d ++ [(apicid, INIT + LEVEL + ASSERT); (apicid, INIT + LEVEL);
      (apicid, STARTUP + addr / 4096); (apicid, STARTUP + addr / 4096)] /\
    hw_mem s' WRV = 0 /\ hw_mem s' (WRV + 1) = 0 /\
    16 * (hw_mem s' (WRV + 2) + 256 * hw_mem s' (WRV + 3)) = addr /\
    (forall x, ~ WRV <= x < WRV + 4 -> hw_mem s' x = f x)) /\
  (exists d', lapiceoi base d = Ok tt d' /\ la_eois d' = S (la_eois d) /\ la_sent d' = la_sent d) /\
  (exists d', lapicid base d = Ok (Z.shiftr (la_id d) 24) d' /\ la_sent d' = la_sent d).
Proof.
  intros Hb Ha Had Hal. set (w := LView (la_reg d) (la_sent d) (la_eois d) (la_id d) (la_version d)).
  assert (Hd : sees d w) by done. split_and!.
  - destruct (lapicinit_runs w Hb d Hd) as (d' & E & S1 & S2 & S3 & _). exists d'. split; [exact E|].
    rewrite S2, S3, !S1 by (unfold plain_regs; repeat constructor).
    unfold set_up. by destruct (4 <=? Z.land (Z.shiftr (lv_version w) 16) 255).
  - by apply startap_spec.
  - destruct (runs_lapicw EOI 0 w ltac:(done) d Hd) as (d' & E & _ & S2 & S3 & _). exists d'.
    unfold lapiceoi, truth. rewrite (proj2 (Z.eqb_neq _ _) Hb). by rewrite S2, S3.
  - destruct (runs_id w d Hd) as (d' & E & _ & S2 & _). exists d'.
    unfold lapicid, truth. rewrite (proj2 (Z.eqb_neq _ _) Hb). cbn [negb]. unfold bind. rewrite E. by rewrite S2.
Qed.
End LapicSpec.

(** ** A board with both controllers *)

(** A sent command is accepted at the second read of ICRLO. *)
Record board := Board {
  bd_sel : Z; bd_reg : Z -> Z; bd_la : Z -> Z; bd_sent : list (Z * Z); bd_eois : nat; bd_busy : bool
}.
Definition LBASE : Z := 4276092928.

Definition board_write (a v : Z) (d : board) : board :=
  if a =? IOAPIC then Board v (bd_reg d) (bd_la d) (bd_sent d) (bd_eois d) (bd_busy d)
  else if a =? IOWIN then
    Board (bd_sel d) (fun i => if (i =? bd_sel d) && negb (i =? REG_VER) then v else bd_reg d i) (bd_la d) (bd_sent d) (bd_eois d) (bd_busy d)
  else
    let i := (a - LBASE) / 4 in
    Board (bd_sel d) (bd_reg d) (fun j => if j =? i then v else bd_la d j)
      (if i =? ICRLO then bd_sent d ++ [(Z.shiftr (bd_la d ICRHI) 24, v)] else bd_sent d)
      (if i =? EOI then S (bd_eois d) else bd_eois d) (if i =? ICRLO then true else bd_busy d).
Definition board_reg (d : board) (i : Z) : Z := if i =? REG_VER then 1507328 else bd_reg d i.
Definition board_read (a : Z) (d : board) : Z * board :=
  if a =? IOWIN then (board_reg d (bd_sel d), d)
  else if (a - LBASE) / 4 =? ICRLO then
    (if bd_busy d then DELIVS else 0, Board (bd_sel d) (bd_reg d) (bd_la d) (bd_sent d) (bd_eois d) false)
  else if (a - LBASE) / 4 =? VER then (327701, d) else (0, d).

#[export] Instance board_mmio : Mmio board := {| mm_read := board_read; mm_write := board_write |}.
#[export] Instance board_io : PortIO board := {|
  p_in _ d := (0, d); p_out _ _ d := d; p_insl _ d := ([], d); p_outsl _ d := d
|}.

#[export] Program Instance board_ioapic : Ioapic board := {|
  ioa_sel := bd_sel; ioa_reg := board_reg; ioa_max _ := 23
|}.
Next Obligation. done. Qed.
Next Obligation. done. Qed.
Next Obligation.
  intros d v Hs. cbn [mm_write board_mmio]. unfold board_write. change (IOWIN =? IOAPIC) with false. rewrite Z.eqb_refl.
  cbn [bd_sel bd_reg]. unfold board_reg. cbn [bd_reg]. unfold REG_TABLE, REG_VER in *.
  split_and!; [| |done].
  - intros b _. rewrite (proj2 (Z.eqb_neq (bd_sel d) 1)) by lia. by rewrite Z.eqb_refl.
  - intros i Hi. destruct (i =? 1); [done|]. by rewrite (proj2 (Z.eqb_neq i (bd_sel d)) Hi).
Qed.
Next Obligation. done. Qed.

Lemma board_index i : 0 <= i < 256 ->
  (LBASE + 4 * i =? IOAPIC) = false /\ (LBASE + 4 * i =? IOWIN) = false /\ (LBASE + 4 * i - LBASE) / 4 = i.
Proof.
  intros Hi. change IOWIN with 4273995792. unfold LBASE, IOAPIC. split_and!; [apply Z.eqb_neq; lia..|].
  replace (4276092928 + 4 * i - 4276092928) with (i * 4) by lia. by apply Z.div_mul.
Qed.

#[export] Program Instance board_lapic : Lapic board LBASE 1 := {|
  la_reg := bd_la; la_sent := bd_sent; la_eois := bd_eois; la_id _ := 0; la_version _ := 327701;
  la_busy d := if bd_busy d then 1%nat else 0%nat
|}.
Next Obligation. intros d. cbn. destruct (bd_busy d); lia. Qed.
Next Obligation.
  intros d i v Hi. cbn [mm_write board_mmio]. unfold board_write. by destruct (board_index i Hi) as (-> & -> & ->).
Qed.
Next Obligation.
  intros d i Hi. cbn [mm_read board_mmio]. unfold board_read. destruct (board_index i Hi) as (_ & -> & ->).
  destruct (i =? ICRLO) eqn:E1; b2p; [subst; split_and!; try done; by destruct (bd_busy d)|].
  destruct (i =? VER) eqn:E2; b2p; [by subst|]. split_and!; done.
Qed.
Next Obligation. done. Qed.

Definition board0 : board := Board 0 (fun _ => 0) (fun _ => 0) [] 0 false.

(** The lines the kernel enables: keyboard and serial line to processor 0, the
    disk to the last processor. *)
Lemma ioapic_routes_witness :
  exists out d', (o ← ioapicinit 0; enable_all [(IRQ_KBD, 0); (IRQ_COM1, 0); (IRQ_IDE, 1)];; ret o) board0 = Ok out d' /\ out = [] /\
    line_to d' IRQ_KBD 0 /\ line_to d' IRQ_COM1 0 /\ line_to d' IRQ_IDE 1 /\ line_off d' IRQ_TIMER.
Proof.
  destruct (ioapic_routes board0 0 [(IRQ_KBD, 0); (IRQ_COM1, 0); (IRQ_IDE, 1)]) as (out & d' & E & _ & Ho & H).
  { repeat constructor; done. }
  exists out, d'. split; [exact E|]. split; [by apply Ho|].
  pose proof (H IRQ_KBD ltac:(done)). pose proof (H IRQ_COM1 ltac:(done)).
  pose proof (H IRQ_IDE ltac:(done)). pose proof (H IRQ_TIMER ltac:(done)). done.
Defined.

Lemma lapic_starts_witness :
  (exists d', lapicinit LBASE 1 board0 = Ok tt d' /\ la_reg d' TIMER = PERIODIC + (T_IRQ0 + IRQ_TIMER)) /\
  (exists s', lapicstartap LBASE 1 28672 (Hw (fun _ => 0) board0) = Ok tt s' /\
    la_sent (hw_dev s') = [(1, 50432); (1, 34048); (1, 1543); (1, 1543)] /\
    16 * (hw_mem s' (WRV + 2) + 256 * hw_mem s' (WRV + 3)) = 28672).
Proof.
  destruct (lapic_starts LBASE 1 board0 (fun _ => 0) 1 28672 ltac:(done) ltac:(done) ltac:(done) ltac:(done))
    as ((d1 & E1 & _ & E2 & _) & (s1 & F1 & F2 & _ & _ & F3 & _) & _).
  split; [by exists d1|]. exists s1. split; [exact F1|]. split; [rewrite F2; reflexivity|exact F3].
Defined.

(** ** The identity of a processor *)

Lemma find_cpu_spec a l k :
  match find_cpu a l k with
  | Some i => exists j, i = k + Z.of_nat j /\ l !! j = Some a /\ a ∉ take j l
  | None => a ∉ l
  end.
Proof.
  revert k. induction l as [|x l IH]; intros k; cbn [find_cpu]; [apply not_elem_of_nil|].
  destruct (x =? a) eqn:E; b2p; [subst; exists 0%nat; split_and!; [lia|done|apply not_elem_of_nil]|].
  specialize (IH (k + 1)). destruct (find_cpu a l (k + 1)) as [i|].
  - destruct IH as (j & -> & Hj & Hf). exists (S j). split_and!; [lia|done|]. cbn [take]. apply not_elem_of_cons. split; [congruence|done].
  - apply not_elem_of_cons. split; [congruence|done].
Qed.

Section MycpuSpec.
Context {D : Type} (base : Z) (slow : nat) `{Lapic D base slow}.

(** With interrupts off [mycpu] returns the first of the processors [mpinit]
    found whose APIC id is this processor's, and panics when there is none. *)
Lemma mycpu_spec (s : mpst D) eflags :
  base <> 0 -> lapic s = base -> Z.land eflags FL_IF = 0 ->
  let id := Z.shiftr (la_id (mp_dev s)) 24 in
  let known := take (Z.to_nat (ncpu s)) (cpus s) in
  match mycpu eflags s with
  | Ok i s' => exists j, i = Z.of_nat j /\ known !! j = Some id /\ (id ∉ take j known) /\ cpus s' = cpus s /\ ncpu s' = ncpu s
  | Panic msg => msg = "unknown apicid\n" /\ id ∉ known
  | Blocked _ => False
  end.
Proof.
  intros Hb Hl He id known. set (w := LView (la_reg (mp_dev s)) (la_sent (mp_dev s)) (la_eois (mp_dev s)) (la_id (mp_dev s)) (la_version (mp_dev s))).
  destruct (runs_id base slow w (mp_dev s)) as (d' & E & _); [done|].
  unfold mycpu. rewrite He. unfold truth at 1. cbn [negb Z.eqb]. unfold bind at 1, gets. rewrite Hl.
  unfold zoom, lapicid, truth. rewrite (proj2 (Z.eqb_neq _ _) Hb). cbn [negb]. unfold bind. rewrite E. cbn [lv_id w ncpu cpus].
  fold id. unfold ret at 1. cbn [ncpu cpus]. fold known. pose proof (find_cpu_spec id known 0) as Hf.
  destruct (find_cpu id known 0) as [i|]; [|done]. destruct Hf as (j & -> & Hj & Hk). by exists j.
Qed.
End MycpuSpec.
