(* ===== verification/Ide.v ===== *)
(** The disk driver of the default kernel: ide.c.

    The driver keeps a queue of buffers, linked through [qnext]; the first is
    the request in the drive.  [iderw] appends its buffer, starts the drive if
    the queue was empty, and sleeps until the interrupt handler [ideintr] has
    served the buffer.  Each piece that holds [idelock] is one atomic step:
    [iderw_enter] up to the loop, [iderw_test] one turn of the loop, and
    [ideintr].  [asleep] holds the buffers whose [iderw] sleeps.

    The driver is shown to implement the memory disk driver of Bio.v, on which
    the buffer cache, the log and the file system are proved: a request takes
    effect as memide.c's [iderw] does, in the order of the queue. *)
From stdpp Require Import base numbers list strings relations.
From Stdlib Require Import ZArith Lia.
From S2P Require Import Prelude Params Bio Ports Apic.

Local Open Scope list_scope.
Local Open Scope Z_scope.
Local Open Scope kernel_scope.

Definition IDE_BSY : Z := 128.
Definition IDE_DRDY : Z := 64.
Definition IDE_DF : Z := 32.
Definition IDE_ERR : Z := 1.
Definition IDE_CMD_READ : Z := 32.
Definition IDE_CMD_WRITE : Z := 48.
Definition IDE_CMD_RDMUL : Z := 196.
Definition IDE_CMD_WRMUL : Z := 197.

Record ide (D : Type) := Ide {
  i_bufs : list buf; i_qnext : list (option nat); idequeue : option nat; havedisk1 : bool; i_dev : D; asleep : list nat
}.
Arguments Ide {D}.
Arguments i_bufs {D} _.
Arguments i_qnext {D} _.
Arguments idequeue {D} _.
Arguments havedisk1 {D} _.
Arguments i_dev {D} _.
Arguments asleep {D} _.

Section Code.
Context {D : Type} `{AtaDisk D}.
Abbreviation K := (M (ide D)).

Definition set_buf (i : nat) (f : buf -> buf) (s : ide D) : ide D :=
  Ide (alter f i (i_bufs s)) (i_qnext s) (idequeue s) (havedisk1 s) (i_dev s) (asleep s).
Definition set_qnext (i : nat) (v : option nat) (s : ide D) : ide D :=
  Ide (i_bufs s) (<[i := v]> (i_qnext s)) (idequeue s) (havedisk1 s) (i_dev s) (asleep s).
Definition set_queue (v : option nat) (s : ide D) : ide D :=
  Ide (i_bufs s) (i_qnext s) v (havedisk1 s) (i_dev s) (asleep s).
Definition set_disk1 (v : bool) (s : ide D) : ide D := Ide (i_bufs s) (i_qnext s) (idequeue s) v (i_dev s) (asleep s).
Definition set_dev (d : D) (s : ide D) : ide D := Ide (i_bufs s) (i_qnext s) (idequeue s) (havedisk1 s) d (asleep s).
Definition set_asleep (l : list nat) (s : ide D) : ide D := Ide (i_bufs s) (i_qnext s) (idequeue s) (havedisk1 s) (i_dev s) l.

Definition the_buf (i : nat) (s : ide D) : buf := nthd buf0 (i_bufs s) i.
Definition next_of (i : nat) (s : ide D) : option nat := nthd None (i_qnext s) i.
Definition port {A} (m : M D A) : K A := zoom i_dev set_dev m.

Definition idewait (checkerr : bool) : K Z :=
  r ← port wait_status;
  if checkerr && negb (Z.land r (Z.lor IDE_DF IDE_ERR) =? 0) then ret (-1) else ret 0.

(** The loop that looks for the second disk. *)
Fixpoint probe (n : nat) : K unit :=
  match n with
  | O => ret tt
  | S n' => r ← port (inb 503); if negb (r =? 0) then modify (set_disk1 true) else probe n'
  end.

Definition ideinit `{!Mmio D} (ncpu : Z) : K unit :=
  port (ioapicenable IRQ_IDE (ncpu - 1));;
  idewait false;;
  port (outb 502 (Z.lor 224 (Z.shiftl 1 4)));;
  probe 1000;;
  port (outb 502 (Z.lor 224 (Z.shiftl 0 4))).

Definition idestart (o : option nat) : K unit :=
  match o with
  | None => panic "idestart"
  | Some i =>
      b ← gets (the_buf i);
      if FSSIZE <=? b_blockno b then panic "incorrect blockno"
      else
        let sector_per_block := BSIZE / SECTOR_SIZE in
        let sector := i32 (b_blockno b * sector_per_block) in
        let read_cmd := if sector_per_block =? 1 then IDE_CMD_READ else IDE_CMD_RDMUL in
        let write_cmd := if sector_per_block =? 1 then IDE_CMD_WRITE else IDE_CMD_WRMUL in
        if 255 <? sector_per_block then panic "idestart"
        else
          idewait false;;
          port (outb 1014 0);;
          port (outb 498 sector_per_block);;
          port (outb 499 (Z.land sector 255));;
          port (outb 500 (Z.land (Z.shiftr sector 8) 255));;
          port (outb 501 (Z.land (Z.shiftr sector 16) 255));;
          port (outb 502 (Z.lor (Z.lor 224 (Z.shiftl (Z.land (b_dev b) 1) 4)) (Z.land (Z.shiftr sector 24) 15)));;
          if truth (Z.land (b_flags b) B_DIRTY) then
            port (outb 503 write_cmd);;
            port (outsl (b_data b) (BSIZE / 4))
          else port (outb 503 read_cmd)
  end.

Definition wakeup_buf (i : nat) : K unit := modify (fun s => set_asleep (filter (fun j => j <> i) (asleep s)) s).

Definition ideintr : K unit :=
  q ← gets idequeue;
  match q with
  | None => ret tt
  | Some i =>
      nx ← gets (next_of i);
      modify (set_queue nx);;
      b ← gets (the_buf i);
      (if Z.land (b_flags b) B_DIRTY =? 0 then
         r ← idewait true;
         if 0 <=? r then data ← port (insl (BSIZE / 4)); modify (set_buf i (set_data data)) else ret tt
       else ret tt);;
      modify (set_buf i (fun b => set_flags (Z.lor (b_flags b) B_VALID) b));;
      modify (set_buf i (fun b => set_flags (Z.land (b_flags b) (Z.lnot B_DIRTY)) b));;
      wakeup_buf i;;
      q ← gets idequeue;
      match q with None => ret tt | Some _ => idestart q end
  end.

(** The link the queue ends with: the variable [idequeue] ([None]) or the
    [qnext] of a buffer. *)
Fixpoint last_link (fuel : nat) (pp : option nat) : K (option nat) :=
  match fuel with
  | O => blocked "queue"
  | S f =>
      v ← gets (fun s => match pp with None => idequeue s | Some j => next_of j s end);
      match v with None => ret pp | Some j => last_link f (Some j) end
  end.

(** [(b->flags & (B_VALID|B_DIRTY)) == B_VALID] *)
Definition synced (b : buf) : bool := Z.land (b_flags b) (Z.lor B_VALID B_DIRTY) =? B_VALID.

Definition iderw_enter (pid : Z) (i : nat) : K unit :=
  b ← gets (the_buf i);
  h ← gets havedisk1;
  if negb (holdingsleep pid (b_lock b)) then panic "iderw: buf not locked"
  else if synced b then panic "iderw: nothing to do"
  else if negb (b_dev b =? 0) && negb h then panic "iderw: ide disk 1 not present"
  else
    modify (set_qnext i None);;
    n ← gets (fun s => length (i_bufs s));
    pp ← last_link (S n) None;
    modify (match pp with None => set_queue (Some i) | Some j => set_qnext j (Some i) end);;
    q ← gets idequeue;
    if bool_decide (q = Some i) then idestart (Some i) else ret tt.

(** A turn of the loop that waits for the request to finish: sleep, or leave
    it. *)
Definition iderw_test (i : nat) : K bool :=
  b ← gets (the_buf i);
  if negb (synced b) then modify (fun s => set_asleep (i :: asleep s) s);; ret false else ret true.
End Code.

Section Spec.
Context {D : Type} `{AtaDisk D}.
Implicit Types (s : ide D) (i : nat).

(** ** Starting the drive *)

(** The command for a buffer: its block is eight sectors. *)
Definition request (b : buf) : command :=
  if truth (Z.land (b_flags b) B_DIRTY) then Written (Z.land (b_dev b) 1) (8 * b_blockno b) (b_data b)
  else Reading (Z.land (b_dev b) 1) (8 * b_blockno b) 8.

Lemma wp_port {A} (m : M D A) Q E s : wp m (fun a d => Q a (set_dev d s)) E (i_dev s) -> wp (port m) Q E s.
Proof. apply wp_zoom. Qed.

Lemma idewait_wp e s Q E :
  (forall d r, same_disk (i_dev s) d -> ata_busy d = O -> r = (if e && ata_failed (i_dev s) then -1 else 0) -> Q r (set_dev d s)) ->
  wp (idewait e) Q E s.
Proof.
  intros HQ. apply wp_bind, wp_port, wait_wp. intros r d Hd Hb Hr. change (Z.lor IDE_DF IDE_ERR) with 33.
  destruct e; cbn [andb]; [|apply wp_ret; by apply HQ]. destruct (Z.land r 33 =? 0) eqn:E1; cbn [negb]; b2p; apply wp_ret, HQ; try done.
  - by rewrite (proj1 Hr E1).
  - destruct (ata_failed (i_dev s)); [done|]. by destruct (E1 (proj2 Hr eq_refl)).
Qed.

(** A register of the ready drive. *)
Lemma port_out_wp p v s Q E : 498 <= p <= 502 \/ p = 1014 -> ata_busy (i_dev s) = O ->
  (forall d, ata_sector d = ata_sector (i_dev s) -> ata_task d = set_task p (u8 v) (ata_task (i_dev s)) -> ata_busy d = O -> Q tt (set_dev d s)) ->
  wp (port (outb p v)) Q E s.
Proof. intros Hp Hb HQ. by apply wp_port, outb_wp. Qed.

(** The task file that [idestart] writes names the sectors of the block. *)
Lemma task_names blockno v t : 0 <= blockno < FSSIZE -> 0 <= v < 2 ->
  let sector := i32 (blockno * 8) in
  let t' := set_task 502 (u8 (Z.lor (Z.lor 224 (Z.shiftl v 4)) (Z.land (Z.shiftr sector 24) 15)))
    (set_task 501 (u8 (Z.land (Z.shiftr sector 16) 255)) (set_task 500 (u8 (Z.land (Z.shiftr sector 8) 255))
      (set_task 499 (u8 (Z.land sector 255)) (set_task 498 (u8 8) t)))) in
  t_drive t' = v /\ t_lba t' = 8 * blockno /\ t_count t' = 8.
Proof.
  intros Hb Hv. cbv zeta. unfold FSSIZE in Hb. rewrite (i32_small (blockno * 8)) by lia. cbn [set_task Z.eqb Pos.eqb t_count t_lba0 t_lba1 t_lba2 t_device].
  unfold t_drive, t_lba. cbn [t_count t_lba0 t_lba1 t_lba2 t_device].
  assert (Hx : Z.land (Z.shiftr (blockno * 8) 24) 15 = (blockno * 8 / 2 ^ 24) mod 2 ^ 4) by (rewrite Z.shiftr_div_pow2 by lia; apply (Z.land_ones _ 4); lia).
  destruct (device_byte v ((blockno * 8 / 2 ^ 24) mod 2 ^ 4) Hv ltac:(apply Z.mod_pos_bound; lia)) as [H1 H2]. rewrite Hx. split; [done|]. split; [|done].
  rewrite H2, !land_255, !Z.shiftr_div_pow2, !u8_mod, !Z.mod_mod by lia. rewrite lba_bytes by lia. lia.
Qed.

Lemma land_1_range x : 0 <= Z.land x 1 < 2.
Proof. pose proof (Z.land_ones x 1 ltac:(lia)) as H1. change (Z.ones 1) with 1 in H1. rewrite H1. apply Z.mod_pos_bound. lia. Qed.

Lemma idestart_wp i b s Q E : the_buf i s = b -> 0 <= b_blockno b < FSSIZE -> length (b_data b) = bsize ->
  (forall d, ata_sector d = ata_sector (i_dev s) -> ata_command d = request b -> Q tt (set_dev d s)) -> wp (idestart (Some i)) Q E s.
Proof.
  intros Hb Hn Hl HQ. unfold idestart. apply wp_bind, wp_gets. rewrite Hb. destruct (FSSIZE <=? b_blockno b) eqn:En; b2p; [lia|].
  change (BSIZE / SECTOR_SIZE) with 8. cbv zeta. change (8 =? 1) with false. change (255 <? 8) with false. cbv iota.
  apply wp_bind, idewait_wp. intros d0 r (S0 & T0 & _) B0 _.
  apply wp_bind, port_out_wp; [by right|done|]. intros d1 S1 T1 B1. cbn [i_dev set_dev] in S1, T1.
  apply wp_bind, port_out_wp; [left; lia|done|]. intros d2 S2 T2 B2. cbn [i_dev set_dev] in S2, T2.
  apply wp_bind, port_out_wp; [left; lia|done|]. intros d3 S3 T3 B3. cbn [i_dev set_dev] in S3, T3.
  apply wp_bind, port_out_wp; [left; lia|done|]. intros d4 S4 T4 B4. cbn [i_dev set_dev] in S4, T4.
  apply wp_bind, port_out_wp; [left; lia|done|]. intros d5 S5 T5 B5. cbn [i_dev set_dev] in S5, T5.
  apply wp_bind, port_out_wp; [left; lia|done|]. intros d6 S6 T6 B6. cbn [i_dev set_dev] in S6, T6.
  rewrite T5, T4, T3, T2 in T6. destruct (task_names (b_blockno b) (Z.land (b_dev b) 1) (ata_task d1) Hn (land_1_range _)) as (N1 & N2 & N3).
  cbv zeta in N1, N2, N3. rewrite <- T6 in N1, N2, N3.
  assert (Hs : ata_sector d6 = ata_sector (i_dev s)) by congruence.
  unfold request in HQ. destruct (truth (Z.land (b_flags b) B_DIRTY)).
  - apply wp_bind, wp_port. unfold wp at 1, outb. destruct (ata_issue d6 (u8 IDE_CMD_WRMUL) B6) as [I1 I2].
    change (u8 IDE_CMD_WRMUL) with 197 in *. unfold issue in I2. change ((197 =? 32) || (197 =? 196)) with false in I2. change (197 =? 197) with true in I2. cbv iota in I2.
    rewrite N1, N2, N3 in I2. cbn [i_dev set_dev]. apply wp_port. unfold wp, outsl. cbn [i_dev set_dev].
    destruct (ata_outsl _ _ _ _ (b_data b) I2) as [O1 O2]; [rewrite Hl, bsize_Z; reflexivity|].
    rewrite take_ge by (rewrite Hl, bsize_nat; reflexivity). apply (HQ (p_outsl (b_data b) (p_out 503 197 d6))); congruence.
  - apply wp_port. unfold wp, outb. destruct (ata_issue d6 (u8 IDE_CMD_RDMUL) B6) as [I1 I2]. cbn [i_dev set_dev].
    change (u8 IDE_CMD_RDMUL) with 196 in *. unfold issue in I2. change ((196 =? 32) || (196 =? 196)) with true in I2. cbv iota in I2. rewrite N1, N2, N3 in I2.
    apply (HQ (p_out 503 196 d6)); congruence.
Qed.

(** ** The queue *)

(** [l] is the list of buffers linked from [o]. *)
Fixpoint chain (qn : list (option nat)) (o : option nat) (l : list nat) : Prop :=
  match l with
  | [] => o = None
  | i :: l' => o = Some i /\ (i < length qn)%nat /\ chain qn (nthd None qn i) l'
  end.

Lemma chain_insert qn o (l : list nat) i v : i ∉ l -> chain qn o l -> chain (<[i := v]> qn) o l.
Proof.
  revert o. induction l as [|j l IH]; intros o Hi; cbn [chain]; [done|]. apply not_elem_of_cons in Hi as [Hj Hi].
  intros (-> & Hlt & Hc). rewrite length_insert, nthd_insert_ne by done. auto.
Qed.

Lemma chain_snoc qn o l i j : chain qn o l -> last l = Some j -> NoDup l -> i ∉ l -> (i < length qn)%nat -> nthd None qn i = None ->
  chain (<[j := Some i]> qn) o (l ++ [i]).
Proof.
  revert o. induction l as [|k l IH]; intros o; [done|]. cbn [chain app]. intros (-> & Hk & Hc) Hj Hd Hi Hlt Hn.
  apply NoDup_cons in Hd as [Hkl Hd]. apply not_elem_of_cons in Hi as [Hik Hi]. rewrite length_insert. split; [done|]. split; [done|].
  destruct l as [|k' l].
  - injection Hj as ->. rewrite nthd_insert_eq by done. cbn. rewrite length_insert, nthd_insert_ne by congruence. done.
  - rewrite nthd_insert_ne by (intros ->; apply Hkl; apply list_elem_of_lookup_2 with (i := pred (length (k' :: l))); by rewrite <- last_lookup).
    by apply IH.
Qed.

Lemma chain_lt qn o l i : chain qn o l -> i ∈ l -> (i < length qn)%nat.
Proof. revert o. induction l as [|j l IH]; intros o; [by intros _ ?%elem_of_nil|]. intros (_ & Hj & Hc) [->|Hi]%elem_of_cons; [done|by eapply IH]. Qed.

Lemma chain_short qn o l : chain qn o l -> NoDup l -> (length l <= length qn)%nat.
Proof.
  intros Hc Hd. rewrite <- (length_seq (length qn) 0). apply submseteq_length, NoDup_submseteq; [done|].
  intros i Hi. apply elem_of_seq. pose proof (chain_lt _ _ _ _ Hc Hi). lia.
Qed.

Lemma last_link_wp fuel : forall pp l s Q E, chain (i_qnext s) (match pp with None => idequeue s | Some j => next_of j s end) l -> (length l < fuel)%nat ->
  Q (match last l with Some j => Some j | None => pp end) s -> wp (last_link fuel pp) Q E s.
Proof.
  induction fuel as [|fuel IH]; intros pp l s Q E Hc Hf HQ; [lia|]. cbn [last_link]. apply wp_bind, wp_gets.
  destruct l as [|i l]; cbn [chain] in Hc.
  - rewrite Hc. by apply wp_ret.
  - destruct Hc as (-> & _ & Hc). apply (IH (Some i) l); [done|cbn in Hf; lia|]. destruct l as [|j l]; [done|].
    change (last (i :: j :: l)) with (last (j :: l)) in HQ. destruct (last (j :: l)) eqn:El; [done|]. by apply last_None in El.
Qed.

(** Appending a buffer. *)
Lemma append_wp (k : M (ide D) unit) i l s Q E : chain (i_qnext s) (idequeue s) l -> NoDup l -> i ∉ l -> (i < length (i_qnext s))%nat -> length (i_qnext s) = length (i_bufs s) ->
  (forall qn o, chain qn o (l ++ [i]) -> length qn = length (i_qnext s) -> o = Some (default i (head l)) ->
     wp k Q E (Ide (i_bufs s) qn o (havedisk1 s) (i_dev s) (asleep s))) ->
  wp (modify (set_qnext i None);;
      n ← gets (fun s => length (i_bufs s));
      pp ← last_link (S n) None;
      modify (match pp with None => set_queue (Some i) | Some j => set_qnext j (Some i) end);; k) Q E s.
Proof.
  intros Hc Hd Hi Hlt Hlen HQ. apply wp_bind, wp_modify, wp_bind, wp_gets, wp_bind. pose proof (chain_short _ _ _ Hc Hd) as Hsh.
  pose proof (chain_insert _ _ _ i None Hi Hc) as Hc'.
  apply (last_link_wp _ None l); [exact Hc'|cbn; lia|]. apply wp_bind, wp_modify.
  assert (Hn : nthd None (<[i := None]> (i_qnext s)) i = None) by (by apply nthd_insert_eq).
  destruct (last l) as [j|] eqn:El.
  - apply HQ; [|cbn; by rewrite !length_insert|].
    + cbn [i_qnext set_qnext idequeue]. apply chain_snoc; try done. by rewrite length_insert.
    + destruct l as [|j' l]; [done|]. destruct Hc as (Hq & _). exact Hq.
  - apply last_None in El as ->. apply HQ; [|cbn; by rewrite length_insert|done]. cbn. rewrite length_insert. done.
Qed.

(** ** The disk as blocks *)

(** The blocks of drive 1, as memide.c has them. *)
Definition block_of (d : D) (b : Z) : block := sectors_from (ata_sector d 1) (8 * b) 8.
Definition blocks (d : D) : list block := block_of d <$> seqZ 0 FSSIZE.

Lemma blocks_len d : length (blocks d) = Z.to_nat FSSIZE.
Proof. unfold blocks. by rewrite length_fmap, length_seqZ. Qed.

Lemma blocks_lookup d (b : Z) : 0 <= b < FSSIZE -> blocks d !! Z.to_nat b = Some (block_of d b).
Proof. intros Hb. unfold blocks. rewrite list_lookup_fmap, (lookup_seqZ_lt _ _ _) by lia. cbn. f_equal. f_equal. lia. Qed.

Lemma blocks_same d d' : ata_sector d' = ata_sector d -> blocks d' = blocks d.
Proof. intros Hs. unfold blocks, block_of. by rewrite Hs. Qed.

Lemma chunks (data : list Z) n : forall a, concat ((fun k => take 512 (drop (512 * k) data)) <$> seq a n) = take (512 * n) (drop (512 * a) data).
Proof.
  induction n as [|n IH]; intros a; [done|]. cbn [seq fmap list_fmap concat]. rewrite IH. replace (512 * S a)%nat with (512 * a + 512)%nat by lia.
  rewrite <- drop_drop, take_take_drop. f_equal. lia.
Qed.

(** A block written is the block read. *)
Lemma store_read l data (f : Z -> list Z) : length data = bsize -> sectors_from (store_sectors l data f) l 8 = data.
Proof.
  intros Hl. assert (Hn : Z.of_nat (length data) / SECTOR_SIZE = 8) by (by rewrite Hl, bsize_Z).
  transitivity (concat ((fun k => take 512 (drop (512 * k) data)) <$> seq 0 8)).
  - unfold sectors_from, seqZ. rewrite <- list_fmap_compose. f_equal. apply list_fmap_ext. intros j k [-> Hj]%lookup_seq. unfold store_sectors, compose. rewrite Hn.
    rewrite (proj2 (Z.leb_le _ _)), (proj2 (Z.ltb_lt _ _)) by lia. cbn [andb]. do 2 f_equal. lia.
  - rewrite chunks. rewrite Nat.mul_0_r, drop_0. apply take_ge. rewrite Hl, bsize_nat. reflexivity.
Qed.

Lemma store_other l data (f : Z -> list Z) l' : length data = bsize -> l' + 8 <= l \/ l + 8 <= l' -> sectors_from (store_sectors l data f) l' 8 = sectors_from f l' 8.
Proof.
  intros Hl Ho. assert (Hn : Z.of_nat (length data) / SECTOR_SIZE = 8) by (by rewrite Hl, bsize_Z).
  unfold sectors_from. f_equal. apply list_fmap_ext. intros j x [-> Hj]%lookup_seqZ. unfold store_sectors. rewrite Hn.
  destruct (_ && _) eqn:E; [|done]. apply andb_true_iff in E as [E1 E2]. b2p. lia.
Qed.

(** The end of a write stores its block. *)
Lemma blocks_finish d b data : ata_command d = Written 1 (8 * b) data -> 0 <= b < FSSIZE -> length data = bsize ->
  blocks (ata_finish d) = <[Z.to_nat b := data]> (blocks d).
Proof.
  intros Hc Hb Hl. pose proof (ata_finished d) as [_ Hf]. rewrite Hc in Hf.
  assert (Hs : forall x, block_of (ata_finish d) x = sectors_from (store_sectors (8 * b) data (ata_sector d 1)) (8 * x) 8).
  { intros x. unfold block_of, sectors_from. f_equal. apply list_fmap_ext. intros j y _. apply (Hf 1 y). }
  apply list_eq_same_length with (n := Z.to_nat FSSIZE); [by rewrite length_insert, blocks_len|apply blocks_len|].
  intros i x y Hi. replace i with (Z.to_nat (Z.of_nat i)) by lia. rewrite blocks_lookup, Hs by lia. intros [= <-].
  destruct (decide (Z.of_nat i = b)) as [->|Hne].
  - rewrite store_read, list_lookup_insert_eq by (done || rewrite blocks_len; lia). by intros [= <-].
  - rewrite store_other, list_lookup_insert_ne, blocks_lookup by (done || lia). by intros [= <-].
Qed.

Lemma blocks_idle d : (forall v l data, ata_command d <> Written v l data) -> blocks (ata_finish d) = blocks d.
Proof. intros Hc. apply blocks_same. pose proof (ata_finished d) as [_ Hf]. destruct (ata_command d); [done..|]. by destruct (Hc drive lba data). Qed.

(** ** Serving a request *)

Definition dirty_flag (b : buf) : bool := truth (Z.land (b_flags b) B_DIRTY).
(** A buffer after its request, when the disk holds [d] for it. *)
Definition served (d : block) (b : buf) : buf :=
  let b := if dirty_flag b then b else set_data d b in
  set_flags (Z.land (Z.lor (b_flags b) B_VALID) (Z.lnot B_DIRTY)) b.

(** A buffer that can be requested. *)
Record pending (b : buf) : Prop := Pending {
  pe_flags : synced b = false; pe_dev : b_dev b = 1; pe_block : 0 <= b_blockno b < FSSIZE; pe_data : length (b_data b) = bsize;
  pe_lock : truth (sl_locked (b_lock b)) = true
}.

Lemma alter_at (f : buf -> buf) (bs : list buf) i b : bs !! i = Some b -> alter f i bs = <[i := f b]> bs.
Proof.
  intros Hb. apply list_eq. intros j. destruct (decide (j = i)) as [->|Hj].
  - rewrite list_lookup_alter_eq, Hb, list_lookup_insert_eq; [done|]. by eapply lookup_lt_Some.
  - by rewrite list_lookup_alter_ne, list_lookup_insert_ne.
Qed.

Lemma the_buf_lookup i s : (i < length (i_bufs s))%nat -> i_bufs s !! i = Some (the_buf i s).
Proof. apply lookup_nthd. Qed.

Lemma ideintr_wp i nx s Q E : idequeue s = Some i -> next_of i s = nx -> nx <> Some i -> (i < length (i_bufs s))%nat ->
  pending (the_buf i s) -> (forall j, nx = Some j -> pending (the_buf j s)) ->
  ata_command (i_dev s) = request (the_buf i s) -> ata_failed (i_dev s) = false ->
  (forall d, ata_sector d = ata_sector (i_dev s) -> (forall j, nx = Some j -> ata_command d = request (the_buf j s)) ->
     Q tt (Ide (<[i := served (block_of (i_dev s) (b_blockno (the_buf i s))) (the_buf i s)]> (i_bufs s)) (i_qnext s) nx (havedisk1 s) d
            (filter (fun j => j <> i) (asleep s)))) ->
  wp ideintr Q E s.
Proof.
  intros Hq Hn Hni Hlt Hp Hpn Hc Hf HQ. unfold ideintr. apply wp_bind, wp_gets. rewrite Hq. apply wp_bind, wp_gets, wp_bind, wp_modify, wp_bind, wp_gets.
  rewrite Hn. change (the_buf i (set_queue nx s)) with (the_buf i s). set (b := the_buf i s) in *. pose proof (the_buf_lookup i s Hlt) as Hb. fold b in Hb.
  apply wp_bind.
  (* The rest, once the data is there. *)
  assert (Hrest : forall d, ata_sector d = ata_sector (i_dev s) -> forall b1, b1 = (if dirty_flag b then b else set_data (block_of (i_dev s) (b_blockno b)) b) ->
    wp (modify (set_buf i (fun b => set_flags (Z.lor (b_flags b) B_VALID) b));;
        modify (set_buf i (fun b => set_flags (Z.land (b_flags b) (Z.lnot B_DIRTY)) b));;
        wakeup_buf i;; q ← gets idequeue; match q with None => ret tt | Some _ => idestart q end) Q E
      (Ide (<[i := b1]> (i_bufs s)) (i_qnext s) nx (havedisk1 s) d (asleep s))).
  { intros d Hd b1 Hb1. apply wp_bind, wp_modify, wp_bind, wp_modify, wp_bind, wp_modify, wp_bind, wp_gets. unfold set_asleep, set_buf. cbn [i_bufs i_qnext idequeue havedisk1 i_dev asleep].
    assert (E1 : alter (fun b => set_flags (Z.land (b_flags b) (Z.lnot B_DIRTY)) b) i (alter (fun b => set_flags (Z.lor (b_flags b) B_VALID) b) i (<[i := b1]> (i_bufs s)))
      = <[i := served (block_of (i_dev s) (b_blockno b)) b]> (i_bufs s)).
    { assert (H1 : <[i := b1]> (i_bufs s) !! i = Some b1) by (by apply list_lookup_insert_eq).
      rewrite (alter_at _ _ _ _ H1), list_insert_insert_eq. rewrite (alter_at _ _ _ (set_flags (Z.lor (b_flags b1) B_VALID) b1)) by (by apply list_lookup_insert_eq).
      rewrite list_insert_insert_eq. f_equal. unfold served. by rewrite <- Hb1. }
    rewrite E1. destruct nx as [j|]; [|apply wp_ret; by apply HQ]. apply idestart_wp with (b := the_buf j s).
    - unfold the_buf, nthd. cbn. by rewrite list_lookup_insert_ne by congruence.
    - by apply (pe_block _ (Hpn j eq_refl)).
    - by apply (pe_data _ (Hpn j eq_refl)).
    - cbn [i_dev set_dev]. intros d' Hd' Hc'. apply HQ; [congruence|]. by intros j' [= <-]. }
  unfold dirty_flag, truth in Hrest. destruct (Z.land (b_flags b) B_DIRTY =? 0) eqn:Ed; cbn [negb] in Hrest.
  - apply wp_bind, idewait_wp. cbn [i_dev set_queue set_dev]. intros d r (S0 & _ & C0 & F0) B0 Hr. rewrite Hf in Hr. cbn in Hr. subst r.
    change (0 <=? 0) with true. cbv iota. apply wp_bind, wp_port. unfold wp at 1, insl. cbn [i_dev set_dev].
    assert (Hcd : ata_command d = Reading 1 (8 * b_blockno b) 8).
    { rewrite C0, Hc. unfold request, truth. rewrite Ed, (pe_dev _ Hp). reflexivity. }
    pose proof (ata_insl d _ _ _ Hcd B0 ltac:(congruence)) as Hi. change (Z.to_nat (128 * 8)) with (Z.to_nat (BSIZE / 4)) in Hi.
    destruct (p_insl (Z.to_nat (BSIZE / 4)) d) as [data d1]. destruct Hi as [-> S1]. cbn [fst snd]. apply wp_modify.
    unfold set_buf, set_dev, set_queue. cbn [i_bufs i_qnext idequeue havedisk1 asleep].
    replace (alter (set_data (sectors_from (ata_sector d 1) (8 * b_blockno b) 8)) i (i_bufs s)) with (<[i := set_data (block_of (i_dev s) (b_blockno b)) b]> (i_bufs s)).
    + apply (Hrest d1); [congruence|done].
    + unfold block_of. rewrite <- S0. by rewrite (alter_at _ _ _ _ Hb).
  - apply wp_ret. specialize (Hrest (i_dev s) eq_refl b eq_refl). rewrite list_insert_id in Hrest by done. exact Hrest.
Qed.

(** memide.c does the same to the buffer, and to the disk at once. *)
Lemma clear_unset f : Z.land f B_DIRTY = 0 -> Z.land (Z.lor f B_VALID) (Z.lnot B_DIRTY) = Z.lor f B_VALID.
Proof.
  intros Hf. rewrite Z.land_lor_distr_l. change (Z.land B_VALID (Z.lnot B_DIRTY)) with B_VALID. f_equal.
  rewrite <- Z.ldiff_land. apply Z.bits_inj. intros n. rewrite Z.ldiff_spec. apply (f_equal (fun x => Z.testbit x n)) in Hf.
  rewrite Z.land_spec, Z.bits_0 in Hf. destruct (Z.testbit f n), (Z.testbit B_DIRTY n); done.
Qed.

Lemma memide_serves bs i b l dk wr : bs !! i = Some b -> pending b -> length dk = Z.to_nat FSSIZE ->
  exists wr', iderw i (Bio bs l dk wr (sl_pid (b_lock b))) =
    Ok tt (Bio (<[i := served (nthd zero_block dk (Z.to_nat (b_blockno b))) b]> bs) l
      (if dirty_flag b then <[Z.to_nat (b_blockno b) := b_data b]> dk else dk) wr' (sl_pid (b_lock b))).
Proof.
  intros Hb [Hs Hd Hn Hl Hk] Hdk. unfold iderw, bind, gets, getbuf. cbn [bufs curpid disk]. rewrite (nthd_lookup _ _ _ _ Hb).
  unfold holdingsleep. rewrite Hk, Z.eqb_refl. cbn [andb negb]. unfold synced in Hs. rewrite Hs, Hd. change (1 =? 1) with true. cbn [negb].
  rewrite Hdk. replace (Z.of_nat (Z.to_nat FSSIZE) <=? b_blockno b) with false by (symmetry; apply Z.leb_gt; lia).
  unfold served, dirty_flag. destruct (truth (Z.land (b_flags b) B_DIRTY)) eqn:Et; unfold modify, upd, put_block; cbn [bufs lru disk writes curpid].
  - eexists. do 2 f_equal. rewrite (alter_at _ _ _ _ Hb). rewrite (alter_at _ _ _ (set_flags (Z.land (b_flags b) (Z.lnot B_DIRTY)) b)).
    + rewrite list_insert_insert_eq. f_equal. unfold set_flags. cbn. f_equal. by rewrite Z.land_lor_distr_l.
    + apply list_lookup_insert_eq. by eapply lookup_lt_Some.
  - eexists. do 2 f_equal. rewrite (alter_at _ _ _ _ Hb). erewrite alter_at by (apply list_lookup_insert_eq; by eapply lookup_lt_Some).
    rewrite list_insert_insert_eq. f_equal. unfold set_flags. cbn. f_equal. symmetry. apply clear_unset.
    unfold truth in Et. apply negb_false_iff, Z.eqb_eq in Et. done.
Qed.
End Spec.

(** ** Requests, interrupts and sleeping processes *)

Section System.
Context {D : Type} `{AtaDisk D}.

(** The driver, and the buffers whose [iderw] has not returned. *)
Record sys := Sys { drv : ide D; waiters : list nat }.

Inductive label := Req (pid : Z) (i : nat) | Intr | Stray | Wake (i : nat) | Other (i : nat) (b : buf).

(** A process calls [iderw] for a buffer nobody else waits for, since it holds
    its lock; the drive ends its command and interrupts; an interrupt comes
    while nothing is queued; a process that does not sleep tests its buffer;
    the rest of the kernel changes a buffer nobody waits for. *)
Inductive istep : label -> sys -> sys -> Prop :=
| st_req pid i s w r s' : (i < length (i_bufs s))%nat -> i ∉ w -> b_dev (the_buf i s) = 1 -> 0 <= b_blockno (the_buf i s) < FSSIZE ->
    bind (iderw_enter pid i) (fun _ => iderw_test i) s = Ok r s' -> istep (Req pid i) (Sys s w) (Sys s' (i :: w))
| st_intr s w s' : idequeue s <> None -> ata_failed (ata_finish (i_dev s)) = false ->
    ideintr (set_dev (ata_finish (i_dev s)) s) = Ok tt s' -> istep Intr (Sys s w) (Sys s' w)
| st_stray s w s' : idequeue s = None -> ideintr s = Ok tt s' -> istep Stray (Sys s w) (Sys s' w)
| st_wake i s w (r : bool) s' : i ∈ w -> i ∉ asleep s -> iderw_test i s = Ok r s' ->
    istep (Wake i) (Sys s w) (Sys s' (if r then filter (fun j => j <> i) w else w))
| st_other i b s w : i ∉ w -> length (b_data b) = bsize -> istep (Other i b) (Sys s w) (Sys (set_buf i (fun _ => b) s) w).

(** What the driver promises: requests wait in a queue, and the first of it is
    served as memide.c serves it, at once. *)
Record spec := Spec { sp_bufs : list buf; sp_disk : list block; sp_queue : list nat; sp_waiting : list nat }.
Inductive spec_step : label -> spec -> spec -> Prop :=
| sp_req pid i bs dk q w : i ∉ w -> spec_step (Req pid i) (Spec bs dk q w) (Spec bs dk (q ++ [i]) (i :: w))
| sp_serve i bs dk q w pid l wr wr' bs' dk' : iderw i (Bio bs l dk wr pid) = Ok tt (Bio bs' l dk' wr' pid) ->
    spec_step Intr (Spec bs dk (i :: q) w) (Spec bs' dk' q w)
| sp_return i bs dk q w : i ∈ w -> i ∉ q -> synced (nthd buf0 bs i) = true ->
    spec_step (Wake i) (Spec bs dk q w) (Spec bs dk q (filter (fun j => j <> i) w))
| sp_other i b bs dk q w : i ∉ w -> spec_step (Other i b) (Spec bs dk q w) (Spec (alter (fun _ => b) i bs) dk q w)
| sp_stray s : spec_step Stray s s.

Definition view_of (x : sys) (q : list nat) : spec := Spec (i_bufs (drv x)) (blocks (i_dev (drv x))) q (waiters x).

(** The invariant, for the queue [q]. *)
Record ide_inv (x : sys) (q : list nat) : Prop := IdeInv {
  di_len : length (i_qnext (drv x)) = length (i_bufs (drv x));
  di_chain : chain (i_qnext (drv x)) (idequeue (drv x)) q;
  di_nodup : NoDup q;
  di_disk1 : havedisk1 (drv x) = true;
  di_data : Forall (fun b => length (b_data b) = bsize) (i_bufs (drv x));
  di_queue : forall i, i ∈ q -> pending (the_buf i (drv x)) /\ i ∈ waiters x;
  di_done : forall i, i ∈ waiters x -> i ∉ q -> synced (the_buf i (drv x)) = true;
  di_asleep : forall i, i ∈ waiters x -> i ∈ asleep (drv x) <-> i ∈ q;
  di_sleepers : forall i, i ∈ asleep (drv x) -> i ∈ waiters x;
  di_command : forall i q', q = i :: q' -> ata_command (i_dev (drv x)) = request (the_buf i (drv x))
}.

(** *** A request *)

Lemma inv_not_queued x q i : ide_inv x q -> i ∉ waiters x -> i ∉ q.
Proof. intros Hi Hw Hq. by apply Hw, (di_queue _ _ Hi). Qed.

Lemma inv_first x q : ide_inv x q -> idequeue (drv x) = head q.
Proof. intros Hi. pose proof (di_chain _ _ Hi) as Hc. destruct q as [|i q]; [exact Hc|]. by destruct Hc. Qed.

(** The state when the buffer is queued and, if it is the first, in the
    drive. *)
Lemma inv_req s w q i qn o d : ide_inv (Sys s w) q -> i ∉ w -> pending (the_buf i s) -> chain qn o (q ++ [i]) -> length qn = length (i_qnext s) ->
  ata_sector d = ata_sector (i_dev s) -> ata_command d = (if decide (q = []) then request (the_buf i s) else ata_command (i_dev s)) ->
  let s' := Ide (i_bufs s) qn o (havedisk1 s) d (i :: asleep s) in
  ide_inv (Sys s' (i :: w)) (q ++ [i]) /\ view_of (Sys s' (i :: w)) (q ++ [i]) = Spec (i_bufs s) (blocks (i_dev s)) (q ++ [i]) (i :: w).
Proof.
  intros Hinv Hw Hp Hc Hl Hs Hcmd. pose proof (inv_not_queued _ _ _ Hinv Hw) as Hq. destruct Hinv as [I1 I2 I3 I4 I5 I6 I7 I8 I9 I10]. cbn [drv waiters] in *.
  split; [|unfold view_of; cbn; by rewrite (blocks_same _ _ Hs)]. split; cbn [drv waiters i_bufs i_qnext idequeue havedisk1 i_dev asleep].
  - congruence.
  - done.
  - apply NoDup_app. split; [done|]. split; [|apply NoDup_singleton]. intros j Hj Hj'%list_elem_of_singleton. by subst.
  - done.
  - done.
  - intros j [Hj|Hj%list_elem_of_singleton]%elem_of_app; [destruct (I6 j Hj); by split; [|right]|]. subst j. by split; [|left].
  - intros j [->|Hj]%elem_of_cons Hn; [destruct Hn; apply elem_of_app; right; by left|]. apply (I7 j Hj). intros ?. apply Hn, elem_of_app. by left.
  - intros j Hj. rewrite elem_of_cons, elem_of_app, list_elem_of_singleton. destruct (decide (j = i)) as [->|Hne]; [tauto|].
    apply elem_of_cons in Hj as [?|Hj]; [done|]. rewrite (I8 j Hj). tauto.
  - intros j [->|Hj]%elem_of_cons; [by left|right; auto].
  - intros j q' Hq'. destruct (decide (q = [])) as [->|Hne].
    + injection Hq' as <- _. exact Hcmd.
    + destruct q as [|k q]; [done|]. injection Hq' as <- _. rewrite Hcmd. by apply (I10 k q).
Qed.

Lemma req_wp s w q pid i : ide_inv (Sys s w) q -> (i < length (i_bufs s))%nat -> i ∉ w -> b_dev (the_buf i s) = 1 -> 0 <= b_blockno (the_buf i s) < FSSIZE ->
  wp (bind (iderw_enter pid i) (fun _ => iderw_test i))
     (fun r s' => r = false /\ ide_inv (Sys s' (i :: w)) (q ++ [i]) /\ view_of (Sys s' (i :: w)) (q ++ [i]) = Spec (i_bufs s) (blocks (i_dev s)) (q ++ [i]) (i :: w))
     (fun _ => ~ (holdingsleep pid (b_lock (the_buf i s)) = true /\ synced (the_buf i s) = false)) s.
Proof.
  intros Hinv Hlt Hw Hd Hb. pose proof (inv_not_queued _ _ _ Hinv Hw) as Hq. match goal with |- wp _ ?Q0 ?E0 _ => set (Q := Q0); set (E := E0) end.
  apply wp_bind. unfold iderw_enter. apply wp_bind, wp_gets, wp_bind, wp_gets. set (b := the_buf i s) in *. destruct (holdingsleep pid (b_lock b)) eqn:Eh; cbn [negb]; [|apply wp_panic; unfold E; intros [? _]; congruence].
  destruct (synced b) eqn:Es; [apply wp_panic; unfold E; intros [_ ?]; congruence|]. rewrite Hd, (di_disk1 _ _ Hinv : havedisk1 s = true). change (1 =? 0) with false. cbn [negb andb].
  assert (Hp : pending b).
  { split; [done|done|done| |].
    - apply (Forall_lookup_1 _ _ i b (di_data _ _ Hinv)). by apply the_buf_lookup.
    - unfold holdingsleep in Eh. by apply andb_true_iff in Eh as [? _]. }
  apply (append_wp _ i q); [exact (di_chain _ _ Hinv)|exact (di_nodup _ _ Hinv)|done|rewrite (di_len _ _ Hinv : length (i_qnext s) = _); done|exact (di_len _ _ Hinv)|].
  intros qn o Hc Hl Ho. apply wp_bind, wp_gets. cbn [idequeue].
  assert (Htest : forall d, ata_sector d = ata_sector (i_dev s) -> ata_command d = (if decide (q = []) then request b else ata_command (i_dev s)) ->
    wp (iderw_test i) Q E (Ide (i_bufs s) qn o (havedisk1 s) d (asleep s))).
  { intros d Hs Hcmd. unfold iderw_test. apply wp_bind, wp_gets. change (the_buf i _) with b. rewrite Es. cbn [negb].
    apply wp_bind, wp_modify, wp_ret. split; [done|]. by apply (inv_req s w q i qn o d). }
  subst o. destruct q as [|k q].
  - cbn [head default]. rewrite bool_decide_true by done. apply (idestart_wp i b); [done|done|by apply Hp|]. intros d Hs Hcmd. cbn [i_dev] in Hs. by apply (Htest d).
  - cbn [head default]. rewrite bool_decide_false by (intros [= ->]; apply Hq; by left). apply wp_ret. by apply (Htest (i_dev s)).
Qed.

(** *** The interrupt *)

Lemma served_synced d b : synced (served d b) = true.
Proof.
  unfold synced, served. cbn [b_flags set_flags]. set (f := b_flags _). clearbody f. apply Z.eqb_eq.
  rewrite <- Z.land_assoc. change (Z.land (Z.lnot B_DIRTY) (Z.lor B_VALID B_DIRTY)) with B_VALID.
  apply Z.bits_inj. intros n. rewrite Z.land_spec, Z.lor_spec. by destruct (Z.testbit f n), (Z.testbit B_VALID n).
Qed.

Lemma served_same d b : b_data (served d b) = b_data (if dirty_flag b then b else set_data d b).
Proof. done. Qed.

Lemma block_of_len d b : length (block_of d b) = bsize.
Proof.
  unfold block_of, sectors_from. assert (Hg : forall (xs : list Z), length (concat (ata_sector d 1 <$> xs)) = (512 * length xs)%nat).
  { induction xs as [|x xs IH]; [done|]. cbn [fmap list_fmap concat]. rewrite length_app, IH, ata_length. cbn [length]. lia. }
  rewrite Hg, length_seqZ, bsize_nat. reflexivity.
Qed.

(** The queue without its first buffer, which was served. *)
Lemma inv_served s w q i d : ide_inv (Sys s w) (i :: q) -> (forall j, head q = Some j -> ata_command d = request (the_buf j s)) ->
  let b := served (block_of (ata_finish (i_dev s)) (b_blockno (the_buf i s))) (the_buf i s) in
  ide_inv (Sys (Ide (<[i := b]> (i_bufs s)) (i_qnext s) (head q) (havedisk1 s) d (filter (fun j => j <> i) (asleep s))) w) q.
Proof.
  intros [I1 I2 I3 I4 I5 I6 I7 I8 I9 I10] Hd b. cbn [drv waiters] in *. destruct I2 as (_ & Hlt & Hc). apply NoDup_cons in I3 as [Hiq Hnd].
  rewrite I1 in Hlt. destruct (I6 i ltac:(by left)) as [Hp Hiw].
  assert (Hoth : forall j, j <> i -> nthd buf0 (<[i := b]> (i_bufs s)) j = the_buf j s) by (intros j Hj; by apply nthd_insert_ne).
  split; cbn [drv waiters i_bufs i_qnext idequeue havedisk1 i_dev asleep]; unfold the_buf; cbn [i_bufs].
  - by rewrite length_insert.
  - by destruct q as [|j q]; [|destruct Hc as (_ & Hj & Hc)].
  - done.
  - done.
  - apply Forall_insert; [done|]. unfold b. rewrite served_same. destruct (dirty_flag _); [apply Hp|apply block_of_len].
  - intros j Hj. destruct (I6 j ltac:(by right)) as [Hpj Hjw]. split; [|done]. rewrite Hoth; [done|]. by intros ->.
  - intros j Hj Hn. destruct (decide (j = i)) as [->|Hne].
    + rewrite nthd_insert_eq by done. apply served_synced.
    + rewrite Hoth by done. apply (I7 j Hj). by intros [?|?]%elem_of_cons.
  - intros j Hj. rewrite list_elem_of_filter, (I8 j Hj), elem_of_cons. destruct (decide (j = i)) as [->|Hne]; [|tauto]. split; [by intros [? _]|done].
  - intros j [_ Hj]%list_elem_of_filter. auto.
  - intros j q' ->. rewrite (Hd j eq_refl), Hoth; [done|]. intros ->. apply Hiq. by left.
Qed.

Lemma intr_wp s w q i : ide_inv (Sys s w) (i :: q) -> ata_failed (ata_finish (i_dev s)) = false ->
  wp ideintr (fun _ s' => ide_inv (Sys s' w) q /\ spec_step Intr (view_of (Sys s w) (i :: q)) (view_of (Sys s' w) q)) (fun _ => False)
    (set_dev (ata_finish (i_dev s)) s).
Proof.
  intros Hinv Hf. destruct (di_queue _ _ Hinv i ltac:(by left)) as [Hp _]. cbn [drv] in Hp. pose proof (di_chain _ _ Hinv) as (Hq & Hlt & Hc). cbn [drv] in Hq, Hlt, Hc.
  rewrite (di_len _ _ Hinv : length (i_qnext s) = _) in Hlt.
  assert (Hnx : next_of i s = head q) by (destruct q; [exact Hc|by destruct Hc]).
  pose proof (di_nodup _ _ Hinv) as Hnd. apply NoDup_cons in Hnd as [Hiq _]. pose proof (di_command _ _ Hinv i q eq_refl) as Hcmd. cbn [drv] in Hcmd.
  assert (Hqp : forall j, head q = Some j -> pending (the_buf j s)).
  { intros j Hj. apply (di_queue _ _ Hinv j). right. destruct q; [done|]. injection Hj as ->. by left. }
  apply (ideintr_wp i (head q)); try done.
  - destruct q as [|j q]; [done|]. intros [= ->]. apply Hiq. by left.
  - cbn [i_dev set_dev]. pose proof (ata_finished (i_dev s)) as [-> _]. exact Hcmd.
  - cbn [i_dev set_dev]. intros d Hs Hd. split; [by apply (inv_served s w q i d)|]. unfold view_of. cbn [drv waiters i_bufs i_dev]. rewrite (blocks_same _ _ Hs).
    pose proof (the_buf_lookup i s Hlt) as Hb. destruct (memide_serves (i_bufs s) i (the_buf i s) [] (blocks (i_dev s)) [] Hb Hp (blocks_len _)) as (wr & Em).
    rewrite (nthd_lookup _ _ _ _ (blocks_lookup (i_dev s) _ (pe_block _ Hp))) in Em. unfold request in Hcmd. rewrite (pe_dev _ Hp) in Hcmd. change (Z.land 1 1) with 1 in Hcmd.
    change (the_buf i (set_dev (ata_finish (i_dev s)) s)) with (the_buf i s). change (i_bufs (set_dev (ata_finish (i_dev s)) s)) with (i_bufs s).
    unfold served, dirty_flag in Em |- *. destruct (truth (Z.land (b_flags (the_buf i s)) B_DIRTY)) eqn:Et.
    + rewrite (blocks_finish _ _ _ Hcmd (pe_block _ Hp) (pe_data _ Hp)). by eapply sp_serve.
    + assert (Hbl : blocks (ata_finish (i_dev s)) = blocks (i_dev s)) by (apply blocks_idle; intros v l data; congruence). rewrite Hbl.
      assert (Hbo : block_of (ata_finish (i_dev s)) (b_blockno (the_buf i s)) = block_of (i_dev s) (b_blockno (the_buf i s))).
      { pose proof (blocks_lookup (ata_finish (i_dev s)) _ (pe_block _ Hp)) as H1. rewrite Hbl, (blocks_lookup _ _ (pe_block _ Hp)) in H1. by injection H1. }
      rewrite Hbo. by eapply sp_serve.
Qed.

(** *** Every step *)

Definition queue_after (l : label) (q : list nat) : list nat :=
  match l with Req _ i => q ++ [i] | Intr => tail q | _ => q end.

Lemma inv_other s w q i b : ide_inv (Sys s w) q -> i ∉ w -> length (b_data b) = bsize -> ide_inv (Sys (set_buf i (fun _ => b) s) w) q.
Proof.
  intros Hinv Hw Hl. pose proof (inv_not_queued _ _ _ Hinv Hw) as Hq. destruct Hinv as [I1 I2 I3 I4 I5 I6 I7 I8 I9 I10]. cbn [drv waiters] in *.
  assert (Hoth : forall j, j ∈ w -> the_buf j (set_buf i (fun _ => b) s) = the_buf j s).
  { intros j Hj. unfold the_buf, nthd. cbn. by rewrite list_lookup_alter_ne by (intros ->; done). }
  split; cbn [drv waiters set_buf i_bufs i_qnext idequeue havedisk1 i_dev asleep]; try done.
  - by rewrite length_alter.
  - apply Forall_alter; [done|]. intros; done.
  - intros j Hj. destruct (I6 j Hj) as [Hp Hjw]. by rewrite Hoth.
  - intros j Hj Hn. rewrite Hoth by done. auto.
  - intros j q' ->. rewrite Hoth; [by apply (I10 j q')|]. apply (I6 j). by left.
Qed.

Lemma ide_step_sim x q l y : ide_inv x q -> istep l x y -> ide_inv y (queue_after l q) /\ spec_step l (view_of x q) (view_of y (queue_after l q)).
Proof.
  intros Hinv Hs. destruct Hs as [pid i s w r s' Hlt Hw Hd Hb Hr|s w s' Hq Hf Hr|s w s' Hq Hr|i s w r s' Hw Ha Hr|i b s w Hw Hl].
  - destruct (wp_Ok _ _ _ _ _ _ (req_wp s w q pid i Hinv Hlt Hw Hd Hb) Hr) as (_ & Hi & Hv). split; [done|]. cbn [queue_after]. rewrite Hv. by constructor.
  - pose proof (inv_first _ _ Hinv) as Hh. destruct q as [|i q]; [done|]. by apply (wp_Ok _ _ _ _ _ _ (intr_wp s w q i Hinv Hf) Hr).
  - unfold ideintr, bind, gets in Hr. rewrite Hq in Hr. injection Hr as <-. split; [done|]. constructor.
  - assert (Hn : i ∉ q) by (by rewrite <- (di_asleep _ _ Hinv i Hw)). pose proof (di_done _ _ Hinv i Hw Hn) as Hd. cbn [drv] in Hd.
    unfold iderw_test, bind, gets in Hr. rewrite Hd in Hr. injection Hr as <- <-. split; [|by constructor].
    destruct Hinv as [I1 I2 I3 I4 I5 I6 I7 I8 I9 I10]. cbn [drv waiters queue_after] in *. split; try done; cbn [drv waiters].
    + intros j Hj. destruct (I6 j Hj) as [Hp Hjw]. split; [done|]. apply list_elem_of_filter. split; [|done]. by intros ->.
    + intros j [_ Hj]%list_elem_of_filter. auto.
    + intros j [_ Hj]%list_elem_of_filter. auto.
    + intros j Hj. apply list_elem_of_filter. split; [|auto]. by intros ->.
  - split; [by apply inv_other|]. by constructor.
Qed.

(** Runs, with the labels of their steps. *)
Inductive steps {X} (R : label -> X -> X -> Prop) : list label -> X -> X -> Prop :=
| steps_nil x : steps R [] x x
| steps_cons l ls x y z : R l x y -> steps R ls y z -> steps R (l :: ls) x z.

Lemma steps_sim ls : forall x q y, ide_inv x q -> steps istep ls x y -> exists q', ide_inv y q' /\ steps spec_step ls (view_of x q) (view_of y q').
Proof.
  induction ls as [|l ls IH]; intros x q y Hi Hs; inversion Hs as [|? ? ? x1 ? H1 H2]; subst; [exists q; split; [done|constructor]|].
  destruct (ide_step_sim _ _ _ _ Hi H1) as [Hi1 Hs1]. destruct (IH _ _ _ Hi1 H2) as (q' & Hi' & Hs'). exists q'. split; [done|]. by econstructor.
Qed.

(** The driver after [ideinit], with buffers of the right size and no
    request. *)
Definition quiet_driver (s : ide D) : Prop :=
  length (i_qnext s) = length (i_bufs s) /\ idequeue s = None /\ havedisk1 s = true /\ Forall (fun b => length (b_data b) = bsize) (i_bufs s) /\ asleep s = [].

Lemma quiet_inv s : quiet_driver s -> ide_inv (Sys s []) [].
Proof.
  intros (H1 & H2 & H3 & H4 & H5).
  split; cbn [drv waiters]; [done|done|constructor|done|done|by intros ? ?%elem_of_nil..|rewrite H5; by intros ? ?%elem_of_nil|done].
Qed.


(** *** Liveness *)

Lemma intr_waiters x y : istep Intr x y -> waiters y = waiters x.
Proof. by inversion 1. Qed.

Lemma wake_returns x q i y : ide_inv x q -> istep (Wake i) x y -> synced (the_buf i (drv x)) = true /\ i ∉ waiters y.
Proof.
  intros Hi Hs. inversion Hs as [| | |i' s w r s' Hw Ha Hr|]; subst. cbn [drv waiters] in *.
  pose proof (di_done _ _ Hi i Hw ltac:(by rewrite <- (di_asleep _ _ Hi i Hw))) as Hd. cbn [drv] in Hd. split; [done|].
  unfold iderw_test, bind, gets in Hr. rewrite Hd in Hr. injection Hr as <- _. by intros [? _]%list_elem_of_filter.
Qed.

Section Trace.
Context (tr : nat -> sys) (ls : nat -> label).
Context (Hsteps : forall n, istep (ls n) (tr n) (tr (S n))).
Context (d0 : ide D) (Hstart : tr 0%nat = Sys d0 []) (Hquiet : quiet_driver d0).
(** The drive ends the commands it is given, and a process that does not
    sleep runs. *)
Context (Hdrive : forall n, idequeue (drv (tr n)) <> None -> exists m, (n <= m)%nat /\ ls m = Intr).
Context (Hsched : forall n i, i ∈ waiters (tr n) -> i ∉ asleep (drv (tr n)) -> exists m, (n <= m)%nat /\ ls m = Wake i).

Fixpoint queue_at (n : nat) : list nat := match n with O => [] | S k => queue_after (ls k) (queue_at k) end.

Lemma inv_at n : ide_inv (tr n) (queue_at n).
Proof. induction n as [|n IH]; [rewrite Hstart; by apply quiet_inv|]. by apply (ide_step_sim _ _ _ _ IH (Hsteps n)). Qed.

(** The buffer [i] behind the buffers [l] stays there until an interrupt. *)
Lemma queue_kept l i n : (exists r, queue_at n = l ++ i :: r) -> forall k, (forall j, (n <= j < n + k)%nat -> ls j <> Intr) -> exists r, queue_at (n + k) = l ++ i :: r.
Proof.
  intros H0 k. induction k as [|k IH]; intros Hk; [by rewrite Nat.add_0_r|]. destruct IH as [r Hr]; [intros j Hj; apply Hk; lia|].
  rewrite Nat.add_succ_r. cbn [queue_at]. rewrite Hr. specialize (Hk (n + k)%nat ltac:(lia)).
  destruct (ls (n + k)) as [pid j| | |j|j b]; [|done|by exists r..]. exists (r ++ [j]). cbn. by rewrite <- app_assoc.
Qed.

(** The next interrupt. *)
#[local] Instance is_intr_dec (l : label) : Decision (l = Intr).
Proof. destruct l; (by left) || (by right). Defined.

Lemma first_intr n m : (n <= m)%nat -> ls m = Intr -> exists k, ls (n + k) = Intr /\ forall j, (n <= j < n + k)%nat -> ls j <> Intr.
Proof.
  intros Hm Hi. destruct (find_idx (fun j => bool_decide (ls j = Intr)) (seq n (S m - n))) as [k|] eqn:Ek.
  - apply find_idx_Some in Ek as [(x & Hx & Hxi) Hlt]. apply lookup_seq in Hx as [-> Hk]. exists k. split; [by apply bool_decide_eq_true in Hxi|].
    intros j Hj Hji. specialize (Hlt (j - n)%nat j ltac:(lia)). rewrite lookup_seq in Hlt. specialize (Hlt ltac:(lia)). by apply bool_decide_eq_false in Hlt.
  - rewrite find_idx_None in Ek. specialize (Ek (m - n)%nat m). rewrite lookup_seq in Ek. specialize (Ek ltac:(lia)). by apply bool_decide_eq_false in Ek.
Qed.

(** A queued request leaves the queue. *)
Lemma eventually_served i l : forall n, (exists r, queue_at n = l ++ i :: r) -> exists m, (n <= m)%nat /\ i ∈ waiters (tr m) /\ i ∉ queue_at m.
Proof.
  induction l as [|j l IH]; intros n Hn; destruct Hn as [r Hr].
  all: assert (Hne : idequeue (drv (tr n)) <> None) by (rewrite (inv_first _ _ (inv_at n)), Hr; done).
  all: destruct (Hdrive n Hne) as (m & Hm & Hi); destruct (first_intr n m Hm Hi) as (k & Hk & Hno).
  - destruct (queue_kept [] i n ltac:(by exists r) k Hno) as [r' Hr']. exists (S (n + k)). split; [lia|].
    pose proof (inv_at (S (n + k))) as Hinv. cbn [queue_at] in Hinv |- *. rewrite Hk, Hr' in *. cbn [queue_after tail app] in *.
    pose proof (inv_at (n + k)) as Hinv0. rewrite Hr' in Hinv0. cbn [app] in Hinv0. split.
    + pose proof (Hsteps (n + k)) as Hst. rewrite Hk in Hst. rewrite (intr_waiters _ _ Hst). by apply (di_queue _ _ Hinv0 i); left.
    + pose proof (di_nodup _ _ Hinv0) as Hnd. by apply NoDup_cons in Hnd as [? _].
  - destruct (queue_kept (j :: l) i n ltac:(by exists r) k Hno) as [r' Hr']. destruct (IH (S (n + k))) as (m' & Hm' & H').
    + exists r'. cbn [queue_at]. by rewrite Hk, Hr'.
    + exists m'. split; [lia|done].
Qed.

End Trace.
End System.

(** ** Initialisation and errors *)

Section Rest.
Context {D : Type} `{AtaDisk D}.

(** [ideinit] returns, and finds the second disk; stores to the interrupt
    controller do not reach the disk. *)
Lemma ideinit_finds `{!Mmio D} (Hmm : forall d a v, ata_sector (mm_write a v d : D) = ata_sector d) (n : Z) (s : ide D) :
  wp (ideinit n) (fun _ s' => havedisk1 s' = true /\ idequeue s' = idequeue s /\ ata_sector (i_dev s') = ata_sector (i_dev s)) (fun _ => False) s.
Proof.
  unfold ideinit. apply wp_bind, wp_port. unfold wp at 1, ioapicenable, ioapicwrite, store32. cbn [bind].
  apply wp_bind, idewait_wp. intros d r (S0 & _) B0 _. cbn [i_dev set_dev] in S0. rewrite !Hmm in S0. apply wp_bind, port_out_wp; [left; lia|done|]. intros d1 S1 _ B1. cbn [i_dev set_dev] in S1.
  apply wp_bind. change 1000%nat with (S 999). cbn [probe]. apply wp_bind, wp_port. unfold wp at 1, inb. cbn [i_dev set_dev].
  pose proof (ata_status d1) as Hs. destruct (p_in 503 d1) as [r2 d2]. rewrite B1 in Hs. destruct Hs as ((S2 & _) & H1 & B2 & _). cbn [fst snd].
  destruct (r2 =? 0) eqn:E; b2p; [by subst r2|]. cbn [negb]. apply wp_modify. apply port_out_wp; [left; lia|done|]. intros d3 S3 _ _. cbn [i_dev set_dev set_disk1] in S3.
  split; [done|]. split; [done|]. cbn [i_dev set_dev]. congruence.
Qed.

(** A read that fails leaves the data of the buffer as it was, and yet marks
    the buffer valid. *)
Lemma failed_read_is_valid (s : ide D) i : idequeue s = Some i -> next_of i s = None -> (i < length (i_bufs s))%nat ->
  Z.land (b_flags (the_buf i s)) B_DIRTY = 0 -> ata_failed (i_dev s) = true ->
  wp ideintr (fun _ s' => synced (the_buf i s') = true /\ b_data (the_buf i s') = b_data (the_buf i s)) (fun _ => False) s.
Proof.
  intros Hq Hn Hlt Hd Hf. unfold ideintr. apply wp_bind, wp_gets. rewrite Hq. apply wp_bind, wp_gets, wp_bind, wp_modify, wp_bind, wp_gets.
  change (the_buf i (set_queue _ s)) with (the_buf i s). rewrite Hd, Hn. change (0 =? 0) with true. cbv iota. apply wp_bind, wp_bind, idewait_wp.
  cbn [i_dev set_queue]. intros d r _ _ Hr. rewrite Hf in Hr. cbn in Hr. subst r. change (0 <=? -1) with false. cbv iota. apply wp_ret.
  apply wp_bind, wp_modify, wp_bind, wp_modify, wp_bind, wp_modify, wp_bind, wp_gets, wp_ret. unfold the_buf. unfold set_asleep, set_buf, set_dev, set_queue. cbn [i_bufs].
  pose proof (the_buf_lookup i s Hlt) as Hb. rewrite (alter_at _ _ _ _ Hb). erewrite alter_at by (by apply list_lookup_insert_eq).
  rewrite list_insert_insert_eq, nthd_insert_eq by done. split; [|done].
  pose proof (served_synced (b_data (the_buf i s)) (the_buf i s)) as Hs. unfold served, dirty_flag, truth in Hs. rewrite Hd in Hs. exact Hs.
Qed.
End Rest.

(** ** Witnesses: one read *)

Definition smp_buf : buf := Buf 0 1 5 (Sleeplock 1 7) 1 zero_block.
Definition smp_dev : sim := Sim (fun _ _ => []) task0 NoCommand false.
Definition smp_ide : ide sim := Ide [smp_buf] [None] None true smp_dev [].

Lemma smp_quiet : quiet_driver smp_ide.
Proof. split; [done|]. split; [done|]. split; [done|]. split; [|done]. apply Forall_cons. split; [apply length_zero_block|constructor]. Qed.


(** The run: the request, the interrupt, the return, and then nothing but
    stray interrupts. *)
Lemma smp_run : exists x1 x2 x3, istep (Req 7 0) (Sys smp_ide []) x1 /\ istep Intr x1 x2 /\ istep (Wake 0) x2 x3 /\ istep Stray x3 x3 /\
  waiters x1 = [0%nat] /\ 0%nat ∈ asleep (drv x1) /\ idequeue (drv x2) = None /\ waiters x2 = [0%nat] /\ idequeue (drv x3) = None /\ waiters x3 = [].
Proof.
  pose proof (quiet_inv _ smp_quiet) as I0.
  assert (Hw : wp (bind (iderw_enter 7 0) (fun _ => iderw_test 0)) (fun r s' => r = false /\ ide_inv (Sys s' [0%nat]) [0%nat]) (fun _ => False) smp_ide).
  { eapply wp_mono; [apply (req_wp smp_ide [] [] 7 0 I0)|..].
    - cbn. lia.
    - apply not_elem_of_nil.
    - done.
    - split; [discriminate|reflexivity].
    - intros r s' (H1 & H2 & _). done.
    - intros e He. apply He. by split. }
  apply wp_total in Hw as (r & s1 & E1 & _ & I1).
  destruct (wp_total _ _ _ (intr_wp s1 [0%nat] [] 0%nat I1 eq_refl)) as ([] & s2 & E2 & I2 & _).
  exists (Sys s1 [0%nat]), (Sys s2 [0%nat]), (Sys s2 []).
  assert (A2 : asleep s2 = []).
  { destruct (asleep s2) as [|j l] eqn:Ej; [done|]. pose proof (di_sleepers _ _ I2 j) as Hj. cbn [drv] in Hj. rewrite Ej in Hj. specialize (Hj ltac:(by left)).
    pose proof (di_asleep _ _ I2 j Hj) as [Hq _]. cbn [drv] in Hq. rewrite Ej in Hq. by destruct (not_elem_of_nil j (Hq ltac:(by left))). }
  pose proof (inv_first _ _ I2 : idequeue s2 = None) as Q2.
  split; [apply (st_req 7 0 smp_ide [] r s1); [cbn; lia|apply not_elem_of_nil|done|split; [discriminate|reflexivity]|exact E1]|].
  split; [apply (st_intr s1 [0%nat] s2); [by rewrite (inv_first _ _ I1 : idequeue s1 = Some 0%nat)|done|exact E2]|].
  split.
  { apply (st_wake 0 s2 [0%nat] true s2); [by left|rewrite A2; apply not_elem_of_nil|].
    unfold iderw_test, bind, gets. by rewrite (di_done _ _ I2 0%nat ltac:(by left) (not_elem_of_nil _) : synced (the_buf 0 s2) = true). }
  split; [apply (st_stray s2 [] s2); [exact Q2|]; unfold ideintr, bind, gets; by rewrite Q2|].
  split; [done|]. split; [|exact (conj Q2 (conj eq_refl (conj Q2 eq_refl)))]. apply (di_asleep _ _ I1 0%nat); by left.
Qed.

