(* ===== verification/Boot.v ===== *)
(** The boot loader: bootmain.c.

    It runs before the kernel, in physical memory, and reads the kernel's ELF
    file from drive 0, where the file starts at sector 1.  The state is the
    memory and the devices; [bootmain] returns the entry point it jumps to, or
    nothing if there is no ELF file. *)
From stdpp Require Import base numbers list strings.
From Stdlib Require Import ZArith Lia.
From S2P Require Import Prelude Params Ports Exec.

Local Open Scope list_scope.
Local Open Scope Z_scope.
Local Open Scope kernel_scope.

Definition SECTSIZE : Z := 512.
Definition ELF_SCRATCH : Z := 65536.

Record boot (D : Type) := Boot { b_mem : Z -> Z; b_dev : D }.
Arguments Boot {D}.
Arguments b_mem {D} _.
Arguments b_dev {D} _.

(** Stores and loads of bytes; addresses have 32 bits. *)
Definition put_bytes (a : Z) (bs : list Z) (m : Z -> Z) : Z -> Z :=
  fun x => let k := u32 (x - a) in if k <? Z.of_nat (length bs) then nthd 0 bs (Z.to_nat k) else m x.
Definition get_bytes (a n : Z) (m : Z -> Z) : list Z := (fun k => m (u32 (a + k))) <$> seqZ 0 n.

Section Code.
Context {D : Type} `{AtaDisk D}.
Abbreviation K := (M (boot D)).

Definition bport {A} (m : M D A) : K A := zoom b_dev (fun d s => Boot (b_mem s) d) m.
Definition put_mem (a : Z) (bs : list Z) : K unit := modify (fun s => Boot (put_bytes a bs (b_mem s)) (b_dev s)).

Definition waitdisk : K unit := bport wait_status;; ret tt.

Definition readsect (dst offset : Z) : K unit :=
  waitdisk;;
  bport (outb 498 1);;
  bport (outb 499 offset);;
  bport (outb 500 (Z.shiftr offset 8));;
  bport (outb 501 (Z.shiftr offset 16));;
  bport (outb 502 (Z.lor (Z.shiftr offset 24) 224));;
  bport (outb 503 32);;
  waitdisk;;
  data ← bport (insl (SECTSIZE / 4));
  put_mem dst data.

Fixpoint readseg_loop (fuel : nat) (pa epa offset : Z) : K unit :=
  match fuel with
  | O => blocked "readseg"
  | S f => if pa <? epa then readsect pa offset;; readseg_loop f (u32 (pa + SECTSIZE)) epa (u32 (offset + 1)) else ret tt
  end.
Definition readseg (pa count offset : Z) : K unit :=
  let epa := u32 (pa + count) in
  let pa := u32 (pa - offset mod SECTSIZE) in
  let offset := u32 (offset / SECTSIZE + 1) in
  readseg_loop (Z.to_nat (count / SECTSIZE) + 3) pa epa offset.

(** The loop over the program headers, at [ph]. *)
Fixpoint load_loop (fuel : nat) (ph eph : Z) : K unit :=
  match fuel with
  | O => blocked "bootmain"
  | S f =>
      if ph <? eph then
        bs ← gets (fun s => get_bytes ph PROGHDRSIZE (b_mem s));
        let h := dec_proghdr bs in
        let pa := rd 4 12 bs in
        readseg pa (ph_filesz h) (ph_off h);;
        h ← gets (fun s => dec_proghdr (get_bytes ph PROGHDRSIZE (b_mem s)));
        (if ph_filesz h <? ph_memsz h
         then put_mem (u32 (pa + ph_filesz h)) (replicate (Z.to_nat (ph_memsz h - ph_filesz h)) 0) else ret tt);;
        load_loop f (u32 (ph + PROGHDRSIZE)) eph
      else ret tt
  end.

Definition bootmain : K (option Z) :=
  readseg ELF_SCRATCH 4096 0;;
  bs ← gets (fun s => get_bytes ELF_SCRATCH ELFHDRSIZE (b_mem s));
  let elf := dec_elfhdr bs in
  if negb (e_magic elf =? ELF_MAGIC) then ret None
  else
    let ph := u32 (ELF_SCRATCH + e_phoff elf) in
    let eph := u32 (ph + PROGHDRSIZE * e_phnum elf) in
    load_loop (S (Z.to_nat (e_phnum elf))) ph eph;;
    entry ← gets (fun s => e_entry (dec_elfhdr (get_bytes ELF_SCRATCH ELFHDRSIZE (b_mem s))));
    ret (Some entry).
End Code.

Section Spec.
Context {D : Type} `{AtaDisk D}.
(** The reads do not fail. *)
Context (Hok : forall d : D, ata_failed d = false).
Implicit Types s : boot D.

(** Byte [o] of the kernel file. *)
Definition kbyte (d : D) (o : Z) : Z := nthd 0 (ata_sector d 0 (o / 512 + 1)) (Z.to_nat (o mod 512)).

Lemma bport_wp {A} (m : M D A) Q E s : wp m (fun a d => Q a (Boot (b_mem s) d)) E (b_dev s) -> wp (bport m) Q E s.
Proof. intros Hm. apply (wp_zoom b_dev (fun d s => Boot (b_mem s) d)). exact Hm. Qed.

Lemma waitdisk_wp s Q E : (forall d, same_disk (b_dev s) d -> ata_busy d = O -> Q tt (Boot (b_mem s) d)) -> wp waitdisk Q E s.
Proof. intros HQ. apply wp_bind, bport_wp, wait_wp. intros r d Hd Hb _. apply wp_ret. by apply HQ. Qed.

Lemma bport_out_wp p v s Q E : 498 <= p <= 502 \/ p = 1014 -> ata_busy (b_dev s) = O ->
  (forall d, ata_sector d = ata_sector (b_dev s) -> ata_task d = set_task p (u8 v) (ata_task (b_dev s)) -> ata_busy d = O -> Q tt (Boot (b_mem s) d)) ->
  wp (bport (outb p v)) Q E s.
Proof. intros Hp Hb HQ. by apply bport_wp, outb_wp. Qed.

Lemma boot_task offset t : 0 <= offset < 2 ^ 28 ->
  let t' := set_task 502 (u8 (Z.lor (Z.shiftr offset 24) 224)) (set_task 501 (u8 (Z.shiftr offset 16)) (set_task 500 (u8 (Z.shiftr offset 8))
    (set_task 499 (u8 offset) (set_task 498 (u8 1) t)))) in
  t_drive t' = 0 /\ t_lba t' = offset /\ t_count t' = 1.
Proof.
  intros Ho. cbv zeta. cbn [set_task Z.eqb Pos.eqb t_count t_lba0 t_lba1 t_lba2 t_device]. unfold t_drive, t_lba. cbn [t_count t_lba0 t_lba1 t_lba2 t_device].
  assert (Hx : 0 <= Z.shiftr offset 24 < 16) by (rewrite Z.shiftr_div_pow2 by lia; split; [apply Z.div_pos; lia|apply Z.div_lt_upper_bound; lia]).
  destruct (device_byte 0 (Z.shiftr offset 24) ltac:(lia) Hx) as [H1 H2]. rewrite Z.lor_comm. change (Z.lor 224 (Z.shiftl 0 4)) with 224 in H1, H2.
  split; [done|]. split; [|done]. rewrite H2, !Z.shiftr_div_pow2, !u8_mod by lia. rewrite <- (lba_bytes offset Ho) at 5.
  rewrite (Z.mod_small (offset / 2 ^ 24)); [lia|]. rewrite Z.shiftr_div_pow2 in Hx by lia. lia.
Qed.

Lemma readsect_wp dst offset s Q E : 0 <= offset < 2 ^ 28 ->
  (forall d, ata_sector d = ata_sector (b_dev s) -> Q tt (Boot (put_bytes dst (ata_sector (b_dev s) 0 offset) (b_mem s)) d)) -> wp (readsect dst offset) Q E s.
Proof.
  intros Ho HQ. unfold readsect. apply wp_bind, waitdisk_wp. intros d0 (S0 & _) B0.
  apply wp_bind, bport_out_wp; [left; lia|done|]. intros d1 S1 T1 B1. cbn [b_dev] in S1, T1.
  apply wp_bind, bport_out_wp; [left; lia|done|]. intros d2 S2 T2 B2. cbn [b_dev] in S2, T2.
  apply wp_bind, bport_out_wp; [left; lia|done|]. intros d3 S3 T3 B3. cbn [b_dev] in S3, T3.
  apply wp_bind, bport_out_wp; [left; lia|done|]. intros d4 S4 T4 B4. cbn [b_dev] in S4, T4.
  apply wp_bind, bport_out_wp; [left; lia|done|]. intros d5 S5 T5 B5. cbn [b_dev] in S5, T5.
  rewrite T4, T3, T2, T1 in T5. destruct (boot_task offset (ata_task d0) Ho) as (N1 & N2 & N3). cbv zeta in N1, N2, N3. rewrite <- T5 in N1, N2, N3.
  apply wp_bind, bport_wp. unfold wp at 1, outb. cbn [b_dev b_mem]. destruct (ata_issue d5 (u8 32) B5) as [I1 I2].
  unfold issue in I2. change (u8 32) with 32 in *. change ((32 =? 32) || (32 =? 196)) with true in I2. cbv iota in I2. rewrite N1, N2, N3 in I2.
  apply wp_bind, waitdisk_wp. cbn [b_dev b_mem]. intros d6 (S6 & _ & C6 & _) B6. rewrite I2 in C6.
  apply wp_bind, bport_wp. unfold wp at 1, insl. cbn [b_dev b_mem]. pose proof (ata_insl d6 _ _ _ C6 B6 (Hok d6)) as Hi.
  change (Z.to_nat (128 * 1)) with (Z.to_nat (SECTSIZE / 4)) in Hi. destruct (p_insl (Z.to_nat (SECTSIZE / 4)) d6) as [data d7]. destruct Hi as [-> S7]. cbn [fst snd].
  apply wp_modify. cbn [b_dev b_mem]. assert (Hs : ata_sector d6 = ata_sector (b_dev s)) by congruence. rewrite Hs.
  replace (sectors_from (ata_sector (b_dev s) 0) offset 1) with (ata_sector (b_dev s) 0 offset); [apply HQ; congruence|].
  unfold sectors_from. change (seqZ offset 1) with [0 + offset]. cbn. by rewrite app_nil_r.
Qed.

(** ** Segments *)

Lemma put_bytes_in a bs (m : Z -> Z) x : 0 <= a -> a <= x < a + Z.of_nat (length bs) -> x < 2 ^ 32 -> put_bytes a bs m x = nthd 0 bs (Z.to_nat (x - a)).
Proof. intros Ha Hx Hm. unfold put_bytes. rewrite u32_small by lia. by rewrite (proj2 (Z.ltb_lt _ _)) by lia. Qed.

Lemma put_bytes_out a bs (m : Z -> Z) x : 0 <= a -> 0 <= x < 2 ^ 32 -> a + Z.of_nat (length bs) <= 2 ^ 32 -> x < a \/ a + Z.of_nat (length bs) <= x -> put_bytes a bs m x = m x.
Proof.
  intros Ha Hx Hm Ho. unfold put_bytes. destruct (u32 (x - a) <? Z.of_nat (length bs)) eqn:E; [|done]. b2p. exfalso. destruct (decide (a <= x)).
  - rewrite u32_small in E by lia. lia.
  - replace (u32 (x - a)) with (x - a + 2 ^ 32) in E; [lia|]. unfold u32. apply Z.mod_unique with (-1); lia.
Qed.

Lemma readseg_loop_wp fuel : forall pa epa offset s (Q : unit -> boot D -> Prop) E,
  0 <= pa -> 0 <= epa -> epa + 512 <= 2 ^ 32 -> 0 <= offset -> (epa - pa) / 512 + 1 < Z.of_nat fuel -> pa < epa -> offset + (epa - pa) / 512 + 1 < 2 ^ 28 ->
  (forall m d, ata_sector d = ata_sector (b_dev s) ->
     (forall x, pa <= x < epa -> m x = kbyte (b_dev s) (512 * (offset - 1) + (x - pa))) ->
     (forall x, 0 <= x < 2 ^ 32 -> x < pa \/ epa + 512 <= x -> m x = b_mem s x) -> Q tt (Boot m d)) ->
  wp (readseg_loop fuel pa epa offset) Q E s.
Proof.
  induction fuel as [|fuel IH]; intros pa epa offset s Q E Hpa Hepa Hm Ho Hf Hlt Hs HQ; [pose proof (Z.div_pos (epa - pa) 512); lia|].
  cbn [readseg_loop]. rewrite (proj2 (Z.ltb_lt _ _)) by lia. pose proof (Z.div_pos (epa - pa) 512 ltac:(lia) ltac:(lia)).
  apply wp_bind, readsect_wp; [lia|]. intros d Hd. unfold SECTSIZE. rewrite !u32_small by lia.
  set (m1 := put_bytes pa (ata_sector (b_dev s) 0 offset) (b_mem s)).
  pose proof (ata_length (b_dev s) 0 offset) as Hl.
  assert (Hin : forall x, pa <= x < pa + 512 -> m1 x = kbyte (b_dev s) (512 * (offset - 1) + (x - pa))).
  { intros x Hx. unfold m1. rewrite put_bytes_in by lia. unfold kbyte.
    replace ((512 * (offset - 1) + (x - pa)) / 512 + 1) with offset by (rewrite <- (Z.div_unique _ 512 (offset - 1) (x - pa)); lia).
    by replace ((512 * (offset - 1) + (x - pa)) mod 512) with (x - pa) by (apply Z.mod_unique with (offset - 1); lia). }
  assert (Hout : forall x, 0 <= x < 2 ^ 32 -> x < pa \/ pa + 512 <= x -> m1 x = b_mem s x) by (intros x Hx Hxo; apply put_bytes_out; lia).
  destruct (decide (pa + 512 < epa)) as [Hmore|Hdone].
  - assert (Hdv : (epa - pa) / 512 = (epa - (pa + 512)) / 512 + 1) by (rewrite <- Z.div_add by lia; f_equal; lia).
    apply IH; try lia. cbn [b_dev b_mem]. rewrite Hd. intros m d' Hd' Hm1 Hm2. apply HQ; [done| |].
    + intros x Hx. destruct (decide (pa + 512 <= x)); [|rewrite Hm2 by lia; apply Hin; lia]. rewrite Hm1 by lia. unfold kbyte. rewrite Hd.
      by replace (512 * (offset + 1 - 1) + (x - (pa + 512))) with (512 * (offset - 1) + (x - pa)) by lia.
    + intros x Hx Hxo. rewrite Hm2 by lia. apply Hout; lia.
  - destruct fuel as [|fuel]; [lia|]. cbn [readseg_loop]. rewrite (proj2 (Z.ltb_ge _ _)) by lia. apply wp_ret. apply HQ; [done| |].
    + intros x Hx. apply Hin. lia.
    + intros x Hx Hxo. apply Hout; lia.
Qed.

(** [readseg] puts the bytes in place; it may also change the rest of the
    first and the last sector. *)
Lemma readseg_wp pa count off s (Q : unit -> boot D -> Prop) E :
  0 <= off -> off mod 512 <= pa -> 0 <= count -> pa + count + 512 <= 2 ^ 32 -> (off + count) / 512 + 2 < 2 ^ 28 ->
  (forall m d, ata_sector d = ata_sector (b_dev s) ->
     (forall x, pa <= x < pa + count -> m x = kbyte (b_dev s) (off + (x - pa))) ->
     (forall x, 0 <= x < 2 ^ 32 -> x < pa - off mod 512 \/ pa + count + 512 <= x -> m x = b_mem s x) -> Q tt (Boot m d)) ->
  wp (readseg pa count off) Q E s.
Proof.
  intros Ho Hp Hc Hm Hs HQ. unfold readseg, SECTSIZE. pose proof (Z.mod_pos_bound off 512 ltac:(lia)). pose proof (Z.div_pos off 512 ltac:(lia) ltac:(lia)).
  pose proof (Z.div_mod off 512 ltac:(lia)). pose proof (Z.div_mod (off + count) 512 ltac:(lia)). pose proof (Z.mod_pos_bound (off + count) 512 ltac:(lia)).
  pose proof (Z.div_mod count 512 ltac:(lia)). pose proof (Z.mod_pos_bound count 512 ltac:(lia)).
  rewrite !u32_small by lia. destruct (decide (pa - off mod 512 < pa + count)) as [Hlt|Hge].
  - pose proof (Z.div_mod (pa + count - (pa - off mod 512)) 512 ltac:(lia)). pose proof (Z.mod_pos_bound (pa + count - (pa - off mod 512)) 512 ltac:(lia)).
    apply readseg_loop_wp; try lia. intros m d Hd Hin Hout. apply HQ; [done| |done]. intros x Hx. rewrite Hin by lia. f_equal. lia.
  - rewrite Nat.add_comm. cbn [readseg_loop Nat.add]. rewrite (proj2 (Z.ltb_ge _ _)) by lia. apply wp_ret. destruct s as [m d]. apply HQ; [done| |done]. intros x Hx. lia.
Qed.

(** ** The kernel image *)

(** A segment of the file. *)
Record seg := Seg { sg_pa : Z; sg_off : Z; sg_filesz : Z; sg_memsz : Z }.
Definition dec_seg (bs : list Z) : seg := let h := dec_proghdr bs in Seg (rd 4 12 bs) (ph_off h) (ph_filesz h) (ph_memsz h).

(** The memory has the bytes of the file and zeros after them. *)
Definition loaded (d : D) (m : Z -> Z) (g : seg) : Prop :=
  (forall x, sg_pa g <= x < sg_pa g + sg_filesz g -> m x = kbyte d (sg_off g + (x - sg_pa g))) /\
  (forall x, sg_pa g + sg_filesz g <= x < sg_pa g + sg_memsz g -> m x = 0).

Definition seg_low (g : seg) : Z := sg_pa g - sg_off g mod 512.
Definition seg_end (g : seg) : Z := sg_pa g + Z.max (sg_filesz g) (sg_memsz g).

(** The segment lies above the scratch page and inside of memory and disk. *)
Record seg_ok (g : seg) : Prop := SegOk {
  so_low : 69632 <= seg_low g; so_high : seg_end g + 512 <= 2 ^ 32;
  so_off : 0 <= sg_off g; so_size : 0 <= sg_filesz g /\ 0 <= sg_memsz g; so_disk : (sg_off g + sg_filesz g) / 512 + 2 < 2 ^ 28
}.

Section Image.
Context (d0 : D).
Definition kbytes (o n : Z) : list Z := (fun k => kbyte d0 (o + k)) <$> seqZ 0 n.
Definition header : elfhdr := dec_elfhdr (kbytes 0 ELFHDRSIZE).
Definition segments : list seg := (fun i => dec_seg (kbytes (e_phoff header + PROGHDRSIZE * i) PROGHDRSIZE)) <$> seqZ 0 (e_phnum header).

(** An image the loader can load: the program headers are in the first page
    of the file, and each segment, with the start of its first sector, comes
    after the ones before it. *)
Record image_ok : Prop := ImageOk {
  io_headers : 0 <= e_phoff header /\ 0 <= e_phnum header /\ e_phoff header + PROGHDRSIZE * e_phnum header <= 4096;
  io_segs : Forall seg_ok segments;
  io_order : forall i j g h, (i < j)%nat -> segments !! i = Some g -> segments !! j = Some h -> seg_end g <= seg_low h
}.

Definition scratch_ok (m : Z -> Z) : Prop := forall x, 65536 <= x < 69632 -> m x = kbyte d0 (x - 65536).

Lemma get_scratch m o n : scratch_ok m -> 0 <= o -> 0 <= n -> o + n <= 4096 -> get_bytes (65536 + o) n m = kbytes o n.
Proof.
  intros Hm Ho Hn Hl. unfold get_bytes, kbytes. apply list_fmap_ext. intros i k [-> Hk]%lookup_seqZ. rewrite u32_small by lia. rewrite Hm by lia. f_equal. lia.
Qed.

Lemma get_header m : scratch_ok m -> dec_elfhdr (get_bytes ELF_SCRATCH ELFHDRSIZE m) = header.
Proof. intros Hm. unfold header. f_equal. apply (get_scratch m 0); [done|unfold ELFHDRSIZE; lia..]. Qed.

Lemma loaded_keep m m' g a : loaded d0 m g -> seg_end g <= a -> 0 <= sg_pa g -> 0 <= sg_filesz g -> seg_end g <= 2 ^ 32 -> (forall x, 0 <= x < 2 ^ 32 -> x < a -> m' x = m x) -> loaded d0 m' g.
Proof. unfold seg_end. intros [L1 L2] Ha Hp Hz He Hm. split; intros x Hx; rewrite Hm by lia; auto. Qed.

(** One segment. *)
Lemma segment_wp ph eph fuel g s (Q : unit -> boot D -> Prop) E : ata_sector (b_dev s) = ata_sector d0 -> scratch_ok (b_mem s) -> seg_ok g ->
  65536 <= ph -> ph + 32 <= 69632 -> ph < eph -> dec_seg (kbytes (ph - 65536) PROGHDRSIZE) = g ->
  (forall m d, ata_sector d = ata_sector d0 -> scratch_ok m -> loaded d0 m g -> (forall x, 0 <= x < 2 ^ 32 -> x < seg_low g -> m x = b_mem s x) ->
     wp (load_loop fuel (ph + 32) eph) Q E (Boot m d)) ->
  wp (load_loop (S fuel) ph eph) Q E s.
Proof.
  intros Hs Hsc [G1 G2 G3 [G4 G5] G6] Hph1 Hph2 Hlt Hg HQ. pose proof (Z.mod_pos_bound (sg_off g) 512 ltac:(lia)). unfold seg_low, seg_end in *.
  cbn [load_loop]. rewrite (proj2 (Z.ltb_lt _ _)) by lia. apply wp_bind, wp_gets. unfold PROGHDRSIZE in *. rewrite u32_small by lia.
  assert (Hget : forall m, scratch_ok m -> get_bytes ph 32 m = kbytes (ph - 65536) 32) by (intros m Hm; rewrite <- (get_scratch m) by (done || lia); f_equal; lia).
  rewrite (Hget _ Hsc). unfold dec_seg in Hg. set (bs := kbytes (ph - 65536) 32) in *. rewrite <- Hg in *. cbn [sg_pa sg_off sg_filesz sg_memsz] in *. clear Hg.
  apply wp_bind, readseg_wp; try lia. intros m d Hd Hin Hout. rewrite Hs in Hd. assert (Hsc1 : scratch_ok m) by (intros x Hx; rewrite Hout by lia; auto).
  apply wp_bind, wp_gets. cbn [b_mem b_dev]. rewrite (Hget _ Hsc1). fold bs.
  assert (Hk : forall o, kbyte (b_dev s) o = kbyte d0 o) by (intros o; unfold kbyte; by rewrite Hs).
  destruct (ph_filesz (dec_proghdr bs) <? ph_memsz (dec_proghdr bs)) eqn:Ez; b2p; apply wp_bind.
  - rewrite u32_small by lia. apply wp_modify. cbn [b_mem b_dev]. set (zs := replicate _ 0).
    assert (Hz : Z.of_nat (length zs) = ph_memsz (dec_proghdr bs) - ph_filesz (dec_proghdr bs)) by (unfold zs; rewrite length_replicate; lia).
    assert (Hlo : forall x, 0 <= x < 2 ^ 32 -> x < rd 4 12 bs + ph_filesz (dec_proghdr bs) -> put_bytes (rd 4 12 bs + ph_filesz (dec_proghdr bs)) zs m x = m x) by (intros x Hx Hxl; apply put_bytes_out; lia).
    apply HQ; [done| | |].
    + intros x Hx. rewrite Hlo by lia. auto.
    + split; intros x Hx; cbn [sg_pa sg_off sg_filesz sg_memsz] in *; [rewrite Hlo, Hin by lia; apply Hk|]. rewrite put_bytes_in by lia.
      unfold zs, nthd. by rewrite lookup_replicate_2 by lia.
    + intros x Hx Hxl. rewrite Hlo, Hout by lia. done.
  - apply wp_ret. apply HQ; [done|done| |].
    + split; intros x Hx; cbn [sg_pa sg_off sg_filesz sg_memsz] in *; [rewrite Hin by lia; apply Hk|lia].
    + intros x Hx Hxl. apply Hout; lia.
Qed.

Lemma segments_lookup i : 0 <= i < e_phnum header ->
  segments !! Z.to_nat i = Some (dec_seg (kbytes (e_phoff header + PROGHDRSIZE * i) PROGHDRSIZE)).
Proof. intros Hi. unfold segments. rewrite list_lookup_fmap, lookup_seqZ_lt by lia. cbn [fmap option_fmap option_map]. by rewrite Z.add_0_l, Z2Nat.id by lia. Qed.

(** The segments from [i] on. *)
Lemma load_wp (Hi : image_ok) k : forall i s E, 0 <= i -> i + Z.of_nat k = e_phnum header -> ata_sector (b_dev s) = ata_sector d0 -> scratch_ok (b_mem s) ->
  (forall j g, Z.of_nat j < i -> segments !! j = Some g -> loaded d0 (b_mem s) g) ->
  wp (load_loop (S k) (65536 + e_phoff header + 32 * i) (65536 + e_phoff header + 32 * e_phnum header))
     (fun _ s' => scratch_ok (b_mem s') /\ Forall (loaded d0 (b_mem s')) segments) E s.
Proof.
  pose proof (io_headers Hi) as (Hh1 & Hh2 & Hh3). unfold PROGHDRSIZE in Hh3. induction k as [|k IH]; intros i s E H0 Hk Hs Hsc Hl.
  - cbn [load_loop]. rewrite (proj2 (Z.ltb_ge _ _)) by lia. apply wp_ret. split; [done|]. apply Forall_lookup. intros j g Hj. apply (Hl j); [|done].
    apply lookup_lt_Some in Hj. unfold segments in Hj. rewrite length_fmap, length_seqZ in Hj. lia.
  - pose proof (segments_lookup i ltac:(lia)) as Hg. set (g := dec_seg _) in Hg. pose proof (Forall_lookup_1 _ _ _ _ (io_segs Hi) Hg) as Hok1.
    apply (segment_wp _ _ _ g); try done; try lia; [unfold g, PROGHDRSIZE; do 2 f_equal; lia|].
    intros m d Hd Hsc' Hld Hm. replace (65536 + e_phoff header + 32 * i + 32) with (65536 + e_phoff header + 32 * (i + 1)) by lia.
    apply IH; [lia|lia|done|done|]. cbn [b_mem]. intros j h Hj Hh. destruct (decide (Z.of_nat j = i)) as [Hji|Hne].
    + assert (j = Z.to_nat i) as -> by lia. by simplify_eq.
    + pose proof (Forall_lookup_1 _ _ _ _ (io_segs Hi) Hh) as [O1 O2 O3 [O4 _] _]. pose proof (Z.mod_pos_bound (sg_off h) 512 ltac:(lia)). unfold seg_low in O1.
      apply (loaded_keep (b_mem s) m h (seg_low g)); [apply (Hl j); [lia|done]|apply (io_order Hi j (Z.to_nat i)); [lia|done|done]|lia|done|lia|done].
Qed.
End Image.

(** C15: the boot loader loads the kernel.  From a disk whose first page
    holds the headers of an ELF file with its segments in order, it returns the
    entry point of the file, and in memory each segment has its bytes of the
    file followed by zeros, although each [readseg] overwrites the rest of its
    first and last sector.  Without the ELF magic number it gives up. *)
Theorem bootmain_loads s :
  (e_magic (header (b_dev s)) = ELF_MAGIC -> image_ok (b_dev s) ->
     wp bootmain (fun r s' => r = Some (e_entry (header (b_dev s))) /\ Forall (loaded (b_dev s) (b_mem s')) (segments (b_dev s))) (fun _ => False) s) /\
  (e_magic (header (b_dev s)) <> ELF_MAGIC -> wp bootmain (fun r _ => r = None) (fun _ => False) s).
Proof.
  assert (Hfirst : forall Q, (forall m d, ata_sector d = ata_sector (b_dev s) -> scratch_ok (b_dev s) m -> Q tt (Boot m d)) -> wp (readseg ELF_SCRATCH 4096 0) Q (fun _ => False) s).
  { intros Q HQ. apply readseg_wp; [lia|discriminate|lia|discriminate|reflexivity|]. intros m d Hd Hin _. apply HQ; [done|].
    intros x Hx. rewrite Hin by (unfold ELF_SCRATCH; lia). f_equal. }
  split.
  - intros Hmag Hi. unfold bootmain. apply wp_bind, Hfirst. intros m d Hd Hsc. apply wp_bind, wp_gets. cbn [b_mem]. rewrite (get_header (b_dev s) m Hsc).
    rewrite Hmag, Z.eqb_refl. cbn [negb]. unfold ELF_SCRATCH at 1 2.
    pose proof (io_headers _ Hi) as (Hh1 & Hh2 & Hh3). unfold PROGHDRSIZE in *. rewrite !(u32_small (65536 + _)), u32_small by lia.
    apply wp_bind. replace (65536 + e_phoff (header (b_dev s))) with (65536 + e_phoff (header (b_dev s)) + 32 * 0) at 1 by lia.
    eapply wp_conseq; [apply (load_wp (b_dev s) Hi); [lia|lia|done|done|intros j g Hj; lia]|]. cbv beta. intros _ s' [Hsc' Hld]. apply wp_bind, wp_gets.
    rewrite (get_header (b_dev s) _ Hsc'). by apply wp_ret.
  - intros Hmag. unfold bootmain. apply wp_bind, Hfirst. intros m d Hd Hsc. apply wp_bind, wp_gets. cbn [b_mem]. rewrite (get_header (b_dev s) m Hsc).
    apply Z.eqb_neq in Hmag. rewrite Hmag. by apply wp_ret.
Qed.
End Spec.

(** A kernel of one segment: four bytes and four zeros at 1 MB. *)
Definition smp_elf : list Z :=
  [127; 69; 76; 70] ++ replicate 20 0 ++ le_enc 4 1048576 ++ le_enc 4 52 ++ replicate 12 0 ++ le_enc 2 1 ++ replicate 6 0 ++
  le_enc 4 1 ++ le_enc 4 4096 ++ le_enc 4 2148532224 ++ le_enc 4 1048576 ++ le_enc 4 4 ++ le_enc 4 8 ++ replicate 8 0.
Definition smp_boot : boot sim :=
  Boot (fun _ => 255) (Sim (fun v l => if l =? 1 then smp_elf else if l =? 9 then [1; 2; 3; 4] else []) task0 NoCommand false).

Lemma smp_segments : segments (b_dev smp_boot) = [Seg 1048576 4096 4 8].
Proof. vm_compute. reflexivity. Qed.

Lemma smp_image_ok : image_ok (b_dev smp_boot).
Proof.
  split.
  - vm_compute. repeat split; discriminate.
  - rewrite smp_segments. apply Forall_singleton. split; vm_compute; try split; discriminate || reflexivity.
  - rewrite smp_segments. intros [|i] [|[|j]] g h Hij Hg Hh; try lia; done.
Qed.

Lemma bootmain_loads_witness : wp bootmain (fun r s' => r = Some 1048576 /\ b_mem s' 1048578 = 3 /\ b_mem s' 1048581 = 0) (fun _ => False) smp_boot.
Proof.
  destruct (bootmain_loads sim_never_fails smp_boot) as [H _]. eapply wp_conseq; [apply H; [vm_compute; reflexivity|exact smp_image_ok]|].
  cbv beta. intros r s' [-> Hl]. rewrite smp_segments in Hl. apply Forall_singleton in Hl as [L1 L2]. cbn [sg_pa sg_off sg_filesz sg_memsz] in L1, L2.
  split; [vm_compute; reflexivity|]. rewrite L1, L2 by lia. split; [vm_compute; reflexivity|reflexivity].
Defined.
