(* ===== verification/Sched.v ===== *)
(** The scheduler loop of proc.c, and that it leaves no process out.

    A processor's scheduler walks through the process table round and round; at
    a RUNNABLE process it switches to it, and goes on behind it when the process
    has given up the processor.  [scheduler_step] is what the scheduler of one
    processor does between two such points. *)
From stdpp Require Import base numbers list strings relations.
From Stdlib Require Import ZArith Lia.
From S2P Require Import Prelude Params CString Users Namecache Bio Log Store Fs Kalloc Vm Pipe File Proc Ptable Grow Fork.

Local Open Scope list_scope.
Local Open Scope Z_scope.

(** A scheduler: the slot [p] it looks at, and whether the processor runs the
    process of this slot. *)
Record scan := Scan { sc_p : nat; sc_busy : bool }.
Definition next_slot (p : nat) : nat := if Nat.eqb (S p) nproc then 0%nat else S p.

Section Code.
Context {S : Type} `{!BlockStore S}.
Context (kend kdata forkret_eip : Z).
Local Open Scope kernel_scope.
Abbreviation K := (M (kern S)).

(** The switch back, or the test of the next slot and the switch to it. *)
Definition scheduler_step (c : scan) : K scan :=
  if sc_busy c then ret (Scan (next_slot (sc_p c)) false)
  else
    p ← getp (sc_p c);
    if bool_decide (p_state p <> RUNNABLE) then ret (Scan (next_slot (sc_p c)) false)
    else scheduler_run (sc_p c);; ret (Scan (sc_p c) true).

(** ** RUNNABLE processes stay RUNNABLE *)

Definition state_of (i : nat) (s : kern S) : option procstate := p_state <$> procs s !! i.

(** The slots of [W] are RUNNABLE, and slot [k] has state [st]. *)
Definition keep (W : nat -> Prop) (k : nat) (st : procstate) (s : kern S) : Prop :=
  (forall i, W i -> state_of i s = Some RUNNABLE) /\ state_of k s = Some st.

Lemma state_nudged i st s s' : st <> SLEEPING -> nudged (procs s) (procs s') -> state_of i s = Some st -> state_of i s' = Some st.
Proof.
  unfold state_of. intros Hst Hn Hi. destruct (procs s !! i) as [p|] eqn:Hp; [|done]. injection Hi as Hs.
  destruct (nudged_fwd _ _ _ _ Hn Hp) as (p' & Hp' & [->|[Hsl _]]); [by rewrite Hp'; cbn; f_equal|congruence].
Qed.

Lemma keep_nudged W k st s s' : st <> SLEEPING -> nudged (procs s) (procs s') -> keep W k st s -> keep W k st s'.
Proof. intros Hst Hn [H1 H2]. split; [intros i Hi; by eapply state_nudged; [|done|apply H1]|by eapply state_nudged]. Qed.

Lemma keep_xio {A} (m : M (files S) A) W k st s : st <> SLEEPING -> keep W k st s -> wlp (xio m) (fun _ => keep W k st) s.
Proof. intros Hst Hk. apply wlp_xio. intros a s' _ Hn. by eapply keep_nudged. Qed.

Lemma state_alter i j f s : state_of i (set_procs (alter f j) s) = if decide (i = j) then (fun p => p_state (f p)) <$> procs s !! i else state_of i s.
Proof.
  unfold state_of. cbn [procs set_procs]. destruct (decide (i = j)) as [->|Hne]; [|by rewrite list_lookup_alter_ne].
  rewrite list_lookup_alter_eq. by destruct (procs s !! j).
Qed.

(** An update that leaves the state alone. *)
Definition stateless (f : proc -> proc) : Prop := forall p, p_state (f p) = p_state p.

Lemma keep_updp W k st j f s : stateless f -> keep W k st s -> wlp (updp j f) (fun _ => keep W k st) s.
Proof.
  intros Hf [H1 H2]. apply wlp_modify.
  assert (He : forall i, state_of i (set_procs (alter f j) s) = state_of i s).
  { intros i. rewrite state_alter. destruct (decide (i = j)); [|done]. unfold state_of. destruct (procs s !! i); [|done]. cbn. by rewrite Hf. }
  split; [intros i Hi; rewrite He; auto|by rewrite He].
Qed.

(** An update of the state of slot [k], which is not of [W]. *)
Lemma keep_set W k st st' s : st <> RUNNABLE -> keep W k st s -> wlp (updp k (set_state st')) (fun _ => keep W k st') s.
Proof.
  intros Hst [H1 H2]. apply wlp_modify. split.
  - intros i Hi. rewrite state_alter. destruct (decide (i = k)) as [->|]; [|auto]. specialize (H1 k Hi). congruence.
  - rewrite state_alter, decide_True by done. unfold state_of in H2. by destruct (procs s !! k).
Qed.

Definition all_runnable (W : nat -> Prop) (s : kern S) : Prop := forall i, W i -> state_of i s = Some RUNNABLE.

Lemma keep_all W k st s : keep W k st s -> all_runnable W s.
Proof. by intros [H _]. Qed.

Lemma all_nudged W s s' : nudged (procs s) (procs s') -> all_runnable W s -> all_runnable W s'.
Proof. intros Hn H i Hi. by eapply state_nudged; [|done|apply H]. Qed.

Ltac kio_step := apply wlp_bind; eapply wlp_conseq; [eapply keep_xio; [|eassumption]; done|cbv beta; intros ?r ?s ?H].
Ltac upd_step := apply wlp_bind; eapply wlp_conseq; [eapply keep_updp; [|eassumption]; done|cbv beta; intros _ ?s ?H].
Ltac set_step := apply wlp_bind; eapply wlp_conseq; [eapply keep_set; [|eassumption]; done|cbv beta; intros _ ?s ?H].

Lemma allocproc_keep W s : all_runnable W s ->
  wlp (allocproc forkret_eip) (fun r s' => match r with Some np => keep W np EMBRYO s' | None => all_runnable W s' end) s.
Proof.
  intros Hw. unfold allocproc. apply wlp_bind, wlp_gets. destruct (find_idx _ (procs s)) as [i|] eqn:Hf; [|by apply wlp_ret].
  apply find_idx_Some in Hf as [(p & Hp & Hs) _]. apply bool_decide_eq_true in Hs.
  assert (H0 : keep W i UNUSED s) by (split; [done|]; unfold state_of; by rewrite Hp, <- Hs).
  set_step. apply wlp_bind, wlp_gets. upd_step. apply wlp_bind, wlp_modify.
  match goal with |- wlp _ _ ?s => assert (H2 : keep W i EMBRYO s) by done end.
  kio_step. upd_step. destruct (_ =? 0).
  - set_step. apply wlp_ret. by eapply keep_all.
  - apply wlp_bind, wlp_gets. upd_step. upd_step. by apply wlp_ret.
Qed.

Lemma dup_files_keep W np fds s : keep W np EMBRYO s -> wlp (dup_files np fds) (fun _ => keep W np EMBRYO) s.
Proof.
  intros Hk. apply (wlp_each _ (keep W np EMBRYO)); [done|]. intros [fd [f|]] s1 _ H1; [|by apply wlp_ret].
  kio_step. apply keep_updp; [by intros q|done].
Qed.

Lemma fork_keep W s : all_runnable W s -> wlp (fork kend kdata forkret_eip) (fun _ => all_runnable W) s.
Proof.
  intros Hw. unfold fork. apply wlp_bind, wlp_gets, wlp_bind. eapply wlp_conseq; [by apply (allocproc_keep W)|]. cbv beta. intros [np|] s1 H1; [|by apply wlp_ret].
  apply wlp_bind, wlp_gets. kio_step. apply wlp_bind, wlp_gets. upd_step. destruct (_ =? 0).
  - kio_step. upd_step. set_step. apply wlp_ret. by eapply keep_all.
  - upd_step. upd_step. upd_step. apply wlp_bind. eapply wlp_conseq; [by apply dup_files_keep|]. cbv beta. intros _ ?s ?H.
    kio_step. upd_step. upd_step. apply wlp_bind, wlp_gets. upd_step. set_step. apply wlp_ret. by eapply keep_all.
Qed.

Lemma wait_keep W s : all_runnable W s -> wlp (wait_scan kend) (fun _ => all_runnable W) s.
Proof.
  intros Hw. unfold wait_scan. apply wlp_bind, wlp_gets, wlp_bind, wlp_gets. destruct (find_idx _ (procs s)) as [i|] eqn:Hf.
  2:{ apply wlp_bind, wlp_gets. destruct (_ || _); by apply wlp_ret. }
  apply find_idx_Some in Hf as [(p & Hp & Hs) _]. apply andb_prop in Hs as [_ Hs]. apply bool_decide_eq_true in Hs.
  assert (H0 : keep W i ZOMBIE s) by (split; [done|]; unfold state_of; by rewrite Hp, <- Hs).
  apply wlp_bind, wlp_gets. kio_step. upd_step. kio_step. do 4 upd_step. set_step. apply wlp_ret. by eapply keep_all.
Qed.

Lemma exit_keep W s : running s -> all_runnable W s -> wlp (exit kend) (fun _ => all_runnable W) s.
Proof.
  intros (p & Hp & Hr) Hw. assert (H0 : keep W (curp s) RUNNING s) by (split; [done|]; unfold state_of; by rewrite Hp, <- Hr).
  unfold exit. apply wlp_bind, wlp_gets, wlp_bind, wlp_gets. generalize dependent (curp s). intros me _ H0. case_bool_decide; [apply wlp_panic|].
  apply wlp_bind. eapply wlp_conseq; [apply (wlp_each _ (keep W me RUNNING)); [done|]|].
  { intros fd s1 _ H1. apply wlp_bind, wlp_gets. destruct (nthd None _ fd); [|by apply wlp_ret]. kio_step. apply keep_updp; [by intros q|done]. }
  cbv beta. intros [] s1 H1. apply wlp_bind, wlp_gets. kio_step. kio_step. kio_step. upd_step.
  assert (Hwake : forall c s, keep W me RUNNING s -> wlp (wakeup1 c) (fun _ => keep W me RUNNING) s).
  { intros c s6 H6. apply wlp_modify. eapply keep_nudged; [discriminate| |exact H6]. apply wake_nudged. }
  apply wlp_bind. eapply wlp_conseq; [by apply Hwake|]. cbv beta. intros [] s7 H7. apply wlp_bind. eapply wlp_conseq; [apply (wlp_each _ (keep W me RUNNING)); [done|]|].
  { intros j s8 _ H8. apply wlp_bind, wlp_gets. case_bool_decide; [|by apply wlp_ret]. upd_step. case_bool_decide; [by apply Hwake|by apply wlp_ret]. }
  cbv beta. intros [] s9 H9. set_step. unfold sched. apply wlp_bind, wlp_gets, wlp_bind, wlp_gets. case_bool_decide; [apply wlp_panic|]. apply wlp_ret. by eapply keep_all.
Qed.

Lemma running_keep W s : running s -> all_runnable W s -> keep W (curp s) RUNNING s.
Proof. intros (p & Hp & Hr) Hw. split; [done|]. unfold state_of. by rewrite Hp, <- Hr. Qed.

Lemma sched_keep W s : all_runnable W s -> wlp sched (fun _ => all_runnable W) s.
Proof. intros Hw. unfold sched. apply wlp_bind, wlp_gets, wlp_bind, wlp_gets. case_bool_decide; [apply wlp_panic|by apply wlp_ret]. Qed.

Lemma sleep_keep W c s : running s -> all_runnable W s -> wlp (sleep c) (fun _ => all_runnable W) s.
Proof.
  intros Hr Hw. pose proof (running_keep W s Hr Hw) as H0. unfold sleep. apply wlp_bind, wlp_gets. upd_step. set_step. apply sched_keep. by eapply keep_all.
Qed.

Lemma kill_keep W pid s : all_runnable W s -> wlp (kill pid) (fun _ => all_runnable W) s.
Proof.
  intros Hw. unfold kill. apply wlp_bind, wlp_gets. destruct (find_idx _ (procs s)) as [i|]; [|by apply wlp_ret]. apply wlp_bind, wlp_modify, wlp_bind, wlp_gets, wlp_bind.
  assert (Hall : forall f s, (forall p, p_state p = RUNNABLE -> p_state (f p) = RUNNABLE) -> all_runnable W s -> all_runnable W (set_procs (alter f i) s)).
  { intros f s1 Hf H1 j Hj. rewrite state_alter. specialize (H1 j Hj). destruct (decide (j = i)); [|done]. unfold state_of in H1.
    destruct (procs s1 !! j); [|done]. injection H1 as H1. cbn. by rewrite Hf. }
  case_bool_decide; [apply wlp_modify|]; apply wlp_ret; [apply Hall; [done|]|]; by apply Hall.
Qed.

Lemma growproc_keep W n s : running s -> all_runnable W s -> wlp (growproc kend n) (fun _ => all_runnable W) s.
Proof.
  intros Hr Hw. pose proof (running_keep W s Hr Hw) as H0. unfold growproc. apply wlp_bind, wlp_gets, wlp_bind, wlp_gets. apply wlp_bind.
  apply (wlp_conseq _ (fun _ => keep W (curp s) RUNNING)).
  - destruct (0 <? n); [kio_step; by apply wlp_ret|]. destruct (n <? 0); [kio_step; by apply wlp_ret|by apply wlp_ret].
  - intros [sz|] s1 H1; [|apply wlp_ret; by eapply keep_all]. upd_step. apply wlp_ret. by eapply keep_all.
Qed.

Lemma wait_none (s s1 : kern S) : wait_scan kend s = Ok None s1 -> s1 = s.
Proof.
  assert (Hw : wlp (wait_scan kend) (fun r s' => r = None -> s' = s) s).
  { unfold wait_scan. apply wlp_bind, wlp_gets, wlp_bind, wlp_gets. destruct (find_idx _ (procs s)) as [i|].
    - apply wlp_bind, wlp_gets. do 8 (apply wlp_last; intros ? ?). by apply wlp_ret.
    - apply wlp_bind, wlp_gets. destruct (_ || _); by apply wlp_ret. }
  intros E. by apply (wlp_Ok _ _ _ _ _ Hw E).
Qed.

(** Only a scheduler takes a process out of the state RUNNABLE: it runs. *)
Lemma runnable_kept s s' i : pkstep kend kdata forkret_eip s s' -> state_of i s = Some RUNNABLE -> state_of i s' = Some RUNNABLE \/ scheduler_run i s = Ok tt s'.
Proof.
  intros Hst Hi. set (W := fun j => j = i). assert (Hw : all_runnable W s) by (by intros j ->).
  assert (Hdone : forall s', all_runnable W s' -> state_of i s' = Some RUNNABLE \/ scheduler_run i s = Ok tt s') by (intros s2 H2; left; by apply H2).
  destruct Hst as [s r s' Hr Hp E|s s' Hr E|s r s' Hr E|s s1 s' Hr E1 E2|s c s' Hr Hc E|s s' Hr E|s s' Hr E|s pid r s' Hr E|s n r s' Hr E|s c s' E
    |A m s a s' E|s j p s' Hp Hs E|s j p Hp Hs].
  - apply Hdone. by apply (wlp_Ok _ _ _ _ _ (fork_keep W s Hw) E).
  - apply Hdone. by apply (wlp_Ok _ _ _ _ _ (exit_keep W s Hr Hw) E).
  - apply Hdone. unfold wait, bind in E. pose proof (wait_keep W s Hw) as Hk. unfold wlp in Hk. destruct (wait_scan kend s) as [[v|] s1| |]; [|done|done|done].
    by injection E as _ <-.
  - apply wait_none in E1 as ->. apply Hdone. by apply (wlp_Ok _ _ _ _ _ (sleep_keep W _ s Hr Hw) E2).
  - apply Hdone. by apply (wlp_Ok _ _ _ _ _ (sleep_keep W _ s Hr Hw) E).
  - apply Hdone. pose proof (running_keep W s Hr Hw) as H0. eapply keep_all, (wlp_Ok _ _ _ _ _ (keep_updp W (curp s) RUNNING (curp s) (set_chan ChNull) s ltac:(done) H0)). exact E.
  - apply Hdone. pose proof (running_keep W s Hr Hw) as H0. assert (Hy : wlp yield (fun _ => all_runnable W) s).
    { unfold yield. apply wlp_bind, wlp_gets. set_step. apply sched_keep. by eapply keep_all. }
    by apply (wlp_Ok _ _ _ _ _ Hy E).
  - apply Hdone. by apply (wlp_Ok _ _ _ _ _ (kill_keep W pid s Hw) E).
  - apply Hdone. by apply (wlp_Ok _ _ _ _ _ (growproc_keep W n s Hr Hw) E).
  - apply Hdone. injection E as <-. eapply all_nudged; [|exact Hw]. apply wake_nudged.
  - apply Hdone. eapply (wlp_Ok (xio m) (fun _ s' => all_runnable W s')); [|exact E]. apply wlp_xio. intros ? s2 _ Hn. by eapply all_nudged.
  - destruct (decide (j = i)) as [->|Hne]; [by right|]. left. injection E as <-.
    change (state_of i (set_procs (alter (set_state RUNNING) j) s) = Some RUNNABLE). rewrite state_alter. by rewrite decide_False.
  - by left.
Qed.

(** ** Every process is run *)

(** The turns a scheduler at [c] takes until it looks at slot [i]. *)
Definition distance (i : nat) (c : scan) : nat :=
  let d := if Nat.leb (sc_p c) i then (i - sc_p c)%nat else (nproc - sc_p c + i)%nat in
  if sc_busy c then (if Nat.eqb d 0 then 2 * nproc else 2 * d)%nat else (2 * d + 1)%nat.

Lemma distance_next i p b : (i < nproc)%nat -> (p < nproc)%nat -> (b = true \/ p <> i) -> (distance i (Scan (next_slot p) false) < distance i (Scan p b))%nat.
Proof.
  intros Hi Hp Hb. unfold distance, next_slot. cbn [sc_p sc_busy]. change nproc with 64%nat in *.
  destruct (Nat.eqb_spec (Datatypes.S p) 64); destruct b; repeat match goal with |- context [Nat.leb ?a ?b] => destruct (Nat.leb_spec a b) end;
    repeat match goal with |- context [Nat.eqb ?a ?b] => destruct (Nat.eqb_spec a b) end; destruct Hb as [Hb|Hb]; try lia; try discriminate.
Qed.

Section Trace.
(** A run of the kernel: the steps of the processes and processors, and those
    of the scheduler of one processor. *)
Context (tr : nat -> kern S) (sc : nat -> scan) (mine : nat -> bool).
Context (Hother : forall n, mine n = false -> pkstep kend kdata forkret_eip (tr n) (tr (Datatypes.S n)) /\ sc (Datatypes.S n) = sc n).
Context (Hmine : forall n, mine n = true -> scheduler_step (sc n) (tr n) = Ok (sc (Datatypes.S n)) (tr (Datatypes.S n))).
Context (Hslot : (sc_p (sc 0%nat) < nproc)%nat).
(** The scheduler gets on: the process it switched to gives up the processor
    at some time, as the timer makes it do. *)
Context (Hfair : forall n, exists m, (n <= m)%nat /\ mine m = true).

Lemma slot_at n : (sc_p (sc n) < nproc)%nat.
Proof.
  induction n as [|n IH]; [done|]. destruct (mine n) eqn:Em; [|by rewrite (proj2 (Hother n Em))].
  pose proof (Hmine n Em) as E. unfold scheduler_step, bind, getp, gets in E.
  assert (Hn : (next_slot (sc_p (sc n)) < nproc)%nat) by (unfold next_slot; change nproc with 64%nat in *; destruct (Nat.eqb_spec (Datatypes.S (sc_p (sc n))) 64); lia).
  destruct (sc_busy (sc n)); [by injection E as <-|]. case_bool_decide; by injection E as <-.
Qed.

(** One step: the process is run, or it waits and the scheduler does not move
    away from it. *)
Lemma sched_progress n i : (i < nproc)%nat -> state_of i (tr n) = Some RUNNABLE ->
  scheduler_run i (tr n) = Ok tt (tr (Datatypes.S n)) \/
  (state_of i (tr (Datatypes.S n)) = Some RUNNABLE /\
   if mine n then (distance i (sc (Datatypes.S n)) < distance i (sc n))%nat else sc (Datatypes.S n) = sc n).
Proof.
  intros Hi Hs. destruct (mine n) eqn:Em.
  2:{ destruct (Hother n Em) as [Hst Hsc]. destruct (runnable_kept _ _ _ Hst Hs); [by right|by left]. }
  pose proof (Hmine n Em) as E. pose proof (slot_at n) as Hp. destruct (sc n) as [p b] eqn:Esc. cbn [sc_p] in Hp.
  unfold scheduler_step, bind, getp, gets in E. cbn [sc_p sc_busy] in E. destruct b.
  - injection E as <- <-. right. split; [done|]. apply distance_next; auto.
  - case_bool_decide as Hst.
    + injection E as <- <-. right. split; [done|]. apply distance_next; [done|done|]. right. intros ->. apply Hst. unfold state_of in Hs.
      destruct (procs (tr n) !! i) as [q|] eqn:Hq; [|done]. rewrite (nthd_lookup _ _ _ _ Hq). by injection Hs.
    + destruct (decide (p = i)) as [->|Hne]; [left; by injection E as _ <-|]. injection E as <- <-. right. split.
      * change (state_of i (set_procs (alter (set_state RUNNING) p) (tr n)) = Some RUNNABLE). rewrite state_alter, decide_False by done. done.
      * unfold distance. cbn [sc_p sc_busy]. change nproc with 64%nat in *. destruct (Nat.leb_spec p i); destruct (Nat.eqb_spec (i - p) 0), (Nat.eqb_spec (64 - p + i) 0); lia.
Qed.

(** C12: the scheduler is fair.  In every infinite run in which the scheduler
    of one processor keeps getting on, every RUNNABLE process is eventually run,
    whatever the processes and the other processors do. *)
Theorem sched_live n i (Hi : (i < nproc)%nat) (Hs : state_of i (tr n) = Some RUNNABLE) :
  exists m, (n <= m)%nat /\ scheduler_run i (tr m) = Ok tt (tr (Datatypes.S m)) /\ state_of i (tr (Datatypes.S m)) = Some RUNNING.
Proof.
  assert (Hrun : exists m, (n <= m)%nat /\ state_of i (tr m) = Some RUNNABLE /\ scheduler_run i (tr m) = Ok tt (tr (Datatypes.S m))).
  { remember (distance i (sc n)) as k eqn:Hk. revert n Hs Hk. induction k as [k IH] using lt_wf_ind. intros n Hs ->.
    destruct (Hfair n) as (m & Hm & Hmi). remember (m - n)%nat as w eqn:Hw. revert n Hs Hm Hw IH. induction w as [|w IHw]; intros n Hs Hm Hw IH.
    - assert (m = n) as -> by lia. destruct (sched_progress n i Hi Hs) as [?|[Hs' Hd]]; [by exists n|]. rewrite Hmi in Hd.
      destruct (IH _ Hd (Datatypes.S n) Hs' eq_refl) as (m' & Hm' & ?). exists m'. split; [lia|done].
    - destruct (sched_progress n i Hi Hs) as [?|[Hs' Hd]]; [by exists n|]. destruct (mine n) eqn:En.
      + destruct (IH _ Hd (Datatypes.S n) Hs' eq_refl) as (m' & Hm' & ?). exists m'. split; [lia|done].
      + destruct (IHw (Datatypes.S n) Hs') as (m' & Hm' & ?); [lia|lia|by rewrite Hd|]. exists m'. split; [lia|done]. }
  destruct Hrun as (m & Hm & Hs' & E). exists m. split; [done|]. split; [done|]. injection E as <-.
  change (state_of i (set_procs (alter (set_state RUNNING) i) (tr m)) = Some RUNNING). rewrite state_alter, decide_True by done.
  unfold state_of in Hs'. by destruct (procs (tr m) !! i).
Qed.
End Trace.
End Code.

(** ** A witness: one process, and then nothing to run *)

Definition smp_ready : kern lst := set_procs (alter (set_state RUNNABLE) 0%nat) (smp_kern smp_mem1).
Definition smp_busy : kern lst := Kern (k_x smp_ready) (alter (set_state RUNNING) 0%nat (procs smp_ready)) 0 (initproc smp_ready) (nextpid smp_ready) (k_users smp_ready) (k_ticks smp_ready).
Fixpoint smp_slot (n : nat) : nat := match n with O => 0%nat | S k => next_slot (smp_slot k) end.
Definition smp_scan (n : nat) : scan := match n with O => Scan 0 false | 1%nat => Scan 0 true | S (S k) => Scan (smp_slot (S k)) false end.

Lemma smp_nothing p : p_state (nthd proc0 (procs smp_busy) p) <> RUNNABLE.
Proof.
  destruct p as [|p]; [by vm_compute|]. unfold smp_busy, smp_ready, nthd. cbn [procs set_procs smp_kern].
  rewrite !list_lookup_alter_ne, list_lookup_insert_ne by done. destruct (replicate nproc proc0 !! S p) as [q|] eqn:E; [|done]. by apply lookup_replicate in E as [-> _].
Qed.

Lemma sched_live_witness : exists m, scheduler_run 0 (match m with O => smp_ready | S _ => smp_busy end) = Ok tt smp_busy.
Proof.
  destruct (sched_live 0 0 0 (fun n => match n with O => smp_ready | S _ => smp_busy end) smp_scan (fun _ => true)) with (n := 0%nat) (i := 0%nat) as (m & _ & E & _).
  - intros n Hn. discriminate Hn.
  - intros [|[|n]] _; [reflexivity|reflexivity|]. unfold scheduler_step, smp_scan at 1. cbn [sc_busy sc_p]. unfold bind, getp, gets.
    rewrite bool_decide_true by apply smp_nothing. reflexivity.
  - change nproc with 64%nat. cbn. lia.
  - intros n. exists n. by split.
  - change nproc with 64%nat. lia.
  - reflexivity.
  - exists m. exact E.
Defined.
