(* ===== verification/Uart.v ===== *)
(** The serial line, uart.c: an Intel 8250 behind eight ports.

    [Serial] is the documented behaviour of the chip as the driver uses it.  The
    interrupt handler gives every received byte to the console's line editor. *)
From stdpp Require Import base numbers list strings.
From Stdlib Require Import ZArith Lia.
From S2P Require Import Prelude Params CString Console Ports Apic.

Local Open Scope list_scope.
Local Open Scope Z_scope.
Local Open Scope kernel_scope.

Definition COM1 : Z := 1016.

(** [uart]: is there a uart? *)
Record ustate (D : Type) := Ustate { uart : bool; u_dev : D }.
Arguments Ustate {D}.
Arguments uart {D} _.
Arguments u_dev {D} _.

Section Code.
Context {D : Type} `{!PortIO D}.
Abbreviation K := (M (ustate D)).

Definition uport {A} (x : M D A) : K A := zoom u_dev (fun d s => Ustate (uart s) d) x.

(** At most [n] looks at the line status, until the transmitter is empty. *)
Fixpoint tx_wait (n : nat) : K unit :=
  match n with
  | O => ret tt
  | S n' => r ← uport (inb (COM1 + 5)); if truth (Z.land r 32) then ret tt else tx_wait n'
  end.

Definition uartputc (c : Z) : K unit :=
  u ← gets uart;
  if negb u then ret tt
  else tx_wait 128;; uport (outb (COM1 + 0) c).

Definition uartgetc : K Z :=
  u ← gets uart;
  if negb u then ret (-1)
  else
    r ← uport (inb (COM1 + 5));
    if negb (truth (Z.land r 1)) then ret (-1) else uport (inb (COM1 + 0)).

Definition uartinit `{!Mmio D} : K unit :=
  uport (outb (COM1 + 2) 0);;
  uport (outb (COM1 + 3) 128);;
  uport (outb (COM1 + 0) (115200 / 9600));;
  uport (outb (COM1 + 1) 0);;
  uport (outb (COM1 + 3) 3);;
  uport (outb (COM1 + 4) 0);;
  uport (outb (COM1 + 1) 1);;
  r ← uport (inb (COM1 + 5));
  if r =? 255 then ret tt
  else
    modify (fun s => Ustate true (u_dev s));;
    uport (inb (COM1 + 2));;
    uport (inb (COM1 + 0));;
    uport (ioapicenable IRQ_COM1 0);;
    each (removelast (lit "xv6...") ++ [10]) uartputc.

(** [consoleintr] called with [uartgetc]: as long as there are characters.  The
    value is what the console answers, and its buffer. *)
Fixpoint uartintr (fuel : nat) (i : input) : K (list reply * input) :=
  match fuel with
  | O => blocked "uartintr"
  | S f =>
      c ← uartgetc;
      if c <? 0 then ret ([], i)
      else
        let r := consoleintr c i in
        x ← uartintr f r.2;
        ret (r.1 :: x.1, x.2)
  end.
End Code.

(** ** What the chip does *)

(** The bytes received and not yet read, the bytes sent, the divisor of the
    clock, the line control register (its top bit gives ports 0 and 1 to the
    divisor) and the interrupt enable register. *)
Record chip := Chip { rx : list Z; tx : list Z; divisor : Z; lcr : Z; ier : Z }.
Definition dlab (c : chip) : bool := Z.testbit (lcr c) 7.
Definition chip_out (port v : Z) (c : chip) : chip :=
  if port =? COM1 then
    if dlab c then Chip (rx c) (tx c) (256 * (divisor c / 256) + v) (lcr c) (ier c)
    else Chip (rx c) (tx c ++ [v]) (divisor c) (lcr c) (ier c)
  else if port =? COM1 + 1 then
    if dlab c then Chip (rx c) (tx c) (256 * v + divisor c mod 256) (lcr c) (ier c)
    else Chip (rx c) (tx c) (divisor c) (lcr c) v
  else if port =? COM1 + 3 then Chip (rx c) (tx c) (divisor c) v (ier c)
  else c.
Definition chip_in (port : Z) (c : chip) : chip :=
  if (port =? COM1) && negb (dlab c) then Chip (tail (rx c)) (tx c) (divisor c) (lcr c) (ier c) else c.

Lemma chip_setup c :
  chip_in (COM1 + 0) (chip_in (COM1 + 2) (chip_in (COM1 + 5) (chip_out (COM1 + 1) (u8 1) (chip_out (COM1 + 4) (u8 0)
    (chip_out (COM1 + 3) (u8 3) (chip_out (COM1 + 1) (u8 0) (chip_out (COM1 + 0) (u8 (115200 / 9600))
      (chip_out (COM1 + 3) (u8 128) (chip_out (COM1 + 2) (u8 0) c))))))))) = Chip (tail (rx c)) (tx c) 12 3 1.
Proof.
  destruct c as [r t d l e]. transitivity (Chip (tail r) t (256 * 0 + (256 * (d / 256) + 12) mod 256) 3 1); [reflexivity|].
  f_equal. by rewrite (Z.add_comm (256 * (d / 256))), (Z.mul_comm 256 (d / 256)), Z.mod_add.
Qed.

Class Serial (D : Type) `{!PortIO D} := {
  ser : D -> chip;
  ser_bytes d : Forall (fun b => 0 <= b < 256) (rx (ser d));
  ser_out d port v : COM1 <= port < COM1 + 8 -> ser (p_out port v d) = chip_out port v (ser d);
  ser_in d port : COM1 <= port < COM1 + 8 -> ser (p_in port d).2 = chip_in port (ser d);
  ser_status d : Z.land (p_in (COM1 + 5) d).1 1 = (match rx (ser d) with [] => 0 | _ => 1 end) /\ (p_in (COM1 + 5) d).1 <> 255;
  ser_data d b r : dlab (ser d) = false -> rx (ser d) = b :: r -> (p_in COM1 d).1 = b
}.

Section Spec.
Context {D : Type} `{Serial D}.

(** Steps of the driver, on the chip. *)
Lemma uport_out_wp port v s Q E : COM1 <= port < COM1 + 8 ->
  (forall d, ser d = chip_out port (u8 v) (ser (u_dev s)) -> Q tt (Ustate (uart s) d)) -> wp (uport (outb port v)) Q E s.
Proof. intros Hp HQ. unfold uport. apply HQ. by apply ser_out. Qed.
Lemma uport_in_wp port s (Q : Z -> ustate D -> Prop) E : COM1 <= port < COM1 + 8 ->
  (forall d, ser d = chip_in port (ser (u_dev s)) -> Q (p_in port (u_dev s)).1 (Ustate (uart s) d)) -> wp (uport (inb port)) Q E s.
Proof. intros Hp HQ. unfold uport. apply HQ. by apply ser_in. Qed.

Lemma tx_wait_wp n : forall s (Q : unit -> ustate D -> Prop) E,
  (forall d, ser d = ser (u_dev s) -> Q tt (Ustate (uart s) d)) -> wp (tx_wait n) Q E s.
Proof.
  induction n as [|n IH]; intros s Q E HQ; cbn [tx_wait]; [apply wp_ret; destruct s; by apply HQ|].
  apply wp_bind, uport_in_wp; [lia|]. intros d Hd. change (chip_in (COM1 + 5) ?c) with c in Hd.
  destruct (truth _); [by apply wp_ret, HQ|]. apply IH. intros d' Hd'. apply HQ. by rewrite Hd'.
Qed.

(** The byte is sent whatever the status says, after at most 128 looks. *)
Lemma uartputc_wp c s (Q : unit -> ustate D -> Prop) E : uart s = true -> dlab (ser (u_dev s)) = false ->
  (forall d, ser d = chip_out COM1 (u8 c) (ser (u_dev s)) -> Q tt (Ustate true d)) -> wp (uartputc c) Q E s.
Proof.
  intros Hu Hl HQ. unfold uartputc. apply wp_bind, wp_gets. rewrite Hu. cbn [negb].
  apply wp_bind, tx_wait_wp. intros d Hd. apply uport_out_wp; [lia|]. cbn [u_dev uart]. intros d' Hd'. rewrite Hu. apply HQ.
  rewrite Hd', Hd. done.
Qed.

Lemma uartgetc_wp s (Q : Z -> ustate D -> Prop) E : uart s = true -> dlab (ser (u_dev s)) = false ->
  (forall d, match rx (ser (u_dev s)) with
             | [] => ser d = ser (u_dev s) -> Q (-1) (Ustate true d)
             | b :: _ => ser d = chip_in COM1 (ser (u_dev s)) -> Q b (Ustate true d)
             end) -> wp uartgetc Q E s.
Proof.
  intros Hu Hl HQ. unfold uartgetc. apply wp_bind, wp_gets. rewrite Hu. cbn [negb].
  apply wp_bind, uport_in_wp; [lia|]. intros d Hd. change (chip_in (COM1 + 5) ?c) with c in Hd.
  destruct (ser_status (u_dev s)) as [-> _]. destruct (rx (ser (u_dev s))) as [|b r] eqn:Er; cbn [truth negb Z.eqb].
  - apply wp_ret. rewrite Hu. by apply (HQ d).
  - apply uport_in_wp; [lia|]. cbn [u_dev uart]. intros d' Hd'. rewrite Hu.
    replace (p_in (COM1 + 0) d).1 with b by (symmetry; apply (ser_data d b r); by rewrite Hd). apply (HQ d').
    by rewrite Hd', Hd.
Qed.

Lemma uartputs_wp cs : forall s (Q : unit -> ustate D -> Prop) E, uart s = true -> dlab (ser (u_dev s)) = false ->
  (forall d, ser d = (let c := ser (u_dev s) in Chip (rx c) (tx c ++ (u8 <$> cs)) (divisor c) (lcr c) (ier c)) -> Q tt (Ustate true d)) ->
  wp (each cs uartputc) Q E s.
Proof.
  induction cs as [|c cs IH]; intros s Q E Hu Hl HQ; cbn [each].
  { apply wp_ret. destruct s as [u d]. cbn in Hu. subst u. apply HQ. cbn. rewrite app_nil_r. by destruct (ser d). }
  apply wp_bind, uartputc_wp; [done..|]. intros d Hd. unfold chip_out in Hd. rewrite Z.eqb_refl, Hl in Hd.
  apply IH; cbn [uart u_dev]; [done|by rewrite Hd|]. intros d' Hd'. apply HQ. rewrite Hd', Hd. cbn. by rewrite <- app_assoc.
Qed.

(** [uartinit] leaves the line at 9600 baud (divisor 12) with 8 data bits, one
    stop bit and no parity, the receive interrupt on, and the greeting sent;
    stores to the interrupt controller do not reach the line. *)
Lemma uartinit_wp `{!Mmio D} (Hmm : forall d a v, ser (mm_write a v d : D) = ser d) (s : ustate D) :
  wp uartinit (fun _ s' => uart s' = true /\ divisor (ser (u_dev s')) = 12 /\ lcr (ser (u_dev s')) = 3 /\ ier (ser (u_dev s')) = 1 /\
    tx (ser (u_dev s')) = tx (ser (u_dev s)) ++ [120; 118; 54; 46; 46; 46; 10]) (fun _ => False) s.
Proof.
  unfold uartinit. do 7 (apply wp_bind, uport_out_wp; [unfold COM1; lia|]; intros ? ?). cbn [uart u_dev] in *.
  apply wp_bind, uport_in_wp; [lia|]. cbn [u_dev uart]. intros d7 H7. destruct (ser_status d5) as [_ Hs].
  rewrite (proj2 (Z.eqb_neq _ _) Hs). apply wp_bind, wp_modify. cbn [u_dev].
  do 2 (apply wp_bind, uport_in_wp; [unfold COM1; lia|]; cbn [u_dev uart]; intros ? ?).
  apply wp_bind. unfold wp at 1, uport, zoom, ioapicenable, ioapicwrite, store32, bind. cbn [u_dev uart].
  set (d' := mm_write IOWIN _ _). assert (Hd' : ser d' = ser d8) by (unfold d'; by rewrite !Hmm).
  assert (Hc : exists r, ser d' = Chip r (tx (ser (u_dev s))) 12 3 1).
  { rewrite Hd'. eexists. repeat match goal with H : ser _ = _ |- _ => rewrite H; clear H end. apply chip_setup. }
  destruct Hc as [r Hc]. apply uartputs_wp; cbn [u_dev]; [done|by rewrite Hc|]. intros d9 ->. by rewrite Hc.
Qed.

Lemma uartintr_run n : forall s i l, uart s = true -> dlab (ser (u_dev s)) = false -> edits i l -> length (rx (ser (u_dev s))) = n ->
  exists rs i' s', uartintr (S n) i s = Ok (rs, i') s' /\
    let bytes := rx (ser (u_dev s)) in
    AKey <$> rs = (run line_step (Key <$> bytes) l).1 /\ edits i' (run line_step (Key <$> bytes) l).2 /\
    rx (ser (u_dev s')) = [] /\ tx (ser (u_dev s')) = tx (ser (u_dev s)).
Proof.
  induction n as [|n IH]; intros s i l Hu Hl He Hn.
  - destruct (rx (ser (u_dev s))) as [|b r] eqn:Er; [|done].
    destruct (wp_total uartgetc (fun c s' => c = -1 /\ ser (u_dev s') = ser (u_dev s)) s) as (c & s' & E & -> & Es).
    { apply uartgetc_wp; [done..|]. intros d. rewrite Er. intros Hd. by split. }
    exists [], i, s'. cbn [uartintr]. unfold bind. rewrite E. rewrite Es, Er. done.
  - destruct (rx (ser (u_dev s))) as [|b r] eqn:Er; [done|].
    destruct (wp_total uartgetc (fun c s' => c = b /\ uart s' = true /\ ser (u_dev s') = chip_in COM1 (ser (u_dev s))) s) as (c & s' & E & -> & Hu' & Es).
    { apply uartgetc_wp; [done..|]. intros d. rewrite Er. intros Hd. by split. }
    unfold chip_in in Es. rewrite Hl, Z.eqb_refl in Es. cbn [negb andb] in Es.
    pose proof (ser_bytes (u_dev s)) as Hb. rewrite Er in Hb, Es. apply Forall_cons in Hb as [Hb _]. cbn [tail] in Es.
    destruct (key_sim b i l Hb He) as [E1 E2].
    destruct (IH s' (consoleintr b i).2 (key b l).2 Hu') as (rs & i' & s2 & R & A & F & G1 & G2); [by rewrite Es|done|rewrite Es; by injection Hn|].
    exists ((consoleintr b i).1 :: rs), i', s2. change (uartintr (S (S n)) i) with
      (c ← uartgetc; if c <? 0 then ret ([], i) else let r := consoleintr c i in x ← uartintr (S n) r.2; ret (r.1 :: x.1, x.2)).
    unfold bind at 1. rewrite E, (proj2 (Z.ltb_ge b 0)) by lia. cbv zeta. unfold bind. rewrite R.
    rewrite Es in *. cbn [rx tx] in *. split; [done|].
    cbn [fmap list_fmap run line_step fst snd]. rewrite E1. split; [f_equal; exact A|done].
Qed.

(** The serial interrupt.  Whatever bytes have arrived, the handler takes
    all of them, in order, sends nothing, and the console answers as the line
    editor does on these bytes, with the line being typed in its buffer. *)
Theorem uart_edits (s : ustate D) (i : input) (l : line) :
  uart s = true -> dlab (ser (u_dev s)) = false -> edits i l ->
  exists rs i' s', uartintr (S (length (rx (ser (u_dev s))))) i s = Ok (rs, i') s' /\
    let bytes := rx (ser (u_dev s)) in
    AKey <$> rs = (run line_step (Key <$> bytes) l).1 /\ edits i' (run line_step (Key <$> bytes) l).2 /\
    rx (ser (u_dev s')) = [] /\ tx (ser (u_dev s')) = tx (ser (u_dev s)).
Proof.
  intros Hu Hl He. by apply uartintr_run.
Qed.
End Spec.

(** ** A serial line *)

Definition byte_chip (c : chip) : chip := Chip (u8 <$> rx c) (tx c) (divisor c) (lcr c) (ier c).
#[export] Instance chip_io : PortIO chip := {|
  p_in port c :=
    (if port =? COM1 + 5 then (match rx c with [] => 96 | _ => 97 end)
     else if port =? COM1 then (match rx c with [] => 0 | b :: _ => u8 b end) else 0, chip_in port c);
  p_out := chip_out; p_insl _ c := ([], c); p_outsl _ c := c
|}.

#[export] Program Instance chip_serial : Serial chip := {| ser := byte_chip |}.
Next Obligation.
  intros d. cbn. apply Forall_fmap, Forall_forall. intros x _. unfold compose, u8. apply Z.mod_pos_bound. lia.
Qed.
Next Obligation.
  intros d port v _. cbn [p_out chip_io]. unfold chip_out, byte_chip, dlab. cbn [lcr].
  repeat match goal with |- context [if ?b then _ else _] => destruct b end; done.
Qed.
Next Obligation.
  intros d port _. cbn [p_in chip_io snd]. unfold chip_in, byte_chip, dlab. cbn [lcr].
  destruct (_ && _); [|done]. cbn [rx tx divisor lcr ier]. by destruct (rx d).
Qed.
Next Obligation. intros d. cbn. by destruct (rx d). Qed.
Next Obligation.
  intros d b r _. cbn. destruct (rx d) as [|x y]; [done|]. cbn. by intros [= -> _].
Qed.

(** "ls", Return. *)
Lemma uart_edits_witness :
  exists rs i' s', uartintr 4 input0 (Ustate true (Chip [108; 115; 13] [] 12 3 1)) = Ok (rs, i') s' /\
    edits i' (Line [108; 115; 10] []) /\ rx (u_dev s') = [].
Proof.
  destruct (uart_edits (Ustate true (Chip [108; 115; 13] [] 12 3 1)) input0 (Line [] [])) as (rs & i' & s' & E & _ & E2 & E3 & _);
    [reflexivity..|apply edits_init|].
  exists rs, i', s'. split; [exact E|]. split; [exact E2|]. cbn in E3. by apply fmap_nil_inv in E3.
Defined.
