(* ===== verification/Rtc.v ===== *)
(** The clock of the machine: [cmostime] and its helpers, lapic.c, and date.h.

    The clock goes on while its registers are read one by one.  [Cmos] is the
    documented behaviour of the chip: an update changes all registers of the time
    at once, announces itself by the update-in-progress flag, and the next one
    comes much later than it takes to read the registers. *)
From stdpp Require Import base numbers list strings.
From Stdlib Require Import ZArith Lia Relations.
From S2P Require Import Prelude Params Ports Apic.

Local Open Scope Z_scope.
Local Open Scope kernel_scope.

Definition CMOS_STATA : Z := 10.
Definition CMOS_STATB : Z := 11.
Definition CMOS_UIP : Z := Z.shiftl 1 7.
Definition SECS : Z := 0.
Definition MINS : Z := 2.
Definition HOURS : Z := 4.
Definition DAY : Z := 7.
Definition MONTH : Z := 8.
Definition YEAR : Z := 9.

Record rtcdate := Rtcdate { second : Z; minute : Z; hour : Z; day : Z; month : Z; year : Z }.
#[export] Instance rtcdate_eq_dec : EqDecision rtcdate.
Proof. solve_decision. Defined.

Section Code.
Context {D : Type} `{!PortIO D}.

Definition cmos_read (reg : Z) : M D Z := outb CMOS_PORT reg;; inb CMOS_RETURN.

Definition fill_rtcdate : M D rtcdate :=
  s ← cmos_read SECS;
  mi ← cmos_read MINS;
  h ← cmos_read HOURS;
  d ← cmos_read DAY;
  mo ← cmos_read MONTH;
  y ← cmos_read YEAR;
  ret (Rtcdate s mi h d mo y).

(** The loop; the structs are compared with [memcmp]. *)
Fixpoint cmostime_loop (fuel : nat) : M D rtcdate :=
  match fuel with
  | O => blocked "cmostime"
  | S f =>
      t1 ← fill_rtcdate;
      a ← cmos_read CMOS_STATA;
      if truth (Z.land a CMOS_UIP) then cmostime_loop f
      else
        t2 ← fill_rtcdate;
        if bool_decide (t1 = t2) then ret t1 else cmostime_loop f
  end.

Definition CONV (x : Z) : Z := Z.shiftr x 4 * 10 + Z.land x 15.

Definition cmostime (fuel : nat) : M D rtcdate :=
  sb ← cmos_read CMOS_STATB;
  let bcd := Z.land sb (Z.shiftl 1 2) =? 0 in
  t1 ← cmostime_loop fuel;
  let t1 := if bcd then Rtcdate (CONV (second t1)) (CONV (minute t1)) (CONV (hour t1))
                                (CONV (day t1)) (CONV (month t1)) (CONV (year t1))
            else t1 in
  ret (Rtcdate (second t1) (minute t1) (hour t1) (day t1) (month t1) (year t1 + 2000)).
End Code.

(** ** The clock *)

(** [cm_left] is the number of reads before the next update.  During the last
    [window] of them the flag may be set; after an update there are at least
    [window + 26] of them. *)
Class Cmos (D : Type) `{!PortIO D} (window : nat) := {
  cm_sel : D -> Z;
  cm_time : D -> Z -> Z;
  cm_mode : D -> Z;
  cm_left : D -> nat;
  cm_select d r : let d' := p_out CMOS_PORT (u8 r) d in
    cm_sel d' = u8 r /\ cm_time d' = cm_time d /\ cm_mode d' = cm_mode d /\ cm_left d' = cm_left d;
  cm_value d : let v := (p_in CMOS_RETURN d).1 in
    (cm_sel d ∈ [SECS; MINS; HOURS; DAY; MONTH; YEAR] -> v = cm_time d (cm_sel d)) /\
    (cm_sel d = CMOS_STATB -> v = cm_mode d) /\
    (cm_sel d = CMOS_STATA -> truth (Z.land v CMOS_UIP) = true -> (cm_left d <= window)%nat);
  cm_tick d : let d' := (p_in CMOS_RETURN d).2 in
    cm_mode d' = cm_mode d /\
    match cm_left d with
    | S k => cm_time d' = cm_time d /\ cm_left d' = k
    | O => (window + 26 <= cm_left d')%nat
    end
}.

Section Spec.
Context {D : Type} (window : nat) `{Cmos D window}.

(** One access to a port of the clock, and any number of them. *)
Definition access (d d' : D) : Prop := (exists r, d' = p_out CMOS_PORT (u8 r) d) \/ d' = (p_in CMOS_RETURN d).2.
Definition during : D -> D -> Prop := clos_refl_trans D access.

(** All registers of a time. *)
Definition whole (r : Z -> Z) : rtcdate := Rtcdate (r SECS) (r MINS) (r HOURS) (r DAY) (r MONTH) (r YEAR).

(** After [k] reads: no update, or one that is far enough from the next. *)
Definition passed (k : nat) (d d' : D) : Prop :=
  during d d' /\ cm_mode d' = cm_mode d /\
  ((cm_left d' + k = cm_left d /\ cm_time d' = cm_time d)%nat \/ (cm_left d < k /\ window + 26 <= cm_left d' + (k - 1))%nat).

Lemma passed_trans j k d d1 d2 : (j + k <= 26)%nat -> passed j d d1 -> passed k d1 d2 -> passed (j + k) d d2.
Proof.
  intros Hjk (R1 & M1 & C1) (R2 & M2 & C2). split; [by eapply rt_trans|]. split; [congruence|].
  destruct C1 as [[L1 T1]|[L1 G1]], C2 as [[L2 T2]|[L2 G2]]; [left; split; [lia|congruence]|right; lia..].
Qed.

Lemma cmos_read_spec r d : exists v d', cmos_read r d = Ok v d' /\ passed 1 d d' /\
  (u8 r ∈ [SECS; MINS; HOURS; DAY; MONTH; YEAR] -> v = cm_time d (u8 r)) /\
  (u8 r = CMOS_STATB -> v = cm_mode d) /\
  (u8 r = CMOS_STATA -> truth (Z.land v CMOS_UIP) = true -> (cm_left d <= window)%nat).
Proof.
  destruct (cm_select d r) as (S1 & S2 & S3 & S4). set (d1 := p_out CMOS_PORT (u8 r) d) in *.
  destruct (cm_value d1) as (V1 & V2 & V3). destruct (cm_tick d1) as [T1 T2].
  exists (p_in CMOS_RETURN d1).1, (p_in CMOS_RETURN d1).2. split; [done|]. rewrite S1, S2, S3, S4 in *. split; [|done].
  split; [eapply rt_trans; apply rt_step; [left; by exists r|by right]|]. split; [done|].
  destruct (cm_left d) as [|k]; [right; lia|left; destruct T2; split; [lia|done]].
Qed.

(** Six reads without an update give the time as it is. *)
Lemma fill_spec d : exists t d', fill_rtcdate d = Ok t d' /\ passed 6 d d' /\ ((6 <= cm_left d)%nat -> t = whole (cm_time d)).
Proof.
  unfold fill_rtcdate, bind.
  destruct (cmos_read_spec SECS d) as (v0 & d0 & -> & P0 & V0 & _).
  destruct (cmos_read_spec MINS d0) as (v1 & d1 & -> & P1 & V1 & _).
  destruct (cmos_read_spec HOURS d1) as (v2 & d2 & -> & P2 & V2 & _).
  destruct (cmos_read_spec DAY d2) as (v3 & d3 & -> & P3 & V3 & _).
  destruct (cmos_read_spec MONTH d3) as (v4 & d4 & -> & P4 & V4 & _).
  destruct (cmos_read_spec YEAR d4) as (v5 & d5 & -> & P5 & V5 & _).
  assert (Q1 : passed 2 d d1) by (by apply (passed_trans 1 1 d d0); [lia|..]).
  assert (Q2 : passed 3 d d2) by (by apply (passed_trans 2 1 d d1); [lia|..]).
  assert (Q3 : passed 4 d d3) by (by apply (passed_trans 3 1 d d2); [lia|..]).
  assert (Q4 : passed 5 d d4) by (by apply (passed_trans 4 1 d d3); [lia|..]).
  do 2 eexists. split; [reflexivity|]. split; [by apply (passed_trans 5 1 d d4); [lia|..]|].
  intros Hl. assert (Hsame : forall k x, (k <= 5)%nat -> passed k d x -> cm_time x = cm_time d).
  { intros k x Hk (_ & _ & [[_ T]|[L _]]); [done|lia]. }
  rewrite (Hsame 1%nat d0), (Hsame 2%nat d1), (Hsame 3%nat d2), (Hsame 4%nat d3), (Hsame 5%nat d4) in * by (lia || done).
  unfold whole. f_equal; [apply V0|apply V1|apply V2|apply V3|apply V4|apply V5]; repeat constructor.
Qed.

Lemma during_passed k d d' : passed k d d' -> during d d'.
Proof. by intros [? _]. Qed.

(** The turns the loop needs from [d]: it ends in this turn when the next update
    is far away, and comes nearer to the update in every other turn. *)
Definition enough (n : nat) (d : D) : Prop := (13 + window <= cm_left d /\ 1 <= n)%nat \/ (cm_left d + 14 <= 7 * n)%nat.

Lemma enough_next n k d d' : k = 7%nat \/ k = 13%nat -> passed k d d' -> (cm_left d + 14 <= 7 * S n)%nat -> enough n d'.
Proof. intros Hk (_ & _ & [[L _]|[L G]]) Hn; [right; lia|left; lia]. Qed.

Lemma cmostime_loop_spec n d : enough n d ->
  exists t dm d', cmostime_loop n d = Ok t d' /\ during d dm /\ during dm d' /\ t = whole (cm_time dm).
Proof.
  revert d. induction n as [|n IH]; intros d Hn; [unfold enough in Hn; lia|]. cbn [cmostime_loop].
  destruct (fill_spec d) as (t1 & d1 & E1 & P1 & W1). destruct (cmos_read_spec CMOS_STATA d1) as (a & d2 & E2 & P2 & _ & _ & U).
  destruct (fill_spec d2) as (t2 & d3 & E3 & P3 & W3).
  pose proof (passed_trans 6 1 d d1 d2 ltac:(lia) P1 P2) as P12. pose proof (passed_trans 7 6 d d2 d3 ltac:(lia) P12 P3) as P13.
  unfold bind at 1. rewrite E1. unfold bind at 1. rewrite E2. specialize (U eq_refl).
  assert (Hgo : forall k x, k = 7%nat \/ k = 13%nat -> passed k d x -> (cm_left d + 14 <= 7 * S n)%nat ->
    exists t dm d', cmostime_loop n x = Ok t d' /\ during d dm /\ during dm d' /\ t = whole (cm_time dm)).
  { intros k x Hk Hx Hl. destruct (IH x (enough_next n k d x Hk Hx Hl)) as (t & dm & d' & R & R1 & R2 & R3).
    exists t, dm, d'. split_and!; try done. eapply rt_trans; [by eapply during_passed|done]. }
  destruct (truth (Z.land a CMOS_UIP)) eqn:Ea.
  - apply (Hgo 7%nat); [by left|done|]. specialize (U eq_refl). destruct P1 as (_ & _ & C1). unfold enough in Hn. lia.
  - unfold bind at 1. rewrite E3. case_bool_decide as Ht.
    + subst t2. destruct (decide (6 <= cm_left d)%nat) as [Hl|Hl].
      * exists t1, d, d3. split_and!; [done|apply rt_refl|by eapply during_passed|by apply W1].
      * exists t1, d2, d3. split_and!; [done|by eapply during_passed..|]. apply W3.
        destruct P1 as (_ & _ & C1), P2 as (_ & _ & C2). lia.
    + apply (Hgo 13%nat); [by right|done|]. destruct Hn as [[Hl _]|Hn]; [|done]. exfalso. apply Ht.
      rewrite W1, W3; [|destruct P12 as (_ & _ & C); lia|lia]. f_equal. destruct P12 as (_ & _ & [[_ T]|[L _]]); [done|lia].
Qed.

(** The value of a register, in the coding the chip uses: two digits or binary. *)
Definition digits (mode b : Z) : Z := if Z.testbit mode 2 then b else 10 * (b / 16) + b mod 16.
Definition date_of (mode : Z) (r : Z -> Z) : rtcdate :=
  Rtcdate (digits mode (r SECS)) (digits mode (r MINS)) (digits mode (r HOURS)) (digits mode (r DAY)) (digits mode (r MONTH))
    (digits mode (r YEAR) + 2000).

Lemma CONV_digits x : CONV x = 10 * (x / 16) + x mod 16.
Proof. unfold CONV. change 15 with (Z.ones 4). rewrite Z.shiftr_div_pow2, Z.land_ones by lia. change (2 ^ 4) with 16. lia. Qed.

Lemma land_4 x : (Z.land x (Z.shiftl 1 2) =? 0) = negb (Z.testbit x 2).
Proof.
  destruct (Z.testbit x 2) eqn:E; cbn [negb].
  - apply Z.eqb_neq. intros X. assert (Y : Z.testbit (Z.land x (Z.shiftl 1 2)) 2 = true) by (by rewrite Z.land_spec, E).
    by rewrite X in Y.
  - apply Z.eqb_eq. apply Z.bits_inj'. intros k Hk. rewrite Z.land_spec, Z.bits_0.
    destruct (decide (k = 2)) as [->|]; [by rewrite E|]. change (Z.shiftl 1 2) with (2 ^ 2). rewrite Z.pow2_bits_false by lia. apply andb_false_r.
Qed.

(** [cmostime] returns, whenever it is called and although the clock may go
    on between any two of its reads, and the date is one that the clock showed
    at a single moment of the call: seconds, minutes, hours, day, month and year
    all of that moment, decoded as the chip codes them. *)
Theorem cmostime_consistent (d : D) :
  exists t dm d', cmostime (window / 7 + 5) d = Ok t d' /\ during d dm /\ during dm d' /\ t = date_of (cm_mode d) (cm_time dm).
Proof.
  unfold cmostime. destruct (cmos_read_spec CMOS_STATB d) as (v & d1 & E1 & P1 & _ & V & _). rewrite (V eq_refl) in *.
  destruct (cmostime_loop_spec (window / 7 + 5) d1) as (t & dm & d' & E2 & R1 & R2 & ->).
  { unfold enough. pose proof (Nat.div_mod_eq window 7). pose proof (Nat.mod_upper_bound window 7). lia. }
  exists (date_of (cm_mode d) (cm_time dm)), dm, d'. split_and!; [|by eapply rt_trans; [eapply during_passed|]|done|done].
  unfold bind. rewrite E1, E2. unfold ret. do 2 f_equal; rewrite land_4; unfold date_of, digits, whole; destruct (Z.testbit (cm_mode d) 2); cbn; by rewrite ?CONV_digits.
Qed.
End Spec.

(** ** A clock *)

(** The seconds since midnight, 40 reads for each; the flag is up during the
    last five of them. *)
Record clock := Clock { ck_sel : Z; ck_secs : Z; ck_left : nat }.
Definition bcd (n : Z) : Z := 16 * (n / 10) + n mod 10.
Definition ck_time (n r : Z) : Z :=
  if r =? SECS then bcd (n mod 60) else if r =? MINS then bcd (n / 60 mod 60) else if r =? HOURS then bcd (n / 3600 mod 24)
  else if r =? YEAR then bcd 24 else bcd 1.
Definition ck_read (c : clock) : Z * clock :=
  (if ck_sel c =? CMOS_STATB then 2 else if ck_sel c =? CMOS_STATA then (if (ck_left c <=? 5)%nat then 128 else 0) else ck_time (ck_secs c) (ck_sel c),
   match ck_left c with S k => Clock (ck_sel c) (ck_secs c) k | O => Clock (ck_sel c) (ck_secs c + 1) 40 end).

#[export] Instance clock_io : PortIO clock := {|
  p_in port c := if port =? CMOS_RETURN then ck_read c else (0, c);
  p_out port v c := if port =? CMOS_PORT then Clock v (ck_secs c) (ck_left c) else c;
  p_insl _ c := ([], c); p_outsl _ c := c
|}.

#[export] Program Instance clock_cmos : Cmos clock 5 := {|
  cm_sel := ck_sel; cm_time c := ck_time (ck_secs c); cm_mode _ := 2; cm_left := ck_left
|}.
Next Obligation. done. Qed.
Next Obligation.
  intros d. cbn. split_and!.
  - intros Hs. rewrite !(proj2 (Z.eqb_neq _ _)); [done|..]; intros X; rewrite X in Hs; revert Hs; apply (bool_decide_eq_false _); done.
  - by intros ->.
  - intros ->. change (CMOS_STATA =? CMOS_STATB) with false. rewrite Z.eqb_refl. destruct (ck_left d <=? 5)%nat eqn:E; [|done].
    intros _. by apply Nat.leb_le.
Qed.
Next Obligation. intros d. cbn. destruct (ck_left d); cbn; [split; [done|lia]|done]. Qed.

(** Called at 12:59:59, with an update in the middle of the first reads. *)
Lemma cmostime_consistent_witness :
  exists t dm d', cmostime 5 (Clock 0 46799 2) = Ok t d' /\ during (Clock 0 46799 2) dm /\ t = date_of 2 (ck_time (ck_secs dm)) /\
    t = Rtcdate 0 0 13 1 1 2024.
Proof.
  destruct (cmostime_consistent 5 (Clock 0 46799 2)) as (t & dm & d' & E & R & _ & T).
  exists t, dm, d'. split_and!; [exact E|exact R|exact T|]. vm_compute in E. by injection E as <- _.
Defined.
