(* ===== verification/Seg.v ===== *)
(** Segments, gates and the task state: mmu.h, [seginit], [switchkvm] and
    [switchuvm] of vm.c, [tvinit] and [idtinit] of trap.c, and the loads of the
    processor's registers of x86.h.

    The second half is the processor's side, from its manual: how it reads the
    descriptors, and what happens at an interrupt, an exception or an [int]
    instruction. *)
From stdpp Require Import base numbers list strings.
From Stdlib Require Import ZArith Lia.
From S2P Require Import Prelude Params Kalloc Spinlock.

Local Open Scope list_scope.
Local Open Scope Z_scope.
Local Open Scope kernel_scope.

(** ** mmu.h *)

Definition STA_X : Z := 8.
Definition STA_W : Z := 2.
Definition STA_R : Z := 2.
Definition STS_T32A : Z := 9.
Definition STS_IG32 : Z := 14.
Definition STS_TG32 : Z := 15.

(** A bit field of [w] bits. *)
Definition field (w x : Z) : Z := x mod 2 ^ w.

Record segdesc := Segdesc {
  lim_15_0 : Z; base_15_0 : Z; base_23_16 : Z; sd_type : Z; sd_s : Z; sd_dpl : Z; sd_p : Z;
  lim_19_16 : Z; avl : Z; sd_rsv1 : Z; db : Z; g : Z; base_31_24 : Z
}.

Definition SEG (type base lim dpl : Z) : segdesc :=
  Segdesc (field 16 (Z.land (Z.shiftr lim 12) 65535)) (field 16 (Z.land (u32 base) 65535))
    (field 8 (Z.land (Z.shiftr (u32 base) 16) 255)) (field 4 type) 1 (field 2 dpl) 1
    (field 4 (Z.shiftr (u32 lim) 28)) 0 0 1 1 (field 8 (Z.shiftr (u32 base) 24)).
Definition SEG16 (type base lim dpl : Z) : segdesc :=
  Segdesc (field 16 (Z.land lim 65535)) (field 16 (Z.land (u32 base) 65535))
    (field 8 (Z.land (Z.shiftr (u32 base) 16) 255)) (field 4 type) 1 (field 2 dpl) 1
    (field 4 (Z.shiftr (u32 lim) 16)) 0 0 1 0 (field 8 (Z.shiftr (u32 base) 24)).

Record gatedesc := Gatedesc {
  off_15_0 : Z; gd_cs : Z; gd_args : Z; gd_rsv1 : Z; gd_type : Z; gd_s : Z; gd_dpl : Z; gd_p : Z; off_31_16 : Z
}.
Definition SETGATE (istrap : bool) (sel off d : Z) : gatedesc :=
  Gatedesc (field 16 (Z.land (u32 off) 65535)) (field 16 sel) 0 0 (if istrap then STS_TG32 else STS_IG32) 0 (field 2 d) 1
    (field 16 (Z.shiftr (u32 off) 16)).

(** What switchuvm sets of struct taskstate, and the struct's size. *)
Record taskstate := Taskstate { esp0 : Z; ss0 : Z; iomb : Z }.
Definition TSSIZE : Z := 104.

(** ** The processors *)

(** The tables in memory and the registers that point to them, for each
    processor; [gdt_addr] and [ts_addr] are where struct cpu has them. *)
Record segs := Segs {
  sg_m : machine;
  gdt : nat -> list segdesc;
  ts : nat -> taskstate;
  idt : list gatedesc;
  gdtr : nat -> list Z;
  idtr : nat -> list Z;
  tr : nat -> Z;
  cr3 : nat -> Z
}.

Section Code.
Context (gdt_addr ts_addr : nat -> Z) (idt_addr : Z).
Abbreviation K := (M segs).

Definition lock_part {A} (x : M machine A) : K A :=
  zoom sg_m (fun m s => Segs m (gdt s) (ts s) (idt s) (gdtr s) (idtr s) (tr s) (cr3 s)) x.
Definition put_desc (c : nat) (i : Z) (d : segdesc) (s : segs) : segs :=
  Segs (sg_m s) (upd c (<[Z.to_nat i := d]> (gdt s c)) (gdt s)) (ts s) (idt s) (gdtr s) (idtr s) (tr s) (cr3 s).
Definition set_desc (c : nat) (i : Z) (d : segdesc) : K unit := modify (put_desc c i d).
Definition put_ts (c : nat) (f : taskstate -> taskstate) (s : segs) : segs :=
  Segs (sg_m s) (gdt s) (upd c (f (ts s c)) (ts s)) (idt s) (gdtr s) (idtr s) (tr s) (cr3 s).
Definition set_ts (c : nat) (f : taskstate -> taskstate) : K unit := modify (put_ts c f).
Definition set_gate (i : nat) (d : gatedesc) : K unit :=
  modify (fun s => Segs (sg_m s) (gdt s) (ts s) (<[i := d]> (idt s)) (gdtr s) (idtr s) (tr s) (cr3 s)).

(** The three ushorts the instructions lgdt and lidt load. *)
Definition pseudo (p size : Z) : list Z := [field 16 (size - 1); field 16 (u32 p); field 16 (Z.shiftr (u32 p) 16)].
Definition lgdt (c : nat) (p size : Z) : K unit :=
  modify (fun s => Segs (sg_m s) (gdt s) (ts s) (idt s) (upd c (pseudo p size) (gdtr s)) (idtr s) (tr s) (cr3 s)).
Definition lidt (c : nat) (p size : Z) : K unit :=
  modify (fun s => Segs (sg_m s) (gdt s) (ts s) (idt s) (gdtr s) (upd c (pseudo p size) (idtr s)) (tr s) (cr3 s)).
Definition put_tr (c : nat) (sel : Z) (s : segs) : segs :=
  Segs (sg_m s) (gdt s) (ts s) (idt s) (gdtr s) (idtr s) (upd c (field 16 sel) (tr s)) (cr3 s).
Definition ltr (c : nat) (sel : Z) : K unit := modify (put_tr c sel).
Definition put_cr3 (c : nat) (v : Z) (s : segs) : segs :=
  Segs (sg_m s) (gdt s) (ts s) (idt s) (gdtr s) (idtr s) (tr s) (upd c (u32 v) (cr3 s)).
Definition lcr3 (c : nat) (v : Z) : K unit := modify (put_cr3 c v).

Definition seginit (c : nat) : K unit :=
  set_desc c SEG_KCODE (SEG (Z.lor STA_X STA_R) 0 4294967295 0);;
  set_desc c SEG_KDATA (SEG STA_W 0 4294967295 0);;
  set_desc c SEG_UCODE (SEG (Z.lor STA_X STA_R) 0 4294967295 DPL_USER);;
  set_desc c SEG_UDATA (SEG STA_W 0 4294967295 DPL_USER);;
  lgdt c (gdt_addr c) (8 * NSEGS).

Definition switchkvm (c : nat) (kpgdir : Z) : K unit := lcr3 c (V2P kpgdir).

(** [p]: the kernel stack and the page directory of the process, if any. *)
Definition switchuvm (c : nat) (p : option (Z * Z)) : K unit :=
  match p with
  | None => panic "switchuvm: no process"
  | Some (kstack, pgdir) =>
      if kstack =? 0 then panic "switchuvm: no kstack"
      else if pgdir =? 0 then panic "switchuvm: no pgdir"
      else
        lock_part (pushcli c);;
        let d := SEG16 STS_T32A (ts_addr c) (TSSIZE - 1) 0 in
        set_desc c SEG_TSS d;;
        set_desc c SEG_TSS (Segdesc (lim_15_0 d) (base_15_0 d) (base_23_16 d) (sd_type d) 0 (sd_dpl d) (sd_p d)
          (lim_19_16 d) (avl d) (sd_rsv1 d) (db d) (g d) (base_31_24 d));;
        set_ts c (fun t => Taskstate (esp0 t) (Z.shiftl SEG_KDATA 3) (iomb t));;
        set_ts c (fun t => Taskstate (u32 (kstack + KSTACKSIZE)) (ss0 t) (iomb t));;
        set_ts c (fun t => Taskstate (esp0 t) (ss0 t) 65535);;
        ltr c (Z.shiftl SEG_TSS 3);;
        lcr3 c (V2P pgdir);;
        lock_part (popcli c)
  end.

Section Vectors.
Context (vectors : Z -> Z) (tickslock : nat).
Definition tvinit : K unit :=
  each (seq 0 256) (fun i => set_gate i (SETGATE false (Z.shiftl SEG_KCODE 3) (vectors (Z.of_nat i)) 0));;
  set_gate (Z.to_nat T_SYSCALL) (SETGATE true (Z.shiftl SEG_KCODE 3) (vectors T_SYSCALL) DPL_USER);;
  lock_part (initlock tickslock).
End Vectors.

Definition idtinit (c : nat) : K unit := lidt c idt_addr (8 * 256).
End Code.

(** ** The processor's side *)

Local Close Scope kernel_scope.

(** The base and the last offset of a segment; code segments. *)
Definition seg_base (d : segdesc) : Z := base_15_0 d + 2 ^ 16 * base_23_16 d + 2 ^ 24 * base_31_24 d.
Definition seg_limit (d : segdesc) : Z :=
  let l := lim_15_0 d + 2 ^ 16 * lim_19_16 d in if g d =? 1 then 4096 * l + 4095 else l.
Definition is_code (d : segdesc) : bool := (sd_p d =? 1) && (sd_s d =? 1) && Z.testbit (sd_type d) 3.
Definition gate_off (d : gatedesc) : Z := off_15_0 d + 2 ^ 16 * off_31_16 d.

(** Where the processor goes on: the instruction, the code segment, the
    privilege level, the new stack segment and pointer if the level changes, and
    whether interrupts are on. *)
Record entered := Entered { en_eip : Z; en_cs : Z; en_cpl : Z; en_stack : option (Z * Z); en_if : bool }.

(** Interrupt [n] at level [cpl], raised by an [int] instruction if [soft].
    [None]: a fault instead. *)
Definition interrupt (s : segs) (c : nat) (cpl : Z) (iff soft : bool) (n : nat) : option entered :=
  gd ← idt s !! n;
  if negb ((gd_p gd =? 1) && (gd_s gd =? 0) && ((gd_type gd =? 14) || (gd_type gd =? 15))) then None
  else if soft && (gd_dpl gd <? cpl) then None
  else
    code ← gdt s c !! Z.to_nat (gd_cs gd / 8);
    if negb (is_code code) || (cpl <? sd_dpl code) then None
    else Some (Entered (gate_off gd) (gd_cs gd) (sd_dpl code)
                 (if sd_dpl code <? cpl then Some (ss0 (ts s c), esp0 (ts s c)) else None)
                 (if gd_type gd =? 14 then false else iff)).

(** An I/O instruction at level [cpl] on a port: allowed by the level in the
    flags, or by the bit map at [iomb] of the task state, inside its limit. *)
Definition io_allowed (s : segs) (c : nat) (map : Z -> bool) (cpl iopl port : Z) : bool :=
  (cpl <=? iopl) ||
  match gdt s c !! Z.to_nat (tr s c / 8) with
  | Some d => (iomb (ts s c) + port / 8 + 1 <=? seg_limit d) && negb (map port)
  | None => false
  end.

Lemma land_16 x : Z.land x 65535 = x mod 2 ^ 16.
Proof. apply (Z.land_ones x 16). lia. Qed.
Lemma land_8 x : Z.land x 255 = x mod 2 ^ 8.
Proof. apply (Z.land_ones x 8). lia. Qed.

(** The processor finds the offset and the base that were put in. *)
Lemma gate_off_SETGATE t sel off d : 0 <= off < 2 ^ 32 -> gate_off (SETGATE t sel off d) = off.
Proof.
  intros Ho. unfold gate_off, SETGATE, field. cbn [off_15_0 off_31_16]. rewrite u32_small by done.
  rewrite land_16, Z.mod_mod, Z.shiftr_div_pow2 by lia.
  rewrite (Z.mod_small (off / 2 ^ 16)) by (split; [apply Z.div_pos; lia|apply Z.div_lt_upper_bound; lia]).
  pose proof (Z.div_mod off (2 ^ 16) ltac:(lia)). lia.
Qed.

Lemma base_fields b : 0 <= b < 2 ^ 32 ->
  field 16 (Z.land (u32 b) 65535) + 2 ^ 16 * field 8 (Z.land (Z.shiftr (u32 b) 16) 255) + 2 ^ 24 * field 8 (Z.shiftr (u32 b) 24) = b.
Proof.
  intros Hb. unfold field. rewrite u32_small, land_16, land_8, !Z.mod_mod, !Z.shiftr_div_pow2 by lia.
  rewrite (Z.mod_small (b / 2 ^ 24)) by (split; [apply Z.div_pos; lia|apply Z.div_lt_upper_bound; lia]).
  replace (b / 2 ^ 24) with (b / 2 ^ 16 / 2 ^ 8) by (by rewrite Z.div_div).
  pose proof (Z.div_mod b (2 ^ 16) ltac:(lia)). pose proof (Z.div_mod (b / 2 ^ 16) (2 ^ 8) ltac:(lia)). lia.
Qed.
Lemma seg_base_SEG t b l d : 0 <= b < 2 ^ 32 -> seg_base (SEG t b l d) = b.
Proof. apply base_fields. Qed.
Lemma seg_base_SEG16 t b l d : 0 <= b < 2 ^ 32 -> seg_base (SEG16 t b l d) = b.
Proof. apply base_fields. Qed.

(** ** The tables after initialisation *)

Lemma bind_modify {S B} (f : S -> S) (k : unit -> M S B) s : bind (modify f) k s = k tt (f s).
Proof. reflexivity. Qed.

Section Tables.
Context (gdt_addr ts_addr : nat -> Z) (idt_addr : Z) (vectors : Z -> Z) (tickslock : nat).

Definition with_idt (s : segs) (l : list gatedesc) : segs :=
  Segs (sg_m s) (gdt s) (ts s) l (gdtr s) (idtr s) (tr s) (cr3 s).

Lemma set_gates (G : nat -> gatedesc) n : forall a s, (a + n <= length (idt s))%nat ->
  exists l, each (seq a n) (fun i => set_gate i (G i)) s = Ok tt (with_idt s l) /\ length l = length (idt s) /\
    forall j, l !! j = if bool_decide (a <= j < a + n)%nat then Some (G j) else idt s !! j.
Proof.
  induction n as [|n IH]; intros a s Hl; cbn [seq each].
  { exists (idt s). split; [by destruct s|]. split; [done|]. intros j. rewrite bool_decide_eq_false_2 by lia. done. }
  destruct (IH (S a) (with_idt s (<[a := G a]> (idt s)))) as (l & E & L & H); [cbn; rewrite length_insert; lia|].
  exists l. split; [exact E|]. split; [rewrite L; apply length_insert|]. intros j. rewrite H. cbn [idt with_idt].
  destruct (decide (j = a)) as [->|Hj].
  - rewrite bool_decide_eq_false_2, bool_decide_eq_true_2 by lia. by rewrite list_lookup_insert_eq by lia.
  - rewrite list_lookup_insert_ne by done. do 2 case_bool_decide; done || lia.
Qed.

(** The gate of vector [j]. *)
Definition the_gate (j : nat) : gatedesc :=
  if Nat.eqb j 64 then SETGATE true 8 (vectors 64) 3 else SETGATE false 8 (vectors (Z.of_nat j)) 0.

Definition with_lock (s : segs) : segs :=
  Segs (Machine (m_cpu (sg_m s)) (upd tickslock (Spinlock 0 None) (m_lock (sg_m s))))
    (gdt s) (ts s) (idt s) (gdtr s) (idtr s) (tr s) (cr3 s).

Lemma tvinit_gates s : length (idt s) = 256%nat ->
  exists l, tvinit vectors tickslock s = Ok tt (with_lock (with_idt s l)) /\ length l = 256%nat /\ forall j, (j < 256)%nat -> l !! j = Some (the_gate j).
Proof.
  intros Hl. destruct (set_gates (fun i => SETGATE false (Z.shiftl SEG_KCODE 3) (vectors (Z.of_nat i)) 0) 256 0 s) as (l & E & L & H); [lia|].
  exists (<[64%nat := the_gate 64]> l). unfold tvinit, bind. rewrite E. split; [done|]. split; [by rewrite length_insert, L|].
  intros j Hj. unfold the_gate at 2. destruct (Nat.eqb_spec j 64) as [->|Hne].
  - rewrite list_lookup_insert_eq by lia. done.
  - rewrite list_lookup_insert_ne by done. rewrite H, bool_decide_eq_true_2 by lia. done.
Qed.

Definition code_desc (dpl : Z) : segdesc := SEG 10 0 4294967295 dpl.
Definition data_desc (dpl : Z) : segdesc := SEG 2 0 4294967295 dpl.
Definition tss_desc (c : nat) : segdesc :=
  let d := SEG16 STS_T32A (ts_addr c) (TSSIZE - 1) 0 in
  Segdesc (lim_15_0 d) (base_15_0 d) (base_23_16 d) (sd_type d) 0 (sd_dpl d) (sd_p d)
    (lim_19_16 d) (avl d) (sd_rsv1 d) (db d) (g d) (base_31_24 d).

Lemma seginit_run c s d0 d1 d2 d3 d4 d5 : gdt s c = [d0; d1; d2; d3; d4; d5] ->
  exists s', seginit gdt_addr c s = Ok tt s' /\ gdt s' c = [d0; code_desc 0; data_desc 0; code_desc 3; data_desc 3; d5] /\
    gdtr s' c = pseudo (gdt_addr c) 48 /\ idt s' = idt s /\ sg_m s' = sg_m s /\ ts s' = ts s /\ tr s' = tr s /\ cr3 s' = cr3 s.
Proof.
  intros Hg. eexists. split; [reflexivity|]. unfold put_desc. cbn [gdt gdtr idt sg_m ts tr cr3]. rewrite !upd_eq, Hg. done.
Qed.

Lemma switchuvm_run c s kstack pgdir d0 d1 d2 d3 d4 d5 :
  kstack <> 0 -> pgdir <> 0 -> gdt s c = [d0; d1; d2; d3; d4; d5] ->
  let x := m_cpu (sg_m s) c in 0 <= ncli x -> (0 < ncli x -> iflag x = false) ->
  exists s', switchuvm ts_addr c (Some (kstack, pgdir)) s = Ok tt s' /\
    gdt s' c = [d0; d1; d2; d3; d4; tss_desc c] /\ ts s' c = Taskstate (u32 (kstack + KSTACKSIZE)) 16 65535 /\
    tr s' c = 40 /\ cr3 s' c = V2P pgdir /\ idt s' = idt s /\ gdtr s' = gdtr s /\
    ncli (m_cpu (sg_m s') c) = ncli x /\ iflag (m_cpu (sg_m s') c) = iflag x.
Proof.
  intros Hk Hp Hg x Hn Hi. unfold switchuvm. rewrite (proj2 (Z.eqb_neq _ _) Hk), (proj2 (Z.eqb_neq _ _) Hp).
  destruct (pushcli_spec c (sg_m s)) as (m1 & E1 & X1 & _). fold x in X1.
  destruct (popcli_spec c m1) as (m2 & E2 & X2 & _); [rewrite X1; done|rewrite X1; cbn; lia|].
  rewrite X1 in X2. cbn [ncli intena] in X2.
  set (s1 := Segs m1 (gdt s) (ts s) (idt s) (gdtr s) (idtr s) (tr s) (cr3 s)).
  assert (Hpush : lock_part (pushcli c) s = Ok tt s1) by (unfold lock_part, zoom; by rewrite E1).
  unfold bind at 1. rewrite Hpush. unfold set_desc, set_ts, ltr, lcr3. cbv zeta. rewrite !bind_modify.
  match goal with |- context [lock_part (popcli c) ?x] => set (s2 := x) end.
  assert (Hpop : lock_part (popcli c) s2 = Ok tt (Segs m2 (gdt s2) (ts s2) (idt s2) (gdtr s2) (idtr s2) (tr s2) (cr3 s2)))
    by (unfold lock_part, zoom; change (sg_m s2) with m1; by rewrite E2).
  eexists. split; [exact Hpop|]. unfold s2, s1. cbn [gdt ts idt gdtr tr cr3 sg_m put_desc put_ts put_tr put_cr3]. rewrite !upd_eq, Hg, X2. cbn [ncli iflag esp0 ss0 iomb].
  split_and!; try done; [unfold V2P; apply u32_idem|lia|].
  destruct (ncli x =? 0) eqn:En; b2p.
  - rewrite En. done.
  - rewrite (proj2 (Z.eqb_neq (ncli x + 1) 1)) by lia. symmetry. apply Hi. lia.
Qed.

End Tables.

(** ** A machine at boot *)

Definition null_desc : segdesc := Segdesc 0 0 0 0 0 0 0 0 0 0 0 0 0.
Definition null_gate : gatedesc := Gatedesc 0 0 0 0 0 0 0 0 0.
Definition boot_segs : segs :=
  Segs (Machine (fun _ => Cpu 0 false true) (fun _ => Spinlock 0 None)) (fun _ => replicate 6 null_desc) (fun _ => Taskstate 0 0 0)
    (replicate 256 null_gate) (fun _ => []) (fun _ => []) (fun _ => 0) (fun _ => 0).

