(* ===== verification/Programs.v ===== *)
(** More programs of user space: rm.c, mkdir.c, ln.c, kill.c, id.c, ls.c, the
    listing of ls_perm.c, the parent side of init.c, and the command loop of
    sh.c. *)
From stdpp Require Import base numbers list strings.
From Stdlib Require Import ZArith Lia.
From S2P Require Import Prelude CString Params Users Bio Log Store Fs Printf Tools.

Local Open Scope list_scope.
Local Open Scope Z_scope.
Local Open Scope prog_scope.

(** ** Programs of one call for each argument *)

Section Calls.
Context (fcall_result : fcall -> Z).
Abbreviation call := (fcall_ fcall_result).

(** The loops of rm.c and mkdir.c stop at the first failure. *)
Fixpoint until_failure (mk : list Z -> fcall) (fmt : string) (args : list (list Z)) : P unit :=
  match args with
  | [] => pret tt
  | a :: args' => r <~ call (mk a); if r <? 0 then sayln 2 fmt [PStr a] else until_failure mk fmt args'
  end.

Definition rm (argv : list (list Z)) : P unit :=
  if Nat.ltb (length argv) 2 then sayln 2 "Usage: rm files..." [];; pexit
  else until_failure Unlink "rm: %s failed to delete" (drop 1 argv);; pexit.

Definition mkdir (argv : list (list Z)) : P unit :=
  if Nat.ltb (length argv) 2 then sayln 2 "Usage: mkdir files..." [];; pexit
  else until_failure Mkdir "mkdir: %s failed to create" (drop 1 argv);; pexit.

Definition ln (argv : list (list Z)) : P unit :=
  if negb (Nat.eqb (length argv) 3) then sayln 2 "Usage: ln old new" [];; pexit
  else
    r <~ call (Link (arg argv 1) (arg argv 2));
    (if r <? 0 then sayln 2 "link %s %s: failed" [PStr (arg argv 1); PStr (arg argv 2)] else pret tt);;
    pexit.

Definition kill_main (argv : list (list Z)) : P unit :=
  if Nat.ltb (length argv) 2 then sayln 2 "usage: kill pid..." [];; pexit
  else peach (drop 1 argv) (fun a => call (Kill (atoi a));; pret tt);; pexit.
End Calls.

(** id.c has the text of su.c. *)
Definition id_main (exec_ok : list Z -> bool) (argv : list (list Z)) : P unit :=
  if Nat.ltb (length argv) 2 then sayln 2 "Usage: su <username>" [];; pexit
  else
    say 1 "Password: " [];;
    password <~ Tools.gets 32;
    let password := cut_newline password in
    r <~ login (arg argv 1) password;
    if r <? 0 then sayln 2 "su: authentication failure" [];; pexit
    else
      sayln 1 "Switched to user: %s" [PStr (arg argv 1)];;
      exec_prog exec_ok (txt "sh") [txt "sh"];;
      sayln 2 "su: exec sh failed" [];;
      pexit.

(** ** Listings *)

(** The characters after the last slash; [acc] are those already passed on the
    way back from the end. *)
Fixpoint after_slash (rev_path acc : list Z) : list Z :=
  match rev_path with
  | [] => acc
  | c :: r => if c =? 47 then acc else after_slash r (c :: acc)
  end.
Definition fmtname (path : list Z) : list Z :=
  let p := after_slash (rev path) [] in
  if DIRSIZ <=? Z.of_nat (length p) then p else p ++ replicate (Z.to_nat (DIRSIZ - Z.of_nat (length p))) 32.

(** What [open] gives: what [fstat] gives, and what the reads of a directory
    entry return.  The [close] of the descriptor at the end shows nowhere. *)
Record lopen := Lopen { lo_stat : option stat; lo_reads : list (list Z) }.
Definition BUF : Z := 512.

Section Listing.
Context (open_ : list Z -> option lopen) (stat_ : list Z -> option stat).
(** The line for a path, and the one for the file named on the command line. *)
Context (line_of : list Z -> stat -> P unit).

(** The loop over the directory: [path] with a slash is in the buffer. *)
Fixpoint ls_loop (path : list Z) (rs : list (list Z)) : P unit :=
  match rs with
  | [] => pret tt
  | r :: rs' =>
      if Z.of_nat (length r) =? DIRENTSIZE then
        let de := dec_dirent r in
        if de_inum de =? 0 then ls_loop path rs'
        else
          let buf := path ++ [47] ++ cstr 14 (de_name de) in
          (match stat_ buf with
           | None => sayln 1 "ls: cannot stat %s" [PStr buf]
           | Some st => line_of buf st
           end);;
          ls_loop path rs'
      else pret tt
  end.

Definition ls_with (path : list Z) : P unit :=
  match open_ path with
  | None => sayln 2 "ls: cannot open %s" [PStr path]
  | Some o =>
      match lo_stat o with
      | None => sayln 2 "ls: cannot stat %s" [PStr path]
      | Some st =>
          if st_type st =? T_FILE then line_of path st
          else if st_type st =? T_DIR then
            if BUF <? Z.of_nat (length path) + 1 + DIRSIZ + 1 then sayln 1 "ls: path too long" []
            else ls_loop path (lo_reads o)
          else pret tt
      end
  end.

Definition ls_args (argv : list (list Z)) : P unit :=
  if Nat.ltb (length argv) 2 then ls_with (txt ".");; pexit
  else peach (drop 1 argv) ls_with;; pexit.
End Listing.

(** ls.c and ls_perm.c. *)
Definition ls_line (path : list Z) (st : stat) : P unit :=
  sayln 1 "%s %d %d %d" [PStr (fmtname path); PInt (st_type st); PInt (st_ino st); PInt (st_size st)].
Definition ls_perm_line (path : list Z) (st : stat) : P unit :=
  sayln 1 "%s %d %d %d %s" [PStr (mode_to_string (st_mode st)); PInt (st_uid st); PInt (st_gid st); PInt (st_size st); PStr path].
Definition ls (open_ : list Z -> option lopen) (stat_ : list Z -> option stat) : list Z -> P unit := ls_with open_ stat_ ls_line.
Definition ls_perm (open_ : list Z -> option lopen) (stat_ : list Z -> option stat) : list Z -> P unit := ls_with open_ stat_ ls_perm_line.
Definition ls_main (open_ : list Z -> option lopen) (stat_ : list Z -> option stat) : list (list Z) -> P unit := ls_args open_ stat_ ls_line.
Definition ls_perm_main (open_ : list Z -> option lopen) (stat_ : list Z -> option stat) : list (list Z) -> P unit := ls_args open_ stat_ ls_perm_line.

(** ** init.c *)

Section Init.
Context (exec_ok : list Z -> bool).

(** The loop that waits for the shell, with what [wait] returns. *)
Fixpoint init_wait (pid : Z) (waits : list Z) : P unit :=
  match waits with
  | [] => pret tt
  | wpid :: ws => if (0 <=? wpid) && negb (wpid =? pid) then sayln 1 "zombie!" [];; init_wait pid ws else pret tt
  end.

(** Turns of the loop, with what [fork] and the calls of [wait] return; the
    console is open on three descriptors. *)
Fixpoint init_loop (rounds : list (Z * list Z)) : P unit :=
  match rounds with
  | [] => pret tt
  | (pid, waits) :: rs =>
      sayln 1 "init: starting sh" [];;
      if pid <? 0 then sayln 1 "init: fork failed" [];; pexit
      else if pid =? 0 then
        exec_prog exec_ok (txt "sh") [txt "sh"];;
        sayln 1 "init: exec sh failed" [];;
        pexit
      else init_wait pid waits;; init_loop rs
  end.
End Init.

(** ** The command loop of sh.c *)

Section Shell.
Context (fcall_result : fcall -> Z).

(** The string in the buffer afterwards, none at the end of the input. *)
Definition getcmd (nbuf : Z) : P (option (list Z)) :=
  say 2 "$ " [];;
  line <~ Tools.gets nbuf;
  let buf := cstr (Z.to_nat nbuf) (line ++ [0]) in
  pret (match buf with [] => None | _ => Some buf end).

Definition sh_panic (s : string) : P unit := sayln 2 "%s" [PStr (txt s)];; pexit.

Definition fork1 (line : list Z) : P unit :=
  r <~ fcall_ fcall_result (ForkRun line);
  if r =? -1 then sh_panic "fork" else pret tt.

Definition is_cd (buf : list Z) : bool := (nthd 0 buf 0 =? 99) && (nthd 0 buf 1 =? 100) && (nthd 0 buf 2 =? 32).

(** The loop of [main]; at the end of the input the shell exits. *)
Fixpoint sh_loop (fuel : nat) : P unit :=
  match fuel with
  | O => pret tt
  | S f =>
      o <~ getcmd 100;
      match o with
      | None => pexit
      | Some buf =>
          if is_cd buf then
            let dir := drop 3 (removelast buf) in
            r <~ fcall_ fcall_result (Chdir dir);
            (if r <? 0 then sayln 2 "cannot cd %s" [PStr dir] else pret tt);;
            sh_loop f
          else fork1 buf;; sh_loop f
      end
  end.
End Shell.

(** ** What they do *)

(** The arguments up to the first failing one, included. *)
Fixpoint upto {A} (bad : A -> bool) (l : list A) : list A :=
  match l with [] => [] | x :: r => if bad x then [x] else x :: upto bad r end.

Definition add_calls (cs : list fcall) (e : env) : env :=
  Env (e_uid e) (e_gid e) (e_db e) (e_in e) (e_out e) (e_calls e ++ cs).

Lemma until_failure_calls fr mk fmt args : forall e, exists e', until_failure fr mk fmt args e = Go tt e' /\
  e_calls e' = e_calls e ++ (mk <$> upto (fun a => fr (mk a) <? 0) args) /\
  (forallb (fun a => 0 <=? fr (mk a)) args = true -> e_out e' = e_out e).
Proof.
  induction args as [|a args IH]; intros e; cbn [until_failure upto].
  { exists e. split; [done|]. by rewrite app_nil_r. }
  unfold pbind at 1, fcall_. cbn [forallb]. destruct (fr (mk a) <? 0) eqn:E.
  - eexists. split; [reflexivity|]. split; [done|]. b2p. rewrite (proj2 (Z.leb_gt 0 (fr (mk a)))) by lia. done.
  - destruct (IH (put_call (mk a) e)) as (e' & E' & C & O). exists e'. split; [exact E'|]. split.
    + rewrite C. cbn. by rewrite <- app_assoc.
    + intros [_ H]%andb_true_iff. by rewrite O.
Qed.

(** rm deletes its arguments in order up to the first that fails, and only then
    says something. *)
Lemma rm_deletes fr p a args e : exists e', rm fr (p :: a :: args) e = Exit e' /\
  e_calls e' = e_calls e ++ (Unlink <$> upto (fun f => fr (Unlink f) <? 0) (a :: args)) /\
  (forallb (fun f => 0 <=? fr (Unlink f)) (a :: args) = true -> e_out e' = e_out e).
Proof.
  destruct (until_failure_calls fr Unlink "rm: %s failed to delete" (a :: args) e) as (e' & E & H).
  exists e'. split; [|exact H]. unfold rm. cbn [length Nat.ltb Nat.leb drop]. unfold pbind at 1. by rewrite E.
Qed.

Lemma after_slash_name name : forall acc rest, (47 ∉ name) -> after_slash (rev name ++ 47 :: rest) acc = name ++ acc.
Proof.
  induction name as [|c name IH]  using rev_ind; intros acc rest Hn; [done|].
  rewrite rev_app_distr. cbn [rev app after_slash]. apply not_elem_of_app in Hn as [Hn Hc].
  rewrite (proj2 (Z.eqb_neq c 47)) by (intros ->; apply Hc; left). rewrite IH by done. by rewrite <- app_assoc.
Qed.

(** The name of a directory entry, padded to its width. *)
Definition padded (name : list Z) : list Z := name ++ replicate (14 - length name) 32.
Lemma fmtname_entry path name : (47 ∉ name) -> (length name <= 14)%nat -> fmtname (path ++ [47] ++ name) = padded name.
Proof.
  intros Hn Hl. unfold fmtname. rewrite app_assoc, rev_app_distr, rev_app_distr. cbn [rev app].
  rewrite after_slash_name, app_nil_r by done. unfold padded, DIRSIZ.
  destruct (14 <=? Z.of_nat (length name)) eqn:E; b2p.
  - replace (14 - length name)%nat with 0%nat by lia. by rewrite app_nil_r.
  - do 2 f_equal. lia.
Qed.

(** The lines of a listing. *)
Definition entry_line (stat_ : list Z -> option stat) (path : list Z) (de : dirent) : list (Z * list Z) :=
  if de_inum de =? 0 then []
  else
    let name := cstr 14 (de_name de) in
    match stat_ (path ++ [47] ++ name) with
    | None => [(1, text (txt "ls: cannot stat %s" ++ [NLC]) [PStr (path ++ [47] ++ name)])]
    | Some st => [(1, text (txt "%s %d %d %d" ++ [NLC]) [PStr (padded name); PInt (st_type st); PInt (st_ino st); PInt (st_size st)])]
    end.

Definition add_out (os : list (Z * list Z)) (e : env) : env :=
  Env (e_uid e) (e_gid e) (e_db e) (e_in e) (e_out e ++ os) (e_calls e).

Definition dirent_ok (de : dirent) : Prop :=
  0 <= de_inum de < 2 ^ 16 /\ length (de_name de) = 14%nat /\ (47 ∉ cstr 14 (de_name de)).

Lemma add_out_nil e : add_out [] e = e.
Proof. destruct e. unfold add_out. cbn. by rewrite app_nil_r. Qed.
Lemma add_out_app a b e : add_out b (add_out a e) = add_out (a ++ b) e.
Proof. unfold add_out. cbn. by rewrite <- app_assoc. Qed.

Lemma add_out_cons o os e : add_out os (put_out o e) = add_out (o :: os) e.
Proof. unfold add_out. cbn. by rewrite <- app_assoc. Qed.

Lemma dirent_read de : dirent_ok de -> Z.of_nat (length (enc_dirent de)) = DIRENTSIZE /\ dec_dirent (enc_dirent de) = de.
Proof.
  intros (Hi & Hl & _). destruct de as [n name]. unfold dec_dirent, enc_dirent. cbn [de_inum de_name] in *. split.
  - rewrite length_app, length_le_enc, Hl. done.
  - rewrite take_app_length' by (by rewrite length_le_enc). rewrite drop_app_length' by (by rewrite length_le_enc).
    by rewrite le_dec_enc, Z.mod_small by (cbn; lia).
Qed.

Lemma ls_loop_lines stat_ path des last : Forall dirent_ok des -> Z.of_nat (length last) <> DIRENTSIZE ->
  forall e, ls_loop stat_ ls_line path ((enc_dirent <$> des) ++ [last]) e = Go tt (add_out (concat (entry_line stat_ path <$> des)) e).
Proof.
  intros Hd Hl. induction Hd as [|de des Hde Hd IH]; intros e.
  - cbn [fmap list_fmap app ls_loop]. rewrite (proj2 (Z.eqb_neq _ _) Hl). cbn. by rewrite add_out_nil.
  - cbn [fmap list_fmap app ls_loop concat]. destruct (dirent_read de Hde) as [E1 E2]. rewrite E1, Z.eqb_refl, E2.
    rewrite <- add_out_app. unfold entry_line at 2. destruct (de_inum de =? 0); [rewrite add_out_nil; apply IH|].
    pose proof (fmtname_entry path (cstr 14 (de_name de)) (proj2 (proj2 Hde)) (cstr_length _ _)) as Hf.
    cbn [app] in *. cbv zeta. unfold pbind.
    destruct (stat_ (path ++ 47 :: cstr 14 (de_name de))) as [st|]; [|apply IH]. unfold ls_line. rewrite Hf. apply IH.
Qed.

(** Ls of a directory.  For a path that fits the buffer, with the name of any
    entry, and a directory whose reads give the entries [des] and then fewer
    bytes, ls prints, in the order of the directory, exactly one line for every
    entry in use: the name padded to 14 characters, the type, the inode number
    and the size that stat gives for it, or that stat fails; and nothing else. *)
Theorem ls_lists (open_ : list Z -> option lopen) (stat_ : list Z -> option stat) (path : list Z) (st : stat) (des : list dirent) (last : list Z) (e : env) :
  open_ path = Some (Lopen (Some st) ((enc_dirent <$> des) ++ [last])) -> st_type st = T_DIR ->
  Z.of_nat (length path) + 16 <= 512 -> Forall dirent_ok des -> Z.of_nat (length last) <> DIRENTSIZE ->
  ls open_ stat_ path e = Go tt (add_out (concat (entry_line stat_ path <$> des)) e).
Proof.
  intros Ho Ht Hp Hd Hl. unfold ls, ls_with. rewrite Ho. cbn [lo_stat lo_reads]. rewrite Ht.
  change (T_DIR =? T_FILE) with false. rewrite Z.eqb_refl. unfold BUF, DIRSIZ.
  rewrite (proj2 (Z.ltb_ge _ _)) by lia. by apply ls_loop_lines.
Qed.

(** ** init *)

(** The processes reaped before the shell. *)
Fixpoint orphans (pid : Z) (waits : list Z) : list Z :=
  match waits with
  | [] => []
  | w :: ws => if (0 <=? w) && negb (w =? pid) then w :: orphans pid ws else []
  end.
Definition round_out (r : Z * list Z) : list (Z * list Z) :=
  (1, txt "init: starting sh" ++ [NLC]) :: ((fun _ => (1, txt "zombie!" ++ [NLC])) <$> orphans r.1 r.2).

Lemma init_wait_out pid ws : forall e, init_wait pid ws e = Go tt (add_out ((fun _ => (1, txt "zombie!" ++ [NLC])) <$> orphans pid ws) e).
Proof.
  induction ws as [|w ws IH]; intros e; cbn [init_wait orphans]; [cbn; by rewrite add_out_nil|].
  destruct (_ && _); [|cbn; by rewrite add_out_nil]. unfold pbind. cbn [sayln]. rewrite IH. cbn [fmap list_fmap].
  by rewrite add_out_cons.
Qed.

(** As long as fork does not fail init goes on: each turn starts a shell, says
    zombie once for every other child it reaps, and ends when the shell does. *)
Lemma init_loop_out exec_ok rounds : Forall (fun r => 0 < r.1) rounds ->
  forall e, init_loop exec_ok rounds e = Go tt (add_out (concat (round_out <$> rounds)) e).
Proof.
  induction 1 as [|[pid ws] rs Hr Hrs IH]; intros e; cbn [init_loop fmap list_fmap concat]; [by rewrite add_out_nil|].
  cbn [fst] in Hr. rewrite (proj2 (Z.ltb_ge pid 0)), (proj2 (Z.eqb_neq pid 0)) by lia.
  unfold pbind. cbn [sayln]. rewrite init_wait_out, IH. unfold round_out at 2. cbn [fst snd].
  by rewrite <- add_out_app, <- add_out_cons.
Qed.

(** ** The shell's loop *)

(** What a line makes the shell do. *)
Definition action (line : list Z) : fcall :=
  if is_cd (line ++ [NLC]) then Chdir (drop 3 line) else ForkRun (line ++ [NLC]).
Definition line_ok (line : list Z) : Prop := (length line <= 98)%nat /\ Forall (fun c => c <> 0 /\ c <> 10 /\ c <> 13) line.
Definition typed_in (lines : list (list Z)) : list Z := concat ((fun l => l ++ [NLC]) <$> lines).

Lemma gets_line line rest k : (length line < k)%nat -> Forall (fun c => c <> 0 /\ c <> 10 /\ c <> 13) line ->
  gets_loop k (line ++ NLC :: rest) = (line ++ [NLC], rest).
Proof.
  intros Hk Hl. revert k Hk. induction Hl as [|c line (H0 & H1 & H2) Hl IH]; intros k Hk.
  - destruct k as [|k]; [cbn in Hk; lia|]. done.
  - destruct k as [|k]; [cbn in Hk; lia|]. cbn [app gets_loop]. rewrite !(proj2 (Z.eqb_neq _ _)) by done. cbn [orb].
    rewrite IH by (cbn in Hk; lia). done.
Qed.

Lemma cstr_stop n p rest : 0 ∉ p -> (length p <= n)%nat -> cstr n (p ++ 0 :: rest) = p.
Proof.
  revert n. induction p as [|c p IH]; intros n Hn Hl; [by destruct n|].
  destruct n as [|n]; [cbn in Hl; lia|]. apply not_elem_of_cons in Hn as [Hc Hn].
  cbn [app cstr]. rewrite (proj2 (Z.eqb_neq c 0)) by congruence. f_equal. apply IH; [done|]. cbn in Hl. lia.
Qed.

Definition prompt : Z * list Z := (2, txt "$ ").
Definition line_out (fr : fcall -> Z) (line : list Z) : list (Z * list Z) :=
  prompt :: (if is_cd (line ++ [NLC]) && (fr (action line) <? 0) then [(2, text (txt "cannot cd %s" ++ [NLC]) [PStr (drop 3 line)])] else []).

Lemma getcmd_line line rest e : line_ok line -> e_in e = line ++ NLC :: rest ->
  getcmd 100 e = Go (Some (line ++ [NLC])) (set_in rest (put_out prompt e)).
Proof.
  intros [Hl Hc] He. unfold getcmd, pbind, say, Tools.gets. cbn [e_in put_out]. rewrite He, gets_line; [|change (Z.to_nat (100 - 1)) with 99%nat; lia|done].
  cbn [fst snd]. unfold pret. f_equal. rewrite cstr_stop.
  - by destruct line.
  - intros [H|H]%elem_of_app; [|apply list_elem_of_singleton in H; done]. rewrite Forall_forall in Hc. by destruct (Hc 0 H) as [? _].
  - rewrite length_app. change (Z.to_nat 100) with 100%nat. cbn. lia.
Qed.

Lemma getcmd_eof e : e_in e = [] -> getcmd 100 e = Go None (set_in [] (put_out prompt e)).
Proof.
  intros He. unfold getcmd, pbind, say, Tools.gets. cbn [e_in put_out]. rewrite He. reflexivity.
Qed.

#[local] Opaque text.
(** The shell's loop.  On an input of lines of at most 98 characters the
    shell prompts, takes one line at a time, in order and whole, changes its own
    directory for the lines that begin with "cd ", with the rest of the line as
    the directory, gives every other line to a child and waits for it, and exits
    at the end of the input; it prints only its prompts and the cds that
    fail. *)
Theorem sh_runs (fr : fcall -> Z) (Hfork : forall line, fr (ForkRun line) <> -1) (lines : list (list Z)) (Hl : Forall line_ok lines) (e : env) :
  e_in e = typed_in lines ->
  exists e', sh_loop fr (S (length lines)) e = Exit e' /\
    e_calls e' = e_calls e ++ (action <$> lines) /\ e_in e' = [] /\
    e_out e' = e_out e ++ concat (line_out fr <$> lines) ++ [prompt].
Proof.
  revert e. induction Hl as [|line lines Hok Hl IH]; intros e He.
  { exists (set_in [] (put_out prompt e)). cbn [length sh_loop]. unfold pbind at 1. rewrite getcmd_eof by exact He.
    split; [reflexivity|]. cbn. by rewrite app_nil_r. }
  change (typed_in (line :: lines)) with ((line ++ [NLC]) ++ typed_in lines) in He. rewrite <- app_assoc in He. cbn [app] in He.
  set (e1 := set_in (typed_in lines) (put_out prompt e)).
  assert (Hbody : exists e2, e_in e2 = typed_in lines /\ e_calls e2 = e_calls e ++ [action line] /\ e_out e2 = e_out e ++ line_out fr line /\
    sh_loop fr (S (S (length lines))) e = sh_loop fr (S (length lines)) e2).
  { generalize (S (length lines)) as n. intros n. cbn [sh_loop]. unfold pbind at 1. rewrite (getcmd_line line _ e Hok He). fold e1.
    unfold line_out, action. destruct (is_cd (line ++ [NLC])); cbn [andb].
    - rewrite removelast_last. unfold pbind at 1, fcall_. destruct (fr (Chdir (drop 3 line)) <? 0).
      + exists (put_out (2, text (txt "cannot cd %s" ++ [NLC]) [PStr (drop 3 line)]) (put_call (Chdir (drop 3 line)) e1)).
        split; [reflexivity|]. split; [reflexivity|]. split; [|reflexivity]. unfold e1.
        cbn [put_out put_call set_in e_out]. by rewrite <- app_assoc.
      + exists (put_call (Chdir (drop 3 line)) e1). split; [reflexivity|]. split; [reflexivity|]. split; reflexivity.
    - unfold pbind at 1, fork1, pbind at 1, fcall_. rewrite (proj2 (Z.eqb_neq _ _) (Hfork _)).
      exists (put_call (ForkRun (line ++ [NLC])) e1). split; [reflexivity|]. split; [reflexivity|]. split; reflexivity. }
  destruct Hbody as (e2 & Hi & Hc & Ho & Hs). destruct (IH e2 Hi) as (e' & E & C & I & O).
  exists e'. cbn [length]. rewrite Hs. split; [exact E|]. cbn [fmap list_fmap concat]. rewrite C, O, Hc, Ho, <- !app_assoc. done.
Qed.

(** ** Samples *)

Definition smp_stat (ty ino size : Z) : stat := Stat ty 1 ino 1 size 0 0 420.
Definition smp_name (s : string) : list Z := take 14 (txt s ++ replicate 14 0).
Definition smp_des : list dirent := [Dirent 1 (smp_name "."); Dirent 0 (smp_name "gone"); Dirent 5 (smp_name "cat")].
Definition smp_open (path : list Z) : option lopen := Some (Lopen (Some (smp_stat T_DIR 1 48)) ((enc_dirent <$> smp_des) ++ [[]])).
Definition smp_stat_ (path : list Z) : option stat :=
  if bool_decide (path = txt "./cat") then Some (smp_stat T_FILE 5 1234) else Some (smp_stat T_DIR 1 48).

Lemma ls_lists_witness : exists e', ls smp_open smp_stat_ (txt ".") smp_env = Go tt e' /\
  e_out e' = [(1, txt ".              1 1 48" ++ [NLC]); (1, txt "cat            2 5 1234" ++ [NLC])].
Proof.
  eexists. split; [apply (ls_lists smp_open smp_stat_ (txt ".") (smp_stat T_DIR 1 48) smp_des [])|].
  - reflexivity.
  - reflexivity.
  - vm_compute. discriminate.
  - unfold smp_des. repeat apply Forall_cons_2; [..|apply Forall_nil_2];
      (split; [split; [vm_compute; discriminate|vm_compute; reflexivity]|split; [reflexivity|]]); apply (bool_decide_eq_false_1 _); vm_compute; reflexivity.
  - discriminate.
  - vm_compute. reflexivity.
Defined.

Definition smp_sh_env : env := Env 0 0 (users_init utable0) (typed_in [txt "cd bin"; txt "ls | wc"]) [] [].
Lemma sh_runs_witness : exists e', sh_loop (fun _ => 3) 3 smp_sh_env = Exit e' /\
  e_calls e' = [Chdir (txt "bin"); ForkRun (txt "ls | wc" ++ [NLC])].
Proof.
  destruct (sh_runs (fun _ => 3) ltac:(discriminate) [txt "cd bin"; txt "ls | wc"]) with (e := smp_sh_env) as (e' & E & C & _).
  - repeat apply Forall_cons_2; [..|apply Forall_nil_2]; (split; [vm_compute; lia|]);
      repeat apply Forall_cons_2; try apply Forall_nil_2; split_and!; discriminate.
  - reflexivity.
  - exists e'. split; [exact E|]. rewrite C. vm_compute. reflexivity.
Defined.
