(* ===== verification/Start.v ===== *)
(** Starting the other processors: [startothers], [mpenter] and [mpmain] of
    main.c, with [entrypgdir].

    The boot processor runs [startothers]; a processor that has received its
    startup command runs entryother.S, which takes its page directory, its stack
    and the function to call from three words below the copied code, and [mpmain]
    then says that it is up.  The processors are interleaved at these points. *)
From stdpp Require Import base numbers list strings relations.
From Stdlib Require Import ZArith Lia.
From S2P Require Import Prelude Params CString Kalloc Vm Ports Mp Apic.

Local Open Scope list_scope.
Local Open Scope Z_scope.
Local Open Scope kernel_scope.

(** ** The boot page directory *)

Definition PTE_PS : Z := 128.
Definition entrypgdir : list Z :=
  <[Z.to_nat (Z.shiftr KERNBASE PDXSHIFT) := Z.lor (Z.lor (Z.lor 0 PTE_P) PTE_W) PTE_PS]>
    (<[0%nat := Z.lor (Z.lor (Z.lor 0 PTE_P) PTE_W) PTE_PS]> (replicate (Z.to_nat NPDENTRIES) 0)).

(** The processor with large pages on: the physical address of [va]. *)
Definition translate (pd : list Z) (va : Z) : option Z :=
  let e := nthd 0 pd (Z.to_nat (va / 2 ^ 22)) in
  if Z.testbit e 0 && Z.testbit e 7 then Some (2 ^ 22 * (e / 2 ^ 22) + va mod 2 ^ 22) else None.

(** ** The processors *)

(** A processor that is not the boot processor: halted, in entryother.S with the
    words it has read, or past [mpmain]'s announcement. *)
Inductive apst :=
| Halted
| Booting (esp eip pgdir : Z)
| Up (esp : Z).
(** The boot processor in [startothers]: at the head of the loop with [c] at
    [cpus + i], waiting for [cpus + i], or past the loop. *)
Inductive bsp := Loop (i : nat) | Waiting (i : nat) | Done.

Record smp (D : Type) := Smp {
  so_hw : hw D; so_km : kmem; so_started : nat -> Z; so_ap : nat -> apst; so_pc : bsp
}.
Arguments Smp {D}.
Arguments so_hw {D} _.
Arguments so_km {D} _.
Arguments so_started {D} _.
Arguments so_ap {D} _.
Arguments so_pc {D} _.

Definition CODE : Z := P2V 28672.

Section Code.
Context {D : Type} `{!PortIO D, !Mmio D}.
(** The local APIC, the APIC ids of [cpus] (with [ncpu] its length), the index
    of the boot processor, the addresses of [mpenter] and [entrypgdir], and the
    image of entryother.S. *)
Context (lapic : Z) (ids : list Z) (me : nat) (mpenter pgdir_addr : Z) (entryother : list Z).
Abbreviation K := (M (smp D)).

Definition put_bytes_at (a : Z) (bs : list Z) (m : Z -> Z) : Z -> Z :=
  fun x => if (a <=? x) && (x <? a + Z.of_nat (length bs)) then nthd 0 bs (Z.to_nat (x - a)) else m x.
Definition set_hw (h : hw D) (s : smp D) : smp D := Smp h (so_km s) (so_started s) (so_ap s) (so_pc s).
Definition set_pc (p : bsp) (s : smp D) : smp D := Smp (so_hw s) (so_km s) (so_started s) (so_ap s) p.
Definition poke (a : Z) (bs : list Z) : K unit :=
  modify (fun s => set_hw (Hw (put_bytes_at a bs (hw_mem (so_hw s))) (hw_dev (so_hw s))) s).

(** [startothers] before its loop. *)
Definition copy_code : K unit := poke CODE entryother.

(** The body of the loop up to its waiting, for [cpus + i]. *)
Definition launch (i : nat) : K unit :=
  stack ← zoom so_km (fun k s => Smp (so_hw s) k (so_started s) (so_ap s) (so_pc s)) kalloc;
  poke (CODE - 4) (le_enc 4 (u32 (stack + KSTACKSIZE)));;
  poke (CODE - 8) (le_enc 4 mpenter);;
  poke (CODE - 12) (le_enc 4 (V2P pgdir_addr));;
  zoom so_hw set_hw (lapicstartap lapic (nthd 0 ids i) (V2P CODE)).

(** One turn of the boot processor. *)
Definition bsp_step (s : smp D) : outcome (smp D) unit :=
  match so_pc s with
  | Loop i =>
      if Nat.ltb i (length ids) then
        if Nat.eqb i me then Ok tt (set_pc (Loop (S i)) s)
        else (launch i;; modify (set_pc (Waiting i))) s
      else Ok tt (set_pc Done s)
  | Waiting i => if so_started s i =? 0 then Blocked "startothers" else Ok tt (set_pc (Loop (S i)) s)
  | Done => Blocked "startothers"
  end.

(** What entryother.S reads. *)
Definition word_at (m : Z -> Z) (a : Z) : Z := le_dec ((fun k => m (a + k)) <$> seqZ 0 4).
Definition ap_boot (m : Z -> Z) : apst := Booting (word_at m (CODE - 4)) (word_at m (CODE - 8)) (word_at m (CODE - 12)).

Definition set_ap (i : nat) (a : apst) (s : smp D) : smp D :=
  Smp (so_hw s) (so_km s) (so_started s) (fun j => if Nat.eqb j i then a else so_ap s j) (so_pc s).
(** [xchg(&(mycpu()->started), 1)] of [mpmain]. *)
Definition mpmain_up (i : nat) (s : smp D) : smp D :=
  Smp (so_hw s) (so_km s) (fun j => if Nat.eqb j i then 1 else so_started s j) (so_ap s) (so_pc s).
End Code.

(** ** The boot page directory maps the kernel *)

(** The first 4 megabytes are mapped to themselves and from [KERNBASE] on;
    nothing else is mapped. *)
Lemma entrypgdir_maps va : 0 <= va < 2 ^ 32 ->
  translate entrypgdir va = if va <? 2 ^ 22 then Some va else if (KERNBASE <=? va) && (va <? KERNBASE + 2 ^ 22) then Some (V2P va) else None.
Proof.
  intros Hva. unfold translate. set (k := Z.to_nat (va / 2 ^ 22)).
  assert (Hk : va / 2 ^ 22 = Z.of_nat k) by (unfold k; rewrite Z2Nat.id; [done|apply Z.div_pos; lia]).
  pose proof (Z.div_mod va (2 ^ 22) ltac:(lia)) as Hdm. pose proof (Z.mod_pos_bound va (2 ^ 22) ltac:(lia)) as Hmb. rewrite Hk in Hdm.
  assert (Hlt : (k < 1024)%nat) by (apply Nat2Z.inj_lt; rewrite <- Hk; apply Z.div_lt_upper_bound; lia).
  unfold entrypgdir. change (Z.to_nat (Z.shiftr KERNBASE PDXSHIFT)) with 512%nat. unfold KERNBASE.
  assert (He : nthd 0 (<[512%nat := 131]> (<[0%nat := 131]> (replicate 1024 0))) k = if Nat.eqb k 512 || Nat.eqb k 0 then 131 else 0).
  { unfold nthd. destruct (Nat.eqb_spec k 512) as [->|H1]; [by rewrite list_lookup_insert_eq|]. rewrite list_lookup_insert_ne by done.
    destruct (Nat.eqb_spec k 0) as [->|H2]; [by rewrite list_lookup_insert_eq|]. rewrite list_lookup_insert_ne by done.
    by rewrite lookup_replicate_2. }
  change (Z.lor (Z.lor (Z.lor 0 PTE_P) PTE_W) PTE_PS) with 131. change (Z.to_nat NPDENTRIES) with 1024%nat. rewrite He.
  destruct (Nat.eqb_spec k 512) as [->|H1]; [|destruct (Nat.eqb_spec k 0) as [->|H2]]; cbn [orb].
  - change (Z.testbit 131 0 && Z.testbit 131 7) with true. rewrite (proj2 (Z.ltb_ge va _)) by lia.
    rewrite (proj2 (Z.leb_le _ va)), (proj2 (Z.ltb_lt va _)) by lia. cbn [andb]. f_equal. unfold V2P, KERNBASE. rewrite u32_small by lia. change (131 / 2 ^ 22) with 0. lia.
  - change (Z.testbit 131 0 && Z.testbit 131 7) with true. rewrite (proj2 (Z.ltb_lt va _)) by lia. f_equal. change (131 / 2 ^ 22) with 0. lia.
  - cbn [Z.testbit andb]. rewrite (proj2 (Z.ltb_ge va _)) by lia. destruct ((_ <=? va) && _) eqn:E; [|done]. b2p. lia.
Qed.

(** ** Words in memory *)

Lemma seqZ4 : seqZ 0 4 = [0; 1; 2; 3].
Proof. reflexivity. Qed.

Lemma word_poke a v m : 0 <= v < 2 ^ 32 -> word_at (put_bytes_at a (le_enc 4 v) m) a = v.
Proof.
  intros Hv. transitivity (le_dec (le_enc 4 v)).
  - unfold word_at. f_equal. rewrite seqZ4. cbn [fmap list_fmap le_enc]. unfold put_bytes_at. cbn [le_enc length Z.of_nat].
    assert (Hb : forall k, 0 <= k < 4 -> (a <=? a + k) && (a + k <? a + 4) = true) by (intros; rewrite andb_true_iff; lia).
    rewrite !Hb by lia. replace (a + 0 - a) with 0 by lia. replace (a + 1 - a) with 1 by lia.
    replace (a + 2 - a) with 2 by lia. replace (a + 3 - a) with 3 by lia. reflexivity.
  - rewrite le_dec_enc. apply Z.mod_small. cbn. lia.
Qed.
Lemma word_other a b bs m : b + 4 <= a \/ a + Z.of_nat (length bs) <= b -> word_at (put_bytes_at a bs m) b = word_at m b.
Proof.
  intros Hab. unfold word_at. f_equal. rewrite seqZ4. cbn [fmap list_fmap]. unfold put_bytes_at.
  assert (Hb : forall k, 0 <= k < 4 -> (a <=? b + k) && (b + k <? a + Z.of_nat (length bs)) = false) by (intros; rewrite andb_false_iff; lia).
  by rewrite !Hb by lia.
Qed.
Lemma word_at_ext m m' a : (forall k, 0 <= k < 4 -> m' (a + k) = m (a + k)) -> word_at m' a = word_at m a.
Proof. intros H. unfold word_at. f_equal. rewrite seqZ4. cbn [fmap list_fmap]. by rewrite !H by lia. Qed.

(** ** The protocol *)

Section Spec.
Context {D : Type} (lapic : Z) (slow : nat) `{Lapic D lapic slow}.
Context (ids : list Z) (me : nat) (mpenter pgdir_addr kend : Z).
Hypothesis Hids : Forall (fun a => 0 <= a < 256) ids.
Hypothesis Hdistinct : NoDup ids.
Hypothesis Hmpenter : 0 <= mpenter < 2 ^ 32.

Definition id_of (i : nat) : Z := nthd 0 ids i.
Abbreviation SIPI := (STARTUP + 7).
Definition sent (s : smp D) : list (Z * Z) := la_sent (hw_dev (so_hw s)).

Inductive sstep (s : smp D) : smp D -> Prop :=
| SBsp s' : bsp_step lapic ids me mpenter pgdir_addr s = Ok tt s' -> sstep s s'
| SWake j : (j < length ids)%nat -> j <> me -> so_ap s j = Halted -> (id_of j, SIPI) ∈ sent s ->
    sstep s (set_ap j (ap_boot (hw_mem (so_hw s))) s)
| SUp j esp pd : so_ap s j = Booting esp mpenter pd -> sstep s (mpmain_up j (set_ap j (Up esp) s)).

(** The words for the processor with stack page [p] are in place. *)
Definition slots (s : smp D) (p : Z) : Prop := ap_boot (hw_mem (so_hw s)) = Booting (p + 4096) mpenter (V2P pgdir_addr).

Lemma launch_spec i s p l : free_list kend (so_km s) (p :: l) -> (i < length ids)%nat ->
  exists s', launch lapic ids mpenter pgdir_addr i s = Ok tt s' /\ free_list kend (so_km s') l /\
    so_started s' = so_started s /\ so_ap s' = so_ap s /\ slots s' p /\
    sent s' = sent s ++ [(id_of i, INIT + LEVEL + ASSERT); (id_of i, INIT + LEVEL); (id_of i, SIPI); (id_of i, SIPI)].
Proof.
  intros Hf Hi. destruct (kalloc_spec kend (so_km s) (p :: l) Hf) as (km & Ek & Hf' & _).
  pose proof (fl_pages _ _ _ Hf) as Hp. apply Forall_cons in Hp as [[(_ & _ & Hp1) Hp2] _].
  assert (Hp3 : p + 4096 < 2 ^ 32).
  { unfold V2P, u32, KERNBASE, PHYSTOP in Hp1. destruct (decide (p < 2147483648)); [lia|]. rewrite Z.mod_small in Hp1; lia. }
  assert (Hid : 0 <= id_of i < 256).
  { unfold id_of, nthd. rewrite Forall_lookup in Hids. destruct (ids !! i) as [a|] eqn:E; [by apply (Hids i)|]. apply lookup_ge_None in E. lia. }
  unfold launch, bind, zoom. rewrite Ek. unfold poke, modify, set_hw. cbn [so_hw so_km so_started so_ap so_pc hw_mem hw_dev].
  match goal with |- context [lapicstartap _ _ _ (Hw ?f0 ?d0)] => set (f := f0); set (d := d0) end.
  destruct (startap_spec lapic slow d f (nthd 0 ids i) (V2P CODE) Hid) as (h & Eh & Hs & _ & _ & _ & Hm); [done..|].
  rewrite Eh. eexists. split; [reflexivity|]. cbn [so_km so_started so_ap so_pc]. split_and!; try done.
  unfold slots, ap_boot. cbn [so_hw].
  assert (Hw : forall a, WRV + 4 <= a -> word_at (hw_mem h) a = word_at f a).
  { intros a Ha. apply word_at_ext. intros k Hk. apply Hm. lia. }
  change WRV with 2147484775 in Hw. change CODE with 2147512320 in *. rewrite !Hw by lia. unfold f. f_equal.
  - rewrite word_other by (right; cbn [length le_enc]; lia). rewrite word_other by (right; cbn [length le_enc]; lia).
    rewrite word_poke by apply u32_range. unfold KSTACKSIZE. apply u32_small. lia.
  - rewrite word_other by (right; cbn [length le_enc]; lia). by apply word_poke.
  - apply word_poke. apply u32_range.
Qed.

(** ** The invariant *)

(** The processors launched so far, with [n] the first index not reached. *)
Definition launched (n : nat) : list nat := List.filter (fun j => negb (Nat.eqb j me)) (seq 0 n).
Definition reached (s : smp D) : nat := match so_pc s with Loop i => i | Waiting i => S i | Done => length ids end.

Record sinv (pages : nat -> Z) (all : list Z) (s : smp D) (l : list Z) : Prop := Sinv {
  sv_free : free_list kend (so_km s) l;
  sv_perm : (pages <$> launched (reached s)) ++ l ≡ₚ all;
  sv_reached : (reached s <= length ids)%nat;
  sv_up : forall j, (j < length ids)%nat -> j <> me ->
    (j < reached s)%nat -> so_pc s <> Waiting j -> so_ap s j = Up (pages j + 4096);
  sv_wait : forall i, so_pc s = Waiting i -> i <> me /\ slots s (pages i) /\
    (so_ap s i = Halted /\ so_started s i = 0 \/ so_ap s i = Booting (pages i + 4096) mpenter (V2P pgdir_addr) /\ so_started s i = 0 \/
     so_ap s i = Up (pages i + 4096) /\ so_started s i = 1) /\ (id_of i, SIPI) ∈ sent s;
  sv_later : forall j, (reached s <= j)%nat -> so_ap s j = Halted /\ so_started s j = 0;
  sv_sent : forall j, (j < length ids)%nat -> (id_of j, SIPI) ∈ sent s -> j ∈ launched (reached s);
  sv_me : so_ap s me = Halted
}.

Lemma launched_S n : launched (S n) = launched n ++ (if Nat.eqb n me then [] else [n]).
Proof. unfold launched. rewrite seq_S, List.filter_app. cbn. by destruct (Nat.eqb n me). Qed.
Lemma elem_launched j n : j ∈ launched n <-> (j < n)%nat /\ j <> me.
Proof.
  unfold launched. rewrite list_elem_of_In, filter_In, in_seq, negb_true_iff, Nat.eqb_neq. lia.
Qed.
Lemma length_launched n : (length (launched n) <= n)%nat.
Proof. unfold launched. etrans; [apply List.filter_length_le|]. by rewrite length_seq. Qed.

Lemma id_of_inj i j : (i < length ids)%nat -> (j < length ids)%nat -> id_of i = id_of j -> i = j.
Proof.
  intros Hi Hj E. unfold id_of, nthd in E. destruct (lookup_lt_is_Some_2 ids i Hi) as [a Ea]. destruct (lookup_lt_is_Some_2 ids j Hj) as [b Eb].
  rewrite Ea, Eb in E. cbn in E. subst b. by eapply NoDup_lookup.
Qed.

(** A processor that is not yet up, but not halted for good, is the one that is
    waited for. *)
Lemma awaited pages all s l j : sinv pages all s l -> (j < length ids)%nat -> j <> me ->
  (so_ap s j <> Halted \/ (id_of j, SIPI) ∈ sent s) -> so_ap s j <> Up (pages j + 4096) -> so_pc s = Waiting j.
Proof.
  intros I Hj Hm Hor Hup. destruct (decide (reached s <= j)%nat) as [Hr|Hr].
  - destruct Hor as [Hn|Hs]; [by destruct Hn; apply (sv_later _ _ _ _ I)|].
    apply (sv_sent _ _ _ _ I j Hj), elem_launched in Hs. lia.
  - destruct (so_pc s) as [i|i|] eqn:E.
    1,3: destruct Hup; apply (sv_up _ _ _ _ I j Hj Hm); [lia|by rewrite E].
    destruct (decide (i = j)) as [->|Hij]; [done|]. destruct Hup. apply (sv_up _ _ _ _ I j Hj Hm); [lia|]. rewrite E. congruence.
Qed.

Lemma sinv_wake pages all s l j : sinv pages all s l -> (j < length ids)%nat -> j <> me -> so_ap s j = Halted -> (id_of j, SIPI) ∈ sent s ->
  sinv pages all (set_ap j (ap_boot (hw_mem (so_hw s))) s) l.
Proof.
  intros I Hj Hm Ha Hs. assert (Hp : so_pc s = Waiting j) by (apply (awaited _ _ _ _ _ I Hj Hm); [by right|by rewrite Ha]).
  destruct (sv_wait _ _ _ _ I j Hp) as (_ & Hsl & Hw & Hse). split.
  - apply (sv_free _ _ _ _ I).
  - apply (sv_perm _ _ _ _ I).
  - apply (sv_reached _ _ _ _ I).
  - intros k Hk Hkm Hr Hpc. cbn. destruct (Nat.eqb_spec k j) as [->|]; [by destruct Hpc|]. by apply (sv_up _ _ _ _ I).
  - intros i Hi. cbn in Hi. assert (i = j) as -> by congruence. split; [done|]. split; [exact Hsl|]. split; [|exact Hse].
    cbn. rewrite Nat.eqb_refl. right; left. split; [exact Hsl|]. destruct Hw as [[_ ?]|[[Hb _]|[Hb _]]]; [done|congruence..].
  - intros k Hk. change (reached (set_ap j _ s)) with (reached s) in Hk. cbn. destruct (Nat.eqb_spec k j) as [->|]; [|by apply (sv_later _ _ _ _ I)].
    unfold reached in Hk. rewrite Hp in Hk. lia.
  - apply (sv_sent _ _ _ _ I).
  - cbn. destruct (Nat.eqb_spec me j) as [->|]; [done|]. apply (sv_me _ _ _ _ I).
Qed.

Lemma sinv_up pages all s l j esp pd : sinv pages all s l -> so_ap s j = Booting esp mpenter pd ->
  sinv pages all (mpmain_up j (set_ap j (Up esp) s)) l.
Proof.
  intros I Ha.
  assert (Hm : j <> me) by (intros ->; by rewrite (sv_me _ _ _ _ I) in Ha).
  assert (Hj : (j < length ids)%nat).
  { destruct (decide (j < length ids)%nat); [done|]. pose proof (sv_reached _ _ _ _ I).
    destruct (sv_later _ _ _ _ I j ltac:(lia)) as [E _]. congruence. }
  assert (Hp : so_pc s = Waiting j) by (apply (awaited _ _ _ _ _ I Hj Hm); [left|]; by rewrite Ha).
  destruct (sv_wait _ _ _ _ I j Hp) as (_ & Hsl & Hw & Hse).
  assert (esp = pages j + 4096) as -> by (destruct Hw as [[? _]|[[? _]|[? _]]]; congruence). split.
  - apply (sv_free _ _ _ _ I).
  - apply (sv_perm _ _ _ _ I).
  - apply (sv_reached _ _ _ _ I).
  - intros k Hk Hkm Hr Hpc. cbn. destruct (Nat.eqb_spec k j) as [->|]; [by destruct Hpc|]. by apply (sv_up _ _ _ _ I).
  - intros i Hi. cbn in Hi. assert (i = j) as -> by congruence. split; [done|]. split; [exact Hsl|]. split; [|exact Hse].
    cbn. rewrite Nat.eqb_refl. by right; right.
  - intros k Hk. change (reached (mpmain_up j _)) with (reached s) in Hk. cbn. destruct (Nat.eqb_spec k j) as [->|]; [|by apply (sv_later _ _ _ _ I)].
    unfold reached in Hk. rewrite Hp in Hk. lia.
  - apply (sv_sent _ _ _ _ I).
  - cbn. destruct (Nat.eqb_spec me j) as [->|]; [done|]. apply (sv_me _ _ _ _ I).
Qed.

(** Moving on in the loop without a launch. *)
Lemma sinv_pc pages all s l p : sinv pages all s l ->
  let s' := set_pc p s in
  (reached s' <= length ids)%nat -> launched (reached s') = launched (reached s) -> (reached s <= reached s')%nat ->
  (forall i, p <> Waiting i) ->
  (forall i, so_pc s = Waiting i -> so_ap s i = Up (pages i + 4096)) -> sinv pages all s' l.
Proof.
  intros I s' Hr Hl Hge Hp Hw. split.
  - apply (sv_free _ _ _ _ I).
  - rewrite Hl. apply (sv_perm _ _ _ _ I).
  - exact Hr.
  - intros j Hj Hm Hjr _. assert (Hin : j ∈ launched (reached s)) by (rewrite <- Hl; by apply elem_launched).
    apply elem_launched in Hin as [Hjs _]. change (so_ap s' j) with (so_ap s j).
    destruct (so_pc s) as [i|i|] eqn:E.
    1,3: apply (sv_up _ _ _ _ I j Hj Hm Hjs); by rewrite E.
    destruct (decide (i = j)) as [->|Hij]; [by apply Hw|]. apply (sv_up _ _ _ _ I j Hj Hm Hjs). rewrite E. congruence.
  - intros i Hi. by destruct (Hp i).
  - intros j Hj. apply (sv_later _ _ _ _ I). lia.
  - intros j Hj Hs. rewrite Hl. by apply (sv_sent _ _ _ _ I j Hj).
  - apply (sv_me _ _ _ _ I).
Qed.

Lemma sinv_launch pages all s l i : (length ids <= length all)%nat -> sinv pages all s l -> so_pc s = Loop i -> (i < length ids)%nat -> i <> me ->
  exists s', launch lapic ids mpenter pgdir_addr i s = Ok tt s' /\ so_ap s' = so_ap s /\
    exists pages' l', sinv pages' all (set_pc (Waiting i) s') l'.
Proof.
  intros Ha I Hpc Hi Hm. pose proof (sv_perm _ _ _ _ I) as Hperm. unfold reached in Hperm. rewrite Hpc in Hperm.
  destruct l as [|p l].
  { apply Permutation_length in Hperm. rewrite length_app, length_fmap in Hperm. pose proof (length_launched i). cbn in Hperm. lia. }
  destruct (launch_spec i s p l (sv_free _ _ _ _ I) Hi) as (s' & E & Hf & Hst & Hap & Hsl & Hse).
  exists s'. split; [exact E|]. split; [exact Hap|]. set (pages' := fun j => if Nat.eqb j i then p else pages j). exists pages', l.
  assert (Hold : forall j, j <> i -> pages' j = pages j) by (intros j Hj; unfold pages'; by destruct (Nat.eqb_spec j i)).
  assert (Hnew : pages' i = p) by (unfold pages'; by rewrite Nat.eqb_refl).
  assert (Hrl : launched (S i) = launched i ++ [i]) by (rewrite launched_S; by destruct (Nat.eqb_spec i me)).
  destruct (sv_later _ _ _ _ I i) as [Hhalt Hzero]; [unfold reached; by rewrite Hpc|].
  split; unfold reached; cbn [so_pc set_pc so_km so_ap so_started].
  - exact Hf.
  - rewrite Hrl, fmap_app, <- app_assoc. cbn [fmap list_fmap app]. rewrite Hnew.
    replace (pages' <$> launched i) with (pages <$> launched i); [exact Hperm|].
    apply list_fmap_ext. intros k x Hx. symmetry. apply Hold. apply list_elem_of_lookup_2, elem_launched in Hx. lia.
  - lia.
  - intros j Hj Hjm Hlt Hne. rewrite Hap, Hold by congruence. apply (sv_up _ _ _ _ I j Hj Hjm); [|by rewrite Hpc].
    unfold reached. rewrite Hpc. assert (j <> i) by congruence. lia.
  - intros k [= <-]. rewrite Hap, Hst, Hnew. split; [done|]. split; [exact Hsl|]. split; [by left|].
    change (sent (set_pc (Waiting i) s')) with (sent s'). rewrite Hse. apply elem_of_app. right. by do 2 right; left.
  - intros j Hj. rewrite Hap, Hst. apply (sv_later _ _ _ _ I). unfold reached. rewrite Hpc. lia.
  - intros j Hj. change (sent (set_pc (Waiting i) s')) with (sent s'). rewrite Hse, elem_of_app, Hrl, elem_of_app. intros [Hs|Hs].
    + left. apply (sv_sent _ _ _ _ I j Hj) in Hs. unfold reached in Hs. by rewrite Hpc in Hs.
    + right. apply list_elem_of_singleton. apply id_of_inj; [done..|].
      repeat (apply elem_of_cons in Hs as [Hs|Hs]; [exact (f_equal fst Hs)|]). by apply not_elem_of_nil in Hs.
  - rewrite Hap. apply (sv_me _ _ _ _ I).
Qed.

Lemma sinv_bsp pages all s l s' : (length ids <= length all)%nat -> sinv pages all s l ->
  bsp_step lapic ids me mpenter pgdir_addr s = Ok tt s' -> exists pages' l', sinv pages' all s' l'.
Proof.
  intros Ha I. pose proof (sv_reached _ _ _ _ I) as Hr. unfold bsp_step. destruct (so_pc s) as [i|i|] eqn:Hpc; [| |done].
  - assert (Hrs : reached s = i) by (unfold reached; by rewrite Hpc). destruct (Nat.ltb_spec i (length ids)) as [Hi|Hi].
    + destruct (Nat.eqb_spec i me) as [Hm|Hm].
      * intros [= <-]. exists pages, l. apply sinv_pc; [done|cbn; lia| |rewrite Hrs; cbn; lia|done|by rewrite Hpc].
        rewrite Hrs. change (reached (set_pc (Loop (S i)) s)) with (S i). rewrite launched_S. destruct (Nat.eqb_spec i me); [apply app_nil_r|done].
      * destruct (sinv_launch pages all s l i Ha I Hpc Hi Hm) as (s1 & E & _ & pages' & l' & I'). unfold bind. rewrite E.
        intros [= <-]. by exists pages', l'.
    + intros [= <-]. exists pages, l. assert (i = length ids) as -> by lia.
      apply sinv_pc; [done|cbn; lia|by rewrite Hrs|rewrite Hrs; cbn; lia|done|by rewrite Hpc].
  - destruct (so_started s i =? 0) eqn:E; [done|]. b2p. intros [= <-]. exists pages, l.
    destruct (sv_wait _ _ _ _ I i Hpc) as (Hm & _ & Hw & _).
    assert (Hup : so_ap s i = Up (pages i + 4096)) by (destruct Hw as [[_ ?]|[[_ ?]|[? _]]]; done).
    assert (Hrs : reached s = S i) by (unfold reached; by rewrite Hpc).
    apply sinv_pc; [done|cbn; lia|by rewrite Hrs|rewrite Hrs; cbn; lia|done|]. intros k Hk. assert (k = i) as -> by congruence. done.
Qed.

(** The stack a processor runs on. *)
Definition on_stack (a : apst) : option Z := match a with Halted => None | Booting e _ _ => Some e | Up e => Some e end.

Lemma stack_of pages all s l j e : sinv pages all s l -> on_stack (so_ap s j) = Some e ->
  j ∈ launched (reached s) /\ (j < length ids)%nat /\ e = pages j + 4096 /\
  (so_ap s j = Booting e mpenter (V2P pgdir_addr) \/ so_ap s j = Up e).
Proof.
  intros I He.
  assert (Hm : j <> me) by (intros ->; by rewrite (sv_me _ _ _ _ I) in He).
  assert (Hr : (j < reached s)%nat).
  { destruct (decide (j < reached s)%nat); [done|]. destruct (sv_later _ _ _ _ I j ltac:(lia)) as [E _]. by rewrite E in He. }
  pose proof (sv_reached _ _ _ _ I). split; [by apply elem_launched|]. split; [lia|].
  destruct (so_ap s j) as [|e' ip pd|e'] eqn:Ea; [done|..]; cbn in He; injection He as ->.
  - assert (Hp : so_pc s = Waiting j) by (apply (awaited _ _ _ _ _ I); [lia|done|left; by rewrite Ea|by rewrite Ea]).
    destruct (sv_wait _ _ _ _ I j Hp) as (_ & _ & Hw & _). rewrite Ea in Hw. destruct Hw as [[? _]|[[[= -> -> ->] _]|[? _]]]; [done|by split; [|left]|done].
  - destruct (so_pc s) as [i|i|] eqn:Hp; [..|].
    2: { destruct (decide (i = j)) as [->|Hij].
         - destruct (sv_wait _ _ _ _ I j Hp) as (_ & _ & Hw & _). rewrite Ea in Hw. destruct Hw as [[? _]|[[? _]|[[= ->] _]]]; [done..|by split; [|right]].
         - pose proof (sv_up _ _ _ _ I j ltac:(lia) Hm Hr ltac:(rewrite Hp; congruence)) as E. rewrite Ea in E. injection E as ->. by split; [|right]. }
    all: pose proof (sv_up _ _ _ _ I j ltac:(lia) Hm Hr ltac:(by rewrite Hp)) as E; rewrite Ea in E; injection E as ->; by split; [|right].
Qed.

(** What is left to do: every step is one less. *)
Definition rank (a : apst) : nat := match a with Halted => 2 | Booting _ _ _ => 1 | Up _ => 0 end.
Definition total (f : nat -> nat) (n : nat) : nat := foldr (fun j a => f j + a)%nat 0%nat (seq 0 n).
Definition left_to_do (s : smp D) : nat :=
  (match so_pc s with Loop i => 2 * (length ids - i) + 1 | Waiting i => 2 * (length ids - i) | Done => 0 end
   + total (fun j => rank (so_ap s j)) (length ids))%nat.

Lemma total_S f n : total f (S n) = (total f n + f n)%nat.
Proof.
  unfold total. rewrite seq_S, foldr_app. cbn. generalize (f n) as x. intros x.
  induction (seq 0 n) as [|a k IH]; cbn; [lia|]. rewrite IH. lia.
Qed.
Lemma total_decr f g n j : (j < n)%nat -> (g j < f j)%nat -> (forall k, k <> j -> g k = f k) -> (total g n < total f n)%nat.
Proof.
  intros Hj Hlt He. assert (Heq : forall k, (k <= j)%nat -> total g k = total f k).
  { induction k as [|k IH]; intros Hk; [done|]. rewrite !total_S, IH, He by lia. done. }
  induction n as [|n IH]; [lia|]. rewrite !total_S. destruct (decide (j = n)) as [->|Hn]; [rewrite Heq by lia; lia|].
  rewrite (He n) by done. specialize (IH ltac:(lia)). lia.
Qed.

Lemma step_less pages all s l s' : (length ids <= length all)%nat -> sinv pages all s l -> sstep s s' -> (left_to_do s' < left_to_do s)%nat.
Proof.
  intros Ha I Hs. pose proof (sv_reached _ _ _ _ I) as Hr. destruct Hs as [s' Hb|j Hj Hm Hh Hse|j e pd Hb].
  - unfold bsp_step in Hb. unfold left_to_do, reached in *. destruct (so_pc s) as [i|i|] eqn:Hpc; [| |done].
    + destruct (Nat.ltb_spec i (length ids)) as [Hi|Hi]; [|injection Hb as <-; cbn; lia].
      destruct (Nat.eqb_spec i me) as [Hm|Hm]; [injection Hb as <-; cbn; lia|].
      destruct (sinv_launch pages all s l i Ha I Hpc Hi Hm) as (s1 & E & Hap & _). unfold bind in Hb. rewrite E in Hb.
      injection Hb as <-. cbn. rewrite Hap. lia.
    + destruct (so_started s i =? 0); [done|]. injection Hb as <-. cbn. lia.
  - unfold left_to_do. cbn [so_pc set_ap]. apply Nat.add_lt_mono_l. apply (total_decr _ _ _ j Hj).
    + cbn. rewrite Nat.eqb_refl, Hh. cbn. lia.
    + intros k Hk. cbn. by destruct (Nat.eqb_spec k j).
  - destruct (stack_of pages all s l j e I) as (_ & Hj & _); [by rewrite Hb|].
    unfold left_to_do. cbn [so_pc set_ap mpmain_up]. apply Nat.add_lt_mono_l. apply (total_decr _ _ _ j Hj).
    + cbn. rewrite Nat.eqb_refl, Hb. cbn. lia.
    + intros k Hk. cbn. by destruct (Nat.eqb_spec k j).
Qed.

(** Unless the loop is over, something can go on. *)
Lemma step_enabled pages all s l : (length ids <= length all)%nat -> sinv pages all s l -> so_pc s <> Done -> exists s', sstep s s'.
Proof.
  intros Ha I Hd. destruct (so_pc s) as [i|i|] eqn:Hpc; [| |done].
  - assert (Hb : exists s', bsp_step lapic ids me mpenter pgdir_addr s = Ok tt s').
    { unfold bsp_step. rewrite Hpc. destruct (Nat.ltb_spec i (length ids)) as [Hi|Hi]; [|by eexists].
      destruct (Nat.eqb_spec i me) as [Hm|Hm]; [by eexists|].
      destruct (sinv_launch pages all s l i Ha I Hpc Hi Hm) as (s1 & E & _). unfold bind. rewrite E. by eexists. }
    destruct Hb as [s' Hb]. exists s'. by apply SBsp.
  - pose proof (sv_reached _ _ _ _ I) as Hr. unfold reached in Hr. rewrite Hpc in Hr.
    destruct (sv_wait _ _ _ _ I i Hpc) as (Hm & Hsl & Hw & Hse). destruct Hw as [[Hh _]|[[Hb _]|[_ Hu]]].
    + eexists. apply (SWake s i); [lia|done..].
    + eexists. by apply (SUp s i (pages i + 4096) (V2P pgdir_addr)).
    + eexists. apply SBsp. unfold bsp_step. by rewrite Hpc, Hu.
Qed.

(** C11: starting the processors.  From the start of [startothers], with enough
    free pages, in every state the processors reach in any interleaving: a
    processor that has left its halt runs on the top of a page of its own, taken
    from the free pages and different from every other processor's, enters
    [mpenter] and uses [entrypgdir]; when [startothers] has returned every other
    processor is up; and until then some step is possible and every step leaves
    less to do, so that [startothers] returns. *)
Theorem start_others (s0 s : smp D) (pages0 : list Z) :
  so_pc s0 = Loop 0 -> (forall j, so_ap s0 j = Halted /\ so_started s0 j = 0) ->
  (forall a, (a, SIPI) ∉ sent s0) -> free_list kend (so_km s0) pages0 -> (length ids <= length pages0)%nat ->
  rtc sstep s0 s ->
  (forall j e, on_stack (so_ap s j) = Some e ->
    (exists p, p ∈ pages0 /\ e = p + KSTACKSIZE) /\
    (so_ap s j = Booting e mpenter (V2P pgdir_addr) \/ so_ap s j = Up e) /\
    (forall k, k <> j -> on_stack (so_ap s k) <> Some e)) /\
  (so_pc s = Done -> forall j, (j < length ids)%nat -> j <> me -> exists e, so_ap s j = Up e) /\
  (so_pc s <> Done -> exists s', sstep s s') /\
  (forall s', sstep s s' -> (left_to_do s' < left_to_do s)%nat).
Proof.
  intros Hpc Hh Hse Hf Hlen Hrun.
  assert (I : exists pages l, sinv pages pages0 s l).
  { assert (I0 : exists pages l, sinv pages pages0 s0 l).
    { exists (fun _ => 0), pages0. split; unfold reached; rewrite ?Hpc; try done; try lia.
      - intros j _ Hs. by destruct (Hse (id_of j)).
      - apply Hh. }
    clear Hpc Hh Hse Hf. induction Hrun as [|a b c Hab _ IH]; [done|]. apply IH. destruct I0 as (pages & l & I).
    destruct Hab as [b Hb|j Hj Hm Hh Hs|j e pd Hb].
    - by eapply sinv_bsp.
    - exists pages, l. by apply sinv_wake.
    - exists pages, l. by eapply sinv_up. }
  destruct I as (pages & l & I). split_and!.
  - intros j e He. destruct (stack_of _ _ _ _ _ _ I He) as (Hj & Hlt & -> & Hst).
    pose proof (sv_perm _ _ _ _ I) as Hperm.
    assert (Hin : forall k, k ∈ launched (reached s) -> pages k ∈ pages0).
    { intros k Hk. rewrite <- Hperm. apply elem_of_app. left. by apply list_elem_of_fmap_2. }
    split; [exists (pages j); by split; [apply Hin|]|]. split; [exact Hst|].
    intros k Hk Hek. destruct (stack_of _ _ _ _ _ _ I Hek) as (Hk' & _ & Heq & _). apply Hk.
    pose proof (fl_nodup _ _ _ Hf) as Hn. rewrite <- Hperm in Hn. apply NoDup_app in Hn as (Hn & _).
    apply list_elem_of_lookup in Hj as [a Ea]. apply list_elem_of_lookup in Hk' as [b Eb].
    assert (a = b) as ->; [|congruence].
    eapply (NoDup_lookup _ a b (pages j)); [exact Hn|rewrite list_lookup_fmap, Ea; done|rewrite list_lookup_fmap, Eb; cbn; f_equal; lia].
  - intros Hd j Hj Hm. exists (pages j + 4096). apply (sv_up _ _ _ _ I); [done..| |by rewrite Hd]. unfold reached. by rewrite Hd.
  - intros Hd. by eapply step_enabled.
  - intros s' Hs. by eapply step_less.
Qed.
End Spec.

(** ** A machine with two processors *)

Definition smp0 : smp board := Smp (Hw (fun _ => 0) board0) smp_kmem1 (fun _ => 0) (fun _ => Halted) (Loop 0).
Definition smp_next (s : smp board) : smp board :=
  match bsp_step LBASE [0; 1] 0 2148532224 2148597760 s with Ok _ s' => s' | _ => s end.
Definition smp2 : smp board := smp_next (smp_next smp0).
Definition smp3 : smp board := set_ap 1 (ap_boot (hw_mem (so_hw smp2))) smp2.
Definition smp4 : smp board := mpmain_up 1 (set_ap 1 (Up (smp_kend + 8192)) smp3).
Definition smp_end : smp board := smp_next (smp_next smp4).

Lemma smp_next_step s : (if bsp_step LBASE [0; 1] 0 2148532224 2148597760 s is Ok _ _ then true else false) = true ->
  bsp_step LBASE [0; 1] 0 2148532224 2148597760 s = Ok tt (smp_next s).
Proof. unfold smp_next. by destruct (bsp_step _ _ _ _ _ s) as [[] s'|?|?]. Qed.

Lemma smp_kmem1_free : free_list smp_kend smp_kmem1 [smp_kend + 4096; smp_kend].
Proof.
  split.
  - cbn [chain]. split_and!; try (vm_compute; reflexivity); vm_compute; discriminate.
  - apply (bool_decide_unpack _). vm_compute. exact I.
  - repeat apply Forall_cons_2; [..|apply Forall_nil_2]; (split; [split_and!|]; vm_compute; try reflexivity; try (split; reflexivity); discriminate).
Qed.

Lemma start_others_witness : so_pc smp_end = Done /\ exists e, so_ap smp_end 1 = Up e /\ exists p, p ∈ [smp_kend + 4096; smp_kend] /\ e = p + KSTACKSIZE.
Proof.
  assert (Hd : so_pc smp_end = Done) by (vm_compute; reflexivity). split; [exact Hd|].
  destruct (start_others LBASE 1 [0; 1] 0 2148532224 2148597760 smp_kend) with (s0 := smp0) (s := smp_end) (pages0 := [smp_kend + 4096; smp_kend]) as (H1 & H2 & _).
  - repeat apply Forall_cons_2; [..|apply Forall_nil_2]; split; (discriminate || reflexivity).
  - apply (bool_decide_unpack _). vm_compute. exact I.
  - split; [discriminate|reflexivity].
  - reflexivity.
  - intros j. split; reflexivity.
  - intros a Ha. by apply not_elem_of_nil in Ha.
  - exact smp_kmem1_free.
  - cbn. lia.
  - apply (rtc_l _ _ (smp_next smp0)); [apply SBsp, smp_next_step; vm_compute; reflexivity|].
    apply (rtc_l _ _ smp2); [apply SBsp, smp_next_step; vm_compute; reflexivity|].
    apply (rtc_l _ _ smp3); [apply SWake; [cbn; lia|discriminate|vm_compute; reflexivity|]|].
    { apply (bool_decide_unpack _). vm_compute. exact I. }
    apply (rtc_l _ _ smp4); [apply (SUp _ _ _ _ _ _ _ 1 (smp_kend + 8192) (V2P 2148597760)); vm_compute; reflexivity|].
    apply (rtc_l _ _ (smp_next smp4)); [apply SBsp, smp_next_step; vm_compute; reflexivity|].
    apply (rtc_l _ _ smp_end); [apply SBsp, smp_next_step; vm_compute; reflexivity|]. apply rtc_refl.
  - destruct (H2 Hd 1%nat ltac:(cbn; lia) ltac:(discriminate)) as [e He]. exists e. split; [exact He|].
    destruct (H1 1%nat e) as [Hp _]; [by rewrite He|exact Hp].
Defined.
