(* ===== verification/Asm.v ===== *)
(** The assembly of the kernel that C code relies on: swtch.S, trapasm.S, the
    entry points vectors.pl generates, the system call stubs of usys.S, and
    initcode.S.

    The processor is its registers and a memory of 32-bit words at addresses that
    are multiples of four; an instruction is a function on it.  What the processor
    does by itself at an interrupt and at [iret] is from its manual; which gate it
    goes through is [interrupt] of Seg.v. *)
From stdpp Require Import base numbers list strings.
From Stdlib Require Import ZArith Lia.
From S2P Require Import Prelude Params CString Users Namecache Bio Log Store Fs Kalloc Vm Pipe File Proc Syscall Sysfile Exec Sysproc Spinlock Seg.

Local Open Scope list_scope.
Local Open Scope Z_scope.

(** ** The processor *)

Inductive reg := EAX | ECX | EDX | EBX | ESP | EBP | ESI | EDI.
Inductive sreg := DS | ES | FS | GS.
Definition reg_ix (r : reg) : nat :=
  match r with EAX => 0 | ECX => 1 | EDX => 2 | EBX => 3 | ESP => 4 | EBP => 5 | ESI => 6 | EDI => 7 end%nat.
Definition sreg_ix (r : sreg) : nat := match r with DS => 0 | ES => 1 | FS => 2 | GS => 3 end%nat.
Definition reg_eqb (a b : reg) : bool := Nat.eqb (reg_ix a) (reg_ix b).
Definition sreg_eqb (a b : sreg) : bool := Nat.eqb (sreg_ix a) (sreg_ix b).
Lemma reg_eqb_ne a b : a <> b -> reg_eqb a b = false.
Proof. intros H. destruct a, b; done. Qed.

Record mach := Mach {
  regs : reg -> Z; sregs : sreg -> Z; eip : Z; cs : Z; ss : Z; eflags : Z; mem : Z -> Z
}.
Definition set_reg (r : reg) (v : Z) (m : mach) : mach :=
  Mach (fun x => if reg_eqb x r then v else regs m x) (sregs m) (eip m) (cs m) (ss m) (eflags m) (mem m).
Definition set_sreg (r : sreg) (v : Z) (m : mach) : mach :=
  Mach (regs m) (fun x => if sreg_eqb x r then v else sregs m x) (eip m) (cs m) (ss m) (eflags m) (mem m).
Definition set_eip (v : Z) (m : mach) : mach := Mach (regs m) (sregs m) v (cs m) (ss m) (eflags m) (mem m).
Definition store (a v : Z) (m : mach) : mach :=
  Mach (regs m) (sregs m) (eip m) (cs m) (ss m) (eflags m) (fun x => if x =? a then v else mem m x).

Definition push (v : Z) (m : mach) : mach :=
  let sp := u32 (regs m ESP - 4) in store sp v (set_reg ESP sp m).
Definition top (m : mach) : Z := mem m (regs m ESP).
Definition drop_top (m : mach) : mach := set_reg ESP (u32 (regs m ESP + 4)) m.

(** The instructions used. *)
Inductive instr :=
| PushR (r : reg)
| PushS (r : sreg)
| PushI (v : Z)
| PopR (r : reg)
| PopS (r : sreg)
| Load (off : Z) (base dst : reg)
| Store (src base : reg)
| Mov (src dst : reg)
| MovI (v : Z) (dst : reg)
| MovW (v : Z) (dst : reg)
| MovSeg (src : reg) (dst : sreg)
| AddI (v : Z) (dst : reg)
| Pushal
| Popal
| Ret
| Iret.

(** The order of pushal. *)
Definition pushal_regs : list reg := [EAX; ECX; EDX; EBX; ESP; EBP; ESI; EDI].

(** Return from an interrupt: to another level with its stack, or to the same. *)
Definition iret (m : mach) : mach :=
  let e := top m in let m1 := drop_top m in
  let c := Z.land (top m1) 65535 in let m2 := drop_top m1 in
  let f := top m2 in let m3 := drop_top m2 in
  if Z.land c 3 =? Z.land (cs m) 3 then Mach (regs m3) (sregs m3) e c (ss m3) f (mem m3)
  else
    let sp := top m3 in let m4 := drop_top m3 in
    let s := Z.land (top m4) 65535 in
    set_reg ESP sp (Mach (regs m4) (sregs m4) e c s f (mem m4)).

Definition step (i : instr) (m : mach) : mach :=
  match i with
  | PushR r => push (regs m r) m
  | PushS r => push (sregs m r) m
  | PushI v => push v m
  | PopR r => let v := top m in set_reg r v (drop_top m)
  | PopS r => let v := top m in set_sreg r (Z.land v 65535) (drop_top m)
  | Load off base dst => set_reg dst (mem m (u32 (regs m base + off))) m
  | Store src base => store (regs m base) (regs m src) m
  | Mov src dst => set_reg dst (regs m src) m
  | MovI v dst => set_reg dst v m
  | MovW v dst => set_reg dst (Z.lor (Z.land (regs m dst) 4294901760) v) m
  | MovSeg src dst => set_sreg dst (Z.land (regs m src) 65535) m
  | AddI v dst => set_reg dst (u32 (regs m dst + v)) m
  | Pushal => foldl (fun m' r => push (regs m r) m') m pushal_regs
  | Popal => foldl (fun m' r => if reg_eqb r ESP then drop_top m' else set_reg r (top m') (drop_top m')) m (reverse pushal_regs)
  | Ret => set_eip (top m) (drop_top m)
  | Iret => iret m
  end.
Definition run (p : list instr) (m : mach) : mach := foldl (fun m i => step i m) m p.

(** ** The code *)

Definition swtch : list instr :=
  [Load 4 ESP EAX; Load 8 ESP EDX;
   PushR EBP; PushR EBX; PushR ESI; PushR EDI;
   Store ESP EAX; Mov EDX ESP;
   PopR EDI; PopR ESI; PopR EBX; PopR EBP; Ret].

(** Up to [call trap], and from its return on. *)
Definition alltraps : list instr :=
  [PushS DS; PushS ES; PushS FS; PushS GS; Pushal;
   MovW (Z.shiftl SEG_KDATA 3) EAX; MovSeg EAX DS; MovSeg EAX ES; PushR ESP].
Definition after_trap : list instr := [AddI 4 ESP].
Definition trapret : list instr := [Popal; PopS GS; PopS FS; PopS ES; PopS DS; AddI 8 ESP; Iret].

(** The exceptions for which the processor pushes an error code itself. *)
Definition has_err (i : Z) : bool := (i =? 8) || ((10 <=? i) && (i <=? 14)) || (i =? 17).
Definition vector (i : Z) : list instr := (if negb (has_err i) then [PushI 0] else []) ++ [PushI i].

(** A stub up to its [int], which goes to gate [T_SYSCALL], and its end. *)
Definition stub (num : Z) : list instr := [MovI num EAX].
Definition stub_end : list instr := [Ret].

(** initcode.S up to its first [int], with the addresses of its two labels, and
    the loop after it up to its [int]. *)
Definition SYS_exec : Z := 7.
Definition initcode_exec (argv init : Z) : list instr := [PushI argv; PushI init; PushI 0; MovI SYS_exec EAX].
Definition initcode_exit : list instr := [MovI SYS_exit EAX].

(** The processor at an interrupt with error code [err], through an entry that
    [interrupt] finds: it changes stacks if the entry has one, and pushes. *)
Definition enter (e : entered) (err : option Z) (m : mach) : mach :=
  let m1 := match en_stack e with
            | Some (s, sp) =>
                push (regs m ESP) (push (ss m) (set_reg ESP sp (Mach (regs m) (sregs m) (eip m) (cs m) s (eflags m) (mem m))))
            | None => m
            end in
  let m2 := push (eip m) (push (cs m) (push (eflags m) m1)) in
  let m3 := match err with Some v => push v m2 | None => m2 end in
  Mach (regs m3) (sregs m3) (en_eip e) (en_cs e) (ss m3)
    (if en_if e then eflags m else Z.land (eflags m) (Z.lnot FL_IF)) (mem m3).

(** ** Stacks *)

Lemma run_app p q m : run (p ++ q) m = run q (run p m).
Proof. apply foldl_app. Qed.

(** The words [l] from address [a] on. *)
Definition words_at (f : Z -> Z) (a : Z) (l : list Z) : Prop := forall k v, l !! k = Some v -> f (a + 4 * Z.of_nat k) = v.

Lemma words_cons f a v l : words_at f a (v :: l) <-> f a = v /\ words_at f (a + 4) l.
Proof.
  split.
  - intros H. split; [rewrite <- (H 0%nat v eq_refl); f_equal; lia|]. intros k w Hk. rewrite <- (H (S k) w Hk). f_equal. lia.
  - intros [H1 H2] [|k] w Hk; [injection Hk as <-; rewrite <- H1; f_equal; lia|]. rewrite <- (H2 k w Hk). f_equal. lia.
Qed.
Lemma words_nil f a : words_at f a [].
Proof. intros k v Hk. by destruct k. Qed.
Lemma words_ext f g a l : (forall x, a <= x < a + 4 * Z.of_nat (length l) -> g x = f x) -> words_at f a l -> words_at g a l.
Proof. intros H Hw k v Hk. rewrite H; [by apply Hw|]. apply lookup_lt_Some in Hk. lia. Qed.

(** [m'] is [m] after pushing [vs], the last of them on top. *)
Record pushed (vs : list Z) (m m' : mach) : Prop := Pushed {
  pu_esp : regs m' ESP = regs m ESP - 4 * Z.of_nat (length vs);
  pu_regs : forall r, r <> ESP -> regs m' r = regs m r;
  pu_words : words_at (mem m') (regs m' ESP) (reverse vs);
  pu_mem : forall x, ~ regs m' ESP <= x < regs m ESP -> mem m' x = mem m x
}.

Lemma pushed_nil m : pushed [] m m.
Proof. split; [cbn; lia|done|intros k v Hk; by destruct k|done]. Qed.

Lemma pushed_push v vs m m' : pushed vs m m' -> 4 * Z.of_nat (length vs) + 4 <= regs m ESP <= 2 ^ 32 -> pushed (vs ++ [v]) m (push v m').
Proof.
  intros [E R W M] Hsp.
  assert (Hu : u32 (regs m' ESP - 4) = regs m' ESP - 4) by (apply u32_small; lia).
  split; unfold push, store, set_reg; cbn [regs sregs eip cs ss eflags mem reg_eqb reg_ix Nat.eqb]; rewrite ?Hu.
  - rewrite length_app. cbn. lia.
  - intros r Hr. rewrite reg_eqb_ne by done. by apply R.
  - rewrite reverse_app. cbn [app reverse rev_append]. apply words_cons. split; [by rewrite Z.eqb_refl|].
    replace (regs m' ESP - 4 + 4) with (regs m' ESP) by lia. eapply words_ext; [|exact W]. intros x Hx. cbv beta.
    rewrite (proj2 (Z.eqb_neq _ _)) by lia. done.
  - intros x Hx. rewrite (proj2 (Z.eqb_neq _ _)) by lia. apply M. lia.
Qed.

(** ** Switching contexts *)

(** struct context. *)
Record context := Context { c_edi : Z; c_esi : Z; c_ebx : Z; c_ebp : Z; c_eip : Z }.
Definition ctx_words (c : context) : list Z := [c_edi c; c_esi c; c_ebx c; c_ebp c; c_eip c].

Lemma pop_eq m a l v : regs m ESP = a -> 0 <= a -> a + 4 < 2 ^ 32 -> words_at (mem m) a (v :: l) ->
  top m = v /\ regs (drop_top m) ESP = a + 4 /\ words_at (mem (drop_top m)) (a + 4) l.
Proof.
  intros <- H0 H1 [Hv Hl]%words_cons. unfold top, drop_top, set_reg. cbn [regs mem reg_eqb reg_ix Nat.eqb].
  rewrite u32_small by lia. done.
Qed.

(** The three pieces of [swtch]. *)
Lemma swtch_loads m old new : 0 <= regs m ESP -> regs m ESP + 12 < 2 ^ 32 -> mem m (regs m ESP + 4) = old -> mem m (regs m ESP + 8) = new ->
  let m1 := run [Load 4 ESP EAX; Load 8 ESP EDX] m in
  regs m1 EAX = old /\ regs m1 EDX = new /\ (forall r, r <> EAX -> r <> EDX -> regs m1 r = regs m r) /\ mem m1 = mem m /\
  sregs m1 = sregs m /\ cs m1 = cs m /\ ss m1 = ss m /\ eflags m1 = eflags m.
Proof.
  intros H1 H2 Ho Hn. cbn. rewrite !u32_small by lia. split_and!; try done.
  intros r Hr1 Hr2. by rewrite !reg_eqb_ne.
Qed.

Lemma swtch_pushes m : 16 <= regs m ESP <= 2 ^ 32 ->
  pushed [regs m EBP; regs m EBX; regs m ESI; regs m EDI] m (run [PushR EBP; PushR EBX; PushR ESI; PushR EDI] m).
Proof.
  intros H. cbn [run foldl step].
  pose proof (pushed_push (regs m EBP) _ _ _ (pushed_nil m) ltac:(cbn; lia)) as P1. cbn [app] in P1.
  pose proof (pushed_push (regs m EBX) _ _ _ P1 ltac:(cbn; lia)) as P2. cbn [app] in P2.
  pose proof (pushed_push (regs m ESI) _ _ _ P2 ltac:(cbn; lia)) as P3. cbn [app] in P3.
  pose proof (pushed_push (regs m EDI) _ _ _ P3 ltac:(cbn; lia)) as P4. cbn [app] in P4. exact P4.
Qed.

Lemma swtch_pops m c : 0 <= regs m ESP -> regs m ESP + 20 < 2 ^ 32 -> words_at (mem m) (regs m ESP) (ctx_words c) ->
  let m' := run [PopR EDI; PopR ESI; PopR EBX; PopR EBP; Ret] m in
  regs m' EDI = c_edi c /\ regs m' ESI = c_esi c /\ regs m' EBX = c_ebx c /\ regs m' EBP = c_ebp c /\ eip m' = c_eip c /\
  regs m' ESP = regs m ESP + 20 /\ mem m' = mem m /\ sregs m' = sregs m /\ cs m' = cs m /\ ss m' = ss m /\ eflags m' = eflags m.
Proof.
  intros H0 H1 Hw. unfold ctx_words in Hw. rewrite !words_cons in Hw. destruct Hw as (W1 & W2 & W3 & W4 & W5 & _).
  replace (regs m ESP + 4 + 4) with (regs m ESP + 8) in * by lia. replace (regs m ESP + 8 + 4) with (regs m ESP + 12) in * by lia.
  replace (regs m ESP + 12 + 4) with (regs m ESP + 16) in * by lia.
  cbn. rewrite !u32_add_l, <- !Z.add_assoc. cbn. rewrite !u32_small by lia. done.
Qed.

(** A call [swtch(old, new)] with return address [ret], where [new] is the
    context [c]; the stack, the pointer and the context are apart. *)
Record swtch_call (m : mach) (ret old new : Z) (c : context) : Prop := SwtchCall {
  sc_low : 16 <= regs m ESP;
  sc_high : regs m ESP + 12 < 2 ^ 32;
  sc_new : 0 <= new /\ new + 20 < 2 ^ 32;
  sc_args : words_at (mem m) (regs m ESP) [ret; old; new];
  sc_ctx : words_at (mem m) new (ctx_words c);
  sc_apart : new + 20 <= regs m ESP - 16 \/ regs m ESP <= new;
  sc_old : (old < new \/ new + 20 <= old) /\ (old < regs m ESP - 16 \/ regs m ESP + 4 <= old)
}.
Definition saved (m : mach) (ret : Z) : context := Context (regs m EDI) (regs m ESI) (regs m EBX) (regs m EBP) ret.
(** The registers, the stack pointer and the place of [c] at [new]. *)
Definition resumes (m : mach) (c : context) (new : Z) : Prop :=
  regs m EDI = c_edi c /\ regs m ESI = c_esi c /\ regs m EBX = c_ebx c /\ regs m EBP = c_ebp c /\
  eip m = c_eip c /\ regs m ESP = new + 20.

Lemma swtch_spec (m : mach) (ret old new : Z) (c : context) :
  swtch_call m ret old new c ->
  let sp := regs m ESP in let m' := run swtch m in
  mem m' old = sp - 16 /\ words_at (mem m') (sp - 16) (ctx_words (saved m ret)) /\
  (forall x, x <> old -> ~ sp - 16 <= x < sp -> mem m' x = mem m x) /\ resumes m' c new /\
  sregs m' = sregs m /\ cs m' = cs m /\ ss m' = ss m /\ eflags m' = eflags m.
Proof.
  intros [Hs1 Hs2 [Hn1 Hn2] Ha Hc Hd1 [Hd2 Hd3]] sp m'. fold sp in Hs1, Hs2, Ha, Hd1, Hd3. unfold resumes, saved.
  apply words_cons in Ha as [Hret Ha]. apply words_cons in Ha as [Hold Ha]. apply words_cons in Ha as [Hnew _].
  replace (sp + 4 + 4) with (sp + 8) in Hnew by lia.
  destruct (swtch_loads m old new ltac:(lia) Hs2 Hold Hnew) as (L1 & L2 & L3 & L4 & L5).
  set (m1 := run [Load 4 ESP EAX; Load 8 ESP EDX] m) in *.
  assert (Hsp : regs m1 ESP = sp) by (by apply L3).
  pose proof (swtch_pushes m1 ltac:(lia)) as [P1 P2 P4 P5].
  set (m2 := run [PushR EBP; PushR EBX; PushR ESI; PushR EDI] m1) in *. rewrite Hsp in *. cbn [length] in P1.
  replace (sp - 4 * Z.of_nat 4) with (sp - 16) in P1 by lia. rewrite P1, (L3 EDI), (L3 ESI), (L3 EBX), (L3 EBP) in P4 by done. rewrite P1, L4 in P5.
  assert (Hm' : m' = run [PopR EDI; PopR ESI; PopR EBX; PopR EBP; Ret] (run [Store ESP EAX; Mov EDX ESP] m2)).
  { assert (Es : swtch = [Load 4 ESP EAX; Load 8 ESP EDX] ++ [PushR EBP; PushR EBX; PushR ESI; PushR EDI] ++
      [Store ESP EAX; Mov EDX ESP] ++ [PopR EDI; PopR ESI; PopR EBX; PopR EBP; Ret]) by reflexivity.
    unfold m'. rewrite Es, !run_app. reflexivity. }
  assert (P3 : sregs m2 = sregs m1 /\ cs m2 = cs m1 /\ ss m2 = ss m1 /\ eflags m2 = eflags m1) by done.
  destruct P3 as (P3 & P3b & P3c & P3d). clearbody m' m2 m1.
  set (m3 := run [Store ESP EAX; Mov EDX ESP] m2) in Hm'.
  assert (M3 : (forall x, mem m3 x = if x =? old then sp - 16 else mem m2 x) /\ regs m3 ESP = new /\
    sregs m3 = sregs m2 /\ cs m3 = cs m2 /\ ss m3 = ss m2 /\ eflags m3 = eflags m2).
  { cbn. rewrite (P2 EAX), (P2 EDX), L1, L2, P1 by done. done. }
  destruct M3 as (M3 & E3 & S3 & S3a & S3b & S3c). clearbody m3.
  destruct (swtch_pops m3 c) as (Q1 & Q2 & Q3 & Q4 & Q5 & Q6 & Q7 & Q8 & Q9 & Q10 & Q11); rewrite ?E3; [lia..| |].
  { eapply words_ext; [|exact Hc]. cbn [length ctx_words]. intros x Hx. rewrite M3, (proj2 (Z.eqb_neq _ _)) by lia. apply P5. lia. }
  rewrite <- Hm' in *. rewrite Q7. split_and!; try done.
  - by rewrite M3, Z.eqb_refl.
  - cbn [reverse rev_append app] in P4. change (reverse [?a; ?b; ?c0; ?d]) with [d; c0; b; a] in P4.
    unfold ctx_words. cbn [c_edi c_esi c_ebx c_ebp c_eip]. rewrite !words_cons in P4 |- *.
    replace (sp - 16 + 4 + 4 + 4 + 4) with sp in * by lia.
    destruct P4 as (A1 & A2 & A3 & A4 & _).
    rewrite !M3, !(proj2 (Z.eqb_neq _ _)) by lia. split_and!; try done.
    apply words_cons. split; [|apply words_nil]. rewrite M3, (proj2 (Z.eqb_neq _ _)), P5 by lia. done.
  - intros x Hx Hr. rewrite M3, (proj2 (Z.eqb_neq _ _)) by done. by apply P5.
  - by rewrite Q6, E3.
  - rewrite Q8, S3, P3. apply L5.
  - rewrite Q9, S3a, P3b. apply L5.
  - rewrite Q10, S3b, P3c. apply L5.
  - rewrite Q11, S3c, P3d. apply L5.
Qed.

(** C19: a context switch.  [swtch(old, new)] leaves in [old] the address of a
    context that holds the caller's callee-saved registers and its return
    address, and goes on where the context at [new] says, with its registers, on
    the stack above it; apart from [old] and the four words below the stack
    pointer no memory changes.  Whenever the saved context is switched to later,
    by any call of [swtch] that finds its words unchanged, it is as if the first
    call had returned: at its return address, with the same callee-saved
    registers and the stack pointer after the return. *)
Theorem swtch_returns (m : mach) (ret old new : Z) (c : context) :
  swtch_call m ret old new c ->
  let sp := regs m ESP in let m1 := run swtch m in
  mem m1 old = sp - 16 /\ words_at (mem m1) (sp - 16) (ctx_words (saved m ret)) /\
  (forall x, x <> old -> ~ sp - 16 <= x < sp -> mem m1 x = mem m x) /\ resumes m1 c new /\
  forall m2 ret2 old2, swtch_call m2 ret2 old2 (mem m1 old) (saved m ret) ->
    let m3 := run swtch m2 in
    eip m3 = ret /\ regs m3 ESP = sp + 4 /\
    regs m3 EDI = regs m EDI /\ regs m3 ESI = regs m ESI /\ regs m3 EBX = regs m EBX /\ regs m3 EBP = regs m EBP.
Proof.
  intros Hc sp m1. destruct (swtch_spec m ret old new c Hc) as (H1 & H2 & H3 & H4 & _). fold sp m1 in H1, H2, H3, H4.
  split_and!; try done. intros m2 ret2 old2 Hc2 m3. rewrite H1 in Hc2.
  destruct (swtch_spec m2 ret2 old2 _ _ Hc2) as (_ & _ & _ & (E1 & E2 & E3 & E4 & E5 & E6) & _). fold m3 in E1, E2, E3, E4, E5, E6.
  split_and!; try done. rewrite E6. lia.
Qed.

(** ** Traps *)

(** Does the trap change stacks, and where does it push? *)
Definition crosses (e : entered) : bool := match en_stack e with Some _ => true | None => false end.
Definition stack_top (e : entered) (m : mach) : Z := match en_stack e with Some (_, sp) => sp | None => regs m ESP end.

(** The trap frame: struct trapframe of x86.h, word by word; its last two words
    are there only if the trap changed stacks. *)
Definition frame (x : bool) (m : mach) (n err oesp : Z) : list Z :=
  [regs m EDI; regs m ESI; regs m EBP; oesp; regs m EBX; regs m EDX; regs m ECX; regs m EAX;
   sregs m GS; sregs m FS; sregs m ES; sregs m DS; n; err; eip m; cs m; eflags m] ++ (if x then [regs m ESP; ss m] else []).

Lemma frame_fields m n err oesp :
  let f := frame true m n err oesp in
  length f = tf_words /\ f !! TF_EAX = Some (regs m EAX) /\ f !! TF_ES = Some (sregs m ES) /\ f !! TF_DS = Some (sregs m DS) /\
  f !! TF_EIP = Some (eip m) /\ f !! TF_ESP = Some (regs m ESP) /\ f !! TF_CS = Some (cs m) /\ f !! TF_SS = Some (ss m) /\
  f !! TF_EFLAGS = Some (eflags m).
Proof. done. Qed.

Definition pushes (ws : list Z) (m : mach) : mach := foldl (fun m v => push v m) m ws.
(** The registers that a push leaves. *)
Definition rest (m : mach) := (sregs m, eip m, cs m, ss m, eflags m).

Lemma pushes_rest ws : forall m, rest (pushes ws m) = rest m.
Proof. induction ws as [|w ws IH]; intros m; [done|]. cbn [pushes foldl]. exact (IH (push w m)). Qed.

Lemma pushed_pushes ws : forall vs m m', pushed vs m m' -> 4 * Z.of_nat (length vs + length ws) <= regs m ESP <= 2 ^ 32 ->
  pushed (vs ++ ws) m (pushes ws m').
Proof.
  induction ws as [|w ws IH]; intros vs m m' Hp Hsp; [by rewrite app_nil_r|].
  cbn [pushes foldl]. replace (vs ++ w :: ws) with ((vs ++ [w]) ++ ws) by (by rewrite <- app_assoc).
  cbn [length] in Hsp. apply IH; [apply pushed_push; [done|lia]|]. rewrite length_app. cbn [length]. lia.
Qed.

Lemma pushed_same vs m a b : pushed vs m a -> regs b = regs a -> mem b = mem a -> pushed vs m b.
Proof. intros [A B C E] Hr Hm. split; rewrite ?Hr, ?Hm; assumption. Qed.

Lemma push_sregs v m : sregs (push v m) = sregs m.
Proof. done. Qed.

#[local] Opaque push.

(** The words the processor pushes. *)
Definition hw_words (x : bool) (m : mach) (err : option Z) : list Z :=
  (if x then [ss m; regs m ESP] else []) ++ [eflags m; cs m; eip m] ++ match err with Some v => [v] | None => [] end.

Lemma enter_pushes e err m :
  let m0 := match en_stack e with
            | Some (s, sp) => set_reg ESP sp (Mach (regs m) (sregs m) (eip m) (cs m) s (eflags m) (mem m))
            | None => m
            end in
  let m1 := pushes (hw_words (crosses e) m err) m0 in
  enter e err m = Mach (regs m1) (sregs m1) (en_eip e) (en_cs e) (ss m1)
    (if en_if e then eflags m else Z.land (eflags m) (Z.lnot FL_IF)) (mem m1).
Proof. unfold enter, crosses. destruct (en_stack e) as [[s sp]|]; by destruct err. Qed.

Lemma enter_pushed e err m : 80 <= stack_top e m <= 2 ^ 32 ->
  pushed (hw_words (crosses e) m err) (set_reg ESP (stack_top e m) m) (enter e err m) /\ sregs (enter e err m) = sregs m.
Proof.
  intros Hsp. rewrite enter_pushes. cbv zeta.
  set (m0 := match en_stack e with Some _ => _ | None => m end).
  assert (P0 : pushed [] (set_reg ESP (stack_top e m) m) m0 /\ sregs m0 = sregs m).
  { unfold m0, stack_top. destruct (en_stack e) as [[s sp]|]; (split; [|done]); split; try (cbn; lia); try apply words_nil; try done.
    intros r Hr. cbn [set_reg regs]. by rewrite reg_eqb_ne. }
  destruct P0 as [P0 S0].
  pose proof (pushed_pushes (hw_words (crosses e) m err) [] _ m0 P0) as P. cbn [app] in P.
  pose proof (pushes_rest (hw_words (crosses e) m err) m0) as Hr. unfold rest in Hr. injection Hr as Hr _ _ _ _.
  set (m1 := pushes _ m0) in *. clearbody m1. split; [|by cbn [sregs]; rewrite Hr].
  apply (pushed_same _ _ m1); [|done..]. apply P. cbn [set_reg regs reg_eqb reg_ix Nat.eqb].
  unfold hw_words. destruct (crosses e), err; cbn; lia.
Qed.

(** The pushes of the entry point and of [alltraps]. *)
Definition vec_words (n : Z) : list Z := (if negb (has_err n) then [0] else []) ++ [n].
Lemma vector_pushes n m : run (vector n) m = pushes (vec_words n) m.
Proof. unfold vector, vec_words. by destruct (has_err n). Qed.
Lemma segs_pushes m : run [PushS DS; PushS ES; PushS FS; PushS GS] m = pushes [sregs m DS; sregs m ES; sregs m FS; sregs m GS] m.
Proof. cbn [run foldl step pushes]. by rewrite !push_sregs. Qed.
Lemma pushal_pushes m : run [Pushal] m = pushes [regs m EAX; regs m ECX; regs m EDX; regs m EBX; regs m ESP; regs m EBP; regs m ESI; regs m EDI] m.
Proof. done. Qed.

(** ** Entry *)

(** A trap [n] with error code [err] that the processor takes through [e] in [m]:
    it pushes an error code for the exceptions it is documented for, there is room
    on the stack, the level changes when the stack does, and selectors have 16 bits. *)
Record trapped (e : entered) (n : Z) (err : option Z) (m : mach) : Prop := Trapped {
  tr_err : has_err n = match err with Some _ => true | None => false end;
  tr_room : 80 <= stack_top e m < 2 ^ 32;
  tr_level : (Z.land (cs m) 3 =? Z.land (en_cs e) 3) = negb (crosses e);
  tr_sregs : forall r, 0 <= sregs m r < 65536;
  tr_cs : 0 <= cs m < 65536;
  tr_ss : 0 <= ss m < 65536
}.
Definition tf_size (e : entered) : Z := if crosses e then 76 else 68.
(** The frame at [tf]. *)
Definition frame_at (e : entered) (n : Z) (err : option Z) (m : mach) (tf : Z) : list Z := frame (crosses e) m n (default 0 err) (tf + 32).

Lemma pushed_trans vs ws m m1 m2 : pushed vs m m1 -> pushed ws m1 m2 -> pushed (vs ++ ws) m m2.
Proof.
  intros [A1 A2 A3 A4] [B1 B2 B3 B4]. split.
  - rewrite B1, A1, length_app. lia.
  - intros r Hr. by rewrite B2, A2.
  - rewrite reverse_app. intros k v Hk. apply lookup_app_Some in Hk as [Hk|[Hge Hk]]; [by apply B3|].
    rewrite <- (A3 _ _ Hk). rewrite length_reverse in Hge, Hk |- *. rewrite B4 by lia. f_equal. lia.
  - intros x Hx. rewrite B4 by lia. apply A4. lia.
Qed.
Lemma pushes_pushed ws m : 4 * Z.of_nat (length ws) <= regs m ESP <= 2 ^ 32 -> pushed ws m (pushes ws m).
Proof. intros H. apply (pushed_pushes ws [] m m (pushed_nil m)). exact H. Qed.

(** The pushes of a trap, up to the end of [pushal]. *)
Lemma frame_built e n err m : trapped e n err m ->
  let sp := stack_top e m in let tf := sp - tf_size e in
  let m4 := run [PushS DS; PushS ES; PushS FS; PushS GS; Pushal] (run (vector n) (enter e err m)) in
  regs m4 ESP = tf /\ words_at (mem m4) tf (frame_at e n err m tf) /\ (forall y, ~ tf <= y < sp -> mem m4 y = mem m y).
Proof.
  intros [He Hsp _ _ _ _] sp tf m4.
  destruct (enter_pushed e err m ltac:(lia)) as [P1 S1]. set (m1 := enter e err m) in *.
  assert (E4 : m4 = run [Pushal] (run [PushS DS; PushS ES; PushS FS; PushS GS] (run (vector n) m1))).
  { exact (run_app [PushS DS; PushS ES; PushS FS; PushS GS] [Pushal] (run (vector n) m1)). }
  clearbody m1 m4. rewrite vector_pushes, segs_pushes, pushal_pushes in E4. fold sp in P1, Hsp.
  pose proof (pu_esp _ _ _ P1) as Q1. cbn [set_reg regs reg_eqb reg_ix Nat.eqb] in Q1.
  assert (L1 : Z.of_nat (length (hw_words (crosses e) m err) + length (vec_words n)) = (if crosses e then 7 else 5)).
  { unfold hw_words, vec_words. rewrite He. by destruct (crosses e), err. }
  pose proof (pushes_pushed (vec_words n) m1 ltac:(destruct (crosses e); lia)) as P2.
  pose proof (pushes_rest (vec_words n) m1) as S2. injection S2 as S2 _ _ _ _.
  pose proof (pu_esp _ _ _ P2) as Q2. set (m2 := pushes (vec_words n) m1) in *. clearbody m2.
  pose proof (pushes_pushed [sregs m2 DS; sregs m2 ES; sregs m2 FS; sregs m2 GS] m2 ltac:(cbn; destruct (crosses e); lia)) as P3.
  pose proof (pu_esp _ _ _ P3) as Q3. set (m3 := pushes _ m2) in *. clearbody m3.
  pose proof (pushes_pushed [regs m3 EAX; regs m3 ECX; regs m3 EDX; regs m3 EBX; regs m3 ESP; regs m3 EBP; regs m3 ESI; regs m3 EDI] m3
    ltac:(cbn [length] in Q3 |- *; destruct (crosses e); lia)) as P4.
  rewrite <- E4 in P4. pose proof (pu_esp _ _ _ P4) as Q4. cbn [length] in Q3, Q4.
  rewrite Q3 in Q4.
  assert (Et : regs m4 ESP = tf) by (unfold tf, tf_size; destruct (crosses e); lia).
  pose proof (pushed_trans _ _ _ _ _ P1 (pushed_trans _ _ _ _ _ P2 (pushed_trans _ _ _ _ _ P3 P4))) as P.
  assert (Er : forall r, r <> ESP -> regs m3 r = regs m r).
  { intros r Hr. rewrite (pu_regs _ _ _ P3), (pu_regs _ _ _ P2), (pu_regs _ _ _ P1) by done. cbn [set_reg regs]. by rewrite reg_eqb_ne. }
  destruct P as [_ _ W M]. rewrite Et in W, M. split; [done|]. split; [|exact M].
  rewrite (Er EAX), (Er ECX), (Er EDX), (Er EBX), (Er EBP), (Er ESI), (Er EDI), S2, S1 in W by done.
  replace (regs m3 ESP) with (tf + 32) in W by (unfold tf, tf_size; destruct (crosses e); lia).
  unfold frame_at, frame. unfold hw_words, vec_words in W. rewrite He in W. by destruct (crosses e), err.
Qed.

Lemma kernel_selector a : Z.land (Z.lor (Z.land a 4294901760) (Z.shiftl SEG_KDATA 3)) 65535 = 16.
Proof. rewrite Z.land_lor_distr_l, <- Z.land_assoc. cbn. by rewrite Z.land_0_r. Qed.

(** The end of [alltraps]. *)
Definition to_trap : list instr := [MovW (Z.shiftl SEG_KDATA 3) EAX; MovSeg EAX DS; MovSeg EAX ES; PushR ESP].
#[local] Transparent push.
Lemma to_trap_spec m tf : regs m ESP = tf -> 4 <= tf < 2 ^ 32 ->
  let m1 := run to_trap m in
  regs m1 ESP = tf - 4 /\ mem m1 (tf - 4) = tf /\ (forall y, y <> tf - 4 -> mem m1 y = mem m y) /\ sregs m1 DS = 16 /\ sregs m1 ES = 16.
Proof.
  intros <- Htf. cbn [run to_trap foldl step]. unfold push, store, set_sreg, set_reg.
  cbn [sregs regs mem sreg_eqb sreg_ix reg_eqb reg_ix Nat.eqb]. rewrite u32_small by lia. rewrite Z.eqb_refl.
  split_and!; try done; [|apply kernel_selector..]. intros y Hy. by rewrite (proj2 (Z.eqb_neq _ _)).
Qed.
Lemma alltraps_eq m : run alltraps m = run to_trap (run [PushS DS; PushS ES; PushS FS; PushS GS; Pushal] m).
Proof. exact (run_app [PushS DS; PushS ES; PushS FS; PushS GS; Pushal] to_trap m). Qed.

(** What [trap] finds. *)
Lemma trap_entry e n err m : trapped e n err m ->
  let sp := stack_top e m in let tf := sp - tf_size e in
  let m1 := run alltraps (run (vector n) (enter e err m)) in
  regs m1 ESP = tf - 4 /\ words_at (mem m1) (tf - 4) (tf :: frame_at e n err m tf) /\ sregs m1 DS = 16 /\ sregs m1 ES = 16 /\
  (forall y, ~ tf - 4 <= y < sp -> mem m1 y = mem m y).
Proof.
  intros Ht. cbv zeta. pose proof (frame_built e n err m Ht) as F. cbv zeta in F. rewrite alltraps_eq.
  generalize dependent (run [PushS DS; PushS ES; PushS FS; PushS GS; Pushal] (run (vector n) (enter e err m))). intros m4 (A & B & C).
  assert (Htf : 4 <= stack_top e m - tf_size e <= stack_top e m /\ stack_top e m < 2 ^ 32).
  { destruct Ht as [_ Hsp _ _ _ _]. unfold tf_size. destruct (crosses e); lia. }
  set (sp := stack_top e m) in *. set (tf := sp - tf_size e) in *. clearbody tf.
  destruct (to_trap_spec m4 tf A ltac:(lia)) as (D1 & D2 & D3 & D4 & D5).
  generalize dependent (run to_trap m4). intros m1 D1 D2 D3 D4 D5. split_and!; try done.
  - apply words_cons. split; [done|]. replace (tf - 4 + 4) with tf by lia.
    eapply words_ext; [|exact B]. intros x Hx. apply D3. lia.
  - intros y Hy. rewrite D3 by lia. apply C. lia.
Qed.

(** ** Return *)

Definition same_cpu (m m' : mach) : Prop :=
  (forall r, regs m' r = regs m r) /\ (forall r, sregs m' r = sregs m r) /\
  eip m' = eip m /\ cs m' = cs m /\ ss m' = ss m /\ eflags m' = eflags m.

Lemma words_app f a l k : words_at f a (l ++ k) <-> words_at f a l /\ words_at f (a + 4 * Z.of_nat (length l)) k.
Proof.
  revert a. induction l as [|v l IH]; intros a; cbn [app length].
  - replace (a + 4 * Z.of_nat 0) with a by lia. split; [intros H; split; [apply words_nil|done]|by intros [_ H]].
  - rewrite !words_cons, IH, (and_assoc (f a = v)). by replace (a + 4 + 4 * Z.of_nat (length l)) with (a + 4 * Z.of_nat (S (length l))) by lia.
Qed.

(** Addresses on the stack as an offset from where it was. *)
Ltac offsets := repeat (rewrite u32_add_l || rewrite <- Z.add_assoc); cbn [Z.add Pos.add Pos.succ Pos.add_carry]; rewrite ?u32_small by lia.

Lemma popal_spec m edi esi ebp oesp ebx edx ecx eax : 0 <= regs m ESP -> regs m ESP + 32 < 2 ^ 32 ->
  words_at (mem m) (regs m ESP) [edi; esi; ebp; oesp; ebx; edx; ecx; eax] ->
  let m' := run [Popal] m in
  (forall r, regs m' r = match r with EDI => edi | ESI => esi | EBP => ebp | EBX => ebx | EDX => edx | ECX => ecx | EAX => eax
                         | ESP => regs m ESP + 32 end) /\
  mem m' = mem m /\ rest m' = rest m.
Proof.
  intros H0 H1 Hw. rewrite !words_cons in Hw. destruct Hw as (W1 & W2 & W3 & W4 & W5 & W6 & W7 & W8 & _).
  rewrite <- !Z.add_assoc in *. cbn [Z.add Pos.add Pos.succ Pos.add_carry] in *.
  split_and!; [|done..]. intros []; cbn; offsets; done.
Qed.

Lemma segs_spec m gs fs es ds n err : 0 <= regs m ESP -> regs m ESP + 24 < 2 ^ 32 ->
  words_at (mem m) (regs m ESP) [gs; fs; es; ds; n; err] ->
  let m' := run [PopS GS; PopS FS; PopS ES; PopS DS; AddI 8 ESP] m in
  (forall r, sregs m' r = Z.land (match r with GS => gs | FS => fs | ES => es | DS => ds end) 65535) /\
  (forall r, r <> ESP -> regs m' r = regs m r) /\ regs m' ESP = regs m ESP + 24 /\
  mem m' = mem m /\ cs m' = cs m /\ ss m' = ss m.
Proof.
  intros H0 H1 Hw. rewrite !words_cons in Hw. destruct Hw as (W1 & W2 & W3 & W4 & _).
  rewrite <- !Z.add_assoc in *. cbn [Z.add Pos.add Pos.succ Pos.add_carry] in *. split_and!.
  - intros []; cbn; unfold top; offsets; by rewrite ?W1, ?W2, ?W3, ?W4.
  - intros r Hr. cbn. by rewrite !(reg_eqb_ne r ESP).
  - cbn. by offsets.
  - done.
  - done.
  - done.
Qed.

Lemma drop_other m r : r <> ESP -> regs (drop_top m) r = regs m r.
Proof. intros Hr. cbn. by rewrite reg_eqb_ne. Qed.
Lemma drop_rest m : mem (drop_top m) = mem m /\ sregs (drop_top m) = sregs m /\ ss (drop_top m) = ss m.
Proof. done. Qed.

Lemma iret_same m e c f : 0 <= regs m ESP -> regs m ESP + 12 < 2 ^ 32 -> words_at (mem m) (regs m ESP) [e; c; f] ->
  (Z.land (Z.land c 65535) 3 =? Z.land (cs m) 3) = true ->
  let m' := iret m in
  (forall r, r <> ESP -> regs m' r = regs m r) /\ regs m' ESP = regs m ESP + 12 /\
  eip m' = e /\ cs m' = Z.land c 65535 /\ ss m' = ss m /\ eflags m' = f /\ mem m' = mem m /\ sregs m' = sregs m.
Proof.
  intros H0 H1 Hw Hl.
  destruct (pop_eq m _ _ _ eq_refl H0 ltac:(lia) Hw) as (T1 & E1 & W1).
  destruct (pop_eq _ _ _ _ E1 ltac:(lia) ltac:(lia) W1) as (T2 & E2 & W2).
  destruct (pop_eq _ _ _ _ E2 ltac:(lia) ltac:(lia) W2) as (T3 & E3 & _).
  cbv zeta. unfold iret. rewrite T1, T2, T3, Hl. cbn [regs sregs mem eip cs ss eflags].
  split_and!; try done; [|lia]. intros r Hr. by rewrite !drop_other.
Qed.

Lemma iret_cross m e c f sp s : 0 <= regs m ESP -> regs m ESP + 20 < 2 ^ 32 -> words_at (mem m) (regs m ESP) [e; c; f; sp; s] ->
  (Z.land (Z.land c 65535) 3 =? Z.land (cs m) 3) = false ->
  let m' := iret m in
  (forall r, r <> ESP -> regs m' r = regs m r) /\ regs m' ESP = sp /\
  eip m' = e /\ cs m' = Z.land c 65535 /\ ss m' = Z.land s 65535 /\ eflags m' = f /\ mem m' = mem m /\ sregs m' = sregs m.
Proof.
  intros H0 H1 Hw Hl.
  destruct (pop_eq m _ _ _ eq_refl H0 ltac:(lia) Hw) as (T1 & E1 & W1).
  destruct (pop_eq _ _ _ _ E1 ltac:(lia) ltac:(lia) W1) as (T2 & E2 & W2).
  destruct (pop_eq _ _ _ _ E2 ltac:(lia) ltac:(lia) W2) as (T3 & E3 & W3).
  destruct (pop_eq _ _ _ _ E3 ltac:(lia) ltac:(lia) W3) as (T4 & E4 & W4). apply words_cons in W4 as [W4 _]. rewrite <- E4 in W4.
  cbv zeta. unfold iret. rewrite T1, T2, T3, Hl, T4. change (top (drop_top (drop_top (drop_top (drop_top m)))) = s) in W4. rewrite W4.
  unfold set_reg. cbn [regs sregs mem eip cs ss eflags reg_eqb reg_ix Nat.eqb].
  split_and!; try done. intros r Hr. rewrite reg_eqb_ne by done. by rewrite !drop_other.
Qed.

(** The frame's registers are the processor's after [trapret]. *)
Lemma trapret_spec e n err m m2 v : trapped e n err m ->
  let f := <[TF_EAX := v]> in
  forall tf t, regs m2 ESP = tf -> 0 <= tf -> tf + tf_size e < 2 ^ 32 -> words_at (mem m2) tf (f (frame_at e n err m t)) ->
  Z.land (cs m2) 3 = Z.land (en_cs e) 3 -> (if crosses e then True else tf + 68 = regs m ESP /\ ss m2 = ss m) ->
  same_cpu (set_reg EAX v m) (run trapret m2) /\ mem (run trapret m2) = mem m2.
Proof.
  intros Ht f tf t Hsp H0 H1 Hw Hc Hx. assert (H68 : tf + 68 < 2 ^ 32) by (unfold tf_size in H1; destruct (crosses e); lia).
  assert (Ef : f (frame_at e n err m t) =
    [regs m EDI; regs m ESI; regs m EBP; t + 32; regs m EBX; regs m EDX; regs m ECX; v] ++
    [sregs m GS; sregs m FS; sregs m ES; sregs m DS; n; default 0 err] ++
    [eip m; cs m; eflags m] ++ (if crosses e then [regs m ESP; ss m] else [])) by done.
  rewrite Ef in Hw. clear Ef. do 2 rewrite words_app in Hw. destruct Hw as (W1 & W2 & W3). cbn [length] in W2, W3.
  replace (tf + 4 * Z.of_nat 8) with (tf + 32) in * by lia. replace (tf + 32 + 4 * Z.of_nat 6) with (tf + 56) in * by lia.
  assert (Er : run trapret m2 = iret (run [PopS GS; PopS FS; PopS ES; PopS DS; AddI 8 ESP] (run [Popal] m2))).
  { change trapret with ([Popal] ++ [PopS GS; PopS FS; PopS ES; PopS DS; AddI 8 ESP] ++ [Iret]). rewrite !run_app.
    by generalize (run [PopS GS; PopS FS; PopS ES; PopS DS; AddI 8 ESP] (run [Popal] m2)). }
  rewrite <- Hsp in W1.
  destruct (popal_spec m2 _ _ _ _ _ _ _ _ ltac:(lia) ltac:(lia) W1) as (R3 & M3 & S3).
  generalize dependent (run [Popal] m2). intros m3 Er R3 M3 S3. injection S3 as S3 I3 C3 X3 F3.
  rewrite <- M3 in W2, W3. replace (tf + 32) with (regs m3 ESP) in W2 by (rewrite R3; lia).
  destruct (segs_spec m3 _ _ _ _ _ _ ltac:(rewrite R3; lia) ltac:(rewrite R3; lia) W2) as (S4 & R4 & E4 & M4 & C4 & X4).
  generalize dependent (run [PopS GS; PopS FS; PopS ES; PopS DS; AddI 8 ESP] m3). intros m4 Er S4 R4 E4 M4 C4 X4.
  rewrite <- M4 in W3. rewrite R3 in E4. replace (tf + 56) with (regs m4 ESP) in W3 by lia. rewrite Er.
  destruct Ht as [_ _ Hl Hsr Hcs Hss].
  assert (H16 : forall a, 0 <= a < 65536 -> Z.land a 65535 = a) by (intros a Ha; rewrite land_16; apply Z.mod_small; lia).
  assert (Hl4 : (Z.land (Z.land (cs m) 65535) 3 =? Z.land (cs m4) 3) = negb (crosses e)) by (rewrite C4, C3, Hc, H16; done).
  unfold same_cpu. unfold tf_size in H1. destruct (crosses e); cbn [negb app] in *.
  - destruct (iret_cross m4 _ _ _ _ _ ltac:(lia) ltac:(lia) W3 Hl4) as (A1 & A2 & A3 & A4 & A5 & A6 & A7 & A8).
    rewrite A3, A4, A5, A6, A7, A8, !H16 by done. split_and!; try done; [| |by rewrite M4].
    + intros r. destruct r; rewrite ?A2, ?A1, ?R4, ?R3 by done; done.
    + intros r. rewrite S4. by destruct r; rewrite H16.
  - destruct Hx as [Hx1 Hx2].
    destruct (iret_same m4 _ _ _ ltac:(lia) ltac:(lia) W3 Hl4) as (A1 & A2 & A3 & A4 & A5 & A6 & A7 & A8).
    rewrite A3, A4, A5, A6, A7, A8, !H16 by done. split_and!; try done; [| |by rewrite X4, X3|by rewrite M4].
    + intros r. destruct r; rewrite ?A2, ?A1, ?R4, ?R3 by done; try done. cbn. lia.
    + intros r. rewrite S4. by destruct r; rewrite H16.
Qed.

(** What the entry leaves of the processor. *)
Lemma rest_segs a b : rest a = rest b -> cs a = cs b /\ ss a = ss b.
Proof. intros H. split; [exact (f_equal (fun x => x.1.1.2) H)|exact (f_equal (fun x => x.1.2) H)]. Qed.

Lemma entry_rest e n err m : let m1 := run alltraps (run (vector n) (enter e err m)) in
  cs m1 = en_cs e /\ (crosses e = false -> ss m1 = ss m).
Proof.
  cbv zeta. rewrite alltraps_eq.
  change [PushS DS; PushS ES; PushS FS; PushS GS; Pushal] with ([PushS DS; PushS ES; PushS FS; PushS GS] ++ [Pushal]).
  rewrite run_app, vector_pushes.
  set (a := pushes (vec_words n) (enter e err m)). rewrite segs_pushes. set (b := pushes _ a). rewrite pushal_pushes. set (c := pushes _ b).
  assert (T : rest c = rest (enter e err m)) by (unfold c, b, a; rewrite !pushes_rest; done).
  assert (R : cs (run to_trap c) = cs c /\ ss (run to_trap c) = ss c) by (generalize c; done).
  destruct R as [-> ->]. clearbody c. clear a b. destruct (rest_segs _ _ T) as [-> ->].
  rewrite (enter_pushes e err m). cbn [cs ss]. split; [done|]. intros Hx.
  pose proof (pushes_rest (hw_words (crosses e) m err) (match en_stack e with
    | Some (s, sp) => set_reg ESP sp (Mach (regs m) (sregs m) (eip m) (cs m) s (eflags m) (mem m)) | None => m end)) as Q.
  apply rest_segs in Q as [_ ->]. unfold crosses in Hx. by destruct (en_stack e).
Qed.

(** The processor when [trap] returns to [alltraps]: the stack pointer and the
    code and stack segments are as at the call, and its frame holds [f]. *)
Definition returned (m1 m2 : mach) (f : list Z) : Prop :=
  regs m2 ESP = regs m1 ESP /\ cs m2 = cs m1 /\ ss m2 = ss m1 /\ words_at (mem m2) (regs m1 ESP + 4) f.

Lemma trap_return e n err m m2 v : trapped e n err m ->
  let m1 := run alltraps (run (vector n) (enter e err m)) in
  returned m1 m2 (<[TF_EAX := v]> (frame_at e n err m (stack_top e m - tf_size e))) ->
  let m3 := run (after_trap ++ trapret) m2 in
  same_cpu (set_reg EAX v m) m3 /\ mem m3 = mem m2.
Proof.
  intros Ht m1 (H1 & H2 & H3 & H4) m3. destruct (trap_entry e n err m Ht) as (E1 & _). fold m1 in E1.
  destruct (entry_rest e n err m) as [C1 S1]. fold m1 in C1, S1. clearbody m1.
  set (tf := stack_top e m - tf_size e) in *. assert (Htf : 0 <= tf /\ tf + tf_size e < 2 ^ 32 /\ 0 <= tf - 4).
  { pose proof (tr_room _ _ _ _ Ht). unfold tf, tf_size in *. destruct (crosses e); lia. }
  unfold m3. rewrite run_app. cbn [run after_trap foldl step]. fold (run trapret (set_reg ESP (u32 (regs m2 ESP + 4)) m2)).
  rewrite H1, E1 in *. replace (tf - 4 + 4) with tf in * by lia.
  assert (Hu : u32 tf = tf) by (apply u32_small; unfold tf_size in Htf; destruct (crosses e); lia).
  apply (trapret_spec e n err m (set_reg ESP (u32 tf) m2) v Ht tf tf); try done; try tauto.
  - cbn [set_reg cs]. by rewrite H2, C1.
  - destruct (crosses e) eqn:Hx; [done|]. split; [|by cbn [set_reg ss]; rewrite H3, S1].
    unfold tf, tf_size, stack_top. unfold crosses in *. destruct (en_stack e); [done|]. lia.
Qed.

(** C18: a trap saves the processor and gives it back.  Whatever runs when trap
    [n] is taken, at user level on the stack of the task state or in the kernel on
    its own, [trap] is called with the address of a frame with every register, the
    number and the error code (0 if the processor has none) in the places of
    struct trapframe, in the kernel's data segments; no memory changes but the
    frame and the argument.  If the frame is unchanged when [trap] returns except
    that [eax] is [v], then after [trapret] every general and segment register, the
    program counter, the stack and the flags are what they were, [eax] is [v], and
    memory is as [trap] left it. *)
Theorem trap_returns (e : entered) (n : Z) (err : option Z) (m : mach) :
  trapped e n err m ->
  let sp := stack_top e m in let tf := sp - tf_size e in
  let m1 := run alltraps (run (vector n) (enter e err m)) in
  mem m1 (regs m1 ESP) = tf /\ words_at (mem m1) tf (frame_at e n err m tf) /\ sregs m1 DS = 16 /\ sregs m1 ES = 16 /\
  (forall y, ~ tf - 4 <= y < sp -> mem m1 y = mem m y) /\
  forall m2 v, returned m1 m2 (<[TF_EAX := v]> (frame_at e n err m tf)) ->
    same_cpu (set_reg EAX v m) (run (after_trap ++ trapret) m2) /\ mem (run (after_trap ++ trapret) m2) = mem m2.
Proof.
  intros Ht sp tf m1. destruct (trap_entry e n err m Ht) as (E1 & [W1 W2]%words_cons & D & S & M). fold sp tf m1 in E1, W1, W2, D, S, M.
  replace (tf - 4 + 4) with tf in W2 by lia. split_and!; try done; [by rewrite E1|].
  intros m2 v Hr. by apply (trap_return e n err m m2 v Ht).
Qed.

(** The way back of a system call stub. *)
Lemma stub_return (e : entered) (m : mach) (num a r v : Z) (m2 : mach) :
  let m0 := set_eip a (run (stub num) m) in
  trapped e T_SYSCALL None m0 -> crosses e = true -> 0 <= regs m ESP -> regs m ESP + 4 < 2 ^ 32 ->
  let m1 := run alltraps (run (vector T_SYSCALL) (enter e None m0)) in
  returned m1 m2 (<[TF_EAX := v]> (frame_at e T_SYSCALL None m0 (stack_top e m0 - tf_size e))) -> mem m2 (regs m ESP) = r ->
  let m3 := run stub_end (run (after_trap ++ trapret) m2) in
  eip m3 = r /\ regs m3 EAX = v /\ regs m3 ESP = regs m ESP + 4 /\ (forall x, x <> EAX -> x <> ESP -> regs m3 x = regs m x).
Proof.
  intros m0 Ht Hx H0 H1 m1 Hr Hret.
  destruct (trap_return e T_SYSCALL None m0 m2 v Ht Hr) as [(R & _) M].
  cbv zeta in *. generalize dependent (run (after_trap ++ trapret) m2). intros m3 R M. clearbody m1.
  assert (Rm : forall x, x <> EAX -> regs m3 x = regs m x).
  { intros x Hne. rewrite R. cbn [set_reg regs]. rewrite reg_eqb_ne by done. cbn. by rewrite reg_eqb_ne. }
  cbn [run stub_end foldl step set_eip eip regs]. unfold top, drop_top. rewrite M, (Rm ESP) by done. split_and!.
  - done.
  - cbn. by rewrite R.
  - cbn. by rewrite u32_small by lia.
  - intros x Hne Hsp. cbn. rewrite reg_eqb_ne by done. by apply Rm.
Qed.

(** A system call stub of usys.S is a function call: it enters [trap] with the
    number in the frame's [eax], and when [trap] returns with [v] there and the
    user's return address still on its stack, it returns [v] to its caller, on the
    caller's stack, with every other register as it was.  [a] is the address of
    its [ret]. *)
Theorem stub_returns (e : entered) (m : mach) (num a r v : Z) (m2 : mach) :
  let m0 := set_eip a (run (stub num) m) in
  trapped e T_SYSCALL None m0 -> crosses e = true -> 0 <= regs m ESP -> regs m ESP + 4 < 2 ^ 32 ->
  let tf := stack_top e m0 - tf_size e in
  let m1 := run alltraps (run (vector T_SYSCALL) (enter e None m0)) in
  mem m1 (tf + 4 * Z.of_nat TF_EAX) = num /\
  (returned m1 m2 (<[TF_EAX := v]> (frame_at e T_SYSCALL None m0 tf)) -> mem m2 (regs m ESP) = r ->
   let m3 := run stub_end (run (after_trap ++ trapret) m2) in
   eip m3 = r /\ regs m3 EAX = v /\ regs m3 ESP = regs m ESP + 4 /\ (forall x, x <> EAX -> x <> ESP -> regs m3 x = regs m x)).
Proof.
  intros m0 Ht Hx H0 H1 tf m1. destruct (trap_entry e T_SYSCALL None m0 Ht) as (_ & [_ W]%words_cons & _). fold tf m1 in W.
  replace (tf - 4 + 4) with tf in W by lia. split; [by apply W|]. by apply (stub_return e m num a r v m2 Ht Hx H0 H1).
Qed.

(** The top of the kernel stack that [allocproc] builds, with the frame [tf] that
    [fork] or [userinit] puts there. *)
Definition new_stack (forkret trapret : Z) (tf : list Z) : list Z := ctx_words (Context 0 0 0 0 forkret) ++ [trapret] ++ tf.

Lemma new_stack_size m n err oesp v fr tr :
  4 * Z.of_nat (length (new_stack fr tr (<[TF_EAX := v]> (frame true m n err oesp)))) = 100.
Proof. done. Qed.

(** The first switch to such a stack, up to user code. *)
Lemma stack_starts (e : entered) (n : Z) (err : option Z) (m : mach) (t v : Z) (ms : mach) (ret old new forkret tret : Z) :
  trapped e n err m -> crosses e = true ->
  swtch_call ms ret old new (Context 0 0 0 0 forkret) ->
  words_at (mem ms) new (new_stack forkret tret (<[TF_EAX := v]> (frame_at e n err m t))) ->
  (old < new \/ new + 100 <= old) -> (new + 100 <= regs ms ESP - 16 \/ regs ms ESP <= new) -> new + 100 < 2 ^ 32 ->
  let m1 := run swtch ms in
  eip m1 = forkret /\ regs m1 ESP = new + 20 /\
  forall m2, regs m2 ESP = regs m1 ESP -> Z.land (cs m2) 3 = Z.land (en_cs e) 3 ->
    (forall y, new + 20 <= y < new + 100 -> mem m2 y = mem m1 y) ->
    let m3 := run [Ret] m2 in
    eip m3 = tret /\ same_cpu (set_reg EAX v m) (run trapret m3) /\ mem (run trapret m3) = mem m2.
Proof.
  intros Ht Hx Hc Hw Ho Hs Hn m1. destruct (swtch_spec ms ret old new _ Hc) as (_ & _ & M & (_ & _ & _ & _ & E & S) & _).
  fold m1 in M, E, S. clearbody m1. split; [done|]. split; [done|]. intros m2 E2 C2 M2.
  pose proof (sc_new _ _ _ _ _ Hc) as [Hn0 _]. unfold new_stack in Hw. do 2 rewrite words_app in Hw. destruct Hw as (_ & Wr & Wt).
  cbn [length ctx_words] in Wr, Wt. replace (new + 4 * Z.of_nat 5) with (new + 20) in * by lia.
  replace (new + 20 + 4 * Z.of_nat 1) with (new + 24) in Wt by lia. apply words_cons in Wr as [Wr _].
  assert (Hsame : forall y, new + 20 <= y < new + 100 -> mem m2 y = mem ms y).
  { intros y Hy. rewrite M2 by done. apply M; [lia|]. destruct Hs; lia. }
  assert (E3 : regs (run [Ret] m2) ESP = new + 24) by (cbn; rewrite E2, S, u32_small by lia; lia).
  split; [cbn; unfold top; rewrite E2, S, Hsame by lia; done|].
  assert (M3 : mem (run [Ret] m2) = mem m2) by done. assert (C3 : cs (run [Ret] m2) = cs m2) by done.
  cbv zeta. generalize dependent (run [Ret] m2). intros m3 E3 M3 C3. rewrite <- M3.
  apply (trapret_spec e n err m m3 v Ht (new + 24) t); rewrite ?C3, ?M3, ?Hx; try done; [lia|unfold tf_size; rewrite Hx; lia|].
  eapply words_ext; [|exact Wt]. unfold frame_at. rewrite Hx. cbn. intros y Hy. apply Hsame. lia.
Qed.

(** How a forked child starts.  The child's stack is as [allocproc] and [fork]
    leave it: a context that goes to [forkret], the address of [trapret], and a copy
    of the frame of the parent's trap with [eax] 0.  The first switch to it runs
    [forkret] at the top of that stack.  When [forkret] returns, the processor is in
    [trapret] at the frame, and from there in the parent's user code, with
    every register as the parent had it at its trap except that [eax] is 0. *)
Theorem child_starts (e : entered) (n : Z) (err : option Z) (m : mach) (t : Z) (ms : mach) (ret old new forkret tret : Z) :
  trapped e n err m -> crosses e = true ->
  swtch_call ms ret old new (Context 0 0 0 0 forkret) ->
  words_at (mem ms) new (new_stack forkret tret (<[TF_EAX := 0]> (frame_at e n err m t))) ->
  (old < new \/ new + 100 <= old) -> (new + 100 <= regs ms ESP - 16 \/ regs ms ESP <= new) -> new + 100 < 2 ^ 32 ->
  let m1 := run swtch ms in
  eip m1 = forkret /\ regs m1 ESP = new + 20 /\
  forall m2, regs m2 ESP = regs m1 ESP -> Z.land (cs m2) 3 = Z.land (en_cs e) 3 ->
    (forall y, new + 20 <= y < new + 100 -> mem m2 y = mem m1 y) ->
    let m3 := run [Ret] m2 in
    eip m3 = tret /\ same_cpu (set_reg EAX 0 m) (run trapret m3) /\ mem (run trapret m3) = mem m2.
Proof. apply stack_starts. Qed.

(** The processor [userinit]'s frame stands for, and a trap it could come from. *)
Definition first_user : mach :=
  Mach (fun r => match r with ESP => PGSIZE | _ => 0 end) (fun r => match r with DS => 35 | ES => 35 | _ => 0 end) 0 27 35 FL_IF (fun _ => 0).
Definition first_entry : entered := Entered 0 8 0 (Some (16, 4096)) true.
Lemma first_frame : user_tf = <[TF_EAX := 0]> (frame_at first_entry 0 None first_user (-32)).
Proof. reflexivity. Qed.
Lemma first_trapped : trapped first_entry 0 None first_user.
Proof. split; [reflexivity|cbn; lia|reflexivity|intros []; cbn; lia|cbn; lia|cbn; lia]. Qed.

(** The first process: the switch to the stack that [allocproc] and [userinit] build
    ends at address 0 at user level, interrupts on, with the stack at the end of
    its page; there initcode.S calls [exec], its arguments on the stack behind a
    return address of 0, where [argptr] and [argstr] look for them. *)
Theorem init_starts (ms : mach) (ret old new forkret tret argv init : Z) :
  swtch_call ms ret old new (Context 0 0 0 0 forkret) -> words_at (mem ms) new (new_stack forkret tret user_tf) ->
  (old < new \/ new + 100 <= old) -> (new + 100 <= regs ms ESP - 16 \/ regs ms ESP <= new) -> new + 100 < 2 ^ 32 ->
  let m1 := run swtch ms in
  eip m1 = forkret /\
  forall m2, regs m2 ESP = regs m1 ESP -> Z.land (cs m2) 3 = 0 -> (forall y, new + 20 <= y < new + 100 -> mem m2 y = mem m1 y) ->
    let m3 := run [Ret] m2 in let m4 := run trapret m3 in let m5 := run (initcode_exec argv init) m4 in
    eip m3 = tret /\ eip m4 = 0 /\ cs m4 = 27 /\ eflags m4 = FL_IF /\
    regs m5 EAX = SYS_exec /\ regs m5 ESP = PGSIZE - 12 /\ words_at (mem m5) (PGSIZE - 12) [0; init; argv].
Proof.
  intros Hc Hw Ho Hs Hn m1. rewrite first_frame in Hw.
  destruct (stack_starts first_entry 0 None first_user (-32) 0 ms ret old new forkret tret first_trapped eq_refl Hc Hw Ho Hs Hn) as (A & _ & B).
  fold m1 in A, B. clearbody m1. split; [done|]. intros m2 E2 C2 M2. destruct (B m2 E2 C2 M2) as (D & (R & _ & I & C & _ & F) & _).
  cbv zeta. generalize dependent (run trapret (run [Ret] m2)). intros m4 R I C F.
  pose proof (R ESP) as Hsp. change (regs m4 ESP = 4096) in Hsp. split_and!; try done.
  - cbn. by rewrite Hsp.
  - repeat (apply words_cons; split; [cbn; by rewrite Hsp|]). apply words_nil.
Qed.

(** ** Concrete machines *)

Definition cells (l : list (Z * Z)) (x : Z) : Z := foldr (fun p d => if x =? p.1 then p.2 else d) 0 l.
Ltac concrete_words := repeat (apply words_cons; split; [vm_compute; reflexivity|]); apply words_nil.

(** A call of [swtch] at 1000 with [old] 2000 and a context at 3000, and one on
    another stack that comes back. *)
Definition sw_m : mach :=
  Mach (fun r => match r with ESP => 1000 | _ => 20 + Z.of_nat (reg_ix r) end) (fun _ => 16) 0 8 16 0
    (cells [(1000, 7); (1004, 2000); (1008, 3000); (3000, 11); (3004, 12); (3008, 13); (3012, 14); (3016, 15)]).
Definition sw_back : mach :=
  let m := run swtch sw_m in
  store 4008 984 (store 4004 2004 (store 4000 8 (set_reg ESP 4000 m))).

Lemma sw_call : swtch_call sw_m 7 2000 3000 (Context 11 12 13 14 15).
Proof. split; try (cbn; lia); concrete_words. Qed.

Lemma swtch_returns_witness :
  mem (run swtch sw_m) 2000 = 984 /\ resumes (run swtch sw_m) (Context 11 12 13 14 15) 3000 /\
  eip (run swtch sw_back) = 7 /\ regs (run swtch sw_back) ESP = 1004 /\ regs (run swtch sw_back) EBX = 23.
Proof.
  destruct (swtch_returns sw_m 7 2000 3000 (Context 11 12 13 14 15) sw_call) as (H1 & _ & _ & H4 & H5).
  split; [exact H1|]. split; [exact H4|].
  assert (Hb : swtch_call sw_back 8 2004 984 (saved sw_m 7)).
  { assert (He : regs sw_back ESP = 4000) by (vm_compute; reflexivity). split; rewrite ?He; try lia; concrete_words. }
  rewrite H1 in H5. destruct (H5 sw_back 8 2004 Hb) as (A & B & _ & _ & C & _). split; [exact A|]. split; [exact B|exact C].
Defined.

(** A user program at a system call, and the return of [trap] with 5 in [eax]. *)
Definition user_m : mach :=
  Mach (fun r => match r with ESP => 5000 | _ => 100 + Z.of_nat (reg_ix r) end) (fun _ => 35) 4096 27 35 512 (cells [(5000, 77)]).
Definition sys_entry : entered := Entered 2148532736 8 0 (Some (16, 9000)) true.
Definition trap_called (m : mach) : mach := run alltraps (run (vector T_SYSCALL) (enter sys_entry None m)).

Ltac concrete_trap := split; [reflexivity|cbn; lia|reflexivity|intros; cbn; lia|cbn; lia|cbn; lia].
Lemma user_trapped : trapped sys_entry T_SYSCALL None user_m.
Proof. concrete_trap. Qed.

Lemma trap_returns_witness :
  let m2 := store 8952 5 (trap_called user_m) in
  mem (trap_called user_m) 8920 = 8924 /\ mem (trap_called user_m) 8972 = 64 /\ same_cpu (set_reg EAX 5 user_m) (run (after_trap ++ trapret) m2).
Proof.
  destruct (trap_returns sys_entry T_SYSCALL None user_m user_trapped) as (H1 & H2 & _ & _ & _ & H6). split; [exact H1|].
  split; [exact (H2 12%nat 64 eq_refl)|]. apply H6. split; [vm_compute; reflexivity|]. split; [vm_compute; reflexivity|].
  split; [vm_compute; reflexivity|]. concrete_words.
Defined.

Lemma stub_returns_witness :
  let m0 := set_eip 4101 (run (stub 11) user_m) in
  let m3 := run stub_end (run (after_trap ++ trapret) (store 8952 5 (trap_called m0))) in
  mem (trap_called m0) 8952 = 11 /\ eip m3 = 77 /\ regs m3 EAX = 5 /\ regs m3 ESP = 5004 /\ regs m3 EBX = 103.
Proof.
  destruct (stub_returns sys_entry user_m 11 4101 77 5 (store 8952 5 (trap_called (set_eip 4101 (run (stub 11) user_m))))) as [H1 H2].
  - concrete_trap.
  - reflexivity.
  - cbn; lia.
  - cbn; lia.
  - split; [exact H1|]. destruct H2 as (A & B & C & D); [|vm_compute; reflexivity|].
    + split; [vm_compute; reflexivity|]. split; [vm_compute; reflexivity|]. split; [vm_compute; reflexivity|]. concrete_words.
    + split; [exact A|]. split; [exact B|]. split; [exact C|]. by apply (D EBX).
Defined.

(** The scheduler at 1000 and a new process with its stack up to 7000. *)
Definition fork_m : mach :=
  let f := new_stack 2148535000 2148536000 (<[TF_EAX := 0]> (frame_at sys_entry T_SYSCALL None user_m 8924)) in
  Mach (fun r => match r with ESP => 1000 | _ => 0 end) (fun _ => 16) 0 8 16 0
    (cells ([(1000, 7); (1004, 2000); (1008, 6900)] ++ imap (fun k v => (6900 + 4 * Z.of_nat k, v)) f)).

Lemma child_starts_witness :
  let m3 := run [Ret] (run swtch fork_m) in
  eip (run swtch fork_m) = 2148535000 /\ eip m3 = 2148536000 /\ same_cpu (set_reg EAX 0 user_m) (run trapret m3).
Proof.
  destruct (child_starts sys_entry T_SYSCALL None user_m 8924 fork_m 7 2000 6900 2148535000 2148536000 user_trapped eq_refl) as (A & B & C).
  - split; try (cbn; lia); concrete_words.
  - concrete_words.
  - lia.
  - cbn. lia.
  - lia.
  - split; [exact A|]. destruct (C (run swtch fork_m) eq_refl) as (D & E & _); [vm_compute; reflexivity|done|]. by split.
Defined.

Definition init_m : mach :=
  Mach (fun r => match r with ESP => 1000 | _ => 0 end) (fun _ => 16) 0 8 16 0
    (cells ([(1000, 7); (1004, 2000); (1008, 6900)] ++ imap (fun k v => (6900 + 4 * Z.of_nat k, v)) (new_stack 2148535000 2148536000 user_tf))).

Lemma init_starts_witness :
  let m5 := run (initcode_exec 36 28) (run trapret (run [Ret] (run swtch init_m))) in
  regs m5 EAX = 7 /\ words_at (mem m5) 4084 [0; 28; 36].
Proof.
  destruct (init_starts init_m 7 2000 6900 2148535000 2148536000 36 28) as (A & C).
  - split; try (cbn; lia); concrete_words.
  - concrete_words.
  - lia.
  - cbn. lia.
  - lia.
  - destruct (C (run swtch init_m) eq_refl) as (_ & _ & _ & _ & D & _ & E); [vm_compute; reflexivity|done|]. split; [exact D|exact E].
Defined.
