(* ===== verification/Usercall.v ===== *)
(** A system call from one end to the other: the C call of a stub of usys.S, the
    trap through vectors.pl and trapasm.S (Asm.v), [trap] and [syscall] with the
    handler of the table (Sysproc.v), and the return to the caller. *)
From stdpp Require Import base numbers list strings gmap.
From Stdlib Require Import ZArith Lia.
From S2P Require Import Prelude Params CString Users Namecache Bio Log Store Fs Sample Kalloc Vm Grow Pipe File Proc Fork Syscall Sysfile Exec Sysproc Spinlock Seg Asm.

Local Open Scope list_scope.
Local Open Scope Z_scope.

Section Code.
Context {S : Type} `{!BlockStore S}.
Context (dev_read : Z -> option (nat -> Z -> M (fs S) (Z * list Z))).
Context (dev_write : Z -> option (nat -> list Z -> Z -> M (fs S) Z)).
Context (kend kdata forkret_eip : Z).

(** The running process, with frame [F], is not killed. *)
Definition serving (F : list Z) (s : kern S) : Prop :=
  exists p, procs s !! curp s = Some p /\ p_tf p = F /\ p_killed p = 0.
Definition with_frame (F : list Z) (s : kern S) : kern S := set_procs (alter (set_tf F) (curp s)) s.

Lemma curproc_run (s : kern S) p : procs s !! curp s = Some p -> curproc s = Ok p s.
Proof. intros Hp. unfold curproc, bind, myproc, getp, gets. by rewrite (nthd_lookup _ _ _ _ Hp). Qed.
Lemma go_on F (s : kern S) : serving F s -> exit_if_killed kend s = Ok true s.
Proof. intros (p & Hp & _ & Hk). unfold exit_if_killed, bind. rewrite (curproc_run s p Hp), Hk. done. Qed.
Lemma serving_frame F G (s : kern S) : serving F s -> serving G (with_frame G s).
Proof.
  intros (p & Hp & _ & Hk). exists (set_tf G p). split; [|done]. cbn [with_frame set_procs procs curp].
  by rewrite list_lookup_alter_eq, Hp.
Qed.

(** [trap] for a system call whose handler returns [r] and leaves the frame. *)
Lemma trap_syscall F F0 s h r s1 line num :
  nthd 0 F TF_TRAPNO = T_SYSCALL -> nthd 0 F TF_EAX = num ->
  serving F0 s -> syscalls dev_read dev_write kend kdata forkret_eip (i32 num) = Some h ->
  h (with_frame F s) = Ok r s1 -> serving F s1 ->
  trap_user dev_read dev_write kend kdata forkret_eip F line s = Ok true (with_frame (<[TF_EAX := u32 r]> F) s1).
Proof.
  intros Hn He Hs Hh Hr H1. unfold trap_user. rewrite Hn, Z.eqb_refl. unfold bind at 1. rewrite (go_on F0 s Hs).
  pose proof (serving_frame F0 F s Hs) as Hf. unfold bind at 1, myproc, gets. unfold bind at 1.
  change (updp (curp s) (set_tf F) s) with (Ok tt (with_frame F s)). unfold bind at 1.
  assert (Hsys : syscall dev_read dev_write kend kdata forkret_eip (with_frame F s) = Ok true (with_frame (<[TF_EAX := u32 r]> F) s1)).
  { destruct Hf as (p & Hp & Hpt & _). unfold syscall. unfold bind at 1. rewrite (curproc_run _ p Hp), Hpt, He.
    assert (Hx : (i32 num =? SYS_exit) = false).
    { apply Z.eqb_neq. intros E. rewrite E in Hh. discriminate Hh. }
    rewrite Hx, Hh. unfold bind at 1. rewrite Hr. destruct H1 as (q & Hq & Hqt & _).
    unfold set_eax, bind, myproc, gets, updp, modify, ret. unfold with_frame, set_procs. do 2 f_equal.
    apply list_eq. intros i. destruct (decide (i = curp s1)) as [->|Hi].
    - rewrite !list_lookup_alter_eq, Hq. cbn [fmap option_fmap option_map]. by rewrite Hqt.
    - by rewrite !list_lookup_alter_ne. }
  rewrite Hsys. apply (go_on (<[TF_EAX := u32 r]> F)). by apply (serving_frame F).
Qed.

(** C17: a system call is a function call.  A user program at [m] calls the stub
    of system call [num], whose handler [h] returns [r] from the state in which the
    process has the frame of the trap, without changing the frame.  Then [trap]
    returns to user space, and the frame it leaves, [F'], makes the stub return
    [r], as a 32-bit value, to its caller's return address, with the
    caller's stack and every other register as they were.  [a] is the address of
    the stub's [ret]; [m2] is the processor when [trap] returns. *)
Theorem user_call (e : entered) (m m2 : mach) (num a ra : Z) (s s1 : kern S) (h : M (kern S) Z) (r : Z) (F0 : list Z) (line : bool) :
  let m0 := set_eip a (run (stub num) m) in
  let F := frame_at e T_SYSCALL None m0 (stack_top e m0 - tf_size e) in
  let F' := <[TF_EAX := u32 r]> F in
  let m1 := run alltraps (run (vector T_SYSCALL) (Asm.enter e None m0)) in
  trapped e T_SYSCALL None m0 -> crosses e = true -> 0 <= regs m ESP -> regs m ESP + 4 < 2 ^ 32 ->
  serving F0 s -> syscalls dev_read dev_write kend kdata forkret_eip (i32 num) = Some h ->
  h (with_frame F s) = Ok r s1 -> serving F s1 ->
  exists s2, trap_user dev_read dev_write kend kdata forkret_eip F line s = Ok true s2 /\ serving F' s2 /\
    (returned m1 m2 F' -> mem m2 (regs m ESP) = ra ->
     let m3 := run stub_end (run (after_trap ++ trapret) m2) in
     eip m3 = ra /\ regs m3 EAX = u32 r /\ regs m3 ESP = regs m ESP + 4 /\ (forall x, x <> EAX -> x <> ESP -> regs m3 x = regs m x)).
Proof.
  intros m0 F F' m1 Ht Hx H0 H1 Hs Hh Hr Hs1.
  exists (with_frame F' s1). split_and!.
  - by apply (trap_syscall F F0 s h r s1 line num).
  - by apply (serving_frame F).
  - by apply (stub_return e m num a ra (u32 r) m2 Ht Hx H0 H1).
Qed.
End Code.

(** ** A process of user 1000 calls getuid *)

Lemma user_call_witness :
  let m0 := set_eip 4101 (run (stub 22) user_m) in
  let m3 := run stub_end (run (after_trap ++ trapret) (store 8952 1000 (trap_called m0))) in
  (exists s2, trap_user (fun _ => None) (fun _ => None) smp_kend 0 0 (frame_at sys_entry T_SYSCALL None m0 8924) false (smp_kern smp_mem) = Ok true s2) /\
  eip m3 = 77 /\ regs m3 EAX = 1000 /\ regs m3 ESP = 5004.
Proof.
  set (m0 := set_eip 4101 (run (stub 22) user_m)).
  destruct (user_call (fun _ => None) (fun _ => None) smp_kend 0 0 sys_entry user_m (store 8952 1000 (trap_called m0)) 22 4101 77
    (smp_kern smp_mem) (with_frame (frame_at sys_entry T_SYSCALL None m0 8924) (smp_kern smp_mem)) sys_getuid 1000 (p_tf smp_proc) false)
    as (s2 & E & _ & H).
  - concrete_trap.
  - reflexivity.
  - cbn; lia.
  - cbn; lia.
  - exists smp_proc. split; [reflexivity|]. split; reflexivity.
  - reflexivity.
  - reflexivity.
  - apply (serving_frame (p_tf smp_proc)). exists smp_proc. split; [reflexivity|]. split; reflexivity.
  - split; [exists s2; exact E|]. destruct H as (A & B & C & _); [|vm_compute; reflexivity|].
    + split; [vm_compute; reflexivity|]. split; [vm_compute; reflexivity|]. split; [vm_compute; reflexivity|]. concrete_words.
    + split; [exact A|]. split; [exact B|exact C].
Defined.
